(* ===== verification/_CoqProject ===== *)
-Q . S2P
Prelude.v
Machine.v
Kernel.v
Boot.v
CString.v
Spinlock.v
Printf.v
Kalloc.v
Vm.v
ProcTable.v
Seq.v
Sleeplock.v
Virtio.v
Bio.v
Log.v
Crash.v
Trans.v
Console.v
Sched.v
File.v
Fs.v
FsData.v
FsAlloc.v
FsSpec.v
FsWrite.v
FsDir.v
FsFree.v
FsPath.v
Mkfs.v
MkfsSpec.v
ProcLife.v
Syscall.v
Exec.v
Sysfile.v
FsCreate.v
Trap.v
Main.v
Grep.v
Umalloc.v
Sh.v
User.v
ShRun.v
UserProgs.v
GrepProg.v
