(* ===== verification/Prelude.v ===== *)
(** * A verification development for xv6

    The program is xv6-riscv (src/initial-xv6/src) with a read counter, alarms
    ([sigalarm], [sigreturn]), [waitx], and FCFS and MLFQ schedulers beside
    round-robin.  The development is a shallow embedding of its kernel, of mkfs and of
    the user programs: each C function is a definition of the same name, each C struct a
    record, each table of the kernel a field of the state.

    ** The program's parts and the files that model them

    Foundations.
    - [Prelude]: machine integers ([u8] .. [u64], [s8] .. [s32]: the conversions C
      performs), byte-addressed memory, little-endian objects, tactics, the hint
      database [xv6], lemmas shared by the components.
    - [Machine]: the constants of types.h, param.h, riscv.h, memlayout.h,
      syscall.h, fs.h, stat.h, fcntl.h and virtio.h.
    - [Kernel]: the state [kstate] (one field per global variable of the kernel) and
      the monad [M]; [Boot]: the state before [main], one concrete build.
    - [Seq]: running a kernel thread to its end against an environment ([wpc]).

    The process side of the kernel.
    - [CString]: string.c and the string functions of user/ulib.c.
    - [Spinlock]: spinlock.c as a machine of interleaved harts.
    - [Printf]: printf.c.  [Kalloc]: kalloc.c.  [Vm]: vm.c.
    - [ProcTable], [ProcLife]: proc.c (sleep, wakeup, kill; fork, exit, wait, waitx).
    - [Sched]: the three schedulers of proc.c and mlfq.c.
    - [Console]: console.c, uart.c.  [File]: pipe.c and the reference counts of
      file.c.  [Syscall]: syscall.c, sysproc.c, getreadcount.c.  [Trap]: trap.c.
    - [Main]: start.c, main.c and the initialisers of the devices (uart.c, plic.c,
      virtio_disk.c), over the registers of machine mode and memory-mapped registers.

    The file system, bottom up.
    - [Sleeplock]: sleeplock.c.  [Virtio]: the request path and the interrupt
      handler of virtio_disk.c, against the interface [Device].
    - [Bio]: bio.c.  [Log]: log.c.  [Crash]: the theorems about log.c.
    - [Trans]: what the layers below promise to code inside a transaction.
    - [Fs]: fs.c.  The theorems about fs.c: [FsData] (on-disk objects, the inode
      table, paths), [FsAlloc] (the free map), [FsSpec] (reading), [FsWrite] and
      [FsDir] (writing, directories), [FsFree] (freeing and creating inodes), [FsPath]
      (path names).
    - [Mkfs]: mkfs.c, on the image file; [MkfsSpec]: its theorems.
    - [Exec]: exec.c.  [Sysfile]: sysfile.c and the inode part of file.c; [FsCreate]: the
      theorem about [create].

    User space.
    - [User]: a program as a tree of system calls, printf.c and ulib.c.
    - [Umalloc]: umalloc.c on byte memory, with [sbrk].
    - [Sh]: the lexer and the parser of sh.c; [ShRun]: [runcmd], [getcmd], [main].
    - [Grep]: the matcher of grep.c; [GrepProg]: the program.  [UserProgs]: the small
      programs.

    ** How the code is translated

    [M A] is [kstate -> res A]: a function returns ([Ret]), stops in [panic]
    ([Panic] with the message; a bad pointer in the kernel is the panic of
    [kerneltrap]), or calls [swtch] ([Swtch s k]: the state at the switch and the
    rest of the function, to be run in the state in which the thread is resumed).
    [Stuck] is a loop that ran out of its bound.  Pointers to table entries are
    indices; a null pointer is [None] or 0.  Physical memory is bytes; a page that
    holds a trapframe or a pipe is kept as a record in [k_tfs] or [k_pipes], keyed by
    its address.  [k_held] are the spin-locks the CPU holds: [acquire] of a held lock
    and [release] of one that is not held panic, as in the code; contention is the
    subject of [Spinlock].  A local variable the code passes by address is a value
    that is returned ([readi_local], [writei_local]); an uninitialised one is a
    parameter.  Code that is outside the sources is a parameter behind a class:
    [Build] (linker symbols, the policy), [Uart] and [Devices] (registers),
    [Device] (a disk that serves the requests it is given), [Mmio] (what a register
    reads after the writes so far), the host of mkfs.  [FileSystem] and
    [FileSyscalls] are the interfaces between the process side and the file system;
    [Exec.xv6_fs] and [Sysfile.xv6_syscalls] implement them.  A user program is a tree
    of system calls ([U]), run against a handler.

    ** What the theorems show

    - Boot: [start] hands the machine to [main] in supervisor mode with the timer
      running; [virtio_disk_init] follows the device's protocol for every device.
    - Locks: at most one hart is inside a lock at any point of any interleaving, and
      [push_off]/[pop_off] nest; [sleep] cannot miss a [wakeup].
    - Memory: [kalloc] never hands out a page twice and [kinit] frees all memory;
      [mappages], [copyin], [copyout] and [copyinstr] against byte-by-byte
      references over the page tables in memory.
    - Processes: [exit], [wait], [fork], [waitx], [allocproc]; the rounds of the RR,
      FCFS and MLFQ schedulers, and that ageing starves nobody; time slices, alarms
      ([sigreturn] restores what the alarm interrupted).
    - Pipes and the console refine queues and line editing.
    - The disk: [bread] and [brelse] make the cache transparent ([blk] is the
      contents of a block as its readers see it), with LRU replacement.
    - The log: [end_op] commits all or nothing, at every point at which the machine
      may stop ([wpc] checks the disk at every switch, and the disk changes at no
      other time); recovery, itself interrupted anywhere and any number of times,
      gives the file system before or after the transaction; [log_write] absorbs.
    - The file system: [balloc] and [bfree] on the free map, [iget] on the inode
      table, [ilock] and [iupdate] on the on-disk inodes, [readi] and [writei] through
      direct and indirect blocks (what is written is read back, and one call stays
      within the blocks [filewrite] reserves in the log), [dirlookup] and [dirlink],
      [iput] of the last link (every block of the file is freed), [ialloc]; [namex]
      returns the inode a path means ([walk_path], [parent_path]) with one reference to
      it and leaves no other behind; [create] of files, on top of all these.
    - mkfs: the image it builds is a well-formed file system: the invariants the
      kernel's theorems ask for hold on it, the root directory names every file, and
      the free map accounts for every block.
    - [exec]'s argument strings stay inside the stack page; [dup].
    - User space: the shell parses what it prints, its parser always terminates, and
      [runcmd] makes the calls its command means; [malloc] and [free] keep the blocks
      disjoint; [grep]'s matcher decides the pattern's language; [grep], [cat] and
      [wc] are right for every way [read] cuts a file into chunks.
    - Where the code does not do what it means to, the theorem says what it does:
      [sigreturn_without_alarm], [alarm_out_of_memory], [preempt_wakes_sleeper],
      [full_log_panics], [malloc_size_overflow], [grep_stops_at_long_line].

    ** Bounds

    Loops over tables and buffers recur on the table or on the number of bytes.
    [fuel] bounds loops that wait: how often a thread is woken to find its condition
    false.  The theorems ask for the little that is needed when nobody interferes
    (two rounds for the disk, one for a free sleep-lock) and are proved for every
    larger bound.  [readi] and [writei] get [n / BSIZE + 3] rounds, enough for
    the blocks [n] bytes can touch ([read_rounds_blocks]); a path walk gets one
    round more than the path has characters, and [skipelem] shortens it.  The parser
    of the shell gets four rounds per character, [malloc] four per free block; mkfs's
    [iappend] one per byte; a user program that reads a file, one per byte.

    The theorems of the file system are about one thread that runs with the disk
    and its interrupts; other threads are absent from [disk_env].

    ** Not modelled

    The assembly (entry.S, kernelvec.S, trampoline.S, swtch.S; [swtch] is [Swtch], [mret]
    and the trampoline are the ends of [start] and [usertrapret]), the TLB flush,
    ramdisk.c (not part of the build), and the tests of the whole system (usertests.c,
    grind.c, alarmtest.c).  [main] and the handlers
    of the path system calls around [namex] and [create] are modelled without a theorem
    of their own. *)

From Stdlib Require Import ZArith Lia.
From stdpp Require Export base numbers list list_numbers gmap strings fin_maps.

#[global] Open Scope Z_scope.

(** ** Machine integers

    A C object of width [w] is a [Z]; the conversions below are the ones C
    performs on assignment and in unsigned arithmetic. *)

Definition u8 (x : Z) : Z := x mod 256.
Definition u16 (x : Z) : Z := x mod 65536.
Definition u32 (x : Z) : Z := x mod 4294967296.
Definition u64 (x : Z) : Z := x mod 18446744073709551616.

Definition s8 (x : Z) : Z :=
  if u8 x <? 128 then u8 x else u8 x - 256.
Definition s16 (x : Z) : Z :=
  if u16 x <? 32768 then u16 x else u16 x - 65536.
Definition s32 (x : Z) : Z :=
  if u32 x <? 2147483648 then u32 x else u32 x - 4294967296.

(** A C condition: non-zero is true. *)
Definition truthy (x : Z) : bool := negb (x =? 0).
Definition b2z (b : bool) : Z := if b then 1 else 0.

(** ** Byte memories

    [mem] is a byte-addressed memory; wider objects are little-endian. *)

Definition mem := Z → Z.

Definition st8 (m : mem) (a v : Z) : mem := λ b, if b =? a then u8 v else m b.

Fixpoint ld (n : nat) (m : mem) (a : Z) : Z :=
  match n with
  | O => 0
  | S n' => m a + 256 * ld n' m (a + 1)
  end.

Fixpoint st (n : nat) (m : mem) (a v : Z) : mem :=
  match n with
  | O => m
  | S n' => st n' (st8 m a v) (a + 1) (v / 256)
  end.

Abbreviation ld32 := (ld 4).
Abbreviation st32 := (st 4).
Abbreviation ld64 := (ld 8).
Abbreviation st64 := (st 8).

(** Writing and reading a list of bytes at consecutive addresses. *)
Fixpoint put_bytes (m : mem) (a : Z) (l : list Z) : mem :=
  match l with
  | [] => m
  | x :: l' => put_bytes (st8 m a x) (a + 1) l'
  end.

Fixpoint get_bytes (m : mem) (a : Z) (n : nat) : list Z :=
  match n with
  | O => []
  | S n' => m a :: get_bytes m (a + 1) n'
  end.

(** Little-endian encodings as byte lists. *)
Fixpoint le_bytes (n : nat) (v : Z) : list Z :=
  match n with
  | O => []
  | S n' => u8 v :: le_bytes n' (v / 256)
  end.

Fixpoint le_val (l : list Z) : Z :=
  match l with
  | [] => 0
  | x :: l' => x + 256 * le_val l'
  end.

(** Two memories are the same when they agree at every address. *)
Definition mem_eq (m m' : mem) : Prop := ∀ a, m a = m' a.
Infix "≡ₘ" := mem_eq (at level 70).

Definition mem_bytes (m : mem) : Prop := ∀ a, 0 ≤ m a < 256.

(** ** Tactics *)

Ltac zarith := Z.to_euclidean_division_equations; lia.

Ltac bool_prop :=
  repeat match goal with
  | H : negb _ = true |- _ => apply negb_true_iff in H
  | H : negb _ = false |- _ => apply negb_false_iff in H
  | H : (_ && _)%bool = true |- _ => apply andb_true_iff in H as [? ?]
  | H : (_ || _)%bool = false |- _ => apply orb_false_iff in H as [? ?]
  | H : (_ =? _) = true |- _ => apply Z.eqb_eq in H
  | H : (_ =? _) = false |- _ => apply Z.eqb_neq in H
  | H : (_ <? _) = true |- _ => apply Z.ltb_lt in H
  | H : (_ <? _) = false |- _ => apply Z.ltb_ge in H
  | H : (_ <=? _) = true |- _ => apply Z.leb_le in H
  | H : (_ <=? _) = false |- _ => apply Z.leb_gt in H
  end.

(** Case analysis on the first boolean test of the goal. *)
Ltac case_test :=
  match goal with
  | |- context [if ?b then _ else _] =>
      lazymatch type of b with
      | bool => let E := fresh "E" in destruct b eqn:E; bool_prop
      end
  end.

Create HintDb xv6.

(** ** Lemmas on machine integers *)

Lemma u8_range x : 0 ≤ u8 x < 256.
Proof. apply Z.mod_pos_bound; lia. Qed.
Lemma u16_range x : 0 ≤ u16 x < 65536.
Proof. apply Z.mod_pos_bound; lia. Qed.
Lemma u32_range x : 0 ≤ u32 x < 4294967296.
Proof. apply Z.mod_pos_bound; lia. Qed.
Lemma u64_range x : 0 ≤ u64 x < 18446744073709551616.
Proof. apply Z.mod_pos_bound; lia. Qed.

Lemma u8_small x : 0 ≤ x < 256 → u8 x = x.
Proof. apply Z.mod_small. Qed.
Lemma u32_small x : 0 ≤ x < 4294967296 → u32 x = x.
Proof. apply Z.mod_small. Qed.
Lemma u64_small x : 0 ≤ x < 18446744073709551616 → u64 x = x.
Proof. apply Z.mod_small. Qed.

Lemma s32_range x : -2147483648 ≤ s32 x < 2147483648.
Proof. unfold s32. pose proof (u32_range x). case_test; lia. Qed.

Lemma s32_small x : -2147483648 ≤ x < 2147483648 → s32 x = x.
Proof.
  intros H. unfold s32, u32.
  destruct (Z_lt_dec x 0).
  - replace (x mod 4294967296) with (x + 4294967296) by zarith. case_test; lia.
  - rewrite Z.mod_small by lia. case_test; lia.
Qed.

Lemma u8_u8 x : u8 (u8 x) = u8 x.
Proof. apply u8_small, u8_range. Qed.
Lemma u32_u32 x : u32 (u32 x) = u32 x.
Proof. apply u32_small, u32_range. Qed.
Lemma u64_u64 x : u64 (u64 x) = u64 x.
Proof. apply u64_small, u64_range. Qed.

Lemma u32_add_l x y : u32 (u32 x + y) = u32 (x + y).
Proof. unfold u32. by rewrite Zplus_mod_idemp_l. Qed.
Lemma u32_sub_r x y : u32 (x - u32 y) = u32 (x - y).
Proof. unfold u32. by rewrite Zminus_mod_idemp_r. Qed.
Lemma u32_sub_l x y : u32 (u32 x - y) = u32 (x - y).
Proof. unfold u32. by rewrite Zminus_mod_idemp_l. Qed.
Lemma s32_u32 x : s32 (u32 x) = s32 x.
Proof. unfold s32. by rewrite u32_u32. Qed.

#[export] Hint Resolve u8_range u16_range u32_range u64_range s32_range : xv6.

(** ** Lemmas on byte memories *)

#[export] Instance mem_eq_equiv : Equivalence mem_eq.
Proof. split; [by intros m a | by intros m m' H a | intros m m' m'' H H' a; by rewrite H]. Qed.

#[export] Instance ld_proper n : Proper (mem_eq ==> eq ==> eq) (ld n).
Proof.
  intros m m' Hm a ? <-. revert a. induction n as [|n IH]; intros a; simpl; [done|].
  by rewrite (Hm a), IH.
Qed.

#[export] Instance st8_proper : Proper (mem_eq ==> eq ==> eq ==> mem_eq) st8.
Proof. intros m m' Hm a ? <- v ? <- b. unfold st8. case_test; [done|apply Hm]. Qed.

#[export] Instance st_proper n : Proper (mem_eq ==> eq ==> eq ==> mem_eq) (st n).
Proof.
  intros m m' Hm a ? <- v ? <-. revert m m' Hm a v.
  induction n as [|n IH]; intros m m' Hm a v; simpl; [done|].
  apply IH. by rewrite Hm.
Qed.

Lemma st8_eq m a v : st8 m a v a = u8 v.
Proof. unfold st8. by rewrite Z.eqb_refl. Qed.
Lemma st8_ne m a b v : b ≠ a → st8 m a v b = m b.
Proof. intros H. unfold st8. case_test; [lia|done]. Qed.

Lemma st_other n m a v b : b < a ∨ a + Z.of_nat n ≤ b → st n m a v b = m b.
Proof.
  revert m a v. induction n as [|n IH]; intros m a v H; simpl; [done|].
  rewrite IH by lia. apply st8_ne. lia.
Qed.

Lemma ld_ext n m m' a :
  (∀ b, a ≤ b < a + Z.of_nat n → m b = m' b) → ld n m a = ld n m' a.
Proof.
  revert a. induction n as [|n IH]; intros a H; simpl; [done|].
  rewrite (H a) by lia. rewrite (IH (a + 1)); [done|]. intros b Hb. apply H. lia.
Qed.

Lemma ld_st_ne n n' m a a' v :
  a' + Z.of_nat n' ≤ a ∨ a + Z.of_nat n ≤ a' → ld n' (st n m a v) a' = ld n' m a'.
Proof. intros H. apply ld_ext. intros b Hb. apply st_other. lia. Qed.

Lemma ld_st_mod n m a v : ld n (st n m a v) a = v mod 256 ^ Z.of_nat n.
Proof.
  revert m a v. induction n as [|n IH]; intros m a v; cbn [ld st].
  - by rewrite Z.mod_1_r.
  - rewrite IH, st_other, st8_eq by lia.
    rewrite Nat2Z.inj_succ, Z.pow_succ_r by lia.
    rewrite Z.rem_mul_r by (try apply Z.pow_pos_nonneg; lia). done.
Qed.

Lemma ld_st_eq n m a v : 0 ≤ v < 256 ^ Z.of_nat n → ld n (st n m a v) a = v.
Proof. intros H. rewrite ld_st_mod. by apply Z.mod_small. Qed.

Lemma ld_range n m a : mem_bytes m → 0 ≤ ld n m a < 256 ^ Z.of_nat n.
Proof.
  intros Hm. revert a. induction n as [|n IH]; intros a; cbn [ld]; [lia|].
  rewrite Nat2Z.inj_succ, Z.pow_succ_r by lia. pose proof (Hm a). pose proof (IH (a + 1)). lia.
Qed.

Lemma st8_bytes m a v : mem_bytes m → mem_bytes (st8 m a v).
Proof. intros H b. unfold st8. case_test; [apply u8_range|apply H]. Qed.

Lemma st_bytes n m a v : mem_bytes m → mem_bytes (st n m a v).
Proof. revert m a v. induction n as [|n IH]; simpl; auto using st8_bytes. Qed.

Lemma put_bytes_other m a l b :
  b < a ∨ a + Z.of_nat (length l) ≤ b → put_bytes m a l b = m b.
Proof.
  revert m a. induction l as [|x l IH]; intros m a H; simpl in *; [done|].
  rewrite IH by lia. apply st8_ne. lia.
Qed.

Lemma put_bytes_at m a l i x :
  l !! i = Some x → put_bytes m a l (a + Z.of_nat i) = u8 x.
Proof.
  revert m a i. induction l as [|y l IH]; intros m a i H; [done|].
  destruct i as [|i]; simpl in *.
  - simplify_eq. rewrite put_bytes_other by lia. rewrite Z.add_0_r. apply st8_eq.
  - replace (a + Z.of_nat (S i)) with (a + 1 + Z.of_nat i) by lia. by apply IH.
Qed.

Lemma put_bytes_bytes m a l : mem_bytes m → mem_bytes (put_bytes m a l).
Proof. revert m a. induction l; simpl; auto using st8_bytes. Qed.

Lemma length_get_bytes m a n : length (get_bytes m a n) = n.
Proof. revert a. induction n; simpl; auto. Qed.

Lemma lookup_get_bytes m a n i :
  (i < n)%nat → get_bytes m a n !! i = Some (m (a + Z.of_nat i)).
Proof.
  revert a i. induction n as [|n IH]; intros a i Hi; [lia|].
  destruct i as [|i]; simpl.
  - by rewrite Z.add_0_r.
  - rewrite IH by lia. do 2 f_equal. lia.
Qed.

Lemma get_bytes_ext m m' a n :
  (∀ b, a ≤ b < a + Z.of_nat n → m b = m' b) → get_bytes m a n = get_bytes m' a n.
Proof.
  revert a. induction n as [|n IH]; intros a H; simpl; [done|].
  rewrite (H a) by lia. rewrite (IH (a + 1)); [done|]. intros. apply H. lia.
Qed.

Lemma get_put_bytes m a l :
  Forall (λ x, 0 ≤ x < 256) l → get_bytes (put_bytes m a l) a (length l) = l.
Proof.
  intros Hl. apply list_eq_same_length with (length l); [done|by rewrite length_get_bytes|].
  intros i x y Hi Hx Hy. rewrite lookup_get_bytes in Hx by done. simplify_eq.
  rewrite (put_bytes_at _ _ _ _ _ Hy). apply u8_small. by eapply Forall_lookup_1 in Hl.
Qed.

Lemma get_bytes_app m a n n' :
  get_bytes m a (n + n') = get_bytes m a n ++ get_bytes m (a + Z.of_nat n) n'.
Proof.
  revert a. induction n as [|n IH]; intros a; simpl; [by rewrite Z.add_0_r|].
  f_equal. rewrite IH. do 2 f_equal. lia.
Qed.

Lemma length_le_bytes n v : length (le_bytes n v) = n.
Proof. revert v. induction n; simpl; auto. Qed.

Lemma le_val_bytes n v : le_val (le_bytes n v) = v mod 256 ^ Z.of_nat n.
Proof.
  revert v. induction n as [|n IH]; intros v; cbn [le_val le_bytes].
  - by rewrite Z.mod_1_r.
  - rewrite IH, Nat2Z.inj_succ, Z.pow_succ_r by lia.
    rewrite Z.rem_mul_r by (try apply Z.pow_pos_nonneg; lia). done.
Qed.

Lemma le_val_get_bytes n m a : le_val (get_bytes m a n) = ld n m a.
Proof. revert a. induction n as [|n IH]; intros a; simpl; [done|]. by rewrite IH. Qed.

#[global] Arguments ld : simpl never.
#[global] Arguments st : simpl never.
