(* ===== verification/Machine.v ===== *)
(** * Constants and address arithmetic

    The compile-time constants of [kernel/param.h], [kernel/memlayout.h],
    [kernel/riscv.h], [kernel/fs.h], [kernel/fcntl.h], [kernel/stat.h] and
    [kernel/syscall.h], and the macros on virtual addresses and page-table
    entries.  Array lengths are [nat]; every other constant is a [Z].  The
    lemmas turn the bit operations of the macros into arithmetic. *)

From Stdlib Require Import ZArith Lia.
From S2P Require Import Prelude.

(** ** param.h *)

Definition NPROC : nat := 64.
Definition NCPU : nat := 8.
Definition NOFILE : nat := 16.
Definition NFILE : nat := 100.
Definition NINODE : nat := 50.
Definition NDEV : nat := 10.
Definition ROOTDEV : Z := 1.
Definition MAXARG : nat := 32.
Definition MAXOPBLOCKS : Z := 10.
Definition LOGSIZE : Z := MAXOPBLOCKS * 3.
Definition NBUF : nat := 30.
Definition FSSIZE : Z := 2000.
Definition MAXPATH : Z := 128.
Definition MLFQ_NUM_QUEUES : Z := 4.
Definition MLFQ_TICKS0 : Z := 1.
Definition MLFQ_TICKS1 : Z := 3.
Definition MLFQ_TICKS2 : Z := 9.
Definition MLFQ_TICKS3 : Z := 15.
Definition AGING_TIME : Z := 30.

(** ** riscv.h: pages, page-table entries, status bits *)

Definition PGSIZE : Z := 4096.
Definition PGSHIFT : Z := 12.
Definition PGROUNDUP (sz : Z) : Z := Z.land (u64 (sz + PGSIZE - 1)) (u64 (Z.lnot (PGSIZE - 1))).
Definition PGROUNDDOWN (a : Z) : Z := Z.land a (u64 (Z.lnot (PGSIZE - 1))).

Definition PTE_V : Z := Z.shiftl 1 0.
Definition PTE_R : Z := Z.shiftl 1 1.
Definition PTE_W : Z := Z.shiftl 1 2.
Definition PTE_X : Z := Z.shiftl 1 3.
Definition PTE_U : Z := Z.shiftl 1 4.

Definition PA2PTE (pa : Z) : Z := u64 (Z.shiftl (Z.shiftr pa 12) 10).
Definition PTE2PA (pte : Z) : Z := u64 (Z.shiftl (Z.shiftr pte 10) 12).
Definition PTE_FLAGS (pte : Z) : Z := Z.land pte 0x3FF.

Definition PXMASK : Z := 0x1FF.
Definition PXSHIFT (level : Z) : Z := PGSHIFT + 9 * level.
Definition PX (level va : Z) : Z := Z.land (Z.shiftr va (PXSHIFT level)) PXMASK.
Definition MAXVA : Z := Z.shiftl 1 (9 + 9 + 9 + 12 - 1).

Definition SSTATUS_SPP : Z := Z.shiftl 1 8.
Definition SSTATUS_SPIE : Z := Z.shiftl 1 5.
Definition SSTATUS_SIE : Z := Z.shiftl 1 1.
Definition SATP_SV39 : Z := Z.shiftl 8 60.
Definition MAKE_SATP (pagetable : Z) : Z := Z.lor SATP_SV39 (Z.shiftr pagetable 12).

(** ** memlayout.h *)

Definition UART0 : Z := 0x10000000.
Definition UART0_IRQ : Z := 10.
Definition VIRTIO0 : Z := 0x10001000.
Definition VIRTIO0_IRQ : Z := 1.
Definition PLIC : Z := 0x0c000000.
Definition KERNBASE : Z := 0x80000000.
Definition PHYSTOP : Z := KERNBASE + 128 * 1024 * 1024.
Definition TRAMPOLINE : Z := MAXVA - PGSIZE.
Definition KSTACK (p : Z) : Z := TRAMPOLINE - (p + 1) * 2 * PGSIZE.
Definition TRAPFRAME : Z := TRAMPOLINE - PGSIZE.

(** ** syscall.h *)

Definition SYS_fork : Z := 1.
Definition SYS_exit : Z := 2.
Definition SYS_wait : Z := 3.
Definition SYS_pipe : Z := 4.
Definition SYS_read : Z := 5.
Definition SYS_kill : Z := 6.
Definition SYS_exec : Z := 7.
Definition SYS_fstat : Z := 8.
Definition SYS_chdir : Z := 9.
Definition SYS_dup : Z := 10.
Definition SYS_getpid : Z := 11.
Definition SYS_sbrk : Z := 12.
Definition SYS_sleep : Z := 13.
Definition SYS_uptime : Z := 14.
Definition SYS_open : Z := 15.
Definition SYS_write : Z := 16.
Definition SYS_mknod : Z := 17.
Definition SYS_unlink : Z := 18.
Definition SYS_link : Z := 19.
Definition SYS_mkdir : Z := 20.
Definition SYS_close : Z := 21.
Definition SYS_waitx : Z := 22.
Definition SYS_getreadcount : Z := 23.
Definition SYS_sigalarm : Z := 24.
Definition SYS_sigreturn : Z := 25.

(** ** fs.h, stat.h, fcntl.h, virtio.h *)

Definition ROOTINO : Z := 1.
Definition BSIZE : Z := 1024.
Definition FSMAGIC : Z := 0x10203040.
Definition NDIRECT : Z := 12.
Definition NINDIRECT : Z := BSIZE / 4.
Definition MAXFILE : Z := NDIRECT + NINDIRECT.
Definition DINODE_SIZE : Z := 64.
Definition IPB : Z := BSIZE / DINODE_SIZE.
Definition BPB : Z := BSIZE * 8.
Definition DIRSIZ : Z := 14.
Definition DIRENT_SIZE : Z := 16.

Definition T_DIR : Z := 1.
Definition T_FILE : Z := 2.
Definition T_DEVICE : Z := 3.

Definition O_RDONLY : Z := 0x000.
Definition O_WRONLY : Z := 0x001.
Definition O_RDWR : Z := 0x002.
Definition O_CREATE : Z := 0x200.
Definition O_TRUNC : Z := 0x400.

Definition NUM : nat := 8.
Definition VRING_DESC_F_NEXT : Z := 1.
Definition VRING_DESC_F_WRITE : Z := 2.
Definition VIRTIO_BLK_T_IN : Z := 0.
Definition VIRTIO_BLK_T_OUT : Z := 1.

(** ** The macros as arithmetic *)

Lemma land_mask52 a :
  0 ≤ a < 2 ^ 64 → Z.land a (Z.shiftl (Z.ones 52) 12) = Z.shiftl (Z.shiftr a 12) 12.
Proof.
  intros Ha. apply Z.bits_inj'. intros n Hn.
  rewrite Z.land_spec, !Z.shiftl_spec by lia.
  destruct (Z_lt_dec n 12).
  { rewrite !(Z.testbit_neg_r _ (n - 12)) by lia. apply andb_false_r. }
  rewrite Z.shiftr_spec by lia. replace (n - 12 + 12) with n by lia.
  destruct (Z_lt_dec n 64).
  - rewrite Z.ones_spec_low by lia. apply andb_true_r.
  - rewrite (proj1 (Z.bounded_iff_bits_nonneg 64 a ltac:(lia) ltac:(lia)) ltac:(lia)) by lia.
    done.
Qed.

Lemma PGROUNDDOWN_spec a : 0 ≤ a < 2 ^ 64 → PGROUNDDOWN a = a / 4096 * 4096.
Proof.
  intros Ha. unfold PGROUNDDOWN.
  change (u64 (Z.lnot (PGSIZE - 1))) with (Z.shiftl (Z.ones 52) 12).
  rewrite land_mask52, Z.shiftl_mul_pow2, Z.shiftr_div_pow2 by lia. done.
Qed.

Lemma PGROUNDUP_spec sz : 0 ≤ sz < 2 ^ 64 - 4095 → PGROUNDUP sz = (sz + 4095) / 4096 * 4096.
Proof.
  intros Hs. unfold PGROUNDUP, PGSIZE. rewrite u64_small by lia.
  replace (sz + 4096 - 1) with (sz + 4095) by lia.
  change (Z.land (sz + 4095) _) with (PGROUNDDOWN (sz + 4095)).
  apply PGROUNDDOWN_spec. lia.
Qed.

Lemma PX_spec level va :
  0 ≤ level → PX level va = (va / 2 ^ (12 + 9 * level)) mod 512.
Proof.
  intros Hl. unfold PX. change PXMASK with (Z.ones 9).
  unfold PXSHIFT, PGSHIFT. rewrite Z.land_ones, Z.shiftr_div_pow2 by lia. done.
Qed.

Lemma PX_range level va : 0 ≤ level → 0 ≤ PX level va < 512.
Proof. intros Hl. rewrite PX_spec by done. apply Z.mod_pos_bound. lia. Qed.

(** The three indices and the page offset determine a virtual address. *)
Lemma PX_split va :
  0 ≤ va < MAXVA →
  va = PX 2 va * 2 ^ 30 + PX 1 va * 2 ^ 21 + PX 0 va * 2 ^ 12 + va mod 4096.
Proof.
  change MAXVA with (2 ^ 38). intros Hva. rewrite !PX_spec by lia.
  change (12 + 9 * 2) with 30. change (12 + 9 * 1) with 21. change (12 + 9 * 0) with 12.
  rewrite (Z.mod_small (va / 2 ^ 30)) by zarith.
  replace (va / 2 ^ 30) with (va / 2 ^ 12 / 512 / 512) by (rewrite !Z.div_div by lia; done).
  replace (va / 2 ^ 21) with (va / 2 ^ 12 / 512) by (rewrite !Z.div_div by lia; done).
  zarith.
Qed.

Lemma PA2PTE_spec pa : 0 ≤ pa < 2 ^ 56 → PA2PTE pa = pa / 4096 * 1024.
Proof.
  intros Hp. unfold PA2PTE. rewrite Z.shiftl_mul_pow2, Z.shiftr_div_pow2 by lia.
  apply u64_small. zarith.
Qed.

Lemma PTE2PA_spec pte : 0 ≤ pte < 2 ^ 54 → PTE2PA pte = pte / 1024 * 4096.
Proof.
  intros Hp. unfold PTE2PA. rewrite Z.shiftl_mul_pow2, Z.shiftr_div_pow2 by lia.
  apply u64_small. zarith.
Qed.

Lemma PTE_FLAGS_spec pte : PTE_FLAGS pte = pte mod 1024.
Proof. unfold PTE_FLAGS. change 0x3FF with (Z.ones 10). by rewrite Z.land_ones. Qed.

(** Only the low ten bits of a word matter under a ten-bit mask. *)
Lemma land_low10 x m : 0 ≤ m < 1024 → Z.land x m = Z.land (x mod 1024) m.
Proof.
  intros Hm. replace m with (Z.land (Z.ones 10) m) at 1.
  - by rewrite Z.land_assoc, Z.land_ones by lia.
  - rewrite Z.land_comm, Z.land_ones by lia. by apply Z.mod_small.
Qed.

(** Or-ing flag bits below a multiple of 1024 is addition. *)
Lemma lor_low10 hi fl : 0 ≤ fl < 1024 → Z.lor (hi * 1024) fl = hi * 1024 + fl.
Proof.
  intros Hf. symmetry. apply Z.add_nocarry_lor.
  rewrite land_low10 by done. by rewrite Z.mod_mul, Z.land_0_l by lia.
Qed.

(** A page-table entry built from an aligned physical address and flag bits
    gives both back. *)
Lemma pte_build pa fl :
  0 ≤ pa < 2 ^ 56 → pa mod 4096 = 0 → 0 ≤ fl < 1024 →
  let pte := Z.lor (PA2PTE pa) fl in
  0 ≤ pte < 2 ^ 54 ∧ PTE2PA pte = pa ∧ PTE_FLAGS pte = fl.
Proof.
  intros Hp Hal Hf pte. unfold pte. rewrite PA2PTE_spec, lor_low10 by done.
  assert (0 ≤ pa / 4096 * 1024 + fl < 2 ^ 54) by zarith.
  rewrite PTE2PA_spec, PTE_FLAGS_spec by done. split; [done|]. zarith.
Qed.

Lemma lor_range10 x y : 0 ≤ x < 1024 → 0 ≤ y < 1024 → 0 ≤ Z.lor x y < 1024.
Proof.
  intros Hx Hy. split; [apply Z.lor_nonneg; lia|].
  apply (Z.bounded_iff_bits_nonneg 10); [lia|apply Z.lor_nonneg; lia|].
  intros l Hl. rewrite Z.lor_spec.
  rewrite (proj1 (Z.bounded_iff_bits_nonneg 10 x ltac:(lia) ltac:(lia)) ltac:(lia)) by done.
  by rewrite (proj1 (Z.bounded_iff_bits_nonneg 10 y ltac:(lia) ltac:(lia)) ltac:(lia)) by done.
Qed.

Lemma lor_low10_assoc hi a b :
  0 ≤ a < 1024 → 0 ≤ b < 1024 → Z.lor (Z.lor (hi * 1024) a) b = hi * 1024 + Z.lor a b.
Proof. intros Ha Hb. rewrite <- Z.lor_assoc. apply lor_low10. by apply lor_range10. Qed.
