(* ===== verification/Kernel.v ===== *)
(** * The kernel state and the kernel monad

    The structures of [kernel/proc.h], [kernel/file.h], [kernel/fs.h],
    [kernel/buf.h], [kernel/sleeplock.h], [kernel/pipe.c], [kernel/log.c],
    [kernel/console.c] and [kernel/uart.c] as records, the state of one hart
    running kernel code, and the monad in which the C functions are written.

    Pointers into a static array (processes, open files, inodes, buffers) are
    indices, the null pointer is [None]; pointers to pages from [kalloc] are
    physical addresses, null is 0.  A page that holds a [struct trapframe] or a
    [struct pipe] is kept as a record in [k_tfs] or [k_pipes], keyed by its
    address; every other page is bytes of [k_mem]. *)

From Stdlib Require Import ZArith Lia.
From S2P Require Import Prelude Machine.

(** ** Data *)

(** [enum procstate] of proc.h. *)
Inductive procstate := UNUSED | USED | SLEEPING | RUNNABLE | RUNNING | ZOMBIE.

#[export] Instance procstate_eq_dec : EqDecision procstate.
Proof. solve_decision. Defined.

(** The sleep-locks of the kernel: one per buffer and one per inode. *)
Inductive sleepid := S_buf (i : nat) | S_inode (i : nat).

#[export] Instance sleepid_eq_dec : EqDecision sleepid.
Proof. solve_decision. Defined.

(** The spin-locks of the kernel, by the object they protect. *)
Inductive lock :=
| L_pid | L_wait | L_proc (i : nat) | L_kmem | L_ticks | L_pipe (pi : Z) | L_cons | L_uart
| L_readcount | L_ftable | L_itable | L_bcache | L_log | L_pr | L_vdisk | L_sleep (l : sleepid).

#[export] Instance lock_eq_dec : EqDecision lock.
Proof. solve_decision. Defined.

(** Sleep channels: the addresses the kernel passes to [sleep] and [wakeup]. *)
Inductive chan :=
| Ch_null | Ch_proc (i : nat) | Ch_ticks | Ch_nread (pi : Z) | Ch_nwrite (pi : Z) | Ch_cons_r
| Ch_uart_tx_r | Ch_log | Ch_sleeplock (l : sleepid) | Ch_buf (i : nat) | Ch_disk_free.

#[export] Instance chan_eq_dec : EqDecision chan.
Proof. solve_decision. Defined.

(** [struct trapframe] of proc.h. *)
Record trapframe := mk_tf {
  tf_kernel_satp : Z;
  tf_kernel_sp : Z;
  tf_kernel_trap : Z;
  tf_epc : Z;
  tf_kernel_hartid : Z;
  tf_ra : Z;
  tf_sp : Z;
  tf_gp : Z;
  tf_tp : Z;
  tf_t0 : Z;
  tf_t1 : Z;
  tf_t2 : Z;
  tf_s0 : Z;
  tf_s1 : Z;
  tf_a0 : Z;
  tf_a1 : Z;
  tf_a2 : Z;
  tf_a3 : Z;
  tf_a4 : Z;
  tf_a5 : Z;
  tf_a6 : Z;
  tf_a7 : Z;
  tf_s2 : Z;
  tf_s3 : Z;
  tf_s4 : Z;
  tf_s5 : Z;
  tf_s6 : Z;
  tf_s7 : Z;
  tf_s8 : Z;
  tf_s9 : Z;
  tf_s10 : Z;
  tf_s11 : Z;
  tf_t3 : Z;
  tf_t4 : Z;
  tf_t5 : Z;
  tf_t6 : Z
}.

Definition set_tf_kernel_satp (v : Z) (x : trapframe) : trapframe := mk_tf v
    x.(tf_kernel_sp) x.(tf_kernel_trap) x.(tf_epc) x.(tf_kernel_hartid) x.(tf_ra)
    x.(tf_sp) x.(tf_gp) x.(tf_tp) x.(tf_t0) x.(tf_t1) x.(tf_t2) x.(tf_s0) x.(tf_s1)
    x.(tf_a0) x.(tf_a1) x.(tf_a2) x.(tf_a3) x.(tf_a4) x.(tf_a5) x.(tf_a6) x.(tf_a7)
    x.(tf_s2) x.(tf_s3) x.(tf_s4) x.(tf_s5) x.(tf_s6) x.(tf_s7) x.(tf_s8) x.(tf_s9)
    x.(tf_s10) x.(tf_s11) x.(tf_t3) x.(tf_t4) x.(tf_t5) x.(tf_t6).
Definition set_tf_kernel_sp (v : Z) (x : trapframe) : trapframe := mk_tf
    x.(tf_kernel_satp) v x.(tf_kernel_trap) x.(tf_epc) x.(tf_kernel_hartid) x.(tf_ra)
    x.(tf_sp) x.(tf_gp) x.(tf_tp) x.(tf_t0) x.(tf_t1) x.(tf_t2) x.(tf_s0) x.(tf_s1)
    x.(tf_a0) x.(tf_a1) x.(tf_a2) x.(tf_a3) x.(tf_a4) x.(tf_a5) x.(tf_a6) x.(tf_a7)
    x.(tf_s2) x.(tf_s3) x.(tf_s4) x.(tf_s5) x.(tf_s6) x.(tf_s7) x.(tf_s8) x.(tf_s9)
    x.(tf_s10) x.(tf_s11) x.(tf_t3) x.(tf_t4) x.(tf_t5) x.(tf_t6).
Definition set_tf_kernel_trap (v : Z) (x : trapframe) : trapframe := mk_tf
    x.(tf_kernel_satp) x.(tf_kernel_sp) v x.(tf_epc) x.(tf_kernel_hartid) x.(tf_ra)
    x.(tf_sp) x.(tf_gp) x.(tf_tp) x.(tf_t0) x.(tf_t1) x.(tf_t2) x.(tf_s0) x.(tf_s1)
    x.(tf_a0) x.(tf_a1) x.(tf_a2) x.(tf_a3) x.(tf_a4) x.(tf_a5) x.(tf_a6) x.(tf_a7)
    x.(tf_s2) x.(tf_s3) x.(tf_s4) x.(tf_s5) x.(tf_s6) x.(tf_s7) x.(tf_s8) x.(tf_s9)
    x.(tf_s10) x.(tf_s11) x.(tf_t3) x.(tf_t4) x.(tf_t5) x.(tf_t6).
Definition set_tf_epc (v : Z) (x : trapframe) : trapframe := mk_tf x.(tf_kernel_satp)
    x.(tf_kernel_sp) x.(tf_kernel_trap) v x.(tf_kernel_hartid) x.(tf_ra) x.(tf_sp)
    x.(tf_gp) x.(tf_tp) x.(tf_t0) x.(tf_t1) x.(tf_t2) x.(tf_s0) x.(tf_s1) x.(tf_a0)
    x.(tf_a1) x.(tf_a2) x.(tf_a3) x.(tf_a4) x.(tf_a5) x.(tf_a6) x.(tf_a7) x.(tf_s2)
    x.(tf_s3) x.(tf_s4) x.(tf_s5) x.(tf_s6) x.(tf_s7) x.(tf_s8) x.(tf_s9) x.(tf_s10)
    x.(tf_s11) x.(tf_t3) x.(tf_t4) x.(tf_t5) x.(tf_t6).
Definition set_tf_kernel_hartid (v : Z) (x : trapframe) : trapframe := mk_tf
    x.(tf_kernel_satp) x.(tf_kernel_sp) x.(tf_kernel_trap) x.(tf_epc) v x.(tf_ra)
    x.(tf_sp) x.(tf_gp) x.(tf_tp) x.(tf_t0) x.(tf_t1) x.(tf_t2) x.(tf_s0) x.(tf_s1)
    x.(tf_a0) x.(tf_a1) x.(tf_a2) x.(tf_a3) x.(tf_a4) x.(tf_a5) x.(tf_a6) x.(tf_a7)
    x.(tf_s2) x.(tf_s3) x.(tf_s4) x.(tf_s5) x.(tf_s6) x.(tf_s7) x.(tf_s8) x.(tf_s9)
    x.(tf_s10) x.(tf_s11) x.(tf_t3) x.(tf_t4) x.(tf_t5) x.(tf_t6).
Definition set_tf_sp (v : Z) (x : trapframe) : trapframe := mk_tf x.(tf_kernel_satp)
    x.(tf_kernel_sp) x.(tf_kernel_trap) x.(tf_epc) x.(tf_kernel_hartid) x.(tf_ra) v
    x.(tf_gp) x.(tf_tp) x.(tf_t0) x.(tf_t1) x.(tf_t2) x.(tf_s0) x.(tf_s1) x.(tf_a0)
    x.(tf_a1) x.(tf_a2) x.(tf_a3) x.(tf_a4) x.(tf_a5) x.(tf_a6) x.(tf_a7) x.(tf_s2)
    x.(tf_s3) x.(tf_s4) x.(tf_s5) x.(tf_s6) x.(tf_s7) x.(tf_s8) x.(tf_s9) x.(tf_s10)
    x.(tf_s11) x.(tf_t3) x.(tf_t4) x.(tf_t5) x.(tf_t6).
Definition set_tf_a0 (v : Z) (x : trapframe) : trapframe := mk_tf x.(tf_kernel_satp)
    x.(tf_kernel_sp) x.(tf_kernel_trap) x.(tf_epc) x.(tf_kernel_hartid) x.(tf_ra)
    x.(tf_sp) x.(tf_gp) x.(tf_tp) x.(tf_t0) x.(tf_t1) x.(tf_t2) x.(tf_s0) x.(tf_s1) v
    x.(tf_a1) x.(tf_a2) x.(tf_a3) x.(tf_a4) x.(tf_a5) x.(tf_a6) x.(tf_a7) x.(tf_s2)
    x.(tf_s3) x.(tf_s4) x.(tf_s5) x.(tf_s6) x.(tf_s7) x.(tf_s8) x.(tf_s9) x.(tf_s10)
    x.(tf_s11) x.(tf_t3) x.(tf_t4) x.(tf_t5) x.(tf_t6).
Definition set_tf_a1 (v : Z) (x : trapframe) : trapframe := mk_tf x.(tf_kernel_satp)
    x.(tf_kernel_sp) x.(tf_kernel_trap) x.(tf_epc) x.(tf_kernel_hartid) x.(tf_ra)
    x.(tf_sp) x.(tf_gp) x.(tf_tp) x.(tf_t0) x.(tf_t1) x.(tf_t2) x.(tf_s0) x.(tf_s1)
    x.(tf_a0) v x.(tf_a2) x.(tf_a3) x.(tf_a4) x.(tf_a5) x.(tf_a6) x.(tf_a7) x.(tf_s2)
    x.(tf_s3) x.(tf_s4) x.(tf_s5) x.(tf_s6) x.(tf_s7) x.(tf_s8) x.(tf_s9) x.(tf_s10)
    x.(tf_s11) x.(tf_t3) x.(tf_t4) x.(tf_t5) x.(tf_t6).
(** [struct context] of proc.h. *)
Record context := mk_ctx {
  ctx_ra : Z;
  ctx_sp : Z;
  ctx_s0 : Z;
  ctx_s1 : Z;
  ctx_s2 : Z;
  ctx_s3 : Z;
  ctx_s4 : Z;
  ctx_s5 : Z;
  ctx_s6 : Z;
  ctx_s7 : Z;
  ctx_s8 : Z;
  ctx_s9 : Z;
  ctx_s10 : Z;
  ctx_s11 : Z
}.

Definition set_ctx_ra (v : Z) (x : context) : context := mk_ctx v x.(ctx_sp) x.(ctx_s0)
    x.(ctx_s1) x.(ctx_s2) x.(ctx_s3) x.(ctx_s4) x.(ctx_s5) x.(ctx_s6) x.(ctx_s7)
    x.(ctx_s8) x.(ctx_s9) x.(ctx_s10) x.(ctx_s11).
Definition set_ctx_sp (v : Z) (x : context) : context := mk_ctx x.(ctx_ra) v x.(ctx_s0)
    x.(ctx_s1) x.(ctx_s2) x.(ctx_s3) x.(ctx_s4) x.(ctx_s5) x.(ctx_s6) x.(ctx_s7)
    x.(ctx_s8) x.(ctx_s9) x.(ctx_s10) x.(ctx_s11).
(** [struct mlfq_proc] of proc.h. *)
Record mlfq_proc := mk_mlfq {
  mq_curr_pri : Z;
  mq_wtime : Z;
  mq_num_ticks : Z;
  mq_in_queue : Z;
  mq_intime : Z
}.

Definition set_mq_curr_pri (v : Z) (x : mlfq_proc) : mlfq_proc := mk_mlfq v x.(mq_wtime)
    x.(mq_num_ticks) x.(mq_in_queue) x.(mq_intime).
Definition set_mq_wtime (v : Z) (x : mlfq_proc) : mlfq_proc := mk_mlfq x.(mq_curr_pri) v
    x.(mq_num_ticks) x.(mq_in_queue) x.(mq_intime).
Definition set_mq_num_ticks (v : Z) (x : mlfq_proc) : mlfq_proc := mk_mlfq
    x.(mq_curr_pri) x.(mq_wtime) v x.(mq_in_queue) x.(mq_intime).
Definition set_mq_in_queue (v : Z) (x : mlfq_proc) : mlfq_proc := mk_mlfq
    x.(mq_curr_pri) x.(mq_wtime) x.(mq_num_ticks) v x.(mq_intime).
Definition set_mq_intime (v : Z) (x : mlfq_proc) : mlfq_proc := mk_mlfq x.(mq_curr_pri)
    x.(mq_wtime) x.(mq_num_ticks) x.(mq_in_queue) v.
(** [struct proc] of proc.h; its spin-lock is [L_proc] of its index. *)
Record proc := mk_proc {
  p_state : procstate;
  p_chan : chan;
  p_killed : Z;
  p_xstate : Z;
  p_pid : Z;
  p_parent : option nat;
  p_kstack : Z;
  p_sz : Z;
  p_pagetable : Z;
  p_trapframe : Z;
  p_context : context;
  p_ofile : list (option nat);
  p_cwd : option nat;
  p_name : list Z;
  p_rtime : Z;
  p_ctime : Z;
  p_etime : Z;
  p_sigalarm_running : Z;
  p_sigalarm_nticks : Z;
  p_sigalarm_handler : Z;
  p_ticks_elapsed : Z;
  p_trap_backup : Z;
  p_mlfq_data : mlfq_proc
}.

Definition set_p_state (v : procstate) (x : proc) : proc := mk_proc v x.(p_chan)
    x.(p_killed) x.(p_xstate) x.(p_pid) x.(p_parent) x.(p_kstack) x.(p_sz)
    x.(p_pagetable) x.(p_trapframe) x.(p_context) x.(p_ofile) x.(p_cwd) x.(p_name)
    x.(p_rtime) x.(p_ctime) x.(p_etime) x.(p_sigalarm_running) x.(p_sigalarm_nticks)
    x.(p_sigalarm_handler) x.(p_ticks_elapsed) x.(p_trap_backup) x.(p_mlfq_data).
Definition set_p_chan (v : chan) (x : proc) : proc := mk_proc x.(p_state) v x.(p_killed)
    x.(p_xstate) x.(p_pid) x.(p_parent) x.(p_kstack) x.(p_sz) x.(p_pagetable)
    x.(p_trapframe) x.(p_context) x.(p_ofile) x.(p_cwd) x.(p_name) x.(p_rtime)
    x.(p_ctime) x.(p_etime) x.(p_sigalarm_running) x.(p_sigalarm_nticks)
    x.(p_sigalarm_handler) x.(p_ticks_elapsed) x.(p_trap_backup) x.(p_mlfq_data).
Definition set_p_killed (v : Z) (x : proc) : proc := mk_proc x.(p_state) x.(p_chan) v
    x.(p_xstate) x.(p_pid) x.(p_parent) x.(p_kstack) x.(p_sz) x.(p_pagetable)
    x.(p_trapframe) x.(p_context) x.(p_ofile) x.(p_cwd) x.(p_name) x.(p_rtime)
    x.(p_ctime) x.(p_etime) x.(p_sigalarm_running) x.(p_sigalarm_nticks)
    x.(p_sigalarm_handler) x.(p_ticks_elapsed) x.(p_trap_backup) x.(p_mlfq_data).
Definition set_p_xstate (v : Z) (x : proc) : proc := mk_proc x.(p_state) x.(p_chan)
    x.(p_killed) v x.(p_pid) x.(p_parent) x.(p_kstack) x.(p_sz) x.(p_pagetable)
    x.(p_trapframe) x.(p_context) x.(p_ofile) x.(p_cwd) x.(p_name) x.(p_rtime)
    x.(p_ctime) x.(p_etime) x.(p_sigalarm_running) x.(p_sigalarm_nticks)
    x.(p_sigalarm_handler) x.(p_ticks_elapsed) x.(p_trap_backup) x.(p_mlfq_data).
Definition set_p_pid (v : Z) (x : proc) : proc := mk_proc x.(p_state) x.(p_chan)
    x.(p_killed) x.(p_xstate) v x.(p_parent) x.(p_kstack) x.(p_sz) x.(p_pagetable)
    x.(p_trapframe) x.(p_context) x.(p_ofile) x.(p_cwd) x.(p_name) x.(p_rtime)
    x.(p_ctime) x.(p_etime) x.(p_sigalarm_running) x.(p_sigalarm_nticks)
    x.(p_sigalarm_handler) x.(p_ticks_elapsed) x.(p_trap_backup) x.(p_mlfq_data).
Definition set_p_parent (v : option nat) (x : proc) : proc := mk_proc x.(p_state)
    x.(p_chan) x.(p_killed) x.(p_xstate) x.(p_pid) v x.(p_kstack) x.(p_sz)
    x.(p_pagetable) x.(p_trapframe) x.(p_context) x.(p_ofile) x.(p_cwd) x.(p_name)
    x.(p_rtime) x.(p_ctime) x.(p_etime) x.(p_sigalarm_running) x.(p_sigalarm_nticks)
    x.(p_sigalarm_handler) x.(p_ticks_elapsed) x.(p_trap_backup) x.(p_mlfq_data).
Definition set_p_kstack (v : Z) (x : proc) : proc := mk_proc x.(p_state) x.(p_chan)
    x.(p_killed) x.(p_xstate) x.(p_pid) x.(p_parent) v x.(p_sz) x.(p_pagetable)
    x.(p_trapframe) x.(p_context) x.(p_ofile) x.(p_cwd) x.(p_name) x.(p_rtime)
    x.(p_ctime) x.(p_etime) x.(p_sigalarm_running) x.(p_sigalarm_nticks)
    x.(p_sigalarm_handler) x.(p_ticks_elapsed) x.(p_trap_backup) x.(p_mlfq_data).
Definition set_p_sz (v : Z) (x : proc) : proc := mk_proc x.(p_state) x.(p_chan)
    x.(p_killed) x.(p_xstate) x.(p_pid) x.(p_parent) x.(p_kstack) v x.(p_pagetable)
    x.(p_trapframe) x.(p_context) x.(p_ofile) x.(p_cwd) x.(p_name) x.(p_rtime)
    x.(p_ctime) x.(p_etime) x.(p_sigalarm_running) x.(p_sigalarm_nticks)
    x.(p_sigalarm_handler) x.(p_ticks_elapsed) x.(p_trap_backup) x.(p_mlfq_data).
Definition set_p_pagetable (v : Z) (x : proc) : proc := mk_proc x.(p_state) x.(p_chan)
    x.(p_killed) x.(p_xstate) x.(p_pid) x.(p_parent) x.(p_kstack) x.(p_sz) v
    x.(p_trapframe) x.(p_context) x.(p_ofile) x.(p_cwd) x.(p_name) x.(p_rtime)
    x.(p_ctime) x.(p_etime) x.(p_sigalarm_running) x.(p_sigalarm_nticks)
    x.(p_sigalarm_handler) x.(p_ticks_elapsed) x.(p_trap_backup) x.(p_mlfq_data).
Definition set_p_trapframe (v : Z) (x : proc) : proc := mk_proc x.(p_state) x.(p_chan)
    x.(p_killed) x.(p_xstate) x.(p_pid) x.(p_parent) x.(p_kstack) x.(p_sz)
    x.(p_pagetable) v x.(p_context) x.(p_ofile) x.(p_cwd) x.(p_name) x.(p_rtime)
    x.(p_ctime) x.(p_etime) x.(p_sigalarm_running) x.(p_sigalarm_nticks)
    x.(p_sigalarm_handler) x.(p_ticks_elapsed) x.(p_trap_backup) x.(p_mlfq_data).
Definition set_p_context (v : context) (x : proc) : proc := mk_proc x.(p_state)
    x.(p_chan) x.(p_killed) x.(p_xstate) x.(p_pid) x.(p_parent) x.(p_kstack) x.(p_sz)
    x.(p_pagetable) x.(p_trapframe) v x.(p_ofile) x.(p_cwd) x.(p_name) x.(p_rtime)
    x.(p_ctime) x.(p_etime) x.(p_sigalarm_running) x.(p_sigalarm_nticks)
    x.(p_sigalarm_handler) x.(p_ticks_elapsed) x.(p_trap_backup) x.(p_mlfq_data).
Definition set_p_ofile (v : list (option nat)) (x : proc) : proc := mk_proc x.(p_state)
    x.(p_chan) x.(p_killed) x.(p_xstate) x.(p_pid) x.(p_parent) x.(p_kstack) x.(p_sz)
    x.(p_pagetable) x.(p_trapframe) x.(p_context) v x.(p_cwd) x.(p_name) x.(p_rtime)
    x.(p_ctime) x.(p_etime) x.(p_sigalarm_running) x.(p_sigalarm_nticks)
    x.(p_sigalarm_handler) x.(p_ticks_elapsed) x.(p_trap_backup) x.(p_mlfq_data).
Definition set_p_cwd (v : option nat) (x : proc) : proc := mk_proc x.(p_state)
    x.(p_chan) x.(p_killed) x.(p_xstate) x.(p_pid) x.(p_parent) x.(p_kstack) x.(p_sz)
    x.(p_pagetable) x.(p_trapframe) x.(p_context) x.(p_ofile) v x.(p_name) x.(p_rtime)
    x.(p_ctime) x.(p_etime) x.(p_sigalarm_running) x.(p_sigalarm_nticks)
    x.(p_sigalarm_handler) x.(p_ticks_elapsed) x.(p_trap_backup) x.(p_mlfq_data).
Definition set_p_name (v : list Z) (x : proc) : proc := mk_proc x.(p_state) x.(p_chan)
    x.(p_killed) x.(p_xstate) x.(p_pid) x.(p_parent) x.(p_kstack) x.(p_sz)
    x.(p_pagetable) x.(p_trapframe) x.(p_context) x.(p_ofile) x.(p_cwd) v x.(p_rtime)
    x.(p_ctime) x.(p_etime) x.(p_sigalarm_running) x.(p_sigalarm_nticks)
    x.(p_sigalarm_handler) x.(p_ticks_elapsed) x.(p_trap_backup) x.(p_mlfq_data).
Definition set_p_rtime (v : Z) (x : proc) : proc := mk_proc x.(p_state) x.(p_chan)
    x.(p_killed) x.(p_xstate) x.(p_pid) x.(p_parent) x.(p_kstack) x.(p_sz)
    x.(p_pagetable) x.(p_trapframe) x.(p_context) x.(p_ofile) x.(p_cwd) x.(p_name) v
    x.(p_ctime) x.(p_etime) x.(p_sigalarm_running) x.(p_sigalarm_nticks)
    x.(p_sigalarm_handler) x.(p_ticks_elapsed) x.(p_trap_backup) x.(p_mlfq_data).
Definition set_p_ctime (v : Z) (x : proc) : proc := mk_proc x.(p_state) x.(p_chan)
    x.(p_killed) x.(p_xstate) x.(p_pid) x.(p_parent) x.(p_kstack) x.(p_sz)
    x.(p_pagetable) x.(p_trapframe) x.(p_context) x.(p_ofile) x.(p_cwd) x.(p_name)
    x.(p_rtime) v x.(p_etime) x.(p_sigalarm_running) x.(p_sigalarm_nticks)
    x.(p_sigalarm_handler) x.(p_ticks_elapsed) x.(p_trap_backup) x.(p_mlfq_data).
Definition set_p_etime (v : Z) (x : proc) : proc := mk_proc x.(p_state) x.(p_chan)
    x.(p_killed) x.(p_xstate) x.(p_pid) x.(p_parent) x.(p_kstack) x.(p_sz)
    x.(p_pagetable) x.(p_trapframe) x.(p_context) x.(p_ofile) x.(p_cwd) x.(p_name)
    x.(p_rtime) x.(p_ctime) v x.(p_sigalarm_running) x.(p_sigalarm_nticks)
    x.(p_sigalarm_handler) x.(p_ticks_elapsed) x.(p_trap_backup) x.(p_mlfq_data).
Definition set_p_sigalarm_running (v : Z) (x : proc) : proc := mk_proc x.(p_state)
    x.(p_chan) x.(p_killed) x.(p_xstate) x.(p_pid) x.(p_parent) x.(p_kstack) x.(p_sz)
    x.(p_pagetable) x.(p_trapframe) x.(p_context) x.(p_ofile) x.(p_cwd) x.(p_name)
    x.(p_rtime) x.(p_ctime) x.(p_etime) v x.(p_sigalarm_nticks) x.(p_sigalarm_handler)
    x.(p_ticks_elapsed) x.(p_trap_backup) x.(p_mlfq_data).
Definition set_p_sigalarm_nticks (v : Z) (x : proc) : proc := mk_proc x.(p_state)
    x.(p_chan) x.(p_killed) x.(p_xstate) x.(p_pid) x.(p_parent) x.(p_kstack) x.(p_sz)
    x.(p_pagetable) x.(p_trapframe) x.(p_context) x.(p_ofile) x.(p_cwd) x.(p_name)
    x.(p_rtime) x.(p_ctime) x.(p_etime) x.(p_sigalarm_running) v x.(p_sigalarm_handler)
    x.(p_ticks_elapsed) x.(p_trap_backup) x.(p_mlfq_data).
Definition set_p_sigalarm_handler (v : Z) (x : proc) : proc := mk_proc x.(p_state)
    x.(p_chan) x.(p_killed) x.(p_xstate) x.(p_pid) x.(p_parent) x.(p_kstack) x.(p_sz)
    x.(p_pagetable) x.(p_trapframe) x.(p_context) x.(p_ofile) x.(p_cwd) x.(p_name)
    x.(p_rtime) x.(p_ctime) x.(p_etime) x.(p_sigalarm_running) x.(p_sigalarm_nticks) v
    x.(p_ticks_elapsed) x.(p_trap_backup) x.(p_mlfq_data).
Definition set_p_ticks_elapsed (v : Z) (x : proc) : proc := mk_proc x.(p_state)
    x.(p_chan) x.(p_killed) x.(p_xstate) x.(p_pid) x.(p_parent) x.(p_kstack) x.(p_sz)
    x.(p_pagetable) x.(p_trapframe) x.(p_context) x.(p_ofile) x.(p_cwd) x.(p_name)
    x.(p_rtime) x.(p_ctime) x.(p_etime) x.(p_sigalarm_running) x.(p_sigalarm_nticks)
    x.(p_sigalarm_handler) v x.(p_trap_backup) x.(p_mlfq_data).
Definition set_p_trap_backup (v : Z) (x : proc) : proc := mk_proc x.(p_state) x.(p_chan)
    x.(p_killed) x.(p_xstate) x.(p_pid) x.(p_parent) x.(p_kstack) x.(p_sz)
    x.(p_pagetable) x.(p_trapframe) x.(p_context) x.(p_ofile) x.(p_cwd) x.(p_name)
    x.(p_rtime) x.(p_ctime) x.(p_etime) x.(p_sigalarm_running) x.(p_sigalarm_nticks)
    x.(p_sigalarm_handler) x.(p_ticks_elapsed) v x.(p_mlfq_data).
Definition set_p_mlfq_data (v : mlfq_proc) (x : proc) : proc := mk_proc x.(p_state)
    x.(p_chan) x.(p_killed) x.(p_xstate) x.(p_pid) x.(p_parent) x.(p_kstack) x.(p_sz)
    x.(p_pagetable) x.(p_trapframe) x.(p_context) x.(p_ofile) x.(p_cwd) x.(p_name)
    x.(p_rtime) x.(p_ctime) x.(p_etime) x.(p_sigalarm_running) x.(p_sigalarm_nticks)
    x.(p_sigalarm_handler) x.(p_ticks_elapsed) x.(p_trap_backup) v.
(** [struct pipe] of pipe.c; its spin-lock is [L_pipe] of its address. *)
Record pipe := mk_pipe {
  pi_data : list Z;
  pi_nread : Z;
  pi_nwrite : Z;
  pi_readopen : Z;
  pi_writeopen : Z
}.

Definition set_pi_data (v : list Z) (x : pipe) : pipe := mk_pipe v x.(pi_nread)
    x.(pi_nwrite) x.(pi_readopen) x.(pi_writeopen).
Definition set_pi_nread (v : Z) (x : pipe) : pipe := mk_pipe x.(pi_data) v x.(pi_nwrite)
    x.(pi_readopen) x.(pi_writeopen).
Definition set_pi_nwrite (v : Z) (x : pipe) : pipe := mk_pipe x.(pi_data) x.(pi_nread) v
    x.(pi_readopen) x.(pi_writeopen).
Definition set_pi_readopen (v : Z) (x : pipe) : pipe := mk_pipe x.(pi_data) x.(pi_nread)
    x.(pi_nwrite) v x.(pi_writeopen).
Definition set_pi_writeopen (v : Z) (x : pipe) : pipe := mk_pipe x.(pi_data)
    x.(pi_nread) x.(pi_nwrite) x.(pi_readopen) v.
(** The [type] of a [struct file]. *)
Inductive filetype := FD_NONE | FD_PIPE | FD_INODE | FD_DEVICE.

#[export] Instance filetype_eq_dec : EqDecision filetype.
Proof. solve_decision. Defined.

(** [struct file] of file.h. *)
Record file := mk_file {
  f_type : filetype;
  f_ref : Z;
  f_readable : Z;
  f_writable : Z;
  f_pipe : Z;
  f_ip : option nat;
  f_off : Z;
  f_major : Z
}.

Definition set_f_type (v : filetype) (x : file) : file := mk_file v x.(f_ref)
    x.(f_readable) x.(f_writable) x.(f_pipe) x.(f_ip) x.(f_off) x.(f_major).
Definition set_f_ref (v : Z) (x : file) : file := mk_file x.(f_type) v x.(f_readable)
    x.(f_writable) x.(f_pipe) x.(f_ip) x.(f_off) x.(f_major).
Definition set_f_readable (v : Z) (x : file) : file := mk_file x.(f_type) x.(f_ref) v
    x.(f_writable) x.(f_pipe) x.(f_ip) x.(f_off) x.(f_major).
Definition set_f_writable (v : Z) (x : file) : file := mk_file x.(f_type) x.(f_ref)
    x.(f_readable) v x.(f_pipe) x.(f_ip) x.(f_off) x.(f_major).
Definition set_f_pipe (v : Z) (x : file) : file := mk_file x.(f_type) x.(f_ref)
    x.(f_readable) x.(f_writable) v x.(f_ip) x.(f_off) x.(f_major).
Definition set_f_ip (v : option nat) (x : file) : file := mk_file x.(f_type) x.(f_ref)
    x.(f_readable) x.(f_writable) x.(f_pipe) v x.(f_off) x.(f_major).
Definition set_f_off (v : Z) (x : file) : file := mk_file x.(f_type) x.(f_ref)
    x.(f_readable) x.(f_writable) x.(f_pipe) x.(f_ip) v x.(f_major).
Definition set_f_major (v : Z) (x : file) : file := mk_file x.(f_type) x.(f_ref)
    x.(f_readable) x.(f_writable) x.(f_pipe) x.(f_ip) x.(f_off) v.
(** [struct sleeplock]; its inner spin-lock is [L_sleep]. *)
Record sleeplock := mk_sl {
  sl_locked : Z;
  sl_pid : Z
}.

Definition set_sl_locked (v : Z) (x : sleeplock) : sleeplock := mk_sl v x.(sl_pid).
Definition set_sl_pid (v : Z) (x : sleeplock) : sleeplock := mk_sl x.(sl_locked) v.
(** [struct inode] of file.h. *)
Record inode := mk_inode {
  i_dev : Z;
  i_inum : Z;
  i_ref : Z;
  i_lock : sleeplock;
  i_valid : Z;
  i_type : Z;
  i_major : Z;
  i_minor : Z;
  i_nlink : Z;
  i_size : Z;
  i_addrs : list Z
}.

Definition set_i_dev (v : Z) (x : inode) : inode := mk_inode v x.(i_inum) x.(i_ref)
    x.(i_lock) x.(i_valid) x.(i_type) x.(i_major) x.(i_minor) x.(i_nlink) x.(i_size)
    x.(i_addrs).
Definition set_i_inum (v : Z) (x : inode) : inode := mk_inode x.(i_dev) v x.(i_ref)
    x.(i_lock) x.(i_valid) x.(i_type) x.(i_major) x.(i_minor) x.(i_nlink) x.(i_size)
    x.(i_addrs).
Definition set_i_ref (v : Z) (x : inode) : inode := mk_inode x.(i_dev) x.(i_inum) v
    x.(i_lock) x.(i_valid) x.(i_type) x.(i_major) x.(i_minor) x.(i_nlink) x.(i_size)
    x.(i_addrs).
Definition set_i_lock (v : sleeplock) (x : inode) : inode := mk_inode x.(i_dev)
    x.(i_inum) x.(i_ref) v x.(i_valid) x.(i_type) x.(i_major) x.(i_minor) x.(i_nlink)
    x.(i_size) x.(i_addrs).
Definition set_i_valid (v : Z) (x : inode) : inode := mk_inode x.(i_dev) x.(i_inum)
    x.(i_ref) x.(i_lock) v x.(i_type) x.(i_major) x.(i_minor) x.(i_nlink) x.(i_size)
    x.(i_addrs).
Definition set_i_type (v : Z) (x : inode) : inode := mk_inode x.(i_dev) x.(i_inum)
    x.(i_ref) x.(i_lock) x.(i_valid) v x.(i_major) x.(i_minor) x.(i_nlink) x.(i_size)
    x.(i_addrs).
Definition set_i_major (v : Z) (x : inode) : inode := mk_inode x.(i_dev) x.(i_inum)
    x.(i_ref) x.(i_lock) x.(i_valid) x.(i_type) v x.(i_minor) x.(i_nlink) x.(i_size)
    x.(i_addrs).
Definition set_i_minor (v : Z) (x : inode) : inode := mk_inode x.(i_dev) x.(i_inum)
    x.(i_ref) x.(i_lock) x.(i_valid) x.(i_type) x.(i_major) v x.(i_nlink) x.(i_size)
    x.(i_addrs).
Definition set_i_nlink (v : Z) (x : inode) : inode := mk_inode x.(i_dev) x.(i_inum)
    x.(i_ref) x.(i_lock) x.(i_valid) x.(i_type) x.(i_major) x.(i_minor) v x.(i_size)
    x.(i_addrs).
Definition set_i_size (v : Z) (x : inode) : inode := mk_inode x.(i_dev) x.(i_inum)
    x.(i_ref) x.(i_lock) x.(i_valid) x.(i_type) x.(i_major) x.(i_minor) x.(i_nlink) v
    x.(i_addrs).
Definition set_i_addrs (v : list Z) (x : inode) : inode := mk_inode x.(i_dev) x.(i_inum)
    x.(i_ref) x.(i_lock) x.(i_valid) x.(i_type) x.(i_major) x.(i_minor) x.(i_nlink)
    x.(i_size) v.
(** [struct buf] of buf.h.  [prev] and [next] are indices into the cache's list, whose entry [NBUF]
    is [bcache.head]. *)
Record buf := mk_buf {
  b_valid : Z;
  b_disk : Z;
  b_dev : Z;
  b_blockno : Z;
  b_lock : sleeplock;
  b_refcnt : Z;
  b_prev : nat;
  b_next : nat;
  b_data : list Z
}.

Definition set_b_valid (v : Z) (x : buf) : buf := mk_buf v x.(b_disk) x.(b_dev)
    x.(b_blockno) x.(b_lock) x.(b_refcnt) x.(b_prev) x.(b_next) x.(b_data).
Definition set_b_disk (v : Z) (x : buf) : buf := mk_buf x.(b_valid) v x.(b_dev)
    x.(b_blockno) x.(b_lock) x.(b_refcnt) x.(b_prev) x.(b_next) x.(b_data).
Definition set_b_dev (v : Z) (x : buf) : buf := mk_buf x.(b_valid) x.(b_disk) v
    x.(b_blockno) x.(b_lock) x.(b_refcnt) x.(b_prev) x.(b_next) x.(b_data).
Definition set_b_blockno (v : Z) (x : buf) : buf := mk_buf x.(b_valid) x.(b_disk)
    x.(b_dev) v x.(b_lock) x.(b_refcnt) x.(b_prev) x.(b_next) x.(b_data).
Definition set_b_lock (v : sleeplock) (x : buf) : buf := mk_buf x.(b_valid) x.(b_disk)
    x.(b_dev) x.(b_blockno) v x.(b_refcnt) x.(b_prev) x.(b_next) x.(b_data).
Definition set_b_refcnt (v : Z) (x : buf) : buf := mk_buf x.(b_valid) x.(b_disk)
    x.(b_dev) x.(b_blockno) x.(b_lock) v x.(b_prev) x.(b_next) x.(b_data).
Definition set_b_prev (v : nat) (x : buf) : buf := mk_buf x.(b_valid) x.(b_disk)
    x.(b_dev) x.(b_blockno) x.(b_lock) x.(b_refcnt) v x.(b_next) x.(b_data).
Definition set_b_next (v : nat) (x : buf) : buf := mk_buf x.(b_valid) x.(b_disk)
    x.(b_dev) x.(b_blockno) x.(b_lock) x.(b_refcnt) x.(b_prev) v x.(b_data).
Definition set_b_data (v : list Z) (x : buf) : buf := mk_buf x.(b_valid) x.(b_disk)
    x.(b_dev) x.(b_blockno) x.(b_lock) x.(b_refcnt) x.(b_prev) x.(b_next) v.
(** [struct log] of log.c with its header ([lh.n], [lh.block]). *)
Record log := mk_log {
  lg_start : Z;
  lg_size : Z;
  lg_outstanding : Z;
  lg_committing : Z;
  lg_dev : Z;
  lg_n : Z;
  lg_block : list Z
}.

Definition set_lg_start (v : Z) (x : log) : log := mk_log v x.(lg_size)
    x.(lg_outstanding) x.(lg_committing) x.(lg_dev) x.(lg_n) x.(lg_block).
Definition set_lg_size (v : Z) (x : log) : log := mk_log x.(lg_start) v
    x.(lg_outstanding) x.(lg_committing) x.(lg_dev) x.(lg_n) x.(lg_block).
Definition set_lg_outstanding (v : Z) (x : log) : log := mk_log x.(lg_start) x.(lg_size)
    v x.(lg_committing) x.(lg_dev) x.(lg_n) x.(lg_block).
Definition set_lg_committing (v : Z) (x : log) : log := mk_log x.(lg_start) x.(lg_size)
    x.(lg_outstanding) v x.(lg_dev) x.(lg_n) x.(lg_block).
Definition set_lg_dev (v : Z) (x : log) : log := mk_log x.(lg_start) x.(lg_size)
    x.(lg_outstanding) x.(lg_committing) v x.(lg_n) x.(lg_block).
Definition set_lg_n (v : Z) (x : log) : log := mk_log x.(lg_start) x.(lg_size)
    x.(lg_outstanding) x.(lg_committing) x.(lg_dev) v x.(lg_block).
Definition set_lg_block (v : list Z) (x : log) : log := mk_log x.(lg_start) x.(lg_size)
    x.(lg_outstanding) x.(lg_committing) x.(lg_dev) x.(lg_n) v.
(** [struct superblock] of fs.h. *)
Record superblock := mk_sb {
  sb_magic : Z;
  sb_size : Z;
  sb_nblocks : Z;
  sb_ninodes : Z;
  sb_nlog : Z;
  sb_logstart : Z;
  sb_inodestart : Z;
  sb_bmapstart : Z
}.
(** The input buffer [cons] of console.c. *)
Record console := mk_cons {
  c_buf : list Z;
  c_r : Z;
  c_w : Z;
  c_e : Z
}.

Definition set_c_buf (v : list Z) (x : console) : console := mk_cons v x.(c_r) x.(c_w)
    x.(c_e).
Definition set_c_r (v : Z) (x : console) : console := mk_cons x.(c_buf) v x.(c_w)
    x.(c_e).
Definition set_c_w (v : Z) (x : console) : console := mk_cons x.(c_buf) x.(c_r) v
    x.(c_e).
Definition set_c_e (v : Z) (x : console) : console := mk_cons x.(c_buf) x.(c_r) x.(c_w)
    v.
(** The transmit buffer of uart.c. *)
Record uart_tx := mk_uart {
  ut_buf : list Z;
  ut_w : Z;
  ut_r : Z
}.

Definition set_ut_buf (v : list Z) (x : uart_tx) : uart_tx := mk_uart v x.(ut_w)
    x.(ut_r).
Definition set_ut_w (v : Z) (x : uart_tx) : uart_tx := mk_uart x.(ut_buf) v x.(ut_r).
Definition set_ut_r (v : Z) (x : uart_tx) : uart_tx := mk_uart x.(ut_buf) x.(ut_w) v.
(** The supervisor registers the C code reads and writes. *)
Record csrs := mk_csr {
  csr_scause : Z;
  csr_sepc : Z;
  csr_stval : Z;
  csr_sstatus : Z;
  csr_stvec : Z;
  csr_satp : Z;
  csr_sip : Z;
  csr_hartid : Z
}.

Definition set_csr_scause (v : Z) (x : csrs) : csrs := mk_csr v x.(csr_sepc)
    x.(csr_stval) x.(csr_sstatus) x.(csr_stvec) x.(csr_satp) x.(csr_sip) x.(csr_hartid).
Definition set_csr_sepc (v : Z) (x : csrs) : csrs := mk_csr x.(csr_scause) v
    x.(csr_stval) x.(csr_sstatus) x.(csr_stvec) x.(csr_satp) x.(csr_sip) x.(csr_hartid).
Definition set_csr_stval (v : Z) (x : csrs) : csrs := mk_csr x.(csr_scause) x.(csr_sepc)
    v x.(csr_sstatus) x.(csr_stvec) x.(csr_satp) x.(csr_sip) x.(csr_hartid).
Definition set_csr_sstatus (v : Z) (x : csrs) : csrs := mk_csr x.(csr_scause)
    x.(csr_sepc) x.(csr_stval) v x.(csr_stvec) x.(csr_satp) x.(csr_sip) x.(csr_hartid).
Definition set_csr_stvec (v : Z) (x : csrs) : csrs := mk_csr x.(csr_scause) x.(csr_sepc)
    x.(csr_stval) x.(csr_sstatus) v x.(csr_satp) x.(csr_sip) x.(csr_hartid).
Definition set_csr_satp (v : Z) (x : csrs) : csrs := mk_csr x.(csr_scause) x.(csr_sepc)
    x.(csr_stval) x.(csr_sstatus) x.(csr_stvec) v x.(csr_sip) x.(csr_hartid).
Definition set_csr_sip (v : Z) (x : csrs) : csrs := mk_csr x.(csr_scause) x.(csr_sepc)
    x.(csr_stval) x.(csr_sstatus) x.(csr_stvec) x.(csr_satp) v x.(csr_hartid).
Definition set_csr_hartid (v : Z) (x : csrs) : csrs := mk_csr x.(csr_scause)
    x.(csr_sepc) x.(csr_stval) x.(csr_sstatus) x.(csr_stvec) x.(csr_satp) x.(csr_sip) v.
(** The buffers a DMA descriptor can point at: a command header, the data of a
    [struct buf], a status byte. *)
Inductive dma := D_null | D_op (i : nat) | D_data (b : nat) | D_status (i : nat).

(** [struct virtq_desc] of virtio.h. *)
Record virtq_desc := mk_desc {
  d_addr : dma;
  d_len : Z;
  d_flags : Z;
  d_next : Z
}.

Definition set_d_addr (v : dma) (x : virtq_desc) : virtq_desc := mk_desc v x.(d_len)
    x.(d_flags) x.(d_next).
Definition set_d_len (v : Z) (x : virtq_desc) : virtq_desc := mk_desc x.(d_addr) v
    x.(d_flags) x.(d_next).
Definition set_d_flags (v : Z) (x : virtq_desc) : virtq_desc := mk_desc x.(d_addr)
    x.(d_len) v x.(d_next).
Definition set_d_next (v : Z) (x : virtq_desc) : virtq_desc := mk_desc x.(d_addr)
    x.(d_len) x.(d_flags) v.
(** [struct virtio_blk_req] of virtio.h. *)
Record virtio_blk_req := mk_req {
  r_type : Z;
  r_reserved : Z;
  r_sector : Z
}.

Definition set_r_type (v : Z) (x : virtio_blk_req) : virtio_blk_req := mk_req v
    x.(r_reserved) x.(r_sector).
Definition set_r_reserved (v : Z) (x : virtio_blk_req) : virtio_blk_req := mk_req
    x.(r_type) v x.(r_sector).
Definition set_r_sector (v : Z) (x : virtio_blk_req) : virtio_blk_req := mk_req
    x.(r_type) x.(r_reserved) v.
(** An entry of [disk.info]: the buffer of the operation and its status byte. *)
Record vinfo := mk_info {
  in_b : option nat;
  in_status : Z
}.

Definition set_in_b (v : option nat) (x : vinfo) : vinfo := mk_info v x.(in_status).
Definition set_in_status (v : Z) (x : vinfo) : vinfo := mk_info x.(in_b) v.
(** [struct disk] of virtio_disk.c with the rings its pointers lead to: [vd_used_ring] holds
    the [id] fields of [used->ring], [vd_used_at] is [used->idx], [vd_used_idx] the driver's own
    [used_idx]. *)
Record vdisk := mk_vd {
  vd_desc : list virtq_desc;
  vd_avail_ring : list Z;
  vd_avail_idx : Z;
  vd_used_ring : list Z;
  vd_used_at : Z;
  vd_free : list Z;
  vd_used_idx : Z;
  vd_info : list vinfo;
  vd_ops : list virtio_blk_req
}.

Definition set_vd_desc (v : list virtq_desc) (x : vdisk) : vdisk := mk_vd v
    x.(vd_avail_ring) x.(vd_avail_idx) x.(vd_used_ring) x.(vd_used_at) x.(vd_free)
    x.(vd_used_idx) x.(vd_info) x.(vd_ops).
Definition set_vd_avail_ring (v : list Z) (x : vdisk) : vdisk := mk_vd x.(vd_desc) v
    x.(vd_avail_idx) x.(vd_used_ring) x.(vd_used_at) x.(vd_free) x.(vd_used_idx)
    x.(vd_info) x.(vd_ops).
Definition set_vd_avail_idx (v : Z) (x : vdisk) : vdisk := mk_vd x.(vd_desc)
    x.(vd_avail_ring) v x.(vd_used_ring) x.(vd_used_at) x.(vd_free) x.(vd_used_idx)
    x.(vd_info) x.(vd_ops).
Definition set_vd_used_ring (v : list Z) (x : vdisk) : vdisk := mk_vd x.(vd_desc)
    x.(vd_avail_ring) x.(vd_avail_idx) v x.(vd_used_at) x.(vd_free) x.(vd_used_idx)
    x.(vd_info) x.(vd_ops).
Definition set_vd_used_at (v : Z) (x : vdisk) : vdisk := mk_vd x.(vd_desc)
    x.(vd_avail_ring) x.(vd_avail_idx) x.(vd_used_ring) v x.(vd_free) x.(vd_used_idx)
    x.(vd_info) x.(vd_ops).
Definition set_vd_free (v : list Z) (x : vdisk) : vdisk := mk_vd x.(vd_desc)
    x.(vd_avail_ring) x.(vd_avail_idx) x.(vd_used_ring) x.(vd_used_at) v x.(vd_used_idx)
    x.(vd_info) x.(vd_ops).
Definition set_vd_used_idx (v : Z) (x : vdisk) : vdisk := mk_vd x.(vd_desc)
    x.(vd_avail_ring) x.(vd_avail_idx) x.(vd_used_ring) x.(vd_used_at) x.(vd_free) v
    x.(vd_info) x.(vd_ops).
Definition set_vd_info (v : list vinfo) (x : vdisk) : vdisk := mk_vd x.(vd_desc)
    x.(vd_avail_ring) x.(vd_avail_idx) x.(vd_used_ring) x.(vd_used_at) x.(vd_free)
    x.(vd_used_idx) v x.(vd_ops).
Definition set_vd_ops (v : list virtio_blk_req) (x : vdisk) : vdisk := mk_vd x.(vd_desc)
    x.(vd_avail_ring) x.(vd_avail_idx) x.(vd_used_ring) x.(vd_used_at) x.(vd_free)
    x.(vd_used_idx) x.(vd_info) v.
(** The state of the kernel as one hart sees it.  [k_held] lists the spin-locks the
    hart holds, so [mycpu()->noff] is its length; [k_sie] says whether interrupts are on when
    no lock is held; [k_cur] is [mycpu()->proc]; [k_out] the bytes given to the UART. *)
Record kstate := mk_k {
  k_mem : mem;
  k_freelist : Z;
  k_kpgtbl : Z;
  k_held : list lock;
  k_sie : bool;
  k_cur : option nat;
  k_procs : list proc;
  k_nextpid : Z;
  k_initproc : option nat;
  k_ticks : Z;
  k_tfs : gmap Z trapframe;
  k_pipes : gmap Z pipe;
  k_readcount : Z;
  k_ftable : list file;
  k_itable : list inode;
  k_bufs : list buf;
  k_log : log;
  k_sb : superblock;
  k_disk : gmap Z (list Z);
  k_cons : console;
  k_uart : uart_tx;
  k_out : list Z;
  k_csr : csrs;
  k_vd : vdisk
}.

Definition set_k_mem (v : mem) (x : kstate) : kstate := mk_k v x.(k_freelist)
    x.(k_kpgtbl) x.(k_held) x.(k_sie) x.(k_cur) x.(k_procs) x.(k_nextpid) x.(k_initproc)
    x.(k_ticks) x.(k_tfs) x.(k_pipes) x.(k_readcount) x.(k_ftable) x.(k_itable)
    x.(k_bufs) x.(k_log) x.(k_sb) x.(k_disk) x.(k_cons) x.(k_uart) x.(k_out) x.(k_csr)
    x.(k_vd).
Definition set_k_freelist (v : Z) (x : kstate) : kstate := mk_k x.(k_mem) v x.(k_kpgtbl)
    x.(k_held) x.(k_sie) x.(k_cur) x.(k_procs) x.(k_nextpid) x.(k_initproc) x.(k_ticks)
    x.(k_tfs) x.(k_pipes) x.(k_readcount) x.(k_ftable) x.(k_itable) x.(k_bufs) x.(k_log)
    x.(k_sb) x.(k_disk) x.(k_cons) x.(k_uart) x.(k_out) x.(k_csr) x.(k_vd).
Definition set_k_kpgtbl (v : Z) (x : kstate) : kstate := mk_k x.(k_mem) x.(k_freelist) v
    x.(k_held) x.(k_sie) x.(k_cur) x.(k_procs) x.(k_nextpid) x.(k_initproc) x.(k_ticks)
    x.(k_tfs) x.(k_pipes) x.(k_readcount) x.(k_ftable) x.(k_itable) x.(k_bufs) x.(k_log)
    x.(k_sb) x.(k_disk) x.(k_cons) x.(k_uart) x.(k_out) x.(k_csr) x.(k_vd).
Definition set_k_held (v : list lock) (x : kstate) : kstate := mk_k x.(k_mem)
    x.(k_freelist) x.(k_kpgtbl) v x.(k_sie) x.(k_cur) x.(k_procs) x.(k_nextpid)
    x.(k_initproc) x.(k_ticks) x.(k_tfs) x.(k_pipes) x.(k_readcount) x.(k_ftable)
    x.(k_itable) x.(k_bufs) x.(k_log) x.(k_sb) x.(k_disk) x.(k_cons) x.(k_uart)
    x.(k_out) x.(k_csr) x.(k_vd).
Definition set_k_sie (v : bool) (x : kstate) : kstate := mk_k x.(k_mem) x.(k_freelist)
    x.(k_kpgtbl) x.(k_held) v x.(k_cur) x.(k_procs) x.(k_nextpid) x.(k_initproc)
    x.(k_ticks) x.(k_tfs) x.(k_pipes) x.(k_readcount) x.(k_ftable) x.(k_itable)
    x.(k_bufs) x.(k_log) x.(k_sb) x.(k_disk) x.(k_cons) x.(k_uart) x.(k_out) x.(k_csr)
    x.(k_vd).
Definition set_k_cur (v : option nat) (x : kstate) : kstate := mk_k x.(k_mem)
    x.(k_freelist) x.(k_kpgtbl) x.(k_held) x.(k_sie) v x.(k_procs) x.(k_nextpid)
    x.(k_initproc) x.(k_ticks) x.(k_tfs) x.(k_pipes) x.(k_readcount) x.(k_ftable)
    x.(k_itable) x.(k_bufs) x.(k_log) x.(k_sb) x.(k_disk) x.(k_cons) x.(k_uart)
    x.(k_out) x.(k_csr) x.(k_vd).
Definition set_k_procs (v : list proc) (x : kstate) : kstate := mk_k x.(k_mem)
    x.(k_freelist) x.(k_kpgtbl) x.(k_held) x.(k_sie) x.(k_cur) v x.(k_nextpid)
    x.(k_initproc) x.(k_ticks) x.(k_tfs) x.(k_pipes) x.(k_readcount) x.(k_ftable)
    x.(k_itable) x.(k_bufs) x.(k_log) x.(k_sb) x.(k_disk) x.(k_cons) x.(k_uart)
    x.(k_out) x.(k_csr) x.(k_vd).
Definition set_k_nextpid (v : Z) (x : kstate) : kstate := mk_k x.(k_mem) x.(k_freelist)
    x.(k_kpgtbl) x.(k_held) x.(k_sie) x.(k_cur) x.(k_procs) v x.(k_initproc) x.(k_ticks)
    x.(k_tfs) x.(k_pipes) x.(k_readcount) x.(k_ftable) x.(k_itable) x.(k_bufs) x.(k_log)
    x.(k_sb) x.(k_disk) x.(k_cons) x.(k_uart) x.(k_out) x.(k_csr) x.(k_vd).
Definition set_k_initproc (v : option nat) (x : kstate) : kstate := mk_k x.(k_mem)
    x.(k_freelist) x.(k_kpgtbl) x.(k_held) x.(k_sie) x.(k_cur) x.(k_procs) x.(k_nextpid)
    v x.(k_ticks) x.(k_tfs) x.(k_pipes) x.(k_readcount) x.(k_ftable) x.(k_itable)
    x.(k_bufs) x.(k_log) x.(k_sb) x.(k_disk) x.(k_cons) x.(k_uart) x.(k_out) x.(k_csr)
    x.(k_vd).
Definition set_k_ticks (v : Z) (x : kstate) : kstate := mk_k x.(k_mem) x.(k_freelist)
    x.(k_kpgtbl) x.(k_held) x.(k_sie) x.(k_cur) x.(k_procs) x.(k_nextpid) x.(k_initproc)
    v x.(k_tfs) x.(k_pipes) x.(k_readcount) x.(k_ftable) x.(k_itable) x.(k_bufs)
    x.(k_log) x.(k_sb) x.(k_disk) x.(k_cons) x.(k_uart) x.(k_out) x.(k_csr) x.(k_vd).
Definition set_k_tfs (v : gmap Z trapframe) (x : kstate) : kstate := mk_k x.(k_mem)
    x.(k_freelist) x.(k_kpgtbl) x.(k_held) x.(k_sie) x.(k_cur) x.(k_procs) x.(k_nextpid)
    x.(k_initproc) x.(k_ticks) v x.(k_pipes) x.(k_readcount) x.(k_ftable) x.(k_itable)
    x.(k_bufs) x.(k_log) x.(k_sb) x.(k_disk) x.(k_cons) x.(k_uart) x.(k_out) x.(k_csr)
    x.(k_vd).
Definition set_k_pipes (v : gmap Z pipe) (x : kstate) : kstate := mk_k x.(k_mem)
    x.(k_freelist) x.(k_kpgtbl) x.(k_held) x.(k_sie) x.(k_cur) x.(k_procs) x.(k_nextpid)
    x.(k_initproc) x.(k_ticks) x.(k_tfs) v x.(k_readcount) x.(k_ftable) x.(k_itable)
    x.(k_bufs) x.(k_log) x.(k_sb) x.(k_disk) x.(k_cons) x.(k_uart) x.(k_out) x.(k_csr)
    x.(k_vd).
Definition set_k_readcount (v : Z) (x : kstate) : kstate := mk_k x.(k_mem)
    x.(k_freelist) x.(k_kpgtbl) x.(k_held) x.(k_sie) x.(k_cur) x.(k_procs) x.(k_nextpid)
    x.(k_initproc) x.(k_ticks) x.(k_tfs) x.(k_pipes) v x.(k_ftable) x.(k_itable)
    x.(k_bufs) x.(k_log) x.(k_sb) x.(k_disk) x.(k_cons) x.(k_uart) x.(k_out) x.(k_csr)
    x.(k_vd).
Definition set_k_ftable (v : list file) (x : kstate) : kstate := mk_k x.(k_mem)
    x.(k_freelist) x.(k_kpgtbl) x.(k_held) x.(k_sie) x.(k_cur) x.(k_procs) x.(k_nextpid)
    x.(k_initproc) x.(k_ticks) x.(k_tfs) x.(k_pipes) x.(k_readcount) v x.(k_itable)
    x.(k_bufs) x.(k_log) x.(k_sb) x.(k_disk) x.(k_cons) x.(k_uart) x.(k_out) x.(k_csr)
    x.(k_vd).
Definition set_k_itable (v : list inode) (x : kstate) : kstate := mk_k x.(k_mem)
    x.(k_freelist) x.(k_kpgtbl) x.(k_held) x.(k_sie) x.(k_cur) x.(k_procs) x.(k_nextpid)
    x.(k_initproc) x.(k_ticks) x.(k_tfs) x.(k_pipes) x.(k_readcount) x.(k_ftable) v
    x.(k_bufs) x.(k_log) x.(k_sb) x.(k_disk) x.(k_cons) x.(k_uart) x.(k_out) x.(k_csr)
    x.(k_vd).
Definition set_k_bufs (v : list buf) (x : kstate) : kstate := mk_k x.(k_mem)
    x.(k_freelist) x.(k_kpgtbl) x.(k_held) x.(k_sie) x.(k_cur) x.(k_procs) x.(k_nextpid)
    x.(k_initproc) x.(k_ticks) x.(k_tfs) x.(k_pipes) x.(k_readcount) x.(k_ftable)
    x.(k_itable) v x.(k_log) x.(k_sb) x.(k_disk) x.(k_cons) x.(k_uart) x.(k_out)
    x.(k_csr) x.(k_vd).
Definition set_k_log (v : log) (x : kstate) : kstate := mk_k x.(k_mem) x.(k_freelist)
    x.(k_kpgtbl) x.(k_held) x.(k_sie) x.(k_cur) x.(k_procs) x.(k_nextpid) x.(k_initproc)
    x.(k_ticks) x.(k_tfs) x.(k_pipes) x.(k_readcount) x.(k_ftable) x.(k_itable)
    x.(k_bufs) v x.(k_sb) x.(k_disk) x.(k_cons) x.(k_uart) x.(k_out) x.(k_csr) x.(k_vd).
Definition set_k_sb (v : superblock) (x : kstate) : kstate := mk_k x.(k_mem)
    x.(k_freelist) x.(k_kpgtbl) x.(k_held) x.(k_sie) x.(k_cur) x.(k_procs) x.(k_nextpid)
    x.(k_initproc) x.(k_ticks) x.(k_tfs) x.(k_pipes) x.(k_readcount) x.(k_ftable)
    x.(k_itable) x.(k_bufs) x.(k_log) v x.(k_disk) x.(k_cons) x.(k_uart) x.(k_out)
    x.(k_csr) x.(k_vd).
Definition set_k_disk (v : gmap Z (list Z)) (x : kstate) : kstate := mk_k x.(k_mem)
    x.(k_freelist) x.(k_kpgtbl) x.(k_held) x.(k_sie) x.(k_cur) x.(k_procs) x.(k_nextpid)
    x.(k_initproc) x.(k_ticks) x.(k_tfs) x.(k_pipes) x.(k_readcount) x.(k_ftable)
    x.(k_itable) x.(k_bufs) x.(k_log) x.(k_sb) v x.(k_cons) x.(k_uart) x.(k_out)
    x.(k_csr) x.(k_vd).
Definition set_k_cons (v : console) (x : kstate) : kstate := mk_k x.(k_mem)
    x.(k_freelist) x.(k_kpgtbl) x.(k_held) x.(k_sie) x.(k_cur) x.(k_procs) x.(k_nextpid)
    x.(k_initproc) x.(k_ticks) x.(k_tfs) x.(k_pipes) x.(k_readcount) x.(k_ftable)
    x.(k_itable) x.(k_bufs) x.(k_log) x.(k_sb) x.(k_disk) v x.(k_uart) x.(k_out)
    x.(k_csr) x.(k_vd).
Definition set_k_uart (v : uart_tx) (x : kstate) : kstate := mk_k x.(k_mem)
    x.(k_freelist) x.(k_kpgtbl) x.(k_held) x.(k_sie) x.(k_cur) x.(k_procs) x.(k_nextpid)
    x.(k_initproc) x.(k_ticks) x.(k_tfs) x.(k_pipes) x.(k_readcount) x.(k_ftable)
    x.(k_itable) x.(k_bufs) x.(k_log) x.(k_sb) x.(k_disk) x.(k_cons) v x.(k_out)
    x.(k_csr) x.(k_vd).
Definition set_k_out (v : list Z) (x : kstate) : kstate := mk_k x.(k_mem) x.(k_freelist)
    x.(k_kpgtbl) x.(k_held) x.(k_sie) x.(k_cur) x.(k_procs) x.(k_nextpid) x.(k_initproc)
    x.(k_ticks) x.(k_tfs) x.(k_pipes) x.(k_readcount) x.(k_ftable) x.(k_itable)
    x.(k_bufs) x.(k_log) x.(k_sb) x.(k_disk) x.(k_cons) x.(k_uart) v x.(k_csr) x.(k_vd).
Definition set_k_csr (v : csrs) (x : kstate) : kstate := mk_k x.(k_mem) x.(k_freelist)
    x.(k_kpgtbl) x.(k_held) x.(k_sie) x.(k_cur) x.(k_procs) x.(k_nextpid) x.(k_initproc)
    x.(k_ticks) x.(k_tfs) x.(k_pipes) x.(k_readcount) x.(k_ftable) x.(k_itable)
    x.(k_bufs) x.(k_log) x.(k_sb) x.(k_disk) x.(k_cons) x.(k_uart) x.(k_out) v x.(k_vd).
Definition set_k_vd (v : vdisk) (x : kstate) : kstate := mk_k x.(k_mem) x.(k_freelist)
    x.(k_kpgtbl) x.(k_held) x.(k_sie) x.(k_cur) x.(k_procs) x.(k_nextpid) x.(k_initproc)
    x.(k_ticks) x.(k_tfs) x.(k_pipes) x.(k_readcount) x.(k_ftable) x.(k_itable)
    x.(k_bufs) x.(k_log) x.(k_sb) x.(k_disk) x.(k_cons) x.(k_uart) x.(k_out) x.(k_csr)
    v.
(** ** Parameters of a kernel build

    What the linker decides ([kernel.ld], the addresses of symbols) and the
    scheduling policy the Makefile's [SCHEDULER] selects. *)

Inductive sched_policy := RR | FCFS | MLFQ.

#[export] Instance sched_policy_eq_dec : EqDecision sched_policy.
Proof. solve_decision. Defined.

Class Build := {
  policy : sched_policy;
  kend : Z;
  etext : Z;
  trampoline : Z;
  uservec : Z;
  userret : Z;
  kernelvec_addr : Z;
  usertrap_addr : Z;
  forkret_addr : Z
}.

(** ** The kernel monad

    A kernel function run from a state returns, stops in [panic], or switches
    away: [Swtch s k] is the state at a call of [swtch] together with the rest of
    the function, to be run from the state in which the thread is resumed.
    [Stuck] is a loop that ran out of its bound on iterations. *)

Inductive res (A : Type) : Type :=
| Ret (a : A) (s : kstate)
| Panic (msg : string)
| Swtch (s : kstate) (k : kstate → res A)
| Stuck.

Arguments Ret {A} a s.
Arguments Panic {A} msg.
Arguments Swtch {A} s k.
Arguments Stuck {A}.

Definition M (A : Type) : Type := kstate → res A.

Fixpoint rbind {A B} (r : res A) (f : A → M B) : res B :=
  match r with
  | Ret a s => f a s
  | Panic msg => Panic msg
  | Swtch s k => Swtch s (λ s', rbind (k s') f)
  | Stuck => Stuck
  end.

Definition bind {A B} (m : M A) (f : A → M B) : M B := λ s, rbind (m s) f.
Definition ret {A} (a : A) : M A := λ s, Ret a s.
Definition panic {A} (msg : string) : M A := λ _, Panic msg.
Definition stuck {A} : M A := λ _, Stuck.

(** A load or store through a bad pointer in kernel mode traps to [kerneltrap],
    which does not recognise the exception and panics. *)
Definition fault {A} : M A := panic "kerneltrap".

Declare Scope kernel_scope.
Delimit Scope kernel_scope with K.
#[global] Open Scope kernel_scope.

Notation "x <- y ;; z" := (bind y (λ x, z))
  (at level 20, y at level 99, z at level 200, right associativity) : kernel_scope.
Notation "y ;; z" := (bind y (λ _, z))
  (at level 100, z at level 200, right associativity) : kernel_scope.

Definition gets {A} (f : kstate → A) : M A := λ s, Ret (f s) s.
Definition modify (f : kstate → kstate) : M unit := λ s, Ret tt (f s).
Definition when (b : bool) (m : M unit) : M unit := if b then m else ret tt.
Definition unwrap {A} (o : option A) : M A :=
  match o with Some a => ret a | None => fault end.

(** [for (x in l) body(x)]. *)
Fixpoint for_each {A} (l : list A) (body : A → M unit) : M unit :=
  match l with
  | [] => ret tt
  | x :: l' => body x;; for_each l' body
  end.

(** A loop with an early exit: the body returns [Some r] to leave it with [r]. *)
Fixpoint for_until {A R} (l : list A) (body : A → M (option R)) : M (option R) :=
  match l with
  | [] => ret None
  | x :: l' =>
      r <- body x;;
      match r with
      | Some v => ret (Some v)
      | None => for_until l' body
      end
  end.

(** ** Spin-locks as the callers see them (see [Spinlock] for the code) *)

Fixpoint remove_lock (l : lock) (h : list lock) : list lock :=
  match h with
  | [] => []
  | x :: h' => if decide (x = l) then h' else x :: remove_lock l h'
  end.

Definition holding (l : lock) : M bool := gets (λ s, bool_decide (l ∈ k_held s)).

Definition acquire (l : lock) : M unit := λ s,
  if decide (l ∈ k_held s) then Panic "acquire"
  else Ret tt (set_k_held (l :: k_held s) s).

Definition release (l : lock) : M unit := λ s,
  if decide (l ∈ k_held s) then Ret tt (set_k_held (remove_lock l (k_held s)) s)
  else Panic "release".

Definition intr_on : M unit := modify (set_k_sie true).
Definition intr_off : M unit := modify (set_k_sie false).
Definition intr_get : M bool := gets (λ s, (k_sie s && bool_decide (k_held s = []))%bool).

(** ** Accessors *)

Definition getp (i : nat) : M proc := p <- gets (λ s, k_procs s !! i);; unwrap p.
Definition modp (i : nat) (f : proc → proc) : M unit :=
  modify (λ s, set_k_procs (alter f i (k_procs s)) s).

(** [myproc()] as an index, and the process record behind it. *)
Definition myproc : M (option nat) := gets k_cur.
Definition curproc : M nat := c <- myproc;; unwrap c.

Definition gettf (pa : Z) : M trapframe := t <- gets (λ s, k_tfs s !! pa);; unwrap t.
Definition settf (pa : Z) (f : trapframe → trapframe) : M unit :=
  t <- gettf pa;; modify (λ s, set_k_tfs (<[pa := f t]> (k_tfs s)) s).

Definition getpipe (pi : Z) : M pipe := p <- gets (λ s, k_pipes s !! pi);; unwrap p.
Definition setpipe (pi : Z) (f : pipe → pipe) : M unit :=
  p <- getpipe pi;; modify (λ s, set_k_pipes (<[pi := f p]> (k_pipes s)) s).

Definition getf (i : nat) : M file := f <- gets (λ s, k_ftable s !! i);; unwrap f.
Definition modf (i : nat) (g : file → file) : M unit :=
  modify (λ s, set_k_ftable (alter g i (k_ftable s)) s).

Definition geti (i : nat) : M inode := x <- gets (λ s, k_itable s !! i);; unwrap x.
Definition modi (i : nat) (g : inode → inode) : M unit :=
  modify (λ s, set_k_itable (alter g i (k_itable s)) s).

Definition getb (i : nat) : M buf := b <- gets (λ s, k_bufs s !! i);; unwrap b.
Definition modb (i : nat) (g : buf → buf) : M unit :=
  modify (λ s, set_k_bufs (alter g i (k_bufs s)) s).

#[global] Arguments acquire : simpl never.
#[global] Arguments release : simpl never.
#[global] Arguments holding : simpl never.

(** Symbolic execution: unfold the monad's plumbing and the record accessors,
    leaving the calls of kernel functions folded. *)
Ltac kstep :=
  cbv [bind ret gets modify when unwrap getp modp myproc curproc gettf settf getpipe setpipe
       getf modf geti modi getb modb panic fault];
  cbn [rbind].

(** Two kernel states are equal when their fields are. *)
Lemma k_ext (s s' : kstate) :
  k_mem s = k_mem s' → k_freelist s = k_freelist s' → k_kpgtbl s = k_kpgtbl s' → k_held s =
  k_held s' → k_sie s = k_sie s' → k_cur s = k_cur s' → k_procs s = k_procs s' → k_nextpid s
  = k_nextpid s' → k_initproc s = k_initproc s' → k_ticks s = k_ticks s' → k_tfs s = k_tfs
  s' → k_pipes s = k_pipes s' → k_readcount s = k_readcount s' → k_ftable s = k_ftable s' →
  k_itable s = k_itable s' → k_bufs s = k_bufs s' → k_log s = k_log s' → k_sb s = k_sb s' →
  k_disk s = k_disk s' → k_cons s = k_cons s' → k_uart s = k_uart s' → k_out s = k_out s' →
  k_csr s = k_csr s' → k_vd s = k_vd s' → s = s'.
Proof. destruct s, s'. cbn [k_mem k_freelist k_kpgtbl k_held k_sie k_cur k_procs k_nextpid k_initproc k_ticks
  k_tfs k_pipes k_readcount k_ftable k_itable k_bufs k_log k_sb k_disk k_cons k_uart
  k_out k_csr k_vd]. intros. by subst. Qed.

Lemma ret_eq {A} (a : A) (s s' : kstate) : s = s' → Ret a s = Ret a s'.
Proof. by intros ->. Qed.

(** Equality of kernel states, or of two returns, field by field. *)
Ltac keq :=
  try apply ret_eq; apply k_ext;
  cbn [set_k_mem set_k_freelist set_k_kpgtbl set_k_held set_k_sie set_k_cur set_k_procs
    set_k_nextpid set_k_initproc set_k_ticks set_k_tfs set_k_pipes set_k_readcount
    set_k_ftable set_k_itable set_k_bufs set_k_log set_k_sb set_k_disk set_k_cons
    set_k_uart set_k_out set_k_csr set_k_vd k_mem k_freelist k_kpgtbl k_held k_sie k_cur k_procs
    k_nextpid k_initproc k_ticks k_tfs k_pipes k_readcount k_ftable k_itable k_bufs
    k_log k_sb k_disk k_cons k_uart k_out k_csr k_vd];
  reflexivity.


(** ** Laws of the monad and of the primitives *)

Lemma rbind_ret {A B} (a : A) s (f : A → M B) : rbind (Ret a s) f = f a s.
Proof. done. Qed.

Lemma bind_ret_l {A B} (a : A) (f : A → M B) s : bind (ret a) f s = f a s.
Proof. done. Qed.

Lemma bind_step {A B} (m : M A) (f : A → M B) s a s' :
  m s = Ret a s' → bind m f s = f a s'.
Proof. intros H. unfold bind. by rewrite H. Qed.

Lemma bind_panic {A B} (m : M A) (f : A → M B) s msg :
  m s = Panic msg → bind m f s = Panic msg.
Proof. intros H. unfold bind. by rewrite H. Qed.

Lemma bind_swtch {A B} (m : M A) (f : A → M B) s s' k :
  m s = Swtch s' k → bind m f s = Swtch s' (λ s'', rbind (k s'') f).
Proof. intros H. unfold bind. by rewrite H. Qed.

(** [Q] holds of the value a function returns, whatever happened while it was
    switched out. *)
Fixpoint post {A} (r : res A) (Q : A → Prop) : Prop :=
  match r with
  | Ret a _ => Q a
  | Swtch _ k => ∀ s, post (k s) Q
  | _ => True
  end.

Lemma post_bind {A B} (m : M A) (f : A → M B) s Q :
  (∀ a s', post (f a s') Q) → post (bind m f s) Q.
Proof.
  intros H. unfold bind. induction (m s) as [a s'|msg|s' k IH|]; simpl; auto.
Qed.

Lemma acquire_free l s :
  l ∉ k_held s → acquire l s = Ret tt (set_k_held (l :: k_held s) s).
Proof. intros H. unfold acquire. by rewrite decide_False. Qed.

Lemma release_held l h s :
  k_held s = l :: h → release l s = Ret tt (set_k_held h s).
Proof.
  intros H. unfold release. rewrite H, decide_True by set_solver.
  simpl. by rewrite decide_True.
Qed.

Lemma set_held_id s : set_k_held (k_held s) s = s.
Proof. by destruct s. Qed.

(** A critical section that does not touch the lock list leaves it as it was. *)
Lemma critical_section {A} l (m : M A) s a s' :
  l ∉ k_held s →
  m (set_k_held (l :: k_held s) s) = Ret a s' →
  k_held s' = l :: k_held s →
  (acquire l;; x <- m;; release l;; ret x) s = Ret a (set_k_held (k_held s) s').
Proof.
  intros Hl Hm Hh. erewrite bind_step by (by apply acquire_free).
  erewrite bind_step by done. by erewrite bind_step by (by apply release_held).
Qed.

Lemma for_each_nil {A} (body : A → M unit) s : for_each [] body s = Ret tt s.
Proof. done. Qed.

Lemma for_each_app {A} (l1 l2 : list A) (body : A → M unit) s s' :
  for_each l1 body s = Ret tt s' → for_each (l1 ++ l2) body s = for_each l2 body s'.
Proof.
  revert s. induction l1 as [|x l1 IH]; intros s H; simpl in *; [by inversion H|].
  unfold bind in *. destruct (body x s) as [[] s1| | |]; simpl in *; try done. by apply IH.
Qed.
