(* ===== verification/Boot.v ===== *)
(** * The kernel's data at boot

    The state in which [main] finds the kernel: the zero-initialised and the
    initialised data of the C files, no lock held, no process running.  It and
    one concrete build are the inputs on which the theorems are instantiated. *)

From Stdlib Require Import ZArith Lia.
From S2P Require Import Prelude Machine Kernel.

Definition zero_context : context := mk_ctx 0 0 0 0 0 0 0 0 0 0 0 0 0 0.

Definition zero_tf : trapframe :=
  mk_tf 0 0 0 0 0 0 0 0 0 0 0 0 0 0 0 0 0 0 0 0 0 0 0 0 0 0 0 0 0 0 0 0 0 0 0 0.

Definition zero_proc : proc :=
  mk_proc UNUSED Ch_null 0 0 0 None 0 0 0 0 zero_context (replicate NOFILE None) None
    (replicate 16 0) 0 0 0 0 0 0 0 0 (mk_mlfq 0 0 0 0 0).

Definition zero_file : file := mk_file FD_NONE 0 0 0 0 None 0 0.

Definition zero_inode : inode := mk_inode 0 0 0 (mk_sl 0 0) 0 0 0 0 0 0 (replicate 13 0).

Definition zero_buf : buf := mk_buf 0 0 0 0 (mk_sl 0 0) 0 0 0 (replicate 1024 0).

(** The driver's data before [virtio_disk_init]: [NUM] is 8. *)
Definition zero_vdisk : vdisk :=
  mk_vd (replicate 8 (mk_desc D_null 0 0 0)) (replicate 8 0) 0 (replicate 8 0) 0 (replicate 8 0) 0
    (replicate 8 (mk_info None 0)) (replicate 8 (mk_req 0 0 0)).

(** [int nextpid = 1]; everything else is zero. *)
Definition bss : kstate := {|
  k_mem := λ _, 0; k_freelist := 0; k_kpgtbl := 0; k_held := []; k_sie := false; k_cur := None;
  k_procs := replicate NPROC zero_proc; k_nextpid := 1; k_initproc := None; k_ticks := 0;
  k_tfs := ∅; k_pipes := ∅; k_readcount := 0;
  k_ftable := replicate NFILE zero_file; k_itable := replicate NINODE zero_inode;
  k_bufs := replicate (S NBUF) zero_buf; k_log := mk_log 0 0 0 0 0 0 (replicate 30 0);
  k_sb := mk_sb 0 0 0 0 0 0 0 0; k_disk := ∅; k_cons := mk_cons (replicate 128 0) 0 0 0;
  k_uart := mk_uart (replicate 32 0) 0 0; k_out := []; k_csr := mk_csr 0 0 0 0 0 0 0 0;
  k_vd := zero_vdisk
|}.

(** A build: the kernel's text ends at 0x80008000 and its data at 0x80022000. *)
Definition build_of (pol : sched_policy) : Build := {|
  policy := pol; kend := 0x80022000; etext := 0x80008000; trampoline := 0x80007000;
  uservec := 0x80007000; userret := 0x8000709c; kernelvec_addr := 0x80005c40;
  usertrap_addr := 0x80002a00; forkret_addr := 0x80001b00
|}.

Lemma build_of_kend pol : KERNBASE ≤ @kend (build_of pol) ≤ PHYSTOP.
Proof. done. Qed.

Definition build_rr : Build := build_of RR.
Definition build_fcfs : Build := build_of FCFS.
Definition build_mlfq : Build := build_of MLFQ.
