(* ===== verification/CString.v ===== *)
(** * Memory and string routines

    [kernel/string.c] and the routines of [user/ulib.c] that differ from it, on
    byte memories.  Loops that stop at a count recurse on it; loops that stop at
    a NUL byte take a bound on the number of iterations and return [None] when
    it is exhausted.  The routines that read one string and write or compare
    with another take the two strings in two memories, so that a buffer of the
    kernel held as a byte list ([buf_mem]) and memory proper can be mixed. *)

From Stdlib Require Import ZArith Lia.
From S2P Require Import Prelude Machine.

(** ** kernel/string.c *)

Fixpoint memset_loop (k : nat) (m : mem) (cdst c : Z) : mem :=
  match k with
  | O => m
  | S k' => memset_loop k' (st8 m cdst c) (cdst + 1) c
  end.

Definition memset (m : mem) (dst c n : Z) : mem := memset_loop (Z.to_nat n) m dst c.

Fixpoint memcmp_loop (k : nat) (m1 : mem) (s1 : Z) (m2 : mem) (s2 : Z) : Z :=
  match k with
  | O => 0
  | S k' =>
      if negb (m1 s1 =? m2 s2) then m1 s1 - m2 s2
      else memcmp_loop k' m1 (s1 + 1) m2 (s2 + 1)
  end.

Definition memcmp (m1 : mem) (v1 : Z) (m2 : mem) (v2 n : Z) : Z :=
  memcmp_loop (Z.to_nat n) m1 v1 m2 v2.

(** [while (n-- > 0) *d++ = *s++] and [while (n-- > 0) *--d = *--s]. *)
Fixpoint copy_up (k : nat) (m : mem) (d s : Z) : mem :=
  match k with
  | O => m
  | S k' => copy_up k' (st8 m d (m s)) (d + 1) (s + 1)
  end.

Fixpoint copy_down (k : nat) (m : mem) (d s : Z) : mem :=
  match k with
  | O => m
  | S k' => copy_down k' (st8 m (d - 1) (m (s - 1))) (d - 1) (s - 1)
  end.

Definition memmove (m : mem) (dst src n : Z) : mem :=
  if n =? 0 then m
  else if ((src <? dst) && (dst <? src + n))%bool
  then copy_down (Z.to_nat n) m (dst + n) (src + n)
  else copy_up (Z.to_nat n) m dst src.

Definition memcpy (m : mem) (dst src n : Z) : mem := memmove m dst src n.

Fixpoint strncmp_loop (k : nat) (mp : mem) (p : Z) (mq : mem) (q : Z) : Z :=
  match k with
  | O => 0
  | S k' =>
      if (negb (mp p =? 0) && (mp p =? mq q))%bool
      then strncmp_loop k' mp (p + 1) mq (q + 1)
      else u8 (mp p) - u8 (mq q)
  end.

Definition strncmp (mp : mem) (p : Z) (mq : mem) (q n : Z) : Z :=
  strncmp_loop (Z.to_nat n) mp p mq q.

(** [strncpy]: copy up to and including the NUL, then pad with NULs.  The loop
    returns the memory, where it stopped and how many bytes are left to pad. *)
Fixpoint strncpy_loop (k : nat) (m : mem) (s : Z) (mt : mem) (t : Z) : mem * Z * nat :=
  match k with
  | O => (m, s, O)
  | S k' =>
      let m' := st8 m s (mt t) in
      if u8 (mt t) =? 0 then (m', s + 1, k')
      else strncpy_loop k' m' (s + 1) mt (t + 1)
  end.

Definition strncpy (m : mem) (s : Z) (mt : mem) (t n : Z) : mem :=
  let '(m', s', k) := strncpy_loop (Z.to_nat n) m s mt t in
  memset_loop k m' s' 0.

(** [while (--n > 0 && ( *s++ = *t++) != 0);] *)
Fixpoint safestrcpy_loop (k : nat) (m : mem) (s : Z) (mt : mem) (t : Z) : mem * Z :=
  match k with
  | O => (m, s)
  | S k' =>
      let m' := st8 m s (mt t) in
      if u8 (mt t) =? 0 then (m', s + 1)
      else safestrcpy_loop k' m' (s + 1) mt (t + 1)
  end.

Definition safestrcpy (m : mem) (s : Z) (mt : mem) (t n : Z) : mem :=
  if n <=? 0 then m
  else
    let '(m', s') := safestrcpy_loop (Z.to_nat (n - 1)) m s mt t in
    st8 m' s' 0.

Fixpoint strlen (fuel : nat) (m : mem) (s : Z) : option Z :=
  match fuel with
  | O => None
  | S f => if m s =? 0 then Some 0 else option_map (Z.add 1) (strlen f m (s + 1))
  end.

(** ** user/ulib.c *)

Definition ulib_memmove (m : mem) (vdst vsrc n : Z) : mem :=
  if vdst <? vsrc then copy_up (Z.to_nat n) m vdst vsrc
  else copy_down (Z.to_nat n) m (vdst + n) (vsrc + n).

(** The loops of [strlen], [memset] and [memcmp] are those of the kernel. *)
Definition ulib_strlen (fuel : nat) (m : mem) (s : Z) : option Z := strlen fuel m s.
Definition ulib_memset (m : mem) (dst c n : Z) : mem := memset_loop (Z.to_nat n) m dst c.
Definition ulib_memcmp (m1 : mem) (s1 : Z) (m2 : mem) (s2 n : Z) : Z := memcmp_loop (Z.to_nat n) m1 s1 m2 s2.
Definition ulib_memcpy (m : mem) (dst src n : Z) : mem := ulib_memmove m dst src n.

Fixpoint strcpy (fuel : nat) (m : mem) (s : Z) (mt : mem) (t : Z) : option mem :=
  match fuel with
  | O => None
  | S f =>
      let m' := st8 m s (mt t) in
      if u8 (mt t) =? 0 then Some m' else strcpy f m' (s + 1) mt (t + 1)
  end.

Fixpoint strcmp (fuel : nat) (mp : mem) (p : Z) (mq : mem) (q : Z) : option Z :=
  match fuel with
  | O => None
  | S f =>
      if (negb (mp p =? 0) && (mp p =? mq q))%bool
      then strcmp f mp (p + 1) mq (q + 1)
      else Some (u8 (mp p) - u8 (mq q))
  end.

(** [strchr] returns the address of the first [c], 0 when there is none. *)
Fixpoint strchr (fuel : nat) (m : mem) (s c : Z) : option Z :=
  match fuel with
  | O => None
  | S f =>
      if m s =? 0 then Some 0
      else if m s =? c then Some s
      else strchr f m (s + 1) c
  end.

Fixpoint atoi_loop (fuel : nat) (m : mem) (s n : Z) : option Z :=
  match fuel with
  | O => None
  | S f =>
      if ((48 <=? m s) && (m s <=? 57))%bool
      then atoi_loop f m (s + 1) (s32 (n * 10 + m s - 48))
      else Some n
  end.

Definition atoi (fuel : nat) (m : mem) (s : Z) : option Z := atoi_loop fuel m s 0.

(** ** Buffers held as byte lists *)

Definition buf_mem (l : list Z) : mem := λ a, default 0 (l !! Z.to_nat a).
Definition safestrcpy_buf (dst src : list Z) (n : Z) : list Z :=
  get_bytes (safestrcpy (buf_mem dst) 0 (buf_mem src) 0 n) 0 (length dst).

(** ** Theorems *)

Lemma memset_loop_spec k m d c a :
  memset_loop k m d c a =
  if ((d <=? a) && (a <? d + Z.of_nat k))%bool then u8 c else m a.
Proof.
  revert m d. induction k as [|k IH]; intros m d; cbn [memset_loop].
  - destruct (d <=? a) eqn:?, (a <? _) eqn:?; simpl; bool_prop; [lia|done..].
  - rewrite IH. unfold st8.
    destruct (Z.eqb_spec a d); subst;
      repeat match goal with |- context [?x <=? ?y] => destruct (Z.leb_spec x y)
             | |- context [?x <? ?y] => destruct (Z.ltb_spec x y) end; simpl; try lia; done.
Qed.

Lemma memset_spec m dst c n a :
  memset m dst c n a =
  if ((dst <=? a) && (a <? dst + Z.max 0 n))%bool then u8 c else m a.
Proof. unfold memset. rewrite memset_loop_spec. by rewrite ZifyInst.of_nat_to_nat_eq. Qed.

Lemma memset_in m dst c n a : dst ≤ a < dst + n → memset m dst c n a = u8 c.
Proof.
  intros H. rewrite memset_spec. destruct (Z.leb_spec dst a), (Z.ltb_spec a (dst + Z.max 0 n));
  simpl; [done|lia..].
Qed.

Lemma memset_out m dst c n a : a < dst ∨ dst + n ≤ a → 0 ≤ n → memset m dst c n a = m a.
Proof.
  intros H Hn. rewrite memset_spec. destruct (Z.leb_spec dst a), (Z.ltb_spec a (dst + Z.max 0 n));
  simpl; [lia|done..].
Qed.

Lemma memset_bytes m dst c n : mem_bytes m → mem_bytes (memset m dst c n).
Proof. intros H a. rewrite memset_spec. case_test; [apply u8_range|apply H]. Qed.

Lemma copy_up_spec k m d s a :
  mem_bytes m → d ≤ s ∨ s + Z.of_nat k ≤ d →
  copy_up k m d s a =
  if ((d <=? a) && (a <? d + Z.of_nat k))%bool then m (s + (a - d)) else m a.
Proof.
  revert m d s. induction k as [|k IH]; intros m d s Hm Hd; cbn [copy_up].
  - destruct (Z.leb_spec d a), (Z.ltb_spec a (d + Z.of_nat 0)); simpl; [lia|done..].
  - rewrite IH by (auto using st8_bytes; lia). unfold st8.
    rewrite (u8_small (m s)) by apply Hm.
    repeat match goal with
           | |- context [?x <=? ?y] => destruct (Z.leb_spec x y)
           | |- context [?x <? ?y] => destruct (Z.ltb_spec x y)
           | |- context [?x =? ?y] => destruct (Z.eqb_spec x y)
           end; simpl; try lia; try done; f_equal; lia.
Qed.

Lemma copy_down_spec k m d s a :
  mem_bytes m → s ≤ d ∨ d ≤ s - Z.of_nat k →
  copy_down k m d s a =
  if ((d - Z.of_nat k <=? a) && (a <? d))%bool then m (s + (a - d)) else m a.
Proof.
  revert m d s. induction k as [|k IH]; intros m d s Hm Hd; cbn [copy_down].
  - destruct (Z.leb_spec (d - Z.of_nat 0) a), (Z.ltb_spec a d); simpl; [lia|done..].
  - rewrite IH by (auto using st8_bytes; lia). unfold st8.
    rewrite (u8_small (m (s - 1))) by apply Hm.
    repeat match goal with
           | |- context [?x <=? ?y] => destruct (Z.leb_spec x y)
           | |- context [?x <? ?y] => destruct (Z.ltb_spec x y)
           | |- context [?x =? ?y] => destruct (Z.eqb_spec x y)
           end; simpl; try lia; try done; f_equal; lia.
Qed.

Lemma memmove_spec m dst src n a :
  mem_bytes m → 0 ≤ n →
  memmove m dst src n a =
  if ((dst <=? a) && (a <? dst + n))%bool then m (src + (a - dst)) else m a.
Proof.
  intros Hm Hn. unfold memmove.
  destruct (Z.eqb_spec n 0) as [->|].
  { destruct (Z.leb_spec dst a), (Z.ltb_spec a (dst + 0)); simpl; [lia|done..]. }
  destruct (Z.ltb_spec src dst), (Z.ltb_spec dst (src + n)); cbn [andb].
  all: first [rewrite copy_up_spec by (try done; lia) | rewrite copy_down_spec by (try done; lia)].
  all: rewrite Z2Nat.id by lia.
  all: try done.
  replace (dst + n - n) with dst by lia. replace (src + n + (a - (dst + n))) with (src + (a - dst)) by lia.
  done.
Qed.

(** [memmove] copies the block as it was before the call, whatever the
    overlap of source and destination, and changes no other byte; the user
    library's version does the same. *)
Theorem memmove_overlap m dst src n :
  mem_bytes m → 0 ≤ n →
  (∀ i, 0 ≤ i < n → memmove m dst src n (dst + i) = m (src + i)) ∧
  (∀ a, a < dst ∨ dst + n ≤ a → memmove m dst src n a = m a) ∧
  ulib_memmove m dst src n ≡ₘ memmove m dst src n.
Proof.
  intros Hm Hn. split_and!.
  - intros i Hi. rewrite memmove_spec by done.
    destruct (Z.leb_spec dst (dst + i)), (Z.ltb_spec (dst + i) (dst + n)); simpl; try lia.
    f_equal. lia.
  - intros a Ha. rewrite memmove_spec by done.
    destruct (Z.leb_spec dst a), (Z.ltb_spec a (dst + n)); simpl; [lia|done..].
  - intros a. rewrite memmove_spec by done. unfold ulib_memmove. case_test.
    + rewrite copy_up_spec by (try done; lia). by rewrite Z2Nat.id by lia.
    + rewrite copy_down_spec by (try done; lia). rewrite Z2Nat.id by lia.
      replace (dst + n - n) with dst by lia. by replace (src + n + (a - (dst + n))) with (src + (a - dst)) by lia.
Qed.

Lemma memmove_overlap_witness :
  memmove (λ a, if a <? 0 then 0 else u8 a) 2 0 4 5 = 3.
Proof.
  refine (eq_trans (proj1 (memmove_overlap (λ a, if a <? 0 then 0 else u8 a) 2 0 4 _ _) 3 _) _).
  - intros a. simpl. case_test; [lia|apply u8_range].
  - lia.
  - lia.
  - reflexivity.
Defined.

Lemma safestrcpy_loop_spec k m s mt t :
  let '(m', s') := safestrcpy_loop k m s mt t in
  ∃ len, 0 ≤ len ≤ Z.of_nat k ∧
    (∀ i, 0 ≤ i < len → u8 (mt (t + i)) ≠ 0 ∧ m' (s + i) = u8 (mt (t + i))) ∧
    (∀ a, a < s ∨ s + Z.of_nat k ≤ a → m' a = m a) ∧
    ((len = Z.of_nat k ∧ s' = s + len) ∨
     (len < Z.of_nat k ∧ u8 (mt (t + len)) = 0 ∧ m' (s + len) = 0 ∧ s' = s + len + 1)).
Proof.
  revert m s t. induction k as [|k IH]; intros m s t; cbn [safestrcpy_loop].
  { exists 0. split_and!; [lia..|done|]. left. lia. }
  destruct (Z.eqb_spec (u8 (mt t)) 0) as [E|E].
  - exists 0. split_and!; [lia..| |].
    + intros a Ha. rewrite st8_ne by lia. done.
    + right. rewrite !Z.add_0_r, st8_eq. split_and!; [lia|done..].
  - specialize (IH (st8 m s (mt t)) (s + 1) (t + 1)).
    destruct (safestrcpy_loop k _ (s + 1) mt (t + 1)) as [m' s'].
    destruct IH as (len & Hlen & Hcp & Hout & Hend). exists (len + 1). split_and!; [lia..| | |].
    + intros i Hi. destruct (decide (i = 0)) as [->|].
      * rewrite !Z.add_0_r. split; [done|]. rewrite Hout by lia. apply st8_eq.
      * replace (s + i) with (s + 1 + (i - 1)) by lia.
        replace (t + i) with (t + 1 + (i - 1)) by lia. apply Hcp. lia.
    + intros a Ha. rewrite Hout by lia. apply st8_ne. lia.
    + replace (s + (len + 1)) with (s + 1 + len) by lia.
      replace (t + (len + 1)) with (t + 1 + len) by lia.
      destruct Hend as [[-> ->]|(?&?&?&->)]; [left; lia|right; split_and!; [lia|done..]].
Qed.

(** [safestrcpy] with a positive size writes only inside the destination
    buffer, copies the source up to its NUL or the size less one, and always
    leaves a NUL-terminated string. *)
Theorem safestrcpy_terminates m s mt t n :
  0 < n →
  ∃ len, 0 ≤ len < n ∧ (len = n - 1 ∨ u8 (mt (t + len)) = 0) ∧
    (∀ i, 0 ≤ i < len →
       u8 (mt (t + i)) ≠ 0 ∧ safestrcpy m s mt t n (s + i) = u8 (mt (t + i))) ∧
    safestrcpy m s mt t n (s + len) = 0 ∧
    (∀ a, a < s ∨ s + n ≤ a → safestrcpy m s mt t n a = m a).
Proof.
  intros Hn. unfold safestrcpy. destruct (Z.leb_spec n 0); [lia|].
  pose proof (safestrcpy_loop_spec (Z.to_nat (n - 1)) m s mt t) as Hl.
  rewrite Z2Nat.id in Hl by lia.
  destruct (safestrcpy_loop _ m s mt t) as [m' s'].
  destruct Hl as (len & Hlen & Hcp & Hout & Hend). exists len. split_and!; [lia..| | | |].
  - destruct Hend as [[-> _]|(_&?&_)]; auto.
  - intros i Hi. rewrite st8_ne by lia. by apply Hcp.
  - destruct Hend as [[-> ->]|(?&?&?&->)]; [by rewrite st8_eq|by rewrite st8_ne by lia].
  - intros a Ha. rewrite st8_ne by lia. apply Hout. lia.
Qed.

Lemma safestrcpy_terminates_witness :
  ∃ len, 0 ≤ len < 4 ∧
    (len = 4 - 1 ∨ u8 (buf_mem [104; 105; 33; 33; 33] (0 + len)) = 0) ∧
    safestrcpy (λ _, 7) 0 (buf_mem [104; 105; 33; 33; 33]) 0 4 (0 + len) = 0.
Proof.
  destruct (safestrcpy_terminates (λ _, 7) 0 (buf_mem [104; 105; 33; 33; 33]) 0 4 ltac:(lia))
    as (len & H1 & H2 & _ & H3 & _).
  exists len. split_and!; [lia..|exact H2|exact H3].
Defined.

Lemma strncmp_loop_zero k mp p mq q :
  mem_bytes mp → mem_bytes mq →
  strncmp_loop k mp p mq q = 0 ↔
  ∀ i, 0 ≤ i < Z.of_nat k → (∀ j, 0 ≤ j < i → mp (p + j) ≠ 0) → mp (p + i) = mq (q + i).
Proof.
  intros Hp Hq. revert p q. induction k as [|k IH]; intros p q; cbn [strncmp_loop].
  { split; [lia|done]. }
  destruct (Z.eqb_spec (mp p) 0) as [E|E], (Z.eqb_spec (mp p) (mq q)) as [E'|E']; cbn [andb negb].
  all: rewrite ?(u8_small (mp p)), ?(u8_small (mq q)) by auto.
  - split; [|lia]. intros _ i Hi Hj. destruct (decide (i = 0)) as [->|].
    + by rewrite !Z.add_0_r.
    + exfalso. apply (Hj 0); [lia|by rewrite Z.add_0_r].
  - split; [lia|]. intros H. specialize (H 0 ltac:(lia) ltac:(lia)). rewrite !Z.add_0_r in H. lia.
  - rewrite IH. split; intros H i Hi Hj.
    + destruct (decide (i = 0)) as [->|]; [by rewrite !Z.add_0_r|].
      replace (p + i) with (p + 1 + (i - 1)) by lia. replace (q + i) with (q + 1 + (i - 1)) by lia.
      apply H; [lia|]. intros j Hj'. replace (p + 1 + j) with (p + (j + 1)) by lia. apply Hj. lia.
    + replace (p + 1 + i) with (p + (i + 1)) by lia. replace (q + 1 + i) with (q + (i + 1)) by lia.
      apply H; [lia|]. intros j Hj'. destruct (decide (j = 0)) as [->|]; [by rewrite Z.add_0_r|].
      replace (p + j) with (p + 1 + (j - 1)) by lia. apply Hj. lia.
  - split; [lia|]. intros H. specialize (H 0 ltac:(lia) ltac:(lia)). rewrite !Z.add_0_r in H. lia.
Qed.

(** [strncmp] is zero exactly when the strings agree up to [n] bytes or the
    first NUL. *)
Lemma strncmp_zero mp p mq q n :
  mem_bytes mp → mem_bytes mq → 0 ≤ n →
  strncmp mp p mq q n = 0 ↔
  ∀ i, 0 ≤ i < n → (∀ j, 0 ≤ j < i → mp (p + j) ≠ 0) → mp (p + i) = mq (q + i).
Proof. intros Hp Hq Hn. unfold strncmp. by rewrite strncmp_loop_zero, Z2Nat.id by done. Qed.

#[global] Opaque memset memmove.
