(* ===== verification/Spinlock.v ===== *)
(** * Spin-locks and interrupt nesting

    [kernel/spinlock.c] at the granularity of its memory accesses: several harts
    run [acquire] and [release], a hart that finds the lock taken spins, and the
    steps of different harts interleave freely.  [held] and [base] are
    bookkeeping the code does not have: the locks a hart has acquired and not
    yet released, and whether its interrupts were on before the outermost
    [push_off].  The theorems justify the view of locks the rest of the
    development takes ([Kernel.acquire], [Kernel.release], [Kernel.intr_get]). *)

From Stdlib Require Import ZArith Lia.
From stdpp Require Import relations.
From S2P Require Import Prelude Machine.

Module Spin.

(** ** State *)

(** [struct spinlock]; [cpu] is an index into [cpus], null is [None]. *)
Record spinlock := mk_lk { locked : Z; cpu : option nat }.

(** Where a hart is inside [acquire] or [release]. *)
Inductive pc := Idle | Spinning (l : nat) | Swapped (l : nat) | Cleared (l : nat) | Popping.

(** [struct cpu], the interrupt-enable bit of [sstatus], and bookkeeping. *)
Record hart := mk_hart {
  noff : Z; intena : Z; sie : bool; at_pc : pc; held : list nat; base : bool
}.

Record machine := mk_m { locks : nat → spinlock; harts : nat → hart }.

Definition set_hart (h : nat) (x : hart) (m : machine) : machine :=
  mk_m (locks m) (λ i, if decide (i = h) then x else harts m i).
Definition set_lock (l : nat) (x : spinlock) (m : machine) : machine :=
  mk_m (λ i, if decide (i = l) then x else locks m i) (harts m).

Inductive outcome := Next (m : machine) | Panic (msg : string) | Disabled.

(** ** The code *)

Definition initlock : spinlock := mk_lk 0 None.

Definition holding (lk : spinlock) (h : nat) : bool :=
  (truthy (locked lk) && bool_decide (cpu lk = Some h))%bool.

Definition push_off (c : hart) : hart :=
  let old := b2z (sie c) in
  mk_hart (noff c + 1) (if noff c =? 0 then old else intena c) false (at_pc c) (held c) (base c).

Definition pop_off (c : hart) : hart + string :=
  if sie c then inr "pop_off - interruptible"
  else if noff c <? 1 then inr "pop_off"
  else
    let n := noff c - 1 in
    inl (mk_hart n (intena c) (if (n =? 0) && truthy (intena c) then true else sie c)%bool
           (at_pc c) (held c) (base c)).

Definition at_ (p : pc) (c : hart) : hart :=
  mk_hart (noff c) (intena c) (sie c) p (held c) (base c).
Definition with_held (l : list nat) (c : hart) : hart :=
  mk_hart (noff c) (intena c) (sie c) (at_pc c) l (base c).

Fixpoint remove_id (l : nat) (h : list nat) : list nat :=
  match h with
  | [] => []
  | x :: h' => if decide (x = l) then h' else x :: remove_id l h'
  end.

(** What a hart can do next. *)
Inductive action :=
| AcqStart (l : nat)   (* acquire: push_off, the holding check *)
| Swap                 (* one __sync_lock_test_and_set *)
| SetCpu               (* lk->cpu = mycpu() *)
| RelStart (l : nat)   (* release: the holding check, lk->cpu = 0 *)
| RelClear             (* __sync_lock_release *)
| Pop                  (* pop_off *)
| SetIntr (b : bool).  (* intr_on / intr_off outside any lock *)

Definition act_step (h : nat) (a : action) (m : machine) : outcome :=
  let c := harts m h in
  match a, at_pc c with
  | AcqStart l, Idle =>
      let c' := push_off c in
      if holding (locks m l) h then Panic "acquire"
      else Next (set_hart h (at_ (Spinning l) c') m)
  | Swap, Spinning l =>
      let old := locked (locks m l) in
      let m' := set_lock l (mk_lk 1 (cpu (locks m l))) m in
      if truthy old then Next m'
      else Next (set_hart h (at_ (Swapped l) c) m')
  | SetCpu, Swapped l =>
      Next (set_hart h (at_ Idle (with_held (l :: held c) c))
              (set_lock l (mk_lk (locked (locks m l)) (Some h)) m))
  | RelStart l, Idle =>
      if holding (locks m l) h
      then Next (set_hart h (at_ (Cleared l) (with_held (remove_id l (held c)) c))
                   (set_lock l (mk_lk (locked (locks m l)) None) m))
      else Panic "release"
  | RelClear, Cleared l =>
      Next (set_hart h (at_ Popping c) (set_lock l (mk_lk 0 (cpu (locks m l))) m))
  | Pop, Popping =>
      match pop_off c with
      | inl c' => Next (set_hart h (at_ Idle c') m)
      | inr msg => Panic msg
      end
  | SetIntr b, Idle =>
      if noff c =? 0
      then Next (set_hart h (mk_hart (noff c) (intena c) b Idle (held c) b) m)
      else Disabled
  | _, _ => Disabled
  end.

Inductive step : machine → machine → Prop :=
| step_act h a m m' : act_step h a m = Next m' → step m m'.

(** All locks free, no hart in a lock operation, interrupts as [b] says. *)
Definition boot (b : nat → bool) : machine :=
  mk_m (λ _, initlock) (λ h, mk_hart 0 0 (b h) Idle [] (b h)).

Definition reachable (m : machine) : Prop := ∃ b, rtc step (boot b) m.

(** ** The invariant *)

(** Hart [h] has taken lock [l] and not yet given it back. *)
Definition owns (m : machine) (h l : nat) : Prop :=
  l ∈ held (harts m h) ∨ at_pc (harts m h) = Swapped l ∨ at_pc (harts m h) = Cleared l.

Definition busy (c : hart) : Z := match at_pc c with Idle => 0 | _ => 1 end.

Record inv (m : machine) : Prop := {
  inv_cpu : ∀ h l, l ∈ held (harts m h) ↔ cpu (locks m l) = Some h;
  inv_owner : ∀ h h' l, owns m h l → owns m h' l → h = h';
  inv_free : ∀ h l, owns m h l → locked (locks m l) ≠ 0;
  inv_nodup : ∀ h, NoDup (held (harts m h));
  inv_pc : ∀ h l, at_pc (harts m h) = Swapped l ∨ at_pc (harts m h) = Cleared l →
    l ∉ held (harts m h);
  inv_noff : ∀ h, noff (harts m h) = Z.of_nat (length (held (harts m h))) + busy (harts m h);
  inv_sie : ∀ h, sie (harts m h) = (base (harts m h) && (noff (harts m h) =? 0))%bool;
  inv_intena : ∀ h, noff (harts m h) ≠ 0 → intena (harts m h) = b2z (base (harts m h))
}.

(** ** Lemmas *)

Lemma remove_id_length l h : l ∈ h → length h = S (length (remove_id l h)).
Proof.
  induction h as [|x h IH]; intros Hin; [by apply elem_of_nil in Hin|]. simpl.
  destruct (decide (x = l)); [done|]. apply elem_of_cons in Hin as [->|Hin]; [done|].
  simpl. by rewrite IH.
Qed.

Lemma remove_id_elem l x h : NoDup h → x ∈ remove_id l h ↔ x ∈ h ∧ x ≠ l.
Proof.
  induction h as [|y h IH]; intros Hnd; simpl; [set_solver|].
  apply NoDup_cons in Hnd as [Hy Hnd]. destruct (decide (y = l)) as [->|].
  - set_solver.
  - rewrite !elem_of_cons, IH by done. set_solver.
Qed.

Lemma remove_id_nodup l h : NoDup h → NoDup (remove_id l h).
Proof.
  induction h as [|y h IH]; intros Hnd; simpl; [done|].
  pose proof Hnd as Hnd'. apply NoDup_cons in Hnd as [Hy Hnd]. destruct (decide (y = l)); [done|].
  apply NoDup_cons. split; [|by apply IH]. rewrite remove_id_elem by done. tauto.
Qed.

Lemma holding_spec m h l : inv m → holding (locks m l) h = true ↔ l ∈ held (harts m h).
Proof.
  intros I. unfold holding. rewrite andb_true_iff, bool_decide_eq_true, (inv_cpu m I).
  split; [tauto|]. intros Hc. split; [|done]. unfold truthy. apply negb_true_iff, Z.eqb_neq.
  eapply (inv_free m I h). left. by apply (inv_cpu m I).
Qed.

Lemma boot_inv b : inv (boot b).
Proof.
  split; unfold owns, busy; simpl.
  - intros h l. split; [by intros ?%elem_of_nil|done].
  - intros h h' l [Hin%elem_of_nil|[?|?]]; done.
  - intros h l [Hin%elem_of_nil|[?|?]]; done.
  - constructor.
  - intros h l [?|?]; done.
  - done.
  - intros h. by rewrite andb_true_r.
  - done.
Qed.

Ltac on_hart h h' := destruct (decide (h' = h)) as [->|]; simpl in *.

(** A step that only moves a hart between program points that own the same
    locks, and changes its counters consistently, keeps the invariant. *)
Lemma inv_move m h c' :
  inv m →
  held c' = held (harts m h) →
  (∀ l, at_pc c' = Swapped l ∨ at_pc c' = Cleared l →
        at_pc (harts m h) = Swapped l ∨ at_pc (harts m h) = Cleared l) →
  noff c' = Z.of_nat (length (held c')) + busy c' →
  sie c' = (base c' && (noff c' =? 0))%bool →
  (noff c' ≠ 0 → intena c' = b2z (base c')) →
  inv (set_hart h c' m).
Proof.
  intros I Hh Hpc Hn Hs Hi.
  assert (∀ h' l, owns (set_hart h c' m) h' l → owns m h' l) as Hown.
  { intros h' l. unfold owns; simpl. destruct (decide (h' = h)) as [->|]; [|done].
    rewrite Hh. intros [?|?%Hpc]; auto. }
  split; simpl.
  - intros h' l. case_decide; subst; rewrite ?Hh; apply (inv_cpu m I).
  - intros h1 h2 l ?%Hown ?%Hown. by eapply (inv_owner m I).
  - intros h' l ?%Hown. by eapply (inv_free m I).
  - intros h'. case_decide; subst; rewrite ?Hh; apply (inv_nodup m I).
  - intros h' l. case_decide; subst; [|apply (inv_pc m I)].
    rewrite Hh. intros ?%Hpc. by apply (inv_pc m I).
  - intros h'. case_decide; subst; [done|apply (inv_noff m I)].
  - intros h'. case_decide; subst; [done|apply (inv_sie m I)].
  - intros h'. case_decide; subst; [done|apply (inv_intena m I)].
Qed.
Lemma noff_nonneg m h : inv m → 0 ≤ noff (harts m h).
Proof. intros I. rewrite (inv_noff m I). unfold busy. case_match; lia. Qed.

Lemma acq_start_inv m h l m' : inv m → act_step h (AcqStart l) m = Next m' → inv m'.
Proof.
  intros I H. simpl in H. destruct (at_pc (harts m h)) eqn:Hpc; try done.
  destruct (holding _ _); simplify_eq. pose proof (inv_noff m I h) as Hn.
  unfold busy in Hn. rewrite Hpc in Hn.
  apply inv_move; simpl; [done|done|by intros ? [?|?]| | |].
  - unfold busy; simpl. lia.
  - destruct (Z.eqb_spec (noff (harts m h) + 1) 0); [lia|]. by rewrite andb_false_r.
  - intros _. destruct (Z.eqb_spec (noff (harts m h)) 0) as [E|E].
    + rewrite (inv_sie m I), E. by rewrite andb_true_r.
    + by apply (inv_intena m I).
Qed.

Lemma pop_inv m h m' : inv m → act_step h Pop m = Next m' → inv m'.
Proof.
  intros I H. simpl in H. destruct (at_pc (harts m h)) eqn:Hpc; try done.
  pose proof (inv_noff m I h) as Hn. unfold busy in Hn. rewrite Hpc in Hn.
  unfold pop_off in H. pose proof (inv_sie m I h) as Hs.
  destruct (sie (harts m h)) eqn:Es; [done|].
  destruct (Z.ltb_spec (noff (harts m h)) 1); simplify_eq.
  apply inv_move; simpl; [done|done|by intros ? [?|?]| | |].
  - unfold busy; simpl. lia.
  - rewrite (inv_intena m I) by lia.
    destruct (Z.eqb_spec (noff (harts m h) - 1) 0), (base (harts m h)); simpl; done.
  - intros _. apply (inv_intena m I). lia.
Qed.

Lemma set_intr_inv m h b m' : inv m → act_step h (SetIntr b) m = Next m' → inv m'.
Proof.
  intros I H. simpl in H. destruct (at_pc (harts m h)) eqn:Hpc; try done.
  pose proof (inv_noff m I h) as Hn. unfold busy in Hn. rewrite Hpc in Hn.
  destruct (Z.eqb_spec (noff (harts m h)) 0) as [E|E]; simplify_eq.
  apply inv_move; simpl; [done|done|by intros ? [?|?]| | |].
  - unfold busy; simpl. lia.
  - rewrite E. by rewrite andb_true_r.
  - by rewrite E.
Qed.

(** Setting [locked] to a non-zero value when nobody changes place. *)
Lemma set_locked_inv m l : inv m → inv (set_lock l (mk_lk 1 (cpu (locks m l))) m).
Proof.
  intros I. split; simpl; try apply I.
  - intros h l'. case_decide; subst; apply (inv_cpu m I).
  - intros h l' Ho. case_decide; subst; simpl; [done|]. by apply (inv_free m I h).
Qed.

Lemma swap_inv m h m' : inv m → act_step h Swap m = Next m' → inv m'.
Proof.
  intros I H. simpl in H. destruct (at_pc (harts m h)) as [|l| | |] eqn:Hpc; try done.
  destruct (truthy _) eqn:Et; simplify_eq; [by apply set_locked_inv|].
  assert (∀ h', ¬ owns m h' l) as Hno.
  { intros h' Ho. apply (inv_free m I) in Ho. unfold truthy in Et. bool_prop. done. }
  assert (∀ h' l', owns (set_hart h (at_ (Swapped l) (harts m h))
      (set_lock l {| locked := 1; cpu := cpu (locks m l) |} m)) h' l' →
    (h' = h ∧ l' = l) ∨ (owns m h' l' ∧ l' ≠ l)) as Hown.
  { intros h' l' Ho. unfold owns in Ho; simpl in Ho. on_hart h h'.
    - destruct Ho as [?|[?|?]]; simplify_eq; auto.
      destruct (decide (l' = l)); [auto|]. right. unfold owns. auto.
    - right. split; [done|]. intros ->. by apply (Hno h'). }
  split; simpl.
  - intros h' l'. on_hart h h'; case_decide; subst; apply (inv_cpu m I).
  - intros h1 h2 l' [[-> ->]|[? ?]]%Hown [[-> ?]|[? ?]]%Hown; try done.
    by eapply (inv_owner m I).
  - intros h' l' Ho%Hown. case_decide; subst; [done|].
    destruct Ho as [[? ?]|[? ?]]; [done|]. by eapply (inv_free m I).
  - intros h'. on_hart h h'; apply (inv_nodup m I).
  - intros h' l'. on_hart h h'; [|apply (inv_pc m I)].
    intros [?|?]; simplify_eq. intros Hin. apply (Hno h). by left.
  - intros h'. on_hart h h'; [|apply (inv_noff m I)].
    rewrite (inv_noff m I h). unfold busy. by rewrite Hpc.
  - intros h'. on_hart h h'; apply (inv_sie m I).
  - intros h'. on_hart h h'; apply (inv_intena m I).
Qed.

Lemma set_cpu_inv m h m' : inv m → act_step h SetCpu m = Next m' → inv m'.
Proof.
  intros I H. simpl in H. destruct (at_pc (harts m h)) as [| |l| |] eqn:Hpc; simplify_eq.
  assert (owns m h l) as Hme by (unfold owns; auto).
  assert (∀ h', l ∉ held (harts m h')) as Hnin.
  { intros h' Hin. assert (h' = h) as -> by (by apply (inv_owner m I h' h l); [left|]).
    by apply (inv_pc m I h l); auto. }
  match goal with |- inv ?x => assert (∀ h' l', owns x h' l' → owns m h' l') as Hown end.
  { intros h' l'. unfold owns; simpl. on_hart h h'; [|done].
    intros [[->|?]%elem_of_cons|[?|?]]; try done; auto. }
  split; simpl.
  - intros h' l'. pose proof (inv_cpu m I h' l') as Hc. on_hart h h'; case_decide; subst; simpl.
    + split; [done|]. intros _. by left.
    + rewrite elem_of_cons, <- Hc. split; [by intros [?|?]|auto].
    + split; [|by intros ?; simplify_eq]. intros Hin. by apply Hnin in Hin.
    + done.
  - intros h1 h2 l' ?%Hown ?%Hown. by eapply (inv_owner m I).
  - intros h' l' Ho%Hown. case_decide; subst; simpl; by eapply (inv_free m I).
  - intros h'. on_hart h h'; [|apply (inv_nodup m I)].
    apply NoDup_cons. split; [apply Hnin|apply (inv_nodup m I)].
  - intros h' l'. on_hart h h'; [by intros [?|?]|apply (inv_pc m I)].
  - intros h'. on_hart h h'; [|apply (inv_noff m I)].
    rewrite (inv_noff m I h). unfold busy. rewrite Hpc. simpl. lia.
  - intros h'. on_hart h h'; apply (inv_sie m I).
  - intros h'. on_hart h h'; apply (inv_intena m I).
Qed.

Lemma rel_start_inv m h l m' : inv m → act_step h (RelStart l) m = Next m' → inv m'.
Proof.
  intros I H. simpl in H. destruct (at_pc (harts m h)) eqn:Hpc; try done.
  destruct (holding _ _) eqn:Hh; simplify_eq. apply (holding_spec m h l I) in Hh as Hin.
  pose proof (inv_nodup m I h) as Hnd.
  match goal with |- inv ?x => assert (∀ h' l', owns x h' l' → owns m h' l') as Hown end.
  { intros h' l'. unfold owns; simpl. on_hart h h'; [|done].
    rewrite remove_id_elem by done. intros [[? ?]|[?|?]]; simplify_eq; auto. }
  split; simpl.
  - intros h' l'. pose proof (inv_cpu m I h' l') as Hc. on_hart h h'; case_decide; subst; simpl.
    + rewrite remove_id_elem by done. split; [tauto|done].
    + rewrite remove_id_elem, <- Hc by done. tauto.
    + split; [|done]. intros Hin'. exfalso.
      assert (h' = h) by (by apply (inv_owner m I h' h l); [left|left]). done.
    + done.
  - intros h1 h2 l' ?%Hown ?%Hown. by eapply (inv_owner m I).
  - intros h' l' Ho%Hown. case_decide; subst; simpl; by eapply (inv_free m I).
  - intros h'. on_hart h h'; [by apply remove_id_nodup|apply (inv_nodup m I)].
  - intros h' l'. on_hart h h'; [|apply (inv_pc m I)].
    intros [?|?]; simplify_eq. rewrite remove_id_elem by done. tauto.
  - intros h'. on_hart h h'; [|apply (inv_noff m I)].
    rewrite (inv_noff m I h), (remove_id_length l) by done. unfold busy. rewrite Hpc. simpl. lia.
  - intros h'. on_hart h h'; apply (inv_sie m I).
  - intros h'. on_hart h h'; apply (inv_intena m I).
Qed.

Lemma rel_clear_inv m h m' : inv m → act_step h RelClear m = Next m' → inv m'.
Proof.
  intros I H. simpl in H. destruct (at_pc (harts m h)) as [| | |l|] eqn:Hpc; simplify_eq.
  assert (owns m h l) as Hme by (unfold owns; auto).
  assert (l ∉ held (harts m h)) as Hnin by (apply (inv_pc m I); auto).
  match goal with |- inv ?x => assert (∀ h' l', owns x h' l' → owns m h' l' ∧ l' ≠ l) as Hown end.
  { intros h' l'. unfold owns; simpl. on_hart h h'.
    - intros [?|[?|?]]; try done. split; [auto|]. by intros ->.
    - intros Ho. split; [done|]. intros ->. assert (h' = h); [|done].
      by apply (inv_owner m I h' h l). }
  split; simpl.
  - intros h' l'. on_hart h h'; case_decide; subst; apply (inv_cpu m I).
  - intros h1 h2 l' [? ?]%Hown [? ?]%Hown. by eapply (inv_owner m I).
  - intros h' l' [Ho Hne]%Hown. case_decide; subst; [done|]. by eapply (inv_free m I).
  - intros h'. on_hart h h'; apply (inv_nodup m I).
  - intros h' l'. on_hart h h'; [by intros [?|?]|apply (inv_pc m I)].
  - intros h'. on_hart h h'; [|apply (inv_noff m I)].
    rewrite (inv_noff m I h). unfold busy. by rewrite Hpc.
  - intros h'. on_hart h h'; apply (inv_sie m I).
  - intros h'. on_hart h h'; apply (inv_intena m I).
Qed.

Lemma reachable_inv m : reachable m → inv m.
Proof.
  intros [b Hr]. revert Hr. apply (rtc_ind_r inv); [apply boot_inv|].
  intros m1 m2 _ [h a ? ? He] I. destruct a;
    eauto using acq_start_inv, swap_inv, set_cpu_inv, rel_start_inv, rel_clear_inv, pop_inv,
      set_intr_inv.
Qed.

(** ** Theorems *)

(** C1: Mutual exclusion: in every reachable state of any number of harts, no
    lock is held by two harts, and the code's own test [holding] is true for a
    hart exactly when that hart holds the lock. *)
Theorem spinlock_mutual_exclusion m l h h' :
  reachable m →
  (l ∈ held (harts m h) → l ∈ held (harts m h') → h = h') ∧
  (holding (locks m l) h = true ↔ l ∈ held (harts m h)).
Proof.
  intros Hr%reachable_inv. split; [|by apply holding_spec].
  intros H H'. eapply (inv_owner m Hr); by left.
Qed.

(** [push_off]/[pop_off] nest: whenever a hart is outside [acquire] and
    [release], its [noff] is the number of locks it holds, its interrupts are on
    exactly when it holds none and they were on before the outermost
    [push_off], releasing a lock it holds does not panic, and a [pop_off] in
    progress never panics. *)
Theorem interrupt_nesting m h :
  reachable m →
  (at_pc (harts m h) = Idle →
     noff (harts m h) = Z.of_nat (length (held (harts m h))) ∧
     sie (harts m h) = (base (harts m h) && bool_decide (held (harts m h) = []))%bool ∧
     ∀ l, l ∈ held (harts m h) → ∃ m', act_step h (RelStart l) m = Next m') ∧
  (at_pc (harts m h) = Popping → ∃ m', act_step h Pop m = Next m').
Proof.
  intros Hr%reachable_inv. pose proof (inv_noff m Hr h) as Hn. split.
  - intros Hpc. unfold busy in Hn. rewrite Hpc in Hn. split_and!; [lia| |].
    + rewrite (inv_sie m Hr), Hn. f_equal.
      by destruct (held (harts m h)).
    + intros l Hin. simpl. rewrite Hpc, (proj2 (holding_spec m h l Hr) Hin). eauto.
  - intros Hpc. unfold busy in Hn. rewrite Hpc in Hn. simpl. rewrite Hpc. unfold pop_off.
    rewrite (inv_sie m Hr). destruct (Z.eqb_spec (noff (harts m h)) 0); [lia|].
    rewrite andb_false_r. destruct (Z.ltb_spec (noff (harts m h)) 1); [lia|]. eauto.
Qed.

(** Two harts contend for lock 0: hart 0 gets it, hart 1 spins. *)
Definition contended : machine :=
  match act_step 0 (AcqStart 0) (boot (λ _, true)) with
  | Next m1 => match act_step 1 (AcqStart 0) m1 with
    | Next m2 => match act_step 0 Swap m2 with
      | Next m3 => match act_step 1 Swap m3 with
        | Next m4 => match act_step 0 SetCpu m4 with Next m5 => m5 | _ => m4 end
        | _ => m3 end
      | _ => m2 end
    | _ => m1 end
  | _ => boot (λ _, true) end.

Lemma contended_reachable : reachable contended.
Proof.
  exists (λ _, true). unfold contended.
  eapply rtc_l; [apply (step_act 0 (AcqStart 0)); reflexivity|].
  eapply rtc_l; [apply (step_act 1 (AcqStart 0)); reflexivity|].
  eapply rtc_l; [apply (step_act 0 Swap); reflexivity|].
  eapply rtc_l; [apply (step_act 1 Swap); reflexivity|].
  eapply rtc_l; [apply (step_act 0 SetCpu); reflexivity|]. apply rtc_refl.
Defined.

Lemma spinlock_mutual_exclusion_witness :
  0%nat ∈ held (harts contended 0) ∧ holding (locks contended 0) 1 = false.
Proof.
  split; [apply (spinlock_mutual_exclusion contended 0 0 0 contended_reachable); reflexivity|].
  reflexivity.
Defined.

Lemma interrupt_nesting_witness : noff (harts contended 0) = 1 ∧ sie (harts contended 0) = false.
Proof.
  destruct (interrupt_nesting contended 0 contended_reachable) as [H _].
  destruct (H eq_refl) as (Hn & Hs & _). split; [exact Hn|exact Hs].
Defined.

End Spin.
