(* ===== verification/Printf.v ===== *)
(** * Kernel output

    [kernel/printf.c] and the synchronous output of [kernel/uart.c] and
    [kernel/console.c].  The bytes written to the UART's transmit register are
    collected in [k_out]; the wait for the device is not observable.  [panic]
    prints its message and stops the machine: it is the outcome [Panic]. *)

From Stdlib Require Import ZArith Lia Ascii.
From S2P Require Import Prelude Machine Kernel Boot.

(** A C string literal as bytes, without the terminating NUL. *)
Fixpoint cstr (s : string) : list Z :=
  match s with
  | EmptyString => []
  | String c s' => Z.of_nat (nat_of_ascii c) :: cstr s'
  end.

Definition BACKSPACE : Z := 0x100.

Definition uartputc_sync (c : Z) : M unit := modify (λ s, set_k_out (k_out s ++ [u8 c]) s).

Definition consputc (c : Z) : M unit :=
  if c =? BACKSPACE
  then uartputc_sync 8;; uartputc_sync 32;; uartputc_sync 8
  else uartputc_sync c.

Definition digits : list Z := cstr "0123456789abcdef".

(** [digits[i]] *)
Definition digit (i : Z) : Z := default 0 (digits !! Z.to_nat i).

(** The loop of [printint] that fills [buf], least significant digit first. *)
Fixpoint printint_buf (fuel : nat) (x base : Z) : list Z :=
  match fuel with
  | O => []
  | S f => digit (x mod base) :: (if x / base =? 0 then [] else printint_buf f (x / base) base)
  end.

(** The contents of [buf] when [printint] starts to print it backwards; 32
    digits are enough for any base. *)
Definition printint_chars (xx base : Z) (sign : bool) : list Z :=
  let neg := (sign && (xx <? 0))%bool in
  let x := if neg then u32 (- xx) else u32 xx in
  printint_buf 32 x base ++ (if neg then [45] else []).

Definition printint (xx base : Z) (sign : bool) : M unit :=
  for_each (rev (printint_chars xx base sign)) consputc.

Definition printptr (x : Z) : M unit :=
  consputc 48;;
  consputc 120;;
  for_each (seqZ 0 16) (λ i, consputc (digit (Z.shiftr (u64 (Z.shiftl x (4 * i))) 60))).

(** A variadic argument: a number, or a string pointer. *)
Inductive parg := A_int (x : Z) | A_str (s : option (list Z)).

Fixpoint printf_loop (fmt : list Z) (ap : list parg) : M unit :=
  match fmt with
  | [] => ret tt
  | c :: fmt1 =>
      if negb (c =? 37) then consputc c;; printf_loop fmt1 ap
      else
        match fmt1 with
        | [] => ret tt
        | d :: fmt2 =>
            if d =? 100 then
              match ap with
              | A_int x :: ap' => printint (s32 x) 10 true;; printf_loop fmt2 ap'
              | _ => fault
              end
            else if d =? 120 then
              match ap with
              | A_int x :: ap' => printint (s32 x) 16 true;; printf_loop fmt2 ap'
              | _ => fault
              end
            else if d =? 112 then
              match ap with
              | A_int x :: ap' => printptr (u64 x);; printf_loop fmt2 ap'
              | _ => fault
              end
            else if d =? 115 then
              match ap with
              | A_str s :: ap' =>
                  for_each (default (cstr "(null)") s) consputc;; printf_loop fmt2 ap'
              | _ => fault
              end
            else if d =? 37 then consputc 37;; printf_loop fmt2 ap
            else consputc 37;; consputc d;; printf_loop fmt2 ap
        end
  end.

Definition printf (fmt : string) (ap : list parg) : M unit :=
  acquire L_pr;;
  printf_loop (cstr fmt) ap;;
  release L_pr.

(** ** Numbers *)

(** The value of a digit string, most significant first. *)
Definition digit_val (c : Z) : Z := if c <? 97 then c - 48 else c - 87.
Definition digits_val (base : Z) (l : list Z) : Z := fold_left (λ a c, a * base + digit_val c) l 0.

(** The number that a printed decimal string denotes. *)
Definition parse_dec (l : list Z) : Z :=
  match l with
  | 45 :: l' => - digits_val 10 l'
  | _ => digits_val 10 l
  end.

(** ** Lemmas *)

Lemma digit_val_digit d : 0 ≤ d < 16 → digit_val (digit d) = d.
Proof.
  intros Hd. assert (d ∈ seqZ 0 16) as Hin by (apply elem_of_seqZ; lia).
  revert d Hin Hd. rewrite <- Forall_forall. by repeat (constructor; [by intros|]).
Qed.

Lemma digit_range d : 0 ≤ d < 10 → 48 ≤ digit d ≤ 57.
Proof.
  intros Hd. assert (d ∈ seqZ 0 10) as Hin by (apply elem_of_seqZ; lia).
  revert d Hin Hd. rewrite <- Forall_forall. by repeat (constructor; [by intros|]).
Qed.

Lemma printint_buf_val fuel x base :
  2 ≤ base ≤ 16 → 0 ≤ x < 2 ^ Z.of_nat fuel → (0 < fuel)%nat →
  digits_val base (rev (printint_buf fuel x base)) = x.
Proof.
  intros Hb. revert x. induction fuel as [|fuel IH]; intros x Hx Hf; [lia|].
  rewrite Nat2Z.inj_succ, Z.pow_succ_r in Hx by lia.
  cbn [printint_buf rev]. unfold digits_val. rewrite fold_left_app. cbn [fold_left].
  rewrite digit_val_digit by (pose proof (Z.mod_pos_bound x base ltac:(lia)); lia).
  fold (digits_val base). case_test.
  - simpl. assert (x / base = 0) by done. rewrite (Z.div_mod x base) at 2 by lia. lia.
  - assert (0 ≤ x / base < 2 ^ Z.of_nat fuel).
    { split; [apply Z.div_pos; lia|]. apply Z.div_lt_upper_bound; [lia|]. nia. }
    destruct fuel as [|fuel]; [simpl in *; lia|].
    fold (digits_val base (rev (printint_buf (S fuel) (x / base) base))).
    rewrite IH by lia. rewrite (Z.div_mod x base) at 3 by lia. lia.
Qed.

Lemma printint_buf_len n fuel x base :
  2 ≤ base → 0 ≤ x < base ^ Z.of_nat n → (0 < n)%nat → (length (printint_buf fuel x base) ≤ n)%nat.
Proof.
  intros Hb. revert fuel x. induction n as [|n IH]; intros [|fuel] x Hx Hn; simpl; try lia.
  case_test; simpl; [lia|]. rewrite Nat2Z.inj_succ, Z.pow_succ_r in Hx by lia.
  destruct n as [|n].
  { simpl in Hx. rewrite Z.div_small in E by lia. lia. }
  apply le_n_S, IH; [|lia]. split; [apply Z.div_pos; lia|]. apply Z.div_lt_upper_bound; lia.
Qed.

Lemma printint_buf_digits fuel x :
  0 ≤ x → Forall (λ c, 48 ≤ c ≤ 57) (printint_buf fuel x 10).
Proof.
  revert x. induction fuel as [|fuel IH]; intros x Hx; simpl; [constructor|].
  constructor; [apply digit_range, Z.mod_pos_bound; lia|].
  case_test; [constructor|]. apply IH, Z.div_pos; lia.
Qed.

Lemma print_bytes l s :
  Forall (λ c, 0 ≤ c < 256) l → for_each l consputc s = Ret tt (set_k_out (k_out s ++ l) s).
Proof.
  revert s. induction l as [|c l IH]; intros s Hl.
  { simpl. rewrite app_nil_r. by destruct s. }
  apply Forall_cons in Hl as [Hc Hl]. cbn [for_each]. unfold consputc at 1, uartputc_sync.
  rewrite (proj2 (Z.eqb_neq c BACKSPACE)) by (unfold BACKSPACE; lia). kstep.
  rewrite IH by done. rewrite u8_small by done. simpl. by rewrite <- app_assoc.
Qed.

(** A function that only prints: it appends to the output and changes nothing
    else.  [ok] is what it needs of the state. *)
Definition prints (ok : kstate → Prop) (m : M unit) : Prop :=
  ∀ s, ok s → ∃ l, m s = Ret tt (set_k_out (k_out s ++ l) s).

(** The conditions printing functions need do not mention the output. *)
Definition out_free (ok : kstate → Prop) : Prop := ∀ s o, ok s → ok (set_k_out o s).

Lemma prints_ret ok : prints ok (ret tt).
Proof. intros s _. exists []. rewrite app_nil_r. unfold ret. by destruct s. Qed.

Lemma prints_bind ok m f : out_free ok → prints ok m → prints ok f → prints ok (m;; f).
Proof.
  intros Hok Hm Hf s Hs. destruct (Hm s Hs) as [l Hl]. erewrite bind_step by exact Hl.
  destruct (Hf _ (Hok s (k_out s ++ l) Hs)) as [l' Hl']. exists (l ++ l'). rewrite Hl'. simpl. by rewrite <- app_assoc.
Qed.

Lemma prints_each {A} ok (l : list A) f :
  out_free ok → (∀ x, x ∈ l → prints ok (f x)) → prints ok (for_each l f).
Proof.
  intros Hok Hf. induction l as [|x l IH]; [apply prints_ret|].
  apply prints_bind; [done|apply Hf; by left|]. apply IH. intros y Hy. apply Hf. by right.
Qed.

Lemma prints_consputc ok c : out_free ok → prints ok (consputc c).
Proof.
  intros Hok. assert (∀ x, prints ok (uartputc_sync x)) by (intros x s _; by exists [u8 x]).
  unfold consputc. case_test; [|done]. do 2 (apply prints_bind; [done..|]). done.
Qed.

Lemma prints_printint ok xx base sign : out_free ok → prints ok (printint xx base sign).
Proof. intros Hok. apply prints_each; [done|]. intros c _. by apply prints_consputc. Qed.

(** The arguments match the format. *)
Fixpoint fmt_ok (fmt : list Z) (ap : list parg) : bool :=
  match fmt with
  | [] => true
  | c :: fmt1 =>
      if negb (c =? 37) then fmt_ok fmt1 ap
      else
        match fmt1 with
        | [] => true
        | d :: fmt2 =>
            if ((d =? 100) || (d =? 120) || (d =? 112))%bool then
              match ap with A_int _ :: ap' => fmt_ok fmt2 ap' | _ => false end
            else if d =? 115 then
              match ap with A_str _ :: ap' => fmt_ok fmt2 ap' | _ => false end
            else fmt_ok fmt2 ap
        end
  end.

Lemma prints_printf_loop ok n fmt ap :
  out_free ok → (length fmt ≤ n)%nat → fmt_ok fmt ap = true → prints ok (printf_loop fmt ap).
Proof.
  intros Hok. revert fmt ap. induction n as [|n IH]; intros fmt ap Hn Hf.
  { destruct fmt; [apply prints_ret|simpl in *; lia]. }
  destruct fmt as [|c fmt1]; [apply prints_ret|]. simpl in Hn, Hf |- *. destruct (negb (c =? 37)).
  { apply prints_bind; [done|by apply prints_consputc|]. apply IH; [lia|done]. }
  destruct fmt1 as [|d fmt2]; [apply prints_ret|]. simpl in Hn.
  destruct (d =? 100); simpl in Hf.
  { destruct ap as [|[x|] ap]; try done. apply prints_bind; [done|by apply prints_printint|apply IH; [lia|done]]. }
  destruct (d =? 120); simpl in Hf.
  { destruct ap as [|[x|] ap]; try done. apply prints_bind; [done|by apply prints_printint|apply IH; [lia|done]]. }
  destruct (d =? 112); simpl in Hf.
  { destruct ap as [|[x|] ap]; try done. apply prints_bind; [done| |apply IH; [lia|done]].
    do 2 (apply prints_bind; [done|by apply prints_consputc|]). apply prints_each; [done|]. intros i _.
    by apply prints_consputc. }
  destruct (d =? 115).
  { destruct ap as [|[|x] ap]; try done. apply prints_bind; [done| |apply IH; [lia|done]].
    apply prints_each; [done|]. intros i _. by apply prints_consputc. }
  destruct (d =? 37); repeat (apply prints_bind; [done|by apply prints_consputc|]); (apply IH; [lia|done]).
Qed.

Definition pr_free (s : kstate) : Prop := L_pr ∉ k_held s.

Lemma pr_free_out : out_free pr_free.
Proof. by intros s o. Qed.

Lemma prints_printf fmt ap : fmt_ok (cstr fmt) ap = true → prints pr_free (printf fmt ap).
Proof.
  intros Hf s Hs. unfold printf. erewrite bind_step by (by apply acquire_free).
  destruct (prints_printf_loop (λ _, True) _ (cstr fmt) ap ltac:(done) ltac:(done) Hf
    (set_k_held (L_pr :: k_held s) s) I) as [l Hl].
  erewrite bind_step by exact Hl. exists l. erewrite release_held by done. keq.
Qed.

Lemma parse_dec_digits l : Forall (λ c, 48 ≤ c ≤ 57) l → parse_dec l = digits_val 10 l.
Proof.
  intros Hl. destruct l as [|c l]; [done|]. apply Forall_cons in Hl as [Hc _]. unfold parse_dec.
  destruct (decide (c = 45)) as [->|Hne]; [lia|]. destruct c as [|p|p]; [done| |done].
  repeat (destruct p as [p|p|]; try done).
Qed.

#[local] Arguments printint_buf : simpl never.

(** [printint] writes a decimal numeral that denotes its argument, for every
    [int] including the smallest; its 16-byte buffer never overflows, in either
    base [printf] uses. *)
Theorem printint_correct xx s :
  - 2 ^ 31 ≤ xx < 2 ^ 31 →
  ∃ l, printint xx 10 true s = Ret tt (set_k_out (k_out s ++ l) s) ∧ parse_dec l = xx ∧
    (length (printint_chars xx 10 true) ≤ 16)%nat ∧ (length (printint_chars xx 16 true) ≤ 16)%nat.
Proof.
  intros Hx. set (x := if xx <? 0 then u32 (- xx) else u32 xx).
  assert (x = Z.abs xx) as Habs by (unfold x; case_test; rewrite u32_small; lia).
  assert (∀ b, printint_chars xx b true = printint_buf 32 x b ++ (if xx <? 0 then [45] else [])) as Hch
    by done.
  clearbody x.
  pose proof (printint_buf_digits 32 x ltac:(lia)) as Hd.
  assert (Forall (λ c, 48 ≤ c ≤ 57) (rev (printint_buf 32 x 10))) as Hd'.
  { rewrite rev_alt. by apply Forall_reverse. }
  pose proof (printint_buf_val 32 x 10 ltac:(lia) ltac:(simpl; lia) ltac:(lia)) as Hval.
  assert (∀ b, b = 10 ∨ b = 16 → (length (printint_chars xx b true) ≤ 16)%nat) as Hlen.
  { intros b Hb. rewrite Hch. rewrite length_app.
    pose proof (printint_buf_len 15 32 x b ltac:(lia)) as Hl.
    assert (x < b ^ Z.of_nat 15) by (destruct Hb as [-> | ->]; simpl; lia).
    specialize (Hl ltac:(lia) ltac:(lia)). generalize dependent (length (printint_buf 32 x b)). intros n Hn.
    destruct (xx <? 0); simpl; lia. }
  eexists. split_and!; [| |apply Hlen; auto..].
  - apply print_bytes. rewrite Hch.
    rewrite rev_app_distr. apply Forall_app. split; [case_test; repeat constructor; lia|].
    eapply Forall_impl; [exact Hd'|]. simpl. lia.
  - rewrite Hch. rewrite rev_app_distr. destruct (Z.ltb_spec xx 0).
    + transitivity (- digits_val 10 (rev (printint_buf 32 x 10))); [reflexivity|lia].
    + transitivity (parse_dec (rev (printint_buf 32 x 10))); [reflexivity|].
      rewrite parse_dec_digits by done. lia.
Qed.

Lemma printint_correct_witness :
  ∃ l, printint (-2147483648) 10 true bss = Ret tt (set_k_out (k_out bss ++ l) bss) ∧
    parse_dec l = -2147483648 ∧
    (length (printint_chars (-2147483648) 10 true) ≤ 16)%nat ∧
    (length (printint_chars (-2147483648) 16 true) ≤ 16)%nat.
Proof. apply (printint_correct (-2147483648) bss). lia. Defined.
