(* ===== verification/Kalloc.v ===== *)
(** * The physical page allocator

    [kernel/kalloc.c].  The free list is the linked list of the code: the next
    pointer of a free page is the 64-bit word at its start, in [k_mem].
    [free_pages] relates it to an abstract list of pages; [kalloc] and [kfree]
    refine pop and push on that list, and over any run of the allocator no page
    is handed out twice and none is lost. *)

From Stdlib Require Import ZArith Lia.
From stdpp Require Import relations.
From S2P Require Import Prelude Machine Kernel Boot CString.

Section kalloc.
Context `{B : Build}.

(** ** The code *)

Definition kmemset (a c n : Z) : M unit := modify (λ s, set_k_mem (memset (k_mem s) a c n) s).
Definition kstore64 (a v : Z) : M unit := modify (λ s, set_k_mem (st64 (k_mem s) a v) s).
Definition kload64 (a : Z) : M Z := gets (λ s, ld64 (k_mem s) a).

(** Filling a page with junk also destroys a structure that was kept in it. *)
Definition forget_page (pa : Z) (s : kstate) : kstate :=
  set_k_tfs (delete pa (k_tfs s)) (set_k_pipes (delete pa (k_pipes s)) s).

Definition kfree (pa : Z) : M unit :=
  if (negb (pa mod PGSIZE =? 0) || (pa <? kend) || (PHYSTOP <=? pa))%bool
  then panic "kfree"
  else
    kmemset pa 1 PGSIZE;;
    modify (forget_page pa);;
    acquire L_kmem;;
    next <- gets k_freelist;;
    kstore64 pa next;;
    modify (set_k_freelist pa);;
    release L_kmem.

Definition kalloc : M Z :=
  acquire L_kmem;;
  r <- gets k_freelist;;
  when (truthy r) (next <- kload64 r;; modify (set_k_freelist next));;
  release L_kmem;;
  when (truthy r) (kmemset r 5 PGSIZE);;
  ret r.

Fixpoint freerange_loop (fuel : nat) (p pa_end : Z) : M unit :=
  match fuel with
  | O => stuck
  | S f =>
      if p + PGSIZE <=? pa_end
      then kfree p;; freerange_loop f (p + PGSIZE) pa_end
      else ret tt
  end.

(** The fuel is one more than the number of pages in the range. *)
Definition freerange (pa_start pa_end : Z) : M unit :=
  let p := PGROUNDUP pa_start in
  freerange_loop (S (Z.to_nat ((pa_end - p) / PGSIZE))) p pa_end.

Definition kinit : M unit := freerange kend PHYSTOP.

(** ** The abstract free list *)

Definition page_ok (pa : Z) : Prop := pa mod PGSIZE = 0 ∧ kend ≤ pa < PHYSTOP.

Definition in_page (pa a : Z) : Prop := pa ≤ a < pa + PGSIZE.

Fixpoint on_list (m : mem) (head : Z) (l : list Z) : Prop :=
  match l with
  | [] => head = 0
  | pa :: l' => head = pa ∧ page_ok pa ∧ on_list m (ld64 m pa) l'
  end.

Definition free_pages (s : kstate) (l : list Z) : Prop :=
  on_list (k_mem s) (k_freelist s) l ∧ NoDup l.

(** A run of the allocator with a client that owns the pages it was given: it
    may write to them and give them back. *)
Inductive client_step : kstate * list Z → kstate * list Z → Prop :=
| cs_alloc s s' pa own :
    kalloc s = Ret pa s' → pa ≠ 0 → client_step (s, own) (s', pa :: own)
| cs_nomem s s' own :
    kalloc s = Ret 0 s' → client_step (s, own) (s', own)
| cs_free s s' pa own own' :
    own ≡ₚ pa :: own' → kfree pa s = Ret tt s' → client_step (s, own) (s', own')
| cs_write s pa own m' :
    pa ∈ own → (∀ a, ¬ in_page pa a → m' a = k_mem s a) →
    client_step (s, own) (set_k_mem m' s, own).

(** ** Lemmas *)

Hypothesis kend_range : KERNBASE ≤ kend ≤ PHYSTOP.

Lemma page_ok_pos pa : page_ok pa → 0 < pa < 2 ^ 56.
Proof. intros [_ H]. unfold PHYSTOP, KERNBASE in *. lia. Qed.

Lemma page_ok_disjoint pa pa' a :
  page_ok pa → page_ok pa' → pa ≠ pa' → in_page pa a → ¬ in_page pa' a.
Proof. unfold page_ok, in_page, PGSIZE. intros [? _] [? _] ? ? ?. zarith. Qed.

Lemma on_list_ok m head l : on_list m head l → Forall page_ok l.
Proof. revert head. induction l as [|pa l IH]; intros head; [constructor|]. intros (_&?&?). eauto. Qed.

(** The links of the listed pages are all that the list depends on. *)
Lemma on_list_ext m m' head l :
  (∀ pa a, pa ∈ l → in_page pa a → m' a = m a) → on_list m head l → on_list m' head l.
Proof.
  revert head. induction l as [|pa l IH]; intros head Hm; [done|].
  intros (->&Hok&Hl). split_and!; [done..|].
  assert (ld64 m' pa = ld64 m pa) as ->.
  { apply ld_ext. intros b Hb. apply (Hm pa); [by left|]. unfold in_page, PGSIZE. lia. }
  apply IH; [|done]. intros pa' a Hin. apply Hm. by right.
Qed.

Lemma kfree_ok pa s :
  page_ok pa → L_kmem ∉ k_held s →
  kfree pa s = Ret tt
    (set_k_freelist pa (set_k_mem (st64 (memset (k_mem s) pa 1 PGSIZE) pa (k_freelist s))
       (forget_page pa s))).
Proof.
  intros [Hal Hr] Hl. unfold kfree.
  rewrite Hal, (proj2 (Z.ltb_ge pa kend)), (proj2 (Z.leb_gt PHYSTOP pa)) by lia.
  unfold kmemset, kstore64. kstep. simpl.
  rewrite acquire_free by done. simpl. erewrite release_held by done.
  unfold forget_page. keq.
Qed.

Lemma kfree_bad pa s : ¬ page_ok pa → kfree pa s = Panic "kfree".
Proof.
  intros H. unfold kfree. case_test; [done|]. exfalso. apply H. unfold page_ok. lia.
Qed.

Lemma kalloc_empty s :
  L_kmem ∉ k_held s → k_freelist s = 0 → kalloc s = Ret 0 s.
Proof.
  intros Hl H0. unfold kalloc. kstep. rewrite acquire_free by done. simpl. rewrite H0. simpl.
  by destruct s.
Qed.

Lemma kalloc_nonempty s :
  L_kmem ∉ k_held s → k_freelist s ≠ 0 →
  kalloc s = Ret (k_freelist s)
    (set_k_mem (memset (k_mem s) (k_freelist s) 5 PGSIZE)
       (set_k_freelist (ld64 (k_mem s) (k_freelist s)) s)).
Proof.
  intros Hl H0. unfold kalloc. kstep. rewrite acquire_free by done. simpl.
  assert (truthy (k_freelist s) = true) as Ht.
  { unfold truthy. apply negb_true_iff. by apply Z.eqb_neq. }
  rewrite Ht. unfold kload64. kstep. simpl. by destruct s.
Qed.

Lemma kalloc_pop s pa l :
  L_kmem ∉ k_held s → free_pages s (pa :: l) →
  ∃ s', kalloc s = Ret pa s' ∧ free_pages s' l ∧ page_ok pa ∧ ¬ (pa ∈ l) ∧
    (∀ a, in_page pa a → k_mem s' a = 5) ∧
    s' = set_k_mem (memset (k_mem s) pa 5 PGSIZE) (set_k_freelist (ld64 (k_mem s) pa) s).
Proof.
  intros Hl [(Hf&Hok&Hon) Hnd]. apply NoDup_cons in Hnd as [Hnin Hnd].
  pose proof (page_ok_pos _ Hok).
  rewrite kalloc_nonempty by (try done; rewrite Hf; lia). rewrite Hf.
  eexists. split_and!; try done.
  - split; [|done]. simpl. eapply on_list_ext; [|done]. intros pa' a Hin Ha.
    apply memset_out; [|done]. pose proof (on_list_ok _ _ _ Hon) as Hall.
    rewrite Forall_forall in Hall. specialize (Hall pa' Hin).
    assert (¬ in_page pa a) as Hn by (eapply (page_ok_disjoint pa'); [done..| |done]; by intros ->).
    unfold in_page in Hn. lia.
  - intros a Ha. simpl. by rewrite memset_in.
Qed.

Lemma kfree_push s pa l :
  L_kmem ∉ k_held s → free_pages s l → page_ok pa → pa ∉ l →
  ∃ s', kfree pa s = Ret tt s' ∧ free_pages s' (pa :: l) ∧
    (∀ a, ¬ in_page pa a → k_mem s' a = k_mem s a) ∧
    s' = set_k_freelist pa (set_k_mem (st64 (memset (k_mem s) pa 1 PGSIZE) pa (k_freelist s))
       (forget_page pa s)).
Proof.
  intros Hl [Hon Hnd] Hok Hnin. rewrite kfree_ok by done. eexists. split; [done|].
  assert (∀ a, ¬ in_page pa a →
    st64 (memset (k_mem s) pa 1 PGSIZE) pa (k_freelist s) a = k_mem s a) as Hout.
  { intros a Ha. unfold in_page, PGSIZE in *. rewrite st_other by lia. apply memset_out; lia. }
  split_and!; try done. split; [|by apply NoDup_cons]. simpl. split_and!; try done.
  assert (0 ≤ k_freelist s < 2 ^ 64) as Hr.
  { destruct l as [|pa' l]; simpl in Hon; [lia|]. destruct Hon as (->&Hok'&_).
    pose proof (page_ok_pos _ Hok'). lia. }
  rewrite ld_st_eq by done.
  eapply on_list_ext; [|done]. intros pa' a Hin Ha. apply Hout.
  pose proof (on_list_ok _ _ _ Hon) as Hall. rewrite Forall_forall in Hall.
  eapply page_ok_disjoint; [by apply Hall|done| |done]. by intros ->.
Qed.

(** ** Theorems *)

Lemma client_step_inv l s own s' own' :
  client_step (s, own) (s', own') →
  L_kmem ∉ k_held s → NoDup l →
  (∃ fl, free_pages s fl ∧ own ++ fl ≡ₚ l ∧ Forall page_ok own) →
  k_held s' = k_held s ∧ ∃ fl, free_pages s' fl ∧ own' ++ fl ≡ₚ l ∧ Forall page_ok own'.
Proof.
  intros Hstep Hh Hl (fl & Hfl & Hp & Hok).
  assert (NoDup (own ++ fl)) as Hnd by (by rewrite Hp).
  inversion Hstep as [? ? pa ? Hk Hne | ? ? ? Hk | ? ? pa ? ? Hperm Hk | ? pa ? m' Hin Hm];
    simplify_eq.
  - destruct fl as [|pa' fl].
    { destruct Hfl as [Hf _]. simpl in Hf. rewrite kalloc_empty in Hk by done. simplify_eq. }
    destruct (kalloc_pop _ _ _ Hh Hfl) as (s1 & Hk' & Hfl' & Hpok & _ & _ & Hs1).
    rewrite Hk' in Hk. simplify_eq. split; [done|]. exists fl. split_and!; [done| |by constructor].
    rewrite <- Hp. simpl. by rewrite <- Permutation_middle.
  - destruct fl as [|pa' fl].
    { destruct Hfl as [Hf Hnd']. simpl in Hf. rewrite kalloc_empty in Hk by done. simplify_eq.
      split; [done|]. exists []. split_and!; [|done..]. by split. }
    destruct (kalloc_pop _ _ _ Hh Hfl) as (s1 & Hk' & Hfl' & Hpok & _).
    rewrite Hk' in Hk. simplify_eq. pose proof (page_ok_pos _ Hpok). lia.
  - rewrite Hperm in Hok, Hp, Hnd. apply Forall_cons in Hok as [Hpok Hok].
    simpl in Hnd. apply NoDup_cons in Hnd as [Hnin Hnd].
    destruct (kfree_push s pa fl Hh Hfl Hpok) as (s1 & Hk' & Hfl' & _ & Hs1); [set_solver|].
    rewrite Hk' in Hk. simplify_eq. split; [done|]. exists (pa :: fl). split_and!; [done| |done].
    rewrite <- Hp. simpl. by rewrite <- Permutation_middle.
  - split; [done|]. exists fl. split_and!; [|done..]. destruct Hfl as [Hon Hndf].
    split; [|done]. simpl. eapply on_list_ext; [|done]. intros pa' a Hin' Ha. apply Hm.
    pose proof (on_list_ok _ _ _ Hon) as Hall. rewrite Forall_forall in Hall, Hok.
    eapply page_ok_disjoint; [by apply Hall|by apply Hok| |done].
    intros ->. apply NoDup_app in Hnd as (_&Hd&_). by apply (Hd pa).
Qed.

(** C2: Over any run of [kalloc], [kfree] of owned pages and writes to owned
    pages, starting with a well-formed free list [l] and no page handed out, the
    pages handed out are pairwise distinct, and together with the pages still on
    the free list they are exactly [l]: no page is given to two owners and none
    is lost. *)
Theorem kalloc_no_double_allocation s l s' own :
  free_pages s l → L_kmem ∉ k_held s →
  rtc client_step (s, []) (s', own) →
  NoDup own ∧ ∃ fl, free_pages s' fl ∧ own ++ fl ≡ₚ l.
Proof.
  intros Hs Hh Hrun.
  assert (L_kmem ∉ k_held s' ∧ ∃ fl, free_pages s' fl ∧ own ++ fl ≡ₚ l ∧ Forall page_ok own)
    as (_ & fl & Hfl & Hp & _).
  { change s' with ((s', own).1). change own with ((s', own).2). revert Hrun.
    apply (rtc_ind_r (λ x, L_kmem ∉ k_held x.1 ∧
      ∃ fl, free_pages x.1 fl ∧ x.2 ++ fl ≡ₚ l ∧ Forall page_ok x.2)).
    { split; [done|]. exists l. split_and!; [done..|constructor]. }
    intros [s1 o1] [s2 o2] _ Hst [Hh1 IH]. simpl in *.
    destruct (client_step_inv l s1 o1 s2 o2 Hst Hh1 (proj2 Hs) IH) as [Hhh ?].
    by rewrite Hhh. }
  split; [|by exists fl].
  assert (NoDup (own ++ fl)) as Hn by (rewrite Hp; apply Hs).
  by apply NoDup_app in Hn as [? _].
Qed.

Lemma freerange_loop_ok k fuel p s l :
  (k < fuel)%nat → p mod PGSIZE = 0 → kend ≤ p → p + Z.of_nat k * PGSIZE ≤ PHYSTOP →
  PHYSTOP < p + Z.of_nat k * PGSIZE + PGSIZE →
  L_kmem ∉ k_held s → free_pages s l → (∀ pa, pa ∈ l → pa < p) →
  ∃ s' l', freerange_loop fuel p PHYSTOP s = Ret tt s' ∧ free_pages s' l' ∧
    k_held s' = k_held s ∧
    (∀ pa, pa ∈ l' ↔ pa ∈ l ∨ (page_ok pa ∧ p ≤ pa)).
Proof.
  revert fuel p s l. induction k as [|k IH]; intros [|fuel] p s l Hf Hal Hp Hle Hgt Hh Hl Hb;
    try lia; cbn [freerange_loop].
  - destruct (Z.leb_spec (p + PGSIZE) PHYSTOP); [lia|].
    exists s, l. split_and!; [done..|]. intros pa. split; [auto|]. intros [?|[[Hm Hr] Hge]]; [done|].
    exfalso. unfold PGSIZE, PHYSTOP, KERNBASE in *. zarith.
  - destruct (Z.leb_spec (p + PGSIZE) PHYSTOP); [|unfold PGSIZE in *; lia].
    assert (page_ok p) as Hok by (unfold page_ok, PGSIZE in *; lia).
    assert (p ∉ l) as Hnin by (intros Hin; apply Hb in Hin; lia).
    destruct (kfree_push s p l Hh Hl Hok Hnin) as (s1 & Hk & Hl1 & _ & Hs1).
    destruct (IH fuel (p + PGSIZE) s1 (p :: l)) as (s' & l' & Hr & Hl' & Hh' & Hm);
      try (unfold PGSIZE in *; lia); try done.
    + unfold PGSIZE in *. zarith.
    + by subst s1.
    + intros pa [->|Hin]%elem_of_cons; [|apply Hb in Hin]; unfold PGSIZE; lia.
    + exists s', l'. split_and!; [|done| |].
      * unfold bind. by rewrite Hk.
      * rewrite Hh'. by subst s1.
      * intros pa. rewrite Hm, elem_of_cons. split.
        -- intros [[->|?]|[? ?]]; [right; split; [done|lia]|auto|right; split; [done|unfold PGSIZE in *; lia]].
        -- intros [?|[Hpa ?]]; [auto|]. destruct (decide (pa = p)) as [->|]; [auto|].
           right. split; [done|]. destruct Hpa as [Hm' _]. unfold PGSIZE in *. zarith.
Qed.

(** [kinit], started with an empty free list, terminates and leaves every
    page between the end of the kernel image and [PHYSTOP] on the free list,
    exactly once, and nothing else. *)
Theorem kinit_frees_all_memory s :
  k_freelist s = 0 → L_kmem ∉ k_held s →
  ∃ s' l, kinit s = Ret tt s' ∧ free_pages s' l ∧ (∀ pa, pa ∈ l ↔ page_ok pa).
Proof.
  intros H0 Hh. unfold kinit, freerange.
  assert (PGROUNDUP kend = (kend + 4095) / 4096 * 4096) as Hup.
  { apply PGROUNDUP_spec. unfold PHYSTOP, KERNBASE in *. lia. }
  set (p := PGROUNDUP kend) in *.
  set (k := Z.to_nat ((PHYSTOP - p) / PGSIZE)).
  assert (free_pages s []) as Hl by (split; [done|constructor]).
  assert (PHYSTOP mod 4096 = 0) as Hps by done.
  destruct (freerange_loop_ok k (S k) p s []) as (s' & l' & Hr & Hl' & _ & Hm);
    try done; try (unfold k, PGSIZE in *; unfold PHYSTOP, KERNBASE in *; zarith).
  { intros pa Hin. by apply elem_of_nil in Hin. }
  exists s', l'. split_and!; [done..|]. intros pa. rewrite Hm. split.
  - intros [Hin|[? _]]; [by apply elem_of_nil in Hin|done].
  - intros Hok. right. split; [done|]. destruct Hok as [Hal ?]. unfold PGSIZE in *. zarith.
Qed.

End kalloc.

(** ** The theorems at concrete states *)

#[local] Existing Instance build_rr.

(** One free page. *)
Definition one_page : kstate := set_k_freelist 0x80022000 bss.

Lemma one_page_free : free_pages one_page [0x80022000].
Proof. split; [by repeat split|apply NoDup_singleton]. Qed.

Lemma kalloc_no_double_allocation_witness :
  ∃ s', kalloc one_page = Ret 0x80022000 s' ∧ NoDup [0x80022000] ∧
    ∃ fl, free_pages s' fl ∧ [0x80022000] ++ fl ≡ₚ [0x80022000].
Proof.
  eexists. split; [apply kalloc_nonempty; [apply not_elem_of_nil|done]|].
  eapply (kalloc_no_double_allocation (build_of_kend RR) one_page).
  - apply one_page_free.
  - apply not_elem_of_nil.
  - eapply rtc_l; [|apply rtc_refl].
    apply cs_alloc; [apply kalloc_nonempty; [apply not_elem_of_nil|done]|done].
Defined.

Lemma kinit_frees_all_memory_witness :
  ∃ s' l, kinit bss = Ret tt s' ∧ free_pages s' l ∧ (∀ pa, pa ∈ l ↔ page_ok pa).
Proof.
  apply (kinit_frees_all_memory (build_of_kend RR) bss); [done|apply not_elem_of_nil].
Defined.
