(* ===== verification/Vm.v ===== *)
(** * Page tables

    [kernel/vm.c] on the Sv39 tables as they lie in memory: 512 little-endian
    64-bit entries per page of [k_mem].  Loops take a bound on their iterations
    computed from their arguments; the theorems show the bounds suffice.
    Objects of the kernel that are copied to or from user memory are byte
    lists. *)

From Stdlib Require Import ZArith Lia.
From S2P Require Import Prelude Machine Kernel Boot CString Kalloc.

Section vm.
Context `{B : Build}.

(** ** The code *)

(** One iteration of the loop of [walk]: [None] is [return 0]. *)
Definition walk_level (alloc : bool) (va level pagetable : Z) : M (option Z) :=
  let pte := pagetable + 8 * PX level va in
  v <- kload64 pte;;
  if truthy (Z.land v PTE_V) then ret (Some (PTE2PA v))
  else if negb alloc then ret None
  else
    pg <- kalloc;;
    if pg =? 0 then ret None
    else
      kmemset pg 0 PGSIZE;;
      kstore64 pte (Z.lor (PA2PTE pg) PTE_V);;
      ret (Some pg).

(** The address of the page-table entry of [va], or 0. *)
Definition walk (pagetable va : Z) (alloc : bool) : M Z :=
  if MAXVA <=? va then panic "walk"
  else
    t1 <- walk_level alloc va 2 pagetable;;
    match t1 with
    | None => ret 0
    | Some pt1 =>
        t0 <- walk_level alloc va 1 pt1;;
        match t0 with
        | None => ret 0
        | Some pt0 => ret (pt0 + 8 * PX 0 va)
        end
    end.

Definition walkaddr (pagetable va : Z) : M Z :=
  if MAXVA <=? va then ret 0
  else
    pte <- walk pagetable va false;;
    if pte =? 0 then ret 0
    else
      v <- kload64 pte;;
      if Z.land v PTE_V =? 0 then ret 0
      else if Z.land v PTE_U =? 0 then ret 0
      else ret (PTE2PA v).

Fixpoint mappages_loop (fuel : nat) (pagetable a last pa perm : Z) : M Z :=
  match fuel with
  | O => stuck
  | S f =>
      pte <- walk pagetable a true;;
      if pte =? 0 then ret (-1)
      else
        v <- kload64 pte;;
        if truthy (Z.land v PTE_V) then panic "mappages: remap"
        else
          kstore64 pte (Z.lor (Z.lor (PA2PTE pa) perm) PTE_V);;
          if a =? last then ret 0
          else mappages_loop f pagetable (u64 (a + PGSIZE)) last (u64 (pa + PGSIZE)) perm
  end.

Definition mappages (pagetable va size pa perm : Z) : M Z :=
  if size =? 0 then panic "mappages: size"
  else
    let a := PGROUNDDOWN va in
    let last := PGROUNDDOWN (u64 (va + size - 1)) in
    mappages_loop (S (Z.to_nat ((last - a) / PGSIZE))) pagetable a last pa perm.

Definition kvmmap (kpgtbl va pa sz perm : Z) : M unit :=
  r <- mappages kpgtbl va sz pa perm;;
  when (truthy r) (panic "kvmmap").

(** From proc.c: a kernel stack for each process, with a guard page below. *)
Definition proc_mapstacks (kpgtbl : Z) : M unit :=
  for_each (seqZ 0 (Z.of_nat NPROC)) (λ p,
    pa <- kalloc;;
    if pa =? 0 then panic "kalloc"
    else kvmmap kpgtbl (KSTACK p) pa PGSIZE (Z.lor PTE_R PTE_W)).

Definition kvmmake : M Z :=
  kpgtbl <- kalloc;;
  if kpgtbl =? 0 then fault
  else
  kmemset kpgtbl 0 PGSIZE;;
  kvmmap kpgtbl UART0 UART0 PGSIZE (Z.lor PTE_R PTE_W);;
  kvmmap kpgtbl VIRTIO0 VIRTIO0 PGSIZE (Z.lor PTE_R PTE_W);;
  kvmmap kpgtbl PLIC PLIC 0x400000 (Z.lor PTE_R PTE_W);;
  kvmmap kpgtbl KERNBASE KERNBASE (etext - KERNBASE) (Z.lor PTE_R PTE_X);;
  kvmmap kpgtbl etext etext (PHYSTOP - etext) (Z.lor PTE_R PTE_W);;
  kvmmap kpgtbl TRAMPOLINE trampoline PGSIZE (Z.lor PTE_R PTE_X);;
  proc_mapstacks kpgtbl;;
  ret kpgtbl.

Definition kvminit : M unit := kpgtbl <- kvmmake;; modify (set_k_kpgtbl kpgtbl).

Definition kvminithart : M unit :=
  modify (λ s, set_k_csr (set_csr_satp (MAKE_SATP (k_kpgtbl s)) (k_csr s)) s).

Fixpoint uvmunmap_loop (fuel : nat) (pagetable a stop : Z) (do_free : bool) : M unit :=
  match fuel with
  | O => stuck
  | S f =>
      if negb (a <? stop) then ret tt
      else
        pte <- walk pagetable a false;;
        if pte =? 0 then panic "uvmunmap: walk"
        else
          v <- kload64 pte;;
          if Z.land v PTE_V =? 0 then panic "uvmunmap: not mapped"
          else if PTE_FLAGS v =? PTE_V then panic "uvmunmap: not a leaf"
          else
            when do_free (kfree (PTE2PA v));;
            kstore64 pte 0;;
            uvmunmap_loop f pagetable (u64 (a + PGSIZE)) stop do_free
  end.

Definition uvmunmap (pagetable va npages : Z) (do_free : bool) : M unit :=
  if negb (va mod PGSIZE =? 0) then panic "uvmunmap: not aligned"
  else uvmunmap_loop (S (Z.to_nat npages)) pagetable va (u64 (va + npages * PGSIZE)) do_free.

Definition uvmcreate : M Z :=
  pagetable <- kalloc;;
  if pagetable =? 0 then ret 0
  else kmemset pagetable 0 PGSIZE;; ret pagetable.

Definition kput_bytes (a : Z) (l : list Z) : M unit :=
  modify (λ s, set_k_mem (put_bytes (k_mem s) a l) s).

Definition uvmfirst (pagetable : Z) (src : list Z) : M unit :=
  if PGSIZE <=? Z.of_nat (length src) then panic "uvmfirst: more than a page"
  else
    pa <- kalloc;;
    if pa =? 0 then fault
    else
    kmemset pa 0 PGSIZE;;
    mappages pagetable 0 PGSIZE pa (Z.lor (Z.lor (Z.lor PTE_W PTE_R) PTE_X) PTE_U);;
    kput_bytes pa src.

Definition uvmdealloc (pagetable oldsz newsz : Z) : M Z :=
  if oldsz <=? newsz then ret oldsz
  else
    when (PGROUNDUP newsz <? PGROUNDUP oldsz)
      (let npages := s32 ((PGROUNDUP oldsz - PGROUNDUP newsz) / PGSIZE) in
       uvmunmap pagetable (PGROUNDUP newsz) (u64 npages) true);;
    ret newsz.

Fixpoint uvmalloc_loop (fuel : nat) (pagetable a oldsz newsz xperm : Z) : M Z :=
  match fuel with
  | O => stuck
  | S f =>
      if negb (a <? newsz) then ret newsz
      else
        pa <- kalloc;;
        if pa =? 0 then uvmdealloc pagetable a oldsz;; ret 0
        else
          kmemset pa 0 PGSIZE;;
          r <- mappages pagetable a PGSIZE pa (Z.lor (Z.lor PTE_R PTE_U) xperm);;
          if truthy r then kfree pa;; uvmdealloc pagetable a oldsz;; ret 0
          else uvmalloc_loop f pagetable (u64 (a + PGSIZE)) oldsz newsz xperm
  end.

Definition uvmalloc (pagetable oldsz newsz xperm : Z) : M Z :=
  if newsz <? oldsz then ret oldsz
  else
    let oldsz := PGROUNDUP oldsz in
    uvmalloc_loop (S (Z.to_nat ((newsz - oldsz + PGSIZE - 1) / PGSIZE)))
      pagetable oldsz oldsz newsz xperm.

(** The depth of the recursion is the number of levels of the table. *)
Fixpoint freewalk (depth : nat) (pagetable : Z) : M unit :=
  match depth with
  | O => stuck
  | S d =>
      for_each (seqZ 0 512) (λ i,
        pte <- kload64 (pagetable + 8 * i);;
        if (truthy (Z.land pte PTE_V) &&
            (Z.land pte (Z.lor (Z.lor PTE_R PTE_W) PTE_X) =? 0))%bool
        then freewalk d (PTE2PA pte);; kstore64 (pagetable + 8 * i) 0
        else when (truthy (Z.land pte PTE_V)) (panic "freewalk: leaf"));;
      kfree pagetable
  end.

Definition uvmfree (pagetable sz : Z) : M unit :=
  when (0 <? sz) (uvmunmap pagetable 0 (PGROUNDUP sz / PGSIZE) true);;
  freewalk 3 pagetable.

Fixpoint uvmcopy_loop (fuel : nat) (old new i sz : Z) : M Z :=
  match fuel with
  | O => stuck
  | S f =>
      if negb (i <? sz) then ret 0
      else
        pte <- walk old i false;;
        if pte =? 0 then panic "uvmcopy: pte should exist"
        else
          v <- kload64 pte;;
          if Z.land v PTE_V =? 0 then panic "uvmcopy: page not present"
          else
            let pa := PTE2PA v in
            let flags := PTE_FLAGS v in
            pg <- kalloc;;
            if pg =? 0 then uvmunmap new 0 (i / PGSIZE) true;; ret (-1)
            else
              modify (λ s, set_k_mem (memmove (k_mem s) pg pa PGSIZE) s);;
              r <- mappages new i PGSIZE pg flags;;
              if truthy r then kfree pg;; uvmunmap new 0 (i / PGSIZE) true;; ret (-1)
              else uvmcopy_loop f old new (u64 (i + PGSIZE)) sz
  end.

Definition uvmcopy (old new sz : Z) : M Z :=
  uvmcopy_loop (S (Z.to_nat ((sz + PGSIZE - 1) / PGSIZE))) old new 0 sz.

Definition uvmclear (pagetable va : Z) : M unit :=
  pte <- walk pagetable va false;;
  if pte =? 0 then panic "uvmclear"
  else v <- kload64 pte;; kstore64 pte (Z.land v (u64 (Z.lnot PTE_U))).

(** Bytes of the page at [va] that the rest of a copy can use. *)
Definition chunk (va len : Z) : Z :=
  let n := PGSIZE - (va - PGROUNDDOWN va) in
  if len <? n then len else n.

Fixpoint copyout_loop (fuel : nat) (pagetable dstva : Z) (src : list Z) : M Z :=
  match fuel with
  | O => stuck
  | S f =>
      if negb (0 <? Z.of_nat (length src)) then ret 0
      else
        let va0 := PGROUNDDOWN dstva in
        pa0 <- walkaddr pagetable va0;;
        if pa0 =? 0 then ret (-1)
        else
          let n := Z.to_nat (chunk dstva (Z.of_nat (length src))) in
          kput_bytes (pa0 + (dstva - va0)) (take n src);;
          copyout_loop f pagetable (u64 (va0 + PGSIZE)) (drop n src)
  end.

Definition copyout (pagetable dstva : Z) (src : list Z) : M Z :=
  copyout_loop (S (length src)) pagetable dstva src.

(** [copyin] returns its result and the bytes it stored at [dst]. *)
Fixpoint copyin_loop (fuel : nat) (pagetable srcva len : Z) (acc : list Z) : M (Z * list Z) :=
  match fuel with
  | O => stuck
  | S f =>
      if negb (0 <? len) then ret (0, acc)
      else
        let va0 := PGROUNDDOWN srcva in
        pa0 <- walkaddr pagetable va0;;
        if pa0 =? 0 then ret (-1, acc)
        else
          let n := chunk srcva len in
          bs <- gets (λ s, get_bytes (k_mem s) (pa0 + (srcva - va0)) (Z.to_nat n));;
          copyin_loop f pagetable (u64 (va0 + PGSIZE)) (len - n) (acc ++ bs)
  end.

Definition copyin (pagetable srcva len : Z) : M (Z * list Z) :=
  copyin_loop (S (Z.to_nat len)) pagetable srcva len [].

(** The inner loop of [copyinstr]: up to [n] bytes at [p]; true when it met the
    NUL, which it stores. *)
Fixpoint copyinstr_page (n : nat) (m : mem) (p : Z) : bool * list Z :=
  match n with
  | O => (false, [])
  | S n' =>
      if m p =? 0 then (true, [0])
      else let '(got, l) := copyinstr_page n' m (p + 1) in (got, m p :: l)
  end.

Fixpoint copyinstr_loop (fuel : nat) (pagetable srcva max : Z) (acc : list Z) : M (Z * list Z) :=
  match fuel with
  | O => stuck
  | S f =>
      if negb (0 <? max) then ret (-1, acc)
      else
        let va0 := PGROUNDDOWN srcva in
        pa0 <- walkaddr pagetable va0;;
        if pa0 =? 0 then ret (-1, acc)
        else
          let n := chunk srcva max in
          r <- gets (λ s, copyinstr_page (Z.to_nat n) (k_mem s) (pa0 + (srcva - va0)));;
          let '(got_null, bs) := r in
          if got_null : bool then ret (0, acc ++ bs)
          else copyinstr_loop f pagetable (u64 (va0 + PGSIZE)) (max - n) (acc ++ bs)
  end.

Definition copyinstr (pagetable srcva max : Z) : M (Z * list Z) :=
  copyinstr_loop (S (Z.to_nat max)) pagetable srcva max [].

(** ** Abstract page tables

    A table page is named by the path of indices that leads to it from the root:
    the empty path is the root, a path of length two is a leaf table. *)

Definition valid (v : Z) : bool := truthy (Z.land v PTE_V).

Fixpoint node (m : mem) (pt : Z) (path : list Z) : option Z :=
  match path with
  | [] => Some pt
  | i :: r =>
      let v := ld64 m (pt + 8 * i) in
      if valid v then node m (PTE2PA v) r else None
  end.

Definition idx_ok (i : Z) : Prop := 0 ≤ i < 512.
Definition path_ok (path : list Z) : Prop := (length path ≤ 2)%nat ∧ Forall idx_ok path.

(** The path to the leaf table of [va] and the entry in it (0 when the leaf
    table does not exist). *)
Definition vpath (va : Z) : list Z := [PX 2 va; PX 1 va].
Definition leaf (m : mem) (pt va : Z) : Z :=
  match node m pt (vpath va) with
  | Some q => ld64 m (q + 8 * PX 0 va)
  | None => 0
  end.

(** A page table whose table pages are allocatable pages, pairwise distinct,
    and not on the free list [fl]. *)
Record pt_wf (m : mem) (pt : Z) (fl : list Z) : Prop := {
  pt_ok : ∀ path q, path_ok path → node m pt path = Some q → page_ok q ∧ q ∉ fl;
  pt_inj : ∀ p1 p2 q, path_ok p1 → path_ok p2 →
    node m pt p1 = Some q → node m pt p2 = Some q → p1 = p2
}.

(** [a] lies in a table page. *)
Definition in_table (m : mem) (pt a : Z) : Prop :=
  ∃ path q, path_ok path ∧ node m pt path = Some q ∧ in_page q a.

(** ** Lemmas *)

Hypothesis kend_range : KERNBASE ≤ kend ≤ PHYSTOP.

Lemma node_app m pt p1 p2 :
  node m pt (p1 ++ p2) = match node m pt p1 with Some q => node m q p2 | None => None end.
Proof.
  revert pt. induction p1 as [|i p1 IH]; intros pt; simpl; [done|].
  case_test; [apply IH|done].
Qed.

(** Reading along a path depends only on the entries on it. *)
Lemma node_ext m m' pt path :
  (∀ p1 i p2 q, path = p1 ++ i :: p2 → node m pt p1 = Some q →
     ld64 m' (q + 8 * i) = ld64 m (q + 8 * i)) →
  node m' pt path = node m pt path.
Proof.
  revert pt. induction path as [|i path IH]; intros pt H; simpl; [done|].
  rewrite (H [] i path pt eq_refl eq_refl).
  destruct (valid (ld64 m (pt + 8 * i))) eqn:E; [|done]. apply IH.
  intros p1 j p2 q -> Hq. apply (H (i :: p1) j p2); [done|]. simpl. by rewrite E.
Qed.

Lemma path_ok_app p1 p2 : path_ok (p1 ++ p2) → path_ok p1.
Proof. intros [Hl Hf]. rewrite length_app in Hl. apply Forall_app in Hf as [? _]. split; [lia|done]. Qed.

Lemma vpath_ok va : path_ok (vpath va).
Proof. split; [done|]. repeat constructor; apply PX_range; lia. Qed.

Lemma entry_in_page q i : idx_ok i → in_page q (q + 8 * i) ∧ in_page q (q + 8 * i + 7).
Proof. unfold idx_ok, in_page, PGSIZE. lia. Qed.

Lemma walk_level_ro va level pt s :
  walk_level false va level pt s =
  Ret (let v := ld64 (k_mem s) (pt + 8 * PX level va) in
       if valid v then Some (PTE2PA v) else None) s.
Proof. unfold walk_level, kload64, valid. kstep. by case_match. Qed.

Lemma walk_ro pt va s :
  va < MAXVA →
  walk pt va false s =
  Ret (match node (k_mem s) pt (vpath va) with Some q => q + 8 * PX 0 va | None => 0 end) s.
Proof.
  intros Hva. unfold walk. rewrite (proj2 (Z.leb_gt MAXVA va)) by done.
  unfold bind at 1. rewrite walk_level_ro. cbn [rbind]. simpl.
  destruct (valid (ld64 (k_mem s) (pt + 8 * PX 2 va))); [|done].
  unfold bind. rewrite walk_level_ro. simpl.
  by destruct (valid _).
Qed.

Lemma ld64_zero m pg i :
  idx_ok i → (∀ a, in_page pg a → m a = 0) → ld64 m (pg + 8 * i) = 0.
Proof.
  intros Hi Hz. rewrite (ld_ext 8 m (λ _, 0)); [done|]. intros b Hb. apply Hz.
  unfold idx_ok, in_page, PGSIZE in *. lia.
Qed.

(** Entries of different tables, or different entries of one, do not overlap. *)
Lemma entry_disjoint q q' i j :
  page_ok q → page_ok q' → idx_ok i → idx_ok j → (q, i) ≠ (q', j) →
  q' + 8 * j + 8 ≤ q + 8 * i ∨ q + 8 * i + 8 ≤ q' + 8 * j.
Proof.
  intros [Hq _] [Hq' _] Hi Hj Hne. unfold idx_ok, PGSIZE in *.
  destruct (decide (q = q')) as [->|]; [|zarith].
  assert (i ≠ j) by congruence. lia.
Qed.

Section grow.
Variables (m m' : mem) (pt pg q i e : Z) (fl p : list Z).
Hypothesis (Hwf : pt_wf m pt (pg :: fl)) (Hnd : NoDup (pg :: fl)) (Hpg : page_ok pg).
Hypothesis (Hp : path_ok p) (Hlen : (length p ≤ 1)%nat) (Hi : idx_ok i).
Hypothesis (Hq : node m pt p = Some q) (Hinv : valid (ld64 m (q + 8 * i)) = false).
Hypothesis (Hsame : ∀ a, ¬ in_page pg a → a < q + 8 * i ∨ q + 8 * i + 8 ≤ a → m' a = m a).
Hypothesis (Hzero : ∀ a, in_page pg a → m' a = 0).
Hypothesis (He : ld64 m' (q + 8 * i) = e) (Hev : valid e = true) (Hep : PTE2PA e = pg).

Lemma grow_entry path1 k q1 :
  path_ok path1 → idx_ok k → node m pt path1 = Some q1 → path1 ≠ p ∨ k ≠ i →
  ld64 m' (q1 + 8 * k) = ld64 m (q1 + 8 * k).
Proof.
  intros Hok Hk Hn Hne. destruct (pt_ok _ _ _ Hwf _ _ Hok Hn) as [Hq1 Hnin].
  destruct (pt_ok _ _ _ Hwf _ _ Hp Hq) as [Hqok _].
  assert ((q1, k) ≠ (q, i)) as Hd.
  { intros [= -> ->]. destruct Hne as [Hne|]; [|done]. apply Hne. by eapply (pt_inj _ _ _ Hwf). }
  pose proof (entry_disjoint q1 q k i Hq1 Hqok Hk Hi Hd).
  apply ld_ext. intros b Hb. apply Hsame; [|lia].
  eapply page_ok_disjoint; [exact Hq1|exact Hpg|by intros ->; set_solver|].
  unfold idx_ok, in_page, PGSIZE in *. lia.
Qed.

Lemma grow_other path :
  path_ok path → ¬ (p ++ [i]) `prefix_of` path → node m' pt path = node m pt path.
Proof.
  intros Hok Hnp. apply node_ext. intros p1 k p2 q1 -> Hn.
  apply (grow_entry p1); [by eapply path_ok_app| |done|].
  - destruct Hok as [_ Hf]. apply Forall_app in Hf as [_ Hf]. by apply Forall_cons in Hf as [? _].
  - destruct (decide (p1 = p)) as [->|]; [right|by left]. intros ->. apply Hnp.
    exists p2. by rewrite <- app_assoc.
Qed.

Lemma grow_p : node m' pt p = Some q.
Proof.
  rewrite grow_other; [done..|]. intros [r Hr]. apply (f_equal length) in Hr.
  rewrite !length_app in Hr. simpl in Hr. lia.
Qed.

Lemma grow_at : node m' pt (p ++ [i]) = Some pg.
Proof. rewrite node_app, grow_p. simpl. by rewrite He, Hev, Hep. Qed.

Lemma grow_below j r : idx_ok j → node m' pt (p ++ [i] ++ j :: r) = None.
Proof.
  intros Hj. rewrite app_assoc, node_app, grow_at. simpl.
  by rewrite ld64_zero.
Qed.

Lemma grow_old_none r : node m pt (p ++ [i] ++ r) = None.
Proof. rewrite node_app, Hq. simpl. by rewrite Hinv. Qed.

(** The tables after the step: the old ones and the new one. *)
Lemma grow_node path q' :
  path_ok path → node m' pt path = Some q' →
  (path = p ++ [i] ∧ q' = pg) ∨ (node m pt path = Some q' ∧ path ≠ p ++ [i]).
Proof.
  intros Hok Hn. destruct (decide ((p ++ [i]) `prefix_of` path)) as [[r ->]|Hnp].
  - destruct r as [|j r].
    + left. rewrite app_nil_r in *. rewrite grow_at in Hn. by simplify_eq.
    + exfalso. rewrite <- app_assoc in Hn, Hok. rewrite grow_below in Hn; [done|].
      destruct Hok as [_ Hf]. rewrite !Forall_app, !Forall_cons in Hf. tauto.
  - right. rewrite grow_other in Hn by done. split; [done|]. intros ->. by apply Hnp.
Qed.

Lemma grow_mono path q' : path_ok path → node m pt path = Some q' → node m' pt path = Some q'.
Proof.
  intros Hok Hn. rewrite grow_other; [done..|]. intros [r ->].
  by rewrite <- app_assoc, grow_old_none in Hn.
Qed.

Lemma grow_wf : pt_wf m' pt fl.
Proof.
  destruct (proj1 (NoDup_cons _ _) Hnd) as [Hnin Hnd'].
  assert (∀ path q', path_ok path → node m pt path = Some q' → q' ≠ pg) as Hne.
  { intros path q' Hok Hn ->. apply (pt_ok _ _ _ Hwf) in Hn as [_ Hn]; [|done].
    apply Hn. by left. }
  split.
  - intros path q' Hok [[-> ->]|[Hn _]]%grow_node; [by split| |done].
    destruct (pt_ok _ _ _ Hwf path q' Hok Hn) as [? Hn']. split; [done|].
    intros Hin. apply Hn'. by right.
  - intros p1 p2 q' Hok1 Hok2 H1 H2.
    apply grow_node in H1 as [[-> ->]|[H1 _]]; [| |done];
      apply grow_node in H2 as [[-> ?]|[H2 _]]; try done.
    + exfalso. by apply (Hne p2 pg).
    + exfalso. by apply (Hne p1 q').
    + by eapply (pt_inj _ _ _ Hwf).
Qed.

Lemma grow_leaf va : leaf m' pt va = leaf m pt va.
Proof.
  unfold leaf. pose proof (vpath_ok va) as Hok. assert (idx_ok (PX 0 va)) by (apply PX_range; lia).
  destruct (decide ((p ++ [i]) `prefix_of` vpath va)) as [[r Hr]|Hnp].
  - rewrite Hr in *. rewrite <- app_assoc, grow_old_none.
    destruct r as [|j r].
    + rewrite app_nil_r, grow_at. by rewrite ld64_zero.
    + rewrite grow_below; [done|]. destruct Hok as [_ Hf].
      rewrite !Forall_app, !Forall_cons in Hf. tauto.
  - rewrite grow_other by done. destruct (node m pt (vpath va)) as [q0|] eqn:Hn; [|done].
    eapply grow_entry; [exact Hok|done|done|]. left. intros Heq. rewrite <- Heq in Hlen.
    simpl in Hlen. lia.
Qed.

End grow.

(** What growing a page table does to the state: only memory and the free list
    change; free pages turn into table pages; no table disappears; memory
    outside table pages and pages that were free is untouched. *)
Record pt_grow (pt : Z) (s s' : kstate) (fl fl' : list Z) : Prop := {
  pg_state : s' = set_k_mem (k_mem s') (set_k_freelist (k_freelist s') s);
  pg_free : free_pages s' fl';
  pg_wf : pt_wf (k_mem s') pt fl';
  pg_used : ∃ used, fl = used ++ fl';
  pg_mono : ∀ path q, path_ok path → node (k_mem s) pt path = Some q →
    node (k_mem s') pt path = Some q;
  pg_new : ∀ path q, path_ok path → node (k_mem s') pt path = Some q →
    node (k_mem s) pt path = Some q ∨ q ∈ fl;
  pg_mem : ∀ a, ¬ in_table (k_mem s) pt a → (∀ pg, pg ∈ fl → ¬ in_page pg a) →
    k_mem s' a = k_mem s a
}.

Lemma pt_grow_refl pt s fl : free_pages s fl → pt_wf (k_mem s) pt fl → pt_grow pt s s fl fl.
Proof. intros Hf Hw. split; auto; [keq|by exists []]. Qed.

Lemma pt_grow_trans pt s1 s2 s3 fl1 fl2 fl3 :
  pt_grow pt s1 s2 fl1 fl2 → pt_grow pt s2 s3 fl2 fl3 → pt_grow pt s1 s3 fl1 fl3.
Proof.
  intros G1 G2. destruct (pg_used _ _ _ _ _ G1) as [u1 Hu1], (pg_used _ _ _ _ _ G2) as [u2 Hu2].
  split.
  - etransitivity; [apply (pg_state _ _ _ _ _ G2)|]. rewrite (pg_state _ _ _ _ _ G1). keq.
  - apply G2.
  - apply G2.
  - exists (u1 ++ u2). by rewrite <- app_assoc, <- Hu2.
  - intros path q Hok Hn. eapply pg_mono; [exact G2|done|]. by eapply pg_mono.
  - intros path q Hok Hn. apply (pg_new _ _ _ _ _ G2) in Hn as [Hn|Hn]; [| |done].
    + by eapply pg_new.
    + right. rewrite Hu1. set_solver.
  - intros a Ha Hf. rewrite (pg_mem _ _ _ _ _ G2); [by apply (pg_mem _ _ _ _ _ G1)| |].
    + intros (path & q & Hok & Hn & Hin).
      apply (pg_new _ _ _ _ _ G1) in Hn as [Hn|Hn]; [|by apply (Hf q)|done].
      apply Ha. by exists path, q.
    + intros pg Hpg. apply Hf. rewrite Hu1. set_solver.
Qed.

Lemma valid_build pg : page_ok pg → valid (Z.lor (PA2PTE pg) PTE_V) = true ∧
  PTE2PA (Z.lor (PA2PTE pg) PTE_V) = pg ∧ 0 ≤ Z.lor (PA2PTE pg) PTE_V < 2 ^ 64.
Proof.
  intros Hok. pose proof (page_ok_pos kend_range pg Hok). destruct Hok as [Hal _].
  destruct (pte_build pg PTE_V) as (Hr & Hpa & Hfl); [lia|done|done|].
  split_and!; [|done|lia..]. unfold valid, truthy.
  rewrite land_low10, <- PTE_FLAGS_spec, Hfl by done. done.
Qed.

Lemma walk_level_alloc pt p q va level s fl :
  L_kmem ∉ k_held s → free_pages s fl → pt_wf (k_mem s) pt fl →
  path_ok p → (length p ≤ 1)%nat → node (k_mem s) pt p = Some q → 0 ≤ level →
  ∃ r s' fl', walk_level true va level q s = Ret r s' ∧ pt_grow pt s s' fl fl' ∧
    (∀ va', leaf (k_mem s') pt va' = leaf (k_mem s) pt va') ∧
    match r with
    | Some q' => node (k_mem s') pt (p ++ [PX level va]) = Some q'
    | None => fl' = []
    end.
Proof.
  intros Hh Hf Hw Hp Hlen Hq Hlev. unfold walk_level, kload64. kstep.
  set (i := PX level va). assert (idx_ok i) as Hi by (by apply PX_range).
  fold (valid (ld64 (k_mem s) (q + 8 * i))).
  destruct (valid (ld64 (k_mem s) (q + 8 * i))) eqn:Ev.
  { exists (Some (PTE2PA (ld64 (k_mem s) (q + 8 * i)))), s, fl.
    split_and!; [done|by apply pt_grow_refl|done|]. rewrite node_app, Hq. simpl. by rewrite Ev. }
  change (negb true) with false. cbn beta iota.
  destruct fl as [|pg fl].
  { destruct Hf as [Hon ?]. simpl in Hon. rewrite kalloc_empty by done. simpl.
    exists None, s, []. split_and!; [done| |done..]. by apply pt_grow_refl. }
  destruct (kalloc_pop kend_range s pg fl Hh Hf) as (s1 & Hk & Hf1 & Hok & Hnin & _ & Hs1).
  rewrite Hk. cbn [rbind]. pose proof (page_ok_pos kend_range pg Hok).
  rewrite (proj2 (Z.eqb_neq pg 0)) by lia. unfold kmemset, kstore64. kstep.
  destruct (valid_build pg Hok) as (Hbv & Hbp & Hbr).
  set (m' := st64 (memset (k_mem s1) pg 0 PGSIZE) (q + 8 * i) (Z.lor (PA2PTE pg) PTE_V)).
  exists (Some pg), (set_k_mem m' (set_k_freelist (ld64 (k_mem s) pg) s)), fl.
  destruct (pt_ok _ _ _ Hw _ _ Hp Hq) as [Hqok Hqnin].
  assert (∀ a, ¬ in_page pg a → a < q + 8 * i ∨ q + 8 * i + 8 ≤ a → m' a = k_mem s a) as Hsame.
  { intros a Ha Hb. unfold m'. rewrite st_other by lia. unfold in_page, PGSIZE in Ha.
    rewrite memset_out by (unfold PGSIZE; lia). subst s1. simpl.
    apply memset_out; unfold PGSIZE; lia. }
  assert (in_page q (q + 8 * i) ∧ in_page q (q + 8 * i + 7)) as [Hin1 Hin2] by (by apply entry_in_page).
  assert (∀ a, in_page pg a → m' a = 0) as Hzero.
  { intros a Ha. unfold m'. rewrite st_other; [by rewrite memset_in|].
    assert (¬ in_page q a) as Hn.
    { eapply (page_ok_disjoint pg); [done..| |done]. intros ->. apply Hqnin. by left. }
    unfold in_page in *. lia. }
  assert (ld64 m' (q + 8 * i) = Z.lor (PA2PTE pg) PTE_V) as He by (apply ld_st_eq; lia).
  assert (NoDup (pg :: fl)) as Hnd by apply Hf.
  split_and!.
  - unfold m'. subst s1. keq.
  - split; simpl.
    + reflexivity.
    + split; simpl; [|apply Hf1]. destruct Hf1 as [Hon _]. subst s1. simpl in Hon.
      eapply on_list_ext; [|exact Hon]. intros pa a Hin Ha. simpl.
      assert (page_ok pa) as Hpa.
      { apply on_list_ok in Hon. rewrite Forall_forall in Hon. by apply Hon. }
      unfold m'. simpl. assert (¬ in_page pg a) as Hna.
      { eapply (page_ok_disjoint pa); [done..| |done]. by intros ->. }
      assert (¬ in_page q a) as Hnq.
      { eapply (page_ok_disjoint pa); [done..| |done]. intros ->. apply Hqnin. by right. }
      rewrite st_other by (unfold in_page in *; lia). unfold in_page, PGSIZE in *.
      apply memset_out; lia.
    + eapply (grow_wf (k_mem s) m' pt pg q i _ fl p); done.
    + by exists [pg].
    + intros path q' Hpo Hn. eapply (grow_mono (k_mem s) m' pt pg q i _ fl p); done.
    + intros path q' Hpo Hn.
      eapply (grow_node (k_mem s) m' pt pg q i _ fl p) in Hn as [[_ ->]|[? _]]; try done;
        [right; by left|by left].
    + intros a Ha Hfr. apply Hsame; [apply Hfr; by left|].
      assert (¬ in_page q a) as Hnq by (intros Hin; apply Ha; by exists p, q).
      unfold in_page in *. lia.
  - intros va'. eapply (grow_leaf (k_mem s) m' pt pg q i _ fl p); done.
  - simpl. eapply (grow_at (k_mem s) m' pt pg q i _ fl p); done.
Qed.

Lemma pg_held pt s s' fl fl' : pt_grow pt s s' fl fl' → k_held s' = k_held s.
Proof. intros G. by rewrite (pg_state _ _ _ _ _ G). Qed.

Lemma walk_alloc pt va s fl :
  L_kmem ∉ k_held s → free_pages s fl → pt_wf (k_mem s) pt fl → va < MAXVA →
  ∃ r s' fl', walk pt va true s = Ret r s' ∧ pt_grow pt s s' fl fl' ∧
    (∀ va', leaf (k_mem s') pt va' = leaf (k_mem s) pt va') ∧
    ((r = 0 ∧ fl' = []) ∨
     (∃ q, node (k_mem s') pt (vpath va) = Some q ∧ r = q + 8 * PX 0 va ∧ r ≠ 0)).
Proof.
  intros Hh Hf Hw Hva. unfold walk. rewrite (proj2 (Z.leb_gt MAXVA va)) by done.
  destruct (walk_level_alloc pt [] pt va 2 s fl) as (r1 & s1 & fl1 & H1 & G1 & L1 & R1);
    [done..|split; [simpl; lia|constructor]|simpl; lia|done|lia|].
  erewrite bind_step by exact H1. destruct r1 as [q1|]; [|exists 0, s1, fl1; by split_and!; auto].
  destruct (walk_level_alloc pt [PX 2 va] q1 va 1 s1 fl1) as (r2 & s2 & fl2 & H2 & G2 & L2 & R2).
  { by rewrite (pg_held _ _ _ _ _ G1). }
  { apply G1. } { apply G1. }
  { split; [simpl; lia|]. repeat constructor; apply PX_range; lia. } { simpl; lia. } { done. } { lia. }
  erewrite bind_step by exact H2.
  pose proof (pt_grow_trans _ _ _ _ _ _ _ G1 G2) as G.
  assert (∀ va', leaf (k_mem s2) pt va' = leaf (k_mem s) pt va') as L by (intros; by rewrite L2).
  destruct r2 as [q2|]; [|exists 0, s2, fl2; by split_and!; auto].
  exists (q2 + 8 * PX 0 va), s2, fl2. split_and!; [done..|]. right. exists q2. split_and!; [done..|].
  destruct (pt_ok _ _ _ (pg_wf _ _ _ _ _ G2) (vpath va) q2) as [Hok _]; [apply vpath_ok|done|].
  pose proof (page_ok_pos kend_range _ Hok). assert (idx_ok (PX 0 va)) by (apply PX_range; lia).
  unfold idx_ok in *. lia.
Qed.

(** Writing an entry of a leaf table changes that translation and no other. *)
Lemma leaf_store m pt fl va q v :
  pt_wf m pt fl → node m pt (vpath va) = Some q → 0 ≤ v < 2 ^ 64 →
  let m' := st64 m (q + 8 * PX 0 va) v in
  (∀ path, path_ok path → node m' pt path = node m pt path) ∧
  leaf m' pt va = v ∧
  (∀ va', (vpath va', PX 0 va') ≠ (vpath va, PX 0 va) → leaf m' pt va' = leaf m pt va').
Proof.
  intros Hw Hn Hv m'. assert (∀ va', idx_ok (PX 0 va')) as Hi by (intros; apply PX_range; lia).
  destruct (pt_ok _ _ _ Hw _ _ (vpath_ok va) Hn) as [Hqok _].
  assert (∀ path1 k q1, path_ok path1 → idx_ok k → node m pt path1 = Some q1 →
    (path1, k) ≠ (vpath va, PX 0 va) → ld64 m' (q1 + 8 * k) = ld64 m (q1 + 8 * k)) as Hent.
  { intros path1 k q1 Hok Hk Hn1 Hne. destruct (pt_ok _ _ _ Hw _ _ Hok Hn1) as [Hq1 _].
    apply ld_st_ne. apply entry_disjoint; auto. intros [= E1 E2]. apply Hne. rewrite E2. f_equal.
    rewrite E1 in Hn. eapply (pt_inj _ _ _ Hw); [| |exact Hn1|exact Hn]; auto using vpath_ok. }
  assert (∀ path, path_ok path → node m' pt path = node m pt path) as Hnode.
  { intros path Hok. apply node_ext. intros p1 k p2 q1 -> Hn1. apply (Hent p1).
    - by eapply path_ok_app.
    - destruct Hok as [_ Hf]. apply Forall_app in Hf as [_ Hf]. by apply Forall_cons in Hf as [? _].
    - done.
    - intros [= -> _]. destruct Hok as [Hlen _]. rewrite length_app in Hlen. simpl in Hlen. lia. }
  split_and!; [done| |].
  - unfold leaf. rewrite Hnode, Hn by apply vpath_ok. by apply ld_st_eq.
  - intros va' Hne. unfold leaf. rewrite Hnode by apply vpath_ok.
    destruct (node m pt (vpath va')) as [q'|] eqn:Hn'; [|done].
    apply (Hent (vpath va')); auto using vpath_ok.
Qed.

Lemma va_indices va va' :
  0 ≤ va < MAXVA → 0 ≤ va' < MAXVA → va / 4096 ≠ va' / 4096 →
  (vpath va', PX 0 va') ≠ (vpath va, PX 0 va).
Proof.
  intros H H' Hne [= H2 H1 H0]. apply Hne.
  pose proof (PX_split va H). pose proof (PX_split va' H'). rewrite H2, H1, H0 in *. zarith.
Qed.

Lemma leaf_store_wf m pt fl va q v :
  pt_wf m pt fl → node m pt (vpath va) = Some q → 0 ≤ v < 2 ^ 64 →
  pt_wf (st64 m (q + 8 * PX 0 va) v) pt fl.
Proof.
  intros Hw Hn Hv. destruct (leaf_store m pt fl va q v Hw Hn Hv) as (Hnode & _ & _).
  split; [intros path q' Hok|intros p1 p2 q' Hok1 Hok2]; rewrite !Hnode by done; by apply Hw.
Qed.

Definition mkpte (pa perm : Z) : Z := Z.lor (Z.lor (PA2PTE pa) perm) PTE_V.

Lemma mkpte_spec pa perm :
  0 ≤ pa < 2 ^ 56 → pa mod 4096 = 0 → 0 ≤ perm < 1024 →
  0 ≤ mkpte pa perm < 2 ^ 54 ∧ valid (mkpte pa perm) = true ∧
  PTE2PA (mkpte pa perm) = pa ∧ PTE_FLAGS (mkpte pa perm) = Z.lor perm PTE_V.
Proof.
  intros Hp Hal Hperm. unfold mkpte. rewrite <- Z.lor_assoc.
  assert (0 ≤ Z.lor perm PTE_V < 1024) as Hfl by (apply lor_range10; [done|change PTE_V with 1; lia]).
  destruct (pte_build pa (Z.lor perm PTE_V) Hp Hal Hfl) as (Hr & Hpa & Hf).
  split_and!; [lia..| |done|done]. unfold valid, truthy.
  rewrite land_low10, <- PTE_FLAGS_spec, Hf, Z.land_comm, Z.land_lor_distr_r by done.
  apply negb_true_iff, Z.eqb_neq. change (Z.land PTE_V PTE_V) with 1.
  rewrite Z.lor_comm. intros H0. apply Z.lor_eq_0_iff in H0. lia.
Qed.

(** One round of the loop of [mappages]: the entry of [a] is set, or there is no
    memory for a table page and no translation changes. *)
Lemma map_one f pt a last pa perm s fl :
  L_kmem ∉ k_held s → free_pages s fl → pt_wf (k_mem s) pt fl → 0 ≤ a < MAXVA →
  valid (leaf (k_mem s) pt a) = false →
  0 ≤ pa < 2 ^ 56 → pa mod 4096 = 0 → 0 ≤ perm < 1024 →
  ∃ s' fl', pt_grow pt s s' fl fl' ∧
   ((mappages_loop (S f) pt a last pa perm s = Ret (-1) s' ∧ fl' = [] ∧
     (∀ va', leaf (k_mem s') pt va' = leaf (k_mem s) pt va')) ∨
    (mappages_loop (S f) pt a last pa perm s =
       (if a =? last then Ret 0 s'
        else mappages_loop f pt (u64 (a + PGSIZE)) last (u64 (pa + PGSIZE)) perm s') ∧
     leaf (k_mem s') pt a = mkpte pa perm ∧
     (∀ va', 0 ≤ va' < MAXVA → va' / 4096 ≠ a / 4096 →
        leaf (k_mem s') pt va' = leaf (k_mem s) pt va'))).
Proof.
  intros Hh Hf Hw Ha Hv Hp Hal Hperm.
  destruct (walk_alloc pt a s fl Hh Hf Hw ltac:(lia)) as (r & s1 & fl1 & H1 & G & L & R).
  destruct R as [[-> Hfl]|(q & Hn & Hr & Hr0)].
  { exists s1, fl1. split; [done|]. left. split_and!; [|done..].
    cbn [mappages_loop]. by erewrite bind_step by exact H1. }
  destruct (mkpte_spec pa perm Hp Hal Hperm) as (Hpr & _).
  pose proof (pg_wf _ _ _ _ _ G) as Hw1.
  destruct (leaf_store (k_mem s1) pt fl1 a q (mkpte pa perm) Hw1 Hn ltac:(lia)) as (Hnode & Hla & Hlo).
  set (m' := st64 (k_mem s1) (q + 8 * PX 0 a) (mkpte pa perm)) in *.
  destruct (pt_ok _ _ _ Hw1 _ _ (vpath_ok a) Hn) as [Hqok Hqnin].
  assert (idx_ok (PX 0 a)) as Hi by (apply PX_range; lia).
  assert (∀ b, ¬ in_page q b → m' b = k_mem s1 b) as Hout.
  { intros b Hb. apply st_other. unfold in_page, PGSIZE, idx_ok in *. lia. }
  exists (set_k_mem m' s1), fl1. split.
  - eapply pt_grow_trans; [exact G|]. split; simpl.
    + by destruct s1.
    + destruct (pg_free _ _ _ _ _ G) as [Hon Hnd]. split; [|done]. simpl.
      eapply on_list_ext; [|exact Hon]. intros pg b Hin Hb. apply Hout.
      apply on_list_ok in Hon. rewrite Forall_forall in Hon.
      eapply (page_ok_disjoint pg); [by apply Hon|done| |done]. by intros ->.
    + apply leaf_store_wf; [done..|lia].
    + by exists [].
    + intros path q' Hok. by rewrite Hnode.
    + intros path q' Hok. rewrite Hnode by done. by left.
    + intros b Hb _. apply Hout. intros Hin. apply Hb. exists (vpath a), q.
      split_and!; [apply vpath_ok|done..].
  - right. split_and!.
    + cbn [mappages_loop]. erewrite bind_step by exact H1.
      rewrite (proj2 (Z.eqb_neq r 0)) by done. unfold kload64 at 1. kstep.
      assert (ld64 (k_mem s1) r = leaf (k_mem s) pt a) as ->.
      { rewrite <- L. unfold leaf. by rewrite Hn, Hr. }
      unfold valid in Hv. rewrite Hv. unfold kstore64. kstep. rewrite Hr.
      fold (mkpte pa perm). fold m'. by destruct (a =? last).
    + done.
    + intros va' Hva' Hne. simpl. rewrite Hlo, L; [done|]. apply va_indices; [done..|lia].
Qed.

(** The pages [a], [a + PGSIZE], ..., [n] of them, are mapped to consecutive
    physical pages from [pa]. *)
Definition mapped (m : mem) (pt a pa perm : Z) (n : nat) : Prop :=
  ∀ k, 0 ≤ k < Z.of_nat n → leaf m pt (a + k * PGSIZE) = mkpte (pa + k * PGSIZE) perm.

Definition same_outside (m m' : mem) (pt a : Z) (n : nat) : Prop :=
  ∀ va, 0 ≤ va < MAXVA → (va < a ∨ a + Z.of_nat n * PGSIZE ≤ va) → leaf m' pt va = leaf m pt va.

Lemma mappages_loop_ok n pt a pa perm s fl :
  L_kmem ∉ k_held s → free_pages s fl → pt_wf (k_mem s) pt fl →
  0 ≤ a → a mod PGSIZE = 0 → a + Z.of_nat (S n) * PGSIZE ≤ MAXVA →
  0 ≤ pa → pa mod PGSIZE = 0 → pa + Z.of_nat (S n) * PGSIZE ≤ 2 ^ 56 → 0 ≤ perm < 1024 →
  (∀ k, 0 ≤ k < Z.of_nat (S n) → valid (leaf (k_mem s) pt (a + k * PGSIZE)) = false) →
  ∃ r s' fl', mappages_loop (S n) pt a (a + Z.of_nat n * PGSIZE) pa perm s = Ret r s' ∧
    pt_grow pt s s' fl fl' ∧ same_outside (k_mem s) (k_mem s') pt a (S n) ∧
    ((r = 0 ∧ mapped (k_mem s') pt a pa perm (S n)) ∨ (r = -1 ∧ fl' = [])).
Proof.
  revert a pa s fl. induction n as [|n IH];
    intros a pa s fl Hh Hf Hw Ha Hal Hmax Hp Hpal Hpmax Hperm Hinv;
    unfold PGSIZE in *; change MAXVA with 274877906944 in *;
    (assert (valid (leaf (k_mem s) pt a) = false) as Hv0
      by (replace a with (a + 0 * 4096) by lia; apply Hinv; lia));
    match goal with |- context [mappages_loop (S ?f) _ _ ?last] =>
      destruct (map_one f pt a last pa perm s fl Hh Hf Hw
        ltac:(change MAXVA with 274877906944; lia) Hv0 ltac:(lia) Hpal Hperm) as (s1 & fl1 & G1 & R1)
    end.
  - destruct R1 as [(Hr & Hfl & Hl)|(Hr & Hla & Hlo)].
    { exists (-1), s1, fl1. split_and!; [exact Hr|done|intros ? ? ?; apply Hl|by right]. }
    exists 0, s1, fl1. split_and!; [|done| |].
    + rewrite Hr, (proj2 (Z.eqb_eq a _)) by lia. done.
    + intros va Hva Hout. apply Hlo; [done|]. unfold PGSIZE in *. zarith.
    + left. split; [done|]. intros k Hk. replace k with 0 by lia. by rewrite !Z.add_0_r.
  - destruct R1 as [(Hr & Hfl & Hl)|(Hr & Hla & Hlo)].
    { exists (-1), s1, fl1. split_and!; [exact Hr|done|intros ? ? ?; apply Hl|by right]. }
    destruct (IH (a + 4096) (pa + 4096) s1 fl1) as (r & s' & fl' & Hr' & G' & Ho & R');
      try apply G1; try lia; try zarith.
    { by rewrite (pg_held _ _ _ _ _ G1). }
    { intros k Hk. replace (a + 4096 + k * 4096) with (a + (k + 1) * 4096) by lia.
      rewrite Hlo; [apply Hinv; lia|change MAXVA with 274877906944; lia|zarith]. }
    exists r, s', fl'. split_and!.
    + rewrite Hr, (proj2 (Z.eqb_neq a _)) by lia. unfold PGSIZE. rewrite !u64_small by lia.
      rewrite <- Hr'. f_equal. lia.
    + by eapply pt_grow_trans.
    + intros va Hva Hout. unfold PGSIZE in *. rewrite Ho by (unfold PGSIZE; lia). apply Hlo; [done|zarith].
    + destruct R' as [[-> Hm]|?]; [left|by right]. split; [done|]. intros k Hk.
      destruct (decide (k = 0)) as [->|].
      * rewrite !Z.add_0_r. rewrite Ho; [done|change MAXVA with 274877906944; lia|unfold PGSIZE; lia].
      * unfold mapped, PGSIZE in *. specialize (Hm (k - 1) ltac:(lia)).
        replace (a + 4096 + (k - 1) * 4096) with (a + k * 4096) in Hm by lia. rewrite Hm. f_equal. lia.
Qed.

Lemma mappages_ok pt va size pa perm s fl :
  let n := Z.to_nat ((PGROUNDDOWN (va + size - 1) - PGROUNDDOWN va) / PGSIZE) in
  L_kmem ∉ k_held s → free_pages s fl → pt_wf (k_mem s) pt fl →
  0 ≤ va → 0 < size → va + size ≤ MAXVA →
  0 ≤ pa → pa mod PGSIZE = 0 → pa + Z.of_nat (S n) * PGSIZE ≤ 2 ^ 56 → 0 ≤ perm < 1024 →
  (∀ k, 0 ≤ k < Z.of_nat (S n) → valid (leaf (k_mem s) pt (PGROUNDDOWN va + k * PGSIZE)) = false) →
  ∃ r s' fl', mappages pt va size pa perm s = Ret r s' ∧
    pt_grow pt s s' fl fl' ∧ same_outside (k_mem s) (k_mem s') pt (PGROUNDDOWN va) (S n) ∧
    ((r = 0 ∧ mapped (k_mem s') pt (PGROUNDDOWN va) pa perm (S n)) ∨ (r = -1 ∧ fl' = [])).
Proof.
  intros n Hh Hf Hw Hva Hsz Hmax Hp Hpal Hpmax Hperm Hinv.
  change MAXVA with 274877906944 in *.
  assert (PGROUNDDOWN va = va / 4096 * 4096) as Ha by (apply PGROUNDDOWN_spec; lia).
  assert (PGROUNDDOWN (va + size - 1) = (va + size - 1) / 4096 * 4096) as Hl
    by (apply PGROUNDDOWN_spec; lia).
  unfold mappages. rewrite (proj2 (Z.eqb_neq size 0)), u64_small by lia. fold n.
  assert (PGROUNDDOWN (va + size - 1) = PGROUNDDOWN va + Z.of_nat n * PGSIZE) as ->.
  { unfold n, PGSIZE. zarith. }
  apply mappages_loop_ok; try done; change MAXVA with 274877906944; unfold n, PGSIZE in *; zarith.
Qed.

(** ** Translation of user addresses *)

(** The physical address of the user page [va0], or 0. *)
Definition upage (m : mem) (pt va0 : Z) : Z :=
  if MAXVA <=? va0 then 0
  else
    let v := leaf m pt va0 in
    if Z.land v PTE_V =? 0 then 0 else if Z.land v PTE_U =? 0 then 0 else PTE2PA v.

(** The physical address of the user byte at [va]. *)
Definition user_pa (m : mem) (pt va : Z) : option Z :=
  let pa0 := upage m pt (PGROUNDDOWN va) in
  if pa0 =? 0 then None else Some (pa0 + (va - PGROUNDDOWN va)).

Lemma walkaddr_ok pt va s fl :
  pt_wf (k_mem s) pt fl → walkaddr pt va s = Ret (upage (k_mem s) pt va) s.
Proof.
  intros Hw. unfold walkaddr, upage. case_test; [done|]. erewrite bind_step by (apply walk_ro; lia).
  unfold leaf. destruct (node (k_mem s) pt (vpath va)) as [q|] eqn:Hn; [|done].
  destruct (pt_ok _ _ _ Hw _ _ (vpath_ok va) Hn) as [Hq _]. apply page_ok_pos in Hq; [|done].
  assert (0 ≤ PX 0 va < 512) by (apply PX_range; lia).
  rewrite (proj2 (Z.eqb_neq (q + 8 * PX 0 va) 0)) by lia. unfold kload64. kstep.
  by repeat case_test.
Qed.

(** *** The copies, one byte at a time *)

Fixpoint copyin_ref (n : nat) (m : mem) (pt va : Z) (acc : list Z) : Z * list Z :=
  match n with
  | O => (0, acc)
  | S n' =>
      match user_pa m pt va with
      | None => (-1, acc)
      | Some pa => copyin_ref n' m pt (u64 (va + 1)) (acc ++ [m pa])
      end
  end.

Fixpoint copyout_ref (m : mem) (pt va : Z) (src : list Z) : Z * mem :=
  match src with
  | [] => (0, m)
  | x :: src' =>
      match user_pa m pt va with
      | None => (-1, m)
      | Some pa => copyout_ref (st8 m pa x) pt (u64 (va + 1)) src'
      end
  end.

Fixpoint copyinstr_ref (max : nat) (m : mem) (pt va : Z) (acc : list Z) : Z * list Z :=
  match max with
  | O => (-1, acc)
  | S n =>
      match user_pa m pt va with
      | None => (-1, acc)
      | Some pa =>
          if m pa =? 0 then (0, acc ++ [0])
          else copyinstr_ref n m pt (u64 (va + 1)) (acc ++ [m pa])
      end
  end.

(** The bytes of one page have consecutive translations. *)
Lemma user_pa_page m pt va k :
  0 ≤ va < 2 ^ 64 → 0 ≤ k < PGSIZE - (va - PGROUNDDOWN va) →
  PGROUNDDOWN (u64 (va + k)) = PGROUNDDOWN va ∧
  user_pa m pt (u64 (va + k)) = (λ pa, pa + k) <$> user_pa m pt va.
Proof.
  intros Hva Hk. pose proof (PGROUNDDOWN_spec va Hva) as Hd. unfold PGSIZE in *.
  rewrite Hd in Hk. rewrite u64_small by zarith.
  assert (PGROUNDDOWN (va + k) = PGROUNDDOWN va) as E.
  { rewrite Hd, PGROUNDDOWN_spec by zarith. zarith. }
  split; [done|]. unfold user_pa. rewrite E. case_test; simpl; [done|]. f_equal. lia.
Qed.

Lemma chunk_range va len :
  0 ≤ va < 2 ^ 64 → 0 < len →
  0 < chunk va len ≤ len ∧ chunk va len ≤ PGSIZE - (va - PGROUNDDOWN va) ∧
  (chunk va len = len ∨ u64 (PGROUNDDOWN va + PGSIZE) = u64 (va + chunk va len)).
Proof.
  intros Hva Hlen. unfold chunk. rewrite (PGROUNDDOWN_spec va Hva). unfold PGSIZE.
  case_test; (split; [zarith|split; [zarith|]]); [by left|right; f_equal; lia].
Qed.

Lemma user_pa_upage m pt va :
  user_pa m pt va = (let pa0 := upage m pt (PGROUNDDOWN va) in
                     if pa0 =? 0 then None else Some (pa0 + (va - PGROUNDDOWN va))).
Proof. done. Qed.

Lemma u64_add_l x y : u64 (u64 x + y) = u64 (x + y).
Proof. unfold u64. by rewrite Zplus_mod_idemp_l. Qed.

(** Reading up to the end of a page. *)
Lemma copyin_ref_chunk k n m pt va acc pa :
  0 ≤ va < 2 ^ 64 → Z.of_nat k ≤ PGSIZE - (va - PGROUNDDOWN va) → user_pa m pt va = Some pa →
  copyin_ref (k + n) m pt va acc =
  copyin_ref n m pt (u64 (va + Z.of_nat k)) (acc ++ get_bytes m pa k).
Proof.
  revert va acc pa. induction k as [|k IH]; intros va acc pa Hva Hk Hpa.
  { simpl. by rewrite app_nil_r, Z.add_0_r, u64_small. }
  cbn [Nat.add copyin_ref get_bytes]. rewrite Hpa.
  destruct k as [|k]; [done|].
  destruct (user_pa_page m pt va 1 Hva ltac:(lia)) as [E1 E2].
  assert (0 ≤ va + 1 < 2 ^ 64) as Hr.
  { rewrite (PGROUNDDOWN_spec va Hva) in Hk. unfold PGSIZE in *. zarith. }
  rewrite (IH _ _ (pa + 1)).
  - rewrite <- app_assoc, u64_add_l. do 2 f_equal. lia.
  - apply u64_range.
  - rewrite E1, u64_small by done. lia.
  - by rewrite E2, Hpa.
Qed.

Lemma copyin_spec pt va len s fl :
  pt_wf (k_mem s) pt fl → 0 ≤ va < 2 ^ 64 → 0 ≤ len →
  copyin pt va len s = Ret (copyin_ref (Z.to_nat len) (k_mem s) pt va []) s.
Proof.
  intros Hw Hva Hlen. unfold copyin.
  assert (∀ fuel va len acc, 0 ≤ va < 2 ^ 64 → 0 ≤ len → (Z.to_nat len < fuel)%nat →
    copyin_loop fuel pt va len acc s = Ret (copyin_ref (Z.to_nat len) (k_mem s) pt va acc) s) as Hloop.
  { clear va Hva len Hlen. intros fuel. induction fuel as [|fuel IH]; intros va len acc Hva Hlen Hf; [lia|].
    cbn [copyin_loop]. case_test; [replace len with 0 by lia; done|].
    destruct (chunk_range va len Hva ltac:(lia)) as (Hc1 & Hc2 & Hc3).
    erewrite bind_step by (by eapply walkaddr_ok).
    destruct (user_pa (k_mem s) pt va) as [pa|] eqn:Hpa; rewrite user_pa_upage in Hpa; simpl in Hpa;
      case_test; simplify_eq.
    - kstep. set (n := chunk va len) in *.
      replace (Z.to_nat len) with (Z.to_nat n + Z.to_nat (len - n))%nat by lia.
      erewrite (copyin_ref_chunk (Z.to_nat n)); [|done|lia|].
      2: { rewrite user_pa_upage. simpl. by rewrite (proj2 (Z.eqb_neq _ 0)) by done. }
      rewrite IH by (try apply u64_range; lia).
      destruct Hc3 as [Hn|Hn]; [|rewrite Hn; by rewrite Z2Nat.id by lia].
      rewrite Hn. by replace (Z.to_nat (len - len)) with O by lia.
    - replace (Z.to_nat len) with (S (Z.to_nat (len - 1))) by lia. cbn [copyin_ref].
      rewrite user_pa_upage. simpl. by rewrite (proj2 (Z.eqb_eq _ 0)) by done. }
  apply Hloop; lia.
Qed.

(** C20: [copyin] is the byte-by-byte copy through the user mapping: for any
    source address and length it returns what the reference returns, 0 with all
    the bytes, or -1 with the bytes before the first address the process may not
    read, and changes nothing in the kernel. *)
Theorem copyin_correct pt va len s fl :
  pt_wf (k_mem s) pt fl → 0 ≤ va < 2 ^ 64 → 0 ≤ len →
  copyin pt va len s = Ret (copyin_ref (Z.to_nat len) (k_mem s) pt va []) s.
Proof. by apply copyin_spec. Qed.

Lemma user_pa_zero m pt va : upage m pt (PGROUNDDOWN va) = 0 → user_pa m pt va = None.
Proof. intros H. rewrite user_pa_upage. simpl. by rewrite H. Qed.

Lemma user_pa_some m pt va :
  upage m pt (PGROUNDDOWN va) ≠ 0 →
  user_pa m pt va = Some (upage m pt (PGROUNDDOWN va) + (va - PGROUNDDOWN va)).
Proof. intros H. rewrite user_pa_upage. simpl. by rewrite (proj2 (Z.eqb_neq _ 0)). Qed.

Lemma copyinstr_ref_chunk k n m pt va acc pa :
  0 ≤ va < 2 ^ 64 → Z.of_nat k ≤ PGSIZE - (va - PGROUNDDOWN va) → user_pa m pt va = Some pa →
  copyinstr_ref (k + n) m pt va acc =
  (let '(got, bs) := copyinstr_page k m pa in
   if got : bool then (0, acc ++ bs)
   else copyinstr_ref n m pt (u64 (va + Z.of_nat k)) (acc ++ bs)).
Proof.
  revert va acc pa. induction k as [|k IH]; intros va acc pa Hva Hk Hpa.
  { simpl. by rewrite app_nil_r, Z.add_0_r, u64_small. }
  cbn [Nat.add copyinstr_ref copyinstr_page]. rewrite Hpa. case_test; [done|].
  destruct k as [|k]; [done|].
  destruct (user_pa_page m pt va 1 Hva ltac:(lia)) as [E1 E2].
  assert (0 ≤ va + 1 < 2 ^ 64) as Hr.
  { rewrite (PGROUNDDOWN_spec va Hva) in Hk. unfold PGSIZE in *. zarith. }
  rewrite (IH _ _ (pa + 1)).
  - destruct (copyinstr_page (S k) m (pa + 1)) as [[] bs]; rewrite <- app_assoc; [done|].
    rewrite u64_add_l. do 2 f_equal. lia.
  - apply u64_range.
  - rewrite E1, u64_small by done. lia.
  - by rewrite E2, Hpa.
Qed.

(** [copyinstr] is the byte-by-byte copy of a NUL-terminated string through
    the user mapping: 0 exactly when a NUL occurs in the first [max] bytes, all
    of them up to it readable, and then the bytes up to and including the NUL;
    otherwise -1. *)
Theorem copyinstr_correct pt va max s fl :
  pt_wf (k_mem s) pt fl → 0 ≤ va < 2 ^ 64 → 0 ≤ max →
  copyinstr pt va max s = Ret (copyinstr_ref (Z.to_nat max) (k_mem s) pt va []) s.
Proof.
  intros Hw Hva Hmax. unfold copyinstr.
  assert (∀ fuel va max acc, 0 ≤ va < 2 ^ 64 → 0 ≤ max → (Z.to_nat max < fuel)%nat →
    copyinstr_loop fuel pt va max acc s =
    Ret (copyinstr_ref (Z.to_nat max) (k_mem s) pt va acc) s) as Hloop.
  { clear va Hva max Hmax. intros fuel. induction fuel as [|fuel IH]; intros va max acc Hva Hmax Hf; [lia|].
    cbn [copyinstr_loop]. case_test; [replace max with 0 by lia; done|].
    destruct (chunk_range va max Hva ltac:(lia)) as (Hc1 & Hc2 & Hc3).
    erewrite bind_step by (by eapply walkaddr_ok). case_test.
    { replace (Z.to_nat max) with (S (Z.to_nat (max - 1))) by lia. cbn [copyinstr_ref].
      by rewrite user_pa_zero. }
    kstep. set (n := chunk va max) in *.
    replace (Z.to_nat max) with (Z.to_nat n + Z.to_nat (max - n))%nat by lia.
    erewrite (copyinstr_ref_chunk (Z.to_nat n)); [|done|lia|by apply user_pa_some].
    destruct (copyinstr_page _ _ _) as [[] bs]; [done|]. rewrite IH by (try apply u64_range; lia).
    destruct Hc3 as [Hn|Hn]; [|rewrite Hn; by rewrite Z2Nat.id by lia].
    rewrite Hn. by replace (Z.to_nat (max - max)) with O by lia. }
  apply Hloop; lia.
Qed.

(** The translation depends only on the table pages. *)
Lemma node_frame m m' pt path :
  path_ok path → (∀ a, in_table m pt a → m' a = m a) → node m' pt path = node m pt path.
Proof.
  intros Hok Hm. apply node_ext. intros p1 i p2 q -> Hq. apply ld_ext. intros b Hb. apply Hm.
  exists p1, q. split_and!; [by eapply path_ok_app|done|].
  destruct Hok as [_ Hf]. apply Forall_app in Hf as [_ Hf]. apply Forall_cons in Hf as [Hi _].
  unfold in_page, PGSIZE, idx_ok in *. lia.
Qed.

Lemma leaf_frame m m' pt va :
  (∀ a, in_table m pt a → m' a = m a) → leaf m' pt va = leaf m pt va.
Proof.
  intros Hm. unfold leaf. rewrite (node_frame m) by (try done; apply vpath_ok).
  destruct (node m pt (vpath va)) as [q|] eqn:Hq; [|done]. apply ld_ext. intros b Hb. apply Hm.
  exists (vpath va), q. split_and!; [apply vpath_ok|done|].
  assert (idx_ok (PX 0 va)) by (apply PX_range; lia). unfold in_page, PGSIZE, idx_ok in *. lia.
Qed.

Lemma user_pa_frame m m' pt va :
  (∀ a, in_table m pt a → m' a = m a) → user_pa m' pt va = user_pa m pt va.
Proof. intros Hm. unfold user_pa, upage. by rewrite (leaf_frame m) by done. Qed.

Lemma pt_wf_frame m m' pt fl :
  pt_wf m pt fl → (∀ a, in_table m pt a → m' a = m a) → pt_wf m' pt fl.
Proof.
  intros Hw Hm. split; [intros path q Hok|intros p1 p2 q Hok1 Hok2];
    rewrite !(node_frame m m') by done; by apply Hw.
Qed.

(** No user page is a table page of its own table. *)
Definition user_separate (m : mem) (pt : Z) : Prop :=
  ∀ va pa, 0 ≤ va < 2 ^ 64 → user_pa m pt va = Some pa → ¬ in_table m pt pa.

Lemma user_separate_frame m m' pt :
  user_separate m pt → (∀ a, in_table m pt a → m' a = m a) → user_separate m' pt.
Proof.
  intros Hs Hm va pa Hva Hpa (path & q & Hok & Hn & Hin).
  rewrite (user_pa_frame m) in Hpa by done. rewrite (node_frame m) in Hn by done.
  apply (Hs va pa Hva Hpa). by exists path, q.
Qed.

Lemma separate_store m pt va pa x :
  user_separate m pt → 0 ≤ va < 2 ^ 64 → user_pa m pt va = Some pa →
  ∀ a, in_table m pt a → st8 m pa x a = m a.
Proof. intros Hs Hva Hpa a Ha. apply st8_ne. intros ->. by apply (Hs _ _ Hva Hpa). Qed.

Lemma copyout_ref_chunk l src m pt va pa :
  user_separate m pt → 0 ≤ va < 2 ^ 64 → Z.of_nat (length l) ≤ PGSIZE - (va - PGROUNDDOWN va) →
  user_pa m pt va = Some pa →
  copyout_ref m pt va (l ++ src) = copyout_ref (put_bytes m pa l) pt (u64 (va + Z.of_nat (length l))) src ∧
  (∀ a, in_table m pt a → put_bytes m pa l a = m a).
Proof.
  revert m va pa. induction l as [|x l IH]; intros m va pa Hs Hva Hk Hpa; simpl in *.
  { by rewrite Z.add_0_r, u64_small. }
  rewrite Hpa. pose proof (separate_store m pt va pa x Hs Hva Hpa) as Hst.
  destruct l as [|y l]; [done|].
  destruct (user_pa_page m pt va 1 Hva ltac:(simpl in *; lia)) as [E1 E2].
  assert (0 ≤ va + 1 < 2 ^ 64) as Hr.
  { rewrite (PGROUNDDOWN_spec va Hva) in Hk. unfold PGSIZE in *. simpl in *. zarith. }
  destruct (IH (st8 m pa x) (u64 (va + 1)) (pa + 1)) as [IH1 IH2].
  - by eapply user_separate_frame.
  - apply u64_range.
  - rewrite E1, u64_small by done. simpl in *. lia.
  - rewrite (user_pa_frame m) by done. by rewrite E2, Hpa.
  - split.
    + rewrite IH1, u64_add_l. do 2 f_equal. lia.
    + intros a Ha. rewrite IH2, Hst; [done..|]. destruct Ha as (path & q & Hok & Hn & Hin).
      exists path, q. split_and!; [done| |done]. by rewrite (node_frame m).
Qed.

Lemma copyout_spec pt va src s fl :
  pt_wf (k_mem s) pt fl → user_separate (k_mem s) pt → 0 ≤ va < 2 ^ 64 →
  copyout pt va src s =
  (let '(r, m') := copyout_ref (k_mem s) pt va src in Ret r (set_k_mem m' s)).
Proof.
  intros Hw Hs Hva. unfold copyout.
  assert (∀ fuel va src s, pt_wf (k_mem s) pt fl → user_separate (k_mem s) pt → 0 ≤ va < 2 ^ 64 →
    (length src < fuel)%nat →
    copyout_loop fuel pt va src s =
    (let '(r, m') := copyout_ref (k_mem s) pt va src in Ret r (set_k_mem m' s))) as Hloop; [|apply Hloop; auto].
  clear s Hw Hs va src Hva.
  intros fuel. induction fuel as [|fuel IH]; intros va src s Hw Hs Hva Hf; [lia|].
  cbn [copyout_loop]. case_test.
  { destruct src; [|simpl in *; lia]. simpl. by destruct s. }
  destruct (chunk_range va (Z.of_nat (length src)) Hva ltac:(lia)) as (Hc1 & Hc2 & Hc3).
  erewrite bind_step by (by eapply walkaddr_ok). case_test.
  { destruct src as [|x src]; [simpl in *; lia|]. cbn [copyout_ref]. rewrite user_pa_zero by done. by destruct s. }
  set (n := chunk va (Z.of_nat (length src))) in *. unfold kput_bytes. kstep.
  assert (length (take (Z.to_nat n) src) = Z.to_nat n) as Hlt by (rewrite length_take; lia).
  destruct (copyout_ref_chunk (take (Z.to_nat n) src) (drop (Z.to_nat n) src) (k_mem s) pt va
    (upage (k_mem s) pt (PGROUNDDOWN va) + (va - PGROUNDDOWN va))) as [Hch Hfr];
    [done..|rewrite Hlt; lia|by apply user_pa_some|].
  rewrite take_drop, Hlt, Z2Nat.id in Hch by lia. rewrite Hch.
  rewrite IH; simpl.
  - destruct Hc3 as [Hn|Hn]; [|rewrite Hn; by destruct s].
    rewrite (drop_ge src) by lia. by destruct s.
  - by eapply pt_wf_frame.
  - by eapply user_separate_frame.
  - apply u64_range.
  - rewrite length_drop. lia.
Qed.

(** C19: [copyout] is the byte-by-byte copy through the user mapping: for any
    destination it writes what the reference writes, returning 0 when every
    address of the range is mapped for the user and -1 at the first that is not,
    and changes nothing but memory. *)
Theorem copyout_correct pt va src s fl :
  pt_wf (k_mem s) pt fl → user_separate (k_mem s) pt → 0 ≤ va < 2 ^ 64 →
  copyout pt va src s =
  (let '(r, m') := copyout_ref (k_mem s) pt va src in Ret r (set_k_mem m' s)).
Proof. by apply copyout_spec. Qed.

(** Distinct user addresses have distinct bytes behind them. *)
Definition user_injective (m : mem) (pt : Z) : Prop :=
  ∀ va va' pa, 0 ≤ va < MAXVA → 0 ≤ va' < MAXVA →
    user_pa m pt va = Some pa → user_pa m pt va' = Some pa → va = va'.

Lemma copyout_ref_roundtrip m pt va src m' acc :
  user_separate m pt → user_injective m pt → 0 ≤ va → va + Z.of_nat (length src) ≤ MAXVA →
  Forall (λ x, 0 ≤ x < 256) src → copyout_ref m pt va src = (0, m') →
  copyin_ref (length src) m' pt va acc = (0, acc ++ src) ∧
  (∀ a, in_table m pt a → m' a = m a) ∧
  (∀ va' a, 0 ≤ va' < va → user_pa m pt va' = Some a → m' a = m a).
Proof.
  change MAXVA with 274877906944.
  revert m va acc. induction src as [|x src IH]; intros m va acc Hs Hi Hva Hmax Hb Hc; simpl in *.
  { simplify_eq. by rewrite app_nil_r. }
  apply Forall_cons in Hb as [Hx Hb].
  destruct (user_pa m pt va) as [pa|] eqn:Hpa; [|done]. rewrite u64_small in * by lia.
  pose proof (separate_store m pt va pa x Hs ltac:(lia) Hpa) as Hst.
  destruct (IH (st8 m pa x) (va + 1) (acc ++ [x])) as (H1 & H2 & H3).
  - by eapply user_separate_frame.
  - intros v v' p Hv Hv' Hp Hp'. rewrite (user_pa_frame m) in Hp, Hp' by done.
    exact (Hi v v' p Hv Hv' Hp Hp').
  - lia.
  - lia.
  - done.
  - done.
  - assert (∀ a, in_table m pt a → in_table (st8 m pa x) pt a) as Htab.
    { intros a (path & q & Hok & Hn & Hin). exists path, q.
      split_and!; [done| |done]. by rewrite (node_frame m). }
    assert (∀ a, in_table m pt a → m' a = m a) as Hm' by (intros a Ha; rewrite H2, Hst; auto).
    split_and!; [|done|].
    + rewrite (user_pa_frame m), Hpa by done.
      rewrite (H3 va pa), st8_eq, u8_small by (try done; try lia; by rewrite (user_pa_frame m)).
      by rewrite H1, <- app_assoc.
    + intros va' a Hva' Ha. rewrite (H3 va' a) by (try lia; by rewrite (user_pa_frame m)).
      apply st8_ne. intros ->. assert (va' = va); [|lia].
      eapply Hi; [..|exact Ha|exact Hpa]; change MAXVA with 274877906944; lia.
Qed.

(** What [copyout] wrote to user memory, [copyin] reads back: after a
    successful [copyout] of a byte string, [copyin] of the same range succeeds
    with that string. *)
Theorem copyout_copyin_roundtrip pt va src s fl s' :
  pt_wf (k_mem s) pt fl → user_separate (k_mem s) pt → user_injective (k_mem s) pt →
  0 ≤ va → va + Z.of_nat (length src) ≤ MAXVA → Forall (λ x, 0 ≤ x < 256) src →
  copyout pt va src s = Ret 0 s' →
  copyin pt va (Z.of_nat (length src)) s' = Ret (0, src) s'.
Proof.
  intros Hw Hs Hi Hva Hmax Hb Hc. assert (0 ≤ va < 2 ^ 64) as Hr.
  { change MAXVA with 274877906944 in *. lia. }
  rewrite (copyout_spec pt va src s fl Hw Hs Hr) in Hc.
  destruct (copyout_ref (k_mem s) pt va src) as [r m'] eqn:E. simplify_eq.
  destruct (copyout_ref_roundtrip _ _ _ _ _ [] Hs Hi Hva Hmax Hb E) as (H1 & H2 & _).
  erewrite copyin_spec; [|by eapply pt_wf_frame|done|lia].
  simpl. by rewrite Nat2Z.id, H1.
Qed.

Lemma mkpte_user pa perm :
  0 ≤ pa < 2 ^ 56 → pa mod 4096 = 0 → 0 ≤ perm < 1024 → Z.land perm PTE_U ≠ 0 →
  Z.land (mkpte pa perm) PTE_V ≠ 0 ∧ Z.land (mkpte pa perm) PTE_U ≠ 0.
Proof.
  intros Hp Hal Hperm Hu. destruct (mkpte_spec pa perm Hp Hal Hperm) as (_ & Hv & _ & Hf).
  split.
  - unfold valid, truthy in Hv. bool_prop. done.
  - rewrite land_low10, <- PTE_FLAGS_spec, Hf, Z.land_comm, Z.land_lor_distr_r by done.
    change (Z.land PTE_U PTE_V) with 0. by rewrite Z.lor_0_r, Z.land_comm.
Qed.

(** C21: [mappages] on an unmapped range either maps every page of the range to
    the next physical page with the given permissions, or returns -1 with the
    free list exhausted; no translation outside the range changes, nothing
    but page-table pages and pages taken from the free list is written, and the
    table stays well formed. *)
Theorem mappages_correct pt va size pa perm s fl :
  let n := Z.to_nat ((PGROUNDDOWN (va + size - 1) - PGROUNDDOWN va) / PGSIZE) in
  L_kmem ∉ k_held s → free_pages s fl → pt_wf (k_mem s) pt fl →
  0 ≤ va → 0 < size → va + size ≤ MAXVA →
  0 ≤ pa → pa mod PGSIZE = 0 → pa + Z.of_nat (S n) * PGSIZE ≤ 2 ^ 56 → 0 ≤ perm < 1024 →
  (∀ k, 0 ≤ k < Z.of_nat (S n) → valid (leaf (k_mem s) pt (PGROUNDDOWN va + k * PGSIZE)) = false) →
  ∃ r s' fl', mappages pt va size pa perm s = Ret r s' ∧
    pt_grow pt s s' fl fl' ∧ same_outside (k_mem s) (k_mem s') pt (PGROUNDDOWN va) (S n) ∧
    ((r = 0 ∧ mapped (k_mem s') pt (PGROUNDDOWN va) pa perm (S n)) ∨ (r = -1 ∧ fl' = [])).
Proof. apply mappages_ok. Qed.

(** Mapping and looking up are inverse: a page that [mappages] mapped for
    the user is found by [walkaddr] at the physical address it was mapped to. *)
Theorem mappages_walkaddr pt va pa perm s fl s' :
  L_kmem ∉ k_held s → free_pages s fl → pt_wf (k_mem s) pt fl →
  0 ≤ va → va mod PGSIZE = 0 → va + PGSIZE ≤ MAXVA →
  0 ≤ pa → pa mod PGSIZE = 0 → pa + PGSIZE ≤ 2 ^ 56 → 0 ≤ perm < 1024 → Z.land perm PTE_U ≠ 0 →
  valid (leaf (k_mem s) pt va) = false →
  mappages pt va PGSIZE pa perm s = Ret 0 s' →
  walkaddr pt va s' = Ret pa s'.
Proof.
  intros Hh Hf Hw Hva Hal Hmax Hp Hpal Hpmax Hperm Hu Hv Hm.
  assert (PGROUNDDOWN va = va) as Hd.
  { change MAXVA with 274877906944 in *. unfold PGSIZE in *. rewrite PGROUNDDOWN_spec by lia. zarith. }
  assert (PGROUNDDOWN (va + PGSIZE - 1) = va) as Hd'.
  { change MAXVA with 274877906944 in *. unfold PGSIZE in *. rewrite PGROUNDDOWN_spec by lia. zarith. }
  destruct (mappages_ok pt va PGSIZE pa perm s fl) as (r & s1 & fl1 & Hr & G & _ & R);
    rewrite ?Hd, ?Hd', ?Z.sub_diag in *; try done.
  { intros k Hk. change (Z.of_nat _) with 1 in Hk. replace k with 0 by lia. by rewrite Z.add_0_r. }
  rewrite Hr in Hm. simplify_eq. destruct R as [[_ R]|[? _]]; [|done].
  specialize (R 0 ltac:(done)). rewrite !Z.mul_0_l, !Z.add_0_r in R.
  assert (0 ≤ pa < 2 ^ 56) as Hpr by (unfold PGSIZE in *; lia).
  destruct (mkpte_user pa perm Hpr Hpal Hperm Hu) as [Hmv Hmu].
  destruct (mkpte_spec pa perm Hpr Hpal Hperm) as (_ & _ & Hpa & _).
  erewrite walkaddr_ok by apply G. unfold upage. rewrite R, Hpa.
  rewrite (proj2 (Z.leb_gt MAXVA va)) by (unfold PGSIZE in *; lia).
  by rewrite (proj2 (Z.eqb_neq _ 0) Hmv), (proj2 (Z.eqb_neq _ 0) Hmu).
Qed.

End vm.

(** ** The theorems at concrete states *)

#[local] Existing Instance build_rr.

(** A process with one page of memory, at address 0: its root table, the two
    tables below and the page, which starts with the string hi. *)
Definition demo_pt : Z := 0x80100000.
Definition demo_pt1 : Z := 0x80101000.
Definition demo_pt0 : Z := 0x80102000.
Definition demo_page : Z := 0x80103000.
Definition demo_mem : mem :=
  put_bytes
    (st64 (st64 (st64 (λ _, 0) demo_pt (Z.lor (PA2PTE demo_pt1) PTE_V))
      demo_pt1 (Z.lor (PA2PTE demo_pt0) PTE_V))
      demo_pt0 (mkpte demo_page (Z.lor (Z.lor PTE_R PTE_W) PTE_U)))
    demo_page [104; 105].
Definition demo_user : kstate := set_k_mem demo_mem bss.

Lemma demo_mem_entry a :
  a mod 8 = 0 → a < demo_page →
  ld64 demo_mem a =
  if a =? demo_pt then Z.lor (PA2PTE demo_pt1) PTE_V
  else if a =? demo_pt1 then Z.lor (PA2PTE demo_pt0) PTE_V
  else if a =? demo_pt0 then mkpte demo_page (Z.lor (Z.lor PTE_R PTE_W) PTE_U) else 0.
Proof.
  intros Ha Hlt. unfold demo_mem, demo_page in *.
  erewrite ld_ext; [|intros b Hb; apply put_bytes_other; left; zarith].
  unfold demo_pt, demo_pt1, demo_pt0.
  repeat case_test; subst; try reflexivity.
  rewrite !ld_st_ne by zarith. reflexivity.
Qed.

Lemma demo_node path q :
  path_ok path → node demo_mem demo_pt path = Some q →
  (path = [] ∧ q = demo_pt) ∨ (path = [0] ∧ q = demo_pt1) ∨ (path = [0; 0] ∧ q = demo_pt0).
Proof.
  intros [Hlen Hf] Hn. destruct path as [|i path]; [simpl in Hn; simplify_eq; by left|].
  apply Forall_cons in Hf as [Hi Hf]. unfold idx_ok in *. cbn [node] in Hn.
  rewrite demo_mem_entry in Hn by (unfold demo_pt, demo_page; zarith).
  destruct (Z.eqb_spec (demo_pt + 8 * i) demo_pt) as [E0|E0].
  2: { revert Hn. unfold demo_pt, demo_pt1, demo_pt0 in *. repeat (case_test; [|try lia]); by try lia. }
  assert (i = 0) as -> by lia. change (node demo_mem demo_pt1 path = Some q) in Hn.
  destruct path as [|j path]; [simpl in Hn; simplify_eq; by auto|].
  apply Forall_cons in Hf as [Hj Hf]. destruct path; [|simpl in Hlen; lia]. cbn [node] in Hn.
  rewrite demo_mem_entry in Hn by (unfold demo_pt1, demo_page; zarith).
  destruct (Z.eqb_spec (demo_pt1 + 8 * j) demo_pt1) as [E1|E1].
  2: { revert Hn. unfold demo_pt, demo_pt1, demo_pt0 in *. repeat (case_test; [|try lia]); by try lia. }
  assert (j = 0) as -> by lia. change (Some demo_pt0 = Some q) in Hn. simplify_eq. by auto.
Qed.

Lemma demo_wf : pt_wf demo_mem demo_pt [].
Proof.
  split.
  - intros path q Hok Hn. split; [|apply not_elem_of_nil].
    destruct (demo_node _ _ Hok Hn) as [[_ ->]|[[_ ->]|[_ ->]]]; done.
  - intros p1 p2 q Hok1 Hok2 Hn1 Hn2. apply demo_node in Hn1, Hn2; [|done..].
    destruct Hn1 as [[-> ->]|[[-> ->]|[-> ->]]]; destruct Hn2 as [[-> ?]|[[-> ?]|[-> ?]]]; done.
Qed.

Lemma demo_leaf va :
  0 ≤ va < MAXVA → leaf demo_mem demo_pt va =
  if va / 4096 =? 0 then mkpte demo_page (Z.lor (Z.lor PTE_R PTE_W) PTE_U) else 0.
Proof.
  intros Hva. pose proof (PX_split va Hva) as Hsp. pose proof (PX_range 0 va ltac:(lia)).
  unfold leaf. destruct (node demo_mem demo_pt (vpath va)) as [q|] eqn:Hn.
  - destruct (demo_node _ _ (vpath_ok va) Hn) as [[? _]|[[? _]|[Hp ->]]]; [done..|].
    injection Hp as Hp1 Hp0. rewrite Hp1, Hp0 in Hsp.
    rewrite demo_mem_entry by (unfold demo_pt0, demo_page; zarith).
    destruct (Z.eqb_spec (va / 4096) 0) as [E|E].
    + assert (PX 0 va = 0) as -> by zarith. done.
    + unfold demo_pt, demo_pt1, demo_pt0 in *. repeat (case_test; [zarith|]). done.
  - case_test; [|done]. exfalso.
    assert (vpath va = [0; 0]) as Hp.
    { unfold vpath. pose proof (PX_range 1 va ltac:(lia)). pose proof (PX_range 2 va ltac:(lia)).
      f_equal; [|f_equal]; zarith. }
    rewrite Hp in Hn. cbn [node] in Hn. rewrite demo_mem_entry in Hn by done.
    change (match node demo_mem demo_pt1 [0] with Some x => Some x | None => None end = None) in Hn.
    cbn [node] in Hn. by rewrite demo_mem_entry in Hn by done.
Qed.

Lemma demo_user_pa va pa :
  0 ≤ va < 2 ^ 64 → user_pa demo_mem demo_pt va = Some pa → 0 ≤ va < 4096 ∧ pa = demo_page + va.
Proof.
  intros Hva. unfold user_pa, upage. pose proof (PGROUNDDOWN_spec va Hva) as Hd.
  destruct (Z.leb_spec MAXVA (PGROUNDDOWN va)) as [|Hlt]; [done|].
  rewrite demo_leaf by zarith. destruct (Z.eqb_spec (PGROUNDDOWN va / 4096) 0) as [E|E]; [|done].
  assert (PGROUNDDOWN va = 0) as -> by zarith. rewrite Z.sub_0_r. intros [= <-]. split; [zarith|done].
Qed.

Lemma demo_separate : user_separate demo_mem demo_pt.
Proof.
  intros va pa Hva Hpa (path & q & Hok & Hn & Hin). apply demo_user_pa in Hpa as [Hr ->]; [|done].
  unfold in_page, PGSIZE, demo_page in *.
  destruct (demo_node _ _ Hok Hn) as [[_ ->]|[[_ ->]|[_ ->]]]; unfold demo_pt, demo_pt1, demo_pt0 in *; lia.
Qed.

Lemma demo_injective : user_injective demo_mem demo_pt.
Proof.
  change MAXVA with 274877906944. intros va va' pa Hva Hva' H H'.
  change MAXVA with 274877906944 in *.
  apply demo_user_pa in H as [_ ->]; [|lia]. apply demo_user_pa in H' as [_ H']; lia.
Qed.

Lemma copyin_correct_witness :
  copyin demo_pt 0 2 demo_user = Ret (0, [104; 105]) demo_user ∧
  copyin demo_pt 4095 2 demo_user = Ret (-1, [0]) demo_user.
Proof.
  split; (rewrite (copyin_correct (build_of_kend RR) demo_pt _ 2 demo_user [] demo_wf) by lia;
    f_equal; vm_compute; reflexivity).
Defined.

Lemma copyinstr_correct_witness :
  copyinstr demo_pt 0 100 demo_user = Ret (0, [104; 105; 0]) demo_user ∧
  copyinstr demo_pt 0 2 demo_user = Ret (-1, [104; 105]) demo_user.
Proof.
  split; (rewrite (copyinstr_correct (build_of_kend RR) demo_pt _ _ demo_user [] demo_wf) by lia;
    f_equal; vm_compute; reflexivity).
Defined.

Lemma copyout_correct_witness :
  copyout demo_pt 10 [1; 2; 3] demo_user =
  Ret 0 (set_k_mem (put_bytes demo_mem (demo_page + 10) [1; 2; 3]) demo_user).
Proof.
  rewrite (copyout_correct (build_of_kend RR) demo_pt 10 [1; 2; 3] demo_user [] demo_wf demo_separate)
    by lia.
  reflexivity.
Defined.

Lemma copyout_copyin_roundtrip_witness :
  ∃ s', copyout demo_pt 10 [1; 2; 3] demo_user = Ret 0 s' ∧ copyin demo_pt 10 3 s' = Ret (0, [1; 2; 3]) s'.
Proof.
  exists (set_k_mem (put_bytes demo_mem (demo_page + 10) [1; 2; 3]) demo_user).
  assert (copyout demo_pt 10 [1; 2; 3] demo_user =
    Ret 0 (set_k_mem (put_bytes demo_mem (demo_page + 10) [1; 2; 3]) demo_user)) as Hc.
  { erewrite copyout_spec; [reflexivity|apply (build_of_kend RR)|apply demo_wf|apply demo_separate|lia]. }
  split; [exact Hc|].
  apply (copyout_copyin_roundtrip (build_of_kend RR) demo_pt 10 [1; 2; 3] demo_user [] _ demo_wf
    demo_separate demo_injective); [lia|done|repeat constructor; lia|exact Hc].
Defined.

Lemma mappages_correct_witness :
  ∃ r s' fl', mappages demo_pt 4096 4096 0x80200000 (Z.lor PTE_R PTE_U) demo_user = Ret r s' ∧
    pt_grow demo_pt demo_user s' [] fl' ∧ same_outside demo_mem (k_mem s') demo_pt 4096 1 ∧
    ((r = 0 ∧ mapped (k_mem s') demo_pt 4096 0x80200000 (Z.lor PTE_R PTE_U) 1) ∨ (r = -1 ∧ fl' = [])).
Proof.
  apply (mappages_correct (build_of_kend RR) demo_pt 4096 4096 0x80200000 (Z.lor PTE_R PTE_U) demo_user []);
    try done; [apply not_elem_of_nil|split; [done|constructor]|apply demo_wf|].
  intros k Hk. change (Z.of_nat _) with 1 in Hk. assert (k = 0) as -> by lia.
  cbn [demo_user set_k_mem k_mem]. by rewrite demo_leaf.
Defined.

Lemma demo_mappages :
  mappages demo_pt 4096 4096 0x80200000 (Z.lor PTE_R PTE_U) demo_user =
  Ret 0 (set_k_mem (st64 demo_mem (demo_pt0 + 8) (mkpte 0x80200000 (Z.lor PTE_R PTE_U))) demo_user).
Proof. reflexivity. Qed.

Lemma mappages_walkaddr_witness :
  ∃ s', mappages demo_pt 4096 4096 0x80200000 (Z.lor PTE_R PTE_U) demo_user = Ret 0 s' ∧
    walkaddr demo_pt 4096 s' = Ret 0x80200000 s'.
Proof.
  eexists. split; [exact demo_mappages|].
  eapply (mappages_walkaddr (build_of_kend RR) demo_pt 4096 0x80200000 (Z.lor PTE_R PTE_U) demo_user []);
    [apply not_elem_of_nil|split; [done|constructor]|apply demo_wf|lia|done|done|lia|done|done|done|done|
    |exact demo_mappages].
  cbn [demo_user set_k_mem k_mem]. by rewrite demo_leaf.
Defined.
