(* ===== verification/ProcTable.v ===== *)
(** * The process table

    The part of [kernel/proc.c] that works on the process table as it is:
    sleeping and waking, killing, accounting, giving up the CPU.  A [struct
    proc *] is an index into [proc]; [swtch] hands the state to the scheduler
    and continues from the state in which the thread is resumed. *)

From Stdlib Require Import ZArith Lia.
From S2P Require Import Prelude Machine Kernel Boot CString Printf Kalloc Vm.

Section proctable.
Context `{B : Build}.

(** ** The code *)

(** [for (p = proc; p < &proc[NPROC]; p++)] *)
Definition all_procs : list nat := seq 0 NPROC.

Definition procinit : M unit :=
  for_each all_procs (λ i,
    modp i (set_p_state UNUSED);;
    modp i (set_p_kstack (KSTACK (Z.of_nat i)))).

Definition allocpid : M Z :=
  acquire L_pid;;
  pid <- gets k_nextpid;;
  modify (set_k_nextpid (s32 (pid + 1)));;
  release L_pid;;
  ret pid.

(** [swtch(&old, &new)]: the registers of the thread are in its continuation. *)
Definition swtch : M unit := λ s, Swtch s (λ s', Ret tt s').

Definition sched : M unit :=
  i <- curproc;;
  h <- holding (L_proc i);;
  if negb h then panic "sched p->lock"
  else
    noff <- gets (λ s, length (k_held s));;
    if negb (Nat.eqb noff 1) then panic "sched locks"
    else
      p <- getp i;;
      if bool_decide (p_state p = RUNNING) then panic "sched running"
      else
        on <- intr_get;;
        if on : bool then panic "sched interruptible"
        else
          intena <- gets k_sie;;
          swtch;;
          modify (set_k_sie intena).

Definition yield : M unit :=
  i <- curproc;;
  acquire (L_proc i);;
  modp i (set_p_state RUNNABLE);;
  sched;;
  release (L_proc i).

Definition sleep (ch : chan) (lk : lock) : M unit :=
  i <- curproc;;
  acquire (L_proc i);;
  release lk;;
  modp i (set_p_chan ch);;
  modp i (set_p_state SLEEPING);;
  sched;;
  modp i (set_p_chan Ch_null);;
  release (L_proc i);;
  acquire lk.

Definition wakeup (ch : chan) : M unit :=
  for_each all_procs (λ i,
    me <- myproc;;
    when (negb (bool_decide (me = Some i)))
      (acquire (L_proc i);;
       p <- getp i;;
       when (bool_decide (p_state p = SLEEPING) && bool_decide (p_chan p = ch))%bool
         (modp i (set_p_state RUNNABLE));;
       release (L_proc i))).

Definition kill (pid : Z) : M Z :=
  r <- for_until all_procs (λ i,
    acquire (L_proc i);;
    p <- getp i;;
    if p_pid p =? pid then
      modp i (set_p_killed 1);;
      when (bool_decide (p_state p = SLEEPING)) (modp i (set_p_state RUNNABLE));;
      release (L_proc i);;
      ret (Some 0)
    else release (L_proc i);; ret None);;
  ret (default (-1) r).

Definition setkilled (i : nat) : M unit :=
  acquire (L_proc i);;
  modp i (set_p_killed 1);;
  release (L_proc i).

Definition killed (i : nat) : M Z :=
  acquire (L_proc i);;
  p <- getp i;;
  release (L_proc i);;
  ret (p_killed p).

(** The channel of a [struct proc *]: its address. *)
Definition chan_proc (o : option nat) : chan :=
  match o with Some i => Ch_proc i | None => Ch_null end.

Definition reparent (i : nat) : M unit :=
  for_each all_procs (λ j,
    pp <- getp j;;
    when (bool_decide (p_parent pp = Some i))
      (init <- gets k_initproc;;
       modp j (set_p_parent init);;
       wakeup (chan_proc init))).

Definition either_copyout (user_dst : bool) (dst : Z) (src : list Z) : M Z :=
  if user_dst then i <- curproc;; p <- getp i;; copyout (p_pagetable p) dst src
  else kput_bytes dst src;; ret 0.

Definition either_copyin (user_src : bool) (src len : Z) : M (Z * list Z) :=
  if user_src then i <- curproc;; p <- getp i;; copyin (p_pagetable p) src len
  else bs <- gets (λ s, get_bytes (k_mem s) src (Z.to_nat len));; ret (0, bs).

Definition mlfq_count (p : proc) (running : bool) : proc :=
  let d := p_mlfq_data p in
  set_p_mlfq_data (if running then set_mq_num_ticks (u32 (mq_num_ticks d + 1)) d
                   else set_mq_wtime (u32 (mq_wtime d + 1)) d) p.

Definition update_time : M unit :=
  for_each all_procs (λ i,
    acquire (L_proc i);;
    p <- getp i;;
    (if bool_decide (p_state p = RUNNING) then
       modp i (λ p, set_p_rtime (u32 (p_rtime p + 1)) p);;
       when (bool_decide (policy = MLFQ)) (modp i (λ p, mlfq_count p true))
     else
       when (bool_decide (policy = MLFQ) &&
             (bool_decide (p_state p = SLEEPING) || bool_decide (p_state p = RUNNABLE)))%bool
         (modp i (λ p, mlfq_count p false)));;
    release (L_proc i)).

Definition state_name (st : procstate) : string :=
  match st with
  | UNUSED => "unused"
  | USED => "used"
  | SLEEPING => "sleep "
  | RUNNABLE => "runble"
  | RUNNING => "run   "
  | ZOMBIE => "zombie"
  end.

(** The bytes of a C string up to its NUL. *)
Fixpoint cbytes (l : list Z) : list Z :=
  match l with
  | [] => []
  | c :: l' => if c =? 0 then [] else c :: cbytes l'
  end.

Definition procdump : M unit :=
  printf (String (Ascii.ascii_of_nat 10) EmptyString) [];;
  for_each all_procs (λ i,
    p <- getp i;;
    if bool_decide (p_state p = UNUSED) then ret tt
    else
      printf "%d %s %s" [A_int (p_pid p); A_str (Some (cstr (state_name (p_state p))));
                         A_str (Some (cbytes (p_name p)))];;
      printf (String (Ascii.ascii_of_nat 10) EmptyString) []).

(** ** Loops over the table *)

(** The state is well formed: the table has its size. *)
Definition table_ok (s : kstate) : Prop := length (k_procs s) = NPROC.

(** [g] applied to the entries from index [i] on. *)
Lemma for_each_range s body (g : nat → proc → proc) n i ps :
  (∀ j ps', (i ≤ j < i + n)%nat → length ps' = length ps →
     body j (set_k_procs ps' s) = Ret tt (set_k_procs (alter (g j) j ps') s)) →
  for_each (seq i n) body (set_k_procs ps s) =
  Ret tt (set_k_procs (imap (λ j p, if decide (i ≤ j < i + n)%nat then g j p else p) ps) s).
Proof.
  revert i ps. induction n as [|n IH]; intros i ps Hb.
  - simpl. do 2 f_equal. symmetry. apply list_eq. intros j. rewrite list_lookup_imap.
    destruct (ps !! j) as [p|]; simpl; [|done]. by rewrite decide_False by lia.
  - cbn [seq for_each]. erewrite bind_step by (apply Hb; [lia|done]).
    rewrite IH by (intros j ps' Hj Hl; rewrite length_alter in Hl; apply Hb; [lia|done]).
    do 2 f_equal. apply list_eq. intros j. rewrite !list_lookup_imap.
    destruct (decide (j = i)) as [->|Hne].
    + rewrite list_lookup_alter_eq. destruct (ps !! i) as [p|]; simpl; [|done].
      rewrite decide_False by lia. by rewrite decide_True by lia.
    + rewrite list_lookup_alter_ne by done. destruct (ps !! j) as [p|]; simpl; [|done].
      repeat case_decide; done || lia.
Qed.

Lemma set_procs_id s : set_k_procs (k_procs s) s = s.
Proof. by destruct s. Qed.

(** A loop whose body treats each process on its own maps over the table. *)
Lemma for_procs s body (g : nat → proc → proc) :
  table_ok s →
  (∀ i ps, (i < NPROC)%nat → length ps = NPROC →
     body i (set_k_procs ps s) = Ret tt (set_k_procs (alter (g i) i ps) s)) →
  for_each all_procs body s = Ret tt (set_k_procs (imap g (k_procs s)) s).
Proof.
  intros Ht Hb. rewrite <- (set_procs_id s) at 1. unfold all_procs.
  rewrite (for_each_range s body g) by (intros j ps' Hj Hl; apply Hb; [lia|by rewrite Hl]).
  do 2 f_equal. apply list_eq. intros j. rewrite !list_lookup_imap.
  destruct (k_procs s !! j) as [p|] eqn:E; simpl; [|done].
  apply lookup_lt_Some in E. by rewrite decide_True by (unfold table_ok in Ht; lia).
Qed.

Lemma getp_some i s p : k_procs s !! i = Some p → getp i s = Ret p s.
Proof. intros Hp. unfold getp. kstep. by rewrite Hp. Qed.

(** One process examined and changed under its lock. *)
Lemma locked_proc i (c : proc → bool) (f : proc → proc) s ps :
  L_proc i ∉ k_held s → (i < length ps)%nat →
  (acquire (L_proc i);; p <- getp i;; when (c p) (modp i f);; release (L_proc i)) (set_k_procs ps s) =
  Ret tt (set_k_procs (alter (λ p, if c p then f p else p) i ps) s).
Proof.
  intros Hh Hi. apply lookup_lt_is_Some in Hi as [p Hp].
  erewrite bind_step by (by apply acquire_free). kstep. simpl. rewrite Hp. simpl.
  assert (alter (λ p, if c p then f p else p) i ps = if c p then alter f i ps else ps) as ->.
  { destruct (c p) eqn:Ec.
    - apply list_alter_ext; [|done]. intros x Hx. simplify_eq. by rewrite Ec.
    - apply list_eq. intros j. destruct (decide (j = i)) as [->|]; [|by rewrite list_lookup_alter_ne].
      rewrite list_lookup_alter_eq, Hp. simpl. by rewrite Ec. }
  destruct (c p); simpl; erewrite release_held by done; keq.
Qed.

Definition no_proc_locks (s : kstate) : Prop := ∀ i, (i < NPROC)%nat → L_proc i ∉ k_held s.

(** ** Waking up *)

Definition wake_one (me : option nat) (ch : chan) (i : nat) (p : proc) : proc :=
  if (negb (bool_decide (me = Some i)) &&
      (bool_decide (p_state p = SLEEPING) && bool_decide (p_chan p = ch)))%bool
  then set_p_state RUNNABLE p else p.

Lemma list_alter_id {A} (f : A → A) i (l : list A) :
  (∀ x, l !! i = Some x → f x = x) → alter f i l = l.
Proof.
  intros H. apply list_eq. intros j. destruct (decide (j = i)) as [->|]; [|by rewrite list_lookup_alter_ne].
  rewrite list_lookup_alter_eq. destruct (l !! i) as [x|] eqn:E; simpl; [|done]. by rewrite H.
Qed.

Lemma list_alter_twice {A} (f g : A → A) i (l : list A) :
  alter f i (alter g i l) = alter (λ x, f (g x)) i l.
Proof.
  apply list_eq. intros j. destruct (decide (j = i)) as [->|].
  - rewrite !list_lookup_alter_eq. by destruct (l !! i).
  - by rewrite !list_lookup_alter_ne.
Qed.

Lemma alter_at {A} (f g : A → A) i (l : list A) x :
  l !! i = Some x → f x = g x → alter f i l = alter g i l.
Proof. intros Hx He. apply list_alter_ext; [|done]. intros y Hy. by simplify_eq. Qed.

Lemma wakeup_ok ch s :
  table_ok s → no_proc_locks s ∨ (∃ i, k_cur s = Some i ∧ ∀ j, (j < NPROC)%nat → j ≠ i → L_proc j ∉ k_held s) →
  wakeup ch s = Ret tt (set_k_procs (imap (wake_one (k_cur s) ch) (k_procs s)) s).
Proof.
  intros Ht Hl. apply for_procs; [done|]. intros i ps Hi Hps. unfold bind at 1, myproc, gets. cbn [rbind].
  cbn [k_cur set_k_procs]. case_bool_decide as Hc.
  - simpl. unfold ret. do 2 f_equal. symmetry. apply list_alter_id. intros p Hp. unfold wake_one.
    by rewrite bool_decide_true.
  - unfold when at 1. simpl negb. cbn iota. etrans; [apply locked_proc|].
    + destruct Hl as [Hl|(m & Hm & Hl)]; [by apply Hl|]. apply Hl; [done|]. congruence.
    + lia.
    + do 2 f_equal. apply list_alter_ext; [|done]. intros p Hp. unfold wake_one.
      by rewrite (bool_decide_false (k_cur s = Some i)).
Qed.

Lemma wake_one_parent me ch j p : p_parent (wake_one me ch j p) = p_parent p.
Proof. unfold wake_one. by case_match. Qed.

Lemma wake_one_pid me ch j p : p_pid (wake_one me ch j p) = p_pid p.
Proof. unfold wake_one. by case_match. Qed.

Lemma wake_one_idem me ch j p : wake_one me ch j (wake_one me ch j p) = wake_one me ch j p.
Proof.
  unfold wake_one at 2 3. destruct (_ && _)%bool eqn:E; unfold wake_one; simpl; [|by rewrite E].
  by rewrite andb_false_r.
Qed.

Lemma wake_one_set_parent me ch j x p :
  set_p_parent x (wake_one me ch j p) = wake_one me ch j (set_p_parent x p).
Proof. unfold wake_one. simpl. by case_match. Qed.

Lemma imap_wake_idem me ch l : imap (wake_one me ch) (imap (wake_one me ch) l) = imap (wake_one me ch) l.
Proof.
  apply list_eq. intros j. rewrite !list_lookup_imap. destruct (l !! j); [|done].
  simpl. by rewrite wake_one_idem.
Qed.

(** ** Killing *)

Definition kill_one (p : proc) : proc :=
  let p := set_p_killed 1 p in
  if bool_decide (p_state p = SLEEPING) then set_p_state RUNNABLE p else p.

(** A scan of the table that leaves at the first process satisfying [P]. *)
Lemma for_until_find {R} (P : proc → Prop) `{∀ p, Decision (P p)} s (body : nat → M (option R))
    (out : nat → proc → res (option R)) :
  (∀ i p, k_procs s !! i = Some p → ¬ P p → body i s = Ret None s) →
  (∀ i p, k_procs s !! i = Some p → P p → body i s = out i p ∧
     ∀ f, rbind (out i p) (λ r, match r with Some v => ret (Some v) | None => f end) = out i p) →
  table_ok s →
  for_until all_procs body s =
  match list_find P (k_procs s) with Some (i, p) => out i p | None => Ret None s end.
Proof.
  intros Hno Hyes Ht. unfold all_procs.
  assert (∀ n i, (i + n = NPROC)%nat → for_until (seq i n) body s =
    match list_find P (drop i (k_procs s)) with Some (j, p) => out (i + j)%nat p | None => Ret None s end)
    as Hgen; [|by rewrite (Hgen NPROC O)].
  intros n. induction n as [|n IH]; intros i Hi.
  { rewrite drop_ge by (unfold table_ok in Ht; lia). done. }
  destruct (k_procs s !! i) as [p|] eqn:Hp; [|apply lookup_ge_None in Hp; unfold table_ok in Ht; lia].
  rewrite (drop_S _ _ _ Hp). cbn [seq for_until list_find].
  destruct (decide (P p)) as [HP|HP].
  - destruct (Hyes i p Hp HP) as [Hb Ho]. unfold bind. rewrite Hb, Nat.add_0_r. apply Ho.
  - erewrite bind_step by (by eapply Hno). cbn beta iota. rewrite IH by lia.
    destruct (list_find P (drop (S i) (k_procs s))) as [[j q]|]; simpl; [|done].
    by rewrite Nat.add_succ_r.
Qed.

(** [kill] marks exactly the first process with the given pid, making it
    runnable if it sleeps, and returns 0; with no such process it returns -1 and
    changes nothing. *)
Theorem kill_correct pid s :
  table_ok s → no_proc_locks s →
  kill pid s = match list_find (λ p, p_pid p = pid) (k_procs s) with
               | Some (i, _) => Ret 0 (set_k_procs (alter kill_one i (k_procs s)) s)
               | None => Ret (-1) s
               end.
Proof.
  intros Ht Hl. unfold kill.
  assert (∀ i p, k_procs s !! i = Some p → L_proc i ∉ k_held s) as Hfree.
  { intros i p Hp. apply lookup_lt_Some in Hp. apply Hl. unfold table_ok in Ht. lia. }
  unfold bind at 1. erewrite (for_until_find (λ p, p_pid p = pid) s _
    (λ i _, Ret (Some 0) (set_k_procs (alter kill_one i (k_procs s)) s))); [|..|done].
  - destruct (list_find _ _) as [[i p]|]; done.
  - intros i p Hp Hne. erewrite bind_step by (apply acquire_free; by eapply Hfree). kstep. simpl.
    rewrite Hp. simpl. rewrite (proj2 (Z.eqb_neq _ _)) by done. erewrite release_held by done. keq.
  - intros i p Hp He. split; [|done]. erewrite bind_step by (apply acquire_free; by eapply Hfree).
    kstep. simpl. rewrite Hp. simpl. rewrite (proj2 (Z.eqb_eq _ _)) by done. simpl.
    assert (alter kill_one i (k_procs s) =
      if bool_decide (p_state p = SLEEPING)
      then alter (set_p_state RUNNABLE) i (alter (set_p_killed 1) i (k_procs s))
      else alter (set_p_killed 1) i (k_procs s)) as ->.
    { case_bool_decide as E; [rewrite list_alter_twice|]; apply list_alter_ext; try done;
        intros x Hx; simplify_eq; unfold kill_one; simpl;
        [by rewrite bool_decide_true|by rewrite bool_decide_false]. }
    case_bool_decide; simpl; erewrite release_held by done; keq.
Qed.

(** ** Accounting *)

Definition tick_one (p : proc) : proc :=
  if bool_decide (p_state p = RUNNING) then
    let p := set_p_rtime (u32 (p_rtime p + 1)) p in
    if bool_decide (policy = MLFQ) then mlfq_count p true else p
  else if (bool_decide (policy = MLFQ) &&
           (bool_decide (p_state p = SLEEPING) || bool_decide (p_state p = RUNNABLE)))%bool
  then mlfq_count p false else p.

Lemma update_time_ok s :
  table_ok s → no_proc_locks s →
  update_time s = Ret tt (set_k_procs (tick_one <$> k_procs s) s).
Proof.
  intros Ht Hl. unfold update_time. erewrite (for_procs s _ (const tick_one)); [by rewrite imap_const|done|].
  intros i ps Hi Hps. destruct (lookup_lt_is_Some_2 ps i ltac:(lia)) as [p Hp].
  erewrite bind_step by (apply acquire_free; by apply Hl). kstep. simpl. rewrite Hp. simpl.
  destruct (bool_decide (p_state p = RUNNING)) eqn:E1; [|destruct (_ && _)%bool eqn:E2]; simpl.
  - destruct (bool_decide (policy = MLFQ)) eqn:E2; simpl; erewrite release_held by done; simpl;
      rewrite ?list_alter_twice; erewrite (alter_at tick_one); [keq|done| |keq|done|];
      unfold tick_one, compose; by rewrite E1, E2.
  - erewrite release_held by done. erewrite (alter_at tick_one); [keq|done|].
    unfold tick_one. by rewrite E1, E2.
  - erewrite release_held by done. rewrite (list_alter_id tick_one); [keq|].
    intros x Hx. simplify_eq. unfold tick_one. by rewrite E1, E2.
Qed.

(** ** Giving up the CPU *)

(** What [sched] demands of its caller. *)
Definition sched_ready (s : kstate) (i : nat) (p : proc) : Prop :=
  k_cur s = Some i ∧ k_held s = [L_proc i] ∧ k_procs s !! i = Some p ∧ p_state p ≠ RUNNING.

Lemma sched_ok s i p :
  sched_ready s i p →
  sched s = Swtch s (λ s', Ret tt (set_k_sie (k_sie s) s')).
Proof.
  intros (Hc & Hh & Hp & Hst). unfold sched. kstep. rewrite Hc. cbn [rbind]. unfold holding, gets.
  rewrite bool_decide_true by (rewrite Hh; set_solver). cbn [rbind negb]. rewrite Hh. simpl. rewrite Hp.
  simpl. rewrite bool_decide_false by done. rewrite Hh, andb_false_r. done.
Qed.

(** [sched] switches away exactly when the current process holds its own
    lock and no other and is not marked running; in every other case it stops the
    kernel instead of switching with the wrong locks. *)
Theorem sched_guard s i p :
  k_cur s = Some i → k_procs s !! i = Some p → NoDup (k_held s) →
  (sched_ready s i p ∧ sched s = Swtch s (λ s', Ret tt (set_k_sie (k_sie s) s'))) ∨
  (¬ sched_ready s i p ∧
   ∃ msg, sched s = Panic msg ∧ msg ∈ ["sched p->lock"; "sched locks"; "sched running"]).
Proof.
  intros Hc Hp Hnd. unfold sched. kstep. rewrite Hc. cbn [rbind]. unfold holding, gets. cbn [rbind].
  case_bool_decide as Hh; cbn [negb].
  2: { right. split; [|eexists; split; [done|set_solver]]. intros (_ & E & _). rewrite E in Hh. set_solver. }
  cbn [rbind]. destruct (Nat.eqb_spec (length (k_held s)) 1) as [Hlen|Hlen]; cbn [negb].
  2: { right. split; [|eexists; split; [done|set_solver]]. intros (_ & E & _). by rewrite E in Hlen. }
  assert (k_held s = [L_proc i]) as E.
  { destruct (k_held s) as [|l [|]]; [done| |done].
    assert (l = L_proc i) as -> by set_solver. done. }
  rewrite Hp. cbn [rbind]. case_bool_decide as Hst.
  { right. split; [|eexists; split; [done|set_solver]]. by intros (_ & _ & E' & ?); simplify_eq. }
  left. split; [by split_and!|]. cbn [rbind]. unfold intr_get, gets. cbn [rbind].
  by rewrite E, andb_false_r.
Qed.

(** The state in which the scheduler is entered by [yield]. *)
Lemma yield_ok s i p :
  k_cur s = Some i → k_held s = [] → k_procs s !! i = Some p →
  yield s = Swtch (set_k_held [L_proc i] (set_k_procs (alter (set_p_state RUNNABLE) i (k_procs s)) s))
    (λ s', release (L_proc i) (set_k_sie (k_sie s) s')).
Proof.
  intros Hc Hh Hp. unfold yield. unfold curproc, myproc. kstep. rewrite Hc. cbn [rbind].
  rewrite acquire_free by (rewrite Hh; set_solver). cbn [rbind]. rewrite Hh.
  set (s1 := set_k_procs _ _).
  assert (s1 = set_k_held [L_proc i] (set_k_procs (alter (set_p_state RUNNABLE) i (k_procs s)) s)) as Hs1
    by (unfold s1; keq).
  rewrite (sched_ok s1 i (set_p_state RUNNABLE p)); [by rewrite Hs1|].
  rewrite Hs1. split_and!; simpl; [done..| |done]. by rewrite list_lookup_alter_eq, Hp.
Qed.

Lemma sleep_ok ch lk s i p :
  k_cur s = Some i → k_held s = [lk] → lk ≠ L_proc i → k_procs s !! i = Some p →
  sleep ch lk s =
  Swtch (set_k_held [L_proc i]
           (set_k_procs (alter (λ p, set_p_state SLEEPING (set_p_chan ch p)) i (k_procs s)) s))
    (λ s', (modp i (set_p_chan Ch_null);; release (L_proc i);; acquire lk) (set_k_sie (k_sie s) s')).
Proof.
  intros Hc Hh Hne Hp. unfold sleep. unfold curproc, myproc. kstep. rewrite Hc. cbn [rbind].
  rewrite acquire_free by (rewrite Hh; set_solver). cbn [rbind]. rewrite Hh.
  unfold release at 1. cbn [k_held set_k_held]. rewrite decide_True by set_solver.
  cbn [remove_lock]. rewrite decide_False, decide_True by done. cbn [rbind].
  set (s1 := set_k_procs _ _).
  assert (s1 = set_k_held [L_proc i]
    (set_k_procs (alter (λ p, set_p_state SLEEPING (set_p_chan ch p)) i (k_procs s)) s)) as Hs1.
  { unfold s1. cbn [k_procs set_k_procs set_k_held]. rewrite list_alter_twice. keq. }
  rewrite (sched_ok s1 i (set_p_state SLEEPING (set_p_chan ch p))); [by rewrite Hs1|].
  rewrite Hs1. split_and!; simpl; [done..| |done]. by rewrite list_lookup_alter_eq, Hp.
Qed.


(** [wakeup] makes runnable exactly the processes sleeping on the channel,
    other than the caller, and changes nothing else. *)
Theorem wakeup_exact ch s :
  table_ok s → no_proc_locks s →
  ∃ s', wakeup ch s = Ret tt s' ∧ s' = set_k_procs (k_procs s') s ∧ table_ok s' ∧
    ∀ i p, k_procs s !! i = Some p →
      k_procs s' !! i =
      Some (if decide (k_cur s ≠ Some i ∧ p_state p = SLEEPING ∧ p_chan p = ch)
            then set_p_state RUNNABLE p else p).
Proof.
  intros Ht Hl. eexists. split; [apply wakeup_ok; auto|]. split_and!.
  - keq.
  - unfold table_ok. simpl. by rewrite length_imap.
  - intros i p Hp. simpl. rewrite list_lookup_imap, Hp. simpl. f_equal. unfold wake_one.
    case_decide as H; repeat case_bool_decide; simpl; try done; exfalso; tauto.
Qed.

(** One clock tick adds one to the running time of exactly the running
    processes (modulo the width of [uint]) and, under MLFQ, to the slice used or
    the time waited in the queue; nothing else in the kernel changes. *)
Theorem update_time_correct s :
  table_ok s → no_proc_locks s →
  update_time s = Ret tt (set_k_procs (tick_one <$> k_procs s) s) ∧
  ∀ p, p_rtime (tick_one p) = (if decide (p_state p = RUNNING) then u32 (p_rtime p + 1) else p_rtime p) ∧
       p_state (tick_one p) = p_state p ∧ p_pid (tick_one p) = p_pid p.
Proof.
  intros Ht Hl. split; [by apply update_time_ok|]. intros p. unfold tick_one.
  case_decide as H; [rewrite bool_decide_true by done|rewrite bool_decide_false by done].
  - case_bool_decide; done.
  - by destruct (_ && _)%bool.
Qed.

End proctable.

(** ** The theorems at concrete states *)

#[local] Existing Instance build_rr.

(** Process 0, pid 3, is running; process 1, pid 7, sleeps on [&ticks]. *)
Definition demo_p0 : proc := set_p_pid 3 (set_p_state RUNNING zero_proc).
Definition demo_p1 : proc := set_p_pid 7 (set_p_chan Ch_ticks (set_p_state SLEEPING zero_proc)).
Definition demo_procs : kstate :=
  set_k_cur (Some 0%nat) (set_k_procs (demo_p0 :: demo_p1 :: replicate 62 zero_proc) bss).

Lemma demo_procs_ok : table_ok demo_procs.
Proof. reflexivity. Qed.

Lemma demo_procs_unlocked : no_proc_locks demo_procs.
Proof. intros i _. apply not_elem_of_nil. Qed.

Lemma kill_correct_witness :
  kill 7 demo_procs =
  Ret 0 (set_k_procs (demo_p0 :: set_p_state RUNNABLE (set_p_killed 1 demo_p1) :: replicate 62 zero_proc)
           demo_procs) ∧
  kill 99 demo_procs = Ret (-1) demo_procs.
Proof.
  split; rewrite (kill_correct _ demo_procs demo_procs_ok demo_procs_unlocked); reflexivity.
Defined.

Lemma sched_guard_witness :
  ¬ sched_ready demo_procs 0 demo_p0 ∧
  ∃ msg, sched demo_procs = Panic msg ∧ msg ∈ ["sched p->lock"; "sched locks"; "sched running"].
Proof.
  destruct (sched_guard demo_procs 0 demo_p0) as [[(_ & H & _) _]|H]; [done..|constructor|done|exact H].
Defined.

Definition demo_ticks : kstate := set_k_held [L_ticks] demo_procs.


Lemma wakeup_exact_witness :
  ∃ s', wakeup Ch_ticks demo_procs = Ret tt s' ∧
    k_procs s' !! 0%nat = Some demo_p0 ∧ k_procs s' !! 1%nat = Some (set_p_state RUNNABLE demo_p1).
Proof.
  destruct (wakeup_exact Ch_ticks demo_procs demo_procs_ok demo_procs_unlocked) as (s' & H & _ & _ & Hp).
  exists s'. split_and!; [done|by rewrite (Hp 0%nat demo_p0)|by rewrite (Hp 1%nat demo_p1)].
Defined.

Lemma update_time_correct_witness :
  update_time demo_procs =
  Ret tt (set_k_procs (set_p_rtime 1 demo_p0 :: demo_p1 :: replicate 62 zero_proc) demo_procs).
Proof.
  destruct (update_time_correct demo_procs demo_procs_ok demo_procs_unlocked) as [H _].
  rewrite H. reflexivity.
Defined.
