(* ===== verification/Seq.v ===== *)
(** * Running a kernel thread

    A thread that sleeps is switched out and resumed later in another state.
    [wpc env C r Q] runs [r] against an environment [env], the state in which the
    thread is resumed as a function of the state in which it was switched out: the
    thread returns a value and a state satisfying [Q], never panics, and at every
    switch the contents of the disk satisfy [C], both when the thread goes to sleep
    and when it is resumed.  Since only the device changes the disk, and only while
    a thread sleeps, [C] holds of every disk a crash can leave behind. *)

From Stdlib Require Import ZArith Lia.
From S2P Require Import Prelude Machine Kernel ProcTable.

Abbreviation diskmap := (gmap Z (list Z)).

Section wpc.
Context (env : kstate → kstate).

Fixpoint wpc {A} (C : diskmap → Prop) (r : res A) (Q : A → kstate → Prop) : Prop :=
  match r with
  | Ret a s => Q a s
  | Swtch s k => C (k_disk s) ∧ C (k_disk (env s)) ∧ wpc C (k (env s)) Q
  | Panic _ | Stuck => False
  end.

Lemma wpc_bind {A B} C (m : M A) (f : A → M B) s Q :
  wpc C (m s) (λ a s', wpc C (f a s') Q) → wpc C (bind m f s) Q.
Proof. unfold bind. induction (m s) as [a s'|msg|s' k IH|]; simpl; naive_solver. Qed.

Lemma wpc_mono {A} (C C' : diskmap → Prop) (r : res A) (Q Q' : A → kstate → Prop) :
  wpc C r Q → (∀ d, C d → C' d) → (∀ a s, Q a s → Q' a s) → wpc C' r Q'.
Proof. intros H HC HQ. induction r as [a s'|msg|s' k IH|]; simpl in *; naive_solver. Qed.

(** A step that does not switch. *)
Lemma wpc_step {A B} C (m : M A) (f : A → M B) s a s' Q :
  m s = Ret a s' → wpc C (f a s') Q → wpc C (bind m f s) Q.
Proof. intros Hm H. apply wpc_bind. by rewrite Hm. Qed.

Lemma wpc_last {A} C (m : M A) s a s' (Q : A → kstate → Prop) :
  m s = Ret a s' → Q a s' → wpc C (m s) Q.
Proof. by intros ->. Qed.

(** [wpc] says what the run returns: it is a run to the end. *)
Lemma wpc_returns {A} C (r : res A) Q : wpc C r Q → ∃ a s, Q a s.
Proof. induction r as [a s|msg|s k IH|]; simpl; naive_solver. Qed.

(** Iteration over a list, with an invariant on what is left. *)
Lemma wpc_for_each {A} C (body : A → M unit) (I : list A → list A → kstate → Prop) l s :
  I [] l s →
  (∀ pre x post s, l = pre ++ x :: post → I pre (x :: post) s →
     wpc C (body x s) (λ _ s', I (pre ++ [x]) post s')) →
  wpc C (for_each l body s) (λ _ s', I l [] s').
Proof.
  intros HI Hb.
  assert (∀ post pre s, l = pre ++ post → I pre post s →
    wpc C (for_each post body s) (λ _ s', I l [] s')) as H; [|by apply (H l [] s)].
  clear s HI. induction post as [|x post IH]; intros pre s Hl HI.
  - simpl. rewrite app_nil_r in Hl. by subst.
  - apply wpc_bind. eapply wpc_mono; [by apply (Hb pre x post)|done|].
    intros [] s' HI'. apply (IH (pre ++ [x])); [|done]. by rewrite <- app_assoc.
Qed.

(** A search over a list, with an invariant on what was searched. *)
Lemma wpc_for_until {A R} C (body : A → M (option R)) (I : list A → kstate → Prop) (Q : option R → kstate → Prop) l s :
  I [] s →
  (∀ pre x post s, l = pre ++ x :: post → I pre s →
     wpc C (body x s) (λ o s', match o with Some r => Q (Some r) s' | None => I (pre ++ [x]) s' end)) →
  (∀ s, I l s → Q None s) →
  wpc C (for_until l body s) Q.
Proof.
  intros HI Hb HQ.
  assert (∀ post pre s, l = pre ++ post → I pre s → wpc C (for_until post body s) Q) as H; [|by apply (H l [] s)].
  clear s HI. induction post as [|x post IH]; intros pre s Hl HI.
  - simpl. rewrite app_nil_r in Hl. subst. by apply HQ.
  - apply wpc_bind. eapply wpc_mono; [by apply (Hb pre x post)|done|].
    intros [r|] s' H; [done|]. apply (IH (pre ++ [x])); [|done]. by rewrite <- app_assoc.
Qed.

End wpc.

(** The running process [me] between two kernel operations: it holds no
    spin-lock. *)
Record thread (me : nat) (pid : Z) (s : kstate) : Prop := {
  th_cur : k_cur s = Some me;
  th_held : k_held s = [];
  th_table : table_ok s;
  th_proc : ∃ p, k_procs s !! me = Some p ∧ p_pid p = pid ∧ p_state p = RUNNING
}.

(** What the file-system code below the inode layer can change. *)
Definition disk_frame (s s' : kstate) : Prop :=
  s' = set_k_procs (k_procs s') (set_k_bufs (k_bufs s') (set_k_disk (k_disk s') (set_k_vd (k_vd s') s))).

Lemma disk_frame_refl s : disk_frame s s.
Proof. by destruct s. Qed.

Lemma disk_frame_trans s1 s2 s3 : disk_frame s1 s2 → disk_frame s2 s3 → disk_frame s1 s3.
Proof. unfold disk_frame. intros H1 H2. rewrite H2, H1. done. Qed.

(** What the code of a file-system operation can change below the inode layer:
    the log's list of blocks too. *)
Definition fs_frame (s s' : kstate) : Prop :=
  s' = set_k_procs (k_procs s') (set_k_bufs (k_bufs s') (set_k_disk (k_disk s') (set_k_vd (k_vd s')
         (set_k_log (k_log s') s)))).

Lemma fs_frame_refl s : fs_frame s s.
Proof. by destruct s. Qed.

Lemma fs_frame_trans s1 s2 s3 : fs_frame s1 s2 → fs_frame s2 s3 → fs_frame s1 s3.
Proof. unfold fs_frame. intros H1 H2. rewrite H2, H1. done. Qed.

Lemma fs_frame_disk s s' : disk_frame s s' → fs_frame s s'.
Proof. unfold disk_frame, fs_frame. intros ->. done. Qed.
