(* ===== verification/Sleeplock.v ===== *)
(** * Sleep-locks

    [kernel/sleeplock.c].  A sleep-lock is a field of a buffer or of an inode;
    [L_sleep l] is the spin-lock inside it.  [fuel] bounds the number of times a
    waiter is woken to find the lock taken again. *)

From Stdlib Require Import ZArith Lia.
From S2P Require Import Prelude Machine Kernel Boot Kalloc Vm ProcTable Seq.

Section sleeplock.
Context `{B : Build}.

Definition getsl (l : sleepid) : M sleeplock :=
  match l with
  | S_buf i => b <- getb i;; ret (b_lock b)
  | S_inode i => x <- geti i;; ret (i_lock x)
  end.

Definition modsl (l : sleepid) (f : sleeplock → sleeplock) : M unit :=
  match l with
  | S_buf i => modb i (λ b, set_b_lock (f (b_lock b)) b)
  | S_inode i => modi i (λ x, set_i_lock (f (i_lock x)) x)
  end.

Definition initsleeplock (l : sleepid) : M unit :=
  modsl l (set_sl_locked 0);;
  modsl l (set_sl_pid 0).

Fixpoint acquiresleep_loop (fuel : nat) (l : sleepid) : M unit :=
  match fuel with
  | O => stuck
  | S f =>
      sl <- getsl l;;
      if truthy (sl_locked sl)
      then sleep (Ch_sleeplock l) (L_sleep l);; acquiresleep_loop f l
      else ret tt
  end.

Definition acquiresleep (fuel : nat) (l : sleepid) : M unit :=
  acquire (L_sleep l);;
  acquiresleep_loop fuel l;;
  modsl l (set_sl_locked 1);;
  i <- curproc;;
  p <- getp i;;
  modsl l (set_sl_pid (p_pid p));;
  release (L_sleep l).

Definition releasesleep (l : sleepid) : M unit :=
  acquire (L_sleep l);;
  modsl l (set_sl_locked 0);;
  modsl l (set_sl_pid 0);;
  wakeup (Ch_sleeplock l);;
  release (L_sleep l).

Definition holdingsleep (l : sleepid) : M bool :=
  acquire (L_sleep l);;
  sl <- getsl l;;
  i <- curproc;;
  p <- getp i;;
  let r := (truthy (sl_locked sl) && (sl_pid sl =? p_pid p))%bool in
  release (L_sleep l);;
  ret r.

(** ** The lock as a part of the state *)

Definition sl_of (l : sleepid) (s : kstate) : option sleeplock :=
  match l with
  | S_buf i => b_lock <$> k_bufs s !! i
  | S_inode i => i_lock <$> k_itable s !! i
  end.

Definition upd_sl (l : sleepid) (x : sleeplock) (s : kstate) : kstate :=
  match l with
  | S_buf i => set_k_bufs (alter (set_b_lock x) i (k_bufs s)) s
  | S_inode i => set_k_itable (alter (set_i_lock x) i (k_itable s)) s
  end.

Lemma getsl_ok l s x : sl_of l s = Some x → getsl l s = Ret x s.
Proof.
  destruct l as [i|i]; simpl; kstep; intros H; apply fmap_Some in H as (y & Hy & ->); by rewrite Hy.
Qed.

Lemma upd_sl_of l s x y : sl_of l s = Some y → sl_of l (upd_sl l x s) = Some x.
Proof.
  destruct l as [i|i]; simpl; rewrite list_lookup_alter_eq; intros H;
    apply fmap_Some in H as (z & Hz & _); by rewrite Hz.
Qed.

(** The two stores that set both fields, with any lookup between them. *)
Lemma modsl_ok l f s y : sl_of l s = Some y → modsl l f s = Ret tt (upd_sl l (f y) s).
Proof.
  destruct l as [i|i]; simpl; kstep; intros H; apply fmap_Some in H as (z & Hz & ->); do 2 f_equal;
    by apply list_alter_ext; [intros ? ?; simplify_eq|].
Qed.

Lemma upd_sl_twice l x x' s : upd_sl l x (upd_sl l x' s) = upd_sl l x s.
Proof.
  destruct l as [i|i]; simpl; rewrite list_alter_twice; done.
Qed.

Lemma upd_sl_held l x h s : upd_sl l x (set_k_held h s) = set_k_held h (upd_sl l x s).
Proof. by destruct l. Qed.

Lemma sl_of_held l h s : sl_of l (set_k_held h s) = sl_of l s.
Proof. by destruct l. Qed.

Lemma upd_sl_frame l x s :
  k_held (upd_sl l x s) = k_held s ∧ k_cur (upd_sl l x s) = k_cur s ∧ k_procs (upd_sl l x s) = k_procs s.
Proof. by destruct l. Qed.

(** A wake-up does not touch the thread that calls it. *)
Lemma wake_one_me me ch p : wake_one (Some me) ch me p = p.
Proof. unfold wake_one. by rewrite bool_decide_true. Qed.

Lemma thread_locks me pid s : thread me pid s → no_proc_locks s.
Proof. intros H i _. rewrite (th_held _ _ _ H). set_solver. Qed.

Lemma thread_ext me pid s s' :
  thread me pid s → k_cur s' = k_cur s → k_held s' = k_held s → k_procs s' = k_procs s → thread me pid s'.
Proof. intros [] Hc Hh Hp. split; unfold table_ok in *; rewrite ?Hc, ?Hh, ?Hp; done. Qed.

Lemma thread_wakeup me pid ch s :
  thread me pid s → thread me pid (set_k_procs (imap (wake_one (Some me) ch) (k_procs s)) s).
Proof.
  intros [Hc Hh Ht (p & Hp & Hpid)]. split; simpl; try done.
  - unfold table_ok in *. simpl. by rewrite length_imap.
  - exists p. rewrite list_lookup_imap, Hp. simpl. by rewrite wake_one_me.
Qed.

Lemma holdingsleep_ok l me pid s x :
  thread me pid s → sl_of l s = Some x →
  holdingsleep l s = Ret (truthy (sl_locked x) && (sl_pid x =? pid))%bool s.
Proof.
  intros Hth Hx. destruct Hth as [Hc Hh Ht (p & Hp & Hpid & Hr)]. unfold holdingsleep.
  erewrite bind_step by (apply acquire_free; rewrite Hh; set_solver).
  erewrite bind_step by (apply getsl_ok; by rewrite sl_of_held). kstep. simpl. rewrite Hc. simpl.
  rewrite Hp. simpl. erewrite release_held by done. simpl. rewrite Hpid. destruct s; simpl in *; by subst.
Qed.

(** Taking a free sleep-lock, under other spin-locks. *)
Lemma acquiresleep_under fuel l me pid h s x :
  thread me pid s → L_sleep l ∉ h → sl_of l s = Some x → sl_locked x = 0 → (0 < fuel)%nat →
  acquiresleep fuel l (set_k_held h s) = Ret tt (set_k_held h (upd_sl l (mk_sl 1 pid) s)).
Proof.
  intros [Hc Hh Ht (p & Hp & Hpid & Hr)] Hlh Hx Hl Hf. unfold acquiresleep.
  erewrite bind_step by (by apply acquire_free). cbn [k_held set_k_held].
  change (set_k_held (L_sleep l :: h) (set_k_held h s)) with (set_k_held (L_sleep l :: h) s).
  destruct fuel as [|f]; [lia|]. cbn [acquiresleep_loop].
  erewrite bind_step.
  2: { erewrite bind_step by (apply getsl_ok; by rewrite sl_of_held). by rewrite Hl. }
  erewrite bind_step by (apply modsl_ok; by rewrite sl_of_held).
  destruct (upd_sl_frame l (set_sl_locked 1 x) (set_k_held (L_sleep l :: h) s)) as (Eh & Ec & Ep).
  erewrite bind_step by (unfold curproc, myproc; kstep; by rewrite Ec; simpl; rewrite Hc).
  erewrite bind_step by (apply getp_some; by rewrite Ep).
  erewrite bind_step by (apply modsl_ok; eapply upd_sl_of; by rewrite sl_of_held).
  rewrite upd_sl_twice, upd_sl_held. erewrite release_held by done.
  rewrite Hpid. unfold set_sl_pid, set_sl_locked. by destruct l.
Qed.

Lemma acquiresleep_free fuel l me pid s x :
  thread me pid s → sl_of l s = Some x → sl_locked x = 0 → (0 < fuel)%nat →
  acquiresleep fuel l s = Ret tt (upd_sl l (mk_sl 1 pid) s).
Proof.
  intros Hth Hx Hl Hf. pose proof (acquiresleep_under fuel l me pid [] s x Hth ltac:(set_solver) Hx Hl Hf) as H.
  rewrite <- upd_sl_held in H. rewrite <- (th_held _ _ _ Hth) in H.
  by replace (set_k_held (k_held s) s) with s in H by (by destruct s).
Qed.

Lemma releasesleep_ok l me pid s x :
  thread me pid s → sl_of l s = Some x →
  releasesleep l s =
  Ret tt (set_k_procs (imap (wake_one (Some me) (Ch_sleeplock l)) (k_procs s)) (upd_sl l (mk_sl 0 0) s)).
Proof.
  intros Hth Hx. pose proof Hth as [Hc Hh Ht _]. unfold releasesleep.
  erewrite bind_step by (apply acquire_free; rewrite Hh; set_solver). rewrite Hh.
  erewrite bind_step by (apply modsl_ok; by rewrite sl_of_held).
  erewrite bind_step by (apply modsl_ok; eapply upd_sl_of; by rewrite sl_of_held).
  rewrite upd_sl_twice, upd_sl_held. destruct (upd_sl_frame l (set_sl_pid 0 (set_sl_locked 0 x)) s) as (Eh & Ec & Ep).
  erewrite bind_step by (apply wakeup_ok; [unfold table_ok; simpl; by rewrite Ep|
    left; intros i _; simpl; set_solver]).
  erewrite release_held by done. simpl. rewrite Ec, Ep, Hc. destruct l; simpl; by destruct s; simpl in *; subst.
Qed.

End sleeplock.
