(* ===== verification/Virtio.v ===== *)
(** * The disk driver

    [kernel/virtio_disk.c]: the descriptor table, the two rings shared with the
    device, and the request a thread sleeps on.  The device itself is not part of
    the repository: it is the interface [Device], whose law is the behaviour the
    virtio specification documents for one pending request.  [fuel] bounds the
    number of times a thread waits for descriptors or for its request. *)

From Stdlib Require Import ZArith Lia.
From S2P Require Import Prelude Machine Kernel Boot Kalloc Vm ProcTable Seq Sleeplock.

(** ** The device *)

(** The effect of serving the request with head [id]: the entry of the used ring,
    the index and the status byte. *)
Definition served (id : Z) (v : vdisk) : vdisk :=
  set_vd_info (alter (set_in_status 0) (Z.to_nat id) (vd_info v))
    (set_vd_used_at (u16 (vd_used_at v + 1))
      (set_vd_used_ring (<[Z.to_nat (vd_used_at v mod 8) := id]> (vd_used_ring v)) v)).

(** A block device: with one well-formed request pending (a chain of header, data
    and status descriptors in the available ring), it moves the block between the
    disk and the data buffer, writes a zero status byte, and adds the head of the
    chain to the used ring.  It touches nothing else. *)
Class Device := {
  device : kstate → kstate;
  device_serves s id b i1 i2 (write : bool) sector blk bf :
    let v := k_vd s in
    vd_avail_idx v = u16 (vd_used_at v + 1) →
    vd_avail_ring v !! Z.to_nat (vd_used_at v mod 8) = Some id →
    vd_desc v !! Z.to_nat id = Some (mk_desc (D_op (Z.to_nat id)) 16 VRING_DESC_F_NEXT i1) →
    vd_desc v !! Z.to_nat i1 = Some (mk_desc (D_data b) BSIZE
      (Z.lor (if write then 0 else VRING_DESC_F_WRITE) VRING_DESC_F_NEXT) i2) →
    vd_desc v !! Z.to_nat i2 = Some (mk_desc (D_status (Z.to_nat id)) 1 VRING_DESC_F_WRITE 0) →
    vd_ops v !! Z.to_nat id = Some (mk_req (if write then VIRTIO_BLK_T_OUT else VIRTIO_BLK_T_IN) 0 (2 * sector)) →
    k_disk s !! sector = Some blk → k_bufs s !! b = Some bf →
    device s = set_k_vd (served id v)
      (if write then set_k_disk (<[sector := b_data bf]> (k_disk s)) s
       else set_k_bufs (alter (set_b_data blk) b (k_bufs s)) s)
}.
Section virtio.
Context `{B : Build}.

Definition modvd (f : vdisk → vdisk) : M unit := modify (λ s, set_k_vd (f (k_vd s)) s).

Definition alloc_desc : M Z :=
  r <- for_until (seq 0 NUM) (λ i,
         fr <- gets (λ s, default 0 (vd_free (k_vd s) !! i));;
         if truthy fr
         then modvd (λ v, set_vd_free (<[i := 0]> (vd_free v)) v);; ret (Some (Z.of_nat i))
         else ret None);;
  ret (default (-1) r).

Definition free_desc (i : Z) : M unit :=
  if Z.of_nat NUM <=? i then panic "free_desc 1"
  else
    fr <- gets (λ s, default 0 (vd_free (k_vd s) !! Z.to_nat i));;
    if truthy fr then panic "free_desc 2"
    else
      modvd (λ v, set_vd_desc (<[Z.to_nat i := mk_desc D_null 0 0 0]> (vd_desc v)) v);;
      modvd (λ v, set_vd_free (<[Z.to_nat i := 1]> (vd_free v)) v);;
      wakeup Ch_disk_free.

Definition getdesc (i : Z) : M virtq_desc :=
  d <- gets (λ s, vd_desc (k_vd s) !! Z.to_nat i);; unwrap d.

(** [free_desc] panics at a descriptor that is already free, so [S NUM] steps
    are enough. *)
Fixpoint free_chain_loop (fuel : nat) (i : Z) : M unit :=
  match fuel with
  | O => stuck
  | S f =>
      d <- getdesc i;;
      free_desc i;;
      if truthy (Z.land (d_flags d) VRING_DESC_F_NEXT)
      then free_chain_loop f (d_next d)
      else ret tt
  end.

Definition free_chain (i : Z) : M unit := free_chain_loop (S NUM) i.

Fixpoint alloc3_loop (k : nat) (idx : list Z) : M (Z * list Z) :=
  match k with
  | O => ret (0, idx)
  | S k' =>
      i <- alloc_desc;;
      if i <? 0 then for_each idx free_desc;; ret (-1, idx)
      else alloc3_loop k' (idx ++ [i])
  end.

Definition alloc3_desc : M (Z * list Z) := alloc3_loop 3 [].

Fixpoint rw_alloc (fuel : nat) : M (list Z) :=
  match fuel with
  | O => stuck
  | S f =>
      r <- alloc3_desc;;
      if r.1 =? 0 then ret r.2
      else sleep Ch_disk_free L_vdisk;; rw_alloc f
  end.

Definition set_desc (i : Z) (d : virtq_desc) : M unit :=
  modvd (λ v, set_vd_desc (<[Z.to_nat i := d]> (vd_desc v)) v).
Definition set_info (i : Z) (f : vinfo → vinfo) : M unit :=
  modvd (λ v, set_vd_info (alter f (Z.to_nat i) (vd_info v)) v).

(** The three descriptors of a request, the book-keeping for the interrupt
    handler, and the hand-over to the device. *)
Definition rw_submit (b : nat) (write : bool) (sector i0 i1 i2 : Z) : M unit :=
  modvd (λ v, set_vd_ops (<[Z.to_nat i0 :=
    mk_req (if write then VIRTIO_BLK_T_OUT else VIRTIO_BLK_T_IN) 0 sector]> (vd_ops v)) v);;
  set_desc i0 (mk_desc (D_op (Z.to_nat i0)) 16 VRING_DESC_F_NEXT i1);;
  set_desc i1 (mk_desc (D_data b) BSIZE
    (Z.lor (if write then 0 else VRING_DESC_F_WRITE) VRING_DESC_F_NEXT) i2);;
  set_info i0 (set_in_status 0xff);;
  set_desc i2 (mk_desc (D_status (Z.to_nat i0)) 1 VRING_DESC_F_WRITE 0);;
  modb b (set_b_disk 1);;
  set_info i0 (set_in_b (Some b));;
  modvd (λ v, set_vd_avail_ring
    (<[Z.to_nat (vd_avail_idx v mod Z.of_nat NUM) := i0]> (vd_avail_ring v)) v);;
  modvd (λ v, set_vd_avail_idx (u16 (vd_avail_idx v + 1)) v).

Fixpoint rw_wait (fuel : nat) (b : nat) : M unit :=
  match fuel with
  | O => stuck
  | S f =>
      bf <- getb b;;
      if b_disk bf =? 1 then sleep (Ch_buf b) L_vdisk;; rw_wait f b
      else ret tt
  end.

Definition virtio_disk_rw (fuel : nat) (b : nat) (write : bool) : M unit :=
  bf <- getb b;;
  let sector := u32 (b_blockno bf * (BSIZE / 512)) in
  acquire L_vdisk;;
  idx <- rw_alloc fuel;;
  let i0 := nth 0 idx 0 in
  rw_submit b write sector i0 (nth 1 idx 0) (nth 2 idx 0);;
  rw_wait fuel b;;
  set_info i0 (set_in_b None);;
  free_chain i0;;
  release L_vdisk.

Fixpoint intr_loop (fuel : nat) : M unit :=
  match fuel with
  | O => stuck
  | S f =>
      v <- gets k_vd;;
      if vd_used_idx v =? vd_used_at v then ret tt
      else
        id <- unwrap (vd_used_ring v !! Z.to_nat (vd_used_idx v mod Z.of_nat NUM));;
        info <- unwrap (vd_info v !! Z.to_nat id);;
        if truthy (in_status info) then panic "virtio_disk_intr status"
        else
          b <- unwrap (in_b info);;
          modb b (set_b_disk 0);;
          wakeup (Ch_buf b);;
          modvd (λ v, set_vd_used_idx (u16 (vd_used_idx v + 1)) v);;
          intr_loop f
  end.

(** One iteration per entry the device has added to the used ring. *)
Definition virtio_disk_intr : M unit :=
  acquire L_vdisk;;
  v <- gets k_vd;;
  intr_loop (S (Z.to_nat (u16 (vd_used_at v - vd_used_idx v))));;
  release L_vdisk.

(** ** The interrupt handler *)

Lemma intr_loop_done f s :
  vd_used_idx (k_vd s) = vd_used_at (k_vd s) → intr_loop (S f) s = Ret tt s.
Proof. intros H. cbn [intr_loop]. unfold bind, gets. cbn [rbind]. by rewrite H, Z.eqb_refl. Qed.

Lemma intr_loop_one f s id b :
  let v := k_vd s in
  no_proc_locks s → table_ok s → vd_used_idx v ≠ vd_used_at v →
  vd_used_ring v !! Z.to_nat (vd_used_idx v mod 8) = Some id →
  vd_info v !! Z.to_nat id = Some (mk_info (Some b) 0) →
  intr_loop (S f) s = intr_loop f
    (set_k_vd (set_vd_used_idx (u16 (vd_used_idx v + 1)) v)
      (set_k_procs (imap (wake_one (k_cur s) (Ch_buf b)) (k_procs s))
        (set_k_bufs (alter (set_b_disk 0) b (k_bufs s)) s))).
Proof.
  intros v Hl Ht Hne Hring Hinfo. cbn [intr_loop]. unfold bind at 1, gets. cbn [rbind]. fold v.
  rewrite (proj2 (Z.eqb_neq _ _)) by done. change (Z.of_nat NUM) with 8. rewrite Hring.
  erewrite bind_step by done. rewrite Hinfo. erewrite bind_step by done. cbn [in_status in_b].
  change (truthy 0) with false. cbn iota.
  erewrite bind_step by done. erewrite bind_step by done.
  erewrite bind_step by (apply wakeup_ok; [done|by left]). done.
Qed.

Lemma intr_ok s id b :
  let v := k_vd s in
  k_held s = [] → table_ok s → 0 ≤ vd_used_idx v < 65536 → vd_used_at v = u16 (vd_used_idx v + 1) →
  vd_used_ring v !! Z.to_nat (vd_used_idx v mod 8) = Some id →
  vd_info v !! Z.to_nat id = Some (mk_info (Some b) 0) →
  virtio_disk_intr s =
  Ret tt (set_k_vd (set_vd_used_idx (vd_used_at v) v)
    (set_k_procs (imap (wake_one (k_cur s) (Ch_buf b)) (k_procs s))
      (set_k_bufs (alter (set_b_disk 0) b (k_bufs s)) s))).
Proof.
  intros v Hh Ht Hr Hu Hring Hinfo. unfold virtio_disk_intr.
  erewrite bind_step by (apply acquire_free; rewrite Hh; set_solver). rewrite Hh.
  erewrite bind_step by done. cbn [k_vd set_k_held]. fold v.
  assert (u16 (vd_used_at v - vd_used_idx v) = 1) as ->.
  { rewrite Hu. unfold u16. rewrite Zminus_mod_idemp_l.
    by replace (vd_used_idx v + 1 - vd_used_idx v) with 1 by lia. }
  assert (vd_used_idx v ≠ vd_used_at v) as Hne.
  { rewrite Hu. unfold u16. destruct (Z.eq_dec (vd_used_idx v) 65535) as [->|]; [done|].
    rewrite Z.mod_small by lia. lia. }
  change (S (Z.to_nat 1)) with 2%nat. erewrite bind_step.
  2: { erewrite (intr_loop_one 1 (set_k_held [L_vdisk] s) id b); [apply intr_loop_done|..]; try done.
       intros i _. simpl. set_solver. }
  erewrite release_held by done. apply ret_eq. cbn [k_vd set_k_held]. fold v. rewrite <- Hu.
  destruct s. simpl in *. by subst.
Qed.

(** ** The environment of a thread that waits for the disk

    The scheduler releases its lock, the device serves the request and raises its
    interrupt, the handler runs, and the scheduler finds the thread runnable and
    switches to it.  No other process runs in between. *)

Context `{D : Device}.

Definition disk_wait (me : nat) : M unit :=
  modify (set_k_cur None);;
  release (L_proc me);;
  modify device;;
  virtio_disk_intr;;
  acquire (L_proc me);;
  p <- getp me;;
  if bool_decide (p_state p = RUNNABLE)
  then modp me (set_p_state RUNNING);; modify (set_k_cur (Some me))
  else stuck.

Definition disk_env (me : nat) (s : kstate) : kstate :=
  match disk_wait me s with Ret _ s' => s' | _ => s end.

(** No request is in flight. *)
Record vd_idle (v : vdisk) : Prop := {
  vi_desc : length (vd_desc v) = NUM;
  vi_avail : length (vd_avail_ring v) = NUM;
  vi_used : length (vd_used_ring v) = NUM;
  vi_info : length (vd_info v) = NUM;
  vi_ops : length (vd_ops v) = NUM;
  vi_free : vd_free v = replicate NUM 1;
  vi_idx : 0 ≤ vd_used_idx v < 65536;
  vi_at : vd_used_at v = vd_used_idx v;
  vi_avail_idx : vd_avail_idx v = vd_used_idx v
}.

Lemma alloc3_ok s :
  vd_free (k_vd s) = replicate NUM 1 →
  alloc3_desc s = Ret (0, [0; 1; 2]) (set_k_vd (set_vd_free [0; 0; 0; 1; 1; 1; 1; 1] (k_vd s)) s).
Proof. intros H. destruct s as [m fl kp h sie cur ps np ip tk tf pp rc ft it bf lg sb dk cn ut o cs [? ? ? ? ? fr ? ? ?]]. simpl in H. subst fr. reflexivity. Qed.

(** The driver's data when the request has been handed over. *)
Definition submitted (b : nat) (write : bool) (sector : Z) (v : vdisk) : vdisk :=
  mk_vd (<[2%nat := mk_desc (D_status 0) 1 VRING_DESC_F_WRITE 0]>
          (<[1%nat := mk_desc (D_data b) BSIZE (Z.lor (if write then 0 else VRING_DESC_F_WRITE) VRING_DESC_F_NEXT) 2]>
            (<[0%nat := mk_desc (D_op 0) 16 VRING_DESC_F_NEXT 1]> (vd_desc v))))
    (<[Z.to_nat (vd_avail_idx v mod 8) := 0]> (vd_avail_ring v)) (u16 (vd_avail_idx v + 1))
    (vd_used_ring v) (vd_used_at v) (vd_free v) (vd_used_idx v)
    (alter (λ _, mk_info (Some b) 0xff) 0%nat (vd_info v))
    (<[0%nat := mk_req (if write then VIRTIO_BLK_T_OUT else VIRTIO_BLK_T_IN) 0 sector]> (vd_ops v)).

Lemma submit_ok b write sector s :
  rw_submit b write sector 0 1 2 s =
  Ret tt (set_k_vd (submitted b write sector (k_vd s)) (set_k_bufs (alter (set_b_disk 1) b (k_bufs s)) s)).
Proof.
  unfold rw_submit, set_desc, set_info, modvd. kstep. apply ret_eq.
  destruct s as [m fl kp h sie cur ps np ip tk tf pp rc ft it bf lg sb dk cn ut o cs v].
  unfold submitted. simpl. by rewrite list_alter_twice.
Qed.

Lemma free_desc_ok i s :
  table_ok s → no_proc_locks s → 0 ≤ i < 8 → vd_free (k_vd s) !! Z.to_nat i = Some 0 →
  free_desc i s = Ret tt (set_k_procs (imap (wake_one (k_cur s) Ch_disk_free) (k_procs s))
    (set_k_vd (set_vd_free (<[Z.to_nat i := 1]> (vd_free (k_vd s)))
      (set_vd_desc (<[Z.to_nat i := mk_desc D_null 0 0 0]> (vd_desc (k_vd s))) (k_vd s))) s)).
Proof.
  intros Ht Hl Hi Hf. unfold free_desc. change (Z.of_nat NUM) with 8.
  destruct (Z.leb_spec 8 i); [lia|]. erewrite bind_step by done. rewrite Hf.
  change (truthy (default 0 (Some 0))) with false. cbn iota. erewrite bind_step by done. erewrite bind_step by done.
  rewrite wakeup_ok by (try (by left); done). done.
Qed.


Definition freed (i : nat) (s : kstate) : kstate :=
  set_k_procs (imap (wake_one (k_cur s) Ch_disk_free) (k_procs s))
    (set_k_vd (set_vd_free (<[i := 1]> (vd_free (k_vd s)))
      (set_vd_desc (<[i := mk_desc D_null 0 0 0]> (vd_desc (k_vd s))) (k_vd s))) s).

Lemma free_chain_step f (i : nat) d s :
  table_ok s → no_proc_locks s → (i < 8)%nat → vd_free (k_vd s) !! i = Some 0 →
  vd_desc (k_vd s) !! i = Some d →
  free_chain_loop (S f) (Z.of_nat i) s =
  (if truthy (Z.land (d_flags d) VRING_DESC_F_NEXT) then free_chain_loop f (d_next d) else ret tt) (freed i s).
Proof.
  intros Ht Hl Hi Hf Hd. cbn [free_chain_loop].
  erewrite bind_step by (unfold getdesc; kstep; by rewrite Nat2Z.id, Hd).
  erewrite bind_step by (apply free_desc_ok; [done..|lia|by rewrite Nat2Z.id]).
  by rewrite Nat2Z.id.
Qed.

(** The chain of a request is freed. *)
Lemma free_chain_ok s d0 d1 d2 :
  table_ok s → no_proc_locks s →
  vd_free (k_vd s) = [0; 0; 0; 1; 1; 1; 1; 1] →
  vd_desc (k_vd s) !! 0%nat = Some d0 → vd_desc (k_vd s) !! 1%nat = Some d1 →
  vd_desc (k_vd s) !! 2%nat = Some d2 →
  Z.land (d_flags d0) VRING_DESC_F_NEXT = 1 → Z.land (d_flags d1) VRING_DESC_F_NEXT = 1 →
  Z.land (d_flags d2) VRING_DESC_F_NEXT = 0 → d_next d0 = 1 → d_next d1 = 2 →
  free_chain 0 s = Ret tt (freed 2 (freed 1 (freed 0 s))).
Proof.
  intros Ht Hl Hf H0 H1 H2 F0 F1 F2 N0 N1.
  assert (∀ i s, table_ok s → table_ok (freed i s)) as Hto.
  { intros i s' H. unfold table_ok in *. simpl. by rewrite length_imap. }
  unfold free_chain. rewrite (free_chain_step _ 0 d0) by (done || lia || by rewrite Hf).
  rewrite F0, N0. change (truthy 1) with true. cbn iota.
  change (free_chain_loop NUM 1) with (free_chain_loop (S 7) (Z.of_nat 1)).
  rewrite (free_chain_step _ 1 d1); [|by auto|done|lia|simpl; by rewrite Hf|simpl; by rewrite list_lookup_insert_ne].
  rewrite F1, N1. change (truthy 1) with true. cbn iota.
  change (free_chain_loop 7 2) with (free_chain_loop (S 6) (Z.of_nat 2)).
  rewrite (free_chain_step _ 2 d2); [|by auto|done|lia|simpl; by rewrite Hf|simpl; by rewrite !list_lookup_insert_ne].
  by rewrite F2.
Qed.

Lemma ring_insert (l : list Z) i x :
  length l = NUM → <[Z.to_nat (i mod 8) := x]> l !! Z.to_nat (i mod 8) = Some x.
Proof.
  intros Hl. apply list_lookup_insert_eq. rewrite Hl. unfold NUM.
  pose proof (Z.mod_pos_bound i 8). lia.
Qed.

(** The state in which a thread that sleeps on its request is resumed. *)
Definition resumed (me b : nat) (v : vdisk) (dk : diskmap) (bs : list buf) (s : kstate) : kstate :=
  set_k_held [L_proc me] (set_k_cur (Some me)
    (set_k_procs (alter (set_p_state RUNNING) me (imap (wake_one None (Ch_buf b)) (k_procs s)))
      (set_k_vd (set_vd_used_idx (vd_used_at (served 0 v)) (served 0 v))
        (set_k_bufs (alter (set_b_disk 0) b bs) (set_k_disk dk s))))).

Lemma disk_env_ok me b write sector v0 s p blk bf :
  let v := submitted b write (2 * sector) v0 in
  k_held s = [L_proc me] → table_ok s → k_vd s = v → vd_idle (set_vd_free (replicate NUM 1) v0) →
  k_procs s !! me = Some p → p_state p = SLEEPING → p_chan p = Ch_buf b →
  k_disk s !! sector = Some blk → k_bufs s !! b = Some bf →
  disk_env me s = resumed me b v
    (if write then <[sector := b_data bf]> (k_disk s) else k_disk s)
    (if write then k_bufs s else alter (set_b_data blk) b (k_bufs s)) s.
Proof.
  intros v Hh Ht Hv [L1 L2 L3 L4 L5 _ R E1 E2] Hp Hst Hch Hd Hb. simpl in L1, L2, L3, L4, L5, R, E1, E2.
  unfold disk_env, disk_wait.
  erewrite bind_step by done. erewrite bind_step by (by apply release_held).
  erewrite bind_step by done.
  rewrite (device_serves _ 0 b 1 2 write sector blk bf).
  2-9: cbn [k_vd set_k_held set_k_cur k_disk k_bufs]; rewrite ?Hv; unfold v, submitted; simpl; try done.
  - erewrite bind_step.
    2: { apply (intr_ok _ 0 b); cbn [k_vd set_k_held set_k_cur set_k_vd k_held]; rewrite ?Hv;
         [by destruct write|by destruct write|unfold v; simpl; lia|unfold v; simpl; by rewrite E1|
          unfold v; simpl; rewrite E1; by apply ring_insert|].
      unfold v. simpl. rewrite list_lookup_alter_eq, list_lookup_alter_eq.
      destruct (lookup_lt_is_Some_2 (vd_info v0) 0) as [x Hx]; [rewrite L4; unfold NUM; lia|]. by rewrite Hx. }
    erewrite bind_step by (apply acquire_free; destruct write; simpl; set_solver).
    erewrite bind_step.
    2: { apply (getp_some _ _ (set_p_state RUNNABLE p)).
         cbn [k_procs set_k_held set_k_vd set_k_procs]. rewrite list_lookup_imap.
         assert (k_procs (if write then _ else _) = k_procs s) as -> by by destruct write.
         rewrite Hp. simpl. unfold wake_one. f_equal.
         assert (k_cur (if write then _ else _) = None) as -> by by destruct write.
         rewrite (bool_decide_false (None = Some me)), !bool_decide_true by done. done. }
    rewrite bool_decide_true by done. erewrite bind_step by done.
    unfold resumed, modify. cbn [k_vd set_k_held set_k_cur].
    rewrite Hv. destruct write; keq.
  - by rewrite E1, E2.
  - rewrite E1, E2. by apply ring_insert.
  - rewrite !list_lookup_insert_ne, list_lookup_insert_eq by (done || rewrite L1; unfold NUM; lia). done.
  - rewrite list_lookup_insert_ne, list_lookup_insert_eq by (done || rewrite length_insert, L1; unfold NUM; lia). done.
  - rewrite list_lookup_insert_eq by (rewrite !length_insert, L1; unfold NUM; lia). done.
  - rewrite list_lookup_insert_eq by (rewrite L5; unfold NUM; lia). done.
Qed.

Lemma getb_some i s b : k_bufs s !! i = Some b → getb i s = Ret b s.
Proof. intros Hb. unfold getb. kstep. by rewrite Hb. Qed.

Lemma sector_ok bn : 0 ≤ bn < 2 ^ 31 → u32 (bn * (BSIZE / 512)) = 2 * bn.
Proof. intros H. change (BSIZE / 512) with 2. unfold u32. rewrite Z.mod_small; lia. Qed.

(** The end of a request: the descriptors are freed, the driver is idle again. *)
Lemma rw_finish b write sector v0 s :
  let v := submitted b write sector v0 in
  k_held s = [L_vdisk] → table_ok s → k_vd s = set_vd_used_idx (vd_used_at (served 0 v)) (served 0 v) →
  vd_idle (set_vd_free (replicate NUM 1) v0) → vd_free v0 = [0; 0; 0; 1; 1; 1; 1; 1] →
  ∃ v', (set_info 0 (set_in_b None);; free_chain 0;; release L_vdisk) s =
    Ret tt (set_k_held [] (set_k_procs (imap (wake_one (k_cur s) Ch_disk_free) (k_procs s)) (set_k_vd v' s))) ∧
    vd_idle v'.
Proof.
  intros v Hh Ht Hv [L1 L2 L3 L4 L5 _ R E1 E2] Hf. simpl in L1, L2, L3, L4, L5, R, E1, E2.
  erewrite bind_step by done.
  assert (∀ i x, (i < 3)%nat → vd_desc v !! i = x → ∃ d, x = Some d ∧
    Z.land (d_flags d) VRING_DESC_F_NEXT = (if decide (i = 2)%nat then 0 else 1) ∧
    (i ≠ 2%nat → d_next d = Z.of_nat i + 1)) as Hd.
  { intros i x Hi <-. unfold v, submitted. cbn [vd_desc].
    destruct i as [|[|[|]]]; [..|lia].
    - rewrite !list_lookup_insert_ne, list_lookup_insert_eq by (done || rewrite L1; unfold NUM; lia). by eexists.
    - rewrite list_lookup_insert_ne, list_lookup_insert_eq
        by (done || rewrite length_insert, L1; unfold NUM; lia). eexists. split_and!; try done. by destruct write.
    - rewrite list_lookup_insert_eq by (rewrite !length_insert, L1; unfold NUM; lia). by eexists. }
  destruct (Hd 0%nat _ ltac:(lia) eq_refl) as (d0 & D0 & F0 & N0).
  destruct (Hd 1%nat _ ltac:(lia) eq_refl) as (d1 & D1 & F1 & N1).
  destruct (Hd 2%nat _ ltac:(lia) eq_refl) as (d2 & D2 & F2 & _).
  erewrite bind_step.
  2: { apply (free_chain_ok _ d0 d1 d2); cbn [k_vd set_k_vd set_vd_info vd_free vd_desc]; rewrite ?Hv;
       [done| |done|done..|by apply N0|by apply N1]. intros i _. simpl. rewrite Hh. set_solver. }
  erewrite release_held by done.
  eexists. split.
  { apply ret_eq. unfold freed. cbn [k_vd set_k_vd set_k_procs k_procs k_cur].
    rewrite !imap_wake_idem. keq. }
  cbn [vd_free vd_desc set_vd_info set_vd_free set_vd_desc]. rewrite Hv. unfold v, submitted, served.
  split; simpl; rewrite ?length_insert, ?length_alter, ?Hf; try done.
  - rewrite E1. apply u16_range.
  - by rewrite E1, E2.
Qed.

(** The end of [sleep] for a thread that is resumed. *)
Lemma resume_locks me s :
  k_held s = [L_proc me] →
  (modp me (set_p_chan Ch_null);; release (L_proc me);; acquire L_vdisk) s =
    Ret tt (set_k_held [L_vdisk] (set_k_procs (alter (set_p_chan Ch_null) me (k_procs s)) s)).
Proof.
  intros Hh. erewrite bind_step by reflexivity. erewrite bind_step by (by apply release_held).
  rewrite acquire_free by (simpl; set_solver). reflexivity.
Qed.

(** The wait for the device: the thread sleeps once. *)
Lemma rw_wait_ok fuel me b (write : bool) sector v0 s p blk bf C :
  let v := submitted b write (2 * sector) v0 in
  let d' := if write then <[sector := b_data bf]> (k_disk s) else k_disk s in
  k_cur s = Some me → k_held s = [L_vdisk] → table_ok s → k_procs s !! me = Some p →
  k_vd s = v → vd_idle (set_vd_free (replicate NUM 1) v0) →
  k_bufs s !! b = Some bf → b_disk bf = 1 → k_disk s !! sector = Some blk → C (k_disk s) → C d' →
  wpc (disk_env me) C (rw_wait (S (S fuel)) b s) (λ _ s', ∃ ps q,
    s' = set_k_procs ps (set_k_vd (set_vd_used_idx (vd_used_at (served 0 v)) (served 0 v))
           (set_k_disk d' (set_k_bufs (alter (λ x, set_b_disk 0 (if write then x else set_b_data blk x)) b
             (k_bufs s)) s))) ∧
    length ps = NPROC ∧ ps !! me = Some q ∧ p_pid q = p_pid p ∧ p_state q = RUNNING).
Proof.
  intros v d' Hc Hh Ht Hp Hv Hv0 Hb Hb1 Hd HC HC'. cbn [rw_wait].
  eapply wpc_step; [by apply getb_some|]. rewrite Hb1. change (1 =? 1) with true. cbn iota.
  unfold bind at 1. rewrite (sleep_ok (Ch_buf b) L_vdisk s me p Hc Hh ltac:(done) Hp). cbn [rbind wpc].
  set (s2 := set_k_held [L_proc me] _).
  assert (k_procs s2 !! me = Some (set_p_state SLEEPING (set_p_chan (Ch_buf b) p))) as Hp2
    by (simpl; by rewrite list_lookup_alter_eq, Hp).
  assert (table_ok s2) as Ht2 by (unfold table_ok; simpl; by rewrite length_alter).
  assert (k_vd s2 = v) as Hv2 by exact Hv.
  assert (k_held s2 = [L_proc me]) as Hh2 by reflexivity.
  rewrite (disk_env_ok me b write sector v0 s2 _ blk bf Hh2 Ht2 Hv2 Hv0 Hp2 eq_refl eq_refl Hd Hb).
  split_and!; [exact HC|by destruct write|]. fold v. set (s3 := set_k_sie _ _).
  pose proof (resume_locks me s3 eq_refl) as Hres.
  rewrite Hres. cbn [rbind].
  set (bs := alter (λ x, set_b_disk 0 (if write then x else set_b_data blk x)) b (k_bufs s)).
  assert (k_bufs s3 = bs) as Hb4.
  { unfold bs. simpl. destruct write; rewrite ?list_alter_twice; reflexivity. }
  eapply wpc_step.
  { apply getb_some. cbn [k_bufs set_k_held set_k_procs]. rewrite Hb4. unfold bs.
    rewrite list_lookup_alter_eq, Hb. reflexivity. }
  cbn [b_disk set_b_disk]. change (0 =? 1) with false. cbn [wpc ret]. unfold ret, wpc.
  exists (alter (set_p_chan Ch_null) me (k_procs s3)), (set_p_chan Ch_null (set_p_state RUNNING (wake_one None (Ch_buf b) me
      (set_p_state SLEEPING (set_p_chan (Ch_buf b) p))))).
  split; [|split_and!; [|..|reflexivity]].
  - apply k_ext; try reflexivity; [exact (eq_sym Hh)|exact (eq_sym Hc)|exact Hb4].
  - unfold s3, resumed. cbn [k_procs set_k_sie set_k_held set_k_cur set_k_procs].
    rewrite !length_alter, length_imap. exact Ht2.
  - unfold s3, resumed. cbn [k_procs set_k_sie set_k_held set_k_cur set_k_procs].
    by rewrite !list_lookup_alter_eq, list_lookup_imap, Hp2.
  - cbn [p_pid set_p_chan set_p_state]. by rewrite wake_one_pid.
Qed.

(** A request is served: the thread sleeps once, and returns with the block moved
    and the driver idle again. *)
Lemma virtio_disk_rw_ok me pid fuel b (write : bool) s bf blk C :
  let d' := if write then <[b_blockno bf := b_data bf]> (k_disk s) else k_disk s in
  thread me pid s → vd_idle (k_vd s) → k_bufs s !! b = Some bf → 0 ≤ b_blockno bf < 2 ^ 31 →
  k_disk s !! b_blockno bf = Some blk → (2 ≤ fuel)%nat → C (k_disk s) → C d' →
  wpc (disk_env me) C (virtio_disk_rw fuel b write s) (λ _ s',
    thread me pid s' ∧ disk_frame s s' ∧ vd_idle (k_vd s') ∧ k_disk s' = d' ∧
    k_bufs s' = alter (λ x, set_b_disk 0 (if write then x else set_b_data blk x)) b (k_bufs s)).
Proof.
  intros d' Hth Hvd Hb Hbn Hblk Hfuel HC HC'. destruct Hth as [Hc Hh Ht (p & Hp & Hpid & Hrun)].
  unfold virtio_disk_rw. eapply wpc_step; [by apply getb_some|]. cbv zeta. rewrite sector_ok by done.
  eapply wpc_step; [apply acquire_free; rewrite Hh; set_solver|]. rewrite Hh.
  destruct fuel as [|[|fuel]]; [lia|lia|].
  eapply wpc_step.
  { cbn [rw_alloc]. erewrite bind_step by (apply alloc3_ok; apply Hvd). reflexivity. }
  cbn [nth snd]. eapply wpc_step; [apply submit_ok|]. cbn [k_vd set_k_held set_k_vd k_bufs].
  set (v0 := set_vd_free _ _). set (s1 := set_k_vd _ _).
  assert (k_bufs s1 !! b = Some (set_b_disk 1 bf)) as Hb1 by (simpl; by rewrite list_lookup_alter_eq, Hb).
  assert (vd_idle (set_vd_free (replicate NUM 1) v0)) as Hv0 by (destruct Hvd; by split).
  apply wpc_bind. eapply wpc_mono.
  { eapply (rw_wait_ok fuel me b write (b_blockno bf) v0 s1 p blk (set_b_disk 1 bf) C); try done. }
  { done. }
  intros _ s4 (ps & q & -> & Hlen & Hq & Hqpid & Hqr). set (s4 := set_k_procs _ _).
  destruct (rw_finish b write (2 * b_blockno bf) v0 s4) as (v' & -> & Hv'); try done.
  cbn [wpc]. split_and!; [|unfold disk_frame; apply k_ext; simpl; by rewrite ?Hh|done|by destruct write|].
  - split; [done|done|unfold table_ok; simpl; by rewrite length_imap|]. exists q.
    simpl. rewrite list_lookup_imap, Hq, Hc. simpl. by rewrite wake_one_me, Hqpid.
  - cbn [k_bufs set_k_held set_k_procs set_k_vd set_k_disk set_k_bufs s4 s1]. rewrite list_alter_twice.
    by destruct write.
Qed.

End virtio.

(** ** A device

    The behaviour of the interface on every state, as QEMU's block device has it;
    it shows that [Device] can be implemented. *)

Definition serve_request (s : kstate) : kstate :=
  let v := k_vd s in
  default s (
    id ← vd_avail_ring v !! Z.to_nat (vd_used_at v mod 8);
    r ← vd_ops v !! Z.to_nat id;
    d0 ← vd_desc v !! Z.to_nat id;
    d1 ← vd_desc v !! Z.to_nat (d_next d0);
    b ← (match d_addr d1 with D_data b => Some b | _ => None end);
    bf ← k_bufs s !! b;
    blk ← k_disk s !! (r_sector r / 2);
    Some (set_k_vd (served id v)
      (if r_type r =? VIRTIO_BLK_T_OUT
       then set_k_disk (<[r_sector r / 2 := b_data bf]> (k_disk s)) s
       else set_k_bufs (alter (set_b_data blk) b (k_bufs s)) s))).

Definition qemu_disk : Device.
Proof.
  refine {| device := serve_request |}.
  intros s id b i1 i2 write sector blk bf v Ha Hr H0 H1 H2 Ho Hd Hb. unfold serve_request. fold v.
  rewrite Hr. simpl. rewrite Ho, H0. simpl. rewrite H1. simpl. rewrite Hb. simpl.
  rewrite (Z.mul_comm 2), Z.div_mul by done. rewrite Hd. simpl. by destruct write.
Defined.
