(* ===== verification/Bio.v ===== *)
(** * The buffer cache

    [kernel/bio.c].  The cache is the list [k_bufs]: entries [0 .. NBUF-1] are
    [bcache.buf], entry [NBUF] is [bcache.head], and [b_next] and [b_prev] are the
    links of the recency list.  The invariant [bio] describes the cache as the file
    system sees it from one thread: which buffers it holds, and which logical
    contents [blk] the cache and the disk together give every block. *)

From Stdlib Require Import ZArith Lia.
From S2P Require Import Prelude Machine Kernel Boot Kalloc Vm ProcTable Seq Sleeplock Virtio.

Section bio.
Context `{B : Build}.

Definition binit : M unit :=
  modb NBUF (set_b_prev NBUF);;
  modb NBUF (set_b_next NBUF);;
  for_each (seq 0 NBUF) (λ b,
    h <- getb NBUF;;
    modb b (set_b_next (b_next h));;
    modb b (set_b_prev NBUF);;
    initsleeplock (S_buf b);;
    modb (b_next h) (set_b_prev b);;
    modb NBUF (set_b_next b)).

(** The search along [next] for the block. *)
Fixpoint bget_find (fuel : nat) (b : nat) (dev blockno : Z) : M (option nat) :=
  match fuel with
  | O => stuck
  | S f =>
      if bool_decide (b = NBUF) then ret None
      else
        x <- getb b;;
        if ((b_dev x =? dev) && (b_blockno x =? blockno))%bool then ret (Some b)
        else bget_find f (b_next x) dev blockno
  end.

(** The search along [prev] for an unreferenced buffer. *)
Fixpoint bget_lru (fuel : nat) (b : nat) : M (option nat) :=
  match fuel with
  | O => stuck
  | S f =>
      if bool_decide (b = NBUF) then ret None
      else
        x <- getb b;;
        if b_refcnt x =? 0 then ret (Some b)
        else bget_lru f (b_prev x)
  end.

Definition bget (fuel : nat) (dev blockno : Z) : M nat :=
  acquire L_bcache;;
  h <- getb NBUF;;
  o <- bget_find (S NBUF) (b_next h) dev blockno;;
  match o with
  | Some b =>
      modb b (λ x, set_b_refcnt (u32 (b_refcnt x + 1)) x);;
      release L_bcache;;
      acquiresleep fuel (S_buf b);;
      ret b
  | None =>
      h <- getb NBUF;;
      o <- bget_lru (S NBUF) (b_prev h);;
      match o with
      | Some b =>
          modb b (set_b_dev dev);;
          modb b (set_b_blockno blockno);;
          modb b (set_b_valid 0);;
          modb b (set_b_refcnt 1);;
          release L_bcache;;
          acquiresleep fuel (S_buf b);;
          ret b
      | None => panic "bget: no buffers"
      end
  end.

Definition bread (fuel : nat) (dev blockno : Z) : M nat :=
  b <- bget fuel dev blockno;;
  x <- getb b;;
  when (negb (truthy (b_valid x)))
    (virtio_disk_rw fuel b false;;
     modb b (set_b_valid 1));;
  ret b.

Definition bwrite (fuel : nat) (b : nat) : M unit :=
  h <- holdingsleep (S_buf b);;
  if negb h then panic "bwrite"
  else virtio_disk_rw fuel b true.

Definition brelse (b : nat) : M unit :=
  h <- holdingsleep (S_buf b);;
  if negb h then panic "brelse"
  else
    releasesleep (S_buf b);;
    acquire L_bcache;;
    modb b (λ x, set_b_refcnt (u32 (b_refcnt x - 1)) x);;
    x <- getb b;;
    when (b_refcnt x =? 0)
      (modb (b_next x) (set_b_prev (b_prev x));;
       modb (b_prev x) (set_b_next (b_next x));;
       h <- getb NBUF;;
       modb b (set_b_next (b_next h));;
       modb b (set_b_prev NBUF);;
       modb (b_next h) (set_b_prev b);;
       modb NBUF (set_b_next b));;
    release L_bcache.

Definition bpin (b : nat) : M unit :=
  acquire L_bcache;;
  modb b (λ x, set_b_refcnt (u32 (b_refcnt x + 1)) x);;
  release L_bcache.

Definition bunpin (b : nat) : M unit :=
  acquire L_bcache;;
  modb b (λ x, set_b_refcnt (u32 (b_refcnt x - 1)) x);;
  release L_bcache.

(** ** The recency list *)

(** [l] is a path of the links [f]. *)
Fixpoint links (f : nat → option nat) (l : list nat) : Prop :=
  match l with
  | x :: (y :: _) as l' => f x = Some y ∧ links f l'
  | _ => True
  end.

Definition nx (bs : list buf) (i : nat) : option nat := b_next <$> bs !! i.
Definition px (bs : list buf) (i : nat) : option nat := b_prev <$> bs !! i.

(** [ord] lists the buffers from the most to the least recently used. *)
Record ring (bs : list buf) (ord : list nat) : Prop := {
  rg_len : length bs = S NBUF;
  rg_ord : ord ≡ₚ seq 0 NBUF;
  rg_next : links (nx bs) (NBUF :: ord ++ [NBUF]);
  rg_prev : links (px bs) (NBUF :: rev ord ++ [NBUF])
}.

Lemma links_app f l1 x l2 : links f (l1 ++ x :: l2) ↔ links f (l1 ++ [x]) ∧ links f (x :: l2).
Proof.
  induction l1 as [|y l1 IH]; [simpl; tauto|].
  destruct l1 as [|z l1]; [simpl; tauto|]. simpl in *. tauto.
Qed.

(** Links that no inner node of the path uses can change. *)
Lemma links_ext f g l x :
  links f (l ++ [x]) → (∀ y, y ∈ l → g y = f y) → links g (l ++ [x]).
Proof.
  induction l as [|y l IH]; [done|]. intros H Hg.
  assert (links f (l ++ [x])) as Hl by (destruct l; [done|]; apply H).
  specialize (IH Hl ltac:(set_solver)).
  destruct l as [|z l]; simpl in *; (split; [|by try apply IH]); rewrite Hg by set_solver; apply H.
Qed.

Lemma nx_alter_next bs i v j :
  (i < length bs)%nat → nx (alter (set_b_next v) i bs) j = if decide (j = i) then Some v else nx bs j.
Proof.
  intros Hi. unfold nx. case_decide as E; [subst j|by rewrite list_lookup_alter_ne].
  rewrite list_lookup_alter_eq. apply lookup_lt_is_Some in Hi as [x ->]. done.
Qed.

Lemma px_alter_prev bs i v j :
  (i < length bs)%nat → px (alter (set_b_prev v) i bs) j = if decide (j = i) then Some v else px bs j.
Proof.
  intros Hi. unfold px. case_decide as E; [subst j|by rewrite list_lookup_alter_ne].
  rewrite list_lookup_alter_eq. apply lookup_lt_is_Some in Hi as [x ->]. done.
Qed.

(** Stores to other fields do not touch the links. *)
Lemma nx_alter f bs i j : (∀ b, b_next (f b) = b_next b) → nx (alter f i bs) j = nx bs j.
Proof.
  intros Hf. unfold nx. destruct (decide (j = i)) as [->|]; [|by rewrite list_lookup_alter_ne].
  rewrite list_lookup_alter_eq. destruct (bs !! i); simpl; [by rewrite Hf|done].
Qed.

Lemma px_alter f bs i j : (∀ b, b_prev (f b) = b_prev b) → px (alter f i bs) j = px bs j.
Proof.
  intros Hf. unfold px. destruct (decide (j = i)) as [->|]; [|by rewrite list_lookup_alter_ne].
  rewrite list_lookup_alter_eq. destruct (bs !! i); simpl; [by rewrite Hf|done].
Qed.

Lemma ring_alter f bs ord i :
  (∀ b, b_next (f b) = b_next b) → (∀ b, b_prev (f b) = b_prev b) → ring bs ord → ring (alter f i bs) ord.
Proof.
  intros Hn Hp [Hl Ho H1 H2]. split; [by rewrite length_alter|done|..].
  - change (NBUF :: ord ++ [NBUF]) with ((NBUF :: ord) ++ [NBUF]). eapply links_ext; [done|].
    intros. by apply nx_alter.
  - change (NBUF :: rev ord ++ [NBUF]) with ((NBUF :: rev ord) ++ [NBUF]). eapply links_ext; [done|].
    intros. by apply px_alter.
Qed.

Lemma ring_nodup bs ord : ring bs ord → NoDup (NBUF :: ord).
Proof.
  intros H. rewrite (rg_ord _ _ H). constructor; [|apply NoDup_seq].
  intros Hin%elem_of_seq. lia.
Qed.

Lemma ring_in bs ord i : ring bs ord → i ∈ ord ↔ (i < NBUF)%nat.
Proof. intros H. rewrite (rg_ord _ _ H), elem_of_seq. lia. Qed.

Lemma rev_cycle {A} (h : A) l : rev (h :: l ++ [h]) = h :: rev l ++ [h].
Proof. simpl. by rewrite rev_app_distr. Qed.

(** Taking a node out of the list, and putting it at the front: the stores of
    [brelse]. *)
Definition unlinked (p n : nat) (bs : list buf) : list buf :=
  alter (set_b_next n) p (alter (set_b_prev p) n bs).
Definition pushed (b h : nat) (bs : list buf) : list buf :=
  alter (set_b_next b) NBUF (alter (set_b_prev b) h (alter (set_b_prev NBUF) b (alter (set_b_next h) b bs))).

Lemma nx_unlinked p n bs j : (p < length bs)%nat →
  nx (unlinked p n bs) j = if decide (j = p) then Some n else nx bs j.
Proof.
  intros Hp. unfold unlinked. rewrite nx_alter_next by (by rewrite length_alter). by rewrite nx_alter.
Qed.

Lemma px_unlinked p n bs j : (n < length bs)%nat →
  px (unlinked p n bs) j = if decide (j = n) then Some p else px bs j.
Proof. intros Hp. unfold unlinked. rewrite px_alter by done. by apply px_alter_prev. Qed.

Lemma nx_pushed b h bs j : (b < length bs)%nat → (NBUF < length bs)%nat →
  nx (pushed b h bs) j = if decide (j = NBUF) then Some b else if decide (j = b) then Some h else nx bs j.
Proof.
  intros Hb Hn. unfold pushed. rewrite nx_alter_next by (by rewrite !length_alter).
  rewrite !nx_alter by done. by rewrite nx_alter_next.
Qed.

Lemma px_pushed b h bs j : (b < length bs)%nat → (h < length bs)%nat →
  px (pushed b h bs) j = if decide (j = h) then Some b else if decide (j = b) then Some NBUF else px bs j.
Proof.
  intros Hb Hh. unfold pushed. rewrite px_alter by done.
  rewrite px_alter_prev by (by rewrite !length_alter). rewrite px_alter_prev by (by rewrite length_alter).
  by rewrite px_alter.
Qed.

Lemma ring_unlink bs l1 b l2 x :
  ring bs (l1 ++ b :: l2) → bs !! b = Some x →
  let bs' := unlinked (b_prev x) (b_next x) bs in
  (b_prev x < length bs)%nat ∧ (b_next x < length bs)%nat ∧
  links (nx bs') (NBUF :: l1 ++ l2 ++ [NBUF]) ∧ links (px bs') (rev (NBUF :: l1 ++ l2 ++ [NBUF])).
Proof.
  intros H Hx bs'. pose proof (ring_nodup _ _ H) as Hnd. pose proof (λ i, ring_in bs _ i H) as Hin.
  destruct H as [Hl _ H1 H2].
  destruct (exists_last (l := NBUF :: l1)) as (P & p & EP); [done|].
  assert (∃ q Q, l2 ++ [NBUF] = q :: Q) as (q & Q & EQ) by (destruct l2; by eexists _, _).
  assert (NBUF :: (l1 ++ b :: l2) ++ [NBUF] = P ++ p :: b :: q :: Q) as E.
  { rewrite <- app_assoc. simpl. rewrite EQ. rewrite (app_comm_cons l1), EP. by rewrite <- app_assoc. }
  rewrite <- rev_cycle, E in H2. rewrite E in H1.
  apply links_app in H1 as [H1a (Hpb & Hbq & H1b)].
  assert (rev (P ++ p :: b :: q :: Q) = rev Q ++ q :: b :: p :: rev P) as E2.
  { rewrite rev_app_distr. simpl. by rewrite <- !app_assoc. }
  rewrite E2 in H2. apply links_app in H2 as [H2a (Hqb & Hbp & H2b)].
  unfold nx in Hbq. unfold px in Hbp. rewrite Hx in Hbq, Hbp. simpl in Hbq, Hbp. injection Hbq as Eq. injection Hbp as Ep.
  assert (p ∈ NBUF :: l1) as Hp by (rewrite EP; set_solver).
  assert (q ∈ l2 ++ [NBUF]) as Hq by (rewrite EQ; set_solver).
  assert (∀ y, y ∈ NBUF :: l1 ++ b :: l2 → (y < length bs)%nat) as Hlt.
  { intros y [->|Hy]%elem_of_cons; [lia|]. apply Hin in Hy. lia. }
  assert (p < length bs)%nat by (apply Hlt; set_solver).
  assert (q < length bs)%nat by (apply Hlt; set_solver).
  rewrite app_comm_cons in Hnd. apply NoDup_app in Hnd as (Hnd1 & Hdis & Hnd2).
  assert (∀ y, y ∈ P → y ≠ p) as HP.
  { rewrite EP in Hnd1. apply NoDup_app in Hnd1 as (_ & Hd & _). intros y Hy ->. by eapply Hd; [|left]. }
  assert (NoDup (q :: Q)) as HQ.
  { rewrite <- EQ. apply NoDup_app. split_and!; [by inversion Hnd2| |apply NoDup_singleton].
    intros y Hy ?%list_elem_of_singleton. subst. eapply (Hdis NBUF); set_solver. }
  assert (∀ y, y ∈ l2 → y ≠ p) as Hl2 by (intros y Hy ->; eapply Hdis; set_solver).
  assert (∀ y, y ∈ l1 → y ≠ q) as Hl1.
  { intros y Hy ->. apply elem_of_app in Hq as [Hq|Hq%list_elem_of_singleton]; [eapply Hdis; set_solver|].
    rewrite Hq in Hy. apply NoDup_cons in Hnd1 as [Hn _]. by apply Hn. }
  unfold bs'. rewrite Eq, Ep. split_and!; [done|done|..].
  - replace (NBUF :: l1 ++ l2 ++ [NBUF]) with (P ++ p :: q :: Q)
      by (rewrite EQ, (app_comm_cons l1), EP; by rewrite <- app_assoc).
    apply links_app. split; [|split].
    + eapply links_ext; [done|]. intros y Hy. rewrite nx_unlinked by done. by rewrite decide_False by auto.
    + rewrite nx_unlinked by done. by rewrite decide_True.
    + rewrite <- EQ in *. eapply links_ext; [done|]. intros y Hy.
      rewrite nx_unlinked by done. by rewrite decide_False by auto.
  - replace (rev (NBUF :: l1 ++ l2 ++ [NBUF])) with (rev Q ++ q :: p :: rev P).
    2: { rewrite EQ, (app_comm_cons l1), EP, <- app_assoc, rev_app_distr. simpl. by rewrite <- !app_assoc. }
    apply links_app. split; [|split].
    + eapply links_ext; [done|]. intros y Hy. rewrite px_unlinked by done. rewrite decide_False; [done|].
      intros ->. apply NoDup_cons in HQ as [HQ _]. apply HQ. apply list_elem_of_In, in_rev, list_elem_of_In; done.
    + rewrite px_unlinked by done. by rewrite decide_True.
    + assert (p :: rev P = rev l1 ++ [NBUF]) as EP'.
      { transitivity (rev (P ++ [p])); [by rewrite rev_app_distr|]. by rewrite <- EP. }
      rewrite EP' in *. eapply links_ext; [done|]. intros y Hy. rewrite px_unlinked by done.
      rewrite decide_False; [done|]. apply Hl1. apply list_elem_of_In, in_rev, list_elem_of_In; done.
Qed.

Lemma ring_move bs l1 b l2 x :
  ring bs (l1 ++ b :: l2) → bs !! b = Some x →
  let bs' := unlinked (b_prev x) (b_next x) bs in
  ∃ h, nx bs' NBUF = Some h ∧ ring (pushed b h bs') (b :: l1 ++ l2).
Proof.
  intros H Hx bs'. destruct (ring_unlink bs l1 b l2 x H Hx) as (Hp & Hn & H1 & H2). fold bs' in H1, H2.
  pose proof (ring_nodup _ _ H) as Hnd. pose proof (λ i, ring_in bs _ i H) as Hin.
  assert (length bs' = S NBUF) as Hlen by (unfold bs', unlinked; rewrite !length_alter; apply H).
  assert (∃ h R, (l1 ++ l2) ++ [NBUF] = h :: R) as (h & R & ER) by (destruct (l1 ++ l2); by eexists _, _).
  rewrite app_assoc, ER in H1, H2. destruct H1 as [Hh H1].
  assert (NoDup (NBUF :: l1 ++ l2) ∧ b ∉ NBUF :: l1 ++ l2) as [Hnd' Hb'].
  { assert (NBUF :: l1 ++ b :: l2 ≡ₚ b :: NBUF :: l1 ++ l2) as E by solve_Permutation.
    rewrite E in Hnd. apply NoDup_cons in Hnd. tauto. }
  assert (b < length bs')%nat as Hbl by (rewrite Hlen; assert (b < NBUF)%nat by (apply Hin; set_solver); lia).
  assert (h ∈ NBUF :: l1 ++ l2) as Hhin by (assert (h ∈ (l1 ++ l2) ++ [NBUF]) by (rewrite ER; left); set_solver).
  assert (h < length bs')%nat as Hhl.
  { rewrite Hlen. apply elem_of_cons in Hhin as [->|Hhin]; [lia|].
    assert (h < NBUF)%nat by (apply Hin; set_solver). lia. }
  assert (h ∉ R) as HhR.
  { assert (NoDup (h :: R)) as HR; [|by apply NoDup_cons in HR as [? _]].
    rewrite <- ER. rewrite (Permutation_app_comm _ [NBUF]). done. }
  exists h. split; [done|]. split.
  - unfold pushed. by rewrite !length_alter.
  - rewrite <- (rg_ord _ _ H). solve_Permutation.
  - cbn [app]. rewrite ER. split; [|split].
    + rewrite nx_pushed by lia. by rewrite decide_True.
    + rewrite nx_pushed by lia. rewrite decide_False, decide_True by set_solver. done.
    + rewrite <- ER in *. eapply links_ext; [done|]. intros y Hy. rewrite nx_pushed by lia.
      rewrite !decide_False; [done|set_solver|]. intros ->. by apply NoDup_cons in Hnd' as [? _].
  - rewrite <- rev_cycle. cbn [app]. rewrite ER.
    assert (∀ c, rev (NBUF :: c :: h :: R) = rev R ++ h :: c :: [NBUF]) as Er by (intros; simpl; by rewrite <- !app_assoc).
    assert (rev (NBUF :: h :: R) = rev R ++ h :: [NBUF]) as Er' by (simpl; by rewrite <- !app_assoc).
    rewrite Er. rewrite Er' in H2. apply links_app in H2 as [H2 _]. apply links_app. split; [|split; [|split; [|done]]].
    + eapply links_ext; [done|]. intros y Hy. apply list_elem_of_In, in_rev, list_elem_of_In in Hy. rewrite px_pushed by lia.
      rewrite !decide_False; [done| |]; intros ->; [|done].
      apply Hb'. assert (b ∈ (l1 ++ l2) ++ [NBUF]) by (rewrite ER; by right). set_solver.
    + rewrite px_pushed by lia. by rewrite decide_True.
    + rewrite px_pushed by lia. rewrite decide_False, decide_True by (done || intros ->; done). done.
Qed.

(** ** The two searches *)

Definition caches (bs : list buf) (dev n : Z) (i : nat) : bool :=
  match bs !! i with Some b => ((b_dev b =? dev) && (b_blockno b =? n))%bool | None => false end.
Definition unused (bs : list buf) (i : nat) : bool :=
  match bs !! i with Some b => b_refcnt b =? 0 | None => false end.

Lemma bget_find_ok dev n s l fuel :
  links (nx (k_bufs s)) (l ++ [NBUF]) → NBUF ∉ l → (∀ y, y ∈ l → is_Some (k_bufs s !! y)) →
  (length l < fuel)%nat →
  bget_find fuel (hd NBUF l) dev n s = Ret (List.find (caches (k_bufs s) dev n) l) s.
Proof.
  revert fuel. induction l as [|x l IH]; intros fuel Hk Hn Hs Hf; (destruct fuel as [|fuel]; [simpl in Hf; lia|]).
  { done. }
  cbn [bget_find hd List.find]. rewrite bool_decide_false by set_solver.
  destruct (Hs x) as [b Hb]; [by left|]. erewrite bind_step by (by apply getb_some).
  unfold caches at 1. rewrite Hb. destruct (_ && _)%bool; [done|].
  assert (b_next b = hd NBUF l) as ->.
  { assert (nx (k_bufs s) x = Some (hd NBUF l)) as E by (destruct l; apply Hk). unfold nx in E. rewrite Hb in E. by injection E. }
  apply IH; [by destruct l; [|apply Hk]|set_solver|set_solver|simpl in Hf; lia].
Qed.

Lemma bget_lru_ok s l fuel :
  links (px (k_bufs s)) (l ++ [NBUF]) → NBUF ∉ l → (∀ y, y ∈ l → is_Some (k_bufs s !! y)) →
  (length l < fuel)%nat →
  bget_lru fuel (hd NBUF l) s = Ret (List.find (unused (k_bufs s)) l) s.
Proof.
  revert fuel. induction l as [|x l IH]; intros fuel Hk Hn Hs Hf; (destruct fuel as [|fuel]; [simpl in Hf; lia|]).
  { done. }
  cbn [bget_lru hd List.find]. rewrite bool_decide_false by set_solver.
  destruct (Hs x) as [b Hb]; [by left|]. erewrite bind_step by (by apply getb_some).
  unfold unused at 1. rewrite Hb. destruct (b_refcnt b =? 0); [done|].
  assert (b_prev b = hd NBUF l) as ->.
  { assert (px (k_bufs s) x = Some (hd NBUF l)) as E by (destruct l; apply Hk). unfold px in E. rewrite Hb in E. by injection E. }
  apply IH; [by destruct l; [|apply Hk]|set_solver|set_solver|simpl in Hf; lia].
Qed.

Lemma ring_some bs ord i : ring bs ord → i ∈ ord → is_Some (bs !! i).
Proof. intros H Hi. apply lookup_lt_is_Some. apply (ring_in _ _ _ H) in Hi. rewrite (rg_len _ _ H). lia. Qed.

Lemma ring_length bs ord : ring bs ord → length ord = NBUF.
Proof. intros H. by rewrite (rg_ord _ _ H), length_seq. Qed.

(** From the head of the list. *)
Lemma find_ok dev n s ord :
  ring (k_bufs s) ord →
  ∃ h, getb NBUF s = Ret h s ∧
    bget_find (S NBUF) (b_next h) dev n s = Ret (List.find (caches (k_bufs s) dev n) ord) s.
Proof.
  intros H. destruct (lookup_lt_is_Some_2 (k_bufs s) NBUF) as [h Hh]; [rewrite (rg_len _ _ H); lia|].
  exists h. split; [by apply getb_some|].
  pose proof (rg_next _ _ H) as Hn. assert (nx (k_bufs s) NBUF = Some (hd NBUF ord)) as E by (destruct ord; apply Hn).
  unfold nx in E. rewrite Hh in E. injection E as ->.
  apply bget_find_ok; [by destruct ord; [|apply Hn]| |by intros; eapply ring_some|rewrite (ring_length _ _ H); lia].
  apply ring_nodup in H. by apply NoDup_cons in H as [? _].
Qed.

Lemma lru_ok s ord :
  ring (k_bufs s) ord →
  ∃ h, getb NBUF s = Ret h s ∧
    bget_lru (S NBUF) (b_prev h) s = Ret (List.find (unused (k_bufs s)) (rev ord)) s.
Proof.
  intros H. destruct (lookup_lt_is_Some_2 (k_bufs s) NBUF) as [h Hh]; [rewrite (rg_len _ _ H); lia|].
  exists h. split; [by apply getb_some|]. assert (∀ y, y ∈ rev ord ↔ y ∈ ord) as Hr.
  { intros y. rewrite !list_elem_of_In. symmetry. apply in_rev. }
  pose proof (rg_prev _ _ H) as Hn.
  assert (px (k_bufs s) NBUF = Some (hd NBUF (rev ord))) as E by (destruct (rev ord); apply Hn).
  unfold px in E. rewrite Hh in E. injection E as ->.
  apply bget_lru_ok; [by destruct (rev ord); [|apply Hn]| | |rewrite length_rev, (ring_length _ _ H); lia].
  - rewrite Hr. apply ring_nodup in H. by apply NoDup_cons in H as [? _].
  - intros y Hy. rewrite Hr in Hy. by eapply ring_some.
Qed.

(** ** The cache as the file system sees it *)

(** The contents of block [n]: its buffer's if it is cached, the disk's if not. *)
Definition blk (s : kstate) (n : Z) : option (list Z) :=
  match List.find (caches (k_bufs s) ROOTDEV n) (seq 0 NBUF) with
  | Some i => b_data <$> k_bufs s !! i
  | None => k_disk s !! n
  end.

Definition in_cache (s : kstate) (n : Z) (i : nat) (b : buf) : Prop :=
  (i < NBUF)%nat ∧ k_bufs s !! i = Some b ∧ b_dev b = ROOTDEV ∧ b_blockno b = n.

(** [L] are the buffers the thread has locked, [P] the pinned ones.  Nothing else
    is referenced; buffers without a block are those never used since boot; an
    unreferenced buffer is clean. *)
Record bio (pid : Z) (L P ord : list nat) (s : kstate) : Prop := {
  bi_ring : ring (k_bufs s) ord;
  bi_vd : vd_idle (k_vd s);
  bi_uniq n i j bi bj : in_cache s n i bi → in_cache s n j bj → i = j;
  bi_lock i b : (i < NBUF)%nat → k_bufs s !! i = Some b →
    b_lock b = if decide (i ∈ L) then mk_sl 1 pid else mk_sl 0 0;
  bi_ref i b : (i < NBUF)%nat → k_bufs s !! i = Some b →
    b_refcnt b = (if decide (i ∈ L) then 1 else 0) + (if decide (i ∈ P) then 1 else 0);
  bi_dev i b : (i < NBUF)%nat → k_bufs s !! i = Some b →
    if decide (b_dev b = ROOTDEV) then b_valid b = 1 else b_refcnt b = 0;
  bi_clean n i b : in_cache s n i b → b_refcnt b = 0 → k_disk s !! n = Some (b_data b);
  bi_held : Forall (λ i, (i < NBUF)%nat) (L ++ P)
}.

#[global] Arguments bi_ring {_ _ _ _ _} _.
#[global] Arguments bi_vd {_ _ _ _ _} _.
#[global] Arguments bi_uniq {_ _ _ _ _} _ _ _ _ _ _ _.
#[global] Arguments bi_lock {_ _ _ _ _} _ _ _ _ _.
#[global] Arguments bi_ref {_ _ _ _ _} _ _ _ _ _.
#[global] Arguments bi_dev {_ _ _ _ _} _ _ _ _ _.
#[global] Arguments bi_clean {_ _ _ _ _} _ _ _ _ _ _.
#[global] Arguments bi_held {_ _ _ _ _} _.

Lemma caches_spec bs n i :
  caches bs ROOTDEV n i = true ↔ ∃ b, bs !! i = Some b ∧ b_dev b = ROOTDEV ∧ b_blockno b = n.
Proof.
  unfold caches. destruct (bs !! i) as [b|]; [|naive_solver].
  rewrite andb_true_iff, !Z.eqb_eq. naive_solver.
Qed.

Lemma find_caches s n l :
  (∀ i, i ∈ l → (i < NBUF)%nat) →
  match List.find (caches (k_bufs s) ROOTDEV n) l with
  | Some i => ∃ b, in_cache s n i b
  | None => ∀ i b, i ∈ l → ¬ in_cache s n i b
  end.
Proof.
  intros Hl. destruct (List.find _ _) as [i|] eqn:E.
  - apply find_some in E as [Hi E]. apply caches_spec in E as (b & ? & ? & ?). exists b.
    split_and!; try done. apply Hl. by apply list_elem_of_In.
  - intros i b Hi (? & Hb & Hd & Hn). apply list_elem_of_In in Hi.
    pose proof (find_none _ _ E i Hi) as Hf. apply not_true_iff_false in Hf. apply Hf, caches_spec. eauto.
Qed.

Lemma blk_cached pid L P ord s n i b :
  bio pid L P ord s → in_cache s n i b → blk s n = Some (b_data b).
Proof.
  intros H Hi. unfold blk. pose proof (find_caches s n (seq 0 NBUF)) as Hf.
  destruct (List.find _ _) as [j|].
  - destruct Hf as [b' Hb']; [intros j' Hj; apply elem_of_seq in Hj; lia|].
    rewrite <- (bi_uniq H _ _ _ _ _ Hi Hb'). destruct Hi as (_ & -> & _). done.
  - exfalso. eapply Hf; [|apply elem_of_seq|exact Hi]; [intros j' Hj; apply elem_of_seq in Hj; lia|].
    destruct Hi. lia.
Qed.

#[global] Arguments blk_cached {_ _ _ _ _ _ _ _} _ _.

Lemma blk_disk s n : (∀ i b, ¬ in_cache s n i b) → blk s n = k_disk s !! n.
Proof.
  intros H. unfold blk. pose proof (find_caches s n (seq 0 NBUF)) as Hf.
  destruct (List.find _ _) as [j|]; [|done].
  destruct Hf as [b' Hb']; [intros j' Hj; apply elem_of_seq in Hj; lia|]. naive_solver.
Qed.

(** Every block is cached or not. *)
Lemma cached_or_not s n : (∃ i b, in_cache s n i b) ∨ (∀ i b, ¬ in_cache s n i b).
Proof.
  pose proof (find_caches s n (seq 0 NBUF)) as Hf. destruct (List.find _ _) as [j|].
  - left. destruct Hf as [b Hb]; [intros j' Hj; apply elem_of_seq in Hj; lia|]. eauto.
  - right. intros i b Hi. eapply Hf; [|apply elem_of_seq|exact Hi]; [intros j' Hj; apply elem_of_seq in Hj; lia|].
    destruct Hi. lia.
Qed.

Lemma bio_perm pid L L' P ord s : L ≡ₚ L' → bio pid L P ord s → bio pid L' P ord s.
Proof.
  intros E []. split; try done.
  - intros i b Hi Hb. rewrite (bi_lock0 i b) by done. destruct (decide (i ∈ L)) as [Hin|Hin], (decide (i ∈ L')) as [Hin'|Hin']; try done; rewrite E in Hin; done.
  - intros i b Hi Hb. rewrite (bi_ref0 i b) by done. f_equal. destruct (decide (i ∈ L)) as [Hin|Hin], (decide (i ∈ L')) as [Hin'|Hin']; try done; rewrite E in Hin; done.
  - by rewrite <- E.
Qed.

(** A search from the end finds the last element with the property. *)
Lemma find_rev {A} (f : A → bool) l :
  match List.find f (rev l) with
  | Some x => ∃ l1 l2, l = l1 ++ x :: l2 ∧ f x = true ∧ ∀ y, y ∈ l2 → f y = false
  | None => ∀ y, y ∈ l → f y = false
  end.
Proof.
  induction l as [|y l IH] using rev_ind; [simpl; set_solver|].
  rewrite rev_app_distr. cbn [rev app List.find]. destruct (f y) eqn:E.
  - exists l, []. split_and!; [done..|set_solver].
  - destruct (List.find f (rev l)) as [x|].
    + destruct IH as (l1 & l2 & -> & Hx & Hl). exists l1, (l2 ++ [y]). split_and!; [by rewrite <- app_assoc|done|].
      intros z [Hz|Hz%list_elem_of_singleton]%elem_of_app; [by apply Hl|by subst].
    + intros z [Hz|Hz%list_elem_of_singleton]%elem_of_app; [by apply IH|by subst].
Qed.

(** A buffer is free for reuse as long as fewer than [NBUF] are referenced; the
    one [bget] takes is the least recently used of them. *)
Lemma free_buffer pid L P ord s :
  bio pid L P ord s → (length L + length P < NBUF)%nat →
  ∃ l1 i l2 b, ord = l1 ++ i :: l2 ∧ List.find (unused (k_bufs s)) (rev ord) = Some i ∧
    k_bufs s !! i = Some b ∧ b_refcnt b = 0 ∧
    ∀ j bj, j ∈ l2 → k_bufs s !! j = Some bj → b_refcnt bj ≠ 0.
Proof.
  intros H Hlen. pose proof (find_rev (unused (k_bufs s)) ord) as Hf.
  destruct (List.find _ _) as [i|].
  - destruct Hf as (l1 & l2 & E & Hi & Hl2). unfold unused in Hi. destruct (k_bufs s !! i) as [b|] eqn:Hb; [|done].
    exists l1, i, l2, b. split_and!; [done..|by apply Z.eqb_eq|]. intros j bj Hj Hbj.
    apply Hl2 in Hj. unfold unused in Hj. rewrite Hbj in Hj. by apply Z.eqb_neq.
  - exfalso. assert (ord ⊆+ L ++ P) as Hsub.
    { apply NoDup_submseteq; [pose proof (ring_nodup _ _ (bi_ring H)) as Hnd; by apply NoDup_cons in Hnd as [_ ?]|].
      intros i Hi. apply Hf in Hi as Hu. destruct (ring_some _ _ _ (bi_ring H) Hi) as [b Hb].
      unfold unused in Hu. rewrite Hb in Hu. apply Z.eqb_neq in Hu.
      apply (ring_in _ _ _ (bi_ring H)) in Hi. rewrite (bi_ref H i b) in Hu by done.
      apply elem_of_app. destruct (decide (i ∈ L)); [by left|]. destruct (decide (i ∈ P)); [by right|done]. }
    apply submseteq_length in Hsub. rewrite length_app, (ring_length _ _ (bi_ring H)) in Hsub. lia.
Qed.

(** ** bget *)

(** The state after a buffer was locked. *)
Lemma lock_buffer fuel me pid i s b :
  thread me pid s → k_bufs s !! i = Some b → b_lock b = mk_sl 0 0 → (0 < fuel)%nat →
  acquiresleep fuel (S_buf i) s = Ret tt (set_k_bufs (alter (set_b_lock (mk_sl 1 pid)) i (k_bufs s)) s).
Proof.
  intros Hth Hb Hl Hf. erewrite acquiresleep_free; [done|done| | |done]; simpl; [by rewrite Hb|by rewrite Hl].
Qed.

Lemma bget_hit fuel me pid L P ord s n i b :
  thread me pid s → bio pid L P ord s → in_cache s n i b → i ∉ L → (0 < fuel)%nat →
  bget fuel ROOTDEV n s =
  Ret i (set_k_bufs (alter (λ x, set_b_lock (mk_sl 1 pid) (set_b_refcnt (b_refcnt x + 1) x)) i (k_bufs s)) s).
Proof.
  intros Hth Hbio Hi HiL Hf. pose proof Hi as (Hlt & Hb & _). unfold bget. pose proof (bi_ring Hbio) as Hr.
  erewrite bind_step by (apply acquire_free; rewrite (th_held _ _ _ Hth); set_solver). rewrite (th_held _ _ _ Hth).
  destruct (find_ok ROOTDEV n (set_k_held [L_bcache] s) ord Hr) as (h & Hh & Hfind).
  erewrite bind_step by exact Hh. erewrite bind_step by exact Hfind. cbn [k_bufs set_k_held].
  pose proof (find_caches s n ord (λ y Hy, proj1 (ring_in _ _ y Hr) Hy)) as Hc.
  destruct (List.find _ _) as [j|].
  2: { exfalso. eapply Hc; [|exact Hi]. by apply (ring_in _ _ _ Hr). }
  destruct Hc as [bj Hj]. rewrite <- (bi_uniq Hbio _ _ _ _ _ Hi Hj).
  erewrite bind_step by reflexivity. erewrite bind_step by (by apply release_held).
  erewrite bind_step.
  2: { eapply (lock_buffer fuel me pid i); [|simpl; rewrite list_lookup_alter_eq, Hb; reflexivity| |done].
       - by eapply thread_ext; [exact Hth|..]; simpl; rewrite ?(th_held _ _ _ Hth).
       - simpl. rewrite (bi_lock Hbio i b) by done. by rewrite decide_False. }
  apply ret_eq. apply k_ext; try reflexivity; [simpl; by rewrite (th_held _ _ _ Hth)|].
  simpl. rewrite list_alter_twice. eapply alter_at; [done|]. simpl. f_equal. f_equal.
  rewrite (bi_ref Hbio i b) by done. apply u32_small. repeat case_decide; lia.
Qed.

Lemma bget_miss fuel me pid L P ord s n :
  thread me pid s → bio pid L P ord s → (∀ i b, ¬ in_cache s n i b) → (length L + length P < NBUF)%nat →
  (0 < fuel)%nat →
  ∃ l1 i l2 b, ord = l1 ++ i :: l2 ∧ k_bufs s !! i = Some b ∧ b_refcnt b = 0 ∧
    (∀ j bj, j ∈ l2 → k_bufs s !! j = Some bj → b_refcnt bj ≠ 0) ∧
    bget fuel ROOTDEV n s =
    Ret i (set_k_bufs (alter (λ x, set_b_lock (mk_sl 1 pid) (set_b_refcnt 1 (set_b_valid 0 (set_b_blockno n
      (set_b_dev ROOTDEV x))))) i (k_bufs s)) s).
Proof.
  intros Hth Hbio Hno Hlen Hf. pose proof (bi_ring Hbio) as Hr.
  destruct (free_buffer _ _ _ _ _ Hbio Hlen) as (l1 & i & l2 & b & E & Hlru & Hb & Href & Hl2).
  exists l1, i, l2, b. split_and!; [done..|]. unfold bget.
  assert (i < NBUF)%nat as Hlt by (apply (ring_in _ _ _ Hr); rewrite E; set_solver).
  assert (i ∉ L) as HiL.
  { intros HiL. rewrite (bi_ref Hbio i b), decide_True in Href by done. case_decide; lia. }
  erewrite bind_step by (apply acquire_free; rewrite (th_held _ _ _ Hth); set_solver). rewrite (th_held _ _ _ Hth).
  destruct (find_ok ROOTDEV n (set_k_held [L_bcache] s) ord Hr) as (h & Hh & Hfind).
  erewrite bind_step by exact Hh. erewrite bind_step by exact Hfind. cbn [k_bufs set_k_held].
  pose proof (find_caches s n ord (λ y Hy, proj1 (ring_in _ _ y Hr) Hy)) as Hc.
  destruct (List.find (caches _ _ _) _) as [j|]; [destruct Hc as [bj Hj]; by apply Hno in Hj|].
  destruct (lru_ok (set_k_held [L_bcache] s) ord Hr) as (h' & Hh' & Hfind').
  erewrite bind_step by exact Hh'. erewrite bind_step by exact Hfind'. cbn [k_bufs set_k_held]. rewrite Hlru.
  do 4 (erewrite bind_step by reflexivity). erewrite bind_step by (by apply release_held).
  cbn [k_bufs set_k_held set_k_bufs]. rewrite !list_alter_twice.
  erewrite bind_step.
  2: { eapply (lock_buffer fuel me pid i); [|simpl; rewrite list_lookup_alter_eq, Hb; reflexivity| |done].
       - by eapply thread_ext; [exact Hth|..]; simpl; rewrite ?(th_held _ _ _ Hth).
       - simpl. rewrite (bi_lock Hbio i b) by done. by rewrite decide_False. }
  apply ret_eq. apply k_ext; try reflexivity; [simpl; by rewrite (th_held _ _ _ Hth)|].
  simpl. by rewrite list_alter_twice.
Qed.

(** ** One buffer changes *)

Section update.
Context (pid : Z) (L P L' P' ord : list nat) (s s' : kstate) (i : nat) (f : buf → buf) (b : buf).
Hypothesis Hbio : bio pid L P ord s.
Hypothesis Hi : (i < NBUF)%nat.
Hypothesis Hb : k_bufs s !! i = Some b.
Hypothesis Hbs : k_bufs s' = alter f i (k_bufs s).
Hypothesis Hdev : b_dev (f b) = ROOTDEV.
Hypothesis Hval : b_valid (f b) = 1.
Hypothesis Huniq : ∀ j bj, j ≠ i → ¬ in_cache s (b_blockno (f b)) j bj.
Hypothesis Hdisk : ∀ n, n ≠ b_blockno (f b) → k_disk s' !! n = k_disk s !! n.

Lemma upd_at : k_bufs s' !! i = Some (f b).
Proof. by rewrite Hbs, list_lookup_alter_eq, Hb. Qed.

Lemma upd_ne j : j ≠ i → k_bufs s' !! j = k_bufs s !! j.
Proof. intros. by rewrite Hbs, list_lookup_alter_ne. Qed.

Lemma upd_cache n j bj :
  in_cache s' n j bj ↔ (j = i ∧ bj = f b ∧ n = b_blockno (f b)) ∨ (j ≠ i ∧ in_cache s n j bj).
Proof.
  unfold in_cache. destruct (decide (j = i)) as [->|Hne].
  - rewrite upd_at. naive_solver.
  - rewrite upd_ne by done. naive_solver.
Qed.

Lemma bio_upd :
  (∀ x, b_next (f x) = b_next x) → (∀ x, b_prev (f x) = b_prev x) → vd_idle (k_vd s') →
  (∀ j, j ≠ i → (j ∈ L' ↔ j ∈ L) ∧ (j ∈ P' ↔ j ∈ P)) →
  b_lock (f b) = (if decide (i ∈ L') then mk_sl 1 pid else mk_sl 0 0) →
  b_refcnt (f b) = (if decide (i ∈ L') then 1 else 0) + (if decide (i ∈ P') then 1 else 0) →
  (b_refcnt (f b) = 0 → k_disk s' !! b_blockno (f b) = Some (b_data (f b))) →
  Forall (λ i, (i < NBUF)%nat) (L' ++ P') →
  bio pid L' P' ord s'.
Proof.
  intros Hn Hp Hvd Hiff Hl Hr Hc Hheld. pose proof Hbio as [H1 _ H3 H4 H5 H6 H7 _].
  split; try done.
  - rewrite Hbs. by apply ring_alter.
  - intros n j k bj bk [(-> & -> & ->)|[Hj Cj]]%upd_cache [(-> & -> & E)|[Hk Ck]]%upd_cache; try done.
    + by apply Huniq in Ck.
    + subst n. by apply Huniq in Cj.
    + by eapply H3.
  - intros j bj Hj Hbj. destruct (decide (j = i)) as [->|Hne].
    + rewrite upd_at in Hbj. by simplify_eq.
    + rewrite upd_ne in Hbj by done. rewrite (H4 j bj) by done.
      destruct (Hiff j Hne) as [E _]. by destruct (decide (j ∈ L)), (decide (j ∈ L')); tauto.
  - intros j bj Hj Hbj. destruct (decide (j = i)) as [->|Hne].
    + rewrite upd_at in Hbj. by simplify_eq.
    + rewrite upd_ne in Hbj by done. rewrite (H5 j bj) by done. destruct (Hiff j Hne) as [E1 E2].
      destruct (decide (j ∈ L)), (decide (j ∈ L')), (decide (j ∈ P)), (decide (j ∈ P')); tauto.
  - intros j bj Hj Hbj. destruct (decide (j = i)) as [->|Hne].
    + rewrite upd_at in Hbj. simplify_eq. by rewrite decide_True.
    + rewrite upd_ne in Hbj by done. by apply H6 in Hbj.
  - intros n j bj [(-> & -> & ->)|[Hj Cj]]%upd_cache Href; [by apply Hc|].
    rewrite Hdisk; [by apply (H7 n j)|]. intros ->. by apply Huniq in Cj.
Qed.

Lemma blk_upd n :
  bio pid L' P' ord s' →
  (in_cache s n i b → n ≠ b_blockno (f b) → k_disk s !! n = Some (b_data b)) →
  blk s' n = if decide (n = b_blockno (f b)) then Some (b_data (f b)) else blk s n.
Proof.
  intros Hbio' Hcl. case_decide as E.
  - subst n. eapply blk_cached; [done|]. apply upd_cache. by left.
  - destruct (cached_or_not s n) as [(j & bj & Cj)|Hno].
    + destruct (decide (j = i)) as [->|Hne].
      * assert (bj = b) as -> by (destruct Cj as (_ & Hj & _); congruence).
        rewrite (blk_cached Hbio Cj), <- Hcl by done. rewrite <- Hdisk by done.
        apply blk_disk. intros k bk [(-> & -> & ?)|[Hk Ck]]%upd_cache; [done|].
        apply Hk. eapply (bi_uniq Hbio); done.
      * rewrite (blk_cached Hbio Cj). eapply blk_cached; [done|].
        apply upd_cache. right. eauto.
    + rewrite (blk_disk s n) by done. rewrite <- Hdisk by done. apply blk_disk.
      intros k bk [(-> & -> & ?)|[Hk Ck]]%upd_cache; [done|]. by apply Hno in Ck.
Qed.

End update.

(** ** The operations *)

Context `{D : Device}.

(** The buffer [i] of a state holds block [n] with contents [d]. *)
Definition buf_at (s : kstate) (i : nat) (n : Z) (d : list Z) : Prop :=
  ∃ b, in_cache s n i b ∧ b_data b = d.

Lemma disk_frame_bufs s bs : disk_frame s (set_k_bufs bs s).
Proof. by destruct s. Qed.

(** What a caller of [bread] gets: the buffer, locked, with the block's contents,
    and nothing else changed; a buffer reused for the block was the least recently
    used of those nobody references. *)
Definition bread_post me pid L P ord s n d (i : nat) (s' : kstate) : Prop :=
  thread me pid s' ∧ disk_frame s s' ∧ bio pid (i :: L) P ord s' ∧ k_disk s' = k_disk s ∧
  (∀ m, blk s' m = blk s m) ∧ buf_at s' i n d ∧ i ∉ L ∧ (∀ j, j ≠ i → k_bufs s' !! j = k_bufs s !! j) ∧
  (i ∈ P → buf_at s i n d) ∧
  ((∀ j b, ¬ in_cache s n j b) →
   ∃ l1 l2, ord = l1 ++ i :: l2 ∧ ∀ j b, j ∈ l2 → k_bufs s !! j = Some b → b_refcnt b ≠ 0).

Lemma bread_hit fuel me pid L P ord s n i b C :
  thread me pid s → bio pid L P ord s → in_cache s n i b → i ∉ L → (0 < fuel)%nat →
  wpc (disk_env me) C (bread fuel ROOTDEV n s) (bread_post me pid L P ord s n (b_data b)).
Proof.
  intros Hth Hbio Ci HiL Hf. unfold bread. pose proof Ci as (Hi & Hb & Hdev & Hbn). subst n.
  pose proof (bi_dev Hbio i b Hi Hb) as Hval. rewrite decide_True in Hval by done.
  eapply wpc_step; [by eapply bget_hit|]. set (s1 := set_k_bufs _ s). set (f := λ x, set_b_lock _ _) in s1.
  assert (k_bufs s1 !! i = Some (f b)) as Hb1 by (simpl; by rewrite list_lookup_alter_eq, Hb).
  eapply wpc_step; [by apply getb_some|]. simpl b_valid. rewrite Hval. eapply wpc_step; [done|]. cbn [wpc ret].
  assert (∀ j bj, j ≠ i → ¬ in_cache s (b_blockno (f b)) j bj) as Huq
    by (intros j bj Hj Cj; apply Hj; by eapply (bi_uniq Hbio)).
  assert (bio pid (i :: L) P ord s1) as Hbio1.
  { eapply (bio_upd pid L P (i :: L) P ord s s1 i f b); try done.
    - apply Hbio.
    - intros j Hj. set_solver.
    - by rewrite decide_True by set_solver.
    - simpl. rewrite (bi_ref Hbio i b), decide_False by done.
      rewrite (decide_True (P := i ∈ i :: L)) by set_solver. lia.
    - simpl. intros Hr. rewrite (bi_ref Hbio i b), decide_False in Hr by done. case_decide; lia.
    - simpl. constructor; [done|]. apply Hbio. }
  split_and!; try done.
  - by eapply thread_ext.
  - intros m. rewrite (blk_upd pid L P (i :: L) P ord s s1 i f b); try done.
    + simpl. case_decide as E; [|done]. subst m. by rewrite (blk_cached Hbio Ci).
    + simpl. intros (_ & _ & _ & Em) E. congruence.
  - exists (f b). by split_and!.
  - intros j Hj. simpl. by rewrite list_lookup_alter_ne.
  - intros _. by exists b.
  - intros Hno. by apply Hno in Ci.
Qed.

Lemma bread_miss fuel me pid L P ord s n d C :
  thread me pid s → bio pid L P ord s → (∀ i b, ¬ in_cache s n i b) → k_disk s !! n = Some d → 0 ≤ n < 2 ^ 31 →
  (length L + length P < NBUF)%nat → (2 ≤ fuel)%nat → C (k_disk s) →
  wpc (disk_env me) C (bread fuel ROOTDEV n s) (bread_post me pid L P ord s n d).
Proof.
  intros Hth Hbio Hno Hd Hn Hlen Hf HC. unfold bread.
  destruct (bget_miss fuel _ _ _ _ _ _ _ Hth Hbio Hno Hlen) as (l1 & i & l2 & b & E & Hb & Href & Hl2 & Hget); [lia|].
  assert (i < NBUF)%nat as Hi by (apply (ring_in _ _ _ (bi_ring Hbio)); rewrite E; set_solver).
  assert (i ∉ L ∧ i ∉ P) as [HiL HiP].
  { rewrite (bi_ref Hbio i b) in Href by done. repeat case_decide; done || lia. }
  eapply wpc_step; [exact Hget|]. clear Hget. set (s1 := set_k_bufs _ s). set (f := λ x, set_b_lock _ _) in s1.
  assert (k_bufs s1 !! i = Some (f b)) as Hb1 by (simpl; by rewrite list_lookup_alter_eq, Hb).
  assert (thread me pid s1) as Hth1 by (by eapply thread_ext).
  eapply wpc_step; [by apply getb_some|]. change (truthy (b_valid (f b))) with false. cbn [negb when].
  apply wpc_bind. apply wpc_bind. eapply wpc_mono;
    [eapply (virtio_disk_rw_ok me pid fuel i false s1 (f b) d C); try done; apply Hbio|done|].
  intros _ s2 (Hth2 & Hfr & Hvd & Hdk & Hbs2). cbn [wpc modb modify ret]. unfold modb, modify, ret. cbn [wpc].
  set (s3 := set_k_bufs _ s2). set (g := λ x, set_b_valid 1 (set_b_disk 0 (set_b_data d (f x)))).
  assert (k_bufs s3 = alter g i (k_bufs s)) as Hbs3.
  { simpl. rewrite Hbs2. simpl. by rewrite !list_alter_twice. }
  assert (k_disk s3 = k_disk s) as Hdk3 by exact Hdk.
  assert (bio pid (i :: L) P ord s3) as Hbio3.
  { eapply (bio_upd pid L P (i :: L) P ord s s3 i g b); try done.
    - intros m _. by rewrite Hdk3.
    - intros j Hj. set_solver.
    - by rewrite decide_True by set_solver.
    - rewrite decide_True, decide_False by set_solver. done.
    - simpl. constructor; [done|]. apply Hbio. }
  split_and!; try done.
  - by eapply thread_ext.
  - eapply disk_frame_trans; [exact Hfr|]. apply disk_frame_bufs.
  - intros m. rewrite (blk_upd pid L P (i :: L) P ord s s3 i g b); try done.
    + case_decide as Em; [|done]. rewrite Em. simpl. rewrite blk_disk by done. by rewrite Hd.
    + intros m' _. by rewrite Hdk3.
    + intros Ci _. by eapply (bi_clean Hbio).
  - exists (g b). split; [|done]. unfold in_cache. split_and!; try done. by eapply upd_at.
  - intros j Hj. by eapply upd_ne.
  - intros _. eauto.
Qed.

Lemma bread_ok fuel me pid L P ord s n d C :
  thread me pid s → bio pid L P ord s → blk s n = Some d → is_Some (k_disk s !! n) → 0 ≤ n < 2 ^ 31 →
  (∀ i d', i ∈ L → ¬ buf_at s i n d') →
  (length L + length P < NBUF)%nat ∨ (∃ i d', buf_at s i n d') → (2 ≤ fuel)%nat → C (k_disk s) →
  wpc (disk_env me) C (bread fuel ROOTDEV n s) (bread_post me pid L P ord s n d).
Proof.
  intros Hth Hbio Hd Hdk Hn HL Hlen Hf HC. destruct (cached_or_not s n) as [(i & b & Ci)|Hno].
  - rewrite (blk_cached Hbio Ci) in Hd. injection Hd as <-.
    eapply bread_hit; [done..| |lia]. intros HiL. eapply HL; [done|]. by exists b.
  - rewrite blk_disk in Hd by done. apply bread_miss; try done.
    destruct Hlen as [?|(i & d' & b & Ci & _)]; [done|]. by apply Hno in Ci.
Qed.

(** The thread may store to a buffer it has locked. *)
Lemma store_ok me pid L P ord s i n d d' :
  thread me pid s → bio pid L P ord s → buf_at s i n d → i ∈ L →
  let s' := set_k_bufs (alter (set_b_data d') i (k_bufs s)) s in
  thread me pid s' ∧ disk_frame s s' ∧ bio pid L P ord s' ∧ buf_at s' i n d' ∧
  (∀ m, blk s' m = if decide (m = n) then Some d' else blk s m).
Proof.
  intros Hth Hbio (b & Ci & <-) HiL s'. pose proof Ci as (Hi & Hb & Hdev & <-).
  set (f := set_b_data d').
  pose proof (bi_dev Hbio i b Hi Hb) as Hval. rewrite decide_True in Hval by done.
  assert (∀ j bj, j ≠ i → ¬ in_cache s (b_blockno (f b)) j bj) as Huq
    by (intros j bj Hj Cj; apply Hj; by eapply (bi_uniq Hbio)).
  assert (bio pid L P ord s') as Hbio'.
  { eapply (bio_upd pid L P L P ord s s' i f b); try done;
      [apply (bi_vd Hbio)|by apply (bi_lock Hbio i b)|by apply (bi_ref Hbio i b)| |apply (bi_held Hbio)].
    simpl. intros Hr. rewrite (bi_ref Hbio i b), decide_True in Hr by done. case_decide; lia. }
  split_and!; try done; [by eapply thread_ext|..].
  - exists (f b). split; [|done]. unfold in_cache. split_and!; try done. by eapply upd_at.
  - intros m. rewrite (blk_upd pid L P L P ord s s' i f b); try done.
    simpl. intros (_ & _ & _ & Em) E. congruence.
Qed.

Lemma bwrite_ok fuel me pid L P ord s i n d C :
  thread me pid s → bio pid L P ord s → buf_at s i n d → i ∈ L → is_Some (k_disk s !! n) → 0 ≤ n < 2 ^ 31 →
  (2 ≤ fuel)%nat → C (k_disk s) → C (<[n := d]> (k_disk s)) →
  wpc (disk_env me) C (bwrite fuel i s) (λ _ s',
    thread me pid s' ∧ disk_frame s s' ∧ bio pid L P ord s' ∧ k_disk s' = <[n := d]> (k_disk s) ∧
    buf_at s' i n d ∧ (∀ m, blk s' m = blk s m) ∧ (∀ j, j ≠ i → k_bufs s' !! j = k_bufs s !! j)).
Proof.
  intros Hth Hbio (b & Ci & <-) HiL [blk0 Hdk] Hn Hf HC HC'. pose proof Ci as (Hi & Hb & Hdev & Hbn). subst n.
  unfold bwrite. eapply wpc_step.
  { eapply holdingsleep_ok; [done|]. simpl. by rewrite Hb. }
  simpl. rewrite (bi_lock Hbio i b), decide_True by done. simpl. rewrite Z.eqb_refl. cbn [negb andb].
  change (truthy 1) with true. cbn [negb andb].
  eapply wpc_mono; [eapply (virtio_disk_rw_ok me pid fuel i true s b blk0 C); try done; apply Hbio|done|].
  intros _ s2 (Hth2 & Hfr & Hvd & Hdk2 & Hbs2). cbn beta iota in Hbs2, Hdk2.
  pose proof (bi_dev Hbio i b Hi Hb) as Hval. rewrite decide_True in Hval by done.
  set (f := set_b_disk 0) in *.
  assert (∀ j bj, j ≠ i → ¬ in_cache s (b_blockno (f b)) j bj) as Huq
    by (intros j bj Hj Cj; apply Hj; by eapply (bi_uniq Hbio)).
  assert (∀ m, m ≠ b_blockno (f b) → k_disk s2 !! m = k_disk s !! m) as Hdm.
  { intros m Hm. rewrite Hdk2, lookup_insert_ne by done. done. }
  assert (bio pid L P ord s2) as Hbio'.
  { eapply (bio_upd pid L P L P ord s s2 i f b); try done;
      [by apply (bi_lock Hbio i b)|by apply (bi_ref Hbio i b)| |apply (bi_held Hbio)].
    simpl. intros Hr. by rewrite Hdk2, lookup_insert_eq. }
  split_and!; try done.
  - exists (f b). split; [|done]. unfold in_cache. split_and!; try done. by eapply upd_at.
  - intros m. rewrite (blk_upd pid L P L P ord s s2 i f b); try done.
    + simpl. case_decide as E; [|done]. subst m. by rewrite (blk_cached Hbio Ci).
    + simpl. intros (_ & _ & _ & Em) E. congruence.
  - intros j Hj. by eapply upd_ne.
Qed.

(** All of a buffer but its links. *)
Definition content (b : buf) : Z * Z * Z * sleeplock * Z * list Z :=
  (b_valid b, b_dev b, b_blockno b, b_lock b, b_refcnt b, b_data b).

Definition same_content (bs bs' : list buf) : Prop := ∀ j, content <$> bs' !! j = content <$> bs !! j.

Lemma same_content_alter f i bs : (∀ b, content (f b) = content b) → same_content bs (alter f i bs).
Proof.
  intros Hf j. destruct (decide (j = i)) as [->|]; [|by rewrite list_lookup_alter_ne].
  rewrite list_lookup_alter_eq. destruct (bs !! i); simpl; [by rewrite Hf|done].
Qed.

Lemma same_content_trans bs1 bs2 bs3 : same_content bs1 bs2 → same_content bs2 bs3 → same_content bs1 bs3.
Proof. intros H1 H2 j. by rewrite H2, H1. Qed.

Lemma relinked_content b p n h bs : same_content bs (pushed b h (unlinked p n bs)).
Proof.
  unfold pushed, unlinked.
  repeat (eapply same_content_trans; [|by apply same_content_alter]). done.
Qed.

Lemma same_lookup bs bs' j b' :
  same_content bs bs' → bs' !! j = Some b' → ∃ b, bs !! j = Some b ∧ content b' = content b.
Proof.
  intros H Hb. specialize (H j). rewrite Hb in H. destruct (bs !! j) as [b|]; [|done]. injection H as H.
  exists b. split; [done|]. unfold content. congruence.
Qed.

Lemma same_sym bs bs' : same_content bs bs' → same_content bs' bs.
Proof. intros H j. by rewrite H. Qed.

Lemma in_cache_same s s' n i b' :
  same_content (k_bufs s) (k_bufs s') → in_cache s' n i b' →
  ∃ b, in_cache s n i b ∧ b_data b = b_data b' ∧ b_refcnt b = b_refcnt b'.
Proof.
  intros H (Hi & Hb & Hd & Hn). destruct (same_lookup _ _ _ _ H Hb) as (b & Hb1 & E).
  injection E as E1 E2 E3 E4 E5 E6. exists b. unfold in_cache. split_and!; congruence.
Qed.

Lemma buf_at_same s s' i n d : same_content (k_bufs s) (k_bufs s') → buf_at s i n d ↔ buf_at s' i n d.
Proof.
  intros H. split; intros (b & Ci & <-).
  - destruct (in_cache_same _ _ _ _ _ (same_sym _ _ H) Ci) as (b' & ? & ? & _). by exists b'.
  - destruct (in_cache_same _ _ _ _ _ H Ci) as (b' & ? & ? & _). by exists b'.
Qed.

(** The links may change as long as they still form the list. *)
Lemma bio_relink pid L P ord ord' s s' :
  bio pid L P ord s → same_content (k_bufs s) (k_bufs s') → ring (k_bufs s') ord' →
  vd_idle (k_vd s') → k_disk s' = k_disk s → bio pid L P ord' s'.
Proof.
  intros Hbio H Hr Hvd Hd. split; try done.
  - intros n i j bi bj Ci Cj. destruct (in_cache_same _ _ _ _ _ H Ci) as (? & ? & _).
    destruct (in_cache_same _ _ _ _ _ H Cj) as (? & ? & _). by eapply (bi_uniq Hbio).
  - intros i b Hi Hb. destruct (same_lookup _ _ _ _ H Hb) as (b' & Hb' & E). injection E as E1 E2 E3 E4 E5 E6.
    rewrite E4. by apply (bi_lock Hbio).
  - intros i b Hi Hb. destruct (same_lookup _ _ _ _ H Hb) as (b' & Hb' & E). injection E as E1 E2 E3 E4 E5 E6.
    rewrite E5. by apply (bi_ref Hbio).
  - intros i b Hi Hb. destruct (same_lookup _ _ _ _ H Hb) as (b' & Hb' & E). injection E as E1 E2 E3 E4 E5 E6.
    rewrite E1, E2, E5. by apply (bi_dev Hbio i).
  - intros n i b Ci Hr0. destruct (in_cache_same _ _ _ _ _ H Ci) as (b' & Ci' & Ed & Er).
    rewrite Hd, <- Ed. eapply (bi_clean Hbio); [done|]. congruence.
  - apply (bi_held Hbio).
Qed.

Lemma blk_relink pid L P ord pid' L' P' ord' s s' n :
  bio pid L P ord s → bio pid' L' P' ord' s' → same_content (k_bufs s) (k_bufs s') → k_disk s' = k_disk s →
  blk s' n = blk s n.
Proof.
  intros Hbio Hbio' H Hd. destruct (cached_or_not s' n) as [(i & b & Ci)|Hno].
  - destruct (in_cache_same _ _ _ _ _ H Ci) as (b' & Ci' & Ed & _).
    by rewrite (blk_cached Hbio Ci'), (blk_cached Hbio' Ci), Ed.
  - rewrite !blk_disk; [by rewrite Hd| |done]. intros i b Ci.
    destruct (in_cache_same _ _ _ _ _ (same_sym _ _ H) Ci) as (b' & Ci' & _). by eapply Hno.
Qed.
(** A change of a buffer's book-keeping does not change what the cache holds. *)
Lemma view_upd pid L P L' P' ord s s' i f b :
  bio pid L P ord s → bio pid L' P' ord s' → in_cache s (b_blockno b) i b →
  k_bufs s' = alter f i (k_bufs s) → b_dev (f b) = ROOTDEV → b_valid (f b) = 1 →
  b_blockno (f b) = b_blockno b → b_data (f b) = b_data b →
  (∀ n, n ≠ b_blockno b → k_disk s' !! n = k_disk s !! n) →
  (∀ m, blk s' m = blk s m) ∧ (∀ j m e, buf_at s' j m e ↔ buf_at s j m e).
Proof.
  intros Hbio Hbio' Ci Hbs Hdev Hval Hbn Hda Hdk. pose proof Ci as (Hi & Hb & _).
  assert (∀ j bj, j ≠ i → ¬ in_cache s (b_blockno (f b)) j bj) as Huq.
  { intros j bj Hj Cj. apply Hj. rewrite Hbn in Cj. by eapply (bi_uniq Hbio). }
  assert (∀ n, n ≠ b_blockno (f b) → k_disk s' !! n = k_disk s !! n) as Hdk' by (by rewrite Hbn).
  split.
  - intros m. rewrite (blk_upd pid L P L' P' ord s s' i f b); try done.
    + case_decide as E; [|done]. by rewrite E, Hbn, Hda, (blk_cached Hbio Ci).
    + intros (_ & _ & _ & Em) E. congruence.
  - intros j m e. unfold buf_at. split; intros (bj & Cj & <-).
    + apply (upd_cache s s' i f b) in Cj as [(-> & -> & ->)|[Hj Cj]]; try done; [|by exists bj].
      exists b. by rewrite Hbn.
    + destruct (decide (j = i)) as [->|Hj].
      * assert (bj = b) as -> by (destruct Cj as (_ & ? & _); congruence). exists (f b). split; [|done].
        apply (upd_cache s s' i f b); try done. left. destruct Cj as (_ & _ & _ & <-). done.
      * exists bj. split; [|done]. apply (upd_cache s s' i f b); try done. by right.
Qed.

(** The tail of [brelse] for a buffer nobody references any more. *)
Lemma relink_ok i x l1 l2 s :
  ring (k_bufs s) (l1 ++ i :: l2) → k_bufs s !! i = Some x →
  ∃ h, (modb (b_next x) (set_b_prev (b_prev x));;
        modb (b_prev x) (set_b_next (b_next x));;
        h <- getb NBUF;;
        modb i (set_b_next (b_next h));;
        modb i (set_b_prev NBUF);;
        modb (b_next h) (set_b_prev i);;
        modb NBUF (set_b_next i)) s =
      Ret tt (set_k_bufs (pushed i h (unlinked (b_prev x) (b_next x) (k_bufs s))) s) ∧
    ring (pushed i h (unlinked (b_prev x) (b_next x) (k_bufs s))) (i :: l1 ++ l2).
Proof.
  intros Hr Hx. destruct (ring_move _ _ _ _ _ Hr Hx) as (h & Hh & Hr'). exists h. split; [|done].
  do 2 (erewrite bind_step by reflexivity). cbn [k_bufs set_k_bufs].
  unfold nx in Hh. apply fmap_Some in Hh as (hb & Hhb & ->).
  erewrite bind_step by (apply getb_some; exact Hhb).
  do 3 (erewrite bind_step by reflexivity). reflexivity.
Qed.

Lemma brelse_ok me pid L L' P ord s i n d :
  thread me pid s → bio pid L P ord s → L ≡ₚ i :: L' → i ∉ L' → buf_at s i n d →
  i ∈ P ∨ k_disk s !! n = Some d →
  ∃ s' ord', brelse i s = Ret tt s' ∧
    thread me pid s' ∧ disk_frame s s' ∧ bio pid L' P ord' s' ∧ k_disk s' = k_disk s ∧
    (∀ m, blk s' m = blk s m) ∧ (∀ j m e, buf_at s' j m e ↔ buf_at s j m e) ∧
    (if decide (i ∈ P) then ord' = ord else ∃ l1 l2, ord = l1 ++ i :: l2 ∧ ord' = i :: l1 ++ l2).
Proof.
  intros Hth Hbio HL HiL' (b & Ci & <-) Hcl. pose proof Ci as (Hi & Hb & Hdev & Hbn). subst n.
  pose proof (bi_dev Hbio i b Hi Hb) as Hval. rewrite decide_True in Hval by done.
  assert (i ∈ L) as HiL by (rewrite HL; by left).
  unfold brelse. erewrite bind_step by (eapply holdingsleep_ok; [done|]; simpl; by rewrite Hb).
  simpl. rewrite (bi_lock Hbio i b), decide_True by done. simpl. rewrite Z.eqb_refl.
  change (truthy 1) with true. cbn [negb andb].
  erewrite bind_step by (eapply releasesleep_ok; [done|]; simpl; by rewrite Hb).
  set (f := λ x, set_b_refcnt (if decide (i ∈ P) then 1 else 0) (set_b_lock (mk_sl 0 0) x)).
  set (ps := imap (wake_one (Some me) (Ch_sleeplock (S_buf i))) (k_procs s)).
  set (s1 := set_k_procs ps (set_k_bufs (alter f i (k_bufs s)) s)).
  erewrite bind_step by (apply acquire_free; simpl; rewrite (th_held _ _ _ Hth); set_solver).
  erewrite bind_step by reflexivity. cbn [k_bufs set_k_bufs set_k_held set_k_procs upd_sl k_held].
  rewrite (th_held _ _ _ Hth), list_alter_twice.
  rewrite (alter_at _ f i (k_bufs s) b Hb).
  2: { unfold f. simpl. f_equal. rewrite (bi_ref Hbio i b), decide_True by done. by case_decide. }
  assert (thread me pid s1) as Hth1 by (eapply thread_ext; [eapply thread_wakeup, Hth|done..]).
  assert (k_bufs s1 !! i = Some (f b)) as Hb1 by (simpl; by rewrite list_lookup_alter_eq, Hb).
  assert (∀ j bj, j ≠ i → ¬ in_cache s (b_blockno (f b)) j bj) as Huq
    by (intros j bj Hj Cj; apply Hj; by eapply (bi_uniq Hbio)).
  assert (bio pid L' P ord s1) as Hbio1.
  { eapply (bio_upd pid L P L' P ord s s1 i f b); try done.
    - apply (bi_vd Hbio).
    - intros j Hj. rewrite HL. set_solver.
    - by rewrite decide_False.
    - by rewrite (decide_False (P := i ∈ L')).
    - simpl. intros Hr. destruct Hcl as [Hin|Hcl]; [rewrite decide_True in Hr by done; lia|done].
    - pose proof (bi_held Hbio) as HF. rewrite HL in HF. by inversion HF. }
  destruct (view_upd pid L P L' P ord s s1 i f b) as [Hblk Hat]; try done.
  erewrite bind_step by (apply getb_some; simpl; by rewrite list_lookup_alter_eq, Hb).
  simpl b_refcnt. destruct (decide (i ∈ P)) as [HiP|HiP].
  - change (1 =? 0) with false. cbn [when]. erewrite bind_step by reflexivity.
    erewrite release_held by reflexivity. exists s1, ord. split_and!; try done.
    apply ret_eq, k_ext; try reflexivity. simpl. by rewrite (th_held _ _ _ Hth).
  - change (0 =? 0) with true. cbn [when]. set (s2 := set_k_bufs _ _).
    destruct (list_elem_of_split ord i) as (l1 & l2 & ->); [by apply (ring_in _ _ _ (bi_ring Hbio))|].
    destruct (relink_ok i (f b) l1 l2 s2) as (h & Hrun & Hring); [apply (bi_ring Hbio1)|exact Hb1|].
    erewrite bind_step by exact Hrun. erewrite release_held by reflexivity.
    assert (same_content (k_bufs s1) (pushed i h (unlinked (b_prev (f b)) (b_next (f b)) (k_bufs s2)))) as Hsame
      by (apply relinked_content).
    set (s3 := set_k_held [] _). assert (bio pid L' P (i :: l1 ++ l2) s3) as Hbio3.
    { eapply bio_relink; [exact Hbio1|exact Hsame|exact Hring|apply (bi_vd Hbio)|done]. }
    exists s3, (i :: l1 ++ l2). split_and!; [done| | |done|done|..|by eexists _, _].
    + by eapply thread_ext; [exact Hth1|..]; simpl; rewrite ?(th_held _ _ _ Hth).
    + apply k_ext; try reflexivity. simpl. by rewrite (th_held _ _ _ Hth).
    + intros m. rewrite <- Hblk. by eapply blk_relink.
    + intros j m e. rewrite <- Hat. symmetry. by apply buf_at_same.
Qed.


(** What [bpin] and [bunpin] have in common. *)
Lemma ref_upd me pid L P P' ord s i b r :
  thread me pid s → bio pid L P ord s → in_cache s (b_blockno b) i b → i ∈ L →
  (∀ j, j ≠ i → j ∈ P' ↔ j ∈ P) → r = 1 + (if decide (i ∈ P') then 1 else 0) →
  Forall (λ i, (i < NBUF)%nat) P' →
  let s' := set_k_bufs (alter (set_b_refcnt r) i (k_bufs s)) s in
  thread me pid s' ∧ disk_frame s s' ∧ bio pid L P' ord s' ∧
  (∀ m, blk s' m = blk s m) ∧ (∀ j m e, buf_at s' j m e ↔ buf_at s j m e).
Proof.
  intros Hth Hbio Ci HiL HP Hr HF s'. pose proof Ci as (Hi & Hb & Hdev & _).
  pose proof (bi_dev Hbio i b Hi Hb) as Hval. rewrite decide_True in Hval by done.
  assert (bio pid L P' ord s') as Hbio'.
  { eapply (bio_upd pid L P L P' ord s s' i (set_b_refcnt r) b); try done.
    - intros j bj Hj Cj. apply Hj. by eapply (bi_uniq Hbio).
    - apply (bi_vd Hbio).
    - naive_solver.
    - by apply (bi_lock Hbio i b).
    - rewrite decide_True by done. exact Hr.
    - simpl. intros E. subst r. case_decide; lia.
    - apply Forall_app. split; [|done]. pose proof (bi_held Hbio) as H. by apply Forall_app in H as [? _]. }
  destruct (view_upd pid L P L P' ord s s' i (set_b_refcnt r) b) as [Hblk Hat]; try done.
  split_and!; try done. by eapply thread_ext.
Qed.

Lemma bpin_ok me pid L P ord s i n d :
  thread me pid s → bio pid L P ord s → buf_at s i n d → i ∈ L → i ∉ P →
  ∃ s', bpin i s = Ret tt s' ∧ thread me pid s' ∧ disk_frame s s' ∧ bio pid L (i :: P) ord s' ∧
    k_disk s' = k_disk s ∧ (∀ m, blk s' m = blk s m) ∧ (∀ j m e, buf_at s' j m e ↔ buf_at s j m e).
Proof.
  intros Hth Hbio (b & Ci & <-) HiL HiP. pose proof Ci as (Hi & Hb & Hdev & Hbn). subst n.
  pose proof (bi_held Hbio) as HF. apply Forall_app in HF as [_ HF].
  destruct (ref_upd me pid L P (i :: P) ord s i b 2) as (H1 & H2 & H3 & H4 & H5); try done.
  { set_solver. } { by rewrite decide_True by set_solver. } { by constructor. }
  eexists. split; [|split_and!; [exact H1|exact H2|exact H3|done|exact H4|exact H5]].
  unfold bpin. erewrite bind_step by (apply acquire_free; rewrite (th_held _ _ _ Hth); set_solver).
  erewrite bind_step by reflexivity. rewrite (th_held _ _ _ Hth). erewrite release_held by reflexivity.
  apply ret_eq, k_ext; try reflexivity; simpl; [by rewrite (th_held _ _ _ Hth)|].
  eapply alter_at; [done|]. f_equal. rewrite (bi_ref Hbio i b), decide_True, decide_False by done. done.
Qed.

Lemma bunpin_ok me pid L P P' ord s i n d :
  thread me pid s → bio pid L P ord s → buf_at s i n d → i ∈ L → P ≡ₚ i :: P' → i ∉ P' →
  ∃ s', bunpin i s = Ret tt s' ∧ thread me pid s' ∧ disk_frame s s' ∧ bio pid L P' ord s' ∧
    k_disk s' = k_disk s ∧ (∀ m, blk s' m = blk s m) ∧ (∀ j m e, buf_at s' j m e ↔ buf_at s j m e).
Proof.
  intros Hth Hbio (b & Ci & <-) HiL HP HiP'. pose proof Ci as (Hi & Hb & Hdev & Hbn). subst n.
  pose proof (bi_held Hbio) as HF. apply Forall_app in HF as [_ HF]. rewrite HP in HF. apply Forall_cons in HF as [_ HF].
  destruct (ref_upd me pid L P P' ord s i b 1) as (H1 & H2 & H3 & H4 & H5); try done.
  { intros j Hj. rewrite HP. set_solver. } { by rewrite decide_False. }
  eexists. split; [|split_and!; [exact H1|exact H2|exact H3|done|exact H4|exact H5]].
  unfold bunpin. erewrite bind_step by (apply acquire_free; rewrite (th_held _ _ _ Hth); set_solver).
  erewrite bind_step by reflexivity. rewrite (th_held _ _ _ Hth). erewrite release_held by reflexivity.
  apply ret_eq, k_ext; try reflexivity; simpl; [by rewrite (th_held _ _ _ Hth)|].
  eapply alter_at; [done|]. f_equal. rewrite (bi_ref Hbio i b), !decide_True by (done || rewrite HP; set_solver). done.
Qed.

(** The cache as [binit] leaves it: every buffer is new. *)
Definition fresh_cache : list buf :=
  match binit bss with Ret _ s => k_bufs s | _ => [] end.

Lemma fresh_ring : ring fresh_cache (rev (seq 0 NBUF)).
Proof.
  split.
  - vm_compute. reflexivity.
  - symmetry. apply Permutation_rev.
  - vm_compute. repeat split.
  - vm_compute. repeat split.
Qed.
Lemma fresh_all i b : (i < NBUF)%nat → fresh_cache !! i = Some b → content b = content zero_buf.
Proof.
  intros Hi Hb. assert (Forall (λ b, content b = content zero_buf) fresh_cache) as H.
  { vm_compute. repeat constructor. }
  by eapply Forall_lookup_1 in H.
Qed.

Lemma binit_ok s : k_bufs s = replicate (S NBUF) zero_buf → binit s = Ret tt (set_k_bufs fresh_cache s).
Proof.
  intros H. destruct s. simpl in H. subst. vm_compute. reflexivity.
Qed.
Lemma bio_fresh pid s :
  k_bufs s = fresh_cache → vd_idle (k_vd s) → bio pid [] [] (rev (seq 0 NBUF)) s.
Proof.
  intros Hb Hvd.
  assert (∀ i b, (i < NBUF)%nat → k_bufs s !! i = Some b →
    b_dev b = 0 ∧ b_lock b = mk_sl 0 0 ∧ b_refcnt b = 0) as Hall.
  { intros i b Hi Hi'. rewrite Hb in Hi'. apply fresh_all in Hi'; [|exact Hi]. clear Hb.
    injection Hi' as E1 E2 E3 E4 E5. auto. }
  assert (∀ n i b, ¬ in_cache s n i b) as Hno.
  { intros n i b (Hi & Hi' & Hd & _). destruct (Hall i b Hi Hi') as [E _]. rewrite E in Hd. discriminate Hd. }
  split.
  - rewrite Hb. apply fresh_ring.
  - exact Hvd.
  - intros n i j bi bj Ci. destruct (Hno n i bi Ci).
  - intros i b Hi Hi'. by destruct (Hall i b Hi Hi') as (_ & ? & _).
  - intros i b Hi Hi'. by destruct (Hall i b Hi Hi') as (_ & _ & ?).
  - intros i b Hi Hi'. destruct (Hall i b Hi Hi') as (E & _ & Er). by rewrite decide_False by (by rewrite E).
  - intros n i b Ci. destruct (Hno n i b Ci).
  - constructor.
Qed.

Lemma blk_fresh s n : k_bufs s = fresh_cache → blk s n = k_disk s !! n.
Proof.
  intros Hb. apply blk_disk. intros i b (Hi & Hi' & Hd & _). rewrite Hb in Hi'. apply fresh_all in Hi'; [|done].
  injection Hi' as _ E _ _ _. rewrite E in Hd. discriminate Hd.
Qed.

(** C5: The buffer cache is transparent: [bread] of any block returns (after waiting
    for the disk if it has to) a buffer locked by the caller that holds the block's
    current contents, from the cache if it is there and from the disk otherwise;
    no block's contents, no other buffer and nothing on the disk changes.  A buffer
    it reuses is unreferenced, clean, and the least recently used of those. *)
Theorem bread_correct fuel me pid L P ord s n d C :
  thread me pid s → bio pid L P ord s → blk s n = Some d → is_Some (k_disk s !! n) → 0 ≤ n < 2 ^ 31 →
  (∀ i d', i ∈ L → ¬ buf_at s i n d') →
  (length L + length P < NBUF)%nat ∨ (∃ i d', buf_at s i n d') → (2 ≤ fuel)%nat → C (k_disk s) →
  wpc (disk_env me) C (bread fuel ROOTDEV n s) (bread_post me pid L P ord s n d).
Proof. apply bread_ok. Qed.

(** [brelse] gives a buffer back: it is unlocked, its waiters are woken, every
    block keeps its contents, and a buffer nobody else references becomes the most
    recently used one while the others keep their order. *)
Theorem brelse_correct me pid L L' P ord s i n d :
  thread me pid s → bio pid L P ord s → L ≡ₚ i :: L' → i ∉ L' → buf_at s i n d →
  i ∈ P ∨ k_disk s !! n = Some d →
  ∃ s' ord', brelse i s = Ret tt s' ∧
    thread me pid s' ∧ disk_frame s s' ∧ bio pid L' P ord' s' ∧ k_disk s' = k_disk s ∧
    (∀ m, blk s' m = blk s m) ∧ (∀ j m e, buf_at s' j m e ↔ buf_at s j m e) ∧
    (if decide (i ∈ P) then ord' = ord else ∃ l1 l2, ord = l1 ++ i :: l2 ∧ ord' = i :: l1 ++ l2).
Proof. apply brelse_ok. Qed.

End bio.

(** ** A machine with a disk *)

Definition ready_vdisk : vdisk := set_vd_free (replicate NUM 1) zero_vdisk.
Definition demo_block : list Z := replicate 1024 7.
Definition demo_disk : kstate :=
  set_k_disk {[5 := demo_block]} (set_k_vd ready_vdisk (set_k_bufs fresh_cache
    (set_k_cur (Some 0%nat) (set_k_procs (<[0%nat := set_p_pid 3 (set_p_state RUNNING zero_proc)]>
      (k_procs bss)) bss)))).

Lemma ready_idle : vd_idle ready_vdisk.
Proof. by split. Qed.

Lemma demo_disk_bufs : k_bufs demo_disk = fresh_cache.
Proof. unfold demo_disk. cbn [k_bufs set_k_disk set_k_vd set_k_bufs]. reflexivity. Qed.

Lemma demo_disk_thread : thread 0 3 demo_disk.
Proof. split; try done. by eexists. Qed.

Lemma demo_disk_bio : bio 3 [] [] (rev (seq 0 NBUF)) demo_disk.
Proof. apply bio_fresh; [exact demo_disk_bufs|exact ready_idle]. Qed.

(** A machine on which one block is in the cache, in buffer 0. *)
Definition with_buf (n : Z) (data : list Z) (lk : sleeplock) (ref : Z) (s : kstate) : kstate :=
  set_k_bufs (alter (λ b, set_b_lock lk (set_b_refcnt ref (set_b_valid 1 (set_b_dev ROOTDEV
    (set_b_blockno n (set_b_data data b)))))) 0%nat (k_bufs s)) s.

Lemma with_buf_thread me pid n data lk ref s : thread me pid s → thread me pid (with_buf n data lk ref s).
Proof. intros H. by apply (thread_ext me pid s). Qed.

Lemma with_buf_ok pid L P n data s :
  k_bufs s = fresh_cache → vd_idle (k_vd s) → L ++ P = [0%nat] →
  let s' := with_buf n data (if decide (L = []) then mk_sl 0 0 else mk_sl 1 pid) 1 s in
  bio pid L P (rev (seq 0 NBUF)) s' ∧ buf_at s' 0 n data ∧
  ∀ m, blk s' m = if decide (m = n) then Some data else k_disk s !! m.
Proof.
  intros Hb Hvd HLP s'. assert (∃ b0, fresh_cache !! 0%nat = Some b0) as [b0 Hb0].
  { apply lookup_lt_is_Some. vm_compute. lia. }
  assert (∀ n i b, ¬ in_cache s n i b) as Hno.
  { intros n' i b (Hi & Hi' & Hd & _). rewrite Hb in Hi'. apply fresh_all in Hi'; [|exact Hi].
    injection Hi' as _ E _ _ _. rewrite E in Hd. discriminate Hd. }
  pose proof (bio_fresh pid s Hb Hvd) as Hbio. rewrite <- Hb in Hb0.
  set (f := λ b, set_b_lock (if decide (L = []) then mk_sl 0 0 else mk_sl 1 pid) (set_b_refcnt 1 (set_b_valid 1
    (set_b_dev ROOTDEV (set_b_blockno n (set_b_data data b)))))).
  assert (bio pid L P (rev (seq 0 NBUF)) s') as Hbio'.
  { assert ((L = [] ∧ P = [0%nat]) ∨ (L = [0%nat] ∧ P = [])) as HLP'.
    { clear - HLP. destruct L as [|x [|y L]], P as [|z [|w P]]; simplify_eq/=; auto. }
    assert (0 < NBUF)%nat as H0 by (unfold NBUF; lia).
    refine (bio_upd pid [] [] L P _ s s' 0 f b0 Hbio H0 Hb0 eq_refl eq_refl eq_refl _ _ _ _ Hvd _ _ _ _ _); try reflexivity.
    - intros j bj _. apply Hno.
    - intros j Hj. clear - Hj HLP'. destruct HLP' as [[-> ->]|[-> ->]]; set_solver.
    - destruct HLP' as [[-> ->]|[-> ->]]; reflexivity.
    - destruct HLP' as [[-> ->]|[-> ->]]; reflexivity.
    - discriminate.
    - rewrite HLP. by constructor. }
  assert (k_bufs s' !! 0%nat = Some (f b0)) as Hat by (simpl; rewrite list_lookup_alter_eq, Hb0; reflexivity).
  split_and!; [exact Hbio'| |].
  - exists (f b0). split; [|reflexivity]. split; [unfold NBUF; lia|]. split_and!; [exact Hat|reflexivity..].
  - intros m. rewrite <- (blk_fresh s m Hb).
    apply (blk_upd pid [] [] L P (rev (seq 0 NBUF)) s s' 0 f b0 Hbio);
      first [exact Hbio'|exact Hb0|unfold NBUF; lia|intros j bj _; apply Hno|
             intros Hc; exfalso; revert Hc; apply Hno|reflexivity|intros k _; reflexivity].
Qed.

Lemma brelse_correct_witness :
  ∃ s' ord', brelse 0 (with_buf 5 demo_block (mk_sl 1 3) 1 demo_disk) = Ret tt s' ∧ bio 3 [] [] ord' s'.
Proof.
  destruct (with_buf_ok 3 [0%nat] [] 5 demo_block demo_disk demo_disk_bufs ready_idle eq_refl) as (Hbio & Hat & _).
  pose proof (with_buf_thread 0 3 5 demo_block (mk_sl 1 3) 1 demo_disk demo_disk_thread) as Hth.
  destruct (brelse_correct 0 3 [0%nat] [] [] (rev (seq 0 NBUF)) (with_buf 5 demo_block (mk_sl 1 3) 1 demo_disk)
    0 5 demo_block Hth Hbio) as (s' & ord' & Hrun & _ & _ & Hb & _).
  - reflexivity.
  - apply not_elem_of_nil.
  - exact Hat.
  - right. reflexivity.
  - exists s', ord'. split; [exact Hrun|exact Hb].
Defined.

Lemma bread_correct_witness :
  wpc (@disk_env qemu_disk 0) (λ _, True) (bread 2 ROOTDEV 5 demo_disk)
    (bread_post 0 3 [] [] (rev (seq 0 NBUF)) demo_disk 5 demo_block).
Proof.
  apply (@bread_correct qemu_disk); [apply demo_disk_thread|apply demo_disk_bio|..|done].
  - by rewrite blk_fresh.
  - by eexists.
  - done.
  - intros i d' Hi. by apply not_elem_of_nil in Hi.
  - left. simpl. unfold NBUF. lia.
  - lia.
Defined.
