(* ===== verification/Log.v ===== *)
(** * The log

    [kernel/log.c]: transactions, group commit and recovery.  A header or data
    block is the list of its bytes; [replay] says what recovery makes of a disk.
    The theorems are about every disk a crash can leave behind: at each point at
    which the device may have stopped, [replay] gives the state before the
    transaction or the state after it, and recovery, interrupted as often as it
    may be, arrives at that state. *)

From Stdlib Require Import ZArith Lia.
From S2P Require Import Prelude Machine Kernel Boot Kalloc Vm ProcTable Seq Sleeplock Virtio Bio.

(** ** Integers in a block *)

Definition get32 (l : list Z) (off : nat) : Z := le_val (take 4 (drop off l)).
Definition put32 (off : nat) (v : Z) (l : list Z) : list Z := take off l ++ le_bytes 4 v ++ drop (off + 4) l.

(** [hb->block[i] = log.lh.block[i]] for the entries of [bl]. *)
Fixpoint put_blocks (bl : list Z) (off : nat) (data : list Z) : list Z :=
  match bl with
  | [] => data
  | v :: bl' => put_blocks bl' (off + 4) (put32 off v data)
  end.

Section log.
Context `{B : Build}.
Variable fuel : nat.

Definition modlg (f : log → log) : M unit := modify (λ s, set_k_log (f (k_log s)) s).

Definition install_trans (recovering : bool) : M unit :=
  lg <- gets k_log;;
  for_each (seqZ 0 (lg_n lg)) (λ tail,
    lg <- gets k_log;;
    lbuf <- bread fuel (lg_dev lg) (u32 (lg_start lg + tail + 1));;
    bno <- unwrap (lg_block lg !! Z.to_nat tail);;
    dbuf <- bread fuel (lg_dev lg) (u32 bno);;
    lb <- getb lbuf;;
    modb dbuf (set_b_data (b_data lb));;
    bwrite fuel dbuf;;
    when (negb recovering) (bunpin dbuf);;
    brelse lbuf;;
    brelse dbuf).

(** The stores to [log.lh.block] past its end are outside the object. *)
Definition read_head : M unit :=
  lg <- gets k_log;;
  buf <- bread fuel (lg_dev lg) (u32 (lg_start lg));;
  b <- getb buf;;
  let n := s32 (get32 (b_data b) 0) in
  modlg (set_lg_n n);;
  for_each (seqZ 0 n) (λ i,
    if i <? LOGSIZE
    then modlg (λ lg, set_lg_block (<[Z.to_nat i := s32 (get32 (b_data b) (Z.to_nat (4 + 4 * i)))]> (lg_block lg)) lg)
    else fault);;
  brelse buf.

Definition write_head : M unit :=
  lg <- gets k_log;;
  buf <- bread fuel (lg_dev lg) (u32 (lg_start lg));;
  modb buf (λ b, set_b_data (put_blocks (take (Z.to_nat (lg_n lg)) (lg_block lg)) 4
                               (put32 0 (lg_n lg) (b_data b))) b);;
  bwrite fuel buf;;
  brelse buf.

Definition recover_from_log : M unit :=
  read_head;;
  install_trans true;;
  modlg (set_lg_n 0);;
  write_head.

Definition initlog (dev : Z) : M unit :=
  sb <- gets k_sb;;
  modlg (set_lg_start (s32 (sb_logstart sb)));;
  modlg (set_lg_size (s32 (sb_nlog sb)));;
  modlg (set_lg_dev dev);;
  recover_from_log.

Fixpoint begin_op_loop (fl : nat) : M unit :=
  match fl with
  | O => stuck
  | S f =>
      lg <- gets k_log;;
      if truthy (lg_committing lg) then sleep Ch_log L_log;; begin_op_loop f
      else if LOGSIZE <? lg_n lg + (lg_outstanding lg + 1) * MAXOPBLOCKS
      then sleep Ch_log L_log;; begin_op_loop f
      else
        modlg (λ lg, set_lg_outstanding (lg_outstanding lg + 1) lg);;
        release L_log
  end.

Definition begin_op : M unit := acquire L_log;; begin_op_loop fuel.

Definition write_log : M unit :=
  lg <- gets k_log;;
  for_each (seqZ 0 (lg_n lg)) (λ tail,
    lg <- gets k_log;;
    to <- bread fuel (lg_dev lg) (u32 (lg_start lg + tail + 1));;
    bno <- unwrap (lg_block lg !! Z.to_nat tail);;
    from <- bread fuel (lg_dev lg) (u32 bno);;
    fb <- getb from;;
    modb to (set_b_data (b_data fb));;
    bwrite fuel to;;
    brelse from;;
    brelse to).

Definition commit : M unit :=
  lg <- gets k_log;;
  when (0 <? lg_n lg)
    (write_log;;
     write_head;;
     install_trans false;;
     modlg (set_lg_n 0);;
     write_head).

Definition end_op : M unit :=
  acquire L_log;;
  modlg (λ lg, set_lg_outstanding (lg_outstanding lg - 1) lg);;
  lg <- gets k_log;;
  if truthy (lg_committing lg) then panic "log.committing"
  else
    let do_commit := lg_outstanding lg =? 0 in
    (if do_commit then modlg (set_lg_committing 1) else wakeup Ch_log);;
    release L_log;;
    when do_commit
      (commit;;
       acquire L_log;;
       modlg (set_lg_committing 0);;
       wakeup Ch_log;;
       release L_log).

(** The position of block [b] in the log, the end if it is not there. *)
Fixpoint log_index (bl : list Z) (b : Z) : nat :=
  match bl with
  | [] => O
  | x :: bl' => if u32 x =? b then O else S (log_index bl' b)
  end.

Definition log_write (b : nat) : M unit :=
  acquire L_log;;
  lg <- gets k_log;;
  if ((LOGSIZE <=? lg_n lg) || (lg_size lg - 1 <=? lg_n lg))%bool then panic "too big a transaction"
  else if lg_outstanding lg <? 1 then panic "log_write outside of trans"
  else
    x <- getb b;;
    let i := log_index (take (Z.to_nat (lg_n lg)) (lg_block lg)) (b_blockno x) in
    modlg (λ lg, set_lg_block (<[i := s32 (b_blockno x)]> (lg_block lg)) lg);;
    when (Z.of_nat i =? lg_n lg)
      (bpin b;;
       modlg (λ lg, set_lg_n (lg_n lg + 1) lg));;
    release L_log.

End log.

(** ** What a disk means *)

Definition head_n (h : list Z) : Z := s32 (get32 h 0).
Definition head_blocks (h : list Z) : list Z :=
  (λ i, s32 (get32 h (4 + 4 * i))) <$> seq 0 (Z.to_nat (head_n h)).

(** The committed updates in the log at [st], in order. *)
Definition updates (st : Z) (d : diskmap) : list (Z * list Z) :=
  imap (λ t b, (b, default [] (d !! (st + 1 + Z.of_nat t)))) (head_blocks (default [] (d !! st))).

(** The disk after recovery: later updates of a block win. *)
Definition replay (st : Z) (d : diskmap) : diskmap := list_to_map (rev (updates st d)) ∪ d.

(** The blocks of the log itself. *)
Definition in_log (st m : Z) : Prop := st ≤ m ≤ st + LOGSIZE.

(** Two disks agree on the file system's blocks. *)
Definition home_eq (st : Z) (d d' : diskmap) : Prop := ∀ m, ¬ in_log st m → d !! m = d' !! m.

#[global] Instance home_eq_equiv st : Equivalence (home_eq st).
Proof.
  split; [done|by intros d d' H m Hm; rewrite H|].
  intros d d' d'' H H' m Hm. by rewrite H, H'.
Qed.

(** ** Headers *)

Lemma length_put32 off v l : (off + 4 ≤ length l)%nat → length (put32 off v l) = length l.
Proof. intros H. unfold put32. rewrite !length_app, length_take, length_le_bytes, length_drop. lia. Qed.

Lemma get_put32 off v l : (off + 4 ≤ length l)%nat → get32 (put32 off v l) off = u32 v.
Proof.
  intros H. unfold get32, put32. rewrite drop_app_length' by (rewrite length_take; lia).
  rewrite take_app_length' by (by rewrite length_le_bytes). by rewrite le_val_bytes.
Qed.

Lemma get_put32_ne off off' v l :
  (off + 4 ≤ length l)%nat → (off' + 4 ≤ off ∨ off + 4 ≤ off')%nat → get32 (put32 off v l) off' = get32 l off'.
Proof.
  intros Hl H. unfold get32, put32. f_equal. apply list_eq. intros i.
  destruct (decide (i < 4)%nat) as [Hi|Hi]; [|by rewrite !lookup_take_ge by lia].
  rewrite !lookup_take_lt, !lookup_drop by done.
  destruct H as [H|H].
  - rewrite lookup_app_l by (rewrite length_take; lia). by rewrite lookup_take_lt by lia.
  - rewrite lookup_app_r by (rewrite length_take; lia).
    rewrite lookup_app_r by (rewrite length_take, length_le_bytes; lia).
    rewrite lookup_drop. f_equal. rewrite length_take, length_le_bytes. lia.
Qed.

Lemma length_put_blocks bl off data :
  (off + 4 * length bl ≤ length data)%nat → length (put_blocks bl off data) = length data.
Proof.
  revert off data. induction bl as [|v bl IH]; intros off data H; simpl in *; [done|].
  rewrite IH; rewrite length_put32; lia.
Qed.

Lemma get_put_blocks_before bl off off' data :
  (off + 4 * length bl ≤ length data)%nat → (off' + 4 ≤ off)%nat →
  get32 (put_blocks bl off data) off' = get32 data off'.
Proof.
  revert off data. induction bl as [|v bl IH]; intros off data H Ho; simpl in *; [done|].
  rewrite IH by (rewrite ?length_put32; lia). apply get_put32_ne; lia.
Qed.

Lemma get_put_blocks bl off data i v :
  (off + 4 * length bl ≤ length data)%nat → bl !! i = Some v →
  get32 (put_blocks bl off data) (off + 4 * i) = u32 v.
Proof.
  revert off data i. induction bl as [|w bl IH]; intros off data i H Hi; [done|].
  cbn [put_blocks]. cbn [length] in H. destruct i as [|i]; simpl in Hi.
  - injection Hi as ->. rewrite Nat.mul_0_r, Nat.add_0_r, get_put_blocks_before by (rewrite ?length_put32; lia).
    apply get_put32. lia.
  - replace (off + 4 * S i)%nat with (off + 4 + 4 * i)%nat by lia. apply IH; [|done]. rewrite length_put32; lia.
Qed.

(** The header [write_head] writes. *)
Definition header (bl data : list Z) : list Z :=
  put_blocks bl 4 (put32 0 (Z.of_nat (length bl)) data).

Lemma header_ok bl data :
  length data = 1024%nat → (length bl ≤ 30)%nat → Forall (λ b, 0 ≤ b < 2 ^ 31) bl →
  length (header bl data) = 1024%nat ∧ head_n (header bl data) = Z.of_nat (length bl) ∧
  head_blocks (header bl data) = bl.
Proof.
  intros Hd Hl Hbl. unfold header.
  assert (length (put32 0 (Z.of_nat (length bl)) data) = 1024%nat) as Hp by (rewrite length_put32; lia).
  assert (head_n (put_blocks bl 4 (put32 0 (Z.of_nat (length bl)) data)) = Z.of_nat (length bl)) as Hn.
  { unfold head_n. rewrite get_put_blocks_before, get_put32, s32_u32 by lia. apply s32_small. lia. }
  split_and!; [by rewrite length_put_blocks, Hp by (rewrite Hp; lia)|done|].
  unfold head_blocks. rewrite Hn, Nat2Z.id. apply list_eq. intros i. rewrite list_lookup_fmap.
  destruct (decide (i < length bl)%nat) as [Hi|Hi].
  - rewrite lookup_seq_lt by done. apply lookup_lt_is_Some in Hi as [b Hb]. rewrite Hb. simpl. f_equal.
    change (S (S (S (S (i + (i + (i + (i + 0))))))))%nat with (4 + 4 * i)%nat.
    rewrite (get_put_blocks bl 4 _ i b) by (rewrite ?Hp; done || lia). rewrite s32_u32. apply s32_small.
    eapply Forall_lookup_1 in Hbl; [|done]. lia.
  - rewrite !(proj2 (lookup_ge_None _ _)) by (rewrite ?length_seq; lia). done.
Qed.

Section txn.
Context `{B : Build} `{D : Device}.
Variables (fuel me : nat) (pid : Z).
Hypothesis Hfuel : (2 ≤ fuel)%nat.

(** ** The state of the cache around a transaction

    [bl] are the blocks whose cached contents [V] are newer than the disk's [d];
    their buffers [P] are pinned.  Every other block is clean. *)

Record txn (lg : log) (bl : list Z) (P : list nat) (V : Z → option (list Z)) (d : diskmap) (s : kstate) : Prop := {
  tx_th : thread me pid s;
  tx_bio : ∃ ord, bio pid [] P ord s;
  tx_log : k_log s = lg;
  tx_disk : k_disk s = d;
  tx_blk m : blk s m = if decide (m ∈ bl) then V m else d !! m;
  tx_pin : Forall2 (λ i m, ∃ e, buf_at s i m e) P bl
}.

Lemma buf_at_fun s i n n' e e' : buf_at s i n e → buf_at s i n' e' → n = n' ∧ e = e'.
Proof. intros (b & (_ & Hb & _ & <-) & <-) (b' & (_ & Hb' & _ & <-) & <-). rewrite Hb in Hb'. by simplify_eq. Qed.

Lemma buf_at_lookup s s' j m e : k_bufs s' !! j = k_bufs s !! j → buf_at s' j m e ↔ buf_at s j m e.
Proof. intros E. unfold buf_at, in_cache. by rewrite E. Qed.

Lemma disk_frame_log s s' : disk_frame s s' → k_log s' = k_log s.
Proof. unfold disk_frame. intros ->. done. Qed.

(** [bread] keeps what is locked or pinned. *)
Lemma bread_keep L P ord s n d i s' j m e :
  bread_post me pid L P ord s n d i s' → j ∈ P ∨ j ∈ L → buf_at s j m e → buf_at s' j m e.
Proof.
  intros (_ & _ & _ & _ & _ & Hi & HiL & Hne & HiP & _) Hj Ha. destruct (decide (j = i)) as [->|E].
  - destruct Hj as [Hj|Hj]; [|done]. destruct (buf_at_fun _ _ _ _ _ _ Ha (HiP Hj)) as [-> ->]. done.
  - by apply (buf_at_lookup s s'); [apply Hne|].
Qed.

(** Two blocks read and locked. *)
Record two (P : list nat) (s0 : kstate) (i1 : nat) (n1 : Z) (e1 : list Z) (i2 : nat) (n2 : Z) (e2 : list Z)
    (s : kstate) : Prop := {
  tw_th : thread me pid s;
  tw_frame : disk_frame s0 s;
  tw_bio : ∃ ord, bio pid [i2; i1] P ord s;
  tw_disk : k_disk s = k_disk s0;
  tw_blk m : blk s m = blk s0 m;
  tw_1 : buf_at s i1 n1 e1;
  tw_2 : buf_at s i2 n2 e2;
  tw_ne : i1 ≠ i2;
  tw_keep j m e : j ∈ P → buf_at s0 j m e → buf_at s j m e
}.

Lemma read_two {A} P ord s n1 e1 n2 e2 C (K : nat → nat → M A) Q :
  thread me pid s → bio pid [] P ord s → blk s n1 = Some e1 → blk s n2 = Some e2 → n1 ≠ n2 →
  is_Some (k_disk s !! n1) → is_Some (k_disk s !! n2) → 0 ≤ n1 < 2 ^ 31 → 0 ≤ n2 < 2 ^ 31 →
  (length P < NBUF)%nat → (1 + length P < NBUF)%nat ∨ (∃ i e, i ∈ P ∧ buf_at s i n2 e) → C (k_disk s) →
  (∀ i1 i2 s', two P s i1 n1 e1 i2 n2 e2 s' → wpc (disk_env me) C (K i1 i2 s') Q) →
  wpc (disk_env me) C ((i1 <- bread fuel ROOTDEV n1;; i2 <- bread fuel ROOTDEV n2;; K i1 i2) s) Q.
Proof.
  intros Hth Hbio H1 H2 Hne D1 D2 R1 R2 HP HP2 HC HK.
  apply wpc_bind. eapply wpc_mono; [eapply (bread_ok fuel me pid [] P ord s n1 e1 C); try done|done|].
  { intros i d' Hi. by apply not_elem_of_nil in Hi. } { by left. }
  intros i1 s1 Hp1. pose proof Hp1 as (Hth1 & Hf1 & Hb1 & Hd1 & Hv1 & Ha1 & _ & _ & _ & _).
  apply wpc_bind. eapply wpc_mono; [eapply (bread_ok fuel me pid [i1] P ord s1 n2 e2 C); try done|done|].
  { by rewrite Hv1. } { by rewrite Hd1. }
  { intros i d' Hi%list_elem_of_singleton Ha. subst i. by destruct (buf_at_fun _ _ _ _ _ _ Ha Ha1). }
  { destruct HP2 as [?|(i & e & Hi & Ha)]; [by left|]. right. exists i, e. eapply bread_keep; eauto. }
  { by rewrite Hd1. }
  intros i2 s2 Hp2. pose proof Hp2 as (Hth2 & Hf2 & Hb2 & Hd2 & Hv2 & Ha2 & Hi2 & _ & _ & _).
  apply HK. split; try done.
  - by eapply disk_frame_trans.
  - by exists ord.
  - by rewrite Hd2.
  - intros m. by rewrite Hv2.
  - eapply bread_keep; [done|right; set_solver|done].
  - set_solver.
  - intros j m e Hj Ha. eapply bread_keep; [done|by left|]. eapply bread_keep; [done|by left|done].
Qed.

(** A block is overwritten in its buffer and on the disk. *)
Lemma overwrite {A} L P ord s i n e0 e C (f : buf → buf) (K : M A) Q :
  thread me pid s → bio pid L P ord s → buf_at s i n e0 → i ∈ L → is_Some (k_disk s !! n) → 0 ≤ n < 2 ^ 31 →
  (∀ b, k_bufs s !! i = Some b → f b = set_b_data e b) →
  C (k_disk s) → C (<[n := e]> (k_disk s)) →
  (∀ s', thread me pid s' → disk_frame s s' → bio pid L P ord s' → k_disk s' = <[n := e]> (k_disk s) →
     (∀ m, blk s' m = if decide (m = n) then Some e else blk s m) → buf_at s' i n e →
     (∀ j m e', j ≠ i → buf_at s' j m e' ↔ buf_at s j m e') →
     wpc (disk_env me) C (K s') Q) →
  wpc (disk_env me) C ((modb i f;; bwrite fuel i;; K) s) Q.
Proof.
  intros Hth Hbio Ha HiL Hd Hn Hf HC HC' HK. eapply wpc_step; [done|].
  assert (alter f i (k_bufs s) = alter (set_b_data e) i (k_bufs s)) as ->.
  { destruct Ha as (b & (_ & Hb & _) & _). eapply alter_at; [done|]. by apply Hf. }
  destruct (store_ok me pid L P ord s i n e0 e Hth Hbio Ha HiL) as (Hth1 & Hf1 & Hb1 & Ha1 & Hv1).
  set (s1 := set_k_bufs _ s) in *.
  apply wpc_bind. eapply wpc_mono; [eapply (bwrite_ok fuel me pid L P ord s1 i n e C); done|done|].
  intros _ s2 (Hth2 & Hf2 & Hb2 & Hd2 & Ha2 & Hv2 & Hne).
  apply HK; [exact Hth2|by eapply disk_frame_trans|exact Hb2|exact Hd2| |exact Ha2|].
  - intros m. by rewrite Hv2, Hv1.
  - intros j m e' Hj. rewrite (buf_at_lookup s1 s2) by (by apply Hne).
    apply buf_at_lookup. simpl. by rewrite list_lookup_alter_ne.
Qed.

(** A buffer is given back. *)
Lemma give_back L L' P ord s i n e C Q :
  thread me pid s → bio pid L P ord s → L ≡ₚ i :: L' → i ∉ L' → buf_at s i n e →
  i ∈ P ∨ k_disk s !! n = Some e →
  (∀ s' ord', thread me pid s' → disk_frame s s' → bio pid L' P ord' s' → k_disk s' = k_disk s →
     (∀ m, blk s' m = blk s m) → (∀ j m e, buf_at s' j m e ↔ buf_at s j m e) → Q tt s') →
  wpc (disk_env me) C (brelse i s) Q.
Proof.
  intros Hth Hbio HL Hi Ha Hcl HK.
  destruct (brelse_ok me pid L L' P ord s i n e Hth Hbio HL Hi Ha Hcl) as (s' & ord' & Hrun & ? & ? & ? & ? & ? & ? & _).
  rewrite Hrun. by eapply HK.
Qed.

Lemma buf_data s i n e : buf_at s i n e → ∃ b, getb i s = Ret b s ∧ b_data b = e.
Proof. intros (b & (_ & Hb & _) & <-). exists b. split; [by apply getb_some|done]. Qed.

Lemma pinned_block lg bl P V d s i : txn lg bl P V d s → i ∈ P → ∃ m e, m ∈ bl ∧ buf_at s i m e.
Proof.
  intros H Hi. destruct (list_elem_of_lookup_1 _ _ Hi) as [k Hk].
  destruct (Forall2_lookup_l _ _ _ _ _ (tx_pin _ _ _ _ _ _ H) Hk) as (m & Hm & e & He).
  exists m, e. split; [by eapply list_elem_of_lookup_2|done].
Qed.

Lemma block_pinned lg bl P V d s m : txn lg bl P V d s → m ∈ bl → ∃ i e, i ∈ P ∧ buf_at s i m e.
Proof.
  intros H Hm. destruct (list_elem_of_lookup_1 _ _ Hm) as [k Hk].
  destruct (Forall2_lookup_r _ _ _ _ _ (tx_pin _ _ _ _ _ _ H) Hk) as (i & Hi & e & He).
  exists i, e. split; [by eapply list_elem_of_lookup_2|done].
Qed.

Lemma Forall2_in {A E} (R R' : A → E → Prop) l k :
  Forall2 R l k → (∀ x y, x ∈ l → R x y → R' x y) → Forall2 R' l k.
Proof. induction 1; intros H'; constructor; [apply H'; [by left|done]|]. apply IHForall2. intros. apply H'; [by right|done]. Qed.

(** One round of [write_log]. *)
Lemma write_log_step lg bl P V d s n b e C Q :
  txn lg bl P V d s → b ∈ bl → V b = Some e → n ∉ bl → is_Some (d !! n) → is_Some (d !! b) →
  0 ≤ n < 2 ^ 31 → 0 ≤ b < 2 ^ 31 → (length P < NBUF)%nat → C d → C (<[n := e]> d) →
  (∀ s', txn lg bl P V (<[n := e]> d) s' → Q tt s') →
  wpc (disk_env me) C ((to <- bread fuel ROOTDEV n;; from <- bread fuel ROOTDEV b;;
    fb <- getb from;; modb to (set_b_data (b_data fb));; bwrite fuel to;; brelse from;; brelse to) s) Q.
Proof.
  intros Htx Hb HV Hn [e0 Hdn] Hdb Rn Rb HP HC HC' HQ. pose proof Htx as [Hth [ord Hbio] Hlog Hdk Hblk Hpin].
  eapply (read_two P ord s n e0 b e); try done.
  { by rewrite Hblk, decide_False. } { by rewrite Hblk, decide_True. } { intros ->. done. }
  { rewrite Hdk. by eexists. } { by rewrite Hdk. }
  { right. by eapply block_pinned. } { by rewrite Hdk. }
  intros i1 i2 s2 [Hth2 Hf2 [ord2 Hb2] Hd2 Hv2 Ha1 Ha2 Hne Hkeep].
  destruct (buf_data _ _ _ _ Ha2) as (fb & Hfb & <-). eapply wpc_step; [exact Hfb|].
  assert (i2 ∈ P) as Hi2.
  { destruct (block_pinned _ _ _ _ _ _ _ Htx Hb) as (i & e' & Hi & Ha). apply (Hkeep i b e' Hi) in Ha.
    destruct Ha as (x & Cx & _), Ha2 as (y & Cy & _). by rewrite <- (bi_uniq Hb2 _ _ _ _ _ Cx Cy). }
  assert (i1 ∉ P) as Hi1.
  { intros Hi. destruct (pinned_block _ _ _ _ _ _ _ Htx Hi) as (m & e' & Hm & Ha).
    apply (Hkeep i1 m e' Hi) in Ha. by destruct (buf_at_fun _ _ _ _ _ _ Ha Ha1) as [-> _]. }
  eapply (overwrite [i2; i1] P ord2 s2 i1 n e0 (b_data fb)); try done.
  { set_solver. } { rewrite Hd2, Hdk. by eexists. } { by rewrite Hd2, Hdk. } { by rewrite Hd2, Hdk. }
  intros s3 Hth3 Hf3 Hb3 Hd3 Hv3 Ha3 Hk3.
  apply wpc_bind. eapply (give_back [i2; i1] [i1] P ord2 s3 i2 b (b_data fb)); try done;
    [set_solver|by apply Hk3|by left|].
  intros s4 ord4 Hth4 Hf4 Hb4 Hd4 Hv4 Hk4.
  eapply (give_back [i1] [] P ord4 s4 i1 n (b_data fb)); try done; [set_solver|by apply Hk4| |].
  { right. by rewrite Hd4, Hd3, lookup_insert_eq. }
  intros s5 ord5 Hth5 Hf5 Hb5 Hd5 Hv5 Hk5. apply HQ. split; try done.
  - by exists ord5.
  - by rewrite (disk_frame_log _ _ Hf5), (disk_frame_log _ _ Hf4), (disk_frame_log _ _ Hf3), (disk_frame_log _ _ Hf2).
  - by rewrite Hd5, Hd4, Hd3, Hd2, Hdk.
  - intros m. rewrite Hv5, Hv4, Hv3, Hv2, Hblk. repeat case_decide; subst; try done.
    + by rewrite lookup_insert_eq.
    + by rewrite lookup_insert_ne.
  - eapply Forall2_in; [exact Hpin|]. intros i m Hi [x Hx]. exists x.
    apply Hk5, Hk4, Hk3; [by intros ->|]. by apply Hkeep.
Qed.


(** One round of [install_trans] after a commit. *)
Lemma install_step lg b bl i P V d s n e C Q :
  txn lg (b :: bl) (i :: P) V d s → n ∉ b :: bl → b ∉ bl → d !! n = Some e → is_Some (d !! b) →
  0 ≤ n < 2 ^ 31 → 0 ≤ b < 2 ^ 31 → (length (i :: P) < NBUF)%nat → C d → C (<[b := e]> d) → is_Some (V b) →
  (∀ s', txn lg bl P V (<[b := e]> d) s' → Q tt s') →
  wpc (disk_env me) C ((lbuf <- bread fuel ROOTDEV n;; dbuf <- bread fuel ROOTDEV b;;
    lb <- getb lbuf;; modb dbuf (set_b_data (b_data lb));; bwrite fuel dbuf;;
    when (negb false) (bunpin dbuf);; brelse lbuf;; brelse dbuf) s) Q.
Proof.
  intros Htx Hn Hb Hdn Hdb Rn Rb HP HC HC' [v HV] HQ. pose proof Htx as [Hth [ord Hbio] Hlog Hdk Hblk Hpin].
  apply Forall2_cons in Hpin as [[x0 Hx0] Hpin].
  eapply (read_two (i :: P) ord s n e b v); try done.
  { by rewrite Hblk, decide_False. } { by rewrite Hblk, decide_True by set_solver. } { intros ->. set_solver. }
  { rewrite Hdk. by eexists. } { by rewrite Hdk. }
  { right. exists i, x0. split; [by left|done]. } { by rewrite Hdk. }
  intros i1 i2 s2 [Hth2 Hf2 [ord2 Hb2] Hd2 Hv2 Ha1 Ha2 Hne Hkeep].
  destruct (buf_data _ _ _ _ Ha1) as (lb & Hlb & <-). eapply wpc_step; [exact Hlb|].
  assert (i2 = i) as ->.
  { apply (Hkeep i b x0) in Hx0; [|by left]. destruct Hx0 as (x & Cx & _), Ha2 as (y & Cy & _).
    by rewrite (bi_uniq Hb2 _ _ _ _ _ Cx Cy). }
  assert (i ∉ P) as HiP.
  { intros Hi. destruct (list_elem_of_lookup_1 _ _ Hi) as [k Hk].
    destruct (Forall2_lookup_l _ _ _ _ _ Hpin Hk) as (m & Hm & e' & He).
    destruct (buf_at_fun _ _ _ _ _ _ He Hx0) as [-> _]. apply Hb. by eapply list_elem_of_lookup_2. }
  eapply (overwrite [i; i1] (i :: P) ord2 s2 i b v (b_data lb)); try done.
  { set_solver. } { by rewrite Hd2, Hdk. } { by rewrite Hd2, Hdk. } { by rewrite Hd2, Hdk. }
  intros s3 Hth3 Hf3 Hb3 Hd3 Hv3 Ha3 Hk3.
  destruct (bunpin_ok me pid [i; i1] (i :: P) P ord2 s3 i b (b_data lb)) as (s4 & Hrun & Hth4 & Hf4 & Hb4 & Hd4 & Hv4 & Hk4);
    try done; [set_solver|]. eapply wpc_step; [exact Hrun|].
  apply wpc_bind. eapply (give_back [i; i1] [i] P ord2 s4 i1 n (b_data lb)); try done;
    [solve_Permutation|set_solver|by apply Hk4, Hk3| |].
  { right. rewrite Hd4, Hd3, lookup_insert_ne, Hd2, Hdk by set_solver. done. }
  intros s5 ord5 Hth5 Hf5 Hb5 Hd5 Hv5 Hk5.
  eapply (give_back [i] [] P ord5 s5 i b (b_data lb)); try done; [set_solver|by apply Hk5, Hk4| |].
  { right. by rewrite Hd5, Hd4, Hd3, lookup_insert_eq. }
  intros s6 ord6 Hth6 Hf6 Hb6 Hd6 Hv6 Hk6. apply HQ. split; try done.
  - by exists ord6.
  - by rewrite (disk_frame_log _ _ Hf6), (disk_frame_log _ _ Hf5), (disk_frame_log _ _ Hf4),
      (disk_frame_log _ _ Hf3), (disk_frame_log _ _ Hf2).
  - by rewrite Hd6, Hd5, Hd4, Hd3, Hd2, Hdk.
  - intros m. rewrite Hv6, Hv5, Hv4, Hv3, Hv2, Hblk.
    destruct (decide (m = b)) as [->|Hm].
    { rewrite decide_False by done. by rewrite lookup_insert_eq. }
    rewrite lookup_insert_ne by done. repeat case_decide; try done; set_solver.
  - eapply Forall2_in; [exact Hpin|]. intros j m Hj [x Hx]. exists x.
    apply Hk6, Hk5, Hk4, Hk3; [by intros ->|]. apply Hkeep; [by right|done].
Qed.

(** One round of [install_trans] during recovery, when nothing is pinned. *)
Lemma recover_step lg d s n b e C Q :
  txn lg [] [] (λ _, None) d s → n ≠ b → d !! n = Some e → is_Some (d !! b) →
  0 ≤ n < 2 ^ 31 → 0 ≤ b < 2 ^ 31 → C d → C (<[b := e]> d) →
  (∀ s', txn lg [] [] (λ _, None) (<[b := e]> d) s' → Q tt s') →
  wpc (disk_env me) C ((lbuf <- bread fuel ROOTDEV n;; dbuf <- bread fuel ROOTDEV b;;
    lb <- getb lbuf;; modb dbuf (set_b_data (b_data lb));; bwrite fuel dbuf;;
    when (negb true) (bunpin dbuf);; brelse lbuf;; brelse dbuf) s) Q.
Proof.
  intros Htx Hn Hdn [v Hdb] Rn Rb HC HC' HQ. pose proof Htx as [Hth [ord Hbio] Hlog Hdk Hblk _].
  eapply (read_two [] ord s n e b v); try done.
  { by rewrite Hblk. } { by rewrite Hblk. } { rewrite Hdk. by eexists. } { rewrite Hdk. by eexists. }
  { simpl. unfold NBUF. lia. } { left. simpl. unfold NBUF. lia. } { by rewrite Hdk. }
  intros i1 i2 s2 [Hth2 Hf2 [ord2 Hb2] Hd2 Hv2 Ha1 Ha2 Hne Hkeep].
  destruct (buf_data _ _ _ _ Ha1) as (lb & Hlb & <-). eapply wpc_step; [exact Hlb|].
  eapply (overwrite [i2; i1] [] ord2 s2 i2 b v (b_data lb)); try done.
  { set_solver. } { rewrite Hd2, Hdk. by eexists. } { by rewrite Hd2, Hdk. } { by rewrite Hd2, Hdk. }
  intros s3 Hth3 Hf3 Hb3 Hd3 Hv3 Ha3 Hk3. eapply wpc_step; [done|].
  apply wpc_bind. eapply (give_back [i2; i1] [i2] [] ord2 s3 i1 n (b_data lb)); try done;
    [solve_Permutation|set_solver|by apply Hk3| |].
  { right. rewrite Hd3, lookup_insert_ne, Hd2, Hdk by done. done. }
  intros s5 ord5 Hth5 Hf5 Hb5 Hd5 Hv5 Hk5.
  eapply (give_back [i2] [] [] ord5 s5 i2 b (b_data lb)); try done; [set_solver|by apply Hk5| |].
  { right. by rewrite Hd5, Hd3, lookup_insert_eq. }
  intros s6 ord6 Hth6 Hf6 Hb6 Hd6 Hv6 Hk6. apply HQ. split; try done.
  - by exists ord6.
  - by rewrite (disk_frame_log _ _ Hf6), (disk_frame_log _ _ Hf5), (disk_frame_log _ _ Hf3), (disk_frame_log _ _ Hf2).
  - by rewrite Hd6, Hd5, Hd3, Hd2, Hdk.
  - intros m. rewrite Hv6, Hv5, Hv3, Hv2, Hblk. simpl. case_decide as Em.
    + subst m. by rewrite lookup_insert_eq.
    + by rewrite lookup_insert_ne.
Qed.

(** A clean block is read. *)
Lemma read_one {A} lg bl P V d s n e C (K : nat → M A) Q :
  txn lg bl P V d s → n ∉ bl → d !! n = Some e → 0 ≤ n < 2 ^ 31 → (length P < NBUF)%nat → C d →
  (∀ i ord s', thread me pid s' → disk_frame s s' → bio pid [i] P ord s' → k_disk s' = d →
     (∀ m, blk s' m = blk s m) → buf_at s' i n e → i ∉ P →
     (∀ j m x, j ∈ P → buf_at s j m x → buf_at s' j m x) → wpc (disk_env me) C (K i s') Q) →
  wpc (disk_env me) C ((i <- bread fuel ROOTDEV n;; K i) s) Q.
Proof.
  intros Htx Hn Hdn Rn HP HC HK. pose proof Htx as [Hth [ord Hbio] Hlog Hdk Hblk Hpin].
  apply wpc_bind. eapply wpc_mono; [eapply (bread_ok fuel me pid [] P ord s n e C); try done|done|].
  { by rewrite Hblk, decide_False. } { rewrite Hdk. by eexists. }
  { intros i d' Hi. by apply not_elem_of_nil in Hi. } { by left. } { by rewrite Hdk. }
  intros i s1 Hp. pose proof Hp as (Hth1 & Hf1 & Hb1 & Hd1 & Hv1 & Ha1 & _ & _ & HiP & _).
  eapply HK; try done; [by rewrite Hd1| |].
  - intros Hi. destruct (pinned_block _ _ _ _ _ _ _ Htx Hi) as (m & x & Hm & Ha).
    by destruct (buf_at_fun _ _ _ _ _ _ Ha (HiP Hi)) as [-> _].
  - intros j m x Hj Ha. eapply bread_keep; [done|by left|done].
Qed.

Lemma write_head_step lg bl P V d s h C Q :
  let hd := put_blocks (take (Z.to_nat (lg_n lg)) (lg_block lg)) 4 (put32 0 (lg_n lg) h) in
  txn lg bl P V d s → lg_dev lg = ROOTDEV → 0 ≤ lg_start lg < 2 ^ 31 → lg_start lg ∉ bl →
  d !! lg_start lg = Some h → (length P < NBUF)%nat → C d → C (<[lg_start lg := hd]> d) →
  (∀ s', txn lg bl P V (<[lg_start lg := hd]> d) s' → Q tt s') →
  wpc (disk_env me) C (write_head fuel s) Q.
Proof.
  intros hd Htx Hdev Rst Hst Hd HP HC HC' HQ. pose proof Htx as [Hth [ord Hbio] Hlog Hdk Hblk Hpin].
  unfold write_head. eapply wpc_step; [done|]. rewrite Hlog, Hdev, u32_small by lia.
  eapply (read_one lg bl P V d s (lg_start lg) h); try done.
  intros i ord1 s1 Hth1 Hf1 Hb1 Hd1 Hv1 Ha1 HiP Hk1.
  eapply (overwrite [i] P ord1 s1 i (lg_start lg) h hd); try done.
  { set_solver. } { rewrite Hd1. by eexists. }
  { intros b Hb. destruct Ha1 as (b' & (_ & Hb' & _) & E). rewrite Hb in Hb'. injection Hb' as <-. by rewrite E. }
  { by rewrite Hd1. } { by rewrite Hd1. }
  intros s2 Hth2 Hf2 Hb2 Hd2 Hv2 Ha2 Hk2.
  eapply (give_back [i] [] P ord1 s2 i (lg_start lg) hd); try done; [set_solver| |].
  { right. by rewrite Hd2, lookup_insert_eq. }
  intros s3 ord3 Hth3 Hf3 Hb3 Hd3 Hv3 Hk3. apply HQ. split; try done.
  - by exists ord3.
  - by rewrite (disk_frame_log _ _ Hf3), (disk_frame_log _ _ Hf2), (disk_frame_log _ _ Hf1).
  - by rewrite Hd3, Hd2, Hd1.
  - intros m. rewrite Hv3, Hv2, Hv1, Hblk. destruct (decide (m = lg_start lg)) as [->|Hm].
    + rewrite decide_False by done. by rewrite lookup_insert_eq.
    + by rewrite lookup_insert_ne.
  - eapply Forall2_in; [exact Hpin|]. intros j m Hj [x Hx]. exists x.
    apply Hk3, Hk2; [by intros ->|]. by apply Hk1.
Qed.

(** Only the in-memory log changes. *)
Lemma txn_set_log f lg bl P V d s :
  txn lg bl P V d s → txn (f lg) bl P V d (set_k_log (f (k_log s)) s).
Proof.
  intros [Hth [ord Hbio] Hlog Hdk Hblk Hpin]. split; try done.
  - by eapply thread_ext.
  - exists ord. destruct Hbio. by split.
  - simpl. by rewrite Hlog.
Qed.

End txn.
