(* ===== verification/Crash.v ===== *)
(** * Crash safety of the log

    The theorems about [kernel/log.c]: at every point of [commit] at which the
    machine may stop, recovery gives the disk before the transaction or the disk
    after it, and recovery itself may be interrupted at any point. *)

From Stdlib Require Import ZArith Lia.
From S2P Require Import Prelude Machine Kernel Boot Kalloc Vm ProcTable Seq Sleeplock Virtio Bio Log.

(** ** Disks with some blocks overwritten *)

Definition ins (l : list (Z * list Z)) (d : diskmap) : diskmap := list_to_map (rev l) ∪ d.

Lemma ins_nil d : ins [] d = d.
Proof. unfold ins. simpl. by rewrite map_empty_union. Qed.

Lemma ins_snoc l n e d : ins (l ++ [(n, e)]) d = <[n := e]> (ins l d).
Proof. unfold ins. rewrite rev_app_distr. simpl. by rewrite insert_union_l. Qed.

Lemma ins_other l d m : m ∉ l.*1 → ins l d !! m = d !! m.
Proof.
  intros H. unfold ins. apply lookup_union_r. apply not_elem_of_list_to_map_1. intros Hin. apply H.
  rewrite map_rev in Hin. by apply list_elem_of_In, in_rev, list_elem_of_In in Hin.
Qed.

Lemma ins_in l d m e : NoDup l.*1 → (m, e) ∈ l → ins l d !! m = Some e.
Proof.
  intros Hnd Hin. unfold ins. apply lookup_union_Some_l. apply elem_of_list_to_map_1.
  - rewrite map_rev. by rewrite <- Permutation_rev.
  - by rewrite <- Permutation_rev.
Qed.

Lemma ins_some l d m : is_Some (d !! m) → is_Some (ins l d !! m).
Proof.
  intros H. unfold ins. destruct ((list_to_map (rev l) : diskmap) !! m) eqn:E.
  - erewrite lookup_union_Some_l by done. by eexists.
  - by rewrite lookup_union_r.
Qed.

Lemma insert_some (d : diskmap) n e m : is_Some (d !! m) → is_Some (<[n := e]> d !! m).
Proof. intros H. destruct (decide (m = n)) as [->|]; [rewrite lookup_insert_eq; by eexists|by rewrite lookup_insert_ne]. Qed.

(** What is overwritten does not depend on the disk underneath. *)
Lemma ins_agree l d d' m : (m ∉ l.*1 → d !! m = d' !! m) → ins l d !! m = ins l d' !! m.
Proof.
  intros H. destruct (decide (m ∈ l.*1)) as [Hin|Hin]; [|rewrite !ins_other by done; auto].
  unfold ins. assert (is_Some ((list_to_map (rev l) : diskmap) !! m)) as [e He].
  { apply not_eq_None_Some. intros Hn. apply not_elem_of_list_to_map in Hn. apply Hn.
    rewrite map_rev. apply list_elem_of_In. rewrite <- in_rev. by apply list_elem_of_In. }
  by rewrite !(lookup_union_Some_l _ _ _ _ He).
Qed.

(** The updates written to the log, and the blocks they update. *)
Definition log_area (st : Z) (l : list (Z * list Z)) : list (Z * list Z) :=
  imap (λ t x, (st + 1 + Z.of_nat t, x.2)) l.

Lemma log_area_keys st l m : m ∈ (log_area st l).*1 → st < m ≤ st + Z.of_nat (length l).
Proof.
  unfold log_area. rewrite list_elem_of_fmap. intros (y & -> & (t & x & -> & Hx)%elem_of_lookup_imap).
  simpl. apply lookup_lt_Some in Hx. lia.
Qed.

Lemma log_area_nodup st l : NoDup (log_area st l).*1.
Proof.
  apply NoDup_alt. intros i j x Hi Hj. unfold log_area in *. rewrite !list_lookup_fmap, !list_lookup_imap in *.
  destruct (l !! i), (l !! j); simplify_eq/=. lia.
Qed.

Lemma log_area_in st l t x : l !! t = Some x → (st + 1 + Z.of_nat t, x.2) ∈ log_area st l.
Proof. intros H. apply (list_elem_of_lookup_2 _ t). unfold log_area. by rewrite list_lookup_imap, H. Qed.

Lemma log_area_snoc st l x :
  log_area st (l ++ [x]) = log_area st l ++ [(st + 1 + Z.of_nat (length l), x.2)].
Proof. unfold log_area. rewrite imap_app. simpl. by rewrite Nat.add_0_r. Qed.

(** A disk whose header is empty means itself. *)
Lemma replay_empty st d : head_n (default [] (d !! st)) = 0 → replay st d = d.
Proof. intros H. unfold replay, updates, head_blocks. rewrite H. simpl. by rewrite map_empty_union. Qed.

(** A disk with a committed transaction [l] means the disk with [l] installed. *)
Lemma replay_committed st d h l :
  d !! st = Some h → head_blocks h = l.*1 →
  (∀ t x, l !! t = Some x → d !! (st + 1 + Z.of_nat t) = Some x.2) → replay st d = ins l d.
Proof.
  intros Hh Hb Hl. unfold replay, ins. do 3 f_equal. unfold updates. rewrite Hh. simpl. rewrite Hb.
  apply list_eq. intros t. rewrite list_lookup_imap, list_lookup_fmap.
  destruct (l !! t) as [[b e]|] eqn:E; simpl; [|done]. by rewrite (Hl _ _ E).
Qed.

Lemma seqZ_split n pre (x : Z) post : seqZ 0 n = pre ++ x :: post → x = Z.of_nat (length pre) ∧ (length pre < Z.to_nat n)%nat.
Proof.
  intros E. assert (seqZ 0 n !! length pre = Some x) as H by (rewrite E; by apply list_lookup_middle).
  apply lookup_seqZ in H as [-> H]. lia.
Qed.

(** ** Commit *)

(** A transaction ready to commit: [l] are its blocks with their new contents. *)
Record ready (lg : log) (l : list (Z * list Z)) (d0 : diskmap) : Prop := {
  rd_dev : lg_dev lg = ROOTDEV;
  rd_n : lg_n lg = Z.of_nat (length l);
  rd_bl : take (length l) (lg_block lg) = l.*1;
  rd_st : 0 ≤ lg_start lg ∧ lg_start lg + LOGSIZE < 2 ^ 31;
  rd_nd : NoDup l.*1;
  rd_len : (length l < NBUF)%nat;
  rd_home b : b ∈ l.*1 → 0 ≤ b < 2 ^ 31 ∧ ¬ in_log (lg_start lg) b ∧ is_Some (d0 !! b);
  rd_area m : in_log (lg_start lg) m → is_Some (d0 !! m);
  rd_head : ∃ h, d0 !! lg_start lg = Some h ∧ length h = 1024%nat ∧ head_n h = 0
}.

(** A disk recovery can work on: the header describes at most [LOGSIZE] blocks
    of the file system, and all blocks involved exist. *)
Definition head_ok (st : Z) (h : list Z) (d : diskmap) : Prop :=
  length h = 1024%nat ∧ 0 ≤ head_n h ≤ LOGSIZE ∧
  ∀ b, b ∈ head_blocks h → 0 ≤ b < 2 ^ 31 ∧ ¬ in_log st b ∧ is_Some (d !! b).

Definition log_ok (st : Z) (d : diskmap) : Prop :=
  (∃ h, d !! st = Some h ∧ head_ok st h d) ∧ ∀ m, in_log st m → is_Some (d !! m).

Lemma head_ok_mono st h d d' : (∀ m, is_Some (d !! m) → is_Some (d' !! m)) → head_ok st h d → head_ok st h d'.
Proof. intros H (H1 & H2 & H3). split_and!; try done; try lia. intros b Hb. destruct (H3 b Hb) as (? & ? & ?). auto. Qed.

Lemma log_ok_mono st d d' :
  d' !! st = d !! st → (∀ m, is_Some (d !! m) → is_Some (d' !! m)) → log_ok st d → log_ok st d'.
Proof.
  intros E H [(h & Hh & Hok) Ha]. split; [|auto]. exists h. rewrite E. split; [done|]. by eapply head_ok_mono.
Qed.

Lemma head_ok_empty st h d : length h = 1024%nat → head_n h = 0 → head_ok st h d.
Proof.
  intros Hl Hn. split_and!; [done|unfold LOGSIZE, MAXOPBLOCKS; simpl in *; lia..|]. intros b Hb. exfalso.
  unfold head_blocks in Hb. rewrite Hn in Hb. by apply not_elem_of_nil in Hb.
Qed.

(** All or nothing: recovery can work, and gives the old disk or the new one. *)
Definition atomic (st : Z) (l : list (Z * list Z)) (d0 d : diskmap) : Prop :=
  log_ok st d ∧ (home_eq st (replay st d) d0 ∨ home_eq st (replay st d) (ins l d0)).

Section commit.
Context (lg : log) (l : list (Z * list Z)) (d0 : diskmap).
Hypothesis Hrd : ready lg l d0.

Let st := lg_start lg.
Let V (m : Z) : option (list Z) := (list_to_map l : diskmap) !! m.
Let C := atomic st l d0.

Lemma len30 : (length l ≤ 30)%nat.
Proof. pose proof (rd_len _ _ _ Hrd). unfold NBUF in *. lia. Qed.

Lemma V_at t b e : l !! t = Some (b, e) → V b = Some e.
Proof. intros H. apply elem_of_list_to_map_1; [apply Hrd|]. by eapply list_elem_of_lookup_2. Qed.

Lemma home_out t b e : l !! t = Some (b, e) → 0 ≤ b < 2 ^ 31 ∧ ¬ in_log st b ∧ is_Some (d0 !! b).
Proof.
  intros H. apply (rd_home _ _ _ Hrd). apply list_elem_of_fmap. exists (b, e). split; [done|].
  by eapply list_elem_of_lookup_2.
Qed.

(** The disk after [k] blocks were copied to the log. *)
Definition logged (k : nat) : diskmap := ins (log_area st (take k l)) d0.

Lemma logged_other k m : ¬ in_log st m ∨ m = st → logged k !! m = d0 !! m.
Proof.
  intros H. apply ins_other. intros Hin%log_area_keys. rewrite length_take in Hin. pose proof len30.
  unfold in_log, LOGSIZE, MAXOPBLOCKS in H. lia.
Qed.

Lemma logged_at k t x : l !! t = Some x → (t < k)%nat → logged k !! (st + 1 + Z.of_nat t) = Some x.2.
Proof.
  intros Hx Ht. apply ins_in; [apply log_area_nodup|]. apply log_area_in. by rewrite lookup_take_lt.
Qed.

Lemma logged_S k b e : l !! k = Some (b, e) → logged (S k) = <[st + 1 + Z.of_nat k := e]> (logged k).
Proof.
  intros H. unfold logged. rewrite (take_S_r _ _ _ H), log_area_snoc, ins_snoc, length_take.
  apply lookup_lt_Some in H. by rewrite Nat.min_l by lia.
Qed.

Lemma logged_some k m : is_Some (d0 !! m) → is_Some (logged k !! m).
Proof. apply ins_some. Qed.

Lemma crash_logged k : C (logged k).
Proof.
  destruct (rd_head _ _ _ Hrd) as (h & Hh & Hl & Hn). fold st in Hh.
  assert (logged k !! st = Some h) as Hk by (by rewrite logged_other by (by right)).
  split; [|left].
  - split; [exists h; split; [done|by apply head_ok_empty]|]. intros m Hm. by apply logged_some, (rd_area _ _ _ Hrd).
  - rewrite replay_empty by (by rewrite Hk). intros m Hm. apply logged_other. by left.
Qed.

(** The disk after the commit record was written and [k] blocks installed. *)
Definition installed (h : list Z) (k : nat) : diskmap := ins (take k l) (<[st := h]> (logged (length l))).

Lemma not_home m : in_log st m → m ∉ l.*1.
Proof. intros Hm Hin. by apply (rd_home _ _ _ Hrd) in Hin as (_ & ? & _). Qed.

Lemma take_keys k m : m ∉ l.*1 → m ∉ (take k l).*1.
Proof. intros H Hin. apply H. rewrite fmap_take in Hin. by eapply elem_of_take in Hin as (?&?&?); eapply list_elem_of_lookup_2. Qed.

Lemma st_in_log : in_log st st.
Proof. unfold in_log, LOGSIZE, MAXOPBLOCKS. lia. Qed.

Lemma area_in_log t : (t < length l)%nat → in_log st (st + 1 + Z.of_nat t).
Proof. pose proof len30. unfold in_log, LOGSIZE, MAXOPBLOCKS. lia. Qed.

Lemma installed_area h k t x :
  l !! t = Some x → installed h k !! (st + 1 + Z.of_nat t) = Some x.2.
Proof.
  intros Hx. pose proof (lookup_lt_Some _ _ _ Hx) as Ht. unfold installed.
  rewrite ins_other by (apply take_keys, not_home, area_in_log; done).
  rewrite lookup_insert_ne by lia. by apply logged_at.
Qed.

Lemma installed_head h k : installed h k !! st = Some h.
Proof. unfold installed. rewrite ins_other by (apply take_keys, not_home, st_in_log). by rewrite lookup_insert_eq. Qed.

Lemma installed_S h k b e : l !! k = Some (b, e) → installed h (S k) = <[b := e]> (installed h k).
Proof. intros H. unfold installed. by rewrite (take_S_r _ _ _ H), ins_snoc. Qed.

Lemma installed_home h k m : ¬ in_log st m → m ∉ l.*1 → installed h k !! m = d0 !! m.
Proof.
  intros Hm Hl. unfold installed. rewrite ins_other by (by apply take_keys).
  rewrite lookup_insert_ne by (intros <-; apply Hm, st_in_log). apply logged_other. by left.
Qed.

Lemma installed_some h k m : is_Some (d0 !! m) → is_Some (installed h k !! m).
Proof. intros H. by apply ins_some, insert_some, logged_some. Qed.

Lemma crash_installed h k : length h = 1024%nat → head_n h = Z.of_nat (length l) → head_blocks h = l.*1 → C (installed h k).
Proof.
  intros Hlen Hn Hb. split; [split|right].
  - exists h. split; [apply installed_head|]. pose proof len30. split_and!; [done|unfold LOGSIZE, MAXOPBLOCKS; simpl in *; lia..|].
    intros b Hin. rewrite Hb in Hin. apply (rd_home _ _ _ Hrd) in Hin as (? & ? & ?). split_and!; try done; try lia.
    by apply installed_some.
  - intros m Hm. by apply installed_some, (rd_area _ _ _ Hrd).
  - rewrite (replay_committed st _ h l); [|apply installed_head|done|intros; by apply installed_area].
    intros m Hm. apply ins_agree. intros Hl. by apply installed_home.
Qed.

Lemma home_done h h' : home_eq st (<[st := h']> (installed h (length l))) (ins l d0).
Proof.
  intros m Hm. rewrite lookup_insert_ne by (intros <-; apply Hm, st_in_log).
  unfold installed. rewrite firstn_all. apply ins_agree. intros Hl.
  rewrite lookup_insert_ne by (intros <-; apply Hm, st_in_log). apply logged_other. by left.
Qed.

Lemma crash_done h h' : length h' = 1024%nat → head_n h' = 0 → C (<[st := h']> (installed h (length l))).
Proof.
  intros Hl Hn. split; [split|right].
  - exists h'. split; [by rewrite lookup_insert_eq|by apply head_ok_empty].
  - intros m Hm. by apply insert_some, installed_some, (rd_area _ _ _ Hrd).
  - rewrite replay_empty by (by rewrite lookup_insert_eq). apply home_done.
Qed.

Lemma block_at k b e : l !! k = Some (b, e) → lg_block lg !! k = Some b.
Proof.
  intros H. pose proof (lookup_lt_Some _ _ _ H) as Hk. rewrite <- (lookup_take_lt _ (length l)) by done.
  by rewrite (rd_bl _ _ _ Hrd), list_lookup_fmap, H.
Qed.

Lemma st_range t : (t < length l)%nat → 0 ≤ st + 1 + Z.of_nat t < 2 ^ 31.
Proof. intros Ht. pose proof len30 as H30. destruct (rd_st _ _ _ Hrd) as [H0 H1]. unfold LOGSIZE, MAXOPBLOCKS in H1. unfold st. lia. Qed.

Context `{D : Device}.
Variables (fuel me : nat) (pid : Z).
Hypothesis Hfuel : (2 ≤ fuel)%nat.

Lemma write_log_ok P s Q :
  length P = length l → txn me pid lg l.*1 P V d0 s →
  (∀ s', txn me pid lg l.*1 P V (logged (length l)) s' → Q tt s') →
  wpc (disk_env me) C (write_log fuel s) Q.
Proof.
  intros HP Htx HQ. unfold write_log. eapply wpc_step; [done|]. rewrite (tx_log _ _ _ _ _ _ _ _ Htx), (rd_n _ _ _ Hrd).
  eapply wpc_mono; [eapply (wpc_for_each _ C _ (λ pre post s', txn me pid lg l.*1 P V (logged (length pre)) s'))|done|].
  - unfold logged. simpl. by rewrite ins_nil.
  - intros pre tail post s1 E Htx1. apply seqZ_split in E as [-> Hlt]. rewrite Nat2Z.id in Hlt.
    eapply wpc_step; [done|]. rewrite (tx_log _ _ _ _ _ _ _ _ Htx1), (rd_dev _ _ _ Hrd), Nat2Z.id.
    destruct (lookup_lt_is_Some_2 l (length pre) Hlt) as [[b e] Hb]. rewrite (block_at _ _ _ Hb).
    destruct (home_out _ _ _ Hb) as (Rb & Ob & Sb). pose proof (st_range _ Hlt) as Rst.
    rewrite (u32_small (lg_start lg + Z.of_nat (length pre) + 1)) by (fold st; lia).
    replace (lg_start lg + Z.of_nat (length pre) + 1) with (st + 1 + Z.of_nat (length pre)) by (unfold st; lia).
    change (λ to, bno <- unwrap (Some b);; from <- bread fuel ROOTDEV (u32 bno);; fb <- getb from;;
      modb to (set_b_data (b_data fb));; bwrite fuel to;; brelse from;; brelse to) with
     (λ to, from <- bread fuel ROOTDEV (u32 b);; fb <- getb from;;
      modb to (set_b_data (b_data fb));; bwrite fuel to;; brelse from;; brelse to).
    rewrite (u32_small b) by lia.
    eapply (write_log_step fuel me pid Hfuel lg l.*1 P V _ s1 _ b e); try done.
    + apply list_elem_of_fmap. exists (b, e). split; [done|]. by eapply list_elem_of_lookup_2.
    + by eapply V_at.
    + by apply not_home, area_in_log.
    + apply logged_some, (rd_area _ _ _ Hrd), area_in_log. done.
    + by apply logged_some.
    + rewrite HP. apply Hrd.
    + apply crash_logged.
    + rewrite <- (logged_S _ _ _ Hb). apply crash_logged.
    + intros s' Htx'. rewrite length_app, Nat.add_1_r. by rewrite (logged_S _ _ _ Hb).
  - intros [] s' Htx'. apply HQ. by rewrite length_seqZ, Nat2Z.id in Htx'.
Qed.

Lemma install_ok h P s Q :
  length P = length l → length h = 1024%nat → head_n h = Z.of_nat (length l) → head_blocks h = l.*1 →
  txn me pid lg l.*1 P V (installed h 0) s →
  (∀ s', txn me pid lg [] [] V (installed h (length l)) s' → Q tt s') →
  wpc (disk_env me) C (install_trans fuel false s) Q.
Proof.
  intros HP Hlen Hhn Hh Htx HQ. unfold install_trans. eapply wpc_step; [done|]. rewrite (tx_log _ _ _ _ _ _ _ _ Htx), (rd_n _ _ _ Hrd).
  eapply wpc_mono; [eapply (wpc_for_each _ C _ (λ pre post s',
    txn me pid lg (drop (length pre) l.*1) (drop (length pre) P) V (installed h (length pre)) s'))|done|].
  - done.
  - intros pre tail post s1 E Htx1. apply seqZ_split in E as [-> Hlt]. rewrite Nat2Z.id in Hlt.
    eapply wpc_step; [done|]. rewrite (tx_log _ _ _ _ _ _ _ _ Htx1), (rd_dev _ _ _ Hrd), Nat2Z.id.
    destruct (lookup_lt_is_Some_2 l (length pre) Hlt) as [[b e] Hb]. rewrite (block_at _ _ _ Hb).
    destruct (lookup_lt_is_Some_2 P (length pre)) as [i Hi]; [lia|].
    destruct (home_out _ _ _ Hb) as (Rb & Ob & Sb). pose proof (st_range _ Hlt) as Rst.
    rewrite (u32_small (lg_start lg + Z.of_nat (length pre) + 1)) by (fold st; lia).
    replace (lg_start lg + Z.of_nat (length pre) + 1) with (st + 1 + Z.of_nat (length pre)) by (unfold st; lia).
    change (λ lbuf, bno <- unwrap (Some b);; dbuf <- bread fuel ROOTDEV (u32 bno);; lb <- getb lbuf;;
      modb dbuf (set_b_data (b_data lb));; bwrite fuel dbuf;; when (negb false) (bunpin dbuf);; brelse lbuf;; brelse dbuf) with
     (λ lbuf, dbuf <- bread fuel ROOTDEV (u32 b);; lb <- getb lbuf;;
      modb dbuf (set_b_data (b_data lb));; bwrite fuel dbuf;; when (negb false) (bunpin dbuf);; brelse lbuf;; brelse dbuf).
    rewrite (u32_small b) by lia.
    assert (l.*1 !! length pre = Some b) as Hb1 by (by rewrite list_lookup_fmap, Hb).
    rewrite (drop_S _ _ _ Hb1), (drop_S _ _ _ Hi) in Htx1.
    assert (b :: drop (S (length pre)) l.*1 = drop (length pre) l.*1) as Ed by (by rewrite (drop_S _ _ _ Hb1)).
    eapply (install_step fuel me pid Hfuel lg b _ i _ V _ s1 _ e); try done.
    + rewrite Ed. intros Hin. eapply (not_home _ (area_in_log _ Hlt)). rewrite <- (take_drop (length pre) l.*1).
      apply elem_of_app. by right.
    + pose proof (rd_nd _ _ _ Hrd) as Hnd. rewrite <- (take_drop (length pre) l.*1) in Hnd.
      apply NoDup_app in Hnd as (_ & _ & Hnd). rewrite <- Ed in Hnd. by apply NoDup_cons in Hnd as [? _].
    + by apply (installed_area h (length pre) _ _ Hb).
    + by apply installed_some.
    + simpl. rewrite length_drop. pose proof (rd_len _ _ _ Hrd). lia.
    + by apply crash_installed.
    + rewrite <- (installed_S _ _ _ _ Hb). by apply crash_installed.
    + rewrite (V_at _ _ _ Hb). by eexists.
    + intros s' Htx'. rewrite length_app, Nat.add_1_r. by rewrite (installed_S _ _ _ _ Hb).
  - intros [] s' Htx'. apply HQ. rewrite length_seqZ, Nat2Z.id, !drop_ge in Htx' by (rewrite ?length_fmap; lia). done.
Qed.

(** The blocks of [l] are as [l] says, the log is empty, nothing is pinned. *)
Definition committed (s : kstate) : Prop :=
  ∃ d', txn me pid (set_lg_n 0 lg) [] [] V d' s ∧ home_eq st d' (ins l d0) ∧
    (∃ h, d' !! st = Some h ∧ length h = 1024%nat ∧ head_n h = 0) ∧
    (∀ m, is_Some (d0 !! m) → is_Some (d' !! m)).

Lemma commit_ok P s :
  length P = length l → txn me pid lg l.*1 P V d0 s →
  wpc (disk_env me) C (commit fuel s) (λ _ s', committed s').
Proof.
  intros HP Htx. pose proof (rd_head _ _ _ Hrd) as (h & Hh & Hlen & Hn). fold st in Hh.
  unfold commit. eapply wpc_step; [done|]. rewrite (tx_log _ _ _ _ _ _ _ _ Htx), (rd_n _ _ _ Hrd).
  destruct (Z.ltb_spec 0 (Z.of_nat (length l))) as [Hpos|Hz]; cbn [when].
  2: { assert (length l = 0)%nat as Hl0 by lia.
       assert (l = []) as El by (by apply nil_length_inv).
       assert (P = []) as -> by (apply nil_length_inv; lia).
       assert (l.*1 = []) as El1 by (rewrite El; done). rewrite El1 in Htx.
       exists d0. split_and!; [|rewrite El, ins_nil; done|by exists h|done].
       replace (set_lg_n 0 lg) with lg; [done|]. pose proof (rd_n _ _ _ Hrd) as E0. rewrite Hl0 in E0.
       destruct lg. simpl in *. by subst. }
  assert (Forall (λ b, 0 ≤ b < 2 ^ 31) l.*1) as HF by (apply Forall_forall; intros b Hb; apply (rd_home _ _ _ Hrd) in Hb; tauto).
  destruct (header_ok l.*1 h) as (Hl1 & Hn1 & Hb1); [done|rewrite length_fmap; apply len30|done|]. rewrite length_fmap in Hn1.
  set (h1 := header l.*1 h) in *.
  assert (st ∉ l.*1) as Hst by (apply not_home, st_in_log).
  assert (0 ≤ st < 2 ^ 31) as Rst by (destruct (rd_st _ _ _ Hrd) as [? H1]; unfold LOGSIZE, MAXOPBLOCKS in H1; unfold st; lia).
  apply wpc_bind. apply (write_log_ok P); [done..|]. intros s1 Htx1.
  apply wpc_bind. eapply (write_head_step fuel me pid Hfuel lg l.*1 P V _ s1 h); try done.
  { apply Hrd. } { fold st. by rewrite logged_other by (by right). } { rewrite HP. apply Hrd. } { apply crash_logged. }
  all: rewrite (rd_n _ _ _ Hrd), Nat2Z.id, (rd_bl _ _ _ Hrd); fold st;
    replace (put_blocks l.*1 4 (put32 0 (Z.of_nat (length l)) h)) with h1
      by (unfold h1, header; by rewrite length_fmap); rewrite <- (ins_nil (<[st := h1]> _)); change [] with (take 0 l);
    fold (installed h1 0).
  { by apply crash_installed. }
  intros s2 Htx2. apply wpc_bind. apply (install_ok h1 P); [done..|]. intros s3 Htx3.
  eapply wpc_step; [done|]. apply (txn_set_log me pid (set_lg_n 0)) in Htx3.
  assert (head_n (put32 0 0 h1) = 0 ∧ length (put32 0 0 h1) = 1024%nat) as [Hz1 Hz2].
  { destruct (header_ok [] h1) as (E1 & E2 & _); [done|simpl; lia|done|]. done. }
  eapply (write_head_step fuel me pid Hfuel (set_lg_n 0 lg) [] [] V _ _ h1); try done.
  { apply Hrd. } { apply not_elem_of_nil. } { apply installed_head. } { simpl. unfold NBUF. lia. }
  { by apply crash_installed. } { by apply crash_done. }
  intros s4 Htx4. eexists. split; [exact Htx4|]. fold st. split_and!.
  - by apply home_done.
  - exists (put32 0 0 h1). split; [by rewrite lookup_insert_eq|done].
  - intros m Hm. by apply insert_some, installed_some.
Qed.

End commit.

(** ** Recovery *)

Section recovery.
Context (st : Z) (d : diskmap).
Hypothesis Hst : 0 ≤ st ∧ st + LOGSIZE < 2 ^ 31.
Hypothesis Hok : log_ok st d.

Let l := updates st d.
Let C (d' : diskmap) : Prop := log_ok st d' ∧ home_eq st (replay st d') (replay st d).

Lemma updates_keys : l.*1 = head_blocks (default [] (d !! st)).
Proof.
  unfold l, updates. apply list_eq. intros i. rewrite list_lookup_fmap, list_lookup_imap.
  by destruct (head_blocks _ !! i).
Qed.

Lemma updates_home m : m ∈ l.*1 → 0 ≤ m < 2 ^ 31 ∧ ¬ in_log st m ∧ is_Some (d !! m).
Proof. rewrite updates_keys. destruct Hok as [(h & -> & _ & _ & H) _]. apply H. Qed.

Lemma updates_out m : in_log st m → m ∉ l.*1.
Proof. intros Hm Hin. by apply updates_home in Hin as (_ & ? & _). Qed.

Lemma length_updates h : d !! st = Some h → length l = Z.to_nat (head_n h).
Proof. intros E. rewrite <- (length_fmap fst l), updates_keys, E. simpl. unfold head_blocks. by rewrite length_fmap, length_seq. Qed.

Lemma updates_len : (length l ≤ 30)%nat.
Proof.
  destruct Hok as [(h & E & _ & Hn & _) _]. rewrite (length_updates h E). unfold LOGSIZE, MAXOPBLOCKS in Hn. lia.
Qed.

Lemma updates_area t b e : l !! t = Some (b, e) → d !! (st + 1 + Z.of_nat t) = Some e ∧ in_log st (st + 1 + Z.of_nat t).
Proof.
  intros H. assert (in_log st (st + 1 + Z.of_nat t)) as Hin.
  { apply lookup_lt_Some in H. pose proof updates_len. unfold in_log, LOGSIZE, MAXOPBLOCKS. lia. }
  split; [|done]. unfold l, updates in H. rewrite list_lookup_imap in H.
  destruct (head_blocks _ !! t) as [b'|]; simplify_eq/=. by destruct (proj2 Hok _ Hin) as [x ->].
Qed.

(** The disk after [k] blocks were installed. *)
Definition redone (k : nat) : diskmap := ins (take k l) d.

Lemma redone_in_log k m : in_log st m → redone k !! m = d !! m.
Proof.
  intros Hm. apply ins_other. intros Hin. apply (updates_out m Hm). rewrite fmap_take in Hin.
  eapply elem_of_take in Hin as (i & Hi & _). by eapply list_elem_of_lookup_2.
Qed.

Lemma redone_S k b e : l !! k = Some (b, e) → redone (S k) = <[b := e]> (redone k).
Proof. intros H. unfold redone. by rewrite (take_S_r _ _ _ H), ins_snoc. Qed.

Lemma in_log_st : in_log st st.
Proof. unfold in_log, LOGSIZE, MAXOPBLOCKS. lia. Qed.

(** What a partly installed disk means does not change. *)
Lemma replay_redone k : replay st (redone k) = ins l (redone k).
Proof.
  destruct Hok as [(h & E & _) _]. apply (replay_committed st _ h l).
  - by rewrite redone_in_log by apply in_log_st.
  - by rewrite updates_keys, E.
  - intros t [b e] Ht. destruct (updates_area _ _ _ Ht) as [Hd Hin]. by rewrite redone_in_log.
Qed.

Lemma replay_ins : replay st d = ins l d.
Proof. pose proof (replay_redone 0) as H. unfold redone in H. by rewrite ins_nil in H. Qed.

Lemma take_out k m : m ∉ l.*1 → m ∉ (take k l).*1.
Proof. intros H Hin. apply H. rewrite fmap_take in Hin. eapply elem_of_take in Hin as (?&?&?); by eapply list_elem_of_lookup_2. Qed.

Lemma crash_redone k : C (redone k).
Proof.
  split.
  - eapply log_ok_mono; [by apply redone_in_log, in_log_st|apply ins_some|done].
  - rewrite replay_redone, replay_ins. intros m _. apply ins_agree. intros Hm. apply ins_other. by apply take_out.
Qed.

Lemma redone_all : redone (length l) = replay st d.
Proof. by rewrite replay_ins; unfold redone; rewrite firstn_all. Qed.

Lemma crash_cleared h : length h = 1024%nat → head_n h = 0 → C (<[st := h]> (redone (length l))).
Proof.
  intros Hl Hn. split; [split|].
  - exists h. split; [by rewrite lookup_insert_eq|by apply head_ok_empty].
  - intros m Hm. apply insert_some, ins_some. by apply Hok.
  - rewrite replay_empty by (by rewrite lookup_insert_eq). intros m Hm.
    rewrite lookup_insert_ne by (intros <-; apply Hm, in_log_st). by rewrite redone_all.
Qed.

(** [log.lh] while the first [k] blocks of the header were read. *)
Record head_upto (lg : log) (k : nat) (lg' : log) : Prop := {
  hu_dev : lg_dev lg' = lg_dev lg;
  hu_start : lg_start lg' = lg_start lg;
  hu_size : lg_size lg' = lg_size lg;
  hu_outstanding : lg_outstanding lg' = lg_outstanding lg;
  hu_committing : lg_committing lg' = lg_committing lg;
  hu_len : length (lg_block lg') = length (lg_block lg);
  hu_n : lg_n lg' = Z.of_nat (length l);
  hu_block : take k (lg_block lg') = take k l.*1
}.

Let noval : Z → option (list Z) := λ _, None.

Lemma head_upto_S lg k lg' b :
  head_upto lg k lg' → l.*1 !! k = Some b → (k < length (lg_block lg))%nat →
  head_upto lg (S k) (set_lg_block (<[k := b]> (lg_block lg')) lg').
Proof.
  intros [? ? ? ? ? Hl Hn Ht] Hb Hk. split; simpl; try done; [by rewrite length_insert|].
  rewrite (take_S_r _ _ _ Hb). erewrite take_S_r by (apply list_lookup_insert_eq; lia).
  by rewrite take_insert_ge, Ht by lia.
Qed.

Lemma head_block_at h k b : d !! st = Some h → l.*1 !! k = Some b → s32 (get32 h (4 + 4 * k)) = b.
Proof.
  intros E. rewrite updates_keys, E. simpl. unfold head_blocks. rewrite list_lookup_fmap. intros H.
  apply fmap_Some in H as (j & Hj & ->). apply lookup_seq in Hj as [-> _]. done.
Qed.

Context `{D : Device}.
Variables (fuel me : nat) (pid : Z).
Hypothesis Hfuel : (2 ≤ fuel)%nat.

Lemma read_head_ok lg s Q :
  lg_dev lg = ROOTDEV → lg_start lg = st → length (lg_block lg) = 30%nat → txn me pid lg [] [] noval d s →
  (∀ lg' s', head_upto lg (length l) lg' → txn me pid lg' [] [] noval d s' → Q tt s') →
  wpc (disk_env me) C (read_head fuel s) Q.
Proof.
  intros Hdev Hs Hlen Htx HQ. pose proof Htx as [_ _ Hlog Hdk Hblk _].
  unfold read_head. eapply wpc_step; [done|]. rewrite Hlog, Hdev, Hs.
  pose proof (crash_redone 0) as HC. unfold redone in HC. rewrite ins_nil in HC.
  pose proof Hok as [(h & E & Hlh & Hn & Hh) _]. pose proof (length_updates h E) as Hll. pose proof updates_len as H30.
  unfold LOGSIZE, MAXOPBLOCKS in *. rewrite u32_small by lia.
  eapply (read_one fuel me pid Hfuel lg [] [] noval d s st h); try done.
  { apply not_elem_of_nil. } { lia. } { simpl. unfold NBUF. lia. }
  intros i ord s1 Hth1 Hf1 Hb1 Hd1 Hv1 Ha1 _ _.
  destruct (buf_data _ _ _ _ Ha1) as (fb & Hfb & Eh). eapply wpc_step; [exact Hfb|]. rewrite Eh.
  fold (head_n h). replace (head_n h) with (Z.of_nat (length l)) by lia. eapply wpc_step; [done|]. 
  apply wpc_bind. eapply wpc_mono; [eapply (wpc_for_each _ C _ (λ pre post s',
    ∃ lg', s' = set_k_log lg' s1 ∧ head_upto lg (length pre) lg'))|done|].
  - eexists. split; [done|]. rewrite (disk_frame_log _ _ Hf1), Hlog. by split.
  - intros pre x post s' Ex (lg' & -> & Hlg). apply seqZ_split in Ex as [-> Hlt]. rewrite Nat2Z.id in Hlt.
    rewrite (proj2 (Z.ltb_lt _ _)) by lia. eexists. split; [done|]. rewrite length_app, Nat.add_1_r, Nat2Z.id.
    destruct (lookup_lt_is_Some_2 l.*1 (length pre)) as [b Hb]; [by rewrite length_fmap|].
    replace (Z.to_nat (4 + 4 * Z.of_nat (length pre))) with (4 + 4 * length pre)%nat by lia.
    rewrite (head_block_at _ _ _ E Hb). apply head_upto_S; [done..|lia].
  - intros _ s' (lg' & -> & Hlg). rewrite length_seqZ, Nat2Z.id in Hlg.
    eapply (give_back me pid [i] [] [] ord _ i st h); try done.
    + by eapply thread_ext.
    + destruct Hb1. by split.
    + apply not_elem_of_nil.
    + right. simpl. by rewrite Hd1.
    + intros s2 ord2 Hth2 Hf2 Hb2 Hd2 Hv2 _. apply (HQ lg'); [done|]. split; try done.
      * by exists ord2.
      * by rewrite (disk_frame_log _ _ Hf2).
      * by rewrite Hd2.
      * intros m. rewrite Hv2. change (blk (set_k_log lg' s1) m) with (blk s1 m). by rewrite Hv1, Hblk.
Qed.

Lemma redo_ok lg s Q :
  lg_dev lg = ROOTDEV → lg_start lg = st → lg_n lg = Z.of_nat (length l) → take (length l) (lg_block lg) = l.*1 →
  txn me pid lg [] [] noval d s →
  (∀ s', txn me pid lg [] [] noval (redone (length l)) s' → Q tt s') →
  wpc (disk_env me) C (install_trans fuel true s) Q.
Proof.
  intros Hdev Hs Hn Hbl Htx HQ. unfold install_trans. eapply wpc_step; [done|].
  rewrite (tx_log _ _ _ _ _ _ _ _ Htx), Hn. pose proof updates_len as H30.
  eapply wpc_mono; [eapply (wpc_for_each _ C _ (λ pre post s', txn me pid lg [] [] noval (redone (length pre)) s'))|done|].
  - unfold redone. simpl. by rewrite ins_nil.
  - intros pre tail post s1 E Htx1. apply seqZ_split in E as [-> Hlt]. rewrite Nat2Z.id in Hlt.
    eapply wpc_step; [done|]. rewrite (tx_log _ _ _ _ _ _ _ _ Htx1), Hdev, Hs, Nat2Z.id.
    destruct (lookup_lt_is_Some_2 l (length pre) Hlt) as [[b e] Hb].
    assert (lg_block lg !! length pre = Some b) as ->.
    { rewrite <- (lookup_take_lt _ (length l)), Hbl, list_lookup_fmap, Hb by done. done. }
    destruct (updates_area _ _ _ Hb) as [Hd Hin]. 
    destruct (updates_home b) as (Rb & Ob & Sb). { apply list_elem_of_fmap. exists (b, e). split; [done|]. by eapply list_elem_of_lookup_2. }
    unfold LOGSIZE, MAXOPBLOCKS in Hst. rewrite (u32_small (st + Z.of_nat (length pre) + 1)) by lia.
    replace (st + Z.of_nat (length pre) + 1) with (st + 1 + Z.of_nat (length pre)) by lia.
    change (λ lbuf, bno <- unwrap (Some b);; dbuf <- bread fuel ROOTDEV (u32 bno);; lb <- getb lbuf;;
      modb dbuf (set_b_data (b_data lb));; bwrite fuel dbuf;; when (negb true) (bunpin dbuf);; brelse lbuf;; brelse dbuf) with
     (λ lbuf, dbuf <- bread fuel ROOTDEV (u32 b);; lb <- getb lbuf;;
      modb dbuf (set_b_data (b_data lb));; bwrite fuel dbuf;; when (negb true) (bunpin dbuf);; brelse lbuf;; brelse dbuf).
    rewrite (u32_small b) by lia.
    eapply (recover_step fuel me pid Hfuel lg _ s1 _ b e); try done.
    + by intros <-.
    + by rewrite redone_in_log.
    + by apply ins_some.
    + lia.
    + apply crash_redone.
    + rewrite <- (redone_S _ _ _ Hb). apply crash_redone.
    + intros s' Htx'. rewrite length_app, Nat.add_1_r. by rewrite (redone_S _ _ _ Hb).
  - intros [] s' Htx'. apply HQ. by rewrite length_seqZ, Nat2Z.id in Htx'.
Qed.

(** The in-memory log is empty, the disk is what [d] means, its log is empty. *)
Definition recovered (lg : log) (s : kstate) : Prop :=
  ∃ lg' d', txn me pid lg' [] [] noval d' s ∧ home_eq st d' (replay st d) ∧
    (∃ h, d' !! st = Some h ∧ length h = 1024%nat ∧ head_n h = 0) ∧
    lg_n lg' = 0 ∧ lg_dev lg' = lg_dev lg ∧ lg_start lg' = lg_start lg ∧ lg_size lg' = lg_size lg ∧
    lg_outstanding lg' = lg_outstanding lg ∧ lg_committing lg' = lg_committing lg.

Lemma recover_ok lg s :
  lg_dev lg = ROOTDEV → lg_start lg = st → length (lg_block lg) = 30%nat → txn me pid lg [] [] noval d s →
  wpc (disk_env me) C (recover_from_log fuel s) (λ _ s', recovered lg s').
Proof.
  intros Hdev Hs Hlen Htx. unfold recover_from_log. apply wpc_bind. eapply read_head_ok; [done..|].
  intros lg' s1 [Hdev' Hs' ? ? ? _ Hn' Hb'] Htx1. rewrite (firstn_all2 l.*1) in Hb' by (by rewrite length_fmap).
  apply wpc_bind. eapply (redo_ok lg'); [congruence..|done|done|exact Htx1|].
  intros s2 Htx2. eapply wpc_step; [done|]. apply (txn_set_log me pid (set_lg_n 0)) in Htx2.
  pose proof Hok as [(h & E & Hlh & _) _].
  assert (redone (length l) !! st = Some h) as Hh by (by rewrite redone_in_log by apply in_log_st).
  destruct (header_ok [] h) as (Hz2 & Hz1 & _); [done|simpl; lia|done|].
  assert (lg_start lg' = st) as Es by congruence. unfold LOGSIZE, MAXOPBLOCKS in Hst.
  eapply (write_head_step fuel me pid Hfuel (set_lg_n 0 lg') [] [] noval _ _ h); simpl; rewrite ?Es; try done.
  all: [> congruence | lia | apply not_elem_of_nil | unfold NBUF; lia | apply crash_redone | by apply crash_cleared | ].
  intros s3 Htx3. exists (set_lg_n 0 lg'). eexists. split; [exact Htx3|]. split_and!; try done; [| |simpl; congruence..].
  - intros m Hm. rewrite lookup_insert_ne by (intros <-; apply Hm, in_log_st). by rewrite redone_all.
  - eexists. rewrite lookup_insert_eq. done.
Qed.

Lemma initlog_ok lg s :
  sb_logstart (k_sb s) = st → 0 ≤ sb_nlog (k_sb s) < 2 ^ 31 → length (lg_block lg) = 30%nat →
  txn me pid lg [] [] noval d s →
  wpc (disk_env me) C (initlog fuel ROOTDEV s)
    (λ _ s', recovered (set_lg_dev ROOTDEV (set_lg_size (sb_nlog (k_sb s)) (set_lg_start st lg))) s').
Proof.
  intros Hsb Hnl Hlen Htx. unfold initlog. eapply wpc_step; [done|]. rewrite Hsb.
  unfold LOGSIZE, MAXOPBLOCKS in Hst. rewrite !s32_small by lia.
  do 3 (eapply wpc_step; [done|]). apply recover_ok; [done..|].
  apply (txn_set_log me pid (set_lg_dev ROOTDEV)), (txn_set_log me pid (set_lg_size _)), (txn_set_log me pid (set_lg_start st)).
  done.
Qed.

End recovery.

(** ** System calls in a transaction *)

Section ops.
Context (me : nat) (pid : Z).

(** During a system call that holds the buffers [L]: the log's blocks [bl] are
    pinned in the buffers [P], in this order. *)
Record in_op (L : list nat) (bl : list Z) (P : list nat) (s : kstate) : Prop := {
  io_th : thread me pid s;
  io_bio : ∃ ord, bio pid L P ord s;
  io_n : lg_n (k_log s) = Z.of_nat (length bl);
  io_len : length (lg_block (k_log s)) = 30%nat;
  io_block : take (length bl) (lg_block (k_log s)) = bl;
  io_range : Forall (λ b, 0 ≤ b < 2 ^ 31) bl;
  io_nd : NoDup bl;
  io_pin : Forall2 (λ i m, ∃ e, buf_at s i m e) P bl
}.

Lemma log_index_spec bl b :
  Forall (λ b, 0 ≤ b < 2 ^ 31) bl → 0 ≤ b < 2 ^ 31 →
  if decide (b ∈ bl) then bl !! log_index bl b = Some b else log_index bl b = length bl.
Proof.
  intros HF Hb. induction bl as [|x bl IH]; [by rewrite decide_False by apply not_elem_of_nil|].
  apply Forall_cons in HF as [Hx HF]. specialize (IH HF). cbn [log_index]. rewrite u32_small by lia.
  destruct (Z.eqb_spec x b) as [->|E]; [by rewrite decide_True by left|].
  case_decide as H; case_decide as H'; simpl; try done; [set_solver|set_solver|by rewrite IH].
Qed.

Lemma bpin_held i l s s' :
  k_held s = [] → l ≠ L_bcache → bpin i s = Ret tt s' → bpin i (set_k_held [l] s) = Ret tt (set_k_held [l] s').
Proof.
  intros Hh Hl Hrun. unfold bpin in *. erewrite bind_step in Hrun by (apply acquire_free; rewrite Hh; set_solver).
  erewrite bind_step in Hrun by reflexivity. rewrite Hh in Hrun. erewrite release_held in Hrun by reflexivity.
  injection Hrun as <-. erewrite bind_step by (apply acquire_free; set_solver).
  erewrite bind_step by reflexivity. by erewrite release_held by reflexivity.
Qed.

Definition log_with (bl : list Z) (lg lg' : log) : Prop :=
  lg' = set_lg_n (Z.of_nat (length bl)) (set_lg_block (lg_block lg') lg) .

Lemma log_write_run L bl P s i n e :
  in_op L bl P s → i ∈ L → buf_at s i n e → 0 ≤ n < 2 ^ 31 →
  1 ≤ lg_outstanding (k_log s) → Z.of_nat (length bl) < LOGSIZE → Z.of_nat (length bl) < lg_size (k_log s) - 1 →
  let bl' := if decide (n ∈ bl) then bl else bl ++ [n] in
  let P' := if decide (n ∈ bl) then P else P ++ [i] in
  ∃ s', log_write i s = Ret tt s' ∧ in_op L bl' P' s' ∧ k_disk s' = k_disk s ∧
    (∀ m, blk s' m = blk s m) ∧ (∀ j m e, buf_at s' j m e ↔ buf_at s j m e) ∧
    log_with bl' (k_log s) (k_log s') ∧ fs_frame s s'.
Proof.
  intros [Hth [ord Hbio] Hn Hlen Hbl Hrg Hnd Hpin] HiL Ha Rn Ho Hmax Hsz bl' P'. subst bl' P'.
  pose proof Ha as (b & (Hi & Hb & Hdev & Hbn) & He). unfold log_write.
  erewrite bind_step by (apply acquire_free; rewrite (th_held _ _ _ Hth); set_solver).
  erewrite bind_step by reflexivity. cbn [k_log set_k_held].
  rewrite (proj2 (Z.leb_gt LOGSIZE _)), (proj2 (Z.leb_gt (lg_size _ - 1) _)), (proj2 (Z.ltb_ge _ 1)) by lia. cbn [orb].
  erewrite bind_step by (apply getb_some; done). rewrite Hbn, Hn, Nat2Z.id, Hbl, (s32_small n) by lia.
  pose proof (log_index_spec bl n Hrg Rn) as Hidx. set (k := log_index bl n) in *.
  erewrite bind_step by reflexivity. rewrite (th_held _ _ _ Hth). case_decide as Hin.
  - assert (k < length bl)%nat as Hk by (by eapply lookup_lt_Some).
    rewrite (proj2 (Z.eqb_neq _ _)) by lia. cbn [when]. erewrite bind_step by reflexivity.
    erewrite release_held by reflexivity. cbn [k_log set_k_held].
    assert (<[k := n]> (lg_block (k_log s)) = lg_block (k_log s)) as ->.
    { apply list_insert_id. rewrite <- Hbl in Hidx. by rewrite lookup_take_lt in Hidx. }
    eexists. split; [done|]. simpl.
    assert (set_k_held [] (set_k_log (set_lg_block (lg_block (k_log s)) (k_log s)) (set_k_held [L_log] s)) = s) as ->.
    { apply k_ext; try reflexivity; simpl; [symmetry; apply Hth|]. by destruct (k_log s). }
    split_and!; try done; [by split; eauto| |apply fs_frame_refl].
    unfold log_with. rewrite <- Hn. by destruct (k_log s).
  - rewrite Hidx, Z.eqb_refl. cbn [when].
    set (lg1 := set_lg_block (<[length bl := n]> (lg_block (k_log s))) (k_log s)).
    set (s1 := set_k_log lg1 s).
    assert (i ∉ P) as HiP.
    { intros Hi'. destruct (list_elem_of_lookup_1 _ _ Hi') as [t Ht].
      destruct (Forall2_lookup_l _ _ _ _ _ Hpin Ht) as (m & Hm & e' & He').
      destruct (buf_at_fun _ _ _ _ _ _ He' Ha) as [-> _]. apply Hin. by eapply list_elem_of_lookup_2. }
    destruct (bpin_ok me pid L P ord s1 i n e) as (s2 & Hrun & Hth2 & Hf2 & Hb2 & Hd2 & Hv2 & Hk2); try done.
    { by eapply thread_ext. } { destruct Hbio. by split. }
    change (set_k_log _ (set_k_held [L_log] s)) with (set_k_held [L_log] s1).
    unfold bind at 1. unfold bind at 1. erewrite (bpin_held i L_log s1 s2) by (done || apply Hth). cbn [rbind].
    unfold modlg at 1, modify at 1. cbn [rbind]. cbn [k_log set_k_held]. 
    erewrite release_held by reflexivity. eexists. split; [done|].
    pose proof (disk_frame_log _ _ Hf2) as Hl2. simpl in Hl2.
    assert (length (<[length bl := n]> (lg_block (k_log s))) = 30%nat) as Hlen' by (by rewrite length_insert).
    assert (take (length (bl ++ [n])) (<[length bl := n]> (lg_block (k_log s))) = bl ++ [n]) as Htk.
    { rewrite length_app, Nat.add_1_r. unfold LOGSIZE, MAXOPBLOCKS in Hmax.
      erewrite take_S_r by (apply list_lookup_insert_eq; lia). by rewrite take_insert_ge, Hbl by lia. }
    split_and!; simpl; try done.
    + split; simpl; rewrite ?Hl2; try done.
      * eapply (thread_ext me pid s2); try done. simpl. symmetry. apply Hth2.
      * exists ord. destruct Hb2 as [R1 R2 R3 R4 R5 R6 R7 R8]. split; try done.
        -- intros j bj Hj Hbj. rewrite (R5 j bj Hj Hbj). f_equal. apply decide_ext. set_solver.
        -- by rewrite (Permutation_app_comm P [i]).
      * simpl. rewrite Hn, length_app. simpl. lia.
      * apply Forall_app. by split; [|constructor].
      * apply NoDup_app. split_and!; [done| |apply NoDup_singleton]. set_solver.
      * apply Forall2_app; [|constructor; [|done]].
        -- eapply Forall2_impl; [exact Hpin|]. intros j m [x Hx]. exists x. by apply Hk2.
        -- exists e. by apply Hk2.
    + unfold log_with. rewrite Hl2. simpl. rewrite Hn, length_app. simpl. unfold lg1. destruct (k_log s). simpl. f_equal. lia.
    + unfold fs_frame. unfold disk_frame in Hf2. rewrite Hf2. apply k_ext; simpl; try reflexivity. symmetry. apply Hth.
Qed.

(** [log_write] records a block of the running transaction: a block that is
    already in the log is absorbed and nothing changes; a new one is appended to the
    log's block list and its buffer pinned.  The disk and the contents of every
    block are unchanged, and each listed block has exactly one pinned buffer.  A
    transaction that is too big for the log, or a call outside a transaction,
    panics. *)
Theorem log_write_correct L bl P s i n e :
  in_op L bl P s → i ∈ L → buf_at s i n e → 0 ≤ n < 2 ^ 31 →
  if ((LOGSIZE <=? lg_n (k_log s)) || (lg_size (k_log s) - 1 <=? lg_n (k_log s)))%bool
  then log_write i s = Panic "too big a transaction"
  else if lg_outstanding (k_log s) <? 1 then log_write i s = Panic "log_write outside of trans"
  else
    let bl' := if decide (n ∈ bl) then bl else bl ++ [n] in
    let P' := if decide (n ∈ bl) then P else P ++ [i] in
    ∃ s', log_write i s = Ret tt s' ∧ in_op L bl' P' s' ∧ k_disk s' = k_disk s ∧
      (∀ m, blk s' m = blk s m) ∧ (∀ j m e, buf_at s' j m e ↔ buf_at s j m e) ∧
      log_with bl' (k_log s) (k_log s') ∧ fs_frame s s'.
Proof.
  intros Hop HiL Ha Rn. pose proof (io_n _ _ _ _ Hop) as Hn.
  destruct (_ || _)%bool eqn:E1.
  { unfold log_write. erewrite bind_step by (apply acquire_free; rewrite (th_held _ _ _ (io_th _ _ _ _ Hop)); set_solver).
    erewrite bind_step by reflexivity. cbn [k_log set_k_held]. by rewrite E1. }
  destruct (_ <? 1) eqn:E2.
  { unfold log_write. erewrite bind_step by (apply acquire_free; rewrite (th_held _ _ _ (io_th _ _ _ _ Hop)); set_solver).
    erewrite bind_step by reflexivity. cbn [k_log set_k_held]. by rewrite E1, E2. }
  apply orb_false_iff in E1 as [E0%Z.leb_gt E1%Z.leb_gt]. apply Z.ltb_ge in E2.
  eapply log_write_run; [done..|lia|lia|lia].
Qed.

Context `{D : Device}.
Variable fuel : nat.
Hypothesis Hfuel : (2 ≤ fuel)%nat.

(** Waking the threads that wait for the log changes no block. *)
Lemma wakeup_log s l0 :
  thread me pid (set_k_held [] s) → k_held s = [l0] → l0 = L_log →
  wakeup Ch_log s = Ret tt (set_k_procs (imap (wake_one (Some me) Ch_log) (k_procs s)) s).
Proof.
  intros Hth Hh ->. pose proof (th_cur _ _ _ Hth) as Hc. simpl in Hc.
  rewrite wakeup_ok; [by rewrite Hc|apply Hth|].
  left. intros j Hj. rewrite Hh. set_solver.
Qed.

(** The end of a system call that is not the last one of the transaction. *)
Lemma end_op_nested s :
  thread me pid s → lg_committing (k_log s) = 0 → lg_outstanding (k_log s) ≠ 1 →
  end_op fuel s = Ret tt (set_k_procs (imap (wake_one (Some me) Ch_log) (k_procs s))
    (set_k_log (set_lg_outstanding (lg_outstanding (k_log s) - 1) (k_log s)) s)).
Proof.
  intros Hth Hc Ho. unfold end_op.
  erewrite bind_step by (apply acquire_free; rewrite (th_held _ _ _ Hth); set_solver).
  erewrite bind_step by reflexivity. erewrite bind_step by reflexivity. cbn [k_log set_k_log set_k_held].
  cbn [lg_committing set_lg_outstanding lg_outstanding]. rewrite Hc. cbn [truthy Z.eqb negb].
  rewrite (proj2 (Z.eqb_neq _ _)) by lia. rewrite (th_held _ _ _ Hth).
  erewrite bind_step by (eapply wakeup_log; [|reflexivity..]; eapply (thread_ext me pid s); try done; symmetry; apply Hth).
  erewrite bind_step by (by apply release_held). cbn [when]. apply ret_eq, k_ext; try reflexivity; simpl.
  by rewrite (th_held _ _ _ Hth).
Qed.

Lemma txn_wakeup lg bl P V d s :
  txn me pid lg bl P V d s → txn me pid lg bl P V d (set_k_procs (imap (wake_one (Some me) Ch_log) (k_procs s)) s).
Proof.
  intros [Hth [ord Hbio] Hlog Hdk Hblk Hpin]. split; try done; [by apply thread_wakeup|].
  exists ord. destruct Hbio. by split.
Qed.

(** The end of the last system call of a transaction. *)
Lemma end_op_ok lg l d0 P s :
  ready lg l d0 → length P = length l → txn me pid lg l.*1 P (λ m, (list_to_map l : diskmap) !! m) d0 s →
  lg_outstanding lg = 1 → lg_committing lg = 0 →
  wpc (disk_env me) (atomic (lg_start lg) l d0) (end_op fuel s) (λ _ s',
    ∃ d', txn me pid (set_lg_committing 0 (set_lg_n 0 (set_lg_outstanding 0 lg))) [] [] (λ _, None) d' s' ∧
      home_eq (lg_start lg) d' (ins l d0) ∧
      (∃ h, d' !! lg_start lg = Some h ∧ length h = 1024%nat ∧ head_n h = 0)).
Proof.
  intros Hrd HP Htx Ho Hc. pose proof (tx_th _ _ _ _ _ _ _ _ Htx) as Hth.
  pose proof (tx_log _ _ _ _ _ _ _ _ Htx) as Hlog. unfold end_op.
  eapply wpc_step; [apply acquire_free; rewrite (th_held _ _ _ Hth); set_solver|].
  eapply wpc_step; [done|]. eapply wpc_step; [done|]. cbn [k_log set_k_log set_k_held].
  cbn [lg_committing set_lg_outstanding lg_outstanding]. rewrite Hlog, Hc, Ho. cbn [truthy Z.eqb negb Z.sub Z.add Z.opp Z.pos_sub].
  eapply wpc_step; [done|]. eapply wpc_step; [by apply release_held|]. cbn [when].
  set (lg1 := set_lg_committing 1 (set_lg_outstanding 0 lg)).
  apply wpc_bind. eapply wpc_mono; [eapply (commit_ok lg1 l d0)|done|].
  { by destruct Hrd. } { exact Hfuel. } { exact HP. }
  { apply (txn_set_log me pid (λ _, lg1)) in Htx. destruct Htx as [A1 [ord A2] A3 A4 A5 A6].
    split; [|exists ord; destruct A2; by split|exact A3|exact A4|exact A5|exact A6].
    eapply thread_ext; [exact A1|..]; try done; symmetry; apply Hth. }
  intros _ s1 (d' & Htx1 & Hhome & Hhd & _). pose proof (tx_th _ _ _ _ _ _ _ _ Htx1) as Hth1.
  eapply wpc_step; [apply acquire_free; rewrite (th_held _ _ _ Hth1); set_solver|].
  eapply wpc_step; [done|]. rewrite (th_held _ _ _ Hth1).
  eapply wpc_step; [eapply wakeup_log; [|reflexivity..]; eapply (thread_ext me pid s1); try done; symmetry; apply Hth1|].
  rewrite (release_held L_log []) by done. exists d'. split; [|done].
  apply (txn_set_log me pid (set_lg_committing 0)), txn_wakeup in Htx1. destruct Htx1 as [A1 [ord A2] A3 A4 A5 A6].
  split; [|exists ord; destruct A2; by split|exact A3|exact A4|exact A5|].
  - eapply thread_ext; [exact A1|..]; try done; symmetry; apply Hth1.
  - done.
Qed.

(** A system call waits while the log is committing, or might not have room for
    it; otherwise its blocks are reserved. *)
Lemma begin_op_ok s :
  thread me pid s → lg_committing (k_log s) = 0 →
  lg_n (k_log s) + (lg_outstanding (k_log s) + 1) * MAXOPBLOCKS ≤ LOGSIZE →
  begin_op fuel s = Ret tt (set_k_log (set_lg_outstanding (lg_outstanding (k_log s) + 1) (k_log s)) s).
Proof.
  intros Hth Hc Hr. unfold begin_op.
  erewrite bind_step by (apply acquire_free; rewrite (th_held _ _ _ Hth); set_solver).
  destruct fuel as [|f]; [lia|]. cbn [begin_op_loop]. erewrite bind_step by reflexivity.
  cbn [k_log set_k_held]. rewrite Hc, (proj2 (Z.ltb_ge _ _)) by lia. cbn [truthy Z.eqb negb].
  erewrite bind_step by reflexivity. rewrite (th_held _ _ _ Hth). erewrite release_held by reflexivity.
  apply ret_eq, k_ext; try reflexivity. simpl. by rewrite (th_held _ _ _ Hth).
Qed.

(** C3: The system call that ends a transaction commits it atomically.  Whatever
    the moment at which the machine stops during [end_op] (every disk on which the
    device may have stopped is a disk recovery can work on), the log replayed on
    the disk gives the file system before the transaction or the one after all its
    writes; and if the machine does not stop, [end_op] returns with every write
    installed in its place, the log empty on disk and in memory, no buffer pinned,
    and the cache clean. *)
Theorem end_op_atomic lg l d0 P s :
  ready lg l d0 → length P = length l → txn me pid lg l.*1 P (λ m, (list_to_map l : diskmap) !! m) d0 s →
  lg_outstanding lg = 1 → lg_committing lg = 0 →
  wpc (disk_env me) (atomic (lg_start lg) l d0) (end_op fuel s) (λ _ s',
    ∃ d', txn me pid (set_lg_committing 0 (set_lg_n 0 (set_lg_outstanding 0 lg))) [] [] (λ _, None) d' s' ∧
      home_eq (lg_start lg) d' (ins l d0) ∧
      (∃ h, d' !! lg_start lg = Some h ∧ length h = 1024%nat ∧ head_n h = 0)).
Proof. apply end_op_ok. Qed.

(** C4: After a crash during the commit of a transaction [l], recovery at boot gives
    all of it or nothing: it leaves the file system as before the transaction or as
    after it, with an empty log.  Recovery may itself be interrupted, any number of
    times: each disk it can leave behind again replays to the old or the new file
    system. *)
Theorem recovery_all_or_nothing st l d0 d lg s :
  0 ≤ st ∧ st + LOGSIZE < 2 ^ 31 → atomic st l d0 d →
  sb_logstart (k_sb s) = st → 0 ≤ sb_nlog (k_sb s) < 2 ^ 31 → length (lg_block lg) = 30%nat →
  txn me pid lg [] [] (λ _, None) d s →
  wpc (disk_env me) (atomic st l d0) (initlog fuel ROOTDEV s) (λ _ s',
    ∃ lg' d', txn me pid lg' [] [] (λ _, None) d' s' ∧ lg_n lg' = 0 ∧
      (home_eq st d' d0 ∨ home_eq st d' (ins l d0)) ∧
      (∃ h, d' !! st = Some h ∧ length h = 1024%nat ∧ head_n h = 0)).
Proof.
  intros Rst [Hok Hat] Hsb Hnl Hlen Htx.
  eapply wpc_mono; [by eapply (initlog_ok st d)|..].
  - intros d1 [Hok1 Heq]. split; [done|]. by rewrite !Heq.
  - intros _ s' (lg' & d' & H1 & H2 & H3 & H4 & _). exists lg', d'. split_and!; try done.
    destruct Hat as [Hat|Hat]; [left|right]; by etrans.
Qed.

(** Recovery installs exactly what the log says: [initlog] leaves the disk
    that the log on the disk [d] stands for, [replay], and an empty log; a crash on
    the way leaves a disk that stands for the same file system. *)
Theorem initlog_recovers st d lg s :
  0 ≤ st ∧ st + LOGSIZE < 2 ^ 31 → log_ok st d →
  sb_logstart (k_sb s) = st → 0 ≤ sb_nlog (k_sb s) < 2 ^ 31 → length (lg_block lg) = 30%nat →
  txn me pid lg [] [] (λ _, None) d s →
  wpc (disk_env me) (λ d', log_ok st d' ∧ home_eq st (replay st d') (replay st d)) (initlog fuel ROOTDEV s)
    (λ _ s', recovered st d me pid (set_lg_dev ROOTDEV (set_lg_size (sb_nlog (k_sb s)) (set_lg_start st lg))) s').
Proof. intros. by apply initlog_ok. Qed.

End ops.

(** ** A disk with a log at block 2 and a file-system block 40 *)

Definition zeros : list Z := replicate 1024 0.
Definition log_disk : diskmap := list_to_map ((λ n, (n, zeros)) <$> (40 :: seqZ 2 31)).
Definition one_block : list (Z * list Z) := [(40, demo_block)].
Definition demo_log (n : Z) : log := mk_log 2 31 1 0 ROOTDEV n (40 :: replicate 29 0).
Definition log_machine (lg : log) (d : diskmap) : kstate :=
  set_k_sb (mk_sb FSMAGIC 1000 950 200 31 2 33 46) (set_k_log lg (set_k_disk d demo_disk)).

Lemma log_disk_at n : n = 40 ∨ 2 ≤ n ≤ 32 → log_disk !! n = Some zeros.
Proof.
  intros H. apply elem_of_list_to_map_1.
  - rewrite <- list_fmap_compose. rewrite (list_fmap_ext _ id), list_fmap_id by done.
    apply NoDup_cons. split; [rewrite elem_of_seqZ; lia|apply NoDup_seqZ].
  - apply list_elem_of_fmap. exists n. split; [done|]. rewrite elem_of_cons, elem_of_seqZ. lia.
Qed.

Lemma zeros_head : length zeros = 1024%nat ∧ head_n zeros = 0.
Proof. by vm_compute. Qed.

Lemma log_disk_ready : ready (demo_log 1) one_block log_disk.
Proof.
  split; [reflexivity|reflexivity|reflexivity|unfold LOGSIZE, MAXOPBLOCKS; simpl; lia|apply NoDup_singleton|..].
  - unfold NBUF. simpl. lia.
  - intros b Hb%list_elem_of_singleton. simpl in Hb. subst b. split; [lia|]. simpl (lg_start _). unfold in_log, LOGSIZE, MAXOPBLOCKS.
    split; [lia|]. rewrite log_disk_at by lia. by eexists.
  - intros m. simpl (lg_start _). unfold in_log, LOGSIZE, MAXOPBLOCKS. intros Hm. rewrite log_disk_at by lia. by eexists.
  - exists zeros. simpl (lg_start _). rewrite log_disk_at by lia. split; [done|]. apply zeros_head.
Qed.


Lemma log_machine_bufs lg d : k_bufs (log_machine lg d) = fresh_cache.
Proof. rewrite <- demo_disk_bufs. reflexivity. Qed.

Lemma log_machine_thread lg d : thread 0 3 (log_machine lg d).
Proof. split; try reflexivity. eexists. split_and!; reflexivity. Qed.

(** The machine after a system call wrote block 40. *)
Definition dirty_machine : kstate := with_buf 40 demo_block (mk_sl 0 0) 1 (log_machine (demo_log 1) log_disk).

Lemma dirty_machine_txn :
  txn 0 3 (demo_log 1) [40] [0%nat] (λ m, (list_to_map one_block : diskmap) !! m) log_disk dirty_machine.
Proof.
  destruct (with_buf_ok 3 [] [0%nat] 40 demo_block (log_machine (demo_log 1) log_disk) (log_machine_bufs _ _)
    ready_idle eq_refl) as (Hbio & Hat & Hblk).
  split.
  - apply with_buf_thread, log_machine_thread.
  - eexists. exact Hbio.
  - reflexivity.
  - reflexivity.
  - intros m. unfold dirty_machine. etrans; [apply Hblk|]. cbn [k_disk log_machine set_k_sb set_k_log set_k_disk].
    destruct (decide (m = 40)) as [->|E].
    + by rewrite decide_True by set_solver.
    + rewrite decide_False by set_solver. reflexivity.
  - constructor; [|constructor]. eexists. exact Hat.
Qed.

Lemma end_op_atomic_witness :
  wpc (@disk_env qemu_disk 0) (atomic 2 one_block log_disk) (end_op 2 dirty_machine)
    (λ _ s', blk s' 40 = Some demo_block).
Proof.
  eapply wpc_mono; [apply (@end_op_atomic 0 3 qemu_disk 2 ltac:(lia) (demo_log 1) one_block log_disk [0%nat])|..].
  - apply log_disk_ready.
  - reflexivity.
  - apply dirty_machine_txn.
  - reflexivity.
  - reflexivity.
  - done.
  - intros _ s' (d' & Htx & Hh & _). rewrite (tx_blk _ _ _ _ _ _ _ _ Htx), decide_False by apply not_elem_of_nil.
    rewrite (Hh 40); [reflexivity|]. unfold in_log, LOGSIZE, MAXOPBLOCKS. simpl. lia.
Defined.

(** A machine that boots on the disk [d]. *)
Lemma clean_machine_txn lg d : txn 0 3 lg [] [] (λ _, None) d (log_machine lg d).
Proof.
  split; [apply log_machine_thread| |reflexivity|reflexivity| |constructor].
  - eexists. apply bio_fresh; [apply log_machine_bufs|apply ready_idle].
  - intros m. rewrite blk_fresh by apply log_machine_bufs. by rewrite decide_False by apply not_elem_of_nil.
Qed.

(** The disk after a crash just after the commit point. *)
Definition crashed_disk : diskmap := installed (demo_log 1) one_block log_disk (header [40] zeros) 0.

Lemma crashed_atomic : atomic 2 one_block log_disk crashed_disk.
Proof.
  destruct (header_ok [40] zeros) as (H1 & H2 & H3); [apply zeros_head|simpl; lia|constructor; [lia|constructor]|].
  apply (crash_installed (demo_log 1) one_block log_disk log_disk_ready); [exact H1|exact H2|exact H3].
Qed.

Lemma recovery_all_or_nothing_witness :
  wpc (@disk_env qemu_disk 0) (atomic 2 one_block log_disk) (initlog 2 ROOTDEV (log_machine (demo_log 0) crashed_disk))
    (λ _ s', ∃ lg' d', txn 0 3 lg' [] [] (λ _, None) d' s' ∧ lg_n lg' = 0 ∧
      (home_eq 2 d' log_disk ∨ home_eq 2 d' (ins one_block log_disk)) ∧
      (∃ h, d' !! 2 = Some h ∧ length h = 1024%nat ∧ head_n h = 0)).
Proof.
  apply (@recovery_all_or_nothing 0 3 qemu_disk 2 ltac:(lia) 2 one_block log_disk crashed_disk (demo_log 0)).
  - unfold LOGSIZE, MAXOPBLOCKS. lia.
  - apply crashed_atomic.
  - reflexivity.
  - simpl. lia.
  - reflexivity.
  - apply clean_machine_txn.
Defined.

Lemma initlog_recovers_witness :
  wpc (@disk_env qemu_disk 0) (λ _, True) (initlog 2 ROOTDEV (log_machine (demo_log 0) crashed_disk))
    (λ _ s', blk s' 40 = Some demo_block).
Proof.
  eapply wpc_mono; [apply (@initlog_recovers 0 3 qemu_disk 2 ltac:(lia) 2 crashed_disk (demo_log 0))|..].
  - unfold LOGSIZE, MAXOPBLOCKS. lia.
  - apply crashed_atomic.
  - reflexivity.
  - simpl. lia.
  - reflexivity.
  - apply clean_machine_txn.
  - done.
  - intros _ s' (lg' & d' & Htx & Hh & _).
    rewrite (tx_blk _ _ _ _ _ _ _ _ Htx), decide_False by apply not_elem_of_nil.
    rewrite (Hh 40) by (unfold in_log, LOGSIZE, MAXOPBLOCKS; lia).
    destruct (header_ok [40] zeros) as (H1 & H2 & H3); [apply zeros_head|simpl; lia|constructor; [lia|constructor]|].
    rewrite (replay_committed 2 crashed_disk (header [40] zeros) one_block); [reflexivity| |exact H3|].
    + apply (installed_head (demo_log 1) one_block log_disk log_disk_ready).
    + intros t x Hx. by apply (installed_area (demo_log 1) one_block log_disk log_disk_ready).
Defined.

(** A system call holds block 40, which it has changed. *)
Definition writing_machine : kstate := with_buf 40 demo_block (mk_sl 1 3) 1 (log_machine (demo_log 0) log_disk).

Lemma writing_machine_op : in_op 0 3 [0%nat] [] [] writing_machine ∧ buf_at writing_machine 0 40 demo_block.
Proof.
  destruct (with_buf_ok 3 [0%nat] [] 40 demo_block (log_machine (demo_log 0) log_disk) (log_machine_bufs _ _)
    ready_idle eq_refl) as (Hbio & Hat & _).
  split; [|exact Hat]. split; try reflexivity; [apply with_buf_thread, log_machine_thread|by eexists|constructor..].
Qed.

Lemma log_write_correct_witness :
  ∃ s', log_write 0 writing_machine = Ret tt s' ∧ in_op 0 3 [0%nat] [40] [0%nat] s'.
Proof.
  destruct writing_machine_op as [Hop Hat].
  pose proof (log_write_correct 0 3 [0%nat] [] [] writing_machine 0 40 demo_block Hop
    ltac:(by left) Hat ltac:(lia)) as H.
  destruct H as (s' & Hrun & Hop' & _). exists s'. split; [exact Hrun|exact Hop'].
Defined.

(** ** A full log

    [LOGSIZE] blocks fit into the log, and [begin_op] lets system calls in until
    that many are reserved; each block of the transaction keeps its buffer pinned,
    and [NBUF] is [LOGSIZE]. *)

Definition full_log : log := mk_log 2 31 0 1 ROOTDEV 30 (seqZ 100 30).
Definition full_cache : list buf :=
  imap (λ i b, if decide (i < NBUF)%nat
               then set_b_refcnt 1 (set_b_valid 1 (set_b_dev ROOTDEV (set_b_blockno (100 + Z.of_nat i) b))) else b) fresh_cache.
Definition full_machine : kstate := set_k_bufs full_cache (log_machine full_log log_disk).

