(* ===== verification/Trans.v ===== *)
(** * Blocks inside a system call

    Between [begin_op] and [end_op] the file system reads blocks with [bread] and
    changes them with [bread], a store, [log_write] and [brelse].  The rules below
    say what these sequences do to the contents of the blocks, [blk], so that the
    code above them is verified without looking at buffers, pins or the log: no
    system call changes the disk, and a block that is not in the log is clean. *)

From Stdlib Require Import ZArith Lia.
From S2P Require Import Prelude Machine Kernel Boot Kalloc Vm ProcTable Seq Sleeplock Virtio Bio Log Crash.

Section trans.
Context (me : nat) (pid : Z).

(** A system call that holds the buffers [L]; the transaction has written [bl]. *)
Definition op (L : list nat) (bl : list Z) (s : kstate) : Prop :=
  ∃ P, in_op me pid L bl P s ∧ (∀ m, m ∉ bl → blk s m = k_disk s !! m) ∧ 1 ≤ lg_outstanding (k_log s).

Lemma op_P L bl s : op L bl s →
  ∃ P ord, in_op me pid L bl P s ∧ bio pid L P ord s ∧ length P = length bl.
Proof.
  intros (P & Hop & _). destruct (io_bio _ _ _ _ _ _ Hop) as [ord Hbio]. exists P, ord.
  split_and!; try done. eapply Forall2_length, Hop.
Qed.

Lemma op_thread L bl s : op L bl s → thread me pid s.
Proof. intros (P & Hop & _). apply Hop. Qed.

(** A held buffer of a block in the log is the pinned one. *)
Lemma op_pinned L bl P s ord i n e :
  in_op me pid L bl P s → bio pid L P ord s → buf_at s i n e → n ∈ bl → i ∈ P.
Proof.
  intros Hop Hbio (b & Ci & _) Hn. destruct (list_elem_of_lookup_1 _ _ Hn) as [k Hk].
  destruct (Forall2_lookup_r _ _ _ _ _ (io_pin _ _ _ _ _ _ Hop) Hk) as (j & Hj & e' & (b' & Cj & _)).
  rewrite (bi_uniq Hbio _ _ _ _ _ Ci Cj). by eapply list_elem_of_lookup_2.
Qed.

Lemma in_op_disk L L' bl P s s' :
  in_op me pid L bl P s → thread me pid s' → disk_frame s s' → (∃ ord, bio pid L' P ord s') →
  (∀ j m e, j ∈ P → buf_at s j m e → buf_at s' j m e) → in_op me pid L' bl P s'.
Proof.
  intros [_ _ Hn Hl Hb Hr Hnd Hpin] Hth Hf Hbio Hk. split; rewrite ?(disk_frame_log _ _ Hf); try done.
  eapply Forall2_in; [exact Hpin|]. intros j m Hj [e He]. exists e. by apply Hk.
Qed.

(** Giving a block back. *)
Lemma op_release L L' bl s i n e :
  op L bl s → L ≡ₚ i :: L' → i ∉ L' → buf_at s i n e →
  ∃ s', brelse i s = Ret tt s' ∧ op L' bl s' ∧ fs_frame s s' ∧ k_disk s' = k_disk s ∧ k_log s' = k_log s ∧
    (∀ m, blk s' m = blk s m) ∧ (∀ j m x, buf_at s' j m x ↔ buf_at s j m x).
Proof.
  intros (P & Hin & Hcl & Ho) HL HiL Ha. destruct (io_bio _ _ _ _ _ _ Hin) as [ord Hbio].
  assert (blk s n = Some e) as Hblk by (destruct Ha as (b & Ci & <-); by eapply blk_cached).
  assert (i ∈ P ∨ k_disk s !! n = Some e) as Hor.
  { destruct (decide (n ∈ bl)) as [Hn|Hn]; [left; by eapply op_pinned|right]. by rewrite <- Hcl. }
  destruct (brelse_ok me pid L L' P ord s i n e) as (s' & ord' & Hrun & Hth & Hf & Hb' & Hd & Hv & Hk & _); try done.
  { apply Hin. }
  exists s'. split_and!; try done; [|by apply fs_frame_disk|by apply disk_frame_log].
  exists P. split_and!.
  - eapply in_op_disk; [exact Hin|done|done|by exists ord'|]. intros j m x _. apply Hk.
  - intros m Hm. by rewrite Hv, Hd, Hcl.
  - by rewrite (disk_frame_log _ _ Hf).
Qed.

(** The transaction's list of blocks after a write. *)
Definition logs (bl : list Z) (n : Z) : list Z := if decide (n ∈ bl) then bl else bl ++ [n].

Lemma logs_in bl n : n ∈ logs bl n.
Proof. unfold logs. case_decide; set_solver. Qed.

Lemma logs_length bl n : (length bl ≤ length (logs bl n) ≤ S (length bl))%nat.
Proof. unfold logs. case_decide; [lia|]. rewrite length_app. simpl. lia. Qed.

Lemma logs_incl bl n m : m ∈ bl → m ∈ logs bl n.
Proof. unfold logs. case_decide; set_solver. Qed.

Lemma logs_absorb bl n : n ∈ bl → logs bl n = bl.
Proof. intros H. unfold logs. by rewrite decide_True. Qed.

(** Changing a block that is held. *)
Lemma op_write L bl s i n e f :
  op L bl s → i ∈ L → buf_at s i n e → 0 ≤ n < 2 ^ 31 →
  Z.of_nat (length bl) < LOGSIZE → Z.of_nat (length bl) < lg_size (k_log s) - 1 →
  ∃ s', log_write i (set_k_bufs (alter (λ x, set_b_data (f (b_data x)) x) i (k_bufs s)) s) = Ret tt s' ∧
    op L (logs bl n) s' ∧ fs_frame s s' ∧ k_disk s' = k_disk s ∧
    lg_size (k_log s') = lg_size (k_log s) ∧
    (∀ m, blk s' m = if decide (m = n) then Some (f e) else blk s m) ∧ buf_at s' i n (f e) ∧
    (∀ j m x, j ≠ i → buf_at s' j m x ↔ buf_at s j m x).
Proof.
  intros (P & Hin & Hcl & Ho) HiL Ha Rn Hmax Hsz. destruct (io_bio _ _ _ _ _ _ Hin) as [ord Hbio].
  destruct (store_ok me pid L P ord s i n e (f e) (io_th _ _ _ _ _ _ Hin) Hbio Ha HiL) as (Hth1 & Hf1 & Hb1 & Ha1 & Hv1).
  assert (alter (λ x, set_b_data (f (b_data x)) x) i (k_bufs s) = alter (set_b_data (f e)) i (k_bufs s)) as Ealt.
  { destruct Ha as (b & (_ & Hb & _) & <-). by eapply alter_at. }
  set (s1 := set_k_bufs (alter (set_b_data (f e)) i (k_bufs s)) s) in *.
  assert (∀ j m x, j ≠ i → buf_at s1 j m x ↔ buf_at s j m x) as Hne.
  { intros j m x Hj. apply buf_at_lookup. simpl. by rewrite list_lookup_alter_ne. }
  assert (in_op me pid L bl P s1) as Hin1.
  { destruct Hin as [_ _ A1 A2 A3 A4 A5 A6]. split; try done; [by exists ord|].
    eapply Forall2_in; [exact A6|]. intros j m Hj [x Hx]. destruct (decide (j = i)) as [->|Hji].
    - destruct (buf_at_fun _ _ _ _ _ _ Hx Ha) as [-> _]. by exists (f e).
    - exists x. by apply Hne. }
  destruct (log_write_run me pid L bl P s1 i n (f e)) as (s2 & Hrun & Hin2 & Hd2 & Hv2 & Hk2 & Hlg & Hfr); try done.
  exists s2. split_and!; try done.
  - rewrite Ealt. exact Hrun.
  - exists (if decide (n ∈ bl) then P else P ++ [i]). split_and!; [exact Hin2| |].
    + intros m Hm. rewrite Hv2, Hv1, Hd2. rewrite decide_False by (intros ->; apply Hm, logs_in).
      apply Hcl. intros Hm'. by apply Hm, logs_incl.
    + rewrite Hlg. done.
  - by rewrite Hlg.
  - intros m. by rewrite Hv2, Hv1.
  - by apply Hk2.
  - intros j m x Hj. by rewrite Hk2, Hne.
Qed.

Context `{D : Device} (fuel : nat).
Hypothesis Hfuel : (2 ≤ fuel)%nat.

(** Reading a block. *)
Lemma op_read {A} L bl s n e C (K : nat → M A) Q :
  op L bl s → blk s n = Some e → is_Some (k_disk s !! n) → 0 ≤ n < 2 ^ 31 →
  (∀ i e', i ∈ L → ¬ buf_at s i n e') → (length L + length bl < NBUF)%nat → C (k_disk s) →
  (∀ i s', op (i :: L) bl s' → fs_frame s s' → k_disk s' = k_disk s → k_log s' = k_log s →
     (∀ m, blk s' m = blk s m) → buf_at s' i n e → i ∉ L →
     (∀ j m x, j ∈ L → buf_at s j m x → buf_at s' j m x) → wpc (disk_env me) C (K i s') Q) →
  wpc (disk_env me) C ((i <- bread fuel ROOTDEV n;; K i) s) Q.
Proof.
  intros Hop Hb Hd Rn Hheld Hroom HC HK. destruct (op_P _ _ _ Hop) as (P' & _ & _ & _ & HlP').
  destruct Hop as (P & Hin & Hcl & Ho). destruct (io_bio _ _ _ _ _ _ Hin) as [ord Hbio].
  assert (length P = length bl) as HlP by (eapply Forall2_length, Hin).
  apply wpc_bind. eapply wpc_mono; [eapply (bread_ok fuel me pid L P ord s n e C); try done|done|].
  { apply Hin. } { left. lia. }
  intros i s1 Hp. pose proof Hp as (Hth1 & Hf1 & Hb1 & Hd1 & Hv1 & Ha1 & HiL & _).
  eapply HK; try done.
  - exists P. split_and!.
    + eapply in_op_disk; [exact Hin|done|done|by exists ord|]. intros j m x Hj. by eapply bread_keep; [exact Hp|left].
    + intros m Hm. by rewrite Hv1, Hd1, Hcl.
    + by rewrite (disk_frame_log _ _ Hf1).
  - by apply fs_frame_disk.
  - by apply disk_frame_log.
  - intros j m x Hj. by eapply bread_keep; [exact Hp|right].
Qed.

(** Changing a block that is not held: read, store, log and give back. *)
Lemma op_update L bl s n e f C Q :
  op L bl s → blk s n = Some e → is_Some (k_disk s !! n) → 0 ≤ n < 2 ^ 31 →
  (∀ i e', i ∈ L → ¬ buf_at s i n e') → (length L + length bl < NBUF)%nat →
  Z.of_nat (length bl) < lg_size (k_log s) - 1 → C (k_disk s) →
  (∀ s', op L (logs bl n) s' → fs_frame s s' → k_disk s' = k_disk s → lg_size (k_log s') = lg_size (k_log s) →
     (∀ m, blk s' m = if decide (m = n) then Some (f e) else blk s m) →
     (∀ j m x, j ∈ L → buf_at s j m x → buf_at s' j m x) → Q tt s') →
  wpc (disk_env me) C ((i <- bread fuel ROOTDEV n;; modb i (λ x, set_b_data (f (b_data x)) x);; log_write i;; brelse i) s) Q.
Proof.
  intros Hop Hb Hd Rn Hheld Hroom Hsz HC HQ.
  eapply (op_read L bl s n e C); try done. intros i s1 Hop1 Hf1 Hd1 Hl1 Hv1 Ha1 HiL Hk1.
  destruct (op_write (i :: L) bl s1 i n e f) as (s2 & Hrun & Hop2 & Hf2 & Hd2 & Hs2 & Hv2 & Ha2 & Hk2); try done.
  { by left. } { unfold LOGSIZE, MAXOPBLOCKS. unfold NBUF in Hroom. lia. } { by rewrite Hl1. }
  destruct (op_release (i :: L) L (logs bl n) s2 i n (f e)) as (s3 & Hrel & Hop3 & Hf3 & Hd3 & Hl3 & Hv3 & Hk3); try done.
  eapply wpc_step; [reflexivity|]. eapply wpc_step; [exact Hrun|]. rewrite Hrel.
  apply HQ; try done.
  - eapply fs_frame_trans; [exact Hf1|]. by eapply fs_frame_trans.
  - by rewrite Hd3, Hd2, Hd1.
  - by rewrite Hl3, Hs2, Hl1.
  - intros m. by rewrite Hv3, Hv2, Hv1.
  - intros j m x Hj Hx. apply Hk3, Hk2; [by intros ->|]. by apply Hk1.
Qed.

End trans.
