(* ===== verification/Console.v ===== *)
(** * The console and the UART driver

    [kernel/console.c] and [kernel/uart.c].  The device itself is the interface
    [Uart]: whether the transmit register is free, and the input that waits.  The
    input side refines a line editor ([line_step]): a list of bytes committed to
    readers and a list of bytes still being edited. *)

From Stdlib Require Import ZArith Lia.
From S2P Require Import Prelude Machine Kernel Boot CString Printf Kalloc Vm ProcTable.

(** The UART as the driver reads it: [LSR_TX_IDLE] of the line status register,
    and the bytes [RHR] delivers before [LSR_RX_READY] clears. *)
Class Uart := {
  lsr_tx_idle : kstate → bool;
  rhr : kstate → list Z
}.

Definition INPUT_BUF_SIZE : Z := 128.
Definition UART_TX_BUF_SIZE : Z := 32.

(** [C('x')] is the character code minus that of [@]. *)
Definition CTRL (x : Z) : Z := x - 64.

Section console.
Context `{B : Build} `{U : Uart}.

(** ** uart.c *)

Definition modu (f : uart_tx → uart_tx) : M unit := modify (λ s, set_k_uart (f (k_uart s)) s).

Fixpoint uartstart_loop (fuel : nat) : M unit :=
  match fuel with
  | O => stuck
  | S fl =>
      u <- gets k_uart;;
      if ut_w u =? ut_r u then ret tt
      else
        idle <- gets lsr_tx_idle;;
        if negb idle then ret tt
        else
          let c := default 0 (ut_buf u !! Z.to_nat (ut_r u mod UART_TX_BUF_SIZE)) in
          modu (set_ut_r (u64 (ut_r u + 1)));;
          wakeup Ch_uart_tx_r;;
          modify (λ s, set_k_out (k_out s ++ [c]) s);;
          uartstart_loop fl
  end.

(** Each round sends one of the at most 32 buffered characters. *)
Definition uartstart : M unit := uartstart_loop 33.

Fixpoint uartputc_wait (fuel : nat) : M unit :=
  match fuel with
  | O => stuck
  | S fl =>
      u <- gets k_uart;;
      if ut_w u =? u64 (ut_r u + UART_TX_BUF_SIZE)
      then sleep Ch_uart_tx_r L_uart;; uartputc_wait fl
      else ret tt
  end.

Definition uartputc (fuel : nat) (c : Z) : M unit :=
  acquire L_uart;;
  uartputc_wait fuel;;
  u <- gets k_uart;;
  modu (set_ut_buf (<[Z.to_nat (ut_w u mod UART_TX_BUF_SIZE) := u8 c]> (ut_buf u)));;
  modu (set_ut_w (u64 (ut_w u + 1)));;
  uartstart;;
  release L_uart.

(** ** console.c *)

Fixpoint consolewrite_loop (fuel : nat) (k : nat) (user_src : bool) (src i : Z) : M Z :=
  match k with
  | O => ret i
  | S k' =>
      r <- either_copyin user_src (u64 (src + i)) 1;;
      if r.1 =? -1 then ret i
      else uartputc fuel (nth 0 r.2 0);; consolewrite_loop fuel k' user_src src (i + 1)
  end.

Definition consolewrite (fuel : nat) (user_src : bool) (src n : Z) : M Z :=
  consolewrite_loop fuel (Z.to_nat n) user_src src 0.

Definition modc (f : console → console) : M unit := modify (λ s, set_k_cons (f (k_cons s)) s).

(** [cons.buf[i % INPUT_BUF_SIZE]] *)
Definition cons_at (c : console) (i : Z) : Z := default 0 (c_buf c !! Z.to_nat (i mod INPUT_BUF_SIZE)).

(** The wait for input: false is [return -1]. *)
Fixpoint consoleread_wait (fuel : nat) : M bool :=
  match fuel with
  | O => stuck
  | S fl =>
      c <- gets k_cons;;
      if c_r c =? c_w c then
        me <- curproc;;
        k <- killed me;;
        if truthy k then release L_cons;; ret false
        else sleep Ch_cons_r L_cons;; consoleread_wait fl
      else ret true
  end.

(** The outer loop with [k] bytes still wanted; [None] is [return -1], and
    otherwise the number of bytes not delivered. *)
Fixpoint consoleread_loop (fuel : nat) (k : nat) (target : Z) (user_dst : bool) (dst : Z) : M (option Z) :=
  match k with
  | O => ret (Some 0)
  | S k' =>
      go <- consoleread_wait fuel;;
      if negb go then ret None
      else
        cn <- gets k_cons;;
        let c := cons_at cn (c_r cn) in
        modc (set_c_r (u32 (c_r cn + 1)));;
        if c =? CTRL 68 then
          when (Z.of_nat k <? target) (modc (λ cn, set_c_r (u32 (c_r cn - 1)) cn));;
          ret (Some (Z.of_nat k))
        else
          r <- either_copyout user_dst dst [c];;
          if r =? -1 then ret (Some (Z.of_nat k))
          else if c =? 10 then ret (Some (Z.of_nat k'))
          else consoleread_loop fuel k' target user_dst (u64 (dst + 1))
  end.

Definition consoleread (fuel : nat) (user_dst : bool) (dst n : Z) : M Z :=
  acquire L_cons;;
  o <- consoleread_loop fuel (Z.to_nat n) n user_dst dst;;
  match o with
  | None => ret (-1)
  | Some rest => release L_cons;; ret (if n <? 0 then 0 else n - rest)
  end.

(** [case C('U')]: the loop erases at most the whole buffer. *)
Fixpoint kill_line (fuel : nat) : M unit :=
  match fuel with
  | O => stuck
  | S fl =>
      c <- gets k_cons;;
      if (negb (c_e c =? c_w c) && negb (cons_at c (u32 (c_e c - 1)) =? 10))%bool
      then modc (set_c_e (u32 (c_e c - 1)));; consputc BACKSPACE;; kill_line fl
      else ret tt
  end.

Definition consoleintr (c : Z) : M unit :=
  acquire L_cons;;
  (if c =? CTRL 80 then procdump
   else if c =? CTRL 85 then kill_line 129
   else if ((c =? CTRL 72) || (c =? 0x7f))%bool then
     cn <- gets k_cons;;
     when (negb (c_e cn =? c_w cn)) (modc (set_c_e (u32 (c_e cn - 1)));; consputc BACKSPACE)
   else
     cn <- gets k_cons;;
     when (truthy c && (u32 (c_e cn - c_r cn) <? INPUT_BUF_SIZE))%bool
       (let c := if c =? 13 then 10 else c in
        consputc c;;
        modc (λ cn, set_c_e (u32 (c_e cn + 1))
                      (set_c_buf (<[Z.to_nat (c_e cn mod INPUT_BUF_SIZE) := u8 c]> (c_buf cn)) cn));;
        cn <- gets k_cons;;
        when ((c =? 10) || (c =? CTRL 68) || (u32 (c_e cn - c_r cn) =? INPUT_BUF_SIZE))%bool
          (modc (set_c_w (c_e cn));; wakeup Ch_cons_r)));;
  release L_cons.

Definition uartintr : M unit :=
  input <- gets rhr;;
  for_each input consoleintr;;
  acquire L_uart;;
  uartstart;;
  release L_uart.

(** ** The line editor *)

Record line := mk_line { committed : list Z; editing : list Z }.

(** What one typed character does. *)
Definition line_step (c : Z) (l : line) : line :=
  if c =? CTRL 80 then l
  else if c =? CTRL 85 then mk_line (committed l) []
  else if ((c =? CTRL 72) || (c =? 0x7f))%bool then mk_line (committed l) (removelast (editing l))
  else if (truthy c && (Z.of_nat (length (committed l ++ editing l)) <? INPUT_BUF_SIZE))%bool then
    let c := if c =? 13 then 10 else c in
    let ed := editing l ++ [c] in
    if ((c =? 10) || (c =? CTRL 68) || (Z.of_nat (length (committed l ++ ed)) =? INPUT_BUF_SIZE))%bool
    then mk_line (committed l ++ ed) [] else mk_line (committed l) ed
  else l.

(** The bytes of the circular buffer between two indices. *)
Definition cons_range (c : console) (from to : Z) : list Z :=
  (λ k, cons_at c (u32 (from + k))) <$> seqZ 0 (u32 (to - from)).

Definition line_of (c : console) : line :=
  mk_line (cons_range c (c_r c) (c_w c)) (cons_range c (c_w c) (c_e c)).

Definition cons_wf (c : console) : Prop :=
  length (c_buf c) = 128%nat ∧
  0 ≤ c_r c < 2 ^ 32 ∧ 0 ≤ c_w c < 2 ^ 32 ∧ 0 ≤ c_e c < 2 ^ 32 ∧
  u32 (c_w c - c_r c) + u32 (c_e c - c_w c) ≤ INPUT_BUF_SIZE ∧
  10 ∉ editing (line_of c).

Lemma length_range c from to : length (cons_range c from to) = Z.to_nat (u32 (to - from)).
Proof. unfold cons_range. by rewrite length_fmap, length_seqZ. Qed.

Lemma range_shrink c from to :
  0 ≤ from < 2 ^ 32 → 0 ≤ to < 2 ^ 32 → from ≠ to →
  cons_range c from (u32 (to - 1)) = removelast (cons_range c from to) ∧
  u32 (u32 (to - 1) - from) = u32 (to - from) - 1.
Proof.
  intros Hf Ht Hne. assert (u32 (u32 (to - 1) - from) = u32 (to - from) - 1) as E by (unfold u32; zarith).
  split; [|done]. unfold cons_range. rewrite E.
  assert (0 < u32 (to - from)) by (unfold u32; zarith).
  replace (u32 (to - from)) with (u32 (to - from) - 1 + 1) at 2 by lia.
  rewrite seqZ_app, fmap_app by lia. rewrite Z.add_0_l, (seqZ_cons _ 1), (seqZ_nil _ (Z.pred 1)) by lia.
  cbn [fmap list_fmap]. by rewrite removelast_last.
Qed.

(** Storing at [e] does not touch what lies between [r] and [e], as long as the
    buffer has room. *)
Lemma range_grow c from ch :
  length (c_buf c) = 128%nat → 0 ≤ from < 2 ^ 32 → 0 ≤ c_e c < 2 ^ 32 → u32 (c_e c - from) < INPUT_BUF_SIZE →
  0 ≤ ch < 256 →
  let c' := set_c_e (u32 (c_e c + 1)) (set_c_buf (<[Z.to_nat (c_e c mod INPUT_BUF_SIZE) := u8 ch]> (c_buf c)) c) in
  cons_range c' from (c_e c') = cons_range c from (c_e c) ++ [ch] ∧
  u32 (c_e c' - from) = u32 (c_e c - from) + 1.
Proof.
  intros Hl Hf He Hroom Hch c'. unfold INPUT_BUF_SIZE in *.
  assert (u32 (c_e c' - from) = u32 (c_e c - from) + 1) as E by (simpl; unfold u32 in *; zarith).
  assert (0 ≤ u32 (c_e c - from)) by apply u32_range.
  split; [|done]. unfold cons_range. rewrite E, seqZ_app, fmap_app by lia. f_equal.
  - apply list_fmap_ext. intros k x Hx. apply lookup_seqZ in Hx as [-> Hk]. unfold cons_at. simpl.
    rewrite list_lookup_insert_ne; [done|]. unfold INPUT_BUF_SIZE, u32 in *. zarith.
  - rewrite Z.add_0_l, seqZ_cons, seqZ_nil by lia. cbn [fmap list_fmap]. f_equal. unfold cons_at. simpl.
    assert (u32 (from + u32 (c_e c - from)) = c_e c) as -> by (unfold u32 in *; zarith).
    rewrite list_lookup_insert_eq by (unfold INPUT_BUF_SIZE; zarith). simpl. by apply u8_small.
Qed.

(** The part before [e] is untouched by the store. *)
Lemma range_before c to ch :
  length (c_buf c) = 128%nat → 0 ≤ c_r c < 2 ^ 32 → 0 ≤ to < 2 ^ 32 → 0 ≤ c_e c < 2 ^ 32 →
  u32 (to - c_r c) + u32 (c_e c - to) < INPUT_BUF_SIZE →
  cons_range (set_c_e (u32 (c_e c + 1)) (set_c_buf (<[Z.to_nat (c_e c mod INPUT_BUF_SIZE) := u8 ch]> (c_buf c)) c))
    (c_r c) to = cons_range c (c_r c) to.
Proof.
  intros Hl Hr Ht He Hroom. unfold cons_range. apply list_fmap_ext. intros k x Hx.
  apply lookup_seqZ in Hx as [-> Hk]. unfold cons_at. simpl. rewrite list_lookup_insert_ne; [done|].
  unfold INPUT_BUF_SIZE, u32 in *. zarith.
Qed.

Lemma range_split c a b d :
  0 ≤ a < 2 ^ 32 → 0 ≤ b < 2 ^ 32 → 0 ≤ d < 2 ^ 32 → u32 (b - a) + u32 (d - b) < 2 ^ 32 →
  cons_range c a d = cons_range c a b ++ cons_range c b d ∧ u32 (d - a) = u32 (b - a) + u32 (d - b).
Proof.
  intros Ha Hb Hd Hsum.
  assert (u32 (d - a) = u32 (b - a) + u32 (d - b)) as E by (unfold u32 in *; zarith).
  pose proof (u32_range (b - a)). pose proof (u32_range (d - b)).
  split; [|done]. unfold cons_range. rewrite E, seqZ_app, fmap_app by lia. f_equal.
  rewrite Z.add_0_l, <- (Z.add_0_r (u32 (b - a))), <- fmap_add_seqZ, <- list_fmap_compose.
  apply list_fmap_ext. intros k x Hx. apply lookup_seqZ in Hx as [-> Hk]. simpl. f_equal. unfold u32 in *. zarith.
Qed.

(** The console after [consoleintr] of an ordinary character or an editing key:
    the functional content of the handler. *)
Definition cons_erase (c : console) : console :=
  if c_e c =? c_w c then c else set_c_e (u32 (c_e c - 1)) c.

Definition cons_type (ch : Z) (c : console) : console :=
  if (truthy ch && (u32 (c_e c - c_r c) <? INPUT_BUF_SIZE))%bool then
    let ch := if ch =? 13 then 10 else ch in
    let c := set_c_e (u32 (c_e c + 1))
      (set_c_buf (<[Z.to_nat (c_e c mod INPUT_BUF_SIZE) := u8 ch]> (c_buf c)) c) in
    if ((ch =? 10) || (ch =? CTRL 68) || (u32 (c_e c - c_r c) =? INPUT_BUF_SIZE))%bool
    then set_c_w (c_e c) c else c
  else c.

Lemma cons_erase_ok c :
  cons_wf c → cons_wf (cons_erase c) ∧
  line_of (cons_erase c) = mk_line (committed (line_of c)) (removelast (editing (line_of c))).
Proof.
  intros Hwf. pose proof Hwf as (Hl & Hr & Hw & He & Hsum & Hnl). unfold cons_erase, INPUT_BUF_SIZE in *.
  destruct (Z.eqb_spec (c_e c) (c_w c)) as [E|E].
  - split; [done|]. unfold line_of at 1. simpl. f_equal. rewrite E. unfold cons_range. by rewrite Z.sub_diag.
  - destruct (range_shrink c (c_w c) (c_e c) Hw He ltac:(congruence)) as [H1 H2].
    assert (line_of (set_c_e (u32 (c_e c - 1)) c) =
      mk_line (committed (line_of c)) (removelast (editing (line_of c)))) as Hline.
    { unfold line_of. simpl. f_equal. exact H1. }
    split; [|done]. pose proof (u32_range (c_e c - 1)).
    split_and!; simpl; try lia; [unfold INPUT_BUF_SIZE; rewrite H2; lia|].
    change (10 ∉ editing (line_of (set_c_e (u32 (c_e c - 1)) c))). rewrite Hline. simpl. intros Hin. apply Hnl.
    simpl. destruct (cons_range c (c_w c) (c_e c)) as [|x l] eqn:El using rev_ind; [by apply elem_of_nil in Hin|].
    rewrite removelast_last in Hin. set_solver.
Qed.

Lemma line_len c :
  cons_wf c → Z.of_nat (length (committed (line_of c) ++ editing (line_of c))) = u32 (c_e c - c_r c).
Proof.
  intros (Hl & Hr & Hw & He & Hsum & _). unfold INPUT_BUF_SIZE in *. rewrite length_app. simpl.
  rewrite !length_range. pose proof (u32_range (c_w c - c_r c)). pose proof (u32_range (c_e c - c_w c)).
  destruct (range_split c (c_r c) (c_w c) (c_e c) Hr Hw He ltac:(lia)) as [_ E]. lia.
Qed.

Lemma cons_type_ok ch c :
  cons_wf c → 0 ≤ ch < 256 → ch ≠ CTRL 80 → ch ≠ CTRL 85 → ch ≠ CTRL 72 → ch ≠ 0x7f →
  cons_wf (cons_type ch c) ∧ line_of (cons_type ch c) = line_step ch (line_of c).
Proof.
  intros Hwf Hch N1 N2 N3 N4. pose proof (line_len c Hwf) as Hlen.
  pose proof Hwf as (Hl & Hr & Hw & He & Hsum & Hnl). unfold cons_type, line_step.
  rewrite (proj2 (Z.eqb_neq ch _) N1), (proj2 (Z.eqb_neq ch _) N2), (proj2 (Z.eqb_neq ch _) N3),
    (proj2 (Z.eqb_neq ch _) N4). change (false || false)%bool with false. cbn iota. rewrite Hlen.
  destruct (truthy ch && (u32 (c_e c - c_r c) <? INPUT_BUF_SIZE))%bool eqn:Hroom; [|done].
  apply andb_true_iff in Hroom as [_ Hroom]. apply Z.ltb_lt in Hroom.
  cbv zeta. set (x := if ch =? 13 then 10 else ch). assert (0 ≤ x < 256) as Hx by (unfold x; case_test; lia).
  pose proof (u32_range (c_w c - c_r c)). pose proof (u32_range (c_e c - c_w c)).
  pose proof (u32_range (c_e c + 1)) as Hre.
  assert (u32 (c_w c - c_r c) + u32 (c_e c - c_w c) < 2 ^ 32) as Hs32 by (unfold INPUT_BUF_SIZE in *; lia).
  destruct (range_split c (c_r c) (c_w c) (c_e c) Hr Hw He Hs32) as [Hsplit Hsplit'].
  destruct (range_grow c (c_w c) x Hl Hw He ltac:(lia) Hx) as [Hg Hg'].
  destruct (range_grow c (c_r c) x Hl Hr He ltac:(lia) Hx) as [Hgr Hgr'].
  pose proof (range_before c (c_w c) x Hl Hr Hw He ltac:(lia)) as Hb.
  set (c' := set_c_e _ _) in *. assert (c_r c' = c_r c ∧ c_w c' = c_w c) as [Er Ew] by done.
  assert (Z.of_nat (length (committed (line_of c) ++ editing (line_of c) ++ [x])) = u32 (c_e c' - c_r c)) as Hlen'.
  { rewrite app_assoc, length_app. simpl length at 2. lia. }
  rewrite Hlen', Er. destruct (_ || _)%bool eqn:Hcommit.
  - assert (line_of (set_c_w (c_e c') c') =
      mk_line (committed (line_of c) ++ editing (line_of c) ++ [x]) []) as Hline.
    { unfold line_of at 1. simpl c_w. simpl c_r. simpl c_e. f_equal.
      - change (cons_range c' (c_r c) (c_e c') = cons_range c (c_r c) (c_w c) ++ cons_range c (c_w c) (c_e c) ++ [x]).
        by rewrite Hgr, Hsplit, <- app_assoc.
      - unfold cons_range. by rewrite Z.sub_diag. }
    split; [|exact Hline]. unfold INPUT_BUF_SIZE in *.
    split_and!; try done; try (simpl; lia); try (simpl; by rewrite length_insert).
    + change (u32 (c_e c' - c_r c) + u32 (c_e c' - c_e c') ≤ 128). rewrite Z.sub_diag. change (u32 0) with 0. lia.
    + rewrite Hline. apply not_elem_of_nil.
  - assert (line_of c' = mk_line (committed (line_of c)) (editing (line_of c) ++ [x])) as Hline.
    { unfold line_of at 1. f_equal; [exact Hb|exact Hg]. }
    apply orb_false_iff in Hcommit as [Hcommit _]. apply orb_false_iff in Hcommit as [Hn10 _].
    apply Z.eqb_neq in Hn10.
    split; [|exact Hline]. unfold INPUT_BUF_SIZE in *.
    split_and!; try done; try (simpl; lia); try (simpl; by rewrite length_insert).
    + change (u32 (c_w c - c_r c) + u32 (c_e c' - c_w c) ≤ 128). lia.
    + rewrite Hline. simpl. set_solver.
Qed.

Lemma procdump_prints : prints (λ s, pr_free s ∧ table_ok s) procdump.
Proof.
  assert (out_free (λ s, pr_free s ∧ table_ok s)) as Hok by (by intros s o).
  assert (∀ fmt ap, fmt_ok (cstr fmt) ap = true → prints (λ s, pr_free s ∧ table_ok s) (printf fmt ap)) as Hpf.
  { intros fmt ap Hf s [Hs _]. by apply prints_printf. }
  apply prints_bind; [done|by apply Hpf|]. apply prints_each; [done|]. intros i Hi s [Hs Ht].
  destruct (lookup_lt_is_Some_2 (k_procs s) i) as [p Hp].
  { rewrite Ht. apply elem_of_seq in Hi. lia. }
  erewrite bind_step by (by apply getp_some). case_bool_decide; [by apply (prints_ret (λ _, True))|].
  apply (prints_bind (λ s, pr_free s ∧ table_ok s)); [done|by apply Hpf|by apply Hpf|done].
Qed.

Lemma last_edited c :
  cons_wf c → c_e c ≠ c_w c → cons_at c (u32 (c_e c - 1)) ∈ editing (line_of c).
Proof.
  intros (_ & _ & Hw & He & _) Hne. apply list_elem_of_fmap. exists (u32 (c_e c - c_w c) - 1).
  split; [f_equal; unfold u32; zarith|]. apply elem_of_seqZ. unfold u32. zarith.
Qed.

Lemma length_removelast (l : list Z) : l ≠ [] → (length (removelast l) < length l)%nat.
Proof.
  intros Hl. rewrite (app_removelast_last 0 Hl) at 2. rewrite length_app. simpl. lia.
Qed.

Lemma kill_line_ok fuel s :
  cons_wf (k_cons s) → (length (editing (line_of (k_cons s))) < fuel)%nat →
  ∃ l c', kill_line fuel s = Ret tt (set_k_out (k_out s ++ l) (set_k_cons c' s)) ∧
    cons_wf c' ∧ line_of c' = mk_line (committed (line_of (k_cons s))) [].
Proof.
  revert s. induction fuel as [|fuel IH]; intros s Hwf Hf; [lia|].
  destruct (cons_erase_ok _ Hwf) as [Hwf' Hline]. cbn [kill_line]. unfold cons_erase in *.
  unfold bind at 1, gets. cbn [rbind]. destruct (Z.eqb_spec (c_e (k_cons s)) (c_w (k_cons s))) as [E|E].
  { exists [], (k_cons s). split_and!; [unfold ret; simpl; rewrite app_nil_r; by destruct s|done|].
    unfold line_of. f_equal. rewrite E. unfold cons_range. by rewrite Z.sub_diag. }
  pose proof (last_edited _ Hwf E) as Hlast.
  assert (cons_at (k_cons s) (u32 (c_e (k_cons s) - 1)) ≠ 10) as Hn10.
  { intros E10. rewrite E10 in Hlast. by apply Hwf. }
  rewrite (proj2 (Z.eqb_neq _ 10) Hn10). cbn [negb andb].
  set (c1 := set_c_e (u32 (c_e (k_cons s) - 1)) (k_cons s)) in *.
  destruct (prints_consputc (λ _, True) BACKSPACE ltac:(done) (set_k_cons c1 s) I) as [l1 Hl1].
  unfold bind at 1, modc at 1, modify at 1. cbn [rbind]. erewrite bind_step by exact Hl1.
  destruct (IH (set_k_out (k_out (set_k_cons c1 s) ++ l1) (set_k_cons c1 s))) as (l2 & c2 & Hk & Hwf2 & Hl2).
  { exact Hwf'. }
  { change (k_cons _) with c1. rewrite Hline. cbn [editing].
    assert (editing (line_of (k_cons s)) ≠ []) as Hed by (intros E0; rewrite E0 in Hlast; by apply elem_of_nil in Hlast).
    pose proof (length_removelast _ Hed). lia. }
  exists (l1 ++ l2), c2. split_and!; [|done|].
  - rewrite Hk. simpl. rewrite <- app_assoc. keq.
  - rewrite Hl2. simpl k_cons. by rewrite Hline.
Qed.

(** The rest of the state is unchanged but for the output and, on a commit, the
    readers that were woken. *)
Lemma cons_type_code ch s :
  table_ok s → no_proc_locks s →
  ∃ l ps,
    (cn <- gets k_cons;;
     when (truthy ch && (u32 (c_e cn - c_r cn) <? INPUT_BUF_SIZE))%bool
       (let c := if ch =? 13 then 10 else ch in
        consputc c;;
        modc (λ cn, set_c_e (u32 (c_e cn + 1))
                      (set_c_buf (<[Z.to_nat (c_e cn mod INPUT_BUF_SIZE) := u8 c]> (c_buf cn)) cn));;
        cn <- gets k_cons;;
        when ((c =? 10) || (c =? CTRL 68) || (u32 (c_e cn - c_r cn) =? INPUT_BUF_SIZE))%bool
          (modc (set_c_w (c_e cn));; wakeup Ch_cons_r))) s =
    Ret tt (set_k_procs ps (set_k_out (k_out s ++ l) (set_k_cons (cons_type ch (k_cons s)) s))).
Proof.
  intros Ht Hl. unfold cons_type. unfold bind at 1, gets at 1. cbn [rbind].
  destruct (truthy ch && _)%bool; unfold when.
  2: { exists [], (k_procs s). rewrite app_nil_r. unfold ret. by destruct s. }
  cbv zeta. set (x := if ch =? 13 then 10 else ch).
  destruct (prints_consputc (λ _, True) x ltac:(done) s I) as [l Hl1]. erewrite bind_step by exact Hl1.
  unfold bind at 1, modc at 1, modify at 1. cbn [rbind]. unfold bind at 1, gets at 1.
  cbn [rbind k_cons set_k_cons set_k_out]. set (c' := set_c_e _ _).
  destruct (_ || _ || (_ =? INPUT_BUF_SIZE))%bool.
  - unfold bind, modc, modify. cbn [rbind]. rewrite wakeup_ok by (try done; by left).
    eexists l, _. keq.
  - exists l, (k_procs s). unfold ret. keq.
Qed.

(** C39: The console's input side is a line editor: for every character the
    interrupt handler returns with its locks released, the circular buffer stays
    consistent (at most 128 bytes, no newline among the bytes being edited), and
    the bytes committed to readers and the bytes being edited change as
    [line_step] says: characters are appended, backspace and ^U erase only what
    has not been committed, newline, ^D or a full buffer commit the line. *)
Theorem consoleintr_correct ch s :
  0 ≤ ch < 256 → cons_wf (k_cons s) → table_ok s → no_proc_locks s → L_cons ∉ k_held s → L_pr ∉ k_held s →
  ∃ s', consoleintr ch s = Ret tt s' ∧ k_held s' = k_held s ∧ cons_wf (k_cons s') ∧
    line_of (k_cons s') = line_step ch (line_of (k_cons s)).
Proof.
  intros Hch Hwf Ht Hl Hcl Hpr. unfold consoleintr. erewrite bind_step by (by apply acquire_free).
  set (s0 := set_k_held (L_cons :: k_held s) s).
  assert (no_proc_locks s0) as Hl0 by (intros i Hi; simpl; specialize (Hl i Hi); set_solver).
  assert (pr_free s0) as Hpr0 by (unfold pr_free; simpl; set_solver).
  (* it is enough to run the switch *)
  match goal with |- ∃ s', bind ?m _ _ = _ ∧ _ =>
    assert (∃ s1, m s0 = Ret tt s1 ∧ k_held s1 = k_held s0 ∧ cons_wf (k_cons s1) ∧
      line_of (k_cons s1) = line_step ch (line_of (k_cons s))) as (s1 & Hm & Hh1 & Hwf1 & Hline1)
  end.
  2: { exists (set_k_held (k_held s) s1). erewrite bind_step by exact Hm.
       by erewrite release_held by exact Hh1. }
  unfold line_step. destruct (Z.eqb_spec ch (CTRL 80)) as [E1|N1].
  { destruct (procdump_prints s0) as [l Hd]; [done|]. eexists. by split. }
  destruct (Z.eqb_spec ch (CTRL 85)) as [E2|N2].
  { destruct (kill_line_ok 129 s0) as (l & c' & Hk & Hwf' & Hline); [done| |by eexists].
    simpl. rewrite length_range. destruct Hwf as (_ & _ & _ & _ & Hsum & _). unfold INPUT_BUF_SIZE in Hsum.
    pose proof (u32_range (c_w (k_cons s) - c_r (k_cons s))). lia. }
  destruct (Z.eqb_spec ch (CTRL 72)) as [E3|N3]; [|destruct (Z.eqb_spec ch 127) as [E4|N4]]; cbn [orb].
  3: { destruct (cons_type_code ch s0) as (l & ps & Hc); [done..|]. eexists. split; [exact Hc|].
       split; [done|]. destruct (cons_type_ok ch (k_cons s)) as [H1 H2]; try done. split; [done|].
       simpl k_cons. rewrite H2. unfold line_step.
       by rewrite (proj2 (Z.eqb_neq ch _) N1), (proj2 (Z.eqb_neq ch _) N2), (proj2 (Z.eqb_neq ch _) N3),
         (proj2 (Z.eqb_neq ch _) N4). }
  all: destruct (cons_erase_ok _ Hwf) as [Hwf' Hline]; unfold cons_erase in *;
    unfold bind at 1, gets at 1; cbn [rbind]; change (k_cons s0) with (k_cons s);
    destruct (c_e (k_cons s) =? c_w (k_cons s)); cbn [negb when];
    [by exists s0|];
    destruct (prints_consputc (λ _, True) BACKSPACE ltac:(done)
      (set_k_cons (set_c_e (u32 (c_e (k_cons s) - 1)) (k_cons s)) s0) I) as [l Hl1];
    eexists; (split; [unfold bind at 1, modc, modify; cbn [rbind]; exact Hl1|by split]).
Qed.

End console.

(** ** The theorem at a concrete state *)

Lemma bss_cons_wf : cons_wf (k_cons bss).
Proof. split_and!; [done..|]. apply not_elem_of_nil. Qed.

(** The return key on an empty console commits a newline. *)
Lemma consoleintr_correct_witness :
  ∃ s', consoleintr 13 bss = Ret tt s' ∧ k_held s' = [] ∧ cons_wf (k_cons s') ∧
    line_of (k_cons s') = mk_line [10] [].
Proof.
  apply (consoleintr_correct 13 bss); [lia|apply bss_cons_wf|reflexivity|intros i _; apply not_elem_of_nil
    |apply not_elem_of_nil|apply not_elem_of_nil].
Defined.
