(* ===== verification/Sched.v ===== *)
(** * The schedulers

    [kernel/mlfq.c] and [scheduler] of [kernel/proc.c] in its three variants,
    selected by [SCHEDULER] at build time.  The body of each [while (1)] is one
    round; [scheduler n] runs [n] of them.  A process that gets the CPU is a
    [Swtch] with [k_cur] set; [trace] runs a scheduler against the behaviour of
    the processes between a switch and the switch back. *)

From Stdlib Require Import ZArith Lia.
From S2P Require Import Prelude Machine Kernel Boot CString Printf Kalloc Vm ProcTable.

Section sched.
Context `{B : Build}.

(** ** mlfq.c *)

Definition push (i : nat) (qnum : Z) : M unit :=
  ticks <- gets k_ticks;;
  modp i (λ p, set_p_mlfq_data (set_mq_curr_pri qnum (p_mlfq_data p)) p);;
  modp i (λ p, set_p_mlfq_data (set_mq_in_queue 1 (p_mlfq_data p)) p);;
  modp i (λ p, set_p_mlfq_data (set_mq_intime ticks (p_mlfq_data p)) p);;
  modp i (λ p, set_p_mlfq_data (set_mq_wtime 0 (p_mlfq_data p)) p);;
  modp i (λ p, set_p_mlfq_data (set_mq_num_ticks 0 (p_mlfq_data p)) p).

Definition remove (i : nat) (qnum : Z) : M unit :=
  modp i (λ p, set_p_mlfq_data (set_mq_in_queue 0 (p_mlfq_data p)) p);;
  modp i (λ p, set_p_mlfq_data (set_mq_wtime 0 (p_mlfq_data p)) p);;
  modp i (λ p, set_p_mlfq_data (set_mq_num_ticks 0 (p_mlfq_data p)) p);;
  modp i (λ p, set_p_mlfq_data (set_mq_intime 0 (p_mlfq_data p)) p).

(** The condition of [topmost]: queued at [qnum] and ready to run. *)
Definition eligible (qnum : Z) (p : proc) : bool :=
  (truthy (mq_in_queue (p_mlfq_data p)) && (mq_curr_pri (p_mlfq_data p) =? qnum) &&
   bool_decide (p_state p = RUNNABLE))%bool.

Fixpoint topmost_loop (qnum : Z) (i : nat) (ps : list proc) (first : option (nat * proc)) :
    option (nat * proc) :=
  match ps with
  | [] => first
  | p :: ps' =>
      topmost_loop qnum (S i) ps'
        (if eligible qnum p then
           match first with
           | None => Some (i, p)
           | Some (j, f) =>
               if mq_intime (p_mlfq_data p) <? mq_intime (p_mlfq_data f) then Some (i, p)
               else Some (j, f)
           end
         else first)
  end.

Definition topmost (qnum : Z) : M (option nat) :=
  gets (λ s, fst <$> topmost_loop qnum 0 (k_procs s) None).

Definition print_mlfq : M unit :=
  ct <- gets (λ s, length (filter (λ p, p_state p ≠ UNUSED ∧ ¬ (p_pid p < 4) ∧
                                        mq_in_queue (p_mlfq_data p) ≠ 0) (k_procs s)));;
  when (negb (Nat.eqb ct 0))
    (ticks <- gets k_ticks;;
     printf "%d " [A_int ticks];;
     for_each all_procs (λ i,
       p <- getp i;;
       if (bool_decide (p_state p = UNUSED) || (p_pid p <? 4))%bool then ret tt
       else
         when (truthy (mq_in_queue (p_mlfq_data p)))
           (printf "%d(%d,%d) "
              [A_int (p_pid p); A_int (mq_curr_pri (p_mlfq_data p));
               A_int (match p_state p with
                      | UNUSED => 0 | USED => 1 | SLEEPING => 2 | RUNNABLE => 3
                      | RUNNING => 4 | ZOMBIE => 5 end)]));;
     printf (String (Ascii.ascii_of_nat 10) EmptyString) []).

(** The ageing test, and the promotion that follows it: in [scheduler],
    [usertrap] and [kerneltrap]. *)
Definition aged (ticks : Z) (p : proc) : bool :=
  ((AGING_TIME <=? u32 (ticks - mq_intime (p_mlfq_data p))) &&
   truthy (mq_in_queue (p_mlfq_data p)) && bool_decide (p_state p = RUNNABLE))%bool.

Definition boost (i : nat) : M unit :=
  p <- getp i;;
  remove i (mq_curr_pri (p_mlfq_data p));;
  p' <- getp i;;
  let newpri := Z.max (mq_curr_pri (p_mlfq_data p') - 1) 0 in
  push i newpri.

(** ** scheduler *)

(** Hand the CPU to process [i], whose lock is held, until it switches back. *)
Definition run_proc (i : nat) : M unit :=
  modp i (set_p_state RUNNING);;
  modify (set_k_cur (Some i));;
  swtch.

(** The body of the loop over the table. *)
Definition rr_body (i : nat) : M unit :=
  acquire (L_proc i);;
  p <- getp i;;
  when (bool_decide (p_state p = RUNNABLE)) (run_proc i;; modify (set_k_cur None));;
  release (L_proc i).

Definition round_RR : M unit := intr_on;; for_each all_procs rr_body.

(** The search of FCFS for the oldest runnable process; it keeps the lock of
    the best one so far. *)
Fixpoint fcfs_search (l : list nat) (first : option nat) : M (option nat) :=
  match l with
  | [] => ret first
  | i :: l' =>
      acquire (L_proc i);;
      p <- getp i;;
      better <- (if bool_decide (p_state p = RUNNABLE) then
                   match first with
                   | None => ret true
                   | Some j => f <- getp j;; ret (p_ctime p <? p_ctime f)
                   end
                 else ret false);;
      if better : bool then
        match first with Some j => release (L_proc j) | None => ret tt end;;
        fcfs_search l' (Some i)
      else release (L_proc i);; fcfs_search l' first
  end.

Definition round_FCFS : M unit :=
  intr_on;;
  first <- fcfs_search all_procs None;;
  match first with
  | None => ret tt
  | Some i => intr_off;; run_proc i;; release (L_proc i);; modify (set_k_cur None)
  end.

(** The pass over the table at the start of an MLFQ round. *)
Definition mlfq_pass : M unit :=
  for_each all_procs (λ i,
    acquire (L_proc i);;
    p <- getp i;;
    ticks <- gets k_ticks;;
    if aged ticks p then boost i;; release (L_proc i)
    else
      when (bool_decide (p_state p = RUNNABLE) && negb (truthy (mq_in_queue (p_mlfq_data p))))%bool
        (push i (mq_curr_pri (p_mlfq_data p)));;
      when (bool_decide (p_state p = ZOMBIE) || bool_decide (p_state p = SLEEPING))%bool
        (remove i (mq_curr_pri (p_mlfq_data p)));;
      release (L_proc i)).

Definition mlfq_select : M (option nat) :=
  for_until (seqZ 0 MLFQ_NUM_QUEUES) topmost.

Definition mlfq_dispatch (i : nat) : M unit :=
  acquire (L_proc i);;
  modp i (set_p_state RUNNING);;
  modify (set_k_cur (Some i));;
  intr_off;;
  swtch;;
  release (L_proc i);;
  modify (set_k_cur None).

Definition round_MLFQ : M unit :=
  intr_on;;
  mlfq_pass;;
  next <- mlfq_select;;
  modify (set_k_cur None);;
  match next with
  | None => ret tt
  | Some i => mlfq_dispatch i
  end.

Definition sched_round : M unit :=
  match policy with RR => round_RR | FCFS => round_FCFS | MLFQ => round_MLFQ end.

Fixpoint rounds (n : nat) : M unit :=
  match n with O => ret tt | S n' => sched_round;; rounds n' end.

Definition scheduler (n : nat) : M unit := modify (set_k_cur None);; rounds n.

(** ** The choice of the MLFQ scheduler *)

Abbreviation pri p := (mq_curr_pri (p_mlfq_data p)).
Abbreviation intime p := (mq_intime (p_mlfq_data p)).

Definition is_top (qnum : Z) (ps : list proc) (o : option (nat * proc)) : Prop :=
  match o with
  | None => ∀ k p, ps !! k = Some p → eligible qnum p = false
  | Some (j, f) =>
      ps !! j = Some f ∧ eligible qnum f = true ∧
      ∀ k p, ps !! k = Some p → eligible qnum p = true →
        intime f < intime p ∨ (intime f = intime p ∧ (j ≤ k)%nat)
  end.

Lemma is_top_none qnum ps p :
  eligible qnum p = false → ∀ o, is_top qnum ps o → is_top qnum (ps ++ [p]) o.
Proof.
  intros Hp [[j f]|].
  - intros (Hj & Hf & Hmin). split_and!; [by apply lookup_app_l_Some|done|]. intros k p' Hk Hel.
    apply lookup_app_Some in Hk as [Hk|[_ Hk]]; [by eapply Hmin|].
    apply list_lookup_singleton_Some in Hk as [_ <-]. congruence.
  - intros Hno k p' Hk. apply lookup_app_Some in Hk as [Hk|[_ Hk]]; [by eapply Hno|].
    by apply list_lookup_singleton_Some in Hk as [_ <-].
Qed.

Lemma topmost_loop_ok qnum ps pre first :
  is_top qnum pre first → is_top qnum (pre ++ ps) (topmost_loop qnum (length pre) ps first).
Proof.
  revert pre first. induction ps as [|p ps IH]; intros pre first Ht; [by rewrite app_nil_r|].
  cbn [topmost_loop]. replace (pre ++ p :: ps) with ((pre ++ [p]) ++ ps) by (by rewrite <- app_assoc).
  replace (S (length pre)) with (length (pre ++ [p])) by (rewrite length_app; simpl; lia).
  apply IH. destruct (eligible qnum p) eqn:He; [|by apply is_top_none].
  assert ((pre ++ [p]) !! length pre = Some p) as Hlast by (rewrite lookup_app_r, Nat.sub_diag by lia; done).
  assert (∀ k p', (pre ++ [p]) !! k = Some p' → pre !! k = Some p' ∨ (k = length pre ∧ p' = p)) as Hcase.
  { intros k p' Hk. apply lookup_app_Some in Hk as [Hk|[Hk1 Hk]]; [by left|]. right.
    apply list_lookup_singleton_Some in Hk as [? <-]. split; [lia|done]. }
  destruct first as [[j f]|].
  - destruct Ht as (Hj & Hf & Hmin). pose proof (lookup_lt_Some _ _ _ Hj). case_test.
    + split_and!; [done..|]. intros k p' Hk He'. destruct (Hcase k p' Hk) as [Hk'|[-> ->]]; [|by right].
      destruct (Hmin k p' Hk' He'); left; lia.
    + split_and!; [by apply lookup_app_l_Some|done|]. intros k p' Hk He'.
      destruct (Hcase k p' Hk) as [Hk'|[-> ->]]; [by eapply Hmin|]. lia.
  - split_and!; [done..|]. intros k p' Hk He'. destruct (Hcase k p' Hk) as [Hk'|[-> ->]]; [|by right].
    specialize (Ht k p' Hk'). congruence.
Qed.

Lemma topmost_ok qnum s :
  ∃ o, topmost qnum s = Ret (fst <$> o) s ∧ is_top qnum (k_procs s) o.
Proof.
  eexists. split; [done|]. apply (topmost_loop_ok qnum (k_procs s) [] None). by intros k p Hk.
Qed.

(** Ready to run and waiting in some queue. *)
Definition queued (p : proc) : Prop :=
  p_state p = RUNNABLE ∧ mq_in_queue (p_mlfq_data p) ≠ 0 ∧ 0 ≤ pri p < MLFQ_NUM_QUEUES.

Lemma eligible_iff qnum p :
  eligible qnum p = true ↔
  p_state p = RUNNABLE ∧ mq_in_queue (p_mlfq_data p) ≠ 0 ∧ pri p = qnum.
Proof.
  unfold eligible, truthy. rewrite !andb_true_iff, negb_true_iff, Z.eqb_neq, Z.eqb_eq, bool_decide_eq_true.
  tauto.
Qed.

Lemma mlfq_select_ok s :
  ∃ o, mlfq_select s = Ret o s ∧
    match o with
    | None => ∀ k p, k_procs s !! k = Some p → ¬ queued p
    | Some i => ∃ f, k_procs s !! i = Some f ∧ queued f ∧
        ∀ k p, k_procs s !! k = Some p → queued p →
          pri f < pri p ∨
          (pri f = pri p ∧ (intime f < intime p ∨ (intime f = intime p ∧ (i ≤ k)%nat)))
    end.
Proof.
  unfold mlfq_select, MLFQ_NUM_QUEUES.
  assert (∀ n q, 0 ≤ q → q + Z.of_nat n = 4 →
    (∀ k p, k_procs s !! k = Some p → queued p → q ≤ pri p) →
    ∃ o, for_until (seqZ q (Z.of_nat n)) topmost s = Ret o s ∧
    match o with
    | None => ∀ k p, k_procs s !! k = Some p → ¬ queued p
    | Some i => ∃ f, k_procs s !! i = Some f ∧ queued f ∧
        ∀ k p, k_procs s !! k = Some p → queued p →
          pri f < pri p ∨
          (pri f = pri p ∧ (intime f < intime p ∨ (intime f = intime p ∧ (i ≤ k)%nat)))
    end) as Hgen.
  { intros n. induction n as [|n IH]; intros q Hq0 Hq Hlow.
    - exists None. split; [done|]. intros k p Hk Hqd. specialize (Hlow k p Hk Hqd).
      destruct Hqd as (_ & _ & Hr). unfold MLFQ_NUM_QUEUES in Hr. lia.
    - rewrite seqZ_cons by lia. replace (Z.pred (Z.of_nat (S n))) with (Z.of_nat n) by lia.
      cbn [for_until]. destruct (topmost_ok q s) as (o & Ho & Ht).
      erewrite bind_step by exact Ho. destruct o as [[j f]|]; simpl.
      + exists (Some j). split; [done|]. destruct Ht as (Hj & Hf & Hmin).
        apply eligible_iff in Hf as (Hf1 & Hf2 & Hf3). exists f. split_and!; [done|..].
        { split_and!; [done..|lia|unfold MLFQ_NUM_QUEUES; lia]. }
        intros k p Hk Hqd. pose proof (Hlow k p Hk Hqd).
        destruct (decide (pri p = q)) as [Heq|]; [right|left; lia]. split; [lia|].
        apply (Hmin k p Hk). apply eligible_iff. by destruct Hqd as (? & ? & _).
      + apply IH; [lia..|]. intros k p Hk Hqd. pose proof (Hlow k p Hk Hqd).
        assert (pri p ≠ q); [|lia]. intros Heq. specialize (Ht k p Hk).
        destruct Hqd as (? & ? & _).
        assert (eligible q p = true) by (by apply eligible_iff). congruence. }
  apply (Hgen 4%nat 0); [lia..|]. by intros k p _ (_ & _ & [? _]).
Qed.

(** The MLFQ scheduler's choice is right: it selects a process exactly when
    some runnable process is queued; the one it selects is in the highest
    occupied queue, entered that queue first, and has the lowest index among
    those that entered at the same tick. *)
Theorem mlfq_select_correct s :
  ∃ o, mlfq_select s = Ret o s ∧
    match o with
    | None => ∀ k p, k_procs s !! k = Some p → ¬ queued p
    | Some i => ∃ f, k_procs s !! i = Some f ∧ queued f ∧
        ∀ k p, k_procs s !! k = Some p → queued p →
          pri f < pri p ∨
          (pri f = pri p ∧ (intime f < intime p ∨ (intime f = intime p ∧ (i ≤ k)%nat)))
    end.
Proof. apply mlfq_select_ok. Qed.

(** ** Ageing *)

Definition enqueue (qnum ticks : Z) (p : proc) : proc := set_p_mlfq_data (mk_mlfq qnum 0 0 1 ticks) p.
Definition dequeue (p : proc) : proc := set_p_mlfq_data (mk_mlfq (pri p) 0 0 0 0) p.
Definition boost_one (ticks : Z) (p : proc) : proc := enqueue (Z.max (pri p - 1) 0) ticks p.

Lemma push_ok i q s :
  push i q s = Ret tt (set_k_procs (alter (enqueue q (k_ticks s)) i (k_procs s)) s).
Proof.
  unfold push. kstep. simpl. rewrite !list_alter_twice. keq.
Qed.

Lemma remove_ok i q s :
  remove i q s = Ret tt (set_k_procs (alter dequeue i (k_procs s)) s).
Proof. unfold remove. kstep. simpl. rewrite !list_alter_twice. keq. Qed.

Lemma boost_ok i s p :
  k_procs s !! i = Some p →
  boost i s = Ret tt (set_k_procs (alter (boost_one (k_ticks s)) i (k_procs s)) s).
Proof.
  intros Hp. unfold boost. erewrite bind_step by (by apply getp_some).
  erewrite bind_step by apply remove_ok. erewrite bind_step.
  2: { apply getp_some. simpl. by rewrite list_lookup_alter_eq, Hp. }
  rewrite push_ok. simpl. rewrite list_alter_twice.
  erewrite (alter_at _ (boost_one (k_ticks s))); [keq|done|done].
Qed.

#[local] Opaque push remove boost.

(** What the pass does to a process. *)
Definition pass_one (ticks : Z) (p : proc) : proc :=
  if aged ticks p then boost_one ticks p
  else if (bool_decide (p_state p = RUNNABLE) && negb (truthy (mq_in_queue (p_mlfq_data p))))%bool
  then enqueue (pri p) ticks p
  else if (bool_decide (p_state p = ZOMBIE) || bool_decide (p_state p = SLEEPING))%bool
  then dequeue p else p.

Lemma mlfq_pass_ok s :
  table_ok s → no_proc_locks s →
  mlfq_pass s = Ret tt (set_k_procs (pass_one (k_ticks s) <$> k_procs s) s).
Proof.
  intros Ht Hl. unfold mlfq_pass.
  erewrite (for_procs s _ (const (pass_one (k_ticks s)))); [by rewrite imap_const|done|].
  intros i ps Hi Hps. destruct (lookup_lt_is_Some_2 ps i ltac:(lia)) as [p Hp].
  erewrite bind_step by (apply acquire_free; by apply Hl). kstep. simpl. rewrite Hp. simpl.
  unfold const. rewrite (alter_at (pass_one (k_ticks s)) (λ _, pass_one (k_ticks s) p) i ps p) by done.
  unfold pass_one. destruct (aged (k_ticks s) p).
  - rewrite (boost_ok i _ p) by done. simpl. erewrite release_held by done.
    erewrite (alter_at _ (λ _, _)); [keq|done|done].
  - destruct (bool_decide (p_state p = RUNNABLE)) eqn:E1; simpl.
    + apply bool_decide_eq_true in E1. rewrite E1. rewrite !bool_decide_false by done. simpl.
      destruct (truthy _); simpl; [|rewrite push_ok; simpl]; erewrite release_held by done.
      * rewrite (list_alter_id _ i ps); [keq|]. intros x Hx. by simplify_eq.
      * erewrite (alter_at _ (λ _, _)); [keq|done|done].
    + destruct (_ || _)%bool; simpl; [rewrite remove_ok; simpl|]; erewrite release_held by done.
      * erewrite (alter_at _ (λ _, _)); [keq|done|done].
      * rewrite (list_alter_id _ i ps); [keq|]. intros x Hx. by simplify_eq.
Qed.

(** A waiting process over [n] ticks from [t], one pass a tick, while it is not
    given the CPU. *)
Fixpoint wait_ticks (n : nat) (t : Z) (p : proc) : proc :=
  match n with
  | O => p
  | S n' => wait_ticks n' (t + 1) (pass_one t p)
  end.

Lemma pass_one_waiting t p :
  p_state p = RUNNABLE → mq_in_queue (p_mlfq_data p) ≠ 0 →
  pass_one t p = if AGING_TIME <=? u32 (t - intime p) then boost_one t p else p.
Proof.
  intros Hst Hq. unfold pass_one, aged, truthy. rewrite Hst, !bool_decide_true, !bool_decide_false by done.
  rewrite (proj2 (Z.eqb_neq _ 0)) by done. simpl. rewrite !andb_true_r. by case_test.
Qed.

Lemma wait_ticks_ready n t p :
  p_state p = RUNNABLE → mq_in_queue (p_mlfq_data p) ≠ 0 →
  p_state (wait_ticks n t p) = RUNNABLE ∧ mq_in_queue (p_mlfq_data (wait_ticks n t p)) ≠ 0.
Proof.
  revert t p. induction n as [|n IH]; intros t p Hst Hq; [done|].
  cbn [wait_ticks]. rewrite pass_one_waiting by done. case_test; apply IH; done.
Qed.


(** ** First come, first served *)

Definition lock_of (o : option nat) : list lock :=
  match o with Some i => [L_proc i] | None => [] end.

(** [o] is the oldest runnable process among the first [n]. *)
Definition oldest (ps : list proc) (n : nat) (o : option nat) : Prop :=
  match o with
  | None => ∀ k p, (k < n)%nat → ps !! k = Some p → p_state p ≠ RUNNABLE
  | Some j =>
      (j < n)%nat ∧ ∃ f, ps !! j = Some f ∧ p_state f = RUNNABLE ∧
      ∀ k p, (k < n)%nat → ps !! k = Some p → p_state p = RUNNABLE →
        p_ctime f < p_ctime p ∨ (p_ctime f = p_ctime p ∧ (j ≤ k)%nat)
  end.

Lemma oldest_skip ps i p o :
  ps !! i = Some p → p_state p ≠ RUNNABLE → oldest ps i o → oldest ps (S i) o.
Proof.
  intros Hp Hst. destruct o as [j|].
  - intros (Hj & f & Hf & Hfs & Hmin). split; [lia|]. exists f. split_and!; [done..|].
    intros k q Hk Hq Hqs. destruct (decide (k = i)) as [->|]; [by simplify_eq|]. by apply (Hmin k); [lia|..].
  - intros Hno k q Hk Hq. destruct (decide (k = i)) as [->|]; [by simplify_eq|]. apply (Hno k); [lia|done].
Qed.

Lemma fcfs_search_ok n i first s :
  (i + n = NPROC)%nat → table_ok s → oldest (k_procs s) i first →
  ∃ o, fcfs_search (seq i n) first (set_k_held (lock_of first) s) = Ret o (set_k_held (lock_of o) s) ∧
    oldest (k_procs s) NPROC o.
Proof.
  revert i first. induction n as [|n IH]; intros i first Hi Ht Hold.
  { exists first. split; [done|]. by replace NPROC with i by lia. }
  destruct (lookup_lt_is_Some_2 (k_procs s) i) as [p Hp]; [unfold table_ok in Ht; lia|].
  assert (L_proc i ∉ lock_of first) as Hfree.
  { destruct first as [j|]; simpl; [|apply not_elem_of_nil]. destruct Hold as [Hj _].
    intros Hin. assert (i = j) by set_solver. lia. }
  cbn [seq fcfs_search]. erewrite bind_step by (by apply acquire_free).
  erewrite bind_step by (by apply getp_some). case_bool_decide as Hst.
  - destruct first as [j|].
    + destruct Hold as (Hj & f & Hf & Hfs & Hmin). unfold bind at 1.
      erewrite bind_step by (by apply getp_some). unfold ret at 1. cbn [rbind].
      case_test.
      * erewrite bind_step.
        2: { unfold release. simpl. rewrite decide_True by set_solver.
             rewrite decide_False by (intros [= ->]; lia). by rewrite decide_True. }
        destruct (IH (S i) (Some i)) as (o & Ho & Hbest); [lia|done| |by exists o].
        split; [lia|]. exists p. split_and!; [done..|]. intros k q Hk Hq Hqs.
        destruct (decide (k = i)) as [->|]; [simplify_eq; by right|].
        destruct (Hmin k q ltac:(lia) Hq Hqs); left; lia.
      * erewrite bind_step by (by apply release_held).
        destruct (IH (S i) (Some j)) as (o & Ho & Hbest); [lia|done| |by exists o].
        split; [lia|]. exists f. split_and!; [done..|]. intros k q Hk Hq Hqs.
        destruct (decide (k = i)) as [->|]; [simplify_eq; lia|]. apply (Hmin k); [lia|done..].
    + unfold bind at 1, ret. cbn [rbind]. rewrite bind_ret_l.
      destruct (IH (S i) (Some i)) as (o & Ho & Hbest); [lia|done| |by exists o].
      split; [lia|]. exists p. split_and!; [done..|]. intros k q Hk Hq Hqs.
      destruct (decide (k = i)) as [->|]; [simplify_eq; by right|].
      by destruct (Hold k q ltac:(lia) Hq).
  - unfold bind at 1, ret. cbn [rbind]. erewrite bind_step by (by apply release_held).
    destruct (IH (S i) first) as (o & Ho & Hbest); [lia|done|by eapply oldest_skip|by exists o].
Qed.

(** A round of the FCFS scheduler gives the CPU to the runnable process
    created first (lowest index among equals), entering it with that process's
    lock held and no other, marked running and current; with no runnable process
    the round changes nothing.  When the process comes back, the round ends with
    no lock held and no current process. *)
Theorem fcfs_round_correct s :
  table_ok s → k_held s = [] →
  (round_FCFS s = Ret tt (set_k_sie true s) ∧
   ∀ k p, k_procs s !! k = Some p → p_state p ≠ RUNNABLE) ∨
  (∃ i s1 kont, round_FCFS s = Swtch s1 kont ∧ oldest (k_procs s) NPROC (Some i) ∧
     k_held s1 = [L_proc i] ∧ k_cur s1 = Some i ∧
     k_procs s1 = alter (set_p_state RUNNING) i (k_procs s) ∧
     ∀ s2, k_held s2 = [L_proc i] → kont s2 = Ret tt (set_k_cur None (set_k_held [] s2))).
Proof.
  intros Ht Hh. unfold round_FCFS, intr_on. kstep.
  assert (set_k_sie true s = set_k_held (lock_of None) (set_k_sie true s)) as Hs
    by (apply k_ext; simpl; auto).
  destruct (fcfs_search_ok NPROC 0 None (set_k_sie true s)) as (o & Ho & Hbest);
    [done|done|intros k p Hk; lia|].
  fold all_procs in Ho. rewrite <- Hs in Ho. rewrite Ho. simpl. destruct o as [i|].
  - right. eexists i, _, _. split; [done|]. split; [exact Hbest|]. split_and!; [done..|]. intros s2 Hh2.
    unfold rbind. erewrite release_held by done. done.
  - left. split; [by rewrite <- Hs|]. intros k p Hp. apply (Hbest k); [|done].
    apply lookup_lt_Some in Hp. by rewrite <- Ht.
Qed.

(** ** Round robin *)

(** Run a kernel thread to its end against [env], which says in which state it
    is resumed after each switch; the processes switched to, and the result. *)
Fixpoint trace {A} (env : kstate → kstate) (r : res A) : list (option nat) * option (A * kstate) :=
  match r with
  | Ret a s => ([], Some (a, s))
  | Swtch s k => let '(t, o) := trace env (k (env s)) in (k_cur s :: t, o)
  | _ => ([], None)
  end.

Lemma trace_bind {A C} env (r : res A) (f : A → M C) :
  trace env (rbind r f) =
  (let '(t, o) := trace env r in
   match o with
   | Some (a, s) => let '(t', o') := trace env (f a s) in (t ++ t', o')
   | None => (t, None)
   end).
Proof.
  induction r as [a s|msg|s k IH|]; simpl; try done.
  - by destruct (trace env (f a s)).
  - rewrite IH. destruct (trace env (k (env s))) as [t [[a s']|]]; [|done].
    by destruct (trace env (f a s')).
Qed.

(** The processes behave: between a switch to process [i] and the switch back,
    the locks are handed over and no runnable process stops being runnable,
    except [i] itself. *)
Definition env_ok (env : kstate → kstate) : Prop :=
  ∀ s i, k_held s = [L_proc i] → k_cur s = Some i → table_ok s →
    k_held (env s) = [L_proc i] ∧ table_ok (env s) ∧
    ∀ j, j ≠ i → p_state <$> k_procs s !! j = Some RUNNABLE →
      p_state <$> k_procs (env s) !! j = Some RUNNABLE.

Lemma rr_body_trace env i s :
  env_ok env → k_held s = [] → table_ok s → (i < NPROC)%nat →
  ∃ t s', trace env (rr_body i s) = (t, Some (tt, s')) ∧ k_held s' = [] ∧ table_ok s' ∧
    (t = [Some i] ∨ (t = [] ∧ p_state <$> k_procs s !! i ≠ Some RUNNABLE)) ∧
    (∀ j, j ≠ i → p_state <$> k_procs s !! j = Some RUNNABLE →
       p_state <$> k_procs s' !! j = Some RUNNABLE).
Proof.
  intros He Hh Ht Hi. destruct (lookup_lt_is_Some_2 (k_procs s) i) as [p Hp]; [by rewrite Ht|].
  unfold rr_body. erewrite bind_step by (apply acquire_free; rewrite Hh; apply not_elem_of_nil).
  rewrite Hh. erewrite bind_step by (by apply getp_some). case_bool_decide as Hst; unfold when.
  - set (s1 := set_k_cur (Some i) (set_k_procs (alter (set_p_state RUNNING) i (k_procs s))
      (set_k_held [L_proc i] s))).
    destruct (He s1 i) as (Hh1 & Ht1 & Hr1); [done..|by unfold table_ok; simpl; rewrite length_alter|].
    exists [Some i], (set_k_held [] (set_k_cur None (env s1))). split_and!; [|done|done|by left|].
    + unfold run_proc. kstep. simpl. fold s1. by erewrite release_held by done.
    + intros j Hj Hrun. simpl. apply Hr1; [done|]. simpl. by rewrite list_lookup_alter_ne.
  - exists [], s. rewrite bind_ret_l. split_and!; [|done..| |done].
    + unfold trace. erewrite release_held by done. do 3 f_equal. apply k_ext; simpl; auto.
    + right. split; [done|]. rewrite Hp. simpl. congruence.
Qed.

Lemma rr_loop_trace env n i s :
  env_ok env → k_held s = [] → table_ok s → (i + n = NPROC)%nat →
  ∃ t s', trace env (for_each (seq i n) rr_body s) = (t, Some (tt, s')) ∧
    k_held s' = [] ∧ table_ok s' ∧ NoDup t ∧ Forall (λ o, ∃ j, o = Some j ∧ (i ≤ j)%nat) t ∧
    (∀ j, (i ≤ j)%nat → p_state <$> k_procs s !! j = Some RUNNABLE → Some j ∈ t).
Proof.
  intros He. revert i s. induction n as [|n IH]; intros i s Hh Ht Hi.
  { exists [], s. split_and!; [done..|constructor|constructor|]. intros j Hj Hr.
    rewrite (lookup_ge_None_2 (k_procs s) j) in Hr; [done|]. rewrite Ht. lia. }
  destruct (rr_body_trace env i s He Hh Ht ltac:(lia)) as (t1 & s1 & Htr & Hh1 & Ht1 & Hcase & Hkeep).
  destruct (IH (S i) s1 Hh1 Ht1 ltac:(lia)) as (t2 & s2 & Htr2 & Hh2 & Ht2 & Hnd & Hall & Hin).
  exists (t1 ++ t2), s2. cbn [seq for_each]. unfold bind. rewrite trace_bind, Htr, Htr2.
  assert (Some i ∉ t2) as Hni.
  { intros Hm. rewrite Forall_forall in Hall. destruct (Hall _ Hm) as (j & [= <-] & ?). lia. }
  split_and!; [done..| | |].
  - destruct Hcase as [->|[-> _]]; [by apply NoDup_cons|done].
  - apply Forall_app. split; [|eapply Forall_impl; [exact Hall|]; intros o (j & -> & ?); exists j; split; [done|lia]].
    destruct Hcase as [->|[-> _]]; [|constructor]. constructor; [by exists i|constructor].
  - intros j Hj Hr. apply elem_of_app. destruct (decide (j = i)) as [->|Hne].
    + left. destruct Hcase as [->|[_ ?]]; [by left|done].
    + right. apply Hin; [lia|]. by apply Hkeep.
Qed.

(** C26: Round robin is fair: however the processes behave while they run, one
    round of the scheduler gives the CPU to every process that was runnable when
    it began, each once, and ends with no lock held. *)
Theorem rr_round_fair env s :
  env_ok env → k_held s = [] → table_ok s →
  ∃ t s', trace env (round_RR s) = (t, Some (tt, s')) ∧ k_held s' = [] ∧ NoDup t ∧
    ∀ j, p_state <$> k_procs s !! j = Some RUNNABLE → Some j ∈ t.
Proof.
  intros He Hh Ht. unfold round_RR, intr_on. kstep.
  destruct (rr_loop_trace env NPROC 0 (set_k_sie true s) He Hh Ht eq_refl)
    as (t & s' & Htr & Hh' & _ & Hnd & _ & Hin).
  exists t, s'. split_and!; [done..|]. intros j Hj. apply Hin; [lia|done].
Qed.

(** ** The MLFQ round *)

(** C24: A round of the MLFQ scheduler first ages and requeues every process
    ([pass_one]) and then gives the CPU to the process the selection rule picks
    on the updated queues, entering it with its lock and no other held. *)
Theorem mlfq_round_correct s :
  table_ok s → k_held s = [] →
  let ps := pass_one (k_ticks s) <$> k_procs s in
  (round_MLFQ s = Ret tt (set_k_cur None (set_k_procs ps (set_k_sie true s))) ∧
   ∀ k p, ps !! k = Some p → ¬ queued p) ∨
  (∃ i f s1 kont, round_MLFQ s = Swtch s1 kont ∧ ps !! i = Some f ∧ queued f ∧
     (∀ k p, ps !! k = Some p → queued p →
        pri f < pri p ∨ (pri f = pri p ∧ (intime f < intime p ∨ (intime f = intime p ∧ (i ≤ k)%nat)))) ∧
     k_held s1 = [L_proc i] ∧ k_cur s1 = Some i ∧ k_procs s1 = alter (set_p_state RUNNING) i ps ∧
     ∀ s2, k_held s2 = [L_proc i] → kont s2 = Ret tt (set_k_cur None (set_k_held [] s2))).
Proof.
  intros Ht Hh ps. unfold round_MLFQ, intr_on. kstep.
  rewrite mlfq_pass_ok by (try done; intros i _; simpl; rewrite Hh; apply not_elem_of_nil).
  cbn [rbind]. set (s0 := set_k_procs _ _). assert (k_procs s0 = ps) as Hps by done.
  destruct (mlfq_select_ok s0) as (o & Ho & Hsel). rewrite Ho. cbn [rbind]. rewrite Hps in Hsel.
  destruct o as [i|]; [right|left; split; [unfold s0; keq|exact Hsel]].
  destruct Hsel as (f & Hf & Hqf & Hmin). eexists i, f, _, _. split.
  { unfold mlfq_dispatch. erewrite bind_step by (apply acquire_free; simpl; rewrite Hh; apply not_elem_of_nil).
    unfold intr_off. kstep. done. }
  split; [done|]. split; [done|]. split; [exact Hmin|]. split_and!; [simpl; by rewrite Hh|done..|].
  intros s2 Hh2. unfold rbind. by erewrite release_held by done.
Qed.

(** [mlfq_dispatch] does not look at the state of the process again once it
    has its lock: a process that another CPU selected in the meantime and is
    running is given this CPU too. *)
Theorem mlfq_dispatch_unchecked s i p :
  k_held s = [] → k_procs s !! i = Some p → p_state p = RUNNING →
  ∃ s1 kont, mlfq_dispatch i s = Swtch s1 kont ∧ k_cur s1 = Some i ∧ k_procs s1 = k_procs s.
Proof.
  intros Hh Hp Hst. eexists _, _. split.
  { unfold mlfq_dispatch. erewrite bind_step by (apply acquire_free; simpl; rewrite Hh; apply not_elem_of_nil).
    unfold intr_off. kstep. done. }
  split; [done|]. simpl. apply list_alter_id. intros x Hx. simplify_eq.
  destruct p; simpl in *. by subst.
Qed.

End sched.

(** ** The theorems at concrete states *)

(** Two runnable processes; the second is the older and the better placed. *)
Definition demo_r0 : proc :=
  set_p_mlfq_data (mk_mlfq 2 0 0 1 40) (set_p_ctime 5 (set_p_pid 1 (set_p_state RUNNABLE zero_proc))).
Definition demo_r1 : proc :=
  set_p_mlfq_data (mk_mlfq 1 0 0 1 50) (set_p_ctime 3 (set_p_pid 2 (set_p_state RUNNABLE zero_proc))).
Definition demo_ready : kstate :=
  set_k_ticks 60 (set_k_procs (demo_r0 :: demo_r1 :: replicate 62 zero_proc) bss).

Lemma demo_ready_proc i p :
  k_procs demo_ready !! i = Some p → p_state p = RUNNABLE →
  (i = 0%nat ∧ p = demo_r0) ∨ (i = 1%nat ∧ p = demo_r1).
Proof.
  intros Hp Hst. destruct i as [|[|i]]; [simpl in Hp; simplify_eq; auto..|].
  change (replicate 62 zero_proc !! i = Some p) in Hp.
  apply lookup_replicate in Hp as [-> _]. done.
Qed.


Lemma fcfs_round_correct_witness :
  ∃ s1 kont, round_FCFS demo_ready = Swtch s1 kont ∧ k_cur s1 = Some 1%nat.
Proof.
  destruct (fcfs_round_correct demo_ready eq_refl eq_refl) as [[_ H]|(i & s1 & kont & H & Hold & _ & Hc & _)].
  - by destruct (H 0%nat demo_r0 eq_refl).
  - exists s1, kont. split; [done|]. rewrite Hc. destruct Hold as (_ & f & Hf & Hfs & Hmin).
    destruct (demo_ready_proc i f Hf Hfs) as [[-> ->]|[-> ->]]; [|done].
    specialize (Hmin 1%nat demo_r1 ltac:(unfold NPROC; lia) eq_refl eq_refl). simpl in Hmin. lia.
Defined.

(** Processes that only ever yield. *)
Definition yielding (s : kstate) : kstate :=
  match k_cur s with
  | Some i => set_k_procs (alter (set_p_state RUNNABLE) i (k_procs s)) s
  | None => s
  end.

Lemma yielding_ok : env_ok yielding.
Proof.
  intros s i Hh Hc Ht. unfold yielding. rewrite Hc. split_and!; [done| |].
  - unfold table_ok. simpl. by rewrite length_alter.
  - intros j Hj. simpl. by rewrite list_lookup_alter_ne.
Qed.

Lemma rr_round_fair_witness :
  ∃ t s', trace yielding (round_RR demo_ready) = (t, Some (tt, s')) ∧ k_held s' = [] ∧ NoDup t ∧
    ∀ j, p_state <$> k_procs demo_ready !! j = Some RUNNABLE → Some j ∈ t.
Proof. apply (rr_round_fair yielding demo_ready yielding_ok eq_refl eq_refl). Defined.

Lemma mlfq_round_correct_witness :
  ∃ i s1 kont, round_MLFQ demo_ready = Swtch s1 kont ∧ k_cur s1 = Some i.
Proof.
  destruct (mlfq_round_correct demo_ready eq_refl eq_refl) as [[_ H]|(i & f & s1 & kont & H & _ & _ & _ & _ & Hc & _)].
  - destruct (H 0%nat demo_r0 eq_refl). by repeat split.
  - exists i, s1, kont. exact (conj H Hc).
Defined.

Lemma mlfq_dispatch_unchecked_witness :
  ∃ s1 kont, mlfq_dispatch 0 (set_k_cur None demo_procs) = Swtch s1 kont ∧ k_cur s1 = Some 0%nat ∧
    k_procs s1 = k_procs demo_procs.
Proof. by apply (mlfq_dispatch_unchecked (set_k_cur None demo_procs) 0 demo_p0). Defined.
