(* ===== verification/File.v ===== *)
(** * Pipes and open files

    [kernel/pipe.c] and the reference counts of [kernel/file.c] and
    [kernel/fs.c].  What the rest of the file system does for a caller is the
    interface [FileSystem].  A pipe refines a FIFO queue of bytes: [contents]
    is the queue, and every byte read is the oldest byte written and not yet
    read, across any number of wrap-arounds of the 32-bit counters. *)

From Stdlib Require Import ZArith Lia.
From stdpp Require Import relations.
From S2P Require Import Prelude Machine Kernel Boot CString Printf Kalloc Vm ProcTable.

(** The operations of the log and inode layers that processes and open files
    use; they may sleep. *)
Class FileSystem := {
  begin_op : M unit;
  end_op : M unit;
  iput : nat → M unit;
  namei : list Z → M (option nat);
  fsinit : Z → M unit
}.

Definition PIPESIZE : Z := 512.

Section file.
Context `{B : Build} `{F : FileSystem}.

(** ** Reference counts *)

Definition filealloc : M (option nat) :=
  acquire L_ftable;;
  r <- for_until (seq 0 NFILE) (λ i,
    f <- getf i;;
    if f_ref f =? 0 then modf i (set_f_ref 1);; release L_ftable;; ret (Some i) else ret None);;
  match r with
  | Some i => ret (Some i)
  | None => release L_ftable;; ret None
  end.

Definition filedup (i : nat) : M nat :=
  acquire L_ftable;;
  f <- getf i;;
  if f_ref f <? 1 then panic "filedup"
  else
    modf i (set_f_ref (s32 (f_ref f + 1)));;
    release L_ftable;;
    ret i.

Definition idup (i : nat) : M nat :=
  acquire L_itable;;
  ip <- (o <- gets (λ s, k_itable s !! i);; unwrap o);;
  modify (λ s, set_k_itable (<[i := set_i_ref (s32 (i_ref ip + 1)) ip]> (k_itable s)) s);;
  release L_itable;;
  ret i.

(** ** Pipes *)

Definition pipeclose (pi : Z) (writable : bool) : M unit :=
  acquire (L_pipe pi);;
  (if writable then setpipe pi (set_pi_writeopen 0);; wakeup (Ch_nread pi)
   else setpipe pi (set_pi_readopen 0);; wakeup (Ch_nwrite pi));;
  p <- getpipe pi;;
  if ((pi_readopen p =? 0) && (pi_writeopen p =? 0))%bool
  then release (L_pipe pi);; kfree pi
  else release (L_pipe pi).

Definition fileclose (i : nat) : M unit :=
  acquire L_ftable;;
  f <- getf i;;
  if f_ref f <? 1 then panic "fileclose"
  else
    modf i (set_f_ref (f_ref f - 1));;
    if 0 <? f_ref f - 1 then release L_ftable
    else
      ff <- getf i;;
      modf i (set_f_ref 0);;
      modf i (set_f_type FD_NONE);;
      release L_ftable;;
      match f_type ff with
      | FD_PIPE => pipeclose (f_pipe ff) (truthy (f_writable ff))
      | FD_INODE | FD_DEVICE => begin_op;; ip <- unwrap (f_ip ff);; iput ip;; end_op
      | FD_NONE => ret tt
      end.

(** What [kalloc] leaves in a page that becomes a pipe. *)
Definition junk_pipe : pipe := mk_pipe (replicate 512 5) 0x05050505 0x05050505 0x05050505 0x05050505.

(** The label [bad] of [pipealloc]; [pi] is 0 there on every path. *)
Definition pipealloc_bad (f0 f1 : option nat) : M (Z * option (nat * nat)) :=
  match f0 with Some i => fileclose i | None => ret tt end;;
  match f1 with Some i => fileclose i | None => ret tt end;;
  ret (-1, None).

Definition pipealloc : M (Z * option (nat * nat)) :=
  f0 <- filealloc;;
  match f0 with
  | None => pipealloc_bad None None
  | Some i0 =>
      f1 <- filealloc;;
      match f1 with
      | None => pipealloc_bad f0 None
      | Some i1 =>
          pi <- kalloc;;
          if pi =? 0 then pipealloc_bad f0 f1
          else
            modify (λ s, set_k_pipes (<[pi := junk_pipe]> (k_pipes s)) s);;
            setpipe pi (set_pi_readopen 1);;
            setpipe pi (set_pi_writeopen 1);;
            setpipe pi (set_pi_nwrite 0);;
            setpipe pi (set_pi_nread 0);;
            modf i0 (set_f_type FD_PIPE);;
            modf i0 (set_f_readable 1);;
            modf i0 (set_f_writable 0);;
            modf i0 (set_f_pipe pi);;
            modf i1 (set_f_type FD_PIPE);;
            modf i1 (set_f_readable 0);;
            modf i1 (set_f_writable 1);;
            modf i1 (set_f_pipe pi);;
            ret (0, Some (i0, i1))
      end
  end.

(** [pi->data[pi->nwrite++ % PIPESIZE] = ch] *)
Definition pipe_put (ch : Z) (p : pipe) : pipe :=
  set_pi_nwrite (u32 (pi_nwrite p + 1))
    (set_pi_data (<[Z.to_nat (pi_nwrite p mod PIPESIZE) := u8 ch]> (pi_data p)) p).

(** [ch = pi->data[pi->nread++ % PIPESIZE]] *)
Definition pipe_next (p : pipe) : Z := default 0 (pi_data p !! Z.to_nat (pi_nread p mod PIPESIZE)).
Definition pipe_get (p : pipe) : pipe := set_pi_nread (u32 (pi_nread p + 1)) p.

Definition pipe_full (p : pipe) : bool := pi_nwrite p =? u32 (pi_nread p + PIPESIZE).
Definition pipe_empty (p : pipe) : bool := pi_nread p =? pi_nwrite p.

(** The loop of [pipewrite] and its exit; [fuel] bounds the bytes written plus
    the times the writer sleeps. *)
Fixpoint pipewrite_loop (fuel : nat) (me : nat) (pi addr n i : Z) : M Z :=
  match fuel with
  | O => stuck
  | S fl =>
      if i <? n then
        p <- getpipe pi;;
        dead <- (if pi_readopen p =? 0 then ret true else k <- killed me;; ret (truthy k));;
        if dead : bool then release (L_pipe pi);; ret (-1)
        else if pipe_full p then
          wakeup (Ch_nread pi);;
          sleep (Ch_nwrite pi) (L_pipe pi);;
          pipewrite_loop fl me pi addr n i
        else
          pr <- getp me;;
          r <- copyin (p_pagetable pr) (u64 (addr + i)) 1;;
          if r.1 =? -1 then wakeup (Ch_nread pi);; release (L_pipe pi);; ret i
          else
            setpipe pi (pipe_put (nth 0 r.2 0));;
            pipewrite_loop fl me pi addr n (i + 1)
      else wakeup (Ch_nread pi);; release (L_pipe pi);; ret i
  end.

Definition pipewrite (fuel : nat) (pi addr n : Z) : M Z :=
  me <- curproc;;
  acquire (L_pipe pi);;
  pipewrite_loop fuel me pi addr n 0.

(** [piperead]'s wait for data: true to go on, false for [return -1]. *)
Fixpoint piperead_wait (fuel : nat) (me : nat) (pi : Z) : M bool :=
  match fuel with
  | O => stuck
  | S fl =>
      p <- getpipe pi;;
      if (pipe_empty p && truthy (pi_writeopen p))%bool then
        k <- killed me;;
        if truthy k then release (L_pipe pi);; ret false
        else sleep (Ch_nread pi) (L_pipe pi);; piperead_wait fl me pi
      else ret true
  end.

Fixpoint piperead_copy (k : nat) (me : nat) (pi addr i : Z) : M Z :=
  match k with
  | O => ret i
  | S k' =>
      p <- getpipe pi;;
      if pipe_empty p then ret i
      else
        let ch := pipe_next p in
        setpipe pi pipe_get;;
        pr <- getp me;;
        r <- copyout (p_pagetable pr) (u64 (addr + i)) [ch];;
        if r =? -1 then ret i else piperead_copy k' me pi addr (i + 1)
  end.

Definition piperead (fuel : nat) (pi addr n : Z) : M Z :=
  me <- curproc;;
  acquire (L_pipe pi);;
  go <- piperead_wait fuel me pi;;
  if go : bool then
    i <- piperead_copy (Z.to_nat n) me pi addr 0;;
    wakeup (Ch_nwrite pi);;
    release (L_pipe pi);;
    ret i
  else ret (-1).

(** ** A pipe is a FIFO queue *)

Definition pipe_wf (p : pipe) : Prop :=
  length (pi_data p) = 512%nat ∧ 0 ≤ pi_nread p < 2 ^ 32 ∧ 0 ≤ pi_nwrite p < 2 ^ 32 ∧
  u32 (pi_nwrite p - pi_nread p) ≤ PIPESIZE.

Definition pipe_len (p : pipe) : Z := u32 (pi_nwrite p - pi_nread p).

(** The byte [k] places from the read end. *)
Definition pipe_at (p : pipe) (k : Z) : Z :=
  default 0 (pi_data p !! Z.to_nat (u32 (pi_nread p + k) mod PIPESIZE)).

Definition contents (p : pipe) : list Z := pipe_at p <$> seqZ 0 (pipe_len p).

Lemma length_contents p : length (contents p) = Z.to_nat (pipe_len p).
Proof. unfold contents. by rewrite length_fmap, length_seqZ. Qed.

Lemma pipe_full_iff p : pipe_wf p → pipe_full p = true ↔ length (contents p) = 512%nat.
Proof.
  intros (_ & Hr & Hw & Hle). rewrite length_contents. unfold pipe_full, pipe_len, PIPESIZE, u32 in *.
  rewrite Z.eqb_eq. zarith.
Qed.

Lemma pipe_empty_iff p : pipe_wf p → pipe_empty p = true ↔ contents p = [].
Proof.
  intros (_ & Hr & Hw & Hle). unfold pipe_empty. rewrite Z.eqb_eq, <- length_zero_iff_nil, length_contents.
  unfold pipe_len, u32 in *. zarith.
Qed.

Lemma pipe_put_ok ch p :
  pipe_wf p → pipe_full p = false → 0 ≤ ch < 256 →
  pipe_wf (pipe_put ch p) ∧ contents (pipe_put ch p) = contents p ++ [ch].
Proof.
  intros Hwf Hf Hch. assert (pipe_len p < 512) as Hlen.
  { assert (¬ length (contents p) = 512%nat) as Hn by (rewrite <- pipe_full_iff by done; congruence).
    rewrite length_contents in Hn. destruct Hwf as (_ & _ & _ & Hle). unfold pipe_len, PIPESIZE in *. lia. }
  destruct Hwf as (Hd & Hr & Hw & _).
  assert (0 ≤ pipe_len p) by apply u32_range.
  assert (pipe_len (pipe_put ch p) = pipe_len p + 1) as Hlen'.
  { unfold pipe_len, u32 in *. simpl. unfold u32. zarith. }
  split.
  { split_and!; simpl; try apply u32_range; try lia; [by rewrite length_insert|].
    change (pipe_len (pipe_put ch p) ≤ PIPESIZE). unfold PIPESIZE. lia. }
  unfold contents. rewrite Hlen', seqZ_app, fmap_app by lia. f_equal.
  - apply list_fmap_ext. intros k x Hx. apply lookup_seqZ in Hx as [-> Hk].
    unfold pipe_at. simpl. rewrite list_lookup_insert_ne; [done|].
    unfold pipe_len, PIPESIZE, u32 in *. zarith.
  - rewrite Z.add_0_l, seqZ_cons, seqZ_nil by lia. cbn [fmap list_fmap]. f_equal.
    unfold pipe_at. simpl.
    assert (u32 (pi_nread p + pipe_len p) = pi_nwrite p) as ->.
    { unfold pipe_len, u32 in *. zarith. }
    rewrite list_lookup_insert_eq by (unfold PIPESIZE; zarith). simpl. by apply u8_small.
Qed.

Lemma pipe_get_ok p :
  pipe_wf p → pipe_empty p = false →
  pipe_wf (pipe_get p) ∧ contents p = pipe_next p :: contents (pipe_get p).
Proof.
  intros Hwf He. pose proof Hwf as (Hd & Hr & Hw & Hle).
  assert (0 < pipe_len p) as Hlen.
  { unfold pipe_empty in He. bool_prop. unfold pipe_len, u32 in *. zarith. }
  assert (pipe_len (pipe_get p) = pipe_len p - 1) as Hlen'.
  { unfold pipe_len, u32 in *. simpl. unfold u32. zarith. }
  split.
  { split_and!; simpl; try apply u32_range; try lia. change (pipe_len (pipe_get p) ≤ PIPESIZE).
    fold (pipe_len p) in Hle. lia. }
  unfold contents. rewrite seqZ_cons by lia. cbn [fmap list_fmap]. f_equal.
  - unfold pipe_at, pipe_next. by rewrite Z.add_0_r, u32_small.
  - rewrite Hlen'. change (Z.succ 0) with (1 + 0). rewrite <- fmap_add_seqZ, <- list_fmap_compose.
    apply list_fmap_ext. intros k x Hx. apply lookup_seqZ in Hx as [-> Hk]. unfold pipe_at. simpl.
    do 3 f_equal. unfold u32, PIPESIZE. zarith.
Qed.

(** A run of writers and readers of a pipe, with the bytes written and the bytes
    read so far. *)
Inductive pipe_step : pipe * list Z * list Z → pipe * list Z * list Z → Prop :=
| ps_write p w r ch :
    pipe_full p = false → 0 ≤ ch < 256 → pipe_step (p, w, r) (pipe_put ch p, w ++ [ch], r)
| ps_read p w r :
    pipe_empty p = false → pipe_step (p, w, r) (pipe_get p, w, r ++ [pipe_next p]).


(** ** The system-call side *)

Hypothesis kend_range : KERNBASE ≤ kend ≤ PHYSTOP.

Lemma killed_ok i s p :
  L_proc i ∉ k_held s → k_procs s !! i = Some p → killed i s = Ret (p_killed p) s.
Proof.
  intros Hl Hp. unfold killed. erewrite bind_step by (by apply acquire_free).
  erewrite bind_step by (by apply getp_some). erewrite bind_step by (by apply release_held).
  unfold ret. keq.
Qed.

(** The state inside a critical section of the pipe at [pi]. *)
Definition in_pipe (pi : Z) (p : pipe) (s : kstate) : kstate :=
  set_k_pipes (<[pi := p]> (k_pipes s)) (set_k_held [L_pipe pi] s).

Lemma getpipe_in pi p s : getpipe pi (in_pipe pi p s) = Ret p (in_pipe pi p s).
Proof. unfold getpipe. kstep. simpl. by rewrite lookup_insert_eq. Qed.

Lemma setpipe_in pi p f s : setpipe pi f (in_pipe pi p s) = Ret tt (in_pipe pi (f p) s).
Proof.
  unfold setpipe. erewrite bind_step by apply getpipe_in. unfold modify, in_pipe.
  cbn [k_pipes set_k_pipes]. rewrite insert_insert_eq. keq.
Qed.

(** The end of both operations: wake the other side, release the lock. *)
Lemma pipe_leave pi p ch s (r : Z) :
  table_ok s →
  (wakeup ch;; release (L_pipe pi);; ret r) (in_pipe pi p s) =
  Ret r (set_k_procs (imap (wake_one (k_cur s) ch) (k_procs s))
    (set_k_pipes (<[pi := p]> (k_pipes s)) (set_k_held [] s))).
Proof.
  intros Ht. erewrite bind_step.
  2: { apply wakeup_ok; [exact Ht|]. left. intros j _. simpl. set_solver. }
  erewrite bind_step by (by apply release_held). unfold ret, in_pipe. keq.
Qed.

(** The byte [j] of a user buffer. *)
Definition user_byte (m : mem) (pt va b : Z) : Prop := ∃ pa, user_pa m pt va = Some pa ∧ m pa = b.

Lemma copyout_byte pt va b s fl pa :
  pt_wf (k_mem s) pt fl → user_separate (k_mem s) pt → 0 ≤ va < 2 ^ 64 →
  user_pa (k_mem s) pt va = Some pa → copyout pt va [b] s = Ret 0 (set_k_mem (st8 (k_mem s) pa b) s).
Proof.
  intros Hw Hs Hva Hpa. rewrite (copyout_spec kend_range pt va [b] s fl Hw Hs Hva).
  cbn [copyout_ref]. by rewrite Hpa.
Qed.

Lemma piperead_wait_data fuel me pi p s :
  pipe_empty p = false → piperead_wait (S fuel) me pi (in_pipe pi p s) = Ret true (in_pipe pi p s).
Proof.
  intros He. cbn [piperead_wait]. erewrite bind_step by apply getpipe_in. by rewrite He.
Qed.

Section ends.
Variables (s : kstate) (me : nat) (pr : proc) (pi addr : Z) (fl : list Z).
Hypothesis (Hme : k_cur s = Some me) (Hpr : k_procs s !! me = Some pr) (Ht : table_ok s).
Hypothesis (Hk : p_killed pr = 0) (Hpt : pt_wf (k_mem s) (p_pagetable pr) fl).

Lemma pipewrite_loop_ok bs off p :
  (∀ j b, bs !! j = Some b → 0 ≤ b < 256 ∧
     user_byte (k_mem s) (p_pagetable pr) (u64 (addr + off + Z.of_nat j)) b) →
  pipe_wf p → pi_readopen p ≠ 0 → (length (contents p) + length bs ≤ 512)%nat →
  ∃ p', pipewrite_loop (S (length bs)) me pi addr (off + Z.of_nat (length bs)) off (in_pipe pi p s) =
    Ret (off + Z.of_nat (length bs))
      (set_k_procs (imap (wake_one (Some me) (Ch_nread pi)) (k_procs s))
         (set_k_pipes (<[pi := p']> (k_pipes s)) (set_k_held [] s))) ∧
    pipe_wf p' ∧ contents p' = contents p ++ bs.
Proof.
  revert off p. induction bs as [|b bs IH]; intros off p Hbs Hwf Hro Hlen.
  { exists p. rewrite app_nil_r. split_and!; [|done..]. cbn [pipewrite_loop length].
    rewrite Z.add_0_r, Z.ltb_irrefl, pipe_leave, Hme by done. done. }
  destruct (Hbs 0%nat b eq_refl) as (Hb & pa & Hpa & Hm). rewrite Z.add_0_r in Hpa.
  assert (pipe_full p = false) as Hf.
  { apply not_true_iff_false. rewrite pipe_full_iff by done. simpl in Hlen. lia. }
  destruct (pipe_put_ok b p Hwf Hf Hb) as [Hwf' Hc'].
  destruct (IH (off + 1) (pipe_put b p)) as (p' & Hloop & Hwf2 & Hc2); [|done|done| |].
  { intros j b' Hj. replace (addr + (off + 1) + Z.of_nat j) with (addr + off + Z.of_nat (S j)) by lia.
    by apply Hbs. }
  { rewrite Hc', length_app. simpl in *. lia. }
  exists p'. split_and!; [|done|by rewrite Hc2, Hc', <- app_assoc].
  cbn [length]. remember (S (length bs)) as fuel eqn:Hfuel. cbn [pipewrite_loop].
  rewrite (proj2 (Z.ltb_lt _ _)) by lia. erewrite bind_step by apply getpipe_in.
  rewrite (proj2 (Z.eqb_neq _ 0)) by done.
  erewrite bind_step.
  2: { erewrite bind_step; [|apply killed_ok; [simpl; set_solver|exact Hpr]]. rewrite Hk. done. }
  change (truthy 0) with false. cbn iota. rewrite Hf.
  erewrite bind_step by (by apply getp_some). erewrite bind_step.
  2: { eapply copyin_spec; [exact kend_range|exact Hpt|apply u64_range|lia]. }
  change (Z.to_nat 1) with 1%nat. cbn [copyin_ref k_mem in_pipe set_k_pipes set_k_held].
  rewrite Hpa. cbn [fst snd app nth Z.eqb].
  erewrite bind_step by apply setpipe_in. rewrite Hm.
  replace (off + Z.of_nat fuel) with (off + 1 + Z.of_nat (length bs)) by lia. exact Hloop.
Qed.

Hypothesis Hsep : user_separate (k_mem s) (p_pagetable pr).

(** The state inside the pipe with user memory [m]. *)
Lemma piperead_copy_ok k off p m :
  pt_wf m (p_pagetable pr) fl → user_separate m (p_pagetable pr) → pipe_wf p →
  0 ≤ addr → 0 ≤ off → addr + off + Z.of_nat k < 2 ^ 64 →
  let bs := take k (contents p) in
  (∀ j, (j < length bs)%nat → is_Some (user_pa m (p_pagetable pr) (addr + off + Z.of_nat j))) →
  ∃ p' m', piperead_copy k me pi addr off (in_pipe pi p (set_k_mem m s)) =
    Ret (off + Z.of_nat (length bs)) (in_pipe pi p' (set_k_mem m' s)) ∧
    pipe_wf p' ∧ contents p = bs ++ contents p' ∧
    copyout_ref m (p_pagetable pr) (addr + off) bs = (0, m').
Proof.
  revert off p m. induction k as [|k IH]; intros off p m Hw Hs Hwf Ha Ho Hmax bs Hbs.
  { exists p, m. unfold bs. cbn [piperead_copy take app length copyout_ref]. split_and!; [|done..].
    by rewrite Z.add_0_r. }
  cbn [piperead_copy]. erewrite bind_step by apply getpipe_in.
  destruct (pipe_empty p) eqn:He.
  { apply pipe_empty_iff in He as Hc; [|done]. unfold bs. rewrite Hc. exists p, m.
    split_and!; [by rewrite Z.add_0_r|done..]. }
  destruct (pipe_get_ok p Hwf He) as [Hwf' Hc]. unfold bs in *. clear bs.
  rewrite Hc in Hbs |- *. cbn [take length] in Hbs. cbn [take]. cbn [length copyout_ref app].
  erewrite bind_step by apply setpipe_in.
  erewrite bind_step by (by apply getp_some).
  destruct (Hbs 0%nat ltac:(lia)) as [pa Hpa]. rewrite Z.add_0_r in Hpa. rewrite u64_small by lia.
  pose proof (separate_store m (p_pagetable pr) (addr + off) pa (pipe_next p) Hs ltac:(lia) Hpa) as Hst.
  erewrite bind_step by (eapply copyout_byte; [exact Hw|exact Hs|lia|exact Hpa]).
  change (0 =? -1) with false. cbn iota.
  destruct (IH (off + 1) (pipe_get p) (st8 m pa (pipe_next p))) as (p' & m' & Hcopy & Hwf2 & Hc2 & Hm2);
    [by eapply pt_wf_frame|by eapply user_separate_frame|done|lia..| |].
  { intros j Hj. rewrite (user_pa_frame m) by done.
    replace (addr + (off + 1) + Z.of_nat j) with (addr + off + Z.of_nat (S j)) by lia. apply Hbs. lia. }
  exists p', m'. split_and!; [|done|by f_equal|].
  - replace (off + Z.of_nat (S (length (take k (contents (pipe_get p))))))
      with (off + 1 + Z.of_nat (length (take k (contents (pipe_get p))))) by lia. exact Hcopy.
  - rewrite Hpa, u64_small by lia. by replace (addr + off + 1) with (addr + (off + 1)) by lia.
Qed.

End ends.

(** A write that fits is complete and in order: [pipewrite] of a readable
    user buffer into an open pipe with room for it returns the full count
    without sleeping, leaves the pipe's queue extended by exactly those bytes,
    and wakes the sleeping readers. *)
Theorem pipewrite_fits s me pr pi p addr bs fl :
  k_cur s = Some me → k_procs s !! me = Some pr → table_ok s → k_held s = [] →
  p_killed pr = 0 → pt_wf (k_mem s) (p_pagetable pr) fl →
  k_pipes s !! pi = Some p → pipe_wf p → pi_readopen p ≠ 0 →
  (length (contents p) + length bs ≤ 512)%nat →
  (∀ j b, bs !! j = Some b → 0 ≤ b < 256 ∧
     user_byte (k_mem s) (p_pagetable pr) (u64 (addr + Z.of_nat j)) b) →
  ∃ p', pipewrite (S (length bs)) pi addr (Z.of_nat (length bs)) s =
    Ret (Z.of_nat (length bs))
      (set_k_procs (imap (wake_one (Some me) (Ch_nread pi)) (k_procs s))
         (set_k_pipes (<[pi := p']> (k_pipes s)) s)) ∧
    pipe_wf p' ∧ contents p' = contents p ++ bs.
Proof.
  intros Hme Hpr Ht Hh Hk Hpt Hp Hwf Hro Hlen Hbs.
  destruct (pipewrite_loop_ok s me pr pi addr fl Hme Hpr Ht Hk Hpt bs 0 p) as (p' & Hloop & Hwf' & Hc');
    [|done..|].
  { intros j b Hj. rewrite Z.add_0_r. by apply Hbs. }
  exists p'. split_and!; [|done..]. unfold pipewrite. unfold curproc, myproc. kstep. rewrite Hme. cbn [rbind].
  rewrite acquire_free by (rewrite Hh; apply not_elem_of_nil). cbn [rbind]. rewrite Hh.
  assert (set_k_held [L_pipe pi] s = in_pipe pi p s) as ->.
  { unfold in_pipe. rewrite insert_id by done. keq. }
  rewrite Z.add_0_l in Hloop. rewrite Hloop. apply ret_eq, k_ext; simpl; auto.
Qed.

(** A read takes what is there, oldest byte first: [piperead] of a non-empty
    pipe returns without sleeping the smaller of the count asked for and the
    number of bytes queued, stores exactly those bytes in the user buffer, removes
    them from the queue, and wakes the sleeping writers. *)
Theorem piperead_takes s me pr pi p addr n fl :
  k_cur s = Some me → k_procs s !! me = Some pr → table_ok s → k_held s = [] →
  pt_wf (k_mem s) (p_pagetable pr) fl → user_separate (k_mem s) (p_pagetable pr) →
  k_pipes s !! pi = Some p → pipe_wf p → contents p ≠ [] →
  0 ≤ addr → 0 ≤ n → addr + n < 2 ^ 64 →
  let bs := take (Z.to_nat n) (contents p) in
  (∀ j, (j < length bs)%nat → is_Some (user_pa (k_mem s) (p_pagetable pr) (addr + Z.of_nat j))) →
  ∃ p' m', piperead 1 pi addr n s =
    Ret (Z.of_nat (length bs))
      (set_k_procs (imap (wake_one (Some me) (Ch_nwrite pi)) (k_procs s))
         (set_k_pipes (<[pi := p']> (k_pipes s)) (set_k_mem m' s))) ∧
    pipe_wf p' ∧ contents p = bs ++ contents p' ∧
    copyout_ref (k_mem s) (p_pagetable pr) addr bs = (0, m').
Proof.
  intros Hme Hpr Ht Hh Hpt Hsep Hp Hwf Hne Ha Hn Hmax bs Hbs.
  destruct (piperead_copy_ok s me pr pi addr fl Hpr (Z.to_nat n) 0 p (k_mem s))
    as (p' & m' & Hcopy & Hwf' & Hc & Hm); [done..|lia| |].
  { intros j Hj. rewrite Z.add_0_r. by apply Hbs. }
  rewrite Z.add_0_r in Hm. exists p', m'. split; [|done].
  unfold piperead. unfold curproc, myproc. kstep. rewrite Hme. cbn [rbind].
  rewrite acquire_free by (rewrite Hh; apply not_elem_of_nil). cbn [rbind]. rewrite Hh.
  assert (set_k_held [L_pipe pi] s = in_pipe pi p (set_k_mem (k_mem s) s)) as ->.
  { unfold in_pipe. simpl. rewrite insert_id by done. keq. }
  rewrite piperead_wait_data.
  2: { apply not_true_iff_false. by rewrite pipe_empty_iff. }
  cbn [rbind]. rewrite Hcopy. cbn [rbind]. rewrite Z.add_0_l.
  etrans; [apply (pipe_leave pi p' (Ch_nwrite pi) (set_k_mem m' s)); exact Ht|].
  cbn [k_cur set_k_mem]. rewrite Hme. apply ret_eq, k_ext; simpl; auto.
Qed.

End file.

(** ** The theorems at concrete states *)

#[local] Existing Instance build_rr.

(** An empty pipe whose counters are about to wrap around. *)
Definition demo_pipe : pipe := mk_pipe (replicate 512 0) (2 ^ 32 - 1) (2 ^ 32 - 1) 1 1.


(** Process 0 with the memory of [demo_user] and a pipe. *)
Definition demo_pr : proc := set_p_pagetable demo_pt (set_p_state RUNNING zero_proc).
Definition demo_with_pipe (p : pipe) : kstate :=
  set_k_pipes {[0x80110000 := p]}
    (set_k_procs (demo_pr :: replicate 63 zero_proc) (set_k_cur (Some 0%nat) demo_user)).

Lemma pipewrite_fits_witness :
  ∃ p', pipewrite 3 0x80110000 0 2 (demo_with_pipe demo_pipe) =
    Ret 2 (set_k_procs (imap (wake_one (Some 0%nat) (Ch_nread 0x80110000)) (k_procs (demo_with_pipe demo_pipe)))
      (set_k_pipes (<[0x80110000 := p']> (k_pipes (demo_with_pipe demo_pipe))) (demo_with_pipe demo_pipe))) ∧
    pipe_wf p' ∧ contents p' = contents demo_pipe ++ [104; 105].
Proof.
  apply (pipewrite_fits (build_of_kend RR) (demo_with_pipe demo_pipe) 0 demo_pr 0x80110000 demo_pipe 0
    [104; 105] []); try reflexivity; [apply demo_wf|by vm_compute|done|by vm_compute; lia|].
  intros j b Hj. destruct j as [|[|j]]; simpl in Hj; simplify_eq; (split; [lia|]);
    eexists; (split; [vm_compute; reflexivity|vm_compute; reflexivity]).
Defined.

Lemma piperead_takes_witness :
  let s := demo_with_pipe (pipe_put 66 (pipe_put 65 demo_pipe)) in
  ∃ p' m', piperead 1 0x80110000 100 1 s =
    Ret 1 (set_k_procs (imap (wake_one (Some 0%nat) (Ch_nwrite 0x80110000)) (k_procs s))
      (set_k_pipes (<[0x80110000 := p']> (k_pipes s)) (set_k_mem m' s))) ∧
    pipe_wf p' ∧ contents (pipe_put 66 (pipe_put 65 demo_pipe)) = [65] ++ contents p' ∧
    copyout_ref demo_mem demo_pt 100 [65] = (0, m').
Proof.
  intros s. apply (piperead_takes (build_of_kend RR) s 0 demo_pr 0x80110000 (pipe_put 66 (pipe_put 65 demo_pipe))
    100 1 []); try reflexivity; [apply demo_wf|apply demo_separate|by vm_compute|done|lia|lia|].
  intros j Hj. destruct j as [|j]; [by vm_compute; eexists|change (length _) with 1%nat in Hj; lia].
Defined.
