(* ===== verification/Fs.v ===== *)
(** * The file system

    [kernel/fs.c]: the block allocator, inodes, files and their blocks,
    directories and path names, on top of the log and the buffer cache.

    A block is the list of its 1024 bytes; [dinode] and [dirent] are read from and
    written to their bytes.  [fuel] bounds the waits in the layers below.  The loops
    of this file run a bounded number of times: the bounds are those of the C loops,
    and the loops of [readi] and [writei] advance by at least one byte and to the
    end of a block unless they are done. *)

From Stdlib Require Import ZArith Lia.
From S2P Require Import Prelude Machine Kernel Boot CString Printf Kalloc Vm ProcTable Seq Sleeplock Virtio Bio Log Crash File.

(** ** On-disk structures *)

Definition get16 (l : list Z) (off : nat) : Z := le_val (take 2 (drop off l)).
Definition put16 (off : nat) (v : Z) (l : list Z) : list Z := take off l ++ le_bytes 2 v ++ drop (off + 2) l.

(** [struct dinode] of fs.h. *)
Record dinode := mk_dinode {
  di_type : Z;
  di_major : Z;
  di_minor : Z;
  di_nlink : Z;
  di_size : Z;
  di_addrs : list Z
}.

(** The bytes of an array of [uint]. *)
Fixpoint addr_bytes (l : list Z) : list Z :=
  match l with
  | [] => []
  | x :: l' => le_bytes 4 x ++ addr_bytes l'
  end.

Definition dinode_bytes (d : dinode) : list Z :=
  le_bytes 2 (di_type d) ++ le_bytes 2 (di_major d) ++ le_bytes 2 (di_minor d) ++ le_bytes 2 (di_nlink d) ++
  le_bytes 4 (di_size d) ++ addr_bytes (di_addrs d).

Definition get_dinode (l : list Z) (off : nat) : dinode :=
  mk_dinode (s16 (get16 l off)) (s16 (get16 l (off + 2))) (s16 (get16 l (off + 4))) (s16 (get16 l (off + 6)))
    (get32 l (off + 8)) ((λ k, get32 l (off + 12 + 4 * k)) <$> seq 0 13).

Definition put_at (off : nat) (bs l : list Z) : list Z := take off l ++ bs ++ drop (off + length bs) l.
Definition put_dinode (off : nat) (d : dinode) (l : list Z) : list Z := put_at off (dinode_bytes d) l.

(** [struct dirent] of fs.h. *)
Record dirent := mk_dirent { de_inum : Z; de_name : list Z }.

Definition get_dirent (l : list Z) : dirent := mk_dirent (get16 l 0) (take 14 (drop 2 l)).
Definition dirent_bytes (d : dirent) : list Z := le_bytes 2 (de_inum d) ++ de_name d.

Definition IBLOCK (i : Z) (sb : superblock) : Z := u32 (i / IPB + sb_inodestart sb).
Definition BBLOCK (b : Z) (sb : superblock) : Z := u32 (b / BPB + sb_bmapstart sb).

(** [(struct dinode* )bp->data + inum%IPB], in bytes. *)
Definition dinode_off (inum : Z) : nat := Z.to_nat (DINODE_SIZE * (inum mod IPB)).

Definition get_sb (l : list Z) : superblock :=
  mk_sb (get32 l 0) (get32 l 4) (get32 l 8) (get32 l 12) (get32 l 16) (get32 l 20) (get32 l 24) (get32 l 28).

Section fs.
Context `{B : Build}.
Variable fuel : nat.

(** ** The super block *)

Definition readsb (dev : Z) : M unit :=
  bp <- bread fuel dev 1;;
  b <- getb bp;;
  modify (set_k_sb (get_sb (b_data b)));;
  brelse bp.

Definition fsinit (dev : Z) : M unit :=
  readsb dev;;
  sb <- gets k_sb;;
  if negb (sb_magic sb =? FSMAGIC) then panic "invalid file system"
  else initlog fuel dev.

(** ** Blocks *)

Definition bzero (dev bno : Z) : M unit :=
  bp <- bread fuel dev (u32 bno);;
  modb bp (set_b_data (replicate (Z.to_nat BSIZE) 0));;
  log_write bp;;
  brelse bp.

Definition bit_mask (bi : Z) : Z := Z.shiftl 1 (bi mod 8).
Definition byte_at (data : list Z) (i : Z) : Z := default 0 (data !! Z.to_nat i).
Definition bit_clear (data : list Z) (bi : Z) : bool := Z.land (byte_at data (bi / 8)) (bit_mask bi) =? 0.
Definition set_bit (data : list Z) (bi : Z) : list Z :=
  <[Z.to_nat (bi / 8) := u8 (Z.lor (byte_at data (bi / 8)) (bit_mask bi))]> data.
Definition clear_bit (data : list Z) (bi : Z) : list Z :=
  <[Z.to_nat (bi / 8) := u8 (Z.land (byte_at data (bi / 8)) (Z.lnot (bit_mask bi)))]> data.

(** The inner loop of [balloc]: the first of [k] bits from [bi] that is clear. *)
Fixpoint first_free (k : nat) (data : list Z) (bi : Z) : option Z :=
  match k with
  | O => None
  | S k' => if bit_clear data bi then Some bi else first_free k' data (bi + 1)
  end.

(** The bitmap blocks the outer loop of [balloc] visits. *)
Definition bmap_starts (size : Z) : list Z := (λ k, k * BPB) <$> seqZ 0 ((size + BPB - 1) / BPB).

Definition balloc (dev : Z) : M Z :=
  sb <- gets k_sb;;
  r <- for_until (bmap_starts (sb_size sb)) (λ b,
    bp <- bread fuel dev (BBLOCK b sb);;
    x <- getb bp;;
    match first_free (Z.to_nat (Z.min BPB (sb_size sb - b))) (b_data x) 0 with
    | Some bi =>
        modb bp (λ x, set_b_data (set_bit (b_data x) bi) x);;
        log_write bp;;
        brelse bp;;
        bzero dev (b + bi);;
        ret (Some (b + bi))
    | None => brelse bp;; ret None
    end);;
  match r with
  | Some b => ret b
  | None => printf "balloc: out of blocks
" [];; ret 0
  end.

Definition bfree (dev b : Z) : M unit :=
  sb <- gets k_sb;;
  bp <- bread fuel dev (BBLOCK b sb);;
  x <- getb bp;;
  let bi := b mod BPB in
  if bit_clear (b_data x) bi then panic "freeing free block"
  else
    modb bp (λ x, set_b_data (clear_bit (b_data x) bi) x);;
    log_write bp;;
    brelse bp.

(** ** Inodes *)

Definition iinit : M unit := for_each (seq 0 NINODE) (λ i, initsleeplock (S_inode i)).

(** The table search of [iget]: the entry of the inode, or the first free one. *)
Fixpoint iget_scan (l : list inode) (i : nat) (dev inum : Z) (empty : option nat) : option nat * option nat :=
  match l with
  | [] => (None, empty)
  | ip :: l' =>
      if ((0 <? i_ref ip) && (i_dev ip =? dev) && (i_inum ip =? inum))%bool then (Some i, empty)
      else
        let empty' := match empty with None => if i_ref ip =? 0 then Some i else None | Some _ => empty end in
        iget_scan l' (S i) dev inum empty'
  end.

Definition iget (dev inum : Z) : M nat :=
  acquire L_itable;;
  t <- gets k_itable;;
  match iget_scan t O dev inum None with
  | (Some i, _) =>
      modi i (λ ip, set_i_ref (s32 (i_ref ip + 1)) ip);;
      release L_itable;;
      ret i
  | (None, None) => panic "iget: no inodes"
  | (None, Some i) =>
      modi i (λ ip, set_i_valid 0 (set_i_ref 1 (set_i_inum inum (set_i_dev dev ip))));;
      release L_itable;;
      ret i
  end.

Definition ialloc (dev type : Z) : M (option nat) :=
  sb <- gets k_sb;;
  r <- for_until (seqZ 1 (sb_ninodes sb - 1)) (λ inum,
    bp <- bread fuel dev (IBLOCK inum sb);;
    x <- getb bp;;
    if di_type (get_dinode (b_data x) (dinode_off inum)) =? 0 then
      modb bp (λ x, set_b_data (put16 (dinode_off inum) type
                 (put_at (dinode_off inum) (replicate (Z.to_nat DINODE_SIZE) 0) (b_data x))) x);;
      log_write bp;;
      brelse bp;;
      i <- iget dev inum;;
      ret (Some i)
    else brelse bp;; ret None);;
  match r with
  | Some i => ret (Some i)
  | None => printf "ialloc: no inodes
" [];; ret None
  end.

(** The on-disk copy of an in-memory inode. *)
Definition dinode_of (ip : inode) : dinode :=
  mk_dinode (i_type ip) (i_major ip) (i_minor ip) (i_nlink ip) (i_size ip) (i_addrs ip).

Definition iupdate (i : nat) : M unit :=
  sb <- gets k_sb;;
  ip <- geti i;;
  bp <- bread fuel (i_dev ip) (IBLOCK (i_inum ip) sb);;
  ip <- geti i;;
  modb bp (λ x, set_b_data (put_dinode (dinode_off (i_inum ip)) (dinode_of ip) (b_data x)) x);;
  log_write bp;;
  brelse bp.

Definition ilock (o : option nat) : M unit :=
  match o with
  | None => panic "ilock"
  | Some i =>
      ip <- geti i;;
      if i_ref ip <? 1 then panic "ilock"
      else
        acquiresleep fuel (S_inode i);;
        ip <- geti i;;
        when (i_valid ip =? 0)
          (sb <- gets k_sb;;
           bp <- bread fuel (i_dev ip) (IBLOCK (i_inum ip) sb);;
           x <- getb bp;;
           let d := get_dinode (b_data x) (dinode_off (i_inum ip)) in
           modi i (λ ip, set_i_addrs (di_addrs d) (set_i_size (di_size d) (set_i_nlink (di_nlink d)
             (set_i_minor (di_minor d) (set_i_major (di_major d) (set_i_type (di_type d) ip))))));;
           brelse bp;;
           modi i (set_i_valid 1);;
           if di_type d =? 0 then panic "ilock: no type" else ret tt)
  end.

Definition iunlock (o : option nat) : M unit :=
  match o with
  | None => panic "iunlock"
  | Some i =>
      h <- holdingsleep (S_inode i);;
      ip <- geti i;;
      if (negb h || (i_ref ip <? 1))%bool then panic "iunlock"
      else releasesleep (S_inode i)
  end.

Definition itrunc (i : nat) : M unit :=
  for_each (seq 0 (Z.to_nat NDIRECT)) (λ k,
    ip <- geti i;;
    a <- unwrap (i_addrs ip !! k);;
    when (truthy a)
      (bfree (i_dev ip) a;;
       modi i (λ ip, set_i_addrs (<[k := 0]> (i_addrs ip)) ip)));;
  ip <- geti i;;
  a <- unwrap (i_addrs ip !! Z.to_nat NDIRECT);;
  when (truthy a)
    (bp <- bread fuel (i_dev ip) a;;
     for_each (seq 0 (Z.to_nat NINDIRECT)) (λ j,
       x <- getb bp;;
       let aj := get32 (b_data x) (4 * j) in
       when (truthy aj) (bfree (i_dev ip) aj));;
     brelse bp;;
     bfree (i_dev ip) a;;
     modi i (λ ip, set_i_addrs (<[Z.to_nat NDIRECT := 0]> (i_addrs ip)) ip));;
  modi i (set_i_size 0);;
  iupdate i.

Definition iput (i : nat) : M unit :=
  acquire L_itable;;
  ip <- geti i;;
  when ((i_ref ip =? 1) && truthy (i_valid ip) && (i_nlink ip =? 0))%bool
    (acquiresleep fuel (S_inode i);;
     release L_itable;;
     itrunc i;;
     modi i (set_i_type 0);;
     iupdate i;;
     modi i (set_i_valid 0);;
     releasesleep (S_inode i);;
     acquire L_itable);;
  modi i (λ ip, set_i_ref (s32 (i_ref ip - 1)) ip);;
  release L_itable.

Definition iunlockput (i : nat) : M unit :=
  iunlock (Some i);;
  iput i.

(** ** Inode content *)

Definition bmap (i : nat) (bn : Z) : M Z :=
  ip <- geti i;;
  if bn <? NDIRECT then
    addr <- unwrap (i_addrs ip !! Z.to_nat bn);;
    if addr =? 0 then
      addr <- balloc (i_dev ip);;
      if addr =? 0 then ret 0
      else modi i (λ ip, set_i_addrs (<[Z.to_nat bn := addr]> (i_addrs ip)) ip);; ret addr
    else ret addr
  else
    let bn := bn - NDIRECT in
    if bn <? NINDIRECT then
      addr <- unwrap (i_addrs ip !! Z.to_nat NDIRECT);;
      addr <- (if addr =? 0 then
                 addr <- balloc (i_dev ip);;
                 when (truthy addr) (modi i (λ ip, set_i_addrs (<[Z.to_nat NDIRECT := addr]> (i_addrs ip)) ip));;
                 ret addr
               else ret addr);;
      if addr =? 0 then ret 0
      else
        bp <- bread fuel (i_dev ip) addr;;
        x <- getb bp;;
        let addr := get32 (b_data x) (Z.to_nat (4 * bn)) in
        addr <- (if addr =? 0 then
                   addr <- balloc (i_dev ip);;
                   when (truthy addr)
                     (modb bp (λ x, set_b_data (put32 (Z.to_nat (4 * bn)) addr (b_data x)) x);;
                      log_write bp);;
                   ret addr
                 else ret addr);;
        brelse bp;;
        ret addr
    else panic "bmap: out of range".

(** [struct stat] of stat.h. *)
Record stat := mk_stat { st_dev : Z; st_ino : Z; st_type : Z; st_nlink : Z; st_size : Z }.

Definition stati (i : nat) : M stat :=
  ip <- geti i;;
  ret (mk_stat (s32 (i_dev ip)) (i_inum ip) (i_type ip) (i_nlink ip) (i_size ip)).

(** [readi] copies to a place in user or in kernel memory ([either_copyout]), or to
    a local variable of its caller; [out] does the copy, and the bytes copied are
    returned for the second case. *)
Fixpoint readi_loop (fl : nat) (i : nat) (out : Z → list Z → M Z) (dst off n tot : Z) (acc : list Z) : M (Z * list Z) :=
  match fl with
  | O => stuck
  | S f =>
      if tot <? n then
        addr <- bmap i (off / BSIZE);;
        if addr =? 0 then ret (tot, acc)
        else
          ip <- geti i;;
          bp <- bread fuel (i_dev ip) addr;;
          let m := Z.min (n - tot) (BSIZE - off mod BSIZE) in
          x <- getb bp;;
          let bs := take (Z.to_nat m) (drop (Z.to_nat (off mod BSIZE)) (b_data x)) in
          r <- out dst bs;;
          if r =? -1 then brelse bp;; ret (-1, acc)
          else
            brelse bp;;
            readi_loop f i out (u64 (dst + m)) (u32 (off + m)) n (tot + m) (acc ++ bs)
      else ret (tot, acc)
  end.

Definition blocks_of (n : Z) : nat := Z.to_nat (n / BSIZE + 3).

Definition readi_to (i : nat) (out : Z → list Z → M Z) (dst off n : Z) : M (Z * list Z) :=
  ip <- geti i;;
  if ((i_size ip <? off) || (u32 (off + n) <? off))%bool then ret (0, [])
  else
    let n := if i_size ip <? u32 (off + n) then i_size ip - off else n in
    r <- readi_loop (blocks_of n) i out dst off n 0 [];;
    ret (s32 r.1, r.2).

Definition readi (i : nat) (user_dst : bool) (dst off n : Z) : M Z :=
  r <- readi_to i (either_copyout user_dst) dst off n;;
  ret r.1.

(** [readi(ip, 0, (uint64)&v, off, sizeof(v))] for a local variable [v]. *)
Definition readi_local (i : nat) (off n : Z) : M (Z * list Z) :=
  readi_to i (λ _ _, ret 0) 0 off n.

(** The bytes [either_copyin] stored stay in the buffer when it fails. *)
Fixpoint writei_loop (fl : nat) (i : nat) (inp : Z → Z → M (Z * list Z)) (src off n tot : Z) : M (Z * Z) :=
  match fl with
  | O => stuck
  | S f =>
      if tot <? n then
        addr <- bmap i (off / BSIZE);;
        if addr =? 0 then ret (tot, off)
        else
          ip <- geti i;;
          bp <- bread fuel (i_dev ip) addr;;
          let m := Z.min (n - tot) (BSIZE - off mod BSIZE) in
          r <- inp src m;;
          modb bp (λ x, set_b_data (put_at (Z.to_nat (off mod BSIZE)) r.2 (b_data x)) x);;
          if r.1 =? -1 then brelse bp;; ret (tot, off)
          else
            log_write bp;;
            brelse bp;;
            writei_loop f i inp (u64 (src + m)) (u32 (off + m)) n (tot + m)
      else ret (tot, off)
  end.

Definition writei_from (i : nat) (inp : Z → Z → M (Z * list Z)) (src off n : Z) : M Z :=
  ip <- geti i;;
  if ((i_size ip <? off) || (u32 (off + n) <? off))%bool then ret (-1)
  else if MAXFILE * BSIZE <? u32 (off + n) then ret (-1)
  else
    r <- writei_loop (blocks_of n) i inp src off n 0;;
    ip <- geti i;;
    when (i_size ip <? r.2) (modi i (set_i_size r.2));;
    iupdate i;;
    ret (s32 r.1).

Definition writei (i : nat) (user_src : bool) (src off n : Z) : M Z :=
  writei_from i (either_copyin user_src) src off n.

(** [writei(ip, 0, (uint64)&v, off, sizeof(v))] for a local variable with the bytes [bs]. *)
Definition writei_local (i : nat) (bs : list Z) (off : Z) : M Z :=
  writei_from i (λ a len, ret (0, take (Z.to_nat len) (drop (Z.to_nat a) bs))) 0 off (Z.of_nat (length bs)).

(** ** Directories *)

Definition namecmp (s t : list Z) : Z := strncmp (buf_mem s) 0 (buf_mem t) 0 DIRSIZ.

(** The offsets of a directory's entries. *)
Definition dir_offs (size : Z) : list Z := (λ k, k * DIRENT_SIZE) <$> seqZ 0 ((size + DIRENT_SIZE - 1) / DIRENT_SIZE).

(** Returns the inode and the offset of its entry. *)
Definition dirlookup (i : nat) (name : list Z) : M (option (nat * Z)) :=
  dp <- geti i;;
  if negb (i_type dp =? T_DIR) then panic "dirlookup not DIR"
  else
    for_until (dir_offs (i_size dp)) (λ off,
      r <- readi_local i off DIRENT_SIZE;;
      if negb (r.1 =? DIRENT_SIZE) then panic "dirlookup read"
      else
        let de := get_dirent r.2 in
        if de_inum de =? 0 then ret None
        else if namecmp name (de_name de) =? 0 then
          ip <- iget (i_dev dp) (de_inum de);;
          ret (Some (ip, off))
        else ret None).

(** [strncpy(de.name, name, DIRSIZ)] *)
Definition strncpy_name (name : list Z) : list Z :=
  get_bytes (strncpy (λ _, 0) 0 (buf_mem name) 0 DIRSIZ) 0 (Z.to_nat DIRSIZ).

Definition dirlink (i : nat) (name : list Z) (inum : Z) : M Z :=
  o <- dirlookup i name;;
  match o with
  | Some (ip, _) => iput ip;; ret (-1)
  | None =>
      dp <- geti i;;
      r <- for_until (dir_offs (i_size dp)) (λ off,
        r <- readi_local i off DIRENT_SIZE;;
        if negb (r.1 =? DIRENT_SIZE) then panic "dirlink read"
        else if de_inum (get_dirent r.2) =? 0 then ret (Some off)
        else ret None);;
      let off := match r with Some off => off | None => Z.of_nat (length (dir_offs (i_size dp))) * DIRENT_SIZE end in
      n <- writei_local i (dirent_bytes (mk_dirent (u16 inum) (strncpy_name name))) off;;
      if negb (n =? DIRENT_SIZE) then ret (-1) else ret 0
  end.

(** ** Paths *)

(** A path is the list of its characters up to its NUL; [name] is the caller's
    buffer of [DIRSIZ] bytes. *)
Fixpoint skip_slashes (path : list Z) : list Z :=
  match path with
  | c :: path' => if c =? 47 then skip_slashes path' else path
  | [] => []
  end.

Fixpoint span_elem (path : list Z) : list Z * list Z :=
  match path with
  | c :: path' => if c =? 47 then ([], path) else let '(s, rest) := span_elem path' in (c :: s, rest)
  | [] => ([], [])
  end.

Definition skipelem (path name : list Z) : option (list Z * list Z) :=
  match skip_slashes path with
  | [] => None
  | path =>
      let '(s, rest) := span_elem path in
      let len := Z.of_nat (length s) in
      let name' := if DIRSIZ <=? len then put_at 0 (take (Z.to_nat DIRSIZ) s) name
                   else put_at 0 (s ++ [0]) name in
      Some (skip_slashes rest, name')
  end.

Fixpoint namex_loop (fl : nat) (ip : nat) (path : list Z) (nameiparent : bool) (name : list Z) : M (option nat * list Z) :=
  match fl with
  | O => stuck
  | S f =>
      match skipelem path name with
      | None => if nameiparent then iput ip;; ret (None, name) else ret (Some ip, name)
      | Some (path, name) =>
          ilock (Some ip);;
          dp <- geti ip;;
          if negb (i_type dp =? T_DIR) then iunlockput ip;; ret (None, name)
          else if (nameiparent && bool_decide (path = []))%bool then iunlock (Some ip);; ret (Some ip, name)
          else
            o <- dirlookup ip name;;
            match o with
            | None => iunlockput ip;; ret (None, name)
            | Some (next, _) => iunlockput ip;; namex_loop f next path nameiparent name
            end
      end
  end.

Definition namex (path : list Z) (nameiparent : bool) (name : list Z) : M (option nat * list Z) :=
  ip <- (if bool_decide (head path = Some 47) then iget ROOTDEV ROOTINO
         else i <- curproc;; p <- getp i;; c <- unwrap (p_cwd p);; idup c);;
  namex_loop (S (length path)) ip path nameiparent name.

(** [uninit] is what the local [name] of [namei] holds before the call. *)
Definition namei (uninit : list Z) (path : list Z) : M (option nat) :=
  r <- namex path false uninit;;
  ret r.1.

Definition nameiparent (path name : list Z) : M (option nat * list Z) := namex path true name.

End fs.
