(* ===== verification/FsData.v ===== *)
(** * Names, tables and structures of the file system

    The parts of [Fs] that do not touch the disk: how [skipelem] takes a path apart,
    the inode table and its reference counts, the encodings of on-disk inodes, and
    the bits of the free map. *)

From Stdlib Require Import ZArith Lia.
From S2P Require Import Prelude Machine Kernel Boot CString Printf Kalloc Vm ProcTable Seq Log Fs.

Lemma length_put_at off bs l : (off + length bs ≤ length l)%nat → length (put_at off bs l) = length l.
Proof. intros H. unfold put_at. rewrite !length_app, length_take, length_drop. lia. Qed.

(** ** Path names

    The elements of a path: the maximal runs of characters other than '/'. *)

Definition element (e : list Z) : list (list Z) := if decide (e = []) then [] else [e].

Fixpoint split_path (path cur : list Z) : list (list Z) :=
  match path with
  | [] => element cur
  | c :: path' => if c =? 47 then element cur ++ split_path path' [] else split_path path' (cur ++ [c])
  end.

Definition elements (path : list Z) : list (list Z) := split_path path [].

(** The characters of a buffer up to its NUL or its end. *)
Fixpoint c_string (l : list Z) : list Z :=
  match l with
  | [] => []
  | c :: l' => if c =? 0 then [] else c :: c_string l'
  end.

Lemma skip_slashes_elements path : elements (skip_slashes path) = elements path.
Proof.
  induction path as [|c path IH]; [done|]. simpl. case_test; [|done].
  rewrite IH. unfold elements. simpl. by rewrite (proj2 (Z.eqb_eq _ _)).
Qed.

Lemma skip_slashes_head path c : head (skip_slashes path) = Some c → c ≠ 47.
Proof. induction path as [|d path IH]; [done|]. simpl. case_test; [done|]. intros [= ->]. done. Qed.

Lemma skip_slashes_length path : (length (skip_slashes path) ≤ length path)%nat.
Proof. induction path as [|c path IH]; [done|]. simpl. case_test; simpl; lia. Qed.

Lemma span_elem_app path s rest : span_elem path = (s, rest) → path = s ++ rest.
Proof.
  revert s rest. induction path as [|c path IH]; intros s rest; simpl; [by intros [= <- <-]|].
  case_test; [by intros [= <- <-]|]. destruct (span_elem path) as [s' r']. intros [= <- <-]. simpl. by rewrite <- IH.
Qed.

Lemma span_elem_split path s rest cur :
  span_elem path = (s, rest) → split_path path cur = element (cur ++ s) ++ elements rest.
Proof.
  revert s rest cur. induction path as [|c path IH]; intros s rest cur; simpl.
  - intros [= <- <-]. rewrite app_nil_r. change (elements []) with (@nil (list Z)). by rewrite app_nil_r.
  - case_test.
    + intros [= <- <-]. rewrite app_nil_r. unfold elements. simpl. by rewrite (proj2 (Z.eqb_eq _ _)).
    + destruct (span_elem path) as [s' r'] eqn:E'. intros [= <- <-]. rewrite (IH _ _ (cur ++ [c]) eq_refl).
      by rewrite <- app_assoc.
Qed.

Lemma c_string_app s l : 0 ∉ s → c_string (s ++ 0 :: l) = s.
Proof.
  induction s as [|c s IH]; intros H; [done|]. simpl. rewrite (proj2 (Z.eqb_neq _ _)) by set_solver.
  rewrite IH by set_solver. done.
Qed.

Lemma c_string_full s : 0 ∉ s → c_string s = s.
Proof.
  induction s as [|c s IH]; intros H; [done|]. simpl. rewrite (proj2 (Z.eqb_neq _ _)) by set_solver.
  rewrite IH by set_solver. done.
Qed.

Lemma elements_nonempty path c : head path = Some c → c ≠ 47 → elements path ≠ [].
Proof.
  intros Hh Hc. destruct path as [|d path]; [done|]. simpl in Hh. injection Hh as ->.
  destruct (span_elem (c :: path)) as [s rest] eqn:E. unfold elements.
  rewrite (span_elem_split _ _ _ _ E). simpl in E. rewrite (proj2 (Z.eqb_neq _ _)) in E by done.
  destruct (span_elem path) as [s' r']. injection E as <- <-. unfold element. by rewrite decide_False.
Qed.

Lemma elements_rest path : elements path = [] ↔ skip_slashes path = [].
Proof.
  rewrite <- skip_slashes_elements. split; [|by intros ->]. intros H.
  destruct (skip_slashes path) as [|c p] eqn:E; [done|]. exfalso. eapply (elements_nonempty (c :: p)); [done| |done].
  apply (skip_slashes_head path). by rewrite E.
Qed.

Lemma skip_slashes_idem path : skip_slashes (skip_slashes path) = skip_slashes path.
Proof. induction path as [|c path IH]; [done|]. simpl. case_test; [done|]. simpl. by rewrite (proj2 (Z.eqb_neq _ _)). Qed.

(** [skipelem] takes a path apart as the file system means it: it returns null
    exactly when the path has no element; otherwise the name it stores is the first
    element (cut to [DIRSIZ] bytes, terminated when it is shorter) and the path it
    returns has the other elements, has no leading slash, is empty exactly when the
    element was the last, and is shorter, so that a path walk ends. *)
Theorem skipelem_correct path name :
  0 ∉ path → length name = Z.to_nat DIRSIZ →
  match skipelem path name with
  | None => elements path = []
  | Some (rest, name') =>
      ∃ e es, elements path = e :: es ∧ elements rest = es ∧ (rest = [] ↔ es = []) ∧
        c_string name' = take (Z.to_nat DIRSIZ) e ∧ length name' = Z.to_nat DIRSIZ ∧
        head rest ≠ Some 47 ∧ (length rest < length path)%nat ∧ 0 ∉ rest
  end.
Proof.
  intros H0 Hn. unfold skipelem. pose proof (skip_slashes_length path) as Hlen.
  assert (0 ∉ skip_slashes path) as H0'.
  { clear -H0. induction path as [|c path IH]; [done|]. simpl. case_test; [apply IH; set_solver|done]. }
  rewrite <- (skip_slashes_elements path). destruct (skip_slashes path) as [|c p] eqn:E; [done|].
  assert (c ≠ 47) as Hc by (apply (skip_slashes_head path); by rewrite E).
  destruct (span_elem (c :: p)) as [s rest] eqn:Es. pose proof (span_elem_app _ _ _ Es) as Happ.
  assert (s ≠ []) as Hs.
  { simpl in Es. rewrite (proj2 (Z.eqb_neq _ _)) in Es by done. destruct (span_elem p). by injection Es as <- <-. }
  assert (0 ∉ s ∧ 0 ∉ rest) as [Hs0 Hr0] by (rewrite Happ in H0'; set_solver).
  unfold elements at 1. rewrite (span_elem_split _ _ _ _ Es). simpl ([] ++ s). unfold element. rewrite decide_False by done.
  exists s, (elements rest). split_and!; try done.
  - apply skip_slashes_elements.
  - by rewrite elements_rest.
  - unfold put_at, DIRSIZ in *. simpl take at 1 3. simpl app at 1 3. case_test; simpl in *.
    + rewrite drop_ge, app_nil_r by (rewrite length_take; lia). apply c_string_full. intros H. apply Hs0.
      eapply elem_of_take in H as (i & Hi & _). by eapply list_elem_of_lookup_2.
    + rewrite <- app_assoc. simpl. rewrite c_string_app by done. by rewrite take_ge by lia.
  - unfold DIRSIZ in *. case_test; rewrite length_put_at; try done;
      rewrite ?length_take, ?length_app; simpl length; lia.
  - intros H. by apply (skip_slashes_head rest) in H.
  - pose proof (skip_slashes_length rest). apply (f_equal length) in Happ. rewrite length_app in Happ. simpl in *.
    destruct s; [done|simpl in *; lia].
  - clear -Hr0. induction rest as [|d rest IH]; [done|]. simpl. case_test; [apply IH; set_solver|done].
Qed.

Lemma skipelem_correct_witness :
  ∃ rest name e es, skipelem (cstr "//usr//bin") (replicate 14 7) = Some (rest, name) ∧
    elements (cstr "//usr//bin") = e :: es ∧ c_string name = take (Z.to_nat DIRSIZ) e ∧ elements rest = es.
Proof.
  pose proof (skipelem_correct (cstr "//usr//bin") (replicate 14 7) ltac:(vm_compute; set_solver) eq_refl) as H.
  destruct (skipelem (cstr "//usr//bin") (replicate 14 7)) as [[rest name]|] eqn:E; [|discriminate E].
  destruct H as (e & es & H1 & H2 & _ & H3 & _). exists rest, name, e, es. split_and!; [reflexivity|exact H1|exact H3|exact H2].
Defined.

(** ** The inode table *)

Definition is_inode (dev inum : Z) (ip : inode) : bool :=
  ((0 <? i_ref ip) && (i_dev ip =? dev) && (i_inum ip =? inum))%bool.

(** An inode has at most one entry in the table. *)
Definition itable_ok (t : list inode) : Prop :=
  (∀ i ip, t !! i = Some ip → 0 ≤ i_ref ip) ∧
  ∀ i j ip jp, t !! i = Some ip → t !! j = Some jp → 0 < i_ref ip → is_inode (i_dev ip) (i_inum ip) jp = true → i = j.

Lemma iget_scan_spec l i0 dev inum empty :
  match iget_scan l i0 dev inum empty with
  | (Some i, _) => ∃ k ip, i = (i0 + k)%nat ∧ l !! k = Some ip ∧ is_inode dev inum ip = true
  | (None, e) => (∀ k ip, l !! k = Some ip → is_inode dev inum ip = false) ∧
      match empty with
      | Some _ => e = empty
      | None => match e with
                | Some i => ∃ k ip, i = (i0 + k)%nat ∧ l !! k = Some ip ∧ i_ref ip = 0
                | None => ∀ k ip, l !! k = Some ip → i_ref ip ≠ 0
                end
      end
  end.
Proof.
  revert i0 empty. induction l as [|ip l IH]; intros i0 empty; simpl; [by destruct empty|].
  fold (is_inode dev inum ip). destruct (is_inode dev inum ip) eqn:E.
  { exists 0%nat, ip. rewrite Nat.add_0_r. done. }
  set (e' := match empty with None => _ | Some _ => _ end).
  specialize (IH (S i0) e'). destruct (iget_scan l (S i0) dev inum e') as [[i|] e].
  { destruct IH as (k & jp & -> & Hk & Hm). exists (S k), jp. split; [lia|done]. }
  destruct IH as [Hno He]. split; [by intros [|k] jp; naive_solver|].
  subst e'. destruct empty as [x|]; [done|]. destruct (Z.eqb_spec (i_ref ip) 0) as [H0|H0].
  - subst e. exists 0%nat, ip. rewrite Nat.add_0_r. done.
  - destruct e as [i|].
    + destruct He as (k & jp & -> & Hk & Hr). exists (S k), jp. split; [lia|done].
    + intros [|k] jp; simpl; naive_solver.
Qed.

Lemma alter_insert_at {A} (f : A → A) (i : nat) (l : list A) x : l !! i = Some x → alter f i l = <[i := f x]> l.
Proof.
  intros H. apply list_eq. intros j. rewrite list_lookup_insert. case_decide as E.
  - destruct E as [-> _]. by rewrite list_lookup_alter_eq, H.
  - apply list_lookup_alter_ne. intros ->. apply E. split; [done|]. by eapply lookup_lt_Some.
Qed.

Lemma itable_ok_insert t i ip ip' :
  itable_ok t → t !! i = Some ip → 0 < i_ref ip' →
  (∀ j jp, j ≠ i → t !! j = Some jp → is_inode (i_dev ip') (i_inum ip') jp = false) →
  itable_ok (<[i := ip']> t).
Proof.
  intros [Hge Huniq] Hi Hr Hno. pose proof (lookup_lt_Some _ _ _ Hi). split.
  - intros j jp. rewrite list_lookup_insert. case_decide; [|apply Hge]. intros [= <-]. lia.
  - intros a b ap bp. rewrite !list_lookup_insert. intros Ha Hb Hra Hm.
    destruct (decide (a = i)) as [->|Ea], (decide (b = i)) as [->|Eb]; [done|..].
    + rewrite decide_False in Hb by naive_solver. rewrite decide_True in Ha by done. injection Ha as <-.
      by rewrite (Hno b bp) in Hm.
    + rewrite decide_False in Ha by naive_solver. rewrite decide_True in Hb by done. injection Hb as <-.
      exfalso. unfold is_inode in Hm. bool_prop.
      assert (is_inode (i_dev ip') (i_inum ip') ap = true) as Hx.
      { unfold is_inode. rewrite !andb_true_iff, Z.ltb_lt, !Z.eqb_eq. lia. }
      by rewrite (Hno a ap) in Hx.
    + rewrite decide_False in Ha by naive_solver. rewrite decide_False in Hb by naive_solver. by eapply Huniq.
Qed.

Lemma iget_ok dev inum s :
  L_itable ∉ k_held s → itable_ok (k_itable s) → (∀ i ip, k_itable s !! i = Some ip → i_ref ip < 2 ^ 31 - 1) →
  if decide (Forall (λ ip, i_ref ip ≠ 0 ∧ is_inode dev inum ip = false) (k_itable s))
  then iget dev inum s = Panic "iget: no inodes"
  else ∃ i ip ip', k_itable s !! i = Some ip ∧
    iget dev inum s = Ret i (set_k_itable (<[i := ip']> (k_itable s)) s) ∧ itable_ok (<[i := ip']> (k_itable s)) ∧
    (i_dev ip' = dev ∧ i_inum ip' = inum ∧ 0 < i_ref ip') ∧
    if is_inode dev inum ip then ip' = set_i_ref (i_ref ip + 1) ip
    else i_ref ip = 0 ∧ ip' = set_i_valid 0 (set_i_ref 1 (set_i_inum inum (set_i_dev dev ip))).
Proof.
  intros Hh [Hge Huniq] Hmax. unfold iget. erewrite bind_step by (by apply acquire_free).
  erewrite bind_step by reflexivity. cbn [k_itable set_k_held].
  pose proof (iget_scan_spec (k_itable s) 0 dev inum None) as Hscan.
  destruct (iget_scan (k_itable s) 0 dev inum None) as [[i|] e].
  - destruct Hscan as (k & ip & -> & Hk & Hm). simpl. rewrite decide_False.
    2: { intros HF. eapply Forall_lookup_1 in HF as [_ HF]; [|done]. congruence. }
    pose proof Hm as Hm'. unfold is_inode in Hm'. bool_prop. pose proof (Hmax _ _ Hk).
    exists k, ip, (set_i_ref (i_ref ip + 1) ip). split; [done|]. split; [|split].
    + erewrite bind_step by reflexivity. erewrite bind_step by (by apply release_held). unfold ret. f_equal.
      apply k_ext; try reflexivity. simpl. rewrite (alter_insert_at _ _ _ _ Hk). by rewrite s32_small by lia.
    + apply (itable_ok_insert _ _ ip); simpl; [done..|lia|]. intros j jp Hj Hjp.
      destruct (is_inode _ _ jp) eqn:E; [|done]. exfalso. apply Hj. symmetry. by eapply Huniq.
    + rewrite Hm. simpl. split_and!; [done..|lia|done].
  - destruct Hscan as [Hno He]. destruct e as [i|].
    + destruct He as (k & ip & -> & Hk & Hr). simpl. rewrite decide_False.
      2: { intros HF. eapply Forall_lookup_1 in HF as [HF _]; [|done]. congruence. }
      exists k, ip. eexists. split; [done|]. split; [|split].
      * erewrite bind_step by reflexivity. erewrite bind_step by (by apply release_held). unfold ret. f_equal.
        apply k_ext; try reflexivity. simpl. rewrite (alter_insert_at _ _ _ _ Hk). done.
      * apply (itable_ok_insert _ _ ip); simpl; [done..|]. intros j jp _ Hjp. by apply (Hno j).
      * rewrite (Hno k ip Hk). simpl. done.
    + rewrite decide_True; [done|]. apply Forall_lookup_2. intros k ip Hk. split; [by apply (He k)|by apply (Hno k)].
Qed.

(** C35: [iget] keeps at most one entry per inode: an inode that is in the table is
    found and gets one more reference, any other gets a free entry, with one
    reference and marked as not read from the disk; no other entry changes, no two
    referenced entries are of the same inode afterwards, and [iget] panics exactly
    when the inode is not in the table and no entry is free. *)
Theorem iget_correct dev inum s :
  L_itable ∉ k_held s → itable_ok (k_itable s) → (∀ i ip, k_itable s !! i = Some ip → i_ref ip < 2 ^ 31 - 1) →
  if decide (Forall (λ ip, i_ref ip ≠ 0 ∧ is_inode dev inum ip = false) (k_itable s))
  then iget dev inum s = Panic "iget: no inodes"
  else ∃ i ip ip', k_itable s !! i = Some ip ∧
    iget dev inum s = Ret i (set_k_itable (<[i := ip']> (k_itable s)) s) ∧ itable_ok (<[i := ip']> (k_itable s)) ∧
    (i_dev ip' = dev ∧ i_inum ip' = inum ∧ 0 < i_ref ip') ∧
    if is_inode dev inum ip then ip' = set_i_ref (i_ref ip + 1) ip
    else i_ref ip = 0 ∧ ip' = set_i_valid 0 (set_i_ref 1 (set_i_inum inum (set_i_dev dev ip))).
Proof. apply iget_ok. Qed.

Lemma iget_correct_witness :
  ∃ s', iget ROOTDEV ROOTINO bss = Ret 0%nat s' ∧ itable_ok (k_itable s').
Proof.
  assert (∀ i ip, k_itable bss !! i = Some ip → ip = zero_inode) as Hz.
  { intros i ip H. by apply lookup_replicate_1 in H as [-> _]. }
  pose proof (iget_correct ROOTDEV ROOTINO bss ltac:(apply not_elem_of_nil)) as H.
  destruct H as (i & ip & ip' & Hi & Hrun & Hok & _).
  - split; [by intros i ip ->%Hz|]. intros i j ip jp ->%Hz ->%Hz Hr. by vm_compute in Hr.
  - by intros i ip ->%Hz.
  - exists (set_k_itable (<[i := ip']> (k_itable bss)) bss). split; [|exact Hok].
    rewrite Hrun. f_equal. vm_compute in Hrun. by injection Hrun.
Defined.

(** ** Structures in a block *)

Lemma put_at_inside off bs l a n :
  (off ≤ length l)%nat → (a + n ≤ length bs)%nat →
  take n (drop (off + a) (put_at off bs l)) = take n (drop a bs).
Proof.
  intros Ho Hn. unfold put_at. rewrite <- drop_drop, drop_app_length' by (rewrite length_take; lia).
  rewrite drop_app_le by lia. apply take_app_le. rewrite length_drop. lia.
Qed.

Lemma put_at_outside off bs l a n :
  (off + length bs ≤ length l)%nat → (a + n ≤ off ∨ off + length bs ≤ a)%nat →
  take n (drop a (put_at off bs l)) = take n (drop a l).
Proof.
  intros Ho H. apply list_eq. intros i. destruct (decide (i < n)%nat) as [Hi|Hi]; [|by rewrite !lookup_take_ge by lia].
  rewrite !lookup_take_lt, !lookup_drop by done. unfold put_at. destruct H as [H|H].
  - rewrite lookup_app_l by (rewrite length_take; lia). by rewrite lookup_take_lt by lia.
  - rewrite lookup_app_r by (rewrite length_take; lia). rewrite lookup_app_r by (rewrite length_take; lia).
    rewrite lookup_drop. f_equal. rewrite length_take. lia.
Qed.

Lemma length_addr_bytes l : length (addr_bytes l) = (4 * length l)%nat.
Proof. induction l as [|x l IH]; [done|]. cbn [addr_bytes]. rewrite length_app, IH, length_le_bytes. simpl length. lia. Qed.

Lemma addr_bytes_at l k v : l !! k = Some v → take 4 (drop (4 * k) (addr_bytes l)) = le_bytes 4 v.
Proof.
  revert k. induction l as [|x l IH]; intros [|k]; simpl lookup; try done.
  - intros [= ->]. cbn [addr_bytes]. rewrite Nat.mul_0_r, drop_0.
    by rewrite take_app_length' by (by rewrite length_le_bytes).
  - intros H. cbn [addr_bytes]. replace (4 * S k)%nat with (4 + 4 * k)%nat by lia.
    rewrite <- drop_drop, drop_app_length' by (by rewrite length_le_bytes). by apply IH.
Qed.

(** The fields of an on-disk inode fit their types. *)
Record dinode_typed (d : dinode) : Prop := {
  dt_type : -32768 ≤ di_type d < 32768;
  dt_major : -32768 ≤ di_major d < 32768;
  dt_minor : -32768 ≤ di_minor d < 32768;
  dt_nlink : -32768 ≤ di_nlink d < 32768;
  dt_size : 0 ≤ di_size d < 2 ^ 32;
  dt_len : length (di_addrs d) = 13%nat;
  dt_addrs : Forall (λ a, 0 ≤ a < 2 ^ 32) (di_addrs d)
}.

Lemma length_dinode_bytes d : length (di_addrs d) = 13%nat → length (dinode_bytes d) = 64%nat.
Proof. intros H. unfold dinode_bytes. rewrite !length_app, !length_le_bytes, length_addr_bytes, H. done. Qed.

Lemma s16_bytes v : -32768 ≤ v < 32768 → s16 (le_val (le_bytes 2 v)) = v.
Proof.
  intros H. rewrite le_val_bytes. unfold s16, u16. change (256 ^ Z.of_nat 2) with 65536.
  rewrite Z.mod_mod by lia. case_test; zarith.
Qed.

Lemma u32_bytes v : 0 ≤ v < 2 ^ 32 → le_val (le_bytes 4 v) = v.
Proof. intros H. rewrite le_val_bytes. change (256 ^ Z.of_nat 4) with (2 ^ 32). by rewrite Z.mod_small. Qed.

Lemma get_put_dinode off d l :
  dinode_typed d → (off + 64 ≤ length l)%nat → get_dinode (put_dinode off d l) off = d.
Proof.
  intros [H1 H2 H3 H4 H5 H6 H7] Hl. pose proof (length_dinode_bytes d H6) as Hlen.
  unfold get_dinode, put_dinode, get16, get32.
  pose proof (put_at_inside off (dinode_bytes d) l 0 2 ltac:(lia) ltac:(rewrite Hlen; lia)) as H0.
  rewrite Nat.add_0_r in H0. rewrite H0, !put_at_inside by (rewrite ?Hlen; lia).
  assert (∀ k, (k < 13)%nat → take 4 (drop (off + (12 + 4 * k)) (put_at off (dinode_bytes d) l)) =
    take 4 (drop (4 * k) (addr_bytes (di_addrs d)))) as Ha.
  { intros k Hk. rewrite put_at_inside by (rewrite ?Hlen; lia). rewrite <- drop_drop. unfold dinode_bytes.
    rewrite !app_assoc. rewrite drop_app_length'; [done|]. by rewrite !length_app, !length_le_bytes. }
  destruct d as [t ma mi nl sz ad]. cbn [di_type di_major di_minor di_nlink di_size di_addrs] in *.
  f_equal.
  - by apply s16_bytes.
  - by apply s16_bytes.
  - by apply s16_bytes.
  - by apply s16_bytes.
  - by apply u32_bytes.
  - apply list_eq. intros k. rewrite list_lookup_fmap. destruct (decide (k < 13)%nat) as [Hk|Hk].
    + rewrite lookup_seq_lt by done. cbn [fmap option_fmap option_map].
      rewrite Nat.add_0_l, <- Nat.add_assoc, Ha by done.
      destruct (lookup_lt_is_Some_2 ad k) as [v Hv]; [lia|]. rewrite Hv, (addr_bytes_at _ _ _ Hv). f_equal.
      apply u32_bytes. by eapply Forall_lookup_1 in H7.
    + rewrite !(proj2 (lookup_ge_None _ _)) by (rewrite ?length_seq; lia). done.
Qed.

Lemma get_put_dinode_ne off off' d l :
  length (di_addrs d) = 13%nat → (off + 64 ≤ length l)%nat → (off' + 64 ≤ off ∨ off + 64 ≤ off')%nat →
  get_dinode (put_dinode off d l) off' = get_dinode l off'.
Proof.
  intros H6 Hl Ho. pose proof (length_dinode_bytes d H6) as Hlen. unfold get_dinode, put_dinode, get16, get32.
  rewrite !put_at_outside by (rewrite ?Hlen; lia). f_equal. apply list_fmap_ext. intros i k Hk.
  apply lookup_seq in Hk as [-> Hk]. by rewrite put_at_outside by (rewrite ?Hlen; lia).
Qed.

(** ** The free map *)

Definition used (sb : superblock) (B : Z → option (list Z)) (b : Z) : bool :=
  match B (BBLOCK b sb) with
  | Some data => negb (bit_clear data (b mod BPB))
  | None => false
  end.

Lemma bit_clear_testbit data bi : 0 ≤ bi → bit_clear data bi = negb (Z.testbit (byte_at data (bi / 8)) (bi mod 8)).
Proof.
  intros Hb. unfold bit_clear, bit_mask. set (x := byte_at _ _). assert (0 ≤ bi mod 8) as Hk by (apply Z.mod_pos_bound; lia).
  rewrite Z.shiftl_1_l. destruct (Z.testbit x (bi mod 8)) eqn:E; simpl.
  - apply Z.eqb_neq. intros H. apply (f_equal (λ y, Z.testbit y (bi mod 8))) in H.
    rewrite Z.land_spec, E, Z.pow2_bits_true, Z.bits_0 in H by done. done.
  - apply Z.eqb_eq. apply Z.bits_inj'. intros j Hj. rewrite Z.land_spec, Z.bits_0, Z.pow2_bits_eqb by done.
    destruct (Z.eqb_spec (bi mod 8) j) as [<-|]; [by rewrite E|]. by rewrite andb_false_r.
Qed.

Lemma byte_testbit_u8 x j : 0 ≤ j < 8 → Z.testbit (u8 x) j = Z.testbit x j.
Proof. intros H. unfold u8. change 256 with (2 ^ 8). apply Z.mod_pow2_bits_low. lia. Qed.

Lemma byte_at_insert data i j v :
  0 ≤ i → 0 ≤ j → (Z.to_nat i < length data)%nat →
  byte_at (<[Z.to_nat i := v]> data) j = if i =? j then v else byte_at data j.
Proof.
  intros Hi Hj Hl. unfold byte_at. destruct (Z.eqb_spec i j) as [->|E].
  - by rewrite list_lookup_insert_eq.
  - rewrite list_lookup_insert_ne by lia. done.
Qed.

Lemma bit_index bi bj : 0 ≤ bi → 0 ≤ bj → bi / 8 = bj / 8 → bi mod 8 = bj mod 8 → bi = bj.
Proof. intros. zarith. Qed.

Lemma bit_upd data bi bj v :
  length data = 1024%nat → 0 ≤ bi < BPB → 0 ≤ bj < BPB →
  (∀ k, 0 ≤ k < 8 → k ≠ bi mod 8 → Z.testbit v k = Z.testbit (byte_at data (bi / 8)) k) →
  bit_clear (<[Z.to_nat (bi / 8) := v]> data) bj =
  if bi =? bj then negb (Z.testbit v (bi mod 8)) else bit_clear data bj.
Proof.
  intros Hl Hi Hj Hv. unfold BPB, BSIZE in *. assert (bi / 8 < 1024) by (apply Z.div_lt_upper_bound; lia).
  pose proof (Z.div_pos bi 8). pose proof (Z.div_pos bj 8). pose proof (Z.mod_pos_bound bj 8).
  rewrite !bit_clear_testbit by lia. rewrite byte_at_insert by lia.
  destruct (Z.eqb_spec bi bj) as [->|E]; [by rewrite Z.eqb_refl|].
  destruct (Z.eqb_spec (bi / 8) (bj / 8)) as [Ed|Ed]; [|done].
  rewrite Hv, Ed; [done|lia|]. intros Em. apply E. apply bit_index; lia.
Qed.

Lemma set_bit_spec data bi bj :
  length data = 1024%nat → 0 ≤ bi < BPB → 0 ≤ bj < BPB →
  bit_clear (set_bit data bi) bj = if bi =? bj then false else bit_clear data bj.
Proof.
  intros Hl Hi Hj. pose proof (Z.mod_pos_bound bi 8 ltac:(lia)) as Hm. unfold set_bit, bit_mask. rewrite Z.shiftl_1_l.
  rewrite bit_upd by (try done; intros k Hk Hne; rewrite byte_testbit_u8, Z.lor_spec, Z.pow2_bits_false by lia;
    apply orb_false_r).
  rewrite byte_testbit_u8, Z.lor_spec, Z.pow2_bits_true, orb_true_r by lia. done.
Qed.

Lemma clear_bit_spec data bi bj :
  length data = 1024%nat → 0 ≤ bi < BPB → 0 ≤ bj < BPB →
  bit_clear (clear_bit data bi) bj = if bi =? bj then true else bit_clear data bj.
Proof.
  intros Hl Hi Hj. pose proof (Z.mod_pos_bound bi 8 ltac:(lia)) as Hm. unfold clear_bit, bit_mask. rewrite Z.shiftl_1_l.
  rewrite bit_upd by (try done; intros k Hk Hne; rewrite byte_testbit_u8, Z.land_spec, Z.lnot_spec, Z.pow2_bits_false by lia;
    apply andb_true_r).
  rewrite byte_testbit_u8, Z.land_spec, Z.lnot_spec, Z.pow2_bits_true, andb_false_r by lia. done.
Qed.

Lemma first_free_spec k data bi :
  match first_free k data bi with
  | Some j => bi ≤ j < bi + Z.of_nat k ∧ bit_clear data j = true ∧ ∀ j', bi ≤ j' < j → bit_clear data j' = false
  | None => ∀ j', bi ≤ j' < bi + Z.of_nat k → bit_clear data j' = false
  end.
Proof.
  revert bi. induction k as [|k IH]; intros bi; cbn [first_free]; [lia|].
  destruct (bit_clear data bi) eqn:E; [split_and!; [lia|lia|done|lia]|].
  specialize (IH (bi + 1)). destruct (first_free k data (bi + 1)) as [j|].
  - destruct IH as (H1 & H2 & H3). split_and!; [lia|lia|done|]. intros j' Hj'.
    destruct (decide (j' = bi)) as [->|]; [done|]. apply H3. lia.
  - intros j' Hj'. destruct (decide (j' = bi)) as [->|]; [done|]. apply IH. lia.
Qed.

(** The free map of a disk of [sb_size] blocks: it is on the disk, and marks itself
    and the boot block as used. *)
Record bitmap_ok (sb : superblock) (B : Z → option (list Z)) : Prop := {
  bm_size : 0 < sb_size sb < 2 ^ 31 - BPB;
  bm_start : 0 ≤ sb_bmapstart sb ∧ sb_bmapstart sb + sb_size sb / BPB < sb_size sb;
  bm_block m : 0 ≤ m < sb_size sb → ∃ data, B m = Some data ∧ length data = 1024%nat;
  bm_boot : used sb B 0 = true;
  bm_self b : 0 ≤ b < sb_size sb → used sb B (BBLOCK b sb) = true
}.

Lemma bblock_range sb B b : bitmap_ok sb B → 0 ≤ b < sb_size sb →
  BBLOCK b sb = b / BPB + sb_bmapstart sb ∧ 0 ≤ BBLOCK b sb < sb_size sb.
Proof.
  intros [Hs Hst _ _ _] Hb. unfold BBLOCK. unfold BPB, BSIZE in *.
  assert (0 ≤ b / (1024 * 8) ≤ sb_size sb / (1024 * 8)).
  { split; [apply Z.div_pos; lia|apply Z.div_le_mono; lia]. }
  rewrite u32_small by lia. lia.
Qed.

Lemma used_data sb B b data : B (BBLOCK b sb) = Some data → used sb B b = negb (bit_clear data (b mod BPB)).
Proof. intros H. unfold used. by rewrite H. Qed.
