(* ===== verification/FsAlloc.v ===== *)
(** * Allocating blocks

    [balloc] and [bfree] of [Fs] inside a transaction, for a caller that may hold
    other buffers ([bmap] and [itrunc] hold the indirect block of a file). *)

From Stdlib Require Import ZArith Lia.
From S2P Require Import Prelude Machine Kernel Boot CString Printf Kalloc Vm ProcTable Seq Sleeplock Virtio Bio Log Crash Trans File Fs FsData.

Lemma used_upd sb B B' b data data' v :
  bitmap_ok sb B → 0 ≤ b < sb_size sb → B (BBLOCK b sb) = Some data →
  (∀ m, B' m = if decide (m = BBLOCK b sb) then Some data' else B m) →
  (∀ bj, 0 ≤ bj < BPB → bit_clear data' bj = if b mod BPB =? bj then v else bit_clear data bj) →
  ∀ b', 0 ≤ b' < sb_size sb → used sb B' b' = if b =? b' then negb v else used sb B b'.
Proof.
  intros Hok Hb Hd HB Hbit b' Hb'. destruct (bblock_range _ _ _ Hok Hb) as [E _].
  destruct (bblock_range _ _ _ Hok Hb') as [E' _].
  assert (0 ≤ b' mod BPB < BPB) as Hm by (apply Z.mod_pos_bound; done).
  destruct (decide (BBLOCK b' sb = BBLOCK b sb)) as [EB|EB].
  - rewrite (used_data sb B' b' data') by (by rewrite HB, decide_True).
    rewrite Hbit by done. rewrite (used_data sb B b' data) by (by rewrite EB).
    destruct (Z.eqb_spec b b') as [->|Hne]; [by rewrite Z.eqb_refl|].
    rewrite (proj2 (Z.eqb_neq _ _)); [done|]. intros Hmm. apply Hne.
    assert (b / BPB = b' / BPB) by lia. rewrite (Z.div_mod b BPB), (Z.div_mod b' BPB) by done. lia.
  - unfold used. rewrite HB, decide_False by done.
    rewrite (proj2 (Z.eqb_neq b b')); [done|]. intros ->. done.
Qed.

(** A free block is not part of the free map. *)
Lemma free_not_map sb B r b : bitmap_ok sb B → used sb B r = false → 0 ≤ b < sb_size sb → BBLOCK b sb ≠ r.
Proof. intros Hok Hr Hb <-. by rewrite (bm_self _ _ Hok b Hb) in Hr. Qed.

Lemma used_ext sb B B' b : B' (BBLOCK b sb) = B (BBLOCK b sb) → used sb B' b = used sb B b.
Proof. intros H. unfold used. by rewrite H. Qed.

(** The free map stays well-formed when blocks become used, or a block that is not
    part of it becomes free. *)
Lemma bitmap_ok_upd sb B B' :
  bitmap_ok sb B →
  (∀ m, 0 ≤ m < sb_size sb → ∃ data, B' m = Some data ∧ length data = 1024%nat) →
  (∀ b, 0 ≤ b < sb_size sb → b = 0 ∨ (∃ b', 0 ≤ b' < sb_size sb ∧ b = BBLOCK b' sb) →
     used sb B b = true → used sb B' b = true) →
  bitmap_ok sb B'.
Proof.
  intros Hok Hbl Hu. pose proof Hok as [Hs Hst _ H0 Hself]. split; try done.
  - apply Hu; [lia|by left|done].
  - intros b Hb. destruct (bblock_range _ _ _ Hok Hb) as [_ R]. apply Hu; [done| |by apply Hself]. right. eauto.
Qed.

(** Enough for the waits of the layers below when nobody interferes. *)
Definition enough_fuel (fuel : nat) : Prop := (2 ≤ fuel)%nat.

Lemma fs_frame_sb s s' : fs_frame s s' → k_sb s' = k_sb s.
Proof. unfold fs_frame. by intros ->. Qed.

(** Held buffers stay as they are. *)
Definition keeps (L : list nat) (s s' : kstate) : Prop :=
  ∀ j m x, j ∈ L → buf_at s j m x → buf_at s' j m x.

Lemma keeps_refl L s : keeps L s s.
Proof. by intros j m x _ H. Qed.

Lemma keeps_trans L s1 s2 s3 : keeps L s1 s2 → keeps L s2 s3 → keeps L s1 s3.
Proof. intros H1 H2 j m x Hj H. by apply H2, H1. Qed.

Lemma keeps_nil s s' : keeps [] s s'.
Proof. intros j m x Hj. by apply not_elem_of_nil in Hj. Qed.

(** The held buffers are of blocks in use that are not part of the free map. *)
Definition aside (L : list nat) (s : kstate) : Prop :=
  ∀ i, i ∈ L → ∃ n e, buf_at s i n e ∧ 0 ≤ n < sb_size (k_sb s) ∧ used (k_sb s) (blk s) n = true ∧
    ∀ b, 0 ≤ b < sb_size (k_sb s) → BBLOCK b (k_sb s) ≠ n.

Lemma aside_nil s : aside [] s.
Proof. intros i Hi. by apply not_elem_of_nil in Hi. Qed.

(** So nobody holds a free block or a block of the free map. *)
Lemma aside_free L s s' i n e :
  aside L s → keeps L s s' → used (k_sb s) (blk s) n = false → i ∈ L → ¬ buf_at s' i n e.
Proof.
  intros Ha Hk Hn Hi Hb. destruct (Ha i Hi) as (n' & e' & Hb' & _ & Hu & _). apply Hk in Hb'; [|done].
  destruct (buf_at_fun _ _ _ _ _ _ Hb Hb') as [-> _]. congruence.
Qed.

Lemma aside_map L s s' i b e :
  aside L s → keeps L s s' → 0 ≤ b < sb_size (k_sb s) → i ∈ L → ¬ buf_at s' i (BBLOCK b (k_sb s)) e.
Proof.
  intros Ha Hk Hn Hi Hb. destruct (Ha i Hi) as (n' & e' & Hb' & _ & _ & Hne). apply Hk in Hb'; [|done].
  destruct (buf_at_fun _ _ _ _ _ _ Hb Hb') as [E _]. by apply (Hne b).
Qed.

(** Blocks are only taken into use. *)
Lemma aside_mono L s s' :
  aside L s → keeps L s s' → k_sb s' = k_sb s →
  (∀ b, 0 ≤ b < sb_size (k_sb s) → used (k_sb s) (blk s) b = true → used (k_sb s) (blk s') b = true) → aside L s'.
Proof.
  intros Ha Hk E Hu i Hi. destruct (Ha i Hi) as (n & e & Hb & R & U & Hne). exists n, e. rewrite E.
  split_and!; [by apply Hk|lia|lia|by apply Hu|done].
Qed.

Section alloc.
Context (me : nat) (pid : Z) `{D : Device} (fuel : nat) (L : list nat).
Hypothesis Hfuel : enough_fuel fuel.

(** The state of a system call on a file system with a good free map, before it
    allocates or frees: [k] more blocks can be logged. *)
Record alloc_pre (bl : list Z) (k : nat) (s : kstate) : Prop := {
  ap_op : op me pid L bl s;
  ap_held : aside L s;
  ap_map : bitmap_ok (k_sb s) (blk s);
  ap_disk m : 0 ≤ m < sb_size (k_sb s) → is_Some (k_disk s !! m);
  ap_room : (length L + length bl + k ≤ NBUF)%nat;
  ap_size : Z.of_nat (length bl + k) < lg_size (k_log s)
}.

Definition zero_block : list Z := replicate (Z.to_nat BSIZE) 0.

Lemma bzero_ok bl s b C Q :
  alloc_pre bl 1 s → 0 ≤ b < sb_size (k_sb s) → (∀ i e, i ∈ L → ¬ buf_at s i b e) → C (k_disk s) →
  (∀ s', op me pid L (logs bl b) s' → fs_frame s s' → k_disk s' = k_disk s →
     lg_size (k_log s') = lg_size (k_log s) →
     (∀ m, blk s' m = if decide (m = b) then Some zero_block else blk s m) → keeps L s s' → Q tt s') →
  wpc (disk_env me) C (bzero fuel ROOTDEV b s) Q.
Proof.
  intros [Hop Hasd Hok Hd Hr Hs] Hb Hnh HC HQ. pose proof (bm_size _ _ Hok) as Hsz. unfold BPB, BSIZE in Hsz.
  destruct (bm_block _ _ Hok b Hb) as (data & Hdata & _).
  unfold bzero. rewrite u32_small by lia.
  eapply (op_update me pid fuel Hfuel L bl s b data (λ _, zero_block)); try done.
  - by apply Hd.
  - lia.
  - lia.
  - lia.
Qed.

(** What [balloc] did: [r] was free and is used now, and its block is zeroed. *)
Record allocated (s : kstate) (r : Z) (s' : kstate) : Prop := {
  al_range : 0 < r < sb_size (k_sb s);
  al_free : used (k_sb s) (blk s) r = false;
  al_lowest b : 0 ≤ b < r → used (k_sb s) (blk s) b = true;
  al_zero : blk s' r = Some zero_block;
  al_used b : 0 ≤ b < sb_size (k_sb s) → used (k_sb s) (blk s') b = (used (k_sb s) (blk s) b || (r =? b))%bool;
  al_other m : m ≠ r → m ≠ BBLOCK r (k_sb s) → blk s' m = blk s m;
  al_map : bitmap_ok (k_sb s) (blk s')
}.

Lemma mark_ok s s' s'' data b :
  bitmap_ok (k_sb s) (blk s) → 0 ≤ b < sb_size (k_sb s) → blk s (BBLOCK b (k_sb s)) = Some data →
  length data = 1024%nat → bit_clear data (b mod BPB) = true →
  (∀ b', 0 ≤ b' < b → used (k_sb s) (blk s) b' = true) →
  (∀ m, blk s' m = if decide (m = BBLOCK b (k_sb s)) then Some (set_bit data (b mod BPB)) else blk s m) →
  (∀ m, blk s'' m = if decide (m = b) then Some zero_block else blk s' m) →
  allocated s b s''.
Proof.
  intros Hok Hb Hd Hl Hc Hlow Hs' Hs''. set (sb := k_sb s) in *.
  assert (0 ≤ b mod BPB < BPB) as Hm by (apply Z.mod_pos_bound; done).
  assert (used sb (blk s) b = false) as Hfree by (by rewrite (used_data _ _ _ data), Hc).
  assert (b ≠ 0) as Hb0 by (intros ->; by rewrite (bm_boot _ _ Hok) in Hfree).
  assert (∀ b', 0 ≤ b' < sb_size sb → used sb (blk s'') b' = (used sb (blk s) b' || (b =? b'))%bool) as Hu.
  { intros b' Hb'. rewrite (used_ext sb (blk s')).
    - rewrite (used_upd sb (blk s) (blk s') b data (set_bit data (b mod BPB)) false); try done.
      + destruct (Z.eqb_spec b b') as [->|]; [by rewrite orb_true_r|by rewrite orb_false_r].
      + intros bj Hbj. by apply set_bit_spec.
    - rewrite Hs'', decide_False; [done|]. by apply (free_not_map sb (blk s)). }
  assert (length (set_bit data (b mod BPB)) = 1024%nat) as Hlen by (unfold set_bit; by rewrite length_insert).
  split; fold sb; try done.
  - lia.
  - by rewrite Hs'', decide_True.
  - intros m Hm1 Hm2. by rewrite Hs'', Hs', !decide_False.
  - apply (bitmap_ok_upd sb (blk s)); [done| |intros b' Hb' _ Hu'; by rewrite Hu, Hu'].
    intros m Rm. rewrite Hs''. case_decide; [by exists zero_block|]. rewrite Hs'. case_decide; [eauto|].
    by apply (bm_block _ _ Hok).
Qed.

Lemma op_out L' bl s o : op me pid L' bl s → op me pid L' bl (set_k_out o s).
Proof.
  intros (P & [Hth [ord Hbio] A1 A2 A3 A4 A5 A6] & Hcl & Ho). exists P. split; [|done].
  split; try done; [by eapply thread_ext|]. exists ord. destruct Hbio. by split.
Qed.

(** What the search of [balloc] keeps while it finds nothing. *)
Definition searching (bl : list Z) (s : kstate) (k : nat) (s' : kstate) : Prop :=
  op me pid L bl s' ∧ fs_frame s s' ∧ k_disk s' = k_disk s ∧ k_log s' = k_log s ∧ (∀ m, blk s' m = blk s m) ∧
  keeps L s s' ∧
  ∀ b, 0 ≤ b < Z.min (Z.of_nat k * BPB) (sb_size (k_sb s)) → used (k_sb s) (blk s) b = true.

Lemma bmap_starts_at size pre b post :
  0 < size → bmap_starts size = pre ++ b :: post →
  b = Z.of_nat (length pre) * BPB ∧ 0 ≤ b < size.
Proof.
  intros Hs E. assert (bmap_starts size !! length pre = Some b) as H by (rewrite E; by apply list_lookup_middle).
  unfold bmap_starts in H. rewrite list_lookup_fmap in H. apply fmap_Some in H as (k & Hk & ->).
  apply lookup_seqZ in Hk as [-> Hk]. unfold BPB, BSIZE in *. split; [lia|].
  pose proof (Z.mul_div_le (size + 1024 * 8 - 1) (1024 * 8)). lia.
Qed.

Lemma bmap_starts_all size : 0 < size → size ≤ Z.of_nat (length (bmap_starts size)) * BPB.
Proof.
  intros Hs. unfold bmap_starts. rewrite length_fmap, length_seqZ. unfold BPB, BSIZE.
  pose proof (Z.div_mod (size + 1024 * 8 - 1) (1024 * 8)). pose proof (Z.mod_pos_bound (size + 1024 * 8 - 1) (1024 * 8)). lia.
Qed.

(** The bits of one bitmap block. *)
Lemma used_in_block sb B b data bi :
  bitmap_ok sb B → 0 ≤ b → b mod BPB = 0 → 0 ≤ bi < BPB → 0 ≤ b + bi < sb_size sb → B (BBLOCK b sb) = Some data →
  (b + bi) mod BPB = bi ∧ BBLOCK (b + bi) sb = BBLOCK b sb ∧ used sb B (b + bi) = negb (bit_clear data bi).
Proof.
  intros Hok Hb Hm Hbi Hr Hd. unfold BPB, BSIZE in *.
  assert ((b + bi) mod (1024 * 8) = bi) as E1.
  { rewrite Z.add_mod, Hm, Z.add_0_l, Z.mod_mod, Z.mod_small by lia. done. }
  assert ((b + bi) / (1024 * 8) = b / (1024 * 8)) as E2.
  { pose proof (Z.div_mod (b + bi) (1024 * 8)). pose proof (Z.div_mod b (1024 * 8)). lia. }
  assert (BBLOCK (b + bi) sb = BBLOCK b sb) as E3 by (unfold BBLOCK, BPB, BSIZE; by rewrite E2).
  split_and!; [done|done|]. rewrite (used_data _ _ _ data) by (by rewrite E3). unfold BPB, BSIZE. by rewrite E1.
Qed.

(** The bitmap block [b] of the search is locked in buffer [i]. *)
Record found_at (bl : list Z) (s : kstate) (b : Z) (i : nat) (x : buf) (s2 : kstate) : Prop := {
  fa_op : op me pid (i :: L) bl s2;
  fa_new : i ∉ L;
  fa_keep : keeps L s s2;
  fa_frame : fs_frame s s2;
  fa_disk : k_disk s2 = k_disk s;
  fa_log : k_log s2 = k_log s;
  fa_blk m : blk s2 m = blk s m;
  fa_at : buf_at s2 i (BBLOCK b (k_sb s)) (b_data x);
  fa_len : length (b_data x) = 1024%nat;
  fa_range : 0 ≤ b < sb_size (k_sb s);
  fa_mod : b mod BPB = 0;
  fa_low b' : 0 ≤ b' < b → used (k_sb s) (blk s) b' = true
}.

Lemma found_data bl s b i x s2 : found_at bl s b i x s2 → blk s (BBLOCK b (k_sb s)) = Some (b_data x).
Proof.
  intros H. rewrite <- (fa_blk _ _ _ _ _ _ H). destruct (fa_at _ _ _ _ _ _ H) as (y & Cy & <-).
  destruct (op_P _ _ _ _ _ (fa_op _ _ _ _ _ _ H)) as (P & ord & _ & Hbio & _). by eapply blk_cached.
Qed.

Lemma found_bits bl s b i x s2 bi :
  bitmap_ok (k_sb s) (blk s) → found_at bl s b i x s2 → 0 ≤ bi < BPB → b + bi < sb_size (k_sb s) →
  (b + bi) mod BPB = bi ∧ BBLOCK (b + bi) (k_sb s) = BBLOCK b (k_sb s) ∧
  used (k_sb s) (blk s) (b + bi) = negb (bit_clear (b_data x) bi).
Proof.
  intros Hok H Hbi Hlt. pose proof (fa_range _ _ _ _ _ _ H).
  apply used_in_block; [done|lia|by eapply fa_mod|done|lia|by eapply found_data].
Qed.

(** Marking the block keeps the free map well-formed. *)
Lemma marked_ok sb B B' b data :
  bitmap_ok sb B → 0 ≤ b < sb_size sb → B (BBLOCK b sb) = Some data → length data = 1024%nat →
  (∀ m, B' m = if decide (m = BBLOCK b sb) then Some (set_bit data (b mod BPB)) else B m) → bitmap_ok sb B'.
Proof.
  intros Hok Hb Hd Hl HB. assert (0 ≤ b mod BPB < BPB) as Hm by (apply Z.mod_pos_bound; done).
  apply (bitmap_ok_upd sb B); [done| |].
  - intros m Rm. rewrite HB. case_decide; [|by apply (bm_block _ _ Hok)].
    eexists. split; [done|]. unfold set_bit. by rewrite length_insert.
  - intros b' Hb' _ Hu. rewrite (used_upd sb B B' b data (set_bit data (b mod BPB)) false Hok); try done; [by destruct (_ =? _)|].
    intros bj Hbj. by apply set_bit_spec.
Qed.

Definition balloc_post (bl : list Z) (s : kstate) (r : Z) (s' : kstate) : Prop :=
  k_disk s' = k_disk s ∧ k_sb s' = k_sb s ∧ keeps L s s' ∧ lg_size (k_log s') = lg_size (k_log s) ∧
  k_itable s' = k_itable s ∧
  if r =? 0
  then op me pid L bl s' ∧ fs_frame (set_k_out (k_out s') s) s' ∧ (∀ m, blk s' m = blk s m) ∧
       ∀ b, 0 ≤ b < sb_size (k_sb s) → used (k_sb s) (blk s) b = true
  else op me pid L (logs (logs bl (BBLOCK r (k_sb s))) r) s' ∧ fs_frame s s' ∧ allocated s r s'.

Lemma balloc_found bl s b i x s2 bi (Q : option Z → kstate → Prop) :
  alloc_pre bl 2 s → found_at bl s b i x s2 → 0 ≤ bi < BPB → b + bi < sb_size (k_sb s) →
  bit_clear (b_data x) bi = true → (∀ j, 0 ≤ j < bi → bit_clear (b_data x) j = false) →
  (∀ r s', balloc_post bl s r s' → Q (Some r) s') →
  wpc (disk_env me) (λ d, d = k_disk s)
    ((modb i (λ x, set_b_data (set_bit (b_data x) bi) x);; log_write i;; brelse i;;
      bzero fuel ROOTDEV (b + bi);; ret (Some (b + bi))) s2) Q.
Proof.
  intros [Hop Hasd Hok Hd Hr Hsz] Hfa Hbi Hlt Hclr Hlow HQ. pose proof (bm_size _ _ Hok) as Hsize.
  destruct (found_bits _ _ _ _ _ _ bi Hok Hfa Hbi Hlt) as (Em & EB & Hfree).
  rewrite Hclr in Hfree. cbn [negb] in Hfree.
  pose proof (found_data _ _ _ _ _ _ Hfa) as Hdata. pose proof Hfa as [Hop2 HiL Hk2 Hf2 Hd2 Hl2 Hv2 Ha2 Hlen Rb Hbm Hus].
  set (sb := k_sb s) in *. destruct (bblock_range sb (blk s) b Hok Rb) as [_ RB].
  destruct (op_write me pid (i :: L) bl s2 i (BBLOCK b sb) (b_data x) (λ l, set_bit l bi)) as
    (s3 & Hrun & Hop3 & Hf3 & Hd3 & Hs3 & Hv3 & Ha3 & Hk3); try done.
  { by left. } { unfold BPB, BSIZE in Hsize; lia. } { unfold LOGSIZE, MAXOPBLOCKS. unfold NBUF in Hr. lia. }
  { rewrite Hl2. lia. }
  eapply wpc_step; [reflexivity|]. eapply wpc_step; [exact Hrun|].
  destruct (op_release me pid (i :: L) L (logs bl (BBLOCK b sb)) s3 i (BBLOCK b sb) (set_bit (b_data x) bi)) as
    (s4 & Hrel & Hop4 & Hf4 & Hd4 & Hl4 & Hv4 & Hk4); try done.
  assert (keeps L s s4) as Hkp.
  { intros j m y Hj Hy. apply Hk4, Hk3; [by intros ->|]. by apply Hk2. }
  eapply wpc_step; [exact Hrel|]. apply wpc_bind.
  assert (fs_frame s s4) as Hfr by (repeat (eapply fs_frame_trans; [eassumption|]); apply fs_frame_refl).
  assert (∀ m, blk s4 m = if decide (m = BBLOCK (b + bi) sb) then Some (set_bit (b_data x) ((b + bi) mod BPB)) else blk s m) as Hv.
  { intros m. rewrite EB, Em, Hv4, Hv3. case_decide; [done|]. by rewrite Hv2. }
  assert (k_sb s4 = sb) as Esb by (by apply fs_frame_sb). pose proof (logs_length bl (BBLOCK b sb)).
  assert (k_disk s4 = k_disk s) as Ed by (by rewrite Hd4, Hd3, Hd2).
  eapply (bzero_ok (logs bl (BBLOCK b sb)) s4 (b + bi)).
  - assert (∀ m, blk s4 m = if decide (m = BBLOCK (b + bi) sb) then Some (set_bit (b_data x) ((b + bi) mod BPB)) else blk s m) as Hv' by done.
    split; try done; rewrite ?Esb.
    + eapply (aside_mono L s); [done|done|done|]. fold sb. intros b' Hb' Hu.
      rewrite (used_upd sb (blk s) (blk s4) (b + bi) (b_data x) (set_bit (b_data x) ((b + bi) mod BPB)) false); try done; [|lia|by rewrite EB|].
      * rewrite Hu. by case_match.
      * intros bj Hbj. apply set_bit_spec; [done|apply Z.mod_pos_bound; done|done].
    + eapply (marked_ok sb (blk s) (blk s4) (b + bi)); [done|lia|by rewrite EB|done|exact Hv].
    + intros m Hm. rewrite Ed. by apply Hd.
    + lia.
    + rewrite Hl4, Hs3, Hl2. lia.
  - rewrite Esb. lia.
  - intros j e Hj. by eapply (aside_free L s s4).
  - exact Ed.
  - intros s5 Hop5 Hf5 Hd5 Hs5 Hv5 Hk5. apply HQ.
    assert (allocated s (b + bi) s5) as Hal.
    { eapply (mark_ok s s4 s5 (b_data x) (b + bi)); try done; [fold sb; lia|fold sb; by rewrite EB|by rewrite Em|].
      intros b' Hb'. destruct (decide (b' < b)) as [Hlt'|Hlt']; [apply Hus; lia|].
      replace b' with (b + (b' - b)) by lia.
      destruct (found_bits _ _ _ _ _ _ (b' - b) Hok Hfa) as (_ & _ & ->); [lia|fold sb; lia|]. by rewrite Hlow by lia. }
    assert (fs_frame s s5) as Hfr5 by (by eapply fs_frame_trans).
    pose proof (al_range _ _ _ Hal). unfold balloc_post. rewrite (proj2 (Z.eqb_neq (b + bi) 0)) by lia. fold sb. rewrite EB.
    split_and!; [by rewrite Hd5|by apply fs_frame_sb|by eapply keeps_trans|by rewrite Hs5, Hl4, Hs3, Hl2| |done|done|done].
    unfold fs_frame in Hfr5. by rewrite Hfr5.
Qed.

Lemma balloc_step bl s pre b post s1 :
  alloc_pre bl 2 s → bmap_starts (sb_size (k_sb s)) = pre ++ b :: post → searching bl s (length pre) s1 →
  wpc (disk_env me) (λ d, d = k_disk s)
    ((bp <- bread fuel ROOTDEV (BBLOCK b (k_sb s));;
      x <- getb bp;;
      match first_free (Z.to_nat (Z.min BPB (sb_size (k_sb s) - b))) (b_data x) 0 with
      | Some bi => modb bp (λ x, set_b_data (set_bit (b_data x) bi) x);; log_write bp;; brelse bp;;
                   bzero fuel ROOTDEV (b + bi);; ret (Some (b + bi))
      | None => brelse bp;; ret None
      end) s1)
    (λ o s', match o with Some r => balloc_post bl s r s' | None => searching bl s (length (pre ++ [b])) s' end).
Proof.
  intros Hpre E (Hop1 & Hf1 & Hd1 & Hl1 & Hv1 & Hk1 & Hus). pose proof Hpre as [Hop Hasd Hok Hd Hr Hsz].
  pose proof (bm_size _ _ Hok) as Hsize. apply bmap_starts_at in E as [Eb Rb]; [|lia].
  destruct (bblock_range (k_sb s) (blk s) b Hok Rb) as [_ RB].
  destruct (bm_block _ _ Hok _ RB) as (data & Hdata & Hlen).
  eapply (op_read me pid fuel Hfuel L bl s1 (BBLOCK b (k_sb s)) data); try done.
  { by rewrite Hv1. } { rewrite Hd1. by apply Hd. } { unfold BPB, BSIZE in Hsize; lia. }
  { intros i e Hi. by eapply (aside_map L s s1). } { lia. }
  intros i s2 Hop2 Hf2 Hd2 Hl2 Hv2 Ha2 HiL Hk2.
  destruct (buf_data _ _ _ _ Ha2) as (x & Hx & <-). eapply wpc_step; [exact Hx|].
  assert (found_at bl s b i x s2) as Hfa.
  { split; try done; [by eapply keeps_trans|by eapply fs_frame_trans|by rewrite Hd2|by rewrite Hl2|intros m; by rewrite Hv2| |].
    - rewrite Eb. by apply Z.mod_mul.
    - intros b' Hb'. apply Hus. rewrite <- Eb. lia. }
  pose proof (first_free_spec (Z.to_nat (Z.min BPB (sb_size (k_sb s) - b))) (b_data x) 0) as Hff.
  destruct (first_free _ (b_data x) 0) as [bi|].
  - destruct Hff as (Hbi & Hclr & Hlow). eapply balloc_found; try done; lia.
  - destruct (op_release me pid (i :: L) L bl s2 i (BBLOCK b (k_sb s)) (b_data x)) as
      (s4 & Hrel & Hop4 & Hf4 & Hd4 & Hl4 & Hv4 & Hk4); try done.
    eapply wpc_step; [exact Hrel|]. split_and!; try done.
    + repeat (eapply fs_frame_trans; [eassumption|]). apply fs_frame_refl.
    + by rewrite Hd4, Hd2, Hd1.
    + by rewrite Hl4, Hl2, Hl1.
    + intros m. by rewrite Hv4, Hv2, Hv1.
    + intros j m y Hj Hy. by apply Hk4, Hk2, Hk1.
    + intros b' Hb'. rewrite length_app in Hb'. simpl length in Hb'.
      destruct (decide (b' < b)) as [Hlt|Hlt]; [apply Hus; rewrite <- Eb; lia|].
      replace b' with (b + (b' - b)) by lia.
      destruct (found_bits _ _ _ _ _ _ (b' - b) Hok Hfa) as (_ & _ & ->); [lia|lia|]. by rewrite Hff by lia.
Qed.

Lemma balloc_ok bl s :
  alloc_pre bl 2 s →
  wpc (disk_env me) (λ d, d = k_disk s) (balloc fuel ROOTDEV s) (balloc_post bl s).
Proof.
  intros Hpre. pose proof Hpre as [Hop Hasd Hok Hd Hr Hsz]. pose proof (bm_size _ _ Hok) as Hsize.
  unfold balloc. eapply wpc_step; [reflexivity|]. apply wpc_bind.
  eapply (wpc_for_until _ _ _ (λ pre s', searching bl s (length pre) s')).
  - split_and!; try done; [apply fs_frame_refl|apply keeps_refl|]. intros b Hb. simpl in Hb. lia.
  - intros pre b post s1 E Hs1. eapply wpc_mono; [by eapply balloc_step|done|]. by intros [r|].
  - intros s1 (Hop1 & Hf1 & Hd1 & Hl1 & Hv1 & Hk1 & Hus).
    destruct (prints_printf "balloc: out of blocks
" [] eq_refl s1) as [l Hl].
    { unfold pr_free. rewrite (th_held _ _ _ (op_thread _ _ _ _ _ Hop1)). apply not_elem_of_nil. }
    eapply wpc_step; [exact Hl|]. split_and!; [done|exact (fs_frame_sb _ _ Hf1)|done|simpl; by rewrite Hl1|unfold fs_frame in Hf1; by rewrite Hf1|].
    cbn [Z.eqb]. split_and!; [by apply op_out| |done|].
    { unfold fs_frame in *. rewrite Hf1. done. }
    intros b Hb. apply Hus. pose proof (bmap_starts_all (sb_size (k_sb s)) ltac:(lia)). lia.
Qed.


(** What [bfree] does with a block in use. *)
Lemma bfree_ok bl s b C Q :
  alloc_pre bl 1 s → 0 ≤ b < sb_size (k_sb s) → used (k_sb s) (blk s) b = true → C (k_disk s) →
  (∀ s', op me pid L (logs bl (BBLOCK b (k_sb s))) s' → fs_frame s s' → k_disk s' = k_disk s →
     lg_size (k_log s') = lg_size (k_log s) → keeps L s s' →
     (∀ m, m ≠ BBLOCK b (k_sb s) → blk s' m = blk s m) →
     (∀ b', 0 ≤ b' < sb_size (k_sb s) →
        used (k_sb s) (blk s') b' = (used (k_sb s) (blk s) b' && negb (b =? b'))%bool) →
     (∃ data, blk s' (BBLOCK b (k_sb s)) = Some data ∧ length data = 1024%nat) →
     Q tt s') →
  wpc (disk_env me) C (bfree fuel ROOTDEV b s) Q.
Proof.
  intros [Hop Hasd Hok Hd Hr Hs] Hb Hu HC HQ. pose proof (bm_size _ _ Hok) as Hsz. unfold BPB, BSIZE in Hsz.
  destruct (bblock_range (k_sb s) (blk s) b Hok Hb) as [_ RB].
  destruct (bm_block _ _ Hok _ RB) as (data & Hdata & Hlen).
  assert (0 ≤ b mod BPB < BPB) as Hm by (apply Z.mod_pos_bound; done).
  unfold bfree. eapply wpc_step; [reflexivity|].
  eapply (op_read me pid fuel Hfuel L bl s (BBLOCK b (k_sb s)) data); try done.
  { by apply Hd. } { lia. } { intros i e Hi. eapply (aside_map L s s); [done|apply keeps_refl|done..]. } { lia. }
  intros i s2 Hop2 Hf2 Hd2 Hl2 Hv2 Ha2 HiL Hk2.
  destruct (buf_data _ _ _ _ Ha2) as (x & Hx & <-). eapply wpc_step; [exact Hx|].
  rewrite (used_data _ _ _ _ Hdata) in Hu. apply negb_true_iff in Hu. rewrite Hu.
  destruct (op_write me pid (i :: L) bl s2 i (BBLOCK b (k_sb s)) (b_data x) (λ l, clear_bit l (b mod BPB))) as
    (s3 & Hrun & Hop3 & Hf3 & Hd3 & Hs3 & Hv3 & Ha3 & Hk3); try done.
  { by left. } { lia. } { unfold LOGSIZE, MAXOPBLOCKS. unfold NBUF in Hr. lia. } { rewrite Hl2. lia. }
  eapply wpc_step; [reflexivity|]. eapply wpc_step; [exact Hrun|].
  destruct (op_release me pid (i :: L) L (logs bl (BBLOCK b (k_sb s))) s3 i (BBLOCK b (k_sb s))
    (clear_bit (b_data x) (b mod BPB))) as (s4 & Hrel & Hop4 & Hf4 & Hd4 & Hl4 & Hv4 & Hk4); try done.
  assert (∀ m, blk s4 m = if decide (m = BBLOCK b (k_sb s)) then Some (clear_bit (b_data x) (b mod BPB)) else blk s m) as Hv
    by (intros m; by rewrite Hv4, Hv3, Hv2).
  rewrite Hrel. apply HQ; try done.
  - repeat (eapply fs_frame_trans; [eassumption|]). apply fs_frame_refl.
  - by rewrite Hd4, Hd3, Hd2.
  - by rewrite Hl4, Hs3, Hl2.
  - intros j m y Hj Hy. apply Hk4, Hk3; [by intros ->|]. by apply Hk2.
  - intros m Hne. by rewrite Hv, decide_False.
  - intros b' Hb'. rewrite (used_upd _ _ _ b (b_data x) (clear_bit (b_data x) (b mod BPB)) true Hok Hb Hdata Hv); try done.
    + destruct (b =? b'); [by rewrite andb_false_r|by rewrite andb_true_r].
    + intros bj Hbj. by apply clear_bit_spec.
  - rewrite Hv, decide_True by done. eexists. split; [done|]. unfold clear_bit. by rewrite length_insert.
Qed.

End alloc.
