(* ===== verification/FsSpec.v ===== *)
(** * The file system on the log

    The theorems about [Fs] inside a transaction: writing and reading inodes, reading files through their block addresses, and
    looking names up in directories.  They are stated on [blk], the contents of the
    blocks as the running transaction sees them, and hold at every interleaving of
    the disk's interrupts; [enough_fuel] is what the waits below need when no other
    thread holds the buffers. *)

From Stdlib Require Import ZArith Lia.
From S2P Require Import Prelude Machine Kernel Boot CString Printf Kalloc Vm ProcTable Seq Sleeplock Virtio Bio Log Crash Trans File Fs FsData FsAlloc.

Section inodes.
Context (me : nat) (pid : Z) `{D : Device} (fuel : nat).
Hypothesis Hfuel : enough_fuel fuel.

(** ** Inodes on disk *)

(** The block of inode [inum] is on the disk, and its contents are [data]. *)
Record inode_block (s : kstate) (inum : Z) (data : list Z) : Prop := {
  ib_range : 0 ≤ IBLOCK inum (k_sb s) < 2 ^ 31;
  ib_blk : blk s (IBLOCK inum (k_sb s)) = Some data;
  ib_len : length data = 1024%nat;
  ib_disk : is_Some (k_disk s !! IBLOCK inum (k_sb s))
}.

Lemma dinode_off_fits inum : (dinode_off inum + 64 ≤ 1024)%nat.
Proof.
  unfold dinode_off, IPB, DINODE_SIZE, BSIZE. change (1024 / 64) with 16.
  pose proof (Z.mod_pos_bound inum 16 ltac:(lia)). lia.
Qed.

Lemma iupdate_ok bl s i ip data C Q :
  op me pid [] bl s → k_itable s !! i = Some ip → i_dev ip = ROOTDEV → inode_block s (i_inum ip) data →
  (length bl < NBUF)%nat → Z.of_nat (length bl) < lg_size (k_log s) - 1 → C (k_disk s) →
  (∀ s', op me pid [] (logs bl (IBLOCK (i_inum ip) (k_sb s))) s' → fs_frame s s' → k_disk s' = k_disk s →
     lg_size (k_log s') = lg_size (k_log s) →
     (∀ m, blk s' m = if decide (m = IBLOCK (i_inum ip) (k_sb s))
                      then Some (put_dinode (dinode_off (i_inum ip)) (dinode_of ip) data) else blk s m) →
     Q tt s') →
  wpc (disk_env me) C (iupdate fuel i s) Q.
Proof.
  intros Hop Hi Hdev [Rn Hb Hlen Hd] Hr Hs HC HQ. unfold iupdate. eapply wpc_step; [reflexivity|].
  assert (∀ s', k_itable s' = k_itable s → geti i s' = Ret ip s') as Hg.
  { intros s' E. unfold geti, gets, bind. cbn [rbind]. by rewrite E, Hi. }
  eapply wpc_step; [by apply Hg|]. rewrite Hdev.
  eapply (op_read me pid fuel Hfuel [] bl s _ data); try done.
  { intros j e Hj. by apply not_elem_of_nil in Hj. }
  intros j s2 Hop2 Hf2 Hd2 Hl2 Hv2 Ha2 _ _.
  eapply wpc_step; [apply Hg; unfold fs_frame in Hf2; by rewrite Hf2|].
  destruct (op_write me pid [j] bl s2 j (IBLOCK (i_inum ip) (k_sb s)) data (put_dinode (dinode_off (i_inum ip)) (dinode_of ip)) Hop2) as
    (s3 & Hrun & Hop3 & Hf3 & Hd3 & Hs3 & Hv3 & Ha3 & _); try done.
  { by left. } { unfold LOGSIZE, MAXOPBLOCKS. unfold NBUF in Hr. lia. } { by rewrite Hl2. }
  eapply wpc_step; [reflexivity|]. eapply wpc_step; [exact Hrun|].
  eapply op_release in Ha3 as (s4 & Hrel & Hop4 & Hf4 & Hd4 & Hl4 & Hv4 & _); [|done|done|by apply not_elem_of_nil].
  rewrite Hrel. apply HQ; try done.
  - repeat (eapply fs_frame_trans; [eassumption|]). apply fs_frame_refl.
  - by rewrite Hd4, Hd3, Hd2.
  - by rewrite Hl4, Hs3, Hl2.
  - intros m. by rewrite Hv4, Hv3, Hv2.
Qed.

Lemma op_itable L bl t s : op me pid L bl s → op me pid L bl (set_k_itable t s).
Proof.
  intros (P & [Hth [ord Hbio] A1 A2 A3 A4 A5 A6] & Hcl & Ho). exists P. split; [|done].
  split; try done; [by eapply thread_ext|]. exists ord. destruct Hbio. by split.
Qed.

(** An in-memory inode with what the disk says. *)
Definition load_inode (d : dinode) (ip : inode) : inode :=
  set_i_addrs (di_addrs d) (set_i_size (di_size d) (set_i_nlink (di_nlink d)
    (set_i_minor (di_minor d) (set_i_major (di_major d) (set_i_type (di_type d) ip))))).


Lemma geti_some s i ip : k_itable s !! i = Some ip → geti i s = Ret ip s.
Proof. intros E. unfold geti, gets, bind. cbn [rbind]. by rewrite E. Qed.

(** Only the inode table and what [fs_frame] allows change. *)
Definition ifs_frame (s s' : kstate) : Prop := fs_frame (set_k_itable (k_itable s') s) s'.

Lemma ilock_ok bl s i ip data C :
  op me pid [] bl s → k_itable s !! i = Some ip → i_dev ip = ROOTDEV → 1 ≤ i_ref ip → sl_locked (i_lock ip) = 0 →
  inode_block s (i_inum ip) data → (length bl < NBUF)%nat → C (k_disk s) →
  let d := get_dinode data (dinode_off (i_inum ip)) in
  (i_valid ip = 0 → di_type d ≠ 0) →
  wpc (disk_env me) C (ilock fuel (Some i) s) (λ _ s',
    op me pid [] bl s' ∧ ifs_frame s s' ∧ k_disk s' = k_disk s ∧ k_log s' = k_log s ∧ (∀ m, blk s' m = blk s m) ∧
    k_itable s' = <[i := set_i_lock (mk_sl 1 pid) (if i_valid ip =? 0 then set_i_valid 1 (load_inode d ip) else ip)]> (k_itable s)).
Proof.
  intros Hop Hi Hdev Href Hl [Rn Hb Hlen Hd] Hr HC d Hty. pose proof (op_thread _ _ _ _ _ Hop) as Hth.
  unfold ilock. eapply wpc_step; [by apply geti_some|]. rewrite (proj2 (Z.ltb_ge _ _)) by lia.
  eapply wpc_step; [eapply (acquiresleep_free fuel (S_inode i)); [done|simpl; by rewrite Hi|done|unfold enough_fuel in Hfuel; lia]|].
  cbn [upd_sl]. set (ip1 := set_i_lock (mk_sl 1 pid) ip).
  rewrite (alter_insert_at _ _ _ _ Hi). fold ip1. set (s1 := set_k_itable _ s).
  assert (op me pid [] bl s1) as Hop1 by (by apply op_itable).
  pose proof (lookup_lt_Some _ _ _ Hi) as Hlt.
  assert (k_itable s1 !! i = Some ip1) as Hi1 by (by apply list_lookup_insert_eq).
  eapply wpc_step; [by apply geti_some|]. cbn [i_valid set_i_lock ip1].
  destruct (i_valid ip =? 0) eqn:Ev; cbn [when].
  2: { unfold ret. cbn [wpc]. by split_and!. }
  eapply wpc_step; [reflexivity|]. change (i_dev ip1) with (i_dev ip). change (i_inum ip1) with (i_inum ip). rewrite Hdev.
  eapply (op_read me pid fuel Hfuel [] bl s1 _ data); try done.
  { intros j e Hj. by apply not_elem_of_nil in Hj. }
  intros j s2 Hop2 Hf2 Hd2 Hl2 Hv2 Ha2 _ _.
  destruct (buf_data _ _ _ _ Ha2) as (x & Hx & Ex). eapply wpc_step; [exact Hx|]. rewrite Ex. fold d.
  eapply wpc_step; [reflexivity|].
  assert (k_itable s2 = <[i := ip1]> (k_itable s)) as E2 by (unfold fs_frame in Hf2; by rewrite Hf2).
  set (s3 := set_k_itable _ s2).
  destruct (op_release me pid [j] [] bl s3 j (IBLOCK (i_inum ip) (k_sb s)) data) as
    (s4 & Hrel & Hop4 & Hf4 & Hd4 & Hl4 & Hv4 & _); [by apply op_itable|done|by apply not_elem_of_nil|done|].
  eapply wpc_step; [exact Hrel|]. eapply wpc_step; [reflexivity|].
  rewrite (proj2 (Z.eqb_neq (di_type d) 0)) by (apply Hty; by apply Z.eqb_eq).
  unfold ret. cbn [wpc].
  assert (k_itable s4 = k_itable s3) as E4 by (unfold fs_frame in Hf4; by rewrite Hf4).
  split_and!.
  - by apply op_itable.
  - unfold ifs_frame, fs_frame in *. rewrite Hf4. unfold s3. rewrite Hf2. done.
  - simpl. by rewrite Hd4.
  - simpl. by rewrite Hl4.
  - intros m. change (blk s4 m = blk s m). rewrite Hv4. change (blk s2 m = blk s m). by rewrite Hv2.
  - cbn [k_itable set_k_itable]. rewrite E4. unfold s3. cbn [k_itable set_k_itable]. rewrite E2, list_alter_twice.
    rewrite (alter_insert_at _ _ _ ip1) by (by apply list_lookup_insert_eq). by rewrite list_insert_insert_eq.
Qed.


(** ** File contents *)

(** The address of block [bn] of a file, if it has one. *)
Definition file_addr (B : Z → option (list Z)) (ip : inode) (bn : Z) : option Z :=
  a ← (if bn <? NDIRECT then i_addrs ip !! Z.to_nat bn
       else if bn - NDIRECT <? NINDIRECT then
         ind ← i_addrs ip !! Z.to_nat NDIRECT;
         data ← (if ind =? 0 then None else B ind);
         Some (get32 data (Z.to_nat (4 * (bn - NDIRECT))))
       else None);
  if a =? 0 then None else Some a.

(** Byte [k] of a file. *)
Definition file_byte (B : Z → option (list Z)) (ip : inode) (k : Z) : option Z :=
  a ← file_addr B ip (k / BSIZE);
  data ← B a;
  data !! Z.to_nat (k mod BSIZE).

Definition file_bytes (B : Z → option (list Z)) (ip : inode) (off n : Z) : list Z :=
  (λ j, default 0 (file_byte B ip (off + j))) <$> seqZ 0 n.

(** A block that can be read. *)
Definition readable (s : kstate) (n : Z) : Prop :=
  0 ≤ n < 2 ^ 31 ∧ is_Some (k_disk s !! n) ∧ ∃ data, blk s n = Some data ∧ length data = 1024%nat.

(** A file whose blocks up to its size are all there. *)
Record file_ok (s : kstate) (ip : inode) : Prop := {
  fo_dev : i_dev ip = ROOTDEV;
  fo_size : 0 ≤ i_size ip ≤ MAXFILE * BSIZE;
  fo_block bn : 0 ≤ bn → bn * BSIZE < i_size ip → ∃ a, file_addr (blk s) ip bn = Some a ∧ readable s a;
  fo_ind : NDIRECT * BSIZE < i_size ip → ∃ a, i_addrs ip !! Z.to_nat NDIRECT = Some a ∧ a ≠ 0 ∧ readable s a
}.

(** Nothing but the cache changed. *)
Definition reads (bl : list Z) (s s' : kstate) : Prop :=
  op me pid [] bl s' ∧ fs_frame s s' ∧ k_disk s' = k_disk s ∧ k_log s' = k_log s ∧ (∀ m, blk s' m = blk s m).

Lemma reads_refl bl s : op me pid [] bl s → reads bl s s.
Proof. intros H. split_and!; try done. apply fs_frame_refl. Qed.

Lemma reads_trans bl s1 s2 s3 : reads bl s1 s2 → reads bl s2 s3 → reads bl s1 s3.
Proof.
  intros (_ & F1 & D1 & L1 & V1) (O2 & F2 & D2 & L2 & V2).
  split_and!; [done|by eapply fs_frame_trans|congruence|congruence|]. intros m. by rewrite V2.
Qed.

Lemma reads_itable bl s s' : reads bl s s' → k_itable s' = k_itable s.
Proof. intros (_ & F & _). unfold fs_frame in F. by rewrite F. Qed.

Lemma file_addr_ext B B' ip bn : (∀ m, B' m = B m) → file_addr B' ip bn = file_addr B ip bn.
Proof.
  intros H. unfold file_addr. destruct (bn <? NDIRECT); [done|]. destruct (_ <? NINDIRECT); [|done].
  destruct (i_addrs ip !! Z.to_nat NDIRECT) as [ind|]; [|done].
  simpl. destruct (ind =? 0); [done|]. by rewrite H.
Qed.

Lemma file_byte_ext B B' ip k : (∀ m, B' m = B m) → file_byte B' ip k = file_byte B ip k.
Proof.
  intros H. unfold file_byte. rewrite (file_addr_ext B B') by done. destruct (file_addr B ip (k / BSIZE)); [|done].
  simpl. by rewrite H.
Qed.

Lemma readable_ext bl s s' n : reads bl s s' → readable s n → readable s' n.
Proof. intros (_ & _ & D1 & _ & V1) (R & Hd & data & Hb & Hl). split_and!; [lia..|by rewrite D1|]. exists data. by rewrite V1. Qed.

Lemma file_ok_ext bl s s' ip : reads bl s s' → file_ok s ip → file_ok s' ip.
Proof.
  intros Hr [H1 H2 H3 H4]. pose proof Hr as (_ & _ & _ & _ & V1). split; try done.
  - intros bn H0 Hbn. destruct (H3 bn H0 Hbn) as (a & Ha & Hra). exists a.
    rewrite (file_addr_ext (blk s)) by done. split; [done|]. by eapply readable_ext.
  - intros H. destruct (H4 H) as (a & ? & ? & ?). exists a. split_and!; try done. by eapply readable_ext.
Qed.

(** A block is read and given back. *)
Lemma op_peek {A} bl s n data C (K : nat → M A) Q :
  op me pid [] bl s → readable s n → blk s n = Some data → (length bl < NBUF)%nat → C (k_disk s) →
  (∀ i s1, fs_frame s s1 → k_itable s1 = k_itable s → k_disk s1 = k_disk s →
     (∃ x, getb i s1 = Ret x s1 ∧ b_data x = data) →
     (∃ s2, brelse i s1 = Ret tt s2 ∧ reads bl s s2) → wpc (disk_env me) C (K i s1) Q) →
  wpc (disk_env me) C ((i <- bread fuel ROOTDEV n;; K i) s) Q.
Proof.
  intros Hop (Rn & Hd & _) Hb Hr HC HK.
  eapply (op_read me pid fuel Hfuel [] bl s n data); try done.
  { intros j e Hj. by apply not_elem_of_nil in Hj. }
  intros i s1 Hop1 Hf1 Hd1 Hl1 Hv1 Ha1 _ _.
  destruct (op_release me pid [i] [] bl s1 i n data) as (s2 & Hrel & Hop2 & Hf2 & Hd2 & Hl2 & Hv2 & _);
    [done..|by apply not_elem_of_nil|done|].
  apply HK; try done.
  - unfold fs_frame in Hf1. by rewrite Hf1.
  - by apply (buf_data _ _ _ _ Ha1).
  - exists s2. split; [done|]. split_and!; [done|by eapply fs_frame_trans|congruence|congruence|].
    intros m. by rewrite Hv2.
Qed.

(** [bmap] of a block the file has. *)
Lemma bmap_present bl s i ip bn a C :
  op me pid [] bl s → k_itable s !! i = Some ip → i_dev ip = ROOTDEV → 0 ≤ bn → file_addr (blk s) ip bn = Some a →
  (NDIRECT ≤ bn → ∃ x, i_addrs ip !! Z.to_nat NDIRECT = Some x ∧ x ≠ 0 ∧ readable s x) →
  (length bl < NBUF)%nat → C (k_disk s) →
  wpc (disk_env me) C (bmap fuel i bn s) (λ r s', r = a ∧ reads bl s s').
Proof.
  intros Hop Hi Hdev Hbn Ha Hind Hr HC. unfold bmap. eapply wpc_step; [by apply geti_some|].
  unfold file_addr in Ha. apply bind_Some in Ha as (a0 & Ha & Hz). destruct (a0 =? 0) eqn:E0; [done|]. injection Hz as ->.
  destruct (Z.ltb_spec bn NDIRECT) as [E|E].
  - rewrite Ha. eapply wpc_step; [reflexivity|]. cbn beta. rewrite E0. split; [done|]. by apply reads_refl.
  - destruct (_ <? NINDIRECT); [|done]. apply bind_Some in Ha as (ind & Hx & Ha). rewrite Hx. eapply wpc_step; [reflexivity|].
    destruct (Hind ltac:(lia)) as (x & Hx' & Hx0 & Hrd). rewrite Hx in Hx'. injection Hx' as <-.
    apply bind_Some in Ha as (data & Hdt & [= Ha]). rewrite (proj2 (Z.eqb_neq ind 0)) in * by done.
    eapply wpc_step; [reflexivity|]. cbn beta. rewrite (proj2 (Z.eqb_neq ind 0)) by done. rewrite Hdev.
    eapply (op_peek bl s ind data); try done.
    intros j s1 _ _ _ (y & Hy & Hyd) (s2 & Hrel & Hrds).
    eapply wpc_step; [exact Hy|]. cbn beta zeta. rewrite Hyd, Ha, E0. eapply wpc_step; [reflexivity|].
    eapply wpc_step; [exact Hrel|]. done.
Qed.

Lemma file_bytes_app B ip off m n :
  0 ≤ m → 0 ≤ n → file_bytes B ip off (m + n) = file_bytes B ip off m ++ file_bytes B ip (off + m) n.
Proof.
  intros Hm Hn. unfold file_bytes. rewrite seqZ_app by lia. rewrite fmap_app. f_equal.
  replace (0 + m) with (m + 0) by lia. rewrite <- (fmap_add_seqZ m 0 n), <- list_fmap_compose. apply list_fmap_ext. intros k x Hx. simpl.
  by replace (off + (m + x)) with (off + m + x) by lia.
Qed.

(** The part of one block that [readi] copies. *)
Lemma block_slice B ip off m a data :
  0 ≤ off → 0 ≤ m → off mod BSIZE + m ≤ BSIZE → file_addr B ip (off / BSIZE) = Some a → B a = Some data →
  length data = 1024%nat → take (Z.to_nat m) (drop (Z.to_nat (off mod BSIZE)) data) = file_bytes B ip off m.
Proof.
  intros Ho Hm Hle Ha Hb Hl. unfold BSIZE in *. pose proof (Z.mod_pos_bound off 1024 ltac:(lia)) as Hr.
  apply list_eq. intros k. unfold file_bytes. rewrite list_lookup_fmap.
  destruct (decide (k < Z.to_nat m)%nat) as [Hk|Hk].
  - rewrite lookup_take_lt, lookup_drop by done. rewrite lookup_seqZ_lt by lia. cbn [fmap option_fmap option_map].
    rewrite Z.add_0_l. unfold file_byte, BSIZE. assert ((off + Z.of_nat k) / 1024 = off / 1024) as ->.
    { symmetry. apply (Z.div_unique _ _ _ (off mod 1024 + Z.of_nat k)); [lia|]. pose proof (Z.div_mod off 1024). lia. }
    assert ((off + Z.of_nat k) mod 1024 = off mod 1024 + Z.of_nat k) as ->.
    { symmetry. apply (Z.mod_unique _ _ (off / 1024)); [lia|]. pose proof (Z.div_mod off 1024). lia. }
    rewrite Ha. simpl. rewrite Hb. simpl. replace (Z.to_nat (off mod 1024 + Z.of_nat k)) with
      (Z.to_nat (off mod 1024) + k)%nat by lia.
    destruct (lookup_lt_is_Some_2 data (Z.to_nat (off mod 1024) + k)%nat) as [v ->]; [lia|done].
  - rewrite lookup_take_ge by lia. by rewrite lookup_seqZ_ge by lia.
Qed.

(** How often the loop of [readi] runs. *)
Definition read_rounds (off n : Z) : Z := if n <=? 0 then 0 else (off mod BSIZE + n + BSIZE - 1) / BSIZE.

Lemma read_rounds_nonneg off n : 0 ≤ read_rounds off n.
Proof.
  unfold read_rounds, BSIZE. case_test; [done|]. pose proof (Z.mod_pos_bound off 1024 ltac:(lia)). apply Z.div_pos; lia.
Qed.

Lemma read_rounds_step off n m :
  0 ≤ off → 0 < n → m = Z.min n (BSIZE - off mod BSIZE) → read_rounds (off + m) (n - m) < read_rounds off n.
Proof.
  intros Ho Hn Hm. pose proof (read_rounds_nonneg (off + m) (n - m)). unfold read_rounds, BSIZE in *.
  pose proof (Z.mod_pos_bound off 1024 ltac:(lia)) as Hr. rewrite (proj2 (Z.leb_gt n 0)) by lia.
  assert (0 < (off mod 1024 + n + 1024 - 1) / 1024) by (apply Z.div_str_pos; lia).
  case_test; [lia|]. assert (m = 1024 - off mod 1024) as -> by lia.
  assert ((off + (1024 - off mod 1024)) mod 1024 = 0) as ->.
  { symmetry. apply (Z.mod_unique _ _ (off / 1024 + 1)); [lia|]. pose proof (Z.div_mod off 1024). lia. }
  replace (off mod 1024 + n + 1024 - 1) with (0 + (n - (1024 - off mod 1024)) + 1024 - 1 + 1 * 1024) by lia.
  rewrite Z.div_add by lia. lia.
Qed.

Lemma read_rounds_blocks off n : 0 ≤ n → read_rounds off n < Z.of_nat (blocks_of n).
Proof.
  intros Hn. unfold read_rounds, blocks_of, BSIZE. pose proof (Z.div_pos n 1024 Hn ltac:(lia)). rewrite Z2Nat.id by lia.
  case_test; [lia|]. pose proof (Z.mod_pos_bound off 1024 ltac:(lia)) as Hr.
  apply Z.div_lt_upper_bound; [lia|]. pose proof (Z.div_mod n 1024). pose proof (Z.mod_pos_bound n 1024 ltac:(lia)). lia.
Qed.

(** [readi] to a local variable returns the bytes of the file. *)
Lemma readi_loop_ok fl bl s i ip dst off n tot acc C :
  op me pid [] bl s → k_itable s !! i = Some ip → file_ok s ip → 0 ≤ off → 0 ≤ tot ≤ n → off + (n - tot) ≤ i_size ip →
  read_rounds off (n - tot) < Z.of_nat fl → (length bl < NBUF)%nat → C (k_disk s) →
  wpc (disk_env me) C (readi_loop fuel fl i (λ _ _, ret 0) dst off n tot acc s)
    (λ r s', r = (n, acc ++ file_bytes (blk s) ip off (n - tot)) ∧ reads bl s s').
Proof.
  revert s dst off tot acc. induction fl as [|fl IH]; intros s dst off tot acc Hop Hi Hok Ho Ht Hle Hfl Hr HC.
  { pose proof (read_rounds_nonneg off (n - tot)). lia. }
  cbn [readi_loop]. destruct (Z.ltb_spec tot n) as [Hlt|Hge].
  2: { replace (n - tot) with 0 by lia. unfold ret. cbn [wpc]. rewrite app_nil_r. replace tot with n by lia.
       split; [done|]. by apply reads_refl. }
  pose proof Hok as [Hdev Hsz Hblk Hind]. unfold MAXFILE, NINDIRECT, NDIRECT, BSIZE in Hsz.
  pose proof (Z.mod_pos_bound off BSIZE ltac:(done)) as Hmod.
  assert (off / BSIZE * BSIZE ≤ off) as Hdiv by (rewrite Z.mul_comm; apply Z.mul_div_le; done).
  destruct (Hblk (off / BSIZE)) as (a & Ha & Hra); [apply Z.div_pos; [lia|done]|lia|].
  assert (a ≠ 0) as Ha0.
  { intros ->. unfold file_addr in Ha. apply bind_Some in Ha as (x & _ & Hx). by destruct (Z.eqb_spec x 0); simplify_eq. }
  apply wpc_bind. eapply wpc_mono; [eapply (bmap_present bl s i ip (off / BSIZE) a); try done|done|].
  { apply Z.div_pos; [lia|done]. }
  { intros Hnd. apply Hind. unfold NDIRECT, BSIZE in *. lia. }
  intros a' s1 [-> Hr1]. rewrite (proj2 (Z.eqb_neq a 0)) by done.
  pose proof (reads_itable _ _ _ Hr1) as Hit. pose proof Hr1 as (Hop1 & Hf1 & Hd1 & Hl1 & Hv1).
  eapply wpc_step; [apply geti_some; by rewrite Hit|]. rewrite Hdev.
  destruct Hra as (Ra & Da & data & Hdata & Hlen).
  eapply (op_peek bl s1 a data); try done.
  { split_and!; [lia|lia|by rewrite Hd1|]. exists data. by rewrite Hv1. } { by rewrite Hv1. } { by rewrite Hd1. }
  intros j s2 Hf2 Hi2 Hd2 (x & Hx & Hxd) (s3 & Hrel & Hr3).
  eapply wpc_step; [exact Hx|]. cbn beta zeta. rewrite Hxd. eapply wpc_step; [reflexivity|]. cbn beta.
  change (0 =? -1) with false. cbn iota. eapply wpc_step; [exact Hrel|].
  set (m := Z.min (n - tot) (BSIZE - off mod BSIZE)).
  assert (0 < m ≤ n - tot) as Hm by (unfold m; lia).
  pose proof (reads_trans _ _ _ _ Hr1 Hr3) as Hr13. pose proof Hr13 as (Hop3 & _ & Hd3 & _ & Hv3).
  rewrite (block_slice (blk s) ip off m a data) by (done || lia).
  change (1024 / 4) with 256 in Hsz. rewrite (u32_small (off + m)) by (unfold m; lia).
  eapply wpc_mono; [eapply IH; try done|done|].
  - rewrite (reads_itable _ _ _ Hr13). done.
  - by eapply file_ok_ext.
  - lia.
  - lia.
  - lia.
  - pose proof (read_rounds_step off (n - tot) m Ho ltac:(lia) eq_refl). replace (n - (tot + m)) with (n - tot - m) by lia. lia.
  - by rewrite Hd3.
  - intros r s4 [-> Hr4]. split; [|by eapply reads_trans].
    f_equal. rewrite <- app_assoc. f_equal. replace (n - tot) with (m + (n - (tot + m))) by lia.
    rewrite file_bytes_app by lia. f_equal. unfold file_bytes. apply list_fmap_ext. intros k y _. by rewrite (file_byte_ext (blk s)).
Qed.

(** What [readi] reads: the bytes from [off], up to the end of the file. *)
Definition read_len (ip : inode) (off n : Z) : Z := Z.min n (i_size ip - off).

Lemma readi_local_ok bl s i ip off n C :
  op me pid [] bl s → k_itable s !! i = Some ip → file_ok s ip → 0 ≤ off ≤ i_size ip → 0 ≤ n → off + n < 2 ^ 32 →
  (length bl < NBUF)%nat → C (k_disk s) →
  wpc (disk_env me) C (readi_local fuel i off n s)
    (λ r s', r = (read_len ip off n, file_bytes (blk s) ip off (read_len ip off n)) ∧ reads bl s s').
Proof.
  intros Hop Hi Hok Ho Hn Hs Hr HC. pose proof (fo_size _ _ Hok) as Hsz. unfold MAXFILE, NINDIRECT, NDIRECT, BSIZE in Hsz.
  change (1024 / 4) with 256 in Hsz. unfold readi_local, readi_to.
  eapply wpc_step; [by apply geti_some|]. rewrite u32_small by lia.
  rewrite (proj2 (Z.ltb_ge (i_size ip) off)), (proj2 (Z.ltb_ge (off + n) off)) by lia. cbn [orb].
  assert ((if i_size ip <? off + n then i_size ip - off else n) = read_len ip off n) as ->
    by (unfold read_len; case_test; lia).
  cbn zeta. assert (0 ≤ read_len ip off n ≤ i_size ip - off) as Hrl by (unfold read_len; lia).
  apply wpc_bind. eapply wpc_mono; [eapply (readi_loop_ok (blocks_of (read_len ip off n)) bl s i ip); try done; try lia|done|].
  - rewrite Z.sub_0_r. apply read_rounds_blocks. lia.
  - intros r s' [-> Hrd]. unfold ret. cbn [wpc fst snd]. rewrite Z.sub_0_r, s32_small by lia. done.
Qed.


(** ** Directories *)

Lemma strncmp_buf k s t i :
  Forall (λ c, 0 ≤ c < 256) s → Forall (λ c, 0 ≤ c < 256) t → (i + k ≤ length s)%nat → (i + k ≤ length t)%nat →
  strncmp_loop k (buf_mem s) (Z.of_nat i) (buf_mem t) (Z.of_nat i) = 0 ↔
  c_string (take k (drop i s)) = c_string (take k (drop i t)).
Proof.
  intros Hs Ht. revert i. induction k as [|k IH]; intros i Hls Hlt; cbn [strncmp_loop]; [done|].
  destruct (lookup_lt_is_Some_2 s i) as [a Ha]; [lia|]. destruct (lookup_lt_is_Some_2 t i) as [b Hb]; [lia|].
  assert (buf_mem s (Z.of_nat i) = a) as -> by (unfold buf_mem; by rewrite Nat2Z.id, Ha).
  assert (buf_mem t (Z.of_nat i) = b) as -> by (unfold buf_mem; by rewrite Nat2Z.id, Hb).
  pose proof (Forall_lookup_1 _ _ _ _ Hs Ha) as Ra. pose proof (Forall_lookup_1 _ _ _ _ Ht Hb) as Rb. cbn beta in Ra, Rb.
  rewrite (drop_S _ _ _ Ha), (drop_S _ _ _ Hb). cbn [firstn c_string].
  destruct (Z.eqb_spec a 0) as [->|Ha0]; cbn [negb andb].
  - rewrite (u8_small 0), (u8_small b) by lia. destruct (Z.eqb_spec b 0); naive_solver lia.
  - destruct (Z.eqb_spec a b) as [->|Hab]; cbn [andb].
    + replace (Z.of_nat i + 1) with (Z.of_nat (S i)) by lia. rewrite IH by lia.
      rewrite (proj2 (Z.eqb_neq b 0)) by done. split; [by intros ->|by intros [=]].
    + rewrite !u8_small by lia. destruct (Z.eqb_spec b 0); split; try lia; naive_solver.
Qed.

(** Two names are the same up to their terminator and to [DIRSIZ] bytes. *)
Lemma namecmp_spec s t :
  Forall (λ c, 0 ≤ c < 256) s → Forall (λ c, 0 ≤ c < 256) t →
  (Z.to_nat DIRSIZ ≤ length s)%nat → (Z.to_nat DIRSIZ ≤ length t)%nat →
  namecmp s t = 0 ↔ c_string (take (Z.to_nat DIRSIZ) s) = c_string (take (Z.to_nat DIRSIZ) t).
Proof. intros Hs Ht Hls Hlt. apply (strncmp_buf (Z.to_nat DIRSIZ) s t 0 Hs Ht); lia. Qed.

(** Entry [k] of a directory, and whether it is a used entry for [name]. *)
Definition dir_entry (B : Z → option (list Z)) (dp : inode) (k : Z) : dirent :=
  get_dirent (file_bytes B dp (k * DIRENT_SIZE) DIRENT_SIZE).

Definition entry_is (B : Z → option (list Z)) (dp : inode) (name : list Z) (k : Z) : bool :=
  (negb (de_inum (dir_entry B dp k) =? 0) && (namecmp name (de_name (dir_entry B dp k)) =? 0))%bool.

Lemma dir_offs_at size pre off post :
  0 ≤ size → size mod DIRENT_SIZE = 0 → dir_offs size = pre ++ off :: post →
  off = Z.of_nat (length pre) * DIRENT_SIZE ∧ off + DIRENT_SIZE ≤ size.
Proof.
  intros Hs Hm E. assert (dir_offs size !! length pre = Some off) as H by (rewrite E; by apply list_lookup_middle).
  unfold dir_offs in H. rewrite list_lookup_fmap in H. apply fmap_Some in H as (k & Hk & ->).
  apply lookup_seqZ in Hk as [-> Hk]. unfold DIRENT_SIZE in *. split; [lia|].
  rewrite (Z.div_mod size 16), Hm in Hk by lia. replace (16 * (size / 16) + 0 + 16 - 1) with (15 + (size / 16) * 16) in Hk by lia.
  rewrite Z.div_add in Hk by lia. change (15 / 16) with 0 in Hk. pose proof (Z.div_mod size 16). lia.
Qed.

Lemma dir_offs_length size : 0 ≤ size → size mod DIRENT_SIZE = 0 → Z.of_nat (length (dir_offs size)) = size / DIRENT_SIZE.
Proof.
  intros Hs Hm. unfold dir_offs, DIRENT_SIZE in *. rewrite length_fmap, length_seqZ. pose proof (Z.div_pos size 16).
  rewrite (Z.div_mod size 16) at 1 by lia. rewrite Hm. replace (16 * (size / 16) + 0 + 16 - 1) with (15 + (size / 16) * 16) by lia.
  rewrite Z.div_add by lia. change (15 / 16) with 0. lia.
Qed.

Lemma file_bytes_ext B B' ip off n : (∀ m, B' m = B m) → file_bytes B' ip off n = file_bytes B ip off n.
Proof. intros H. unfold file_bytes. apply list_fmap_ext. intros k y _. by rewrite (file_byte_ext B). Qed.

Definition dirlookup_post (bl : list Z) (s : kstate) (dp : inode) (name : list Z) (r : option (nat * Z)) (s' : kstate) : Prop :=
  let n := i_size dp / DIRENT_SIZE in
  match r with
  | None => reads bl s s' ∧ ∀ k, 0 ≤ k < n → entry_is (blk s) dp name k = false
  | Some (j, off) =>
      ∃ k s1, off = k * DIRENT_SIZE ∧ 0 ≤ k < n ∧ entry_is (blk s) dp name k = true ∧
        (∀ k', 0 ≤ k' < k → entry_is (blk s) dp name k' = false) ∧
        reads bl s s1 ∧ iget ROOTDEV (de_inum (dir_entry (blk s) dp k)) s1 = Ret j s'
  end.

(** [iget] succeeds on any inode. *)
Definition itable_free (s : kstate) : Prop :=
  L_itable ∉ k_held s ∧ itable_ok (k_itable s) ∧ (∀ i ip, k_itable s !! i = Some ip → i_ref ip < 2 ^ 31 - 1) ∧
  ∃ i ip, k_itable s !! i = Some ip ∧ i_ref ip = 0.

Lemma iget_returns s dev inum : itable_free s → ∃ i s', iget dev inum s = Ret i s'.
Proof.
  intros (Hh & Hok & Hmax & j & jp & Hj & Hr). pose proof (iget_ok dev inum s Hh Hok Hmax) as H.
  destruct (decide _) as [HF|_]; [|naive_solver]. eapply Forall_lookup_1 in HF as [HF _]; [|done]. done.
Qed.

Lemma dirlookup_ok bl s i dp name C :
  op me pid [] bl s → k_itable s !! i = Some dp → file_ok s dp → i_type dp = T_DIR → i_size dp mod DIRENT_SIZE = 0 →
  itable_free s → (length bl < NBUF)%nat → C (k_disk s) →
  wpc (disk_env me) C (dirlookup fuel i name s) (dirlookup_post bl s dp name).
Proof.
  intros Hop Hi Hok Hty Hmod Hfree Hr HC. unfold dirlookup. eapply wpc_step; [by apply geti_some|].
  rewrite Hty. change (negb (T_DIR =? T_DIR)) with false. cbn iota.
  pose proof (fo_size _ _ Hok) as Hsz. unfold MAXFILE, NINDIRECT, NDIRECT, BSIZE in Hsz. change (1024 / 4) with 256 in Hsz.
  eapply (wpc_for_until _ _ _ (λ pre s', reads bl s s' ∧
    ∀ k, 0 ≤ k < Z.of_nat (length pre) → entry_is (blk s) dp name k = false)).
  { split; [by apply reads_refl|]. simpl. lia. }
  - intros pre off post s1 E [Hrd Hno]. apply dir_offs_at in E as [Eoff Hoff]; [|lia|done].
    pose proof Hrd as (Hop1 & Hf1 & Hd1 & _ & Hv1). pose proof (reads_itable _ _ _ Hrd) as Hit.
    assert (read_len dp off DIRENT_SIZE = DIRENT_SIZE) as Hrl by (unfold read_len; lia).
    apply wpc_bind. eapply wpc_mono; [eapply (readi_local_ok bl s1 i dp off DIRENT_SIZE); try done|done|].
    { by rewrite Hit. } { by eapply file_ok_ext. } { unfold DIRENT_SIZE in *. lia. } { unfold DIRENT_SIZE in *. lia. } { by rewrite Hd1. }
    intros r s2 [-> Hrd2]. cbn [fst snd]. rewrite Hrl. change (negb (DIRENT_SIZE =? DIRENT_SIZE)) with false. cbn iota zeta.
    rewrite (file_bytes_ext (blk s)), Eoff by done. fold (dir_entry (blk s) dp (Z.of_nat (length pre))).
    set (k := Z.of_nat (length pre)) in *. set (de := dir_entry (blk s) dp k) in *.
    pose proof (reads_trans _ _ _ _ Hrd Hrd2) as Hrd12.
    assert (entry_is (blk s) dp name k = false → reads bl s s2 ∧
      ∀ k', 0 ≤ k' < Z.of_nat (length (pre ++ [off])) → entry_is (blk s) dp name k' = false) as Hskip.
    { intros Hk. split; [done|]. rewrite length_app. simpl length. intros k' Hk'.
      destruct (decide (k' = k)) as [->|]; [done|]. apply Hno. unfold k in *. lia. }
    rewrite <- Eoff in *. destruct (de_inum de =? 0) eqn:E0.
    { apply Hskip. unfold entry_is. fold de. by rewrite E0. }
    destruct (namecmp name (de_name de) =? 0) eqn:E1; [|apply Hskip; unfold entry_is; fold de; by rewrite E0, E1].
    rewrite (fo_dev _ _ Hok).
    assert (itable_free s2) as Hfree2.
    { destruct Hfree as (A1 & A2 & A3 & A4). unfold itable_free. rewrite (reads_itable _ _ _ Hrd12). split_and!; try done.
      destruct Hrd12 as (O2 & _). rewrite (th_held _ _ _ (op_thread _ _ _ _ _ O2)). apply not_elem_of_nil. }
    destruct (iget_returns s2 ROOTDEV (de_inum de) Hfree2) as (j & s3 & Hget). eapply wpc_step; [exact Hget|].
    exists k, s2. split_and!; try done; [unfold k; lia| |].
    + assert (k * DIRENT_SIZE + DIRENT_SIZE ≤ i_size dp) as Hle by lia.
      unfold DIRENT_SIZE in *. apply (Z.lt_le_trans _ (k + 1)); [lia|]. apply Z.div_le_lower_bound; lia.
    + unfold entry_is. fold de. by rewrite E0, E1.
  - intros s1 [Hrd Hno]. split; [done|]. intros k Hk. apply Hno. rewrite dir_offs_length by (lia || done). done.
Qed.

End inodes.

(** ** What the theorems say *)

(** The inode [inum] as it is on disk (or will be, when the transaction commits). *)
Definition dinode_on_disk (s : kstate) (inum : Z) : dinode :=
  get_dinode (default [] (blk s (IBLOCK inum (k_sb s)))) (dinode_off inum).

Lemma get16_range l off : Forall (λ c, 0 ≤ c < 256) l → 0 ≤ get16 l off < 65536.
Proof.
  intros H. unfold get16. assert (Forall (λ c, 0 ≤ c < 256) (drop off l)) as H' by (by apply Forall_drop).
  destruct (drop off l) as [|a [|b l']]; simpl; [lia|..]; repeat (apply Forall_cons in H' as [? H']); lia.
Qed.

Lemma get32_range l off : Forall (λ c, 0 ≤ c < 256) l → 0 ≤ get32 l off < 2 ^ 32.
Proof.
  intros H. unfold get32. assert (Forall (λ c, 0 ≤ c < 256) (drop off l)) as H' by (by apply Forall_drop).
  destruct (drop off l) as [|a [|b [|c [|d l']]]]; simpl; [lia|..]; repeat (apply Forall_cons in H' as [? H']); lia.
Qed.

Lemma s16_range x : -32768 ≤ s16 x < 32768.
Proof. unfold s16. pose proof (u16_range x). case_test; lia. Qed.



Section claims.
Context (me : nat) (pid : Z) `{D : Device} (fuel : nat).
Hypothesis Hfuel : enough_fuel fuel.

(** C7: [balloc] returns the lowest-numbered free block, marked as used and filled
    with zeros, with no other block marked, unmarked or changed; it returns 0 exactly
    when every block is in use, and then changes no block.  In both cases the free
    map stays well-formed, the disk itself is not written (the changes are in the
    transaction), and the call does not panic. *)
Theorem balloc_correct bl s :
  alloc_pre me pid [] bl 2 s →
  wpc (disk_env me) (λ d, d = k_disk s) (balloc fuel ROOTDEV s) (balloc_post me pid [] bl s).
Proof. by apply balloc_ok. Qed.

(** [bfree] frees exactly the block it is given: afterwards that block is free,
    every other block is as used as before, and no block but the one that holds its
    bit of the free map changed. *)
Theorem bfree_correct bl s b :
  alloc_pre me pid [] bl 1 s → 0 ≤ b < sb_size (k_sb s) → used (k_sb s) (blk s) b = true →
  wpc (disk_env me) (λ d, d = k_disk s) (bfree fuel ROOTDEV b s) (λ _ s',
    op me pid [] (logs bl (BBLOCK b (k_sb s))) s' ∧ k_disk s' = k_disk s ∧
    (∀ m, m ≠ BBLOCK b (k_sb s) → blk s' m = blk s m) ∧
    ∀ b', 0 ≤ b' < sb_size (k_sb s) →
      used (k_sb s) (blk s') b' = (used (k_sb s) (blk s) b' && negb (b =? b'))%bool).
Proof. intros. by eapply bfree_ok. Qed.

(** [iupdate] writes one inode: afterwards the on-disk inode of [ip] is the
    in-memory one, field by field, every other on-disk inode is as before, also those
    in the same block, and no other block changed. *)
Theorem iupdate_correct bl s i ip data :
  op me pid [] bl s → k_itable s !! i = Some ip → i_dev ip = ROOTDEV → inode_block s (i_inum ip) data →
  dinode_typed (dinode_of ip) → (length bl < NBUF)%nat → Z.of_nat (length bl) < lg_size (k_log s) - 1 →
  wpc (disk_env me) (λ d, d = k_disk s) (iupdate fuel i s) (λ _ s',
    op me pid [] (logs bl (IBLOCK (i_inum ip) (k_sb s))) s' ∧ k_disk s' = k_disk s ∧ k_itable s' = k_itable s ∧
    dinode_on_disk s' (i_inum ip) = dinode_of ip ∧
    (∀ inum, inum mod IPB ≠ i_inum ip mod IPB ∨ IBLOCK inum (k_sb s) ≠ IBLOCK (i_inum ip) (k_sb s) →
       dinode_on_disk s' inum = dinode_on_disk s inum) ∧
    (∀ m, m ≠ IBLOCK (i_inum ip) (k_sb s) → blk s' m = blk s m)).
Proof.
  intros Hop Hi Hdev Hib Hty Hr Hs. pose proof Hib as [Rn Hb Hlen Hd].
  eapply (iupdate_ok me pid fuel Hfuel bl s i ip data); try done.
  intros s' Hop' Hf Hd' _ Hv. pose proof (dinode_off_fits (i_inum ip)) as Hfit.
  assert (k_sb s' = k_sb s) as Esb by (by apply fs_frame_sb).
  split_and!; try done; unfold dinode_on_disk; rewrite ?Esb.
  - unfold fs_frame in Hf. by rewrite Hf.
  - rewrite Hv, decide_True by done. apply get_put_dinode; [done|simpl; lia].
  - intros inum Hne. rewrite Hv. case_decide as E; [|done]. rewrite E, Hb. simpl. apply get_put_dinode_ne.
    + apply Hty.
    + lia.
    + destruct Hne as [Hne|Hne]; [|done]. unfold dinode_off, DINODE_SIZE in *.
      pose proof (Z.mod_pos_bound inum IPB ltac:(done)). pose proof (Z.mod_pos_bound (i_inum ip) IPB ltac:(done)). lia.
  - intros m Hm. by rewrite Hv, decide_False.
Qed.

(** [ilock] locks an inode and, when it was not read yet, loads exactly the
    on-disk inode into it and marks it valid; a valid one is locked as it is.  No
    block, no other table entry and nothing on the disk changes. *)
Theorem ilock_correct bl s i ip data :
  op me pid [] bl s → k_itable s !! i = Some ip → i_dev ip = ROOTDEV → 1 ≤ i_ref ip → sl_locked (i_lock ip) = 0 →
  inode_block s (i_inum ip) data → (length bl < NBUF)%nat →
  (i_valid ip = 0 → di_type (dinode_on_disk s (i_inum ip)) ≠ 0) →
  wpc (disk_env me) (λ d, d = k_disk s) (ilock fuel (Some i) s) (λ _ s',
    op me pid [] bl s' ∧ ifs_frame s s' ∧ k_disk s' = k_disk s ∧ (∀ m, blk s' m = blk s m) ∧
    ∃ ip', k_itable s' = <[i := ip']> (k_itable s) ∧ i_lock ip' = mk_sl 1 pid ∧
      i_inum ip' = i_inum ip ∧ i_ref ip' = i_ref ip ∧
      if i_valid ip =? 0 then i_valid ip' = 1 ∧ dinode_of ip' = dinode_on_disk s (i_inum ip)
      else ip' = set_i_lock (mk_sl 1 pid) ip).
Proof.
  intros Hop Hi Hdev Href Hl Hib Hr Hty. pose proof Hib as [_ Hb _ _]. unfold dinode_on_disk in *. rewrite Hb in *. simpl default in *.
  eapply wpc_mono; [by eapply (ilock_ok me pid fuel Hfuel bl s i ip data (λ d, d = k_disk s))|done|].
  intros _ s' (H1 & H2 & H3 & _ & H5 & H6).
  split_and!; try done. eexists. split; [exact H6|]. by destruct (i_valid ip =? 0).
Qed.

(** C9: [readi] of a file returns its bytes: from [off] on, [n] of them or as many
    as there are up to the end of the file, block by block through the direct and
    the indirect addresses; it allocates nothing and changes no block. *)
Theorem readi_correct bl s i ip off n :
  op me pid [] bl s → k_itable s !! i = Some ip → file_ok s ip → 0 ≤ off ≤ i_size ip → 0 ≤ n → off + n < 2 ^ 32 →
  (length bl < NBUF)%nat →
  wpc (disk_env me) (λ d, d = k_disk s) (readi_local fuel i off n s)
    (λ r s', r = (read_len ip off n, file_bytes (blk s) ip off (read_len ip off n)) ∧ reads me pid bl s s').
Proof. intros. by apply readi_local_ok. Qed.

(** C8: [dirlookup] finds a name: it returns the inode and the offset of the first
    used entry of the directory whose name is [name] up to [DIRSIZ] characters, and
    null exactly when there is none; it reads the whole directory across its blocks
    and changes no block. *)
Theorem dirlookup_correct bl s i dp name :
  op me pid [] bl s → k_itable s !! i = Some dp → file_ok s dp → i_type dp = T_DIR → i_size dp mod DIRENT_SIZE = 0 →
  itable_free s → (length bl < NBUF)%nat →
  wpc (disk_env me) (λ d, d = k_disk s) (dirlookup fuel i name s) (dirlookup_post me pid bl s dp name).
Proof. intros. by apply dirlookup_ok. Qed.

End claims.

(** ** A small file system

    64 blocks: the log at 2, inodes at 33, the free map at 46 (blocks 0 to 50 in
    use), and the root directory in block 50 with the entries "." and "..". *)

Definition demo_sb : superblock := mk_sb FSMAGIC 64 17 200 31 2 33 46.
Definition root_dinode : dinode := mk_dinode T_DIR 0 0 1 32 (50 :: replicate 12 0).
Definition root_dir : list Z :=
  dirent_bytes (mk_dirent 1 (strncpy_name (cstr "."))) ++ dirent_bytes (mk_dirent 1 (strncpy_name (cstr ".."))) ++
  replicate 992 0.

Definition fs_block (n : Z) : list Z :=
  if n =? 46 then replicate 6 255 ++ 7 :: replicate 1017 0
  else if n =? 33 then put_dinode (dinode_off 1) root_dinode zeros
  else if n =? 50 then root_dir else zeros.

Definition fs_disk : diskmap := list_to_map ((λ n, (n, fs_block n)) <$> seqZ 0 64).

(** A disk given block by block. *)
Lemma seq_disk {A} (f : Z → A) N n : 0 ≤ n < N → (list_to_map ((λ n, (n, f n)) <$> seqZ 0 N) : gmap Z A) !! n = Some (f n).
Proof.
  intros H. apply elem_of_list_to_map_1.
  - rewrite <- list_fmap_compose. rewrite (list_fmap_ext _ id), list_fmap_id by done. apply NoDup_seqZ.
  - apply list_elem_of_fmap. exists n. split; [done|]. rewrite elem_of_seqZ. lia.
Qed.

Lemma fs_disk_at n : 0 ≤ n < 64 → fs_disk !! n = Some (fs_block n).
Proof. apply seq_disk. Qed.

Lemma fs_block_len n : length (fs_block n) = 1024%nat.
Proof. unfold fs_block. repeat case_match; by vm_compute. Qed.

(** The root directory in the inode table, read or not. *)
Definition root_inode (valid : Z) : inode :=
  set_i_valid valid (load_inode root_dinode (mk_inode ROOTDEV ROOTINO 1 (mk_sl 0 0) 0 0 0 0 0 0 (replicate 13 0))).

Definition fs_machine (valid : Z) : kstate :=
  set_k_itable (root_inode valid :: replicate 49 zero_inode)
    (set_k_sb demo_sb (log_machine (mk_log 2 31 1 0 ROOTDEV 0 (replicate 30 0)) fs_disk)).

Lemma fs_machine_bufs v : k_bufs (fs_machine v) = fresh_cache.
Proof. unfold fs_machine. cbn [k_bufs set_k_itable set_k_sb]. apply log_machine_bufs. Qed.

Lemma fs_machine_blk v m : 0 ≤ m < 64 → blk (fs_machine v) m = Some (fs_block m).
Proof. intros H. rewrite blk_fresh by apply fs_machine_bufs. by apply fs_disk_at. Qed.

Lemma fs_machine_op v : op 0 3 [] [] (fs_machine v).
Proof.
  exists []. split_and!.
  - split; try reflexivity; [|by (eexists; apply bio_fresh; [apply fs_machine_bufs|apply ready_idle])|constructor..].
    split; try reflexivity. eexists. split_and!; reflexivity.
  - intros m _. apply blk_fresh, fs_machine_bufs.
  - done.
Qed.

Lemma fs_machine_bblock b : 0 ≤ b < 64 → BBLOCK b demo_sb = 46.
Proof.
  intros H. unfold BBLOCK, BPB, BSIZE. rewrite (Z.div_small b) by lia. reflexivity.
Qed.

Lemma fs_machine_used v b : 0 ≤ b < 64 → used demo_sb (blk (fs_machine v)) b = negb (bit_clear (fs_block 46) b).
Proof.
  intros H. unfold used. rewrite fs_machine_bblock, fs_machine_blk by lia. unfold BPB, BSIZE. by rewrite Z.mod_small by lia.
Qed.

Lemma fs_machine_pre v k : (k ≤ 29)%nat → alloc_pre 0 3 [] [] k (fs_machine v).
Proof.
  intros Hk. split; [apply fs_machine_op|apply aside_nil| | |unfold NBUF; simpl; lia|simpl; lia].
  - split.
    + unfold BPB, BSIZE. simpl. lia.
    + change (0 ≤ 46 ∧ 46 + 64 / BPB < 64). unfold BPB, BSIZE. change (64 / (1024 * 8)) with 0. lia.
    + intros m Hm. exists (fs_block m). split; [by apply fs_machine_blk|apply fs_block_len].
    + rewrite fs_machine_used by lia. reflexivity.
    + intros b Hb. rewrite fs_machine_bblock by done. rewrite fs_machine_used by lia. reflexivity.
  - intros m Hm. exists (fs_block m). by apply fs_disk_at.
Qed.

Lemma balloc_correct_witness :
  wpc (@disk_env qemu_disk 0) (λ d, d = fs_disk) (balloc 2 ROOTDEV (fs_machine 1)) (balloc_post 0 3 [] [] (fs_machine 1)) ∧
  used demo_sb (blk (fs_machine 1)) 51 = false.
Proof.
  split; [|rewrite fs_machine_used by lia; reflexivity].
  apply (@balloc_correct 0 3 qemu_disk 2 (le_n 2) [] (fs_machine 1)). apply fs_machine_pre. lia.
Defined.

Lemma bfree_correct_witness :
  wpc (@disk_env qemu_disk 0) (λ d, d = fs_disk) (bfree 2 ROOTDEV 50 (fs_machine 1))
    (λ _ s', used demo_sb (blk s') 50 = false).
Proof.
  eapply wpc_mono; [apply (@bfree_correct 0 3 qemu_disk 2 (le_n 2) [] (fs_machine 1) 50)|..].
  - apply fs_machine_pre. lia.
  - simpl. lia.
  - change (used demo_sb (blk (fs_machine 1)) 50 = true). rewrite fs_machine_used by lia. reflexivity.
  - done.
  - intros _ s' (_ & _ & _ & Hu). etrans; [apply (Hu 50); simpl; lia|]. apply andb_false_r.
Defined.

Lemma fs_machine_inode v : inode_block (fs_machine v) 1 (fs_block 33).
Proof.
  split; change (IBLOCK 1 (k_sb (fs_machine v))) with 33; [lia|by apply fs_machine_blk|apply fs_block_len|].
  exists (fs_block 33). by apply fs_disk_at.
Qed.

Lemma root_dinode_typed : dinode_typed root_dinode.
Proof. split; try reflexivity; try (simpl; unfold T_DIR; lia). repeat (constructor; [lia|]). constructor. Qed.

Lemma iupdate_correct_witness :
  wpc (@disk_env qemu_disk 0) (λ d, d = fs_disk) (iupdate 2 0 (fs_machine 1))
    (λ _ s', dinode_on_disk s' 1 = root_dinode).
Proof.
  eapply wpc_mono; [apply (@iupdate_correct 0 3 qemu_disk 2 (le_n 2) [] (fs_machine 1) 0 (root_inode 1) (fs_block 33))|..].
  - apply fs_machine_op.
  - reflexivity.
  - reflexivity.
  - apply fs_machine_inode.
  - exact root_dinode_typed.
  - unfold NBUF. simpl. lia.
  - simpl. lia.
  - done.
  - intros _ s' (_ & _ & _ & H & _). exact H.
Defined.

Lemma fs_machine_dinode v : dinode_on_disk (fs_machine v) 1 = root_dinode.
Proof.
  unfold dinode_on_disk. change (IBLOCK 1 (k_sb (fs_machine v))) with 33. rewrite fs_machine_blk by lia.
  simpl default. apply get_put_dinode; [exact root_dinode_typed|]. vm_compute. lia.
Qed.

Lemma ilock_correct_witness :
  wpc (@disk_env qemu_disk 0) (λ d, d = fs_disk) (ilock 2 (Some 0%nat) (fs_machine 0))
    (λ _ s', ∃ ip, k_itable s' !! 0%nat = Some ip ∧ dinode_of ip = root_dinode ∧ i_lock ip = mk_sl 1 3).
Proof.
  eapply wpc_mono; [apply (@ilock_correct 0 3 qemu_disk 2 (le_n 2) [] (fs_machine 0) 0 (root_inode 0) (fs_block 33))|..].
  - apply fs_machine_op.
  - reflexivity.
  - reflexivity.
  - simpl. lia.
  - reflexivity.
  - apply fs_machine_inode.
  - unfold NBUF. simpl. lia.
  - intros _. change (i_inum (root_inode 0)) with 1. rewrite fs_machine_dinode. done.
  - done.
  - intros _ s' (_ & _ & _ & _ & ip & Hit & Hl & _ & _ & _ & Hd). exists ip.
    change (i_inum (root_inode 0)) with 1 in Hd. rewrite fs_machine_dinode in Hd.
    split_and!; [by rewrite Hit|exact Hd|exact Hl].
Defined.

Lemma fs_machine_file : file_ok (fs_machine 1) (root_inode 1).
Proof.
  split.
  - reflexivity.
  - change (0 ≤ 32 ≤ MAXFILE * BSIZE). vm_compute. split; discriminate.
  - intros bn H0 Hlt. change (bn * BSIZE < 32) in Hlt. unfold BSIZE in Hlt. assert (bn = 0) as -> by lia.
    exists 50. split; [reflexivity|]. split_and!; [lia..| |].
    + exists (fs_block 50). by apply fs_disk_at.
    + exists (fs_block 50). split; [by apply fs_machine_blk|apply fs_block_len].
  - intros H. change (12 * 1024 < 32) in H. lia.
Qed.

Lemma readi_correct_witness :
  wpc (@disk_env qemu_disk 0) (λ d, d = fs_disk) (readi_local 2 0 16 100 (fs_machine 1)) (λ r _, r.1 = 16).
Proof.
  eapply wpc_mono; [apply (@readi_correct 0 3 qemu_disk 2 (le_n 2) [] (fs_machine 1) 0 (root_inode 1) 16 100)|..].
  - apply fs_machine_op.
  - reflexivity.
  - apply fs_machine_file.
  - change (0 ≤ 16 ≤ 32). lia.
  - lia.
  - lia.
  - unfold NBUF. simpl. lia.
  - done.
  - intros r s' [-> _]. reflexivity.
Defined.

Lemma fs_machine_entry v i ip :
  k_itable (fs_machine v) !! i = Some ip → (i = 0%nat ∧ ip = root_inode v) ∨ ip = zero_inode.
Proof.
  change (k_itable (fs_machine v)) with ([root_inode v] ++ replicate 49 zero_inode). intros H.
  apply lookup_app_Some in H as [H|[_ H]].
  - left. destruct i; [by injection H as <-|done].
  - right. by apply lookup_replicate_1 in H as [-> _].
Qed.

Lemma fs_machine_itable v : itable_free (fs_machine v).
Proof.
  split_and!.
  - apply not_elem_of_nil.
  - split.
    + intros i ip [[_ ->]| ->]%fs_machine_entry; simpl; lia.
    + intros i j ip jp [[-> ->]| ->]%fs_machine_entry [[-> ->]| ->]%fs_machine_entry Hr Hm; done.
  - intros i ip [[_ ->]| ->]%fs_machine_entry; simpl; lia.
  - exists 1%nat, zero_inode. split; reflexivity.
Qed.

Lemma dirlookup_correct_witness :
  wpc (@disk_env qemu_disk 0) (λ d, d = fs_disk) (dirlookup 2 0 (strncpy_name (cstr "..")) (fs_machine 1))
    (dirlookup_post 0 3 [] (fs_machine 1) (root_inode 1) (strncpy_name (cstr ".."))).
Proof.
  apply (@dirlookup_correct 0 3 qemu_disk 2 (le_n 2) [] (fs_machine 1) 0 (root_inode 1)).
  - apply fs_machine_op.
  - reflexivity.
  - apply fs_machine_file.
  - reflexivity.
  - reflexivity.
  - apply fs_machine_itable.
  - unfold NBUF. simpl. lia.
Defined.
