(* ===== verification/FsWrite.v ===== *)
(** * Writing files

    [bmap] and [writei] of [Fs] inside a transaction: files grow block by block
    through the direct addresses and the indirect block, and keep what they hold. *)

From Stdlib Require Import ZArith Lia.
From S2P Require Import Prelude Machine Kernel Boot CString Printf Kalloc Vm ProcTable Seq Sleeplock Virtio Bio Log Crash Trans File Fs FsData FsAlloc FsSpec.

(** ** The layout of the disk and the blocks of a file *)

(** A block of the data area: not the boot block, the free map or an inode block. *)
Record data_block (sb : superblock) (n : Z) : Prop := {
  db_range : 0 < n < sb_size sb;
  db_map b : 0 ≤ b < sb_size sb → BBLOCK b sb ≠ n;
  db_inode inum : 1 ≤ inum < sb_ninodes sb → IBLOCK inum sb ≠ n
}.

(** The free map is one block, as mkfs makes it, and knows the inode blocks. *)
Record fs_layout (s : kstate) : Prop := {
  fl_map : bitmap_ok (k_sb s) (blk s);
  fl_one : sb_size (k_sb s) ≤ BPB;
  fl_disk m : 0 ≤ m < sb_size (k_sb s) → is_Some (k_disk s !! m);
  fl_inode inum : 1 ≤ inum < sb_ninodes (k_sb s) →
    0 ≤ IBLOCK inum (k_sb s) < sb_size (k_sb s) ∧ used (k_sb s) (blk s) (IBLOCK inum (k_sb s)) = true ∧
    ∀ b, 0 ≤ b < sb_size (k_sb s) → BBLOCK b (k_sb s) ≠ IBLOCK inum (k_sb s);
  fl_nowrap inum : 1 ≤ inum < sb_ninodes (k_sb s) → IBLOCK inum (k_sb s) = inum / IPB + sb_inodestart (k_sb s)
}.

(** The indirect block of a file. *)
Definition file_ind (ip : inode) : option Z :=
  a ← i_addrs ip !! Z.to_nat NDIRECT; if a =? 0 then None else Some a.

(** The blocks a file holds. *)
Definition owns (B : Z → option (list Z)) (ip : inode) (n : Z) : Prop :=
  (∃ bn, 0 ≤ bn ∧ file_addr B ip bn = Some n) ∨ file_ind ip = Some n.

Record file_wf (s : kstate) (ip : inode) : Prop := {
  fw_dev : i_dev ip = ROOTDEV;
  fw_size : 0 ≤ i_size ip ≤ MAXFILE * BSIZE;
  fw_typed : dinode_typed (dinode_of ip);
  fw_own n : owns (blk s) ip n → data_block (k_sb s) n ∧ used (k_sb s) (blk s) n = true;
  fw_inj bn bn' n : 0 ≤ bn → 0 ≤ bn' → file_addr (blk s) ip bn = Some n → file_addr (blk s) ip bn' = Some n → bn = bn';
  fw_ind bn n : 0 ≤ bn → file_addr (blk s) ip bn = Some n → file_ind ip ≠ Some n;
  fw_full bn : 0 ≤ bn → bn * BSIZE < i_size ip → is_Some (file_addr (blk s) ip bn)
}.

(** Byte [k] of a file; a hole reads as zero. *)
Definition file_get (B : Z → option (list Z)) (ip : inode) (k : Z) : Z := default 0 (file_byte B ip k).

(** The addresses in the indirect block, read by its contents. *)
Definition ind_addr (data : option (list Z)) (j : Z) : option Z :=
  d ← data; let a := get32 d (Z.to_nat (4 * j)) in if a =? 0 then None else Some a.

Lemma file_addr_direct B ip bn :
  bn < NDIRECT → file_addr B ip bn = (a ← i_addrs ip !! Z.to_nat bn; if a =? 0 then None else Some a).
Proof. intros H. unfold file_addr. by rewrite (proj2 (Z.ltb_lt _ _)). Qed.

Lemma file_addr_ind B ip bn :
  NDIRECT ≤ bn < MAXFILE → file_addr B ip bn = (i ← file_ind ip; ind_addr (B i) (bn - NDIRECT)).
Proof.
  intros [H1 H2]. unfold MAXFILE in H2. unfold file_addr, file_ind, ind_addr.
  rewrite (proj2 (Z.ltb_ge _ _)) by lia. rewrite (proj2 (Z.ltb_lt _ NINDIRECT)) by lia.
  destruct (i_addrs ip !! _) as [i|]; simpl; [|done]. destruct (i =? 0); simpl; [done|]. by destruct (B i).
Qed.

Lemma file_addr_out B ip bn : MAXFILE ≤ bn → file_addr B ip bn = None.
Proof.
  intros H. unfold MAXFILE, NINDIRECT, NDIRECT, BSIZE in H. unfold file_addr. change (1024 / 4) with 256 in H. rewrite (proj2 (Z.ltb_ge _ NDIRECT)) by (unfold NDIRECT; lia).
  rewrite (proj2 (Z.ltb_ge _ NINDIRECT)) by (unfold NDIRECT, NINDIRECT, BSIZE; change (1024 / 4) with 256; lia). done.
Qed.

Lemma file_addr_nz B ip bn n : file_addr B ip bn = Some n → n ≠ 0.
Proof. unfold file_addr. intros (x & _ & H)%bind_Some. destruct (Z.eqb_spec x 0); by simplify_eq. Qed.

Lemma file_ind_nz ip n : file_ind ip = Some n → n ≠ 0 ∧ i_addrs ip !! Z.to_nat NDIRECT = Some n.
Proof. unfold file_ind. intros (x & Hx & H)%bind_Some. destruct (Z.eqb_spec x 0); by simplify_eq. Qed.

(** The three ranges of a block number. *)
Lemma file_addr_cases bn : bn < NDIRECT ∨ NDIRECT ≤ bn < MAXFILE ∨ MAXFILE ≤ bn.
Proof. lia. Qed.

(** Addresses depend on the indirect block alone. *)
Lemma file_addr_same B B' ip bn : (∀ n, file_ind ip = Some n → B' n = B n) → file_addr B' ip bn = file_addr B ip bn.
Proof.
  intros H. destruct (file_addr_cases bn) as [?|[?|?]].
  - by rewrite !file_addr_direct.
  - rewrite !file_addr_ind by done. destruct (file_ind ip); simpl; [by rewrite H|done].
  - by rewrite !file_addr_out.
Qed.

Lemma file_get_addr B ip k n :
  file_addr B ip (k / BSIZE) = Some n → file_get B ip k = default 0 (d ← B n; d !! Z.to_nat (k mod BSIZE)).
Proof. intros H. unfold file_get, file_byte. by rewrite H. Qed.

Lemma file_get_hole B ip k : file_addr B ip (k / BSIZE) = None → file_get B ip k = 0.
Proof. intros H. unfold file_get, file_byte. by rewrite H. Qed.

Lemma zero_block_get k : default 0 (zero_block !! k) = 0.
Proof. unfold zero_block. destruct (_ !! k) eqn:E; [|done]. by apply lookup_replicate_1 in E as [-> _]. Qed.

Lemma zero_block_get32 k : get32 zero_block k = 0.
Proof.
  unfold get32, zero_block. rewrite drop_replicate, take_replicate. generalize (4 `min` (Z.to_nat BSIZE - k))%nat.
  intros n. induction n as [|n IH]; simpl; [done|]. by rewrite IH.
Qed.

(** A block becomes direct block [bn] of a file, its indirect block, or an entry of
    the indirect block. *)
Lemma addr_direct B B' ip bn r :
  length (i_addrs ip) = 13%nat → 0 ≤ bn < NDIRECT → r ≠ 0 → (∀ n, file_ind ip = Some n → B' n = B n) →
  let ip' := set_i_addrs (<[Z.to_nat bn := r]> (i_addrs ip)) ip in
  file_ind ip' = file_ind ip ∧
  ∀ bn', 0 ≤ bn' → file_addr B' ip' bn' = if decide (bn' = bn) then Some r else file_addr B ip bn'.
Proof.
  intros Hlen Hbn Hr HB ip'. unfold NDIRECT in Hbn.
  assert (file_ind ip' = file_ind ip) as Hind.
  { unfold file_ind, ip', NDIRECT. cbn [i_addrs set_i_addrs]. by rewrite list_lookup_insert_ne by lia. }
  split; [done|]. intros bn' H0. destruct (file_addr_cases bn') as [Hlt|[?|?]].
  - rewrite !file_addr_direct by done. unfold ip'. cbn [i_addrs set_i_addrs]. unfold NDIRECT in Hlt. case_decide as E.
    + subst bn'. rewrite list_lookup_insert_eq by lia. simpl. by rewrite (proj2 (Z.eqb_neq r 0)).
    + by rewrite list_lookup_insert_ne by lia.
  - rewrite decide_False by (unfold NDIRECT in *; lia). rewrite !file_addr_ind, Hind by done.
    destruct (file_ind ip) as [n|] eqn:En; simpl; [by rewrite HB|done].
  - rewrite decide_False by (unfold MAXFILE, NINDIRECT, NDIRECT, BSIZE in *; change (1024 / 4) with 256 in *; lia).
    by rewrite !file_addr_out.
Qed.

Lemma addr_indirect B B' ip r :
  length (i_addrs ip) = 13%nat → file_ind ip = None → r ≠ 0 → B' r = Some zero_block →
  let ip' := set_i_addrs (<[Z.to_nat NDIRECT := r]> (i_addrs ip)) ip in
  file_ind ip' = Some r ∧ ∀ bn, 0 ≤ bn → file_addr B' ip' bn = file_addr B ip bn.
Proof.
  intros Hlen Ha Hr HB ip'.
  assert (file_ind ip' = Some r) as Hind.
  { unfold file_ind, ip', NDIRECT. cbn [i_addrs set_i_addrs]. rewrite list_lookup_insert_eq by (rewrite Hlen; vm_compute; lia). simpl.
    by rewrite (proj2 (Z.eqb_neq r 0)). }
  split; [done|]. intros bn H0. destruct (file_addr_cases bn) as [Hlt|[?|?]].
  - rewrite !file_addr_direct by done. unfold ip'. cbn [i_addrs set_i_addrs].
    unfold NDIRECT in *. by rewrite list_lookup_insert_ne by lia.
  - rewrite !file_addr_ind, Hind, Ha by done. simpl. rewrite HB. unfold ind_addr. simpl. by rewrite zero_block_get32.
  - by rewrite !file_addr_out.
Qed.

Lemma addr_entry B B' ip ind data bn r :
  file_ind ip = Some ind → B ind = Some data → length data = 1024%nat → NDIRECT ≤ bn < MAXFILE → 0 < r < 2 ^ 32 →
  B' ind = Some (put32 (Z.to_nat (4 * (bn - NDIRECT))) r data) →
  ∀ bn', 0 ≤ bn' → file_addr B' ip bn' = if decide (bn' = bn) then Some r else file_addr B ip bn'.
Proof.
  intros Hind Hdt Hlen Hbn Hr HB bn' H0. pose proof Hbn as Hbn'.
  unfold MAXFILE, NINDIRECT, BSIZE in Hbn'. change (1024 / 4) with 256 in Hbn'. case_decide as E.
  - subst bn'. rewrite file_addr_ind, Hind by done. simpl. rewrite HB. unfold ind_addr. simpl.
    rewrite get_put32, u32_small by lia. by rewrite (proj2 (Z.eqb_neq r 0)) by lia.
  - destruct (file_addr_cases bn') as [?|[Hr'|?]].
    + by rewrite !file_addr_direct by done.
    + rewrite !file_addr_ind, Hind by done. simpl. rewrite HB, Hdt. unfold ind_addr. simpl.
      unfold MAXFILE, NINDIRECT, BSIZE in Hr'. change (1024 / 4) with 256 in Hr'. by rewrite get_put32_ne by lia.
    + by rewrite !file_addr_out.
Qed.

(** What a data block is not. *)
Lemma data_block_free s r :
  fs_layout s → 0 < r < sb_size (k_sb s) → used (k_sb s) (blk s) r = false → data_block (k_sb s) r.
Proof.
  intros [Hm _ _ Hi _] Hr Hu. split; [done| |].
  - intros b Hb E. pose proof (bm_self _ _ Hm b Hb) as H. rewrite E in H. congruence.
  - intros inum Hin E. destruct (Hi inum Hin) as (_ & H & _). rewrite E in H. congruence.
Qed.

Lemma bblock_one s b : fs_layout s → 0 ≤ b < sb_size (k_sb s) → BBLOCK b (k_sb s) = BBLOCK 0 (k_sb s).
Proof. intros Hl Hb. pose proof (fl_one _ Hl). unfold BBLOCK. by rewrite !Z.div_small by lia. Qed.

(** ** Steps of a transaction that writes one file *)

Section write.
Context (me : nat) (pid : Z) `{D : Device} (fuel : nat) (i : nat).
Hypothesis Hfuel : enough_fuel fuel.

(** The state a file system call may change, and the console. *)
Definition wframe (s s' : kstate) : Prop := fs_frame (set_k_out (k_out s') (set_k_itable (k_itable s') s)) s'.

Lemma wframe_sb s s' : wframe s s' → k_sb s' = k_sb s.
Proof. unfold wframe. intros H%fs_frame_sb. done. Qed.

Lemma wframe_trans s1 s2 s3 : wframe s1 s2 → wframe s2 s3 → wframe s1 s3.
Proof. unfold wframe, fs_frame. intros H1 H2. rewrite H2, H1. done. Qed.

Lemma wframe_fs s s' : fs_frame s s' → wframe s s'.
Proof. unfold wframe, fs_frame. intros ->. by destruct s. Qed.

(** From [s] to [s'] the file of table entry [i] keeps its blocks and gets new ones;
    no block in use is lost, and none but the file's and the free map changes.  The
    transaction's list grows from [bl] to [bl'], by the free map, the indirect block
    and the blocks [W]. *)
Record grows (bl : list Z) (s : kstate) (ip : inode) (W : list Z) (bl' : list Z) (s' : kstate) (ip' : inode) : Prop := {
  g_op : op me pid [] bl' s';
  g_frame : wframe s s';
  g_disk : k_disk s' = k_disk s;
  g_size : lg_size (k_log s') = lg_size (k_log s);
  g_table : k_itable s' = <[i := ip']> (k_itable s);
  g_only : ip' = set_i_addrs (i_addrs ip') ip;
  g_layout : fs_layout s';
  g_wf : file_wf s' ip';
  g_addr bn n : 0 ≤ bn → file_addr (blk s) ip bn = Some n → file_addr (blk s') ip' bn = Some n;
  g_ind n : file_ind ip = Some n → file_ind ip' = Some n;
  g_used n : 0 ≤ n < sb_size (k_sb s) → used (k_sb s) (blk s) n = true → used (k_sb s) (blk s') n = true;
  g_other n : 0 ≤ n < sb_size (k_sb s) → used (k_sb s) (blk s) n = true → n ≠ BBLOCK 0 (k_sb s) →
    ¬ owns (blk s) ip n → blk s' n = blk s n;
  g_new n : owns (blk s') ip' n → owns (blk s) ip n ∨ used (k_sb s) (blk s) n = false;
  g_log n : n ∈ bl' → n ∈ bl ∨ n = BBLOCK 0 (k_sb s) ∨ file_ind ip' = Some n ∨ n ∈ W;
  g_mono n : n ∈ bl → n ∈ bl'
}.

Lemma grows_trans bl1 s1 ip1 W1 bl2 s2 ip2 W2 bl3 s3 ip3 :
  grows bl1 s1 ip1 W1 bl2 s2 ip2 → grows bl2 s2 ip2 W2 bl3 s3 ip3 → grows bl1 s1 ip1 (W1 ++ W2) bl3 s3 ip3.
Proof.
  intros [A1 A2 A3 A4 A5 A6 A7 A8 A9 A10 A11 A12 A13 A14 A15] [B1 B2 B3 B4 B5 B6 B7 B8 B9 B10 B11 B12 B13 B14 B15].
  pose proof (wframe_sb _ _ A2) as E. rewrite E in *.
  split; try done.
  - by eapply wframe_trans.
  - congruence.
  - congruence.
  - by rewrite B5, A5, list_insert_insert_eq.
  - rewrite B6, A6. done.
  - intros bn n H0 H. by apply B9, A9.
  - intros n H. by apply B10, A10.
  - intros n H0 H. by apply B11, A11.
  - intros n H0 H Hm Hno. rewrite B12; [by apply A12|done|by apply A11|done|].
    intros [?|Hu]%A13; [done|congruence].
  - intros n Hn. pose proof Hn as [H|Hu]%B13; [by apply A13|]. right. destruct (used _ (blk s1) n) eqn:Eu; [|done].
    rewrite A11 in Hu; [done| |done]. rewrite <- E, <- (wframe_sb _ _ B2).
    pose proof (fw_own _ _ B8 n Hn) as [[Hr _ _] _]. lia.
  - intros n [H|[H|[H|H]]]%B14; [|set_solver..]. apply A14 in H as [H|[H|[H|H]]]; [set_solver..| |set_solver].
    right. right. left. by apply B10.
  - intros n H. by apply B15, A15.
Qed.

(** The layout and a file are seen through the blocks. *)
Lemma layout_ext s s' :
  k_sb s' = k_sb s → k_disk s' = k_disk s → (∀ m, blk s' m = blk s m) → fs_layout s → fs_layout s'.
Proof.
  intros E Hd Hv [H1 H2 H3 H4 H5].
  assert (∀ b, used (k_sb s) (blk s') b = used (k_sb s) (blk s) b) as Hu by (intros b; by apply used_ext).
  split; rewrite ?E, ?Hd; try done.
  - apply (bitmap_ok_upd (k_sb s) (blk s)); [done| |].
    + intros m Hm. rewrite Hv. by apply (bm_block _ _ H1).
    + intros b _ _. by rewrite Hu.
  - intros inum. rewrite Hu. apply H4.
Qed.

Lemma owns_ext B B' ip n : (∀ m, B' m = B m) → owns B' ip n ↔ owns B ip n.
Proof.
  intros Hv. assert (∀ bn, file_addr B' ip bn = file_addr B ip bn) as Ha by (intros bn; by apply file_addr_ext).
  unfold owns. by setoid_rewrite Ha.
Qed.

Lemma wf_ext s s' ip : k_sb s' = k_sb s → (∀ m, blk s' m = blk s m) → file_wf s ip → file_wf s' ip.
Proof.
  intros E Hv [H1 H2 H3 H4 H5 H6 H7].
  assert (∀ bn, file_addr (blk s') ip bn = file_addr (blk s) ip bn) as Ha by (intros bn; by apply file_addr_ext).
  split; try done; rewrite ?E; try (setoid_rewrite Ha; done).
  intros n. rewrite (owns_ext (blk s)), (used_ext _ (blk s)) by done. apply H4.
Qed.

Lemma itable_same s s' : fs_frame s s' → k_itable s' = k_itable s.
Proof. unfold fs_frame. by intros ->. Qed.

(** Changing no block is a step, and so is reading. *)
Lemma grows_same bl s s' ip :
  k_itable s !! i = Some ip → fs_layout s → file_wf s ip → op me pid [] bl s' → wframe s s' → k_itable s' = k_itable s →
  k_disk s' = k_disk s → lg_size (k_log s') = lg_size (k_log s) → (∀ m, blk s' m = blk s m) → grows bl s ip [] bl s' ip.
Proof.
  intros Hi Hl Hw Hop Hf Hit Hd Hlg Hv. pose proof (wframe_sb _ _ Hf) as E.
  assert (∀ b, used (k_sb s) (blk s') b = used (k_sb s) (blk s) b) as Hu by (intros b; by apply used_ext).
  assert (∀ bn, file_addr (blk s') ip bn = file_addr (blk s) ip bn) as Ha by (intros bn; by apply file_addr_ext).
  split; try done; try (intros *; by rewrite ?Ha, ?Hu).
  - by rewrite Hit, list_insert_id.
  - by destruct ip.
  - by eapply layout_ext.
  - by eapply wf_ext.
  - intros n. rewrite (owns_ext (blk s)) by done. by left.
  - intros n H. by left.
Qed.

Lemma grows_weaken bl s ip W W' bl' s' ip' :
  grows bl s ip W bl' s' ip' → (∀ n, n ∈ W → n ∈ W') → grows bl s ip W' bl' s' ip'.
Proof. intros [] H. split; try done. naive_solver. Qed.

Lemma grows_reads bl s s' ip :
  k_itable s !! i = Some ip → fs_layout s → file_wf s ip → reads me pid bl s s' → grows bl s ip [] bl s' ip.
Proof.
  intros Hi Hl Hw Hr. pose proof Hr as (Hop & Hf & Hd & Hlg & Hv).
  apply grows_same; try done; [by apply wframe_fs|by apply itable_same|by rewrite Hlg].
Qed.

(** One block [r] joins the file: as its block [bn], or as its indirect block. *)
Record joins (s : kstate) (ip : inode) (r : Z) (slot : option Z) (s' : kstate) (ip' : inode) : Prop := {
  j_frame : wframe s s';
  j_disk : k_disk s' = k_disk s;
  j_table : k_itable s' = <[i := ip']> (k_itable s);
  j_only : ip' = set_i_addrs (i_addrs ip') ip;
  j_typed : dinode_typed (dinode_of ip');
  j_range : 0 < r < sb_size (k_sb s);
  j_free : used (k_sb s) (blk s) r = false;
  j_used b : 0 ≤ b < sb_size (k_sb s) → used (k_sb s) (blk s') b = (used (k_sb s) (blk s) b || (r =? b))%bool;
  j_map : bitmap_ok (k_sb s) (blk s');
  j_other m : m ≠ r → m ≠ BBLOCK r (k_sb s) → file_ind ip' ≠ Some m → blk s' m = blk s m;
  j_addr bn n : 0 ≤ bn → file_addr (blk s) ip bn = Some n → file_addr (blk s') ip' bn = Some n;
  j_addr' bn n : 0 ≤ bn → file_addr (blk s') ip' bn = Some n → file_addr (blk s) ip bn = Some n ∨ (n = r ∧ slot = Some bn);
  j_ind n : file_ind ip = Some n → file_ind ip' = Some n;
  j_ind' n : file_ind ip' = Some n → file_ind ip = Some n ∨ (n = r ∧ slot = None);
  j_zero : is_Some slot → blk s' r = Some zero_block;
  j_new bn : slot = Some bn → file_addr (blk s') ip' bn = Some r;
  j_newind : slot = None → file_ind ip' = Some r
}.

Lemma joins_owns s ip r slot s' ip' n :
  joins s ip r slot s' ip' → owns (blk s') ip' n → owns (blk s) ip n ∨ n = r.
Proof.
  intros J [(bn & H0 & [H|[-> _]]%(j_addr' _ _ _ _ _ _ J))|[H|[-> _]]%(j_ind' _ _ _ _ _ _ J)]; try by right.
  - left. left. eauto.
  - done.
  - left. by right.
Qed.

Lemma joins_layout s ip r slot s' ip' : fs_layout s → joins s ip r slot s' ip' → fs_layout s'.
Proof.
  intros [H1 H2 H3 H4 H5] J. pose proof (wframe_sb _ _ (j_frame _ _ _ _ _ _ J)) as E.
  split; rewrite ?E, ?(j_disk _ _ _ _ _ _ J); try done; [apply J|].
  intros inum Hin. destruct (H4 inum Hin) as (R & U & N). split_and!; [lia|lia| |done].
  rewrite (j_used _ _ _ _ _ _ J) by lia. by rewrite U.
Qed.

Lemma joins_wf s ip r slot s' ip' : fs_layout s → file_wf s ip → joins s ip r slot s' ip' → file_wf s' ip'.
Proof.
  intros Hl Hw J. pose proof (wframe_sb _ _ (j_frame _ _ _ _ _ _ J)) as E.
  assert (∀ n, owns (blk s) ip n → n ≠ r) as Hne.
  { intros n Hn ->. destruct (fw_own _ _ Hw r Hn) as [_ Hu]. by rewrite (j_free _ _ _ _ _ _ J) in Hu. }
  split.
  - rewrite (j_only _ _ _ _ _ _ J). apply Hw.
  - rewrite (j_only _ _ _ _ _ _ J). apply Hw.
  - apply J.
  - intros n Hn. rewrite E. apply (joins_owns _ _ _ _ _ _ _ J) in Hn as [Hn| ->].
    + destruct (fw_own _ _ Hw n Hn) as [Hd Hu]. split; [done|]. pose proof (db_range _ _ Hd).
      rewrite (j_used _ _ _ _ _ _ J) by lia. by rewrite Hu.
    + pose proof (j_range _ _ _ _ _ _ J). split; [apply data_block_free; [done|lia|apply J]|].
      rewrite (j_used _ _ _ _ _ _ J) by lia. by rewrite Z.eqb_refl, orb_true_r.
  - intros bn bn' n H0 H0' [H|[-> H]]%(j_addr' _ _ _ _ _ _ J) [H'|[E' H']]%(j_addr' _ _ _ _ _ _ J); try done.
    + by eapply (fw_inj _ _ Hw).
    + subst. destruct (Hne r); [|done]. left. eauto.
    + destruct (Hne r); [|done]. left. eauto.
    + by simplify_eq.
  - intros bn n H0 [H|[-> H]]%(j_addr' _ _ _ _ _ _ J) [H'|[E' H']]%(j_ind' _ _ _ _ _ _ J); try done.
    + by eapply (fw_ind _ _ Hw).
    + subst. destruct (Hne r); [|done]. left. eauto.
    + destruct (Hne r); [|done]. by right.
    + congruence.
  - intros bn H0 Hlt. rewrite (j_only _ _ _ _ _ _ J) in Hlt. destruct (fw_full _ _ Hw bn H0 Hlt) as [n Hn].
    exists n. by apply (j_addr _ _ _ _ _ _ J).
Qed.

(** What a file holds stays where it is. *)
Lemma joins_data s ip r slot s' ip' bn n :
  fs_layout s → file_wf s ip → joins s ip r slot s' ip' → 0 ≤ bn → file_addr (blk s) ip bn = Some n → blk s' n = blk s n.
Proof.
  intros Hl Hw J H0 Hn. assert (owns (blk s) ip n) as Ho by (left; eauto).
  destruct (fw_own _ _ Hw n Ho) as [[Hr Hm _] Hu]. apply (j_other _ _ _ _ _ _ J).
  - intros ->. by rewrite (j_free _ _ _ _ _ _ J) in Hu.
  - intros E. apply (Hm r); [pose proof (j_range _ _ _ _ _ _ J); lia|done].
  - intros [H|[-> _]]%(j_ind' _ _ _ _ _ _ J); [by eapply (fw_ind _ _ Hw)|]. by rewrite (j_free _ _ _ _ _ _ J) in Hu.
Qed.

Lemma joins_get s ip r slot s' ip' k :
  fs_layout s → file_wf s ip → joins s ip r slot s' ip' → 0 ≤ k → file_get (blk s') ip' k = file_get (blk s) ip k.
Proof.
  intros Hl Hw J Hk. assert (0 ≤ k / BSIZE) as H0 by (by apply Z.div_pos).
  destruct (file_addr (blk s) ip (k / BSIZE)) as [n|] eqn:En.
  - rewrite (file_get_addr _ _ _ n En), (file_get_addr _ _ _ n) by (by apply (j_addr _ _ _ _ _ _ J)).
    by erewrite joins_data.
  - rewrite (file_get_hole _ _ _ En). destruct (file_addr (blk s') ip' (k / BSIZE)) as [n|] eqn:En'.
    + rewrite (file_get_addr _ _ _ n En'). apply (j_addr' _ _ _ _ _ _ J) in En' as [H|[-> H]]; [congruence| |done].
      rewrite (j_zero _ _ _ _ _ _ J) by (by rewrite H). simpl. apply zero_block_get.
    + by apply file_get_hole.
Qed.

Lemma joins_grows bl s ip r slot bl' s' ip' :
  fs_layout s → file_wf s ip → joins s ip r slot s' ip' → op me pid [] bl' s' →
  lg_size (k_log s') = lg_size (k_log s) →
  (∀ n, n ∈ bl' → n ∈ bl ∨ n = BBLOCK 0 (k_sb s) ∨ file_ind ip' = Some n ∨ (n = r ∧ is_Some slot)) → (∀ n, n ∈ bl → n ∈ bl') →
  grows bl s ip (if slot is Some _ then [r] else []) bl' s' ip'.
Proof.
  intros Hl Hw J Hop Hsz Hin Hmono.
  split; try done; try apply J.
  - by eapply joins_layout.
  - by eapply joins_wf.
  - intros n Hn Hu. rewrite (j_used _ _ _ _ _ _ J) by done. by rewrite Hu.
  - intros n Hn Hu Hm Ho. apply (j_other _ _ _ _ _ _ J).
    + intros ->. by rewrite (j_free _ _ _ _ _ _ J) in Hu.
    + rewrite bblock_one; [done|done|]. pose proof (j_range _ _ _ _ _ _ J). lia.
    + intros [H|[-> _]]%(j_ind' _ _ _ _ _ _ J); [apply Ho; by right|]. by rewrite (j_free _ _ _ _ _ _ J) in Hu.
  - intros n [H| ->]%(joins_owns _ _ _ _ _ _ _ J); [by left|]. right. apply J.
  - intros n [H|[H|[H|[-> [x Hx]]]]]%Hin; [set_solver..|]. rewrite Hx. set_solver.
Qed.

(** ** [bmap] *)

(** What [bmap] promises: the address of the block, allocated if need be, with every
    byte of the file as before. *)
Definition bmap_post (bl : list Z) (s : kstate) (ip : inode) (bn r : Z) (s' : kstate) : Prop :=
  ∃ bl' ip', grows bl s ip (if r =? 0 then [] else [r]) bl' s' ip' ∧
    (∀ k, 0 ≤ k → file_get (blk s') ip' k = file_get (blk s) ip k) ∧
    if r =? 0 then (∀ b, 0 ≤ b < sb_size (k_sb s) → used (k_sb s) (blk s') b = true)
    else file_addr (blk s') ip' bn = Some r.

Lemma itable_grown s1 s ip ip' : k_itable s !! i = Some ip → k_itable s1 = k_itable s →
  k_itable (set_k_itable (alter (λ _, ip') i (k_itable s1)) s1) = <[i := ip']> (k_itable s).
Proof. intros Hi E. simpl. rewrite E. by rewrite (alter_insert_at _ _ _ ip). Qed.

Lemma set_addrs_typed ip k r :
  dinode_typed (dinode_of ip) → 0 ≤ r < 2 ^ 32 → dinode_typed (dinode_of (set_i_addrs (<[k := r]> (i_addrs ip)) ip)).
Proof.
  intros [H1 H2 H3 H4 H5 H6 H7] Hr. split; try done; simpl in *.
  - by rewrite length_insert.
  - by apply Forall_insert.
Qed.

(** The block [balloc] found becomes direct block [bn]. *)
Lemma joins_direct s ip bn r s1 :
  fs_layout s → file_wf s ip → k_itable s !! i = Some ip → 0 ≤ bn < NDIRECT → file_addr (blk s) ip bn = None →
  allocated s r s1 → fs_frame s s1 → k_disk s1 = k_disk s →
  let ip' := set_i_addrs (<[Z.to_nat bn := r]> (i_addrs ip)) ip in
  joins s ip r (Some bn) (set_k_itable (<[i := ip']> (k_itable s)) s1) ip'.
Proof.
  intros Hl Hw Hi Hbn Ha Hal Hf Hd ip'. pose proof (bm_size _ _ (fl_map _ Hl)) as Hsz. pose proof (al_range _ _ _ Hal) as Hr.
  pose proof (dt_len _ (fw_typed _ _ Hw)) as Hlen. simpl in Hlen.
  assert (∀ n, file_ind ip = Some n → blk s1 n = blk s n) as Hin.
  { intros n Hn. destruct (fw_own _ _ Hw n (or_intror Hn)) as [Hdb Hu]. apply (al_other _ _ _ Hal).
    - intros ->. rewrite (al_free _ _ _ Hal) in Hu. done.
    - intros E. apply (db_map _ _ Hdb r); [lia|done]. }
  destruct (addr_direct (blk s) (blk s1) ip bn r Hlen Hbn ltac:(lia) Hin) as [Hind Haddr0]. fold ip' in Hind, Haddr0.
  assert (∀ bn', bn' ≠ bn → 0 ≤ bn' → file_addr (blk s1) ip' bn' = file_addr (blk s) ip bn') as Haddr.
  { intros bn' Hne H0. by rewrite Haddr0, decide_False. }
  assert (file_addr (blk s1) ip' bn = Some r) as Hnew by (by rewrite Haddr0, decide_True by lia).
  split; try done.
  - unfold wframe, fs_frame in *. simpl. rewrite Hf. done.
  - apply set_addrs_typed; [apply Hw|]. unfold BPB, BSIZE in Hsz. lia.
  - apply Hal.
  - apply Hal.
  - apply Hal.
  - intros m H1 H2 _. by apply (al_other _ _ _ Hal).
  - intros bn' n H0 H. change (file_addr (blk s1) ip' bn' = Some n). rewrite Haddr; [done| |done]. intros ->. congruence.
  - intros bn' n H0 H. change (file_addr (blk s1) ip' bn' = Some n) in H. destruct (decide (bn' = bn)) as [->|Hne].
    + right. split; [congruence|done].
    + left. by rewrite <- Haddr.
  - intros n. by rewrite Hind.
  - intros n. rewrite Hind. by left.
  - intros _. apply Hal.
  - intros bn' [= <-]. exact Hnew.
Qed.

(** The block [balloc] found becomes the indirect block. *)
Lemma joins_indirect s ip r s1 :
  fs_layout s → file_wf s ip → k_itable s !! i = Some ip → file_ind ip = None →
  allocated s r s1 → fs_frame s s1 → k_disk s1 = k_disk s →
  let ip' := set_i_addrs (<[Z.to_nat NDIRECT := r]> (i_addrs ip)) ip in
  joins s ip r None (set_k_itable (<[i := ip']> (k_itable s)) s1) ip'.
Proof.
  intros Hl Hw Hi Ha Hal Hf Hd ip'. pose proof (bm_size _ _ (fl_map _ Hl)) as Hsz. pose proof (al_range _ _ _ Hal) as Hr.
  pose proof (dt_len _ (fw_typed _ _ Hw)) as Hlen. simpl in Hlen.
  destruct (addr_indirect (blk s) (blk s1) ip r Hlen Ha ltac:(lia) (al_zero _ _ _ Hal)) as [Hind Haddr]. fold ip' in Hind, Haddr.
  split; try done.
  - unfold wframe, fs_frame in *. simpl. rewrite Hf. done.
  - apply set_addrs_typed; [apply Hw|]. unfold BPB, BSIZE in Hsz. lia.
  - apply Hal.
  - apply Hal.
  - apply Hal.
  - intros m H1 H2 _. by apply (al_other _ _ _ Hal).
  - intros bn' n H0 H. change (file_addr (blk s1) ip' bn' = Some n). by rewrite Haddr.
  - intros bn' n H0 H. change (file_addr (blk s1) ip' bn' = Some n) in H. left. by rewrite <- Haddr.
  - intros n. congruence.
  - intros n. rewrite Hind. intros [= <-]. by right.
Qed.

(** The block [balloc] found becomes entry [bn] of the indirect block [ind]. *)
Lemma joins_entry s ip ind data bn r s1 s2 :
  fs_layout s → file_wf s ip → k_itable s !! i = Some ip → NDIRECT ≤ bn < MAXFILE → file_addr (blk s) ip bn = None →
  file_ind ip = Some ind → blk s ind = Some data → length data = 1024%nat →
  allocated s r s1 → fs_frame s s2 → k_disk s2 = k_disk s →
  (∀ m, blk s2 m = if decide (m = ind) then Some (put32 (Z.to_nat (4 * (bn - NDIRECT))) r data) else blk s1 m) →
  joins s ip r (Some bn) s2 ip.
Proof.
  intros Hl Hw Hi Hbn Ha Hind Hdt Hlen Hal Hf Hd Hv.
  pose proof (bm_size _ _ (fl_map _ Hl)) as Hsz. pose proof (al_range _ _ _ Hal) as Hr. unfold BPB, BSIZE in Hsz.
  destruct (fw_own _ _ Hw ind (or_intror Hind)) as [Hdb Hiu]. pose proof (itable_same _ _ Hf) as Hit.
  assert (ind ≠ r) as Hir by (intros ->; rewrite (al_free _ _ _ Hal) in Hiu; done).
  assert (∀ b, 0 ≤ b < sb_size (k_sb s) → used (k_sb s) (blk s2) b = used (k_sb s) (blk s1) b) as Hu.
  { intros b Hb. apply used_ext. rewrite Hv, decide_False; [done|]. by apply (db_map _ _ Hdb). }
  pose proof (addr_entry (blk s) (blk s2) ip ind data bn r Hind Hdt Hlen Hbn ltac:(lia)) as Haddr0.
  rewrite Hv, decide_True in Haddr0 by done. specialize (Haddr0 eq_refl).
  unfold MAXFILE, NINDIRECT, BSIZE in Hbn. change (1024 / 4) with 256 in Hbn.
  assert (∀ bn', bn' ≠ bn → 0 ≤ bn' → file_addr (blk s2) ip bn' = file_addr (blk s) ip bn') as Haddr.
  { intros bn' Hne H0. by rewrite Haddr0, decide_False. }
  assert (file_addr (blk s2) ip bn = Some r) as Hnew by (by rewrite Haddr0, decide_True by (unfold NDIRECT in Hbn; lia)).
  split; try done.
  - by apply wframe_fs.
  - by rewrite Hit, list_insert_id.
  - by destruct ip.
  - apply Hw.
  - apply Hal.
  - intros b Hb. rewrite Hu by done. by apply Hal.
  - apply (bitmap_ok_upd (k_sb s) (blk s1)); [apply Hal| |].
    + intros m Hm. rewrite Hv. case_decide; [|by apply (bm_block _ _ (al_map _ _ _ Hal))].
      eexists. split; [done|]. rewrite length_put32; lia.
    + intros b Hb _. by rewrite Hu.
  - intros m H1 H2 H3. rewrite Hv, decide_False by congruence. by apply (al_other _ _ _ Hal).
  - intros bn' n H0 H. rewrite Haddr; [done| |done]. intros ->. congruence.
  - intros bn' n H0 H. destruct (decide (bn' = bn)) as [->|Hne].
    + right. split; [congruence|done].
    + left. by rewrite <- Haddr.
  - intros n. by left.
  - intros _. rewrite Hv, decide_False by done. apply Hal.
  - intros bn' [= <-]. exact Hnew.
Qed.

(** What a free map with room for [k] blocks of log needs. *)
Definition room (bl : list Z) (s : kstate) (k : nat) : Prop :=
  (length bl + k ≤ NBUF)%nat ∧ Z.of_nat (length bl + k) < lg_size (k_log s).

Lemma alloc_ready L bl s :
  op me pid L bl s → fs_layout s → aside L s → (length L ≤ 1)%nat → room bl s 3 → alloc_pre me pid L bl 2 s.
Proof. intros Hop [H1 H2 H3 H4 _] Ha HL [Hr1 Hr2]. split; try done; lia. Qed.

Lemma addr_zero s ip bn : file_wf s ip → 0 ≤ bn < NDIRECT → file_addr (blk s) ip bn = None → i_addrs ip !! Z.to_nat bn = Some 0.
Proof.
  intros Hw Hbn. rewrite file_addr_direct by lia. pose proof (dt_len _ (fw_typed _ _ Hw)) as Hlen. simpl in Hlen.
  unfold NDIRECT in Hbn. destruct (lookup_lt_is_Some_2 (i_addrs ip) (Z.to_nat bn)) as [a Ha]; [lia|]. rewrite Ha. simpl.
  destruct (Z.eqb_spec a 0) as [->|]; done.
Qed.

Lemma ind_zero s ip : file_wf s ip → file_ind ip = None → i_addrs ip !! Z.to_nat NDIRECT = Some 0.
Proof.
  intros Hw. pose proof (dt_len _ (fw_typed _ _ Hw)) as Hlen. simpl in Hlen. unfold file_ind.
  destruct (lookup_lt_is_Some_2 (i_addrs ip) (Z.to_nat NDIRECT)) as [a Ha]; [rewrite Hlen; vm_compute; lia|]. rewrite Ha. simpl.
  destruct (Z.eqb_spec a 0) as [->|]; done.
Qed.

Lemma modi_run s ip (f : inode → inode) :
  k_itable s !! i = Some ip → modi i f s = Ret tt (set_k_itable (<[i := f ip]> (k_itable s)) s).
Proof. intros Hi. unfold modi, modify. by rewrite (alter_insert_at _ _ _ ip). Qed.

Lemma logs_2 bl m r n : n ∈ logs (logs bl m) r → n ∈ bl ∨ n = m ∨ n = r.
Proof. unfold logs. repeat case_decide; set_solver. Qed.

(** [bmap] without a free block, and with one that joined the file. *)
Lemma bmap_full bl s s' ip bn :
  k_itable s !! i = Some ip → fs_layout s → file_wf s ip → op me pid [] bl s' → fs_frame (set_k_out (k_out s') s) s' →
  k_disk s' = k_disk s → lg_size (k_log s') = lg_size (k_log s) → (∀ m, blk s' m = blk s m) →
  (∀ b, 0 ≤ b < sb_size (k_sb s) → used (k_sb s) (blk s) b = true) → bmap_post bl s ip bn 0 s'.
Proof.
  intros Hi Hl Hw Hop Hf Hd Hlg Hv Hfull. exists bl, ip. cbn [Z.eqb].
  assert (k_itable s' = k_itable s) as Hit by (unfold fs_frame in Hf; by rewrite Hf). split_and!.
  - apply grows_same; try done. unfold wframe, fs_frame in *. rewrite Hit. rewrite Hf at 1. by destruct s.
  - intros k _. unfold file_get. by rewrite (file_byte_ext (blk s)).
  - intros b Hb. rewrite (used_ext _ (blk s)) by done. by apply Hfull.
Qed.

Lemma bmap_joined bl s ip bn r bl' s' ip' :
  fs_layout s → file_wf s ip → 0 ≤ bn → file_addr (blk s) ip bn = None → op me pid [] bl' s' → r ≠ 0 →
  lg_size (k_log s') = lg_size (k_log s) → joins s ip r (Some bn) s' ip' →
  (∀ n, n ∈ bl' → n ∈ bl ∨ n = BBLOCK 0 (k_sb s) ∨ file_ind ip' = Some n ∨ (n = r ∧ is_Some (Some bn))) →
  (∀ n, n ∈ bl → n ∈ bl') → bmap_post bl s ip bn r s'.
Proof.
  intros Hl Hw H0 Ha Hop Hr Hlg J Hin Hmono. exists bl', ip'. rewrite (proj2 (Z.eqb_neq r 0)) by done.
  split_and!; [by eapply (joins_grows bl s ip r (Some bn))| |by eapply j_new].
  intros k Hk. by eapply joins_get.
Qed.

Lemma bmap_direct bl s ip bn :
  op me pid [] bl s → k_itable s !! i = Some ip → fs_layout s → file_wf s ip → room bl s 5 → 0 ≤ bn < NDIRECT →
  file_addr (blk s) ip bn = None →
  wpc (disk_env me) (λ d, d = k_disk s) (bmap fuel i bn s) (bmap_post bl s ip bn).
Proof.
  intros Hop Hi Hl Hw [Hr1 Hr2] Hbn Ha. unfold bmap. eapply wpc_step; [by apply geti_some|].
  rewrite (proj2 (Z.ltb_lt _ _)) by lia. rewrite (addr_zero s ip bn) by done. eapply wpc_step; [reflexivity|].
  cbn [Z.eqb]. rewrite (fw_dev _ _ Hw).
  apply wpc_bind. eapply wpc_mono; [apply (balloc_ok me pid fuel [] Hfuel bl s)|done|].
  { apply alloc_ready; [done|done|apply aside_nil|simpl; lia|split; lia]. }
  intros r s1 (Hd & Hsb & _ & Hlg & Hit & Hpost). destruct (Z.eqb_spec r 0) as [->|Hr0].
  - destruct Hpost as (Hop1 & Hf & Hv & Hfull). by eapply bmap_full.
  - destruct Hpost as (Hop1 & Hf & Hal).
    eapply wpc_step; [apply modi_run; by rewrite Hit|]. rewrite Hit. cbn beta.
    eapply bmap_joined; [done|done|lia|done|by apply op_itable|done|done|by eapply joins_direct|..].
    + intros n [H|[->| ->]]%logs_2; [by left| |by right; right; right].
      right. left. apply bblock_one; [done|]. pose proof (al_range _ _ _ Hal). lia.
    + intros n H. by apply logs_incl, logs_incl.
Qed.

Lemma allocated_ext s s0 r s' :
  k_sb s0 = k_sb s → (∀ m, blk s0 m = blk s m) → allocated s0 r s' → allocated s r s'.
Proof.
  intros E Hv [H1 H2 H3 H4 H5 H6 H7]. rewrite E in *.
  assert (∀ b, used (k_sb s) (blk s0) b = used (k_sb s) (blk s) b) as Hu by (intros b; by apply used_ext).
  split; try done.
  - by rewrite <- Hu.
  - intros b Hb. rewrite <- Hu. by apply H3.
  - intros b Hb. rewrite <- Hu. by apply H5.
  - intros m Hm1 Hm2. rewrite <- Hv. by apply H6.
Qed.

(** What the rest of [bmap] does once the file has an indirect block. *)
Definition bmap_rest (ind bn : Z) : M Z :=
  bp <- bread fuel ROOTDEV ind;;
  x <- getb bp;;
  let addr := get32 (b_data x) (Z.to_nat (4 * bn)) in
  addr <- (if addr =? 0 then
             addr <- balloc fuel ROOTDEV;;
             when (truthy addr)
               (modb bp (λ x, set_b_data (put32 (Z.to_nat (4 * bn)) addr (b_data x)) x);;
                log_write bp);;
             ret addr
           else ret addr);;
  brelse bp;;
  ret addr.

(** A free block is found while the indirect block is held. *)
Lemma bmap_rest_new bl s ip ind data bn j s1 :
  op me pid [] bl s → k_itable s !! i = Some ip → fs_layout s → file_wf s ip → room bl s 5 → NDIRECT ≤ bn < MAXFILE →
  file_addr (blk s) ip bn = None → file_ind ip = Some ind → blk s ind = Some data → length data = 1024%nat →
  op me pid [j] bl s1 → fs_frame s s1 → k_disk s1 = k_disk s → k_log s1 = k_log s → (∀ m, blk s1 m = blk s m) →
  buf_at s1 j ind data →
  wpc (disk_env me) (λ d, d = k_disk s)
    ((addr <- balloc fuel ROOTDEV;;
      when (truthy addr)
        (modb j (λ x, set_b_data (put32 (Z.to_nat (4 * (bn - NDIRECT))) addr (b_data x)) x);; log_write j);;
      ret addr) s1) (λ r s', wpc (disk_env me) (λ d, d = k_disk s) ((brelse j;; ret r) s') (bmap_post bl s ip bn)).
Proof.
  intros Hop Hi Hl Hw [Hr1 Hr2] Hbn Ha Hind Hdt Hlen Hop1 Hf1 Hd1 Hl1 Hv1 Ha1.
  pose proof (fs_frame_sb _ _ Hf1) as E1. destruct (fw_own _ _ Hw ind (or_intror Hind)) as [Hdb Hiu].
  pose proof (bm_size _ _ (fl_map _ Hl)) as Hsz. unfold BPB, BSIZE in Hsz. pose proof (db_range _ _ Hdb) as Rind.
  assert (fs_layout s1) as Hlay by (by eapply layout_ext).
  rewrite <- Hd1. apply wpc_bind. eapply wpc_mono; [apply (balloc_ok me pid fuel [j] Hfuel bl s1)|done|].
  { apply alloc_ready; [done|done| |simpl; lia|split; rewrite ?Hl1; lia].
    intros j' ->%list_elem_of_singleton. exists ind, data. rewrite E1, (used_ext _ (blk s)) by done.
    split_and!; [done|lia|lia|done|apply Hdb]. }
  intros r s2 (Hd2 & Hsb2 & Hk2 & Hlg2 & Hit2 & Hpost).
  assert (buf_at s2 j ind data) as Ha2 by (apply Hk2; [by left|done]).
  destruct (Z.eqb_spec r 0) as [->|Hr0].
  - destruct Hpost as (Hop2 & Hf2 & Hv2 & Hfull). cbn [truthy Z.eqb negb when].
    destruct (op_release me pid [j] [] bl s2 j ind data) as (s3 & Hrel & Hop3 & Hf3 & Hd3 & Hl3 & Hv3 & _);
      [done..|by apply not_elem_of_nil|done|].
    unfold ret, bind. cbn [rbind wpc]. fold (bind (brelse j) (λ _, ret 0)). rewrite Hrel. cbn [rbind wpc].
    eapply bmap_full; try done.
    + unfold fs_frame in *. rewrite Hf3, Hf2, Hf1. done.
    + by rewrite Hd3, Hd2, Hd1.
    + by rewrite Hl3, Hlg2, Hl1.
    + intros m. by rewrite Hv3, Hv2, Hv1.
    + intros b Hb. rewrite <- (used_ext _ (blk s) (blk s1)), <- E1 by done. apply Hfull. by rewrite E1.
  - destruct Hpost as (Hop2 & Hf2 & Hal%(allocated_ext s)); [|done|done]. unfold truthy. rewrite (proj2 (Z.eqb_neq r 0)) by done.
    cbn [negb when]. set (bl2 := logs (logs bl (BBLOCK r (k_sb s1))) r) in *.
    assert (length bl2 ≤ length bl + 2)%nat as Hbl2.
    { unfold bl2. pose proof (logs_length bl (BBLOCK r (k_sb s1))). pose proof (logs_length (logs bl (BBLOCK r (k_sb s1))) r). lia. }
    destruct (op_write me pid [j] bl2 s2 j ind data (put32 (Z.to_nat (4 * (bn - NDIRECT))) r)) as
      (s3 & Hrun & Hop3 & Hf3 & Hd3 & Hs3 & Hv3 & Ha3 & _); [done|by left|done|lia| |rewrite Hlg2, Hl1; lia|].
    { unfold LOGSIZE, MAXOPBLOCKS. unfold NBUF in Hr1. lia. }
    destruct (op_release me pid [j] [] (logs bl2 ind) s3 j ind (put32 (Z.to_nat (4 * (bn - NDIRECT))) r data)) as
      (s4 & Hrel & Hop4 & Hf4 & Hd4 & Hl4 & Hv4 & _); [done..|by apply not_elem_of_nil|done|].
    apply wpc_bind. eapply wpc_step; [reflexivity|]. rewrite Hrun. cbn [wpc]. unfold ret at 1. cbn [wpc].
    eapply wpc_step; [exact Hrel|]. unfold ret. cbn [wpc].
    assert (fs_frame s s4) as Hf by (repeat (eapply fs_frame_trans; [eassumption|]); apply fs_frame_refl).
    eapply (bmap_joined bl s ip bn r (logs bl2 ind) s4 ip); try done.
    + unfold NDIRECT in Hbn. lia.
    + by rewrite Hl4, Hs3, Hlg2, Hl1.
    + eapply (joins_entry s ip ind data bn r s2 s4); try done; [by rewrite Hd4, Hd3, Hd2, Hd1|].
      intros m. by rewrite Hv4, Hv3.
    + intros n Hn. unfold logs at 1 in Hn. case_decide; [|apply elem_of_app in Hn as [Hn|Hn]].
      3: { apply list_elem_of_singleton in Hn as ->. auto. }
      all: apply logs_2 in Hn as [Hn|[->| ->]]; [by left| |right; right; right; done].
      all: right; left; rewrite E1; apply bblock_one; [done|]; pose proof (al_range _ _ _ Hal); lia.
    + intros n Hn. by apply logs_incl, logs_incl, logs_incl.
Qed.

Lemma bmap_rest_ok bl s ip ind bn :
  op me pid [] bl s → k_itable s !! i = Some ip → fs_layout s → file_wf s ip → room bl s 5 → NDIRECT ≤ bn < MAXFILE →
  file_ind ip = Some ind → file_addr (blk s) ip bn = None →
  wpc (disk_env me) (λ d, d = k_disk s) (bmap_rest ind (bn - NDIRECT) s) (bmap_post bl s ip bn).
Proof.
  intros Hop Hi Hl Hw Hroom Hbn Hind Ha. pose proof Hroom as [Hr1 Hr2].
  destruct (fw_own _ _ Hw ind (or_intror Hind)) as [Hdb Hiu].
  pose proof (bm_size _ _ (fl_map _ Hl)) as Hsz. unfold BPB, BSIZE in Hsz. pose proof (db_range _ _ Hdb) as Rind.
  destruct (bm_block _ _ (fl_map _ Hl) ind) as (data & Hdt & Hlen); [lia|].
  pose proof Ha as Haddr. rewrite file_addr_ind, Hind in Haddr by done. simpl in Haddr. rewrite Hdt in Haddr. unfold ind_addr in Haddr. simpl in Haddr.
  unfold bmap_rest. eapply (op_read me pid fuel Hfuel [] bl s ind data); try done.
  { apply (fl_disk _ Hl). lia. } { lia. } { intros j e Hj. by apply not_elem_of_nil in Hj. } { simpl. lia. }
  intros j s1 Hop1 Hf1 Hd1 Hl1 Hv1 Ha1 _ _. destruct (buf_data _ _ _ _ Ha1) as (x & Hx & Ex).
  eapply wpc_step; [exact Hx|]. rewrite Ex. cbn beta zeta in *. destruct (_ =? 0); [|done].
  apply wpc_bind. by eapply bmap_rest_new.
Qed.

(** Two steps of a call. *)
Lemma bmap_post_trans bl1 s1 ip1 bl2 s2 ip2 bn r s3 :
  grows bl1 s1 ip1 [] bl2 s2 ip2 → (∀ k, 0 ≤ k → file_get (blk s2) ip2 k = file_get (blk s1) ip1 k) →
  bmap_post bl2 s2 ip2 bn r s3 → bmap_post bl1 s1 ip1 bn r s3.
Proof.
  intros Hg Hv (bl3 & ip3 & Hg' & Hv' & H). exists bl3, ip3. split_and!.
  - by apply (grows_trans _ _ _ _ _ _ _ _ _ _ _ Hg Hg').
  - intros k Hk. by rewrite Hv', Hv.
  - by rewrite <- (wframe_sb _ _ (g_frame _ _ _ _ _ _ _ Hg)).
Qed.

Lemma bmap_indirect bl s ip bn :
  op me pid [] bl s → k_itable s !! i = Some ip → fs_layout s → file_wf s ip → room bl s 7 → NDIRECT ≤ bn < MAXFILE →
  file_addr (blk s) ip bn = None →
  wpc (disk_env me) (λ d, d = k_disk s) (bmap fuel i bn s) (bmap_post bl s ip bn).
Proof.
  intros Hop Hi Hl Hw [Hr1 Hr2] Hbn Ha. unfold bmap. eapply wpc_step; [by apply geti_some|].
  rewrite (proj2 (Z.ltb_ge _ _)) by lia. cbn zeta. rewrite (proj2 (Z.ltb_lt (bn - NDIRECT) _)) by (unfold MAXFILE in Hbn; lia).
  rewrite (fw_dev _ _ Hw). destruct (file_ind ip) as [ind|] eqn:Hind.
  - pose proof (file_ind_nz _ _ Hind) as [Hnz ->]. eapply wpc_step; [reflexivity|]. cbn beta.
    rewrite (proj2 (Z.eqb_neq ind 0)) by done. eapply wpc_step; [reflexivity|]. cbn beta.
    rewrite (proj2 (Z.eqb_neq ind 0)) by done. apply bmap_rest_ok; try done. split; lia.
  - rewrite (ind_zero s) by done. eapply wpc_step; [reflexivity|]. cbn [Z.eqb]. apply wpc_bind, wpc_bind.
    eapply wpc_mono; [apply (balloc_ok me pid fuel [] Hfuel bl s)|done|].
    { apply alloc_ready; [done|done|apply aside_nil|simpl; lia|split; lia]. }
    intros r s1 (Hd & Hsb & _ & Hlg & Hit & Hpost). destruct (Z.eqb_spec r 0) as [->|Hr0].
    + destruct Hpost as (Hop1 & Hf & Hv & Hfull). by eapply bmap_full.
    + destruct Hpost as (Hop1 & Hf & Hal). unfold truthy. rewrite (proj2 (Z.eqb_neq r 0)) by done. cbn [negb when].
      eapply wpc_step; [apply modi_run; by rewrite Hit|]. rewrite Hit. unfold ret at 1. cbn [wpc].
      rewrite (proj2 (Z.eqb_neq r 0)) by done.
      pose proof (joins_indirect s ip r s1 Hl Hw Hi Hind Hal Hf Hd) as J. cbn zeta in J.
      set (ip1 := set_i_addrs _ ip) in *. set (s2 := set_k_itable _ s1) in *.
      set (bl2 := logs (logs bl (BBLOCK r (k_sb s))) r) in *.
      assert (grows bl s ip [] bl2 s2 ip1) as Hg.
      { apply (joins_grows bl s ip r None bl2 s2 ip1); try done; [by apply op_itable| |intros n H; by apply logs_incl, logs_incl].
        intros n [H|[->| ->]]%logs_2; [by left| |].
        - right. left. apply bblock_one; [done|]. pose proof (al_range _ _ _ Hal). lia.
        - right. right. left. by apply (j_newind _ _ _ _ _ _ J). }
      assert (length bl2 ≤ length bl + 2)%nat as Hbl2.
      { unfold bl2. pose proof (logs_length bl (BBLOCK r (k_sb s))). pose proof (logs_length (logs bl (BBLOCK r (k_sb s))) r). lia. }
      assert (k_disk s2 = k_disk s) as Hd2 by done. rewrite <- Hd2.
      eapply wpc_mono; [eapply (bmap_rest_ok bl2 s2 ip1 r bn)|done|].
      * apply Hg.
      * simpl. rewrite list_lookup_insert_eq; [done|]. by eapply lookup_lt_Some.
      * apply Hg.
      * apply Hg.
      * split; [lia|]. rewrite (g_size _ _ _ _ _ _ _ Hg). lia.
      * done.
      * by apply (j_newind _ _ _ _ _ _ J).
      * destruct (file_addr (blk s2) ip1 bn) as [n|] eqn:En; [|done]. exfalso.
        apply (j_addr' _ _ _ _ _ _ J) in En as [En|[_ En]]; [congruence|done|]. unfold NDIRECT in Hbn. lia.
      * intros r' s3 H. eapply bmap_post_trans; [exact Hg| |exact H]. intros k Hk. by eapply joins_get.
Qed.

(** [bmap] of any block of a file. *)
Lemma bmap_ok bl s ip bn :
  op me pid [] bl s → k_itable s !! i = Some ip → fs_layout s → file_wf s ip → room bl s 7 → 0 ≤ bn < MAXFILE →
  wpc (disk_env me) (λ d, d = k_disk s) (bmap fuel i bn s) (bmap_post bl s ip bn).
Proof.
  intros Hop Hi Hl Hw Hroom Hbn. pose proof Hroom as [Hr1 Hr2]. destruct (file_addr (blk s) ip bn) as [a|] eqn:Ha.
  - assert (∀ n, file_ind ip = Some n → readable s n) as Hrd.
    { intros n Hn. destruct (fw_own _ _ Hw n (or_intror Hn)) as [Hdb _]. pose proof (db_range _ _ Hdb).
      pose proof (bm_size _ _ (fl_map _ Hl)) as Hsz. unfold BPB, BSIZE in Hsz.
      split_and!; [lia|lia|apply (fl_disk _ Hl); lia|apply (bm_block _ _ (fl_map _ Hl)); lia]. }
    eapply wpc_mono; [eapply (bmap_present me pid fuel Hfuel bl s i ip bn a (λ d, d = k_disk s)); try done|done|].
    + apply Hw.
    + lia.
    + intros Hnd. rewrite file_addr_ind in Ha by lia. apply bind_Some in Ha as (n & Hn & _).
      pose proof (file_ind_nz _ _ Hn) as [??]. exists n. split_and!; try done; by apply Hrd.
    + lia.
    + intros r s' [-> Hr]. pose proof (file_addr_nz _ _ _ _ Ha) as Hnz. exists bl, ip.
      rewrite (proj2 (Z.eqb_neq a 0)) by done. pose proof Hr as (_ & _ & _ & _ & Hv). split_and!.
      * eapply grows_weaken; [by apply grows_reads|]. intros n Hn. by apply not_elem_of_nil in Hn.
      * intros k _. unfold file_get. by rewrite (file_byte_ext (blk s)).
      * by rewrite (file_addr_ext (blk s)).
  - destruct (decide (bn < NDIRECT)); [apply bmap_direct; try done; [split; lia|lia]|apply bmap_indirect; try done; lia].
Qed.

(** ** [writei] *)

(** How long the transaction's list can be. *)
Lemma grows_length bl s ip W bl' s' ip' :
  grows bl s ip W bl' s' ip' → (length bl' ≤ length bl + 2 + length W)%nat.
Proof.
  intros H. destruct (g_op _ _ _ _ _ _ _ H) as (P & Hin & _).
  set (big := bl ++ BBLOCK 0 (k_sb s) :: default 0 (file_ind ip') :: W).
  assert (bl' ⊆+ big) as Hs.
  { apply NoDup_submseteq; [apply (io_nd _ _ _ _ _ _ Hin)|]. intros n Hn. unfold big.
    destruct (g_log _ _ _ _ _ _ _ H n Hn) as [?|[->|[E|?]]]; [set_solver..| |set_solver]. rewrite E. set_solver. }
  apply submseteq_length in Hs. unfold big in Hs. rewrite length_app in Hs. simpl in Hs. lia.
Qed.

Lemma put_at_get off bs l k :
  (off + length bs ≤ length l)%nat →
  default 0 (put_at off bs l !! k) =
    if decide (off ≤ k < off + length bs)%nat then default 0 (bs !! (k - off)%nat) else default 0 (l !! k).
Proof.
  intros Hl. unfold put_at. assert (length (take off l) = off) as Ht by (rewrite length_take; lia). case_decide.
  - rewrite lookup_app_r, Ht by lia. by rewrite lookup_app_l by lia.
  - destruct (decide (k < off)%nat).
    + rewrite lookup_app_l by lia. by rewrite lookup_take_lt by lia.
    + rewrite lookup_app_r, Ht by lia. rewrite lookup_app_r by lia. rewrite lookup_drop. do 2 f_equal. lia.
Qed.

(** The bytes of a file after a write. *)
Definition write_get (get : Z → Z) (off : Z) (bs : list Z) (k : Z) : Z :=
  if decide (off ≤ k < off + Z.of_nat (length bs)) then default 0 (bs !! Z.to_nat (k - off)) else get k.

Lemma write_get_ext g g' off cs k : g k = g' k → write_get g off cs k = write_get g' off cs k.
Proof. intros E. unfold write_get. by case_decide. Qed.

Lemma write_get_app g off cs cs' k :
  write_get (write_get g off cs) (off + Z.of_nat (length cs)) cs' k = write_get g off (cs ++ cs') k.
Proof.
  unfold write_get. rewrite length_app. repeat case_decide; try lia; try done.
  - rewrite lookup_app_r by lia. do 2 f_equal. lia.
  - by rewrite lookup_app_l by lia.
Qed.

(** Storing bytes in one block of the file. *)
Lemma store_get B B' ip off bs a data k :
  0 ≤ off → off mod BSIZE + Z.of_nat (length bs) ≤ BSIZE → file_addr B ip (off / BSIZE) = Some a →
  B a = Some data → length data = 1024%nat →
  (∀ m, B' m = if decide (m = a) then Some (put_at (Z.to_nat (off mod BSIZE)) bs data) else B m) →
  (∀ bn bn' n, 0 ≤ bn → 0 ≤ bn' → file_addr B ip bn = Some n → file_addr B ip bn' = Some n → bn = bn') →
  file_ind ip ≠ Some a → 0 ≤ k → file_get B' ip k = write_get (file_get B ip) off bs k.
Proof.
  intros Ho Hm Ha Hd Hl HB Hinj Hind Hk. unfold write_get.
  assert (∀ bn, file_addr B' ip bn = file_addr B ip bn) as Haddr.
  { intros bn. apply file_addr_same. intros n Hn. rewrite HB, decide_False; [done|congruence]. }
  pose proof (Z.mod_pos_bound off BSIZE ltac:(done)). pose proof (Z.mod_pos_bound k BSIZE ltac:(done)).
  pose proof (Z.div_mod off BSIZE ltac:(done)). pose proof (Z.div_mod k BSIZE ltac:(done)). unfold BSIZE in *.
  destruct (decide (k / 1024 = off / 1024)) as [E|E].
  - rewrite (file_get_addr B' ip k a), (file_get_addr B ip k a) by (unfold BSIZE; by rewrite ?Haddr, E).
    rewrite HB, decide_True, Hd by done. simpl. unfold BSIZE. rewrite put_at_get by lia.
    destruct (decide (off ≤ k < _)) as [Hin|Hin].
    + rewrite decide_True by lia. do 2 f_equal. lia.
    + by rewrite decide_False by lia.
  - rewrite decide_False.
    2: { intros Hin. apply E. symmetry. apply (Z.div_unique _ _ _ (k - off + off mod 1024)); lia. }
    destruct (file_addr B ip (k / 1024)) as [n|] eqn:En.
    + rewrite (file_get_addr B' ip k n), (file_get_addr B ip k n) by (unfold BSIZE; by rewrite ?Haddr).
      rewrite HB, decide_False; [done|]. intros ->. apply E.
      apply (Hinj _ _ a); [apply Z.div_pos; lia|apply Z.div_pos; lia|done|done].
    + by rewrite !file_get_hole by (unfold BSIZE; by rewrite ?Haddr).
Qed.

Lemma store_grows bl s ip bn a data data' s' :
  k_itable s !! i = Some ip → fs_layout s → file_wf s ip → 0 ≤ bn → file_addr (blk s) ip bn = Some a →
  length data' = 1024%nat → op me pid [] (logs bl a) s' → fs_frame s s' → k_disk s' = k_disk s →
  lg_size (k_log s') = lg_size (k_log s) → blk s a = Some data →
  (∀ m, blk s' m = if decide (m = a) then Some data' else blk s m) →
  grows bl s ip [a] (logs bl a) s' ip.
Proof.
  intros Hi Hl Hw H0 Ha Hlen Hop Hf Hd Hlg Hdt Hv. pose proof (fs_frame_sb _ _ Hf) as E.
  destruct (fw_own _ _ Hw a) as [Hdb Hau]; [left; eauto|].
  assert (∀ b, 0 ≤ b < sb_size (k_sb s) → used (k_sb s) (blk s') b = used (k_sb s) (blk s) b) as Hu.
  { intros b Hb. apply used_ext. rewrite Hv, decide_False; [done|]. by apply (db_map _ _ Hdb). }
  assert (∀ bn, file_addr (blk s') ip bn = file_addr (blk s) ip bn) as Haddr.
  { intros bn'. apply file_addr_same. intros n Hn. rewrite Hv, decide_False; [done|]. intros ->. by eapply (fw_ind _ _ Hw). }
  assert (∀ n, owns (blk s') ip n ↔ owns (blk s) ip n) as Ho by (intros n; unfold owns; by setoid_rewrite Haddr).
  split; try done.
  - by apply wframe_fs.
  - by rewrite (itable_same _ _ Hf), list_insert_id.
  - by destruct ip.
  - pose proof Hl as [H1 H2 H3 H4 H5]. split; rewrite ?E, ?Hd; try done.
    + apply (bitmap_ok_upd (k_sb s) (blk s)); [done| |].
      * intros m Hm. rewrite Hv. case_decide; [eauto|]. by apply (bm_block _ _ H1).
      * intros b Hb _. by rewrite Hu.
    + intros inum Hin. destruct (H4 inum Hin) as (R & U & N). rewrite Hu by done. done.
  - destruct Hw as [H1 H2 H3 H4 H5 H6 H7]. split; try done; rewrite ?E; try (setoid_rewrite Haddr; done).
    intros n Hn%Ho. destruct (H4 n Hn) as [Hd' Hu']. split; [done|]. rewrite Hu; [done|]. pose proof (db_range _ _ Hd'). lia.
  - intros bn' n _. by rewrite Haddr.
  - intros n Hn. by rewrite Hu.
  - intros n Hn _ _ Hno. rewrite Hv, decide_False; [done|]. intros ->. apply Hno. left. eauto.
  - intros n. rewrite Ho. by left.
  - intros n Hn. unfold logs in Hn. case_decide; set_solver.
  - intros n Hn. by apply logs_incl.
Qed.

(** The bytes a call of [writei] gets from its source. *)
Definition chunk (bs : list Z) (tot m : Z) : list Z := take (Z.to_nat m) (drop (Z.to_nat tot) bs).

Lemma chunk_length bs tot m : 0 ≤ tot → 0 ≤ m → tot + m ≤ Z.of_nat (length bs) → Z.of_nat (length (chunk bs tot m)) = m.
Proof. intros. unfold chunk. rewrite length_take, length_drop. lia. Qed.

(** One round of the loop, once the block has an address. *)
Lemma writei_block {A} bl s ip off a src cs (inp : Z → Z → M (Z * list Z)) (K' K : M A) Q :
  op me pid [] bl s → k_itable s !! i = Some ip → fs_layout s → file_wf s ip → room bl s 1 → 0 ≤ off →
  file_addr (blk s) ip (off / BSIZE) = Some a → off mod BSIZE + Z.of_nat (length cs) ≤ BSIZE →
  (∀ s', fs_frame s s' → inp src (Z.of_nat (length cs)) s' = Ret (0, cs) s') →
  (∀ s', grows bl s ip [a] (logs bl a) s' ip →
     (∀ k, 0 ≤ k → file_get (blk s') ip k = write_get (file_get (blk s) ip) off cs k) →
     wpc (disk_env me) (λ d, d = k_disk s) (K s') Q) →
  wpc (disk_env me) (λ d, d = k_disk s)
    ((ip <- geti i;;
      bp <- bread fuel (i_dev ip) a;;
      r <- inp src (Z.of_nat (length cs));;
      modb bp (λ x, set_b_data (put_at (Z.to_nat (off mod BSIZE)) r.2 (b_data x)) x);;
      if r.1 =? -1 then brelse bp;; K' else log_write bp;; brelse bp;; K) s) Q.
Proof.
  intros Hop Hi Hl Hw [Hr1 Hr2] H0 Ha Hcs Hinp HK. eapply wpc_step; [by apply geti_some|]. rewrite (fw_dev _ _ Hw).
  assert (0 ≤ off / BSIZE) as Hbn by (by apply Z.div_pos).
  destruct (fw_own _ _ Hw a) as [Hdb _]; [left; eauto|]. pose proof (db_range _ _ Hdb).
  pose proof (bm_size _ _ (fl_map _ Hl)) as Hsz. unfold BPB, BSIZE in Hsz.
  destruct (bm_block _ _ (fl_map _ Hl) a) as (data & Hdt & Hlen); [lia|].
  eapply (op_read me pid fuel Hfuel [] bl s a data); try done.
  { apply (fl_disk _ Hl). lia. } { lia. } { intros j e Hj. by apply not_elem_of_nil in Hj. } { simpl. lia. }
  intros j s1 Hop1 Hf1 Hd1 Hl1 Hv1 Ha1 _ _. eapply wpc_step; [by apply Hinp|]. cbn [fst snd].
  set (data' := put_at (Z.to_nat (off mod BSIZE)) cs data).
  destruct (op_write me pid [j] bl s1 j a data (put_at (Z.to_nat (off mod BSIZE)) cs)) as
    (s2 & Hrun & Hop2 & Hf2 & Hd2 & Hs2 & Hv2 & Ha2 & _); [done|by left|done|lia| |rewrite Hl1; lia|].
  { unfold LOGSIZE, MAXOPBLOCKS. unfold NBUF in Hr1. lia. }
  destruct (op_release me pid [j] [] (logs bl a) s2 j a data') as (s3 & Hrel & Hop3 & Hf3 & Hd3 & Hl3 & Hv3 & _);
    [done..|by apply not_elem_of_nil|done|].
  eapply wpc_step; [reflexivity|]. change (0 =? -1) with false. cbn iota.
  eapply wpc_step; [exact Hrun|]. eapply wpc_step; [exact Hrel|].
  assert (∀ m, blk s3 m = if decide (m = a) then Some data' else blk s m) as Hv.
  { intros m. rewrite Hv3, Hv2, Hv1. done. }
  pose proof (Z.mod_pos_bound off BSIZE ltac:(done)) as Hmod. unfold BSIZE in Hcs, Hmod.
  apply HK.
  - eapply (store_grows bl s ip (off / BSIZE) a data data'); try done.
    + unfold data'. rewrite length_put_at; [done|]. unfold BSIZE. lia.
    + repeat (eapply fs_frame_trans; [eassumption|]). apply fs_frame_refl.
    + by rewrite Hd3, Hd2, Hd1.
    + by rewrite Hl3, Hs2, Hl1.
  - intros k Hk. eapply (store_get (blk s) (blk s3) ip off cs a data); try done; [apply Hw|by eapply (fw_ind _ _ Hw (off / BSIZE))].
Qed.

Section loop.
Context (s0 : kstate) (ip0 : inode) (bl0 : list Z) (off0 src0 : Z) (bs : list Z) (inp : Z → Z → M (Z * list Z)) (rounds : nat).
Abbreviation n := (Z.of_nat (length bs)).
Hypothesis Hinp : ∀ s tot m, wframe s0 s → 0 ≤ tot → 0 ≤ m → tot + m ≤ n → inp (src0 + tot) m s = Ret (0, chunk bs tot m) s.
Hypothesis Hsrc : 0 ≤ src0 ∧ src0 + n < 2 ^ 64.
Hypothesis Hoff : 0 ≤ off0 ∧ off0 + n ≤ MAXFILE * BSIZE.
Hypothesis Hroom : room bl0 s0 (rounds + 8).
Hypothesis Hent : (i < length (k_itable s0))%nat.

(** What the loop of [writei] has done after [tot] bytes. *)
Record written (bl : list Z) (ip : inode) (tot : Z) (W : list Z) (s : kstate) : Prop := {
  wr_grows : grows bl0 s0 ip0 W bl s ip;
  wr_tot : 0 ≤ tot ≤ n;
  wr_get k : 0 ≤ k → file_get (blk s) ip k = write_get (file_get (blk s0) ip0) off0 (chunk bs 0 tot) k;
  wr_addr k : off0 ≤ k < off0 + tot → is_Some (file_addr (blk s) ip (k / BSIZE))
}.

Lemma chunk_app tot m : 0 ≤ tot → 0 ≤ m → chunk bs 0 tot ++ chunk bs tot m = chunk bs 0 (tot + m).
Proof. intros H1 H2. unfold chunk. rewrite drop_0, Z2Nat.inj_add by done. by rewrite take_take_drop. Qed.

(** One more round. *)
Lemma written_block bl ip tot W s a m bl1 s1 ip1 bl2 s2 :
  written bl ip tot W s → 0 < m ≤ n - tot → (off0 + tot) mod BSIZE + m ≤ BSIZE →
  grows bl s ip [a] bl1 s1 ip1 → (∀ k, 0 ≤ k → file_get (blk s1) ip1 k = file_get (blk s) ip k) →
  file_addr (blk s1) ip1 ((off0 + tot) / BSIZE) = Some a → grows bl1 s1 ip1 [a] bl2 s2 ip1 →
  (∀ k, 0 ≤ k → file_get (blk s2) ip1 k = write_get (file_get (blk s1) ip1) (off0 + tot) (chunk bs tot m) k) →
  written bl2 ip1 (tot + m) (W ++ [a]) s2.
Proof.
  intros [Hg Ht Hget Haddr] Hm Hb Hg1 Hget1 Ha Hg2 Hget2.
  assert (0 ≤ (off0 + tot) / BSIZE) as H0 by (apply Z.div_pos; [lia|done]). split.
  - eapply grows_weaken; [eapply grows_trans; [exact Hg|]; eapply grows_trans; [exact Hg1|exact Hg2]|]. set_solver.
  - lia.
  - intros k Hk. rewrite Hget2 by done. rewrite <- chunk_app by lia. rewrite <- write_get_app. rewrite (chunk_length bs 0 tot) by lia.
    apply write_get_ext. rewrite Hget1, Hget by done. done.
  - intros k Hk. destruct (decide (k < off0 + tot)) as [Hlt|Hge].
    + destruct (Haddr k) as [x Hx]; [lia|]. exists x. assert (0 ≤ k / BSIZE) by (apply Z.div_pos; [lia|done]).
      apply (g_addr _ _ _ _ _ _ _ Hg2); [done|]. by apply (g_addr _ _ _ _ _ _ _ Hg1).
    + exists a. apply (g_addr _ _ _ _ _ _ _ Hg2); [apply Z.div_pos; [lia|done]|].
      replace (k / BSIZE) with ((off0 + tot) / BSIZE); [done|]. unfold BSIZE in *.
      pose proof (Z.div_mod (off0 + tot) 1024). pose proof (Z.mod_pos_bound (off0 + tot) 1024 ltac:(lia)). apply (Z.div_unique _ _ _ (k - (off0 + tot) + (off0 + tot) mod 1024)); lia.
Qed.

Lemma writei_loop_ok fl bl ip tot W s :
  written bl ip tot W s → read_rounds (off0 + tot) (n - tot) < Z.of_nat fl →
  Z.of_nat (length W) + read_rounds (off0 + tot) (n - tot) ≤ Z.of_nat rounds →
  wpc (disk_env me) (λ d, d = k_disk s0) (writei_loop fuel fl i inp (src0 + tot) (off0 + tot) n tot s) (λ r s',
    ∃ bl' ip' tot' W', r = (tot', off0 + tot') ∧ written bl' ip' tot' W' s' ∧ (length W' ≤ rounds)%nat ∧
      (tot' < n → ∀ b, 0 ≤ b < sb_size (k_sb s0) → used (k_sb s0) (blk s') b = true)).
Proof.
  revert bl ip tot W s. induction fl as [|fl IH]; intros bl ip tot W s Hwr Hfl Hrd.
  { pose proof (read_rounds_nonneg (off0 + tot) (n - tot)). lia. }
  pose proof (read_rounds_nonneg (off0 + tot) (n - tot)) as Hnn. pose proof Hwr as [Hg Htot Hget Haddr].
  cbn [writei_loop]. destruct (Z.ltb_spec tot n) as [Hlt|Hge].
  2: { unfold ret. cbn [wpc]. exists bl, ip, tot, W. split_and!; [done|done|lia|lia]. }
  set (off := off0 + tot) in *. pose proof (wframe_sb _ _ (g_frame _ _ _ _ _ _ _ Hg)) as Esb.
  pose proof (grows_length _ _ _ _ _ _ _ Hg) as Hlen. destruct Hroom as [Hrm1 Hrm2].
  assert (0 < read_rounds off (n - tot)) as Hpos.
  { pose proof (read_rounds_step off (n - tot) _ ltac:(unfold off; lia) ltac:(lia) eq_refl).
    pose proof (read_rounds_nonneg (off + Z.min (n - tot) (BSIZE - off mod BSIZE)) (n - tot - Z.min (n - tot) (BSIZE - off mod BSIZE))). lia. }
  pose proof (Z.mod_pos_bound off BSIZE ltac:(done)) as Hmod. pose proof (Z.div_mod off BSIZE ltac:(done)) as Hdm.
  rewrite <- (g_disk _ _ _ _ _ _ _ Hg). apply wpc_bind. eapply wpc_mono; [eapply (bmap_ok bl s ip (off / BSIZE))|done|].
  { apply Hg. } { rewrite (g_table _ _ _ _ _ _ _ Hg). by apply list_lookup_insert_eq. } { apply Hg. } { apply Hg. }
  { split; [lia|]. rewrite (g_size _ _ _ _ _ _ _ Hg). lia. }
  { split; [apply Z.div_pos; [unfold off; lia|done]|]. apply Z.div_lt_upper_bound; [done|]. unfold off. lia. }
  intros a s1 (bl1 & ip1 & Hg1 & Hget1 & Hpost). destruct (Z.eqb_spec a 0) as [->|Ha0].
  { unfold ret. cbn [wpc]. pose proof (grows_trans _ _ _ _ _ _ _ _ _ _ _ Hg Hg1) as Hg01. rewrite app_nil_r in Hg01.
    exists bl1, ip1, tot, W. split_and!; [done| |lia|by rewrite <- Esb].
    split; [done|lia| |].
    - intros k Hk. by rewrite Hget1, Hget.
    - intros k Hk. destruct (Haddr k Hk) as [x Hx]. exists x. apply (g_addr _ _ _ _ _ _ _ Hg1); [|done].
      apply Z.div_pos; [lia|done]. }
  set (m := Z.min (n - tot) (BSIZE - off mod BSIZE)).
  assert (0 < m ≤ n - tot) as Hm by (unfold m; lia).
  pose proof (chunk_length bs tot m ltac:(lia) ltac:(lia) ltac:(lia)) as Hcl.
  rewrite <- (g_disk _ _ _ _ _ _ _ Hg1). cbn zeta. fold m.
  pose proof (writei_block (A := Z * Z) bl1 s1 ip1 off a (src0 + tot) (chunk bs tot m) inp) as Hblk.
  rewrite Hcl in Hblk. eapply Hblk; clear Hblk.
  { apply Hg1. } { rewrite (g_table _ _ _ _ _ _ _ Hg1), (g_table _ _ _ _ _ _ _ Hg). rewrite list_insert_insert_eq. by apply list_lookup_insert_eq. }
  { apply Hg1. } { apply Hg1. }
  { pose proof (grows_length _ _ _ _ _ _ _ (grows_trans _ _ _ _ _ _ _ _ _ _ _ Hg Hg1)) as Hl1. rewrite length_app in Hl1. simpl in Hl1.
    split; [lia|]. rewrite (g_size _ _ _ _ _ _ _ Hg1), (g_size _ _ _ _ _ _ _ Hg). lia. }
  { unfold off; lia. } { done. } { unfold m. lia. }
  { intros s' Hf. apply Hinp; [|lia..]. eapply wframe_trans; [apply Hg|]. eapply wframe_trans; [apply Hg1|]. by apply wframe_fs. }
  intros s2 Hg2 Hget2. rewrite (g_disk _ _ _ _ _ _ _ Hg1), (g_disk _ _ _ _ _ _ _ Hg).
  unfold MAXFILE, NINDIRECT, NDIRECT, BSIZE in Hoff. change (1024 / 4) with 256 in Hoff.
  rewrite u64_small, u32_small by (unfold off; lia).
  replace (src0 + tot + m) with (src0 + (tot + m)) by lia. replace (off + m) with (off0 + (tot + m)) by (unfold off; lia).
  pose proof (read_rounds_step off (n - tot) m ltac:(unfold off; lia) ltac:(lia) eq_refl) as Hstep.
  replace (off + m) with (off0 + (tot + m)) in Hstep by (unfold off; lia). replace (n - tot - m) with (n - (tot + m)) in Hstep by lia.
  eapply (IH (logs bl1 a) ip1 (tot + m) (W ++ [a])).
  - eapply (written_block bl ip tot W s a m); try done. unfold m, off. lia.
  - lia.
  - rewrite length_app. simpl. lia.
Qed.

End loop.

(** Everything a write to a file promises.  [tot] bytes were written. *)
Record writei_post (bl : list Z) (s : kstate) (ip : inode) (off : Z) (bs : list Z) (tot : Z) (s' : kstate)
    (bl' : list Z) (ip' : inode) : Prop := {
  wp_op : op me pid [] bl' s';
  wp_frame : wframe s s';
  wp_disk : k_disk s' = k_disk s;
  wp_lgsize : lg_size (k_log s') = lg_size (k_log s);
  wp_table : k_itable s' = <[i := ip']> (k_itable s);
  wp_ip : ip' = set_i_addrs (i_addrs ip') (set_i_size (Z.max (i_size ip) (off + tot)) ip);
  wp_layout : fs_layout s';
  wp_wf : file_wf s' ip';
  wp_tot : 0 ≤ tot ≤ Z.of_nat (length bs);
  wp_full : tot < Z.of_nat (length bs) → ∀ b, 0 ≤ b < sb_size (k_sb s) → used (k_sb s) (blk s') b = true;
  wp_get k : 0 ≤ k → file_get (blk s') ip' k = write_get (file_get (blk s) ip) off (take (Z.to_nat tot) bs) k;
  wp_inode : dinode_on_disk s' (i_inum ip) = dinode_of ip';
  wp_inodes inum : 1 ≤ inum < sb_ninodes (k_sb s) → inum ≠ i_inum ip → dinode_on_disk s' inum = dinode_on_disk s inum;
  wp_used n : 0 ≤ n < sb_size (k_sb s) → used (k_sb s) (blk s) n = true → used (k_sb s) (blk s') n = true;
  wp_other n : 0 ≤ n < sb_size (k_sb s) → used (k_sb s) (blk s) n = true → n ≠ BBLOCK 0 (k_sb s) →
    n ≠ IBLOCK (i_inum ip) (k_sb s) → ¬ owns (blk s) ip n → blk s' n = blk s n;
  wp_log : (length bl' ≤ length bl + Z.to_nat (read_rounds off (Z.of_nat (length bs))) + 3)%nat
}.

Lemma layout_inode_block s inum :
  fs_layout s → 1 ≤ inum < sb_ninodes (k_sb s) → ∃ data, inode_block s inum data.
Proof.
  intros Hl Hin. destruct (fl_inode _ Hl inum Hin) as (R & _ & _).
  destruct (bm_block _ _ (fl_map _ Hl) _ R) as (data & Hd & Hlen). exists data.
  pose proof (bm_size _ _ (fl_map _ Hl)) as Hsz. unfold BPB, BSIZE in Hsz.
  split; [lia|done|done|by apply (fl_disk _ Hl)].
Qed.

(** Writing an inode block is invisible to the layout and to files. *)
Section inode_write.
Context (s s' : kstate) (inum : Z) (data' : list Z).
Hypothesis Hl : fs_layout s.
Hypothesis Hin : 1 ≤ inum < sb_ninodes (k_sb s).
Hypothesis Hlen : length data' = 1024%nat.
Hypothesis Hsb : k_sb s' = k_sb s.
Hypothesis Hdisk : k_disk s' = k_disk s.
Hypothesis Hblk : ∀ m, blk s' m = if decide (m = IBLOCK inum (k_sb s)) then Some data' else blk s m.

Lemma iw_used b : 0 ≤ b < sb_size (k_sb s) → used (k_sb s) (blk s') b = used (k_sb s) (blk s) b.
Proof.
  intros Hb. apply used_ext. rewrite Hblk, decide_False; [done|]. by apply (fl_inode _ Hl inum Hin).
Qed.

Lemma iw_layout : fs_layout s'.
Proof.
  pose proof Hl as [H1 H2 H3 H4 H5]. split; rewrite ?Hsb, ?Hdisk; try done.
  - apply (bitmap_ok_upd (k_sb s) (blk s)); [done| |].
    + intros m Hm. rewrite Hblk. case_decide; [eauto|]. by apply (bm_block _ _ H1).
    + intros b Hb _. by rewrite iw_used.
  - intros n Hn. destruct (H4 n Hn) as (R & U & N). by rewrite iw_used.
Qed.

Lemma iw_data n : data_block (k_sb s) n → blk s' n = blk s n.
Proof. intros Hd. rewrite Hblk, decide_False; [done|]. intros E. by apply (db_inode _ _ Hd inum). Qed.

Lemma iw_addr ip bn : file_wf s ip → file_addr (blk s') ip bn = file_addr (blk s) ip bn.
Proof.
  intros Hw. apply file_addr_same. intros n Hn. apply iw_data. apply (fw_own _ _ Hw). by right.
Qed.

Lemma iw_wf ip : file_wf s ip → file_wf s' ip.
Proof.
  intros Hw. assert (∀ bn, file_addr (blk s') ip bn = file_addr (blk s) ip bn) as Ha by (intros; by apply iw_addr).
  destruct Hw as [H1 H2 H3 H4 H5 H6 H7]. split; try done; rewrite ?Hsb; try (setoid_rewrite Ha; done).
  intros n Hn. assert (owns (blk s) ip n) as Ho by (unfold owns in *; by setoid_rewrite <- Ha).
  destruct (H4 n Ho) as [Hd Hu]. split; [done|]. rewrite iw_used; [done|]. pose proof (db_range _ _ Hd). lia.
Qed.

Lemma iw_get ip k : file_wf s ip → 0 ≤ k → file_get (blk s') ip k = file_get (blk s) ip k.
Proof.
  intros Hw Hk. destruct (file_addr (blk s) ip (k / BSIZE)) as [n|] eqn:En.
  - rewrite !(file_get_addr _ _ _ n) by (by rewrite ?iw_addr). rewrite iw_data; [done|]. apply (fw_own _ _ Hw). left.
    exists (k / BSIZE). split; [by apply Z.div_pos|done].
  - rewrite !file_get_hole by (by rewrite ?iw_addr). done.
Qed.

End inode_write.

(** The inode with the size it has after [tot] bytes at [off]. *)
Lemma sized_wf s0 ip0 bl0 off bs bl ip tot W s :
  off ≤ i_size ip0 → 0 ≤ off → off + Z.of_nat (length bs) ≤ MAXFILE * BSIZE →
  written s0 ip0 bl0 off bs bl ip tot W s → file_wf s (set_i_size (Z.max (i_size ip) (off + tot)) ip).
Proof.
  intros Hoff H0 Hmax [Hg Ht _ Haddr]. pose proof (g_wf _ _ _ _ _ _ _ Hg) as [H1 H2 H3 H4 H5 H6 H7].
  assert (i_size ip = i_size ip0) as Es by (rewrite (g_only _ _ _ _ _ _ _ Hg); done).
  split; try done.
  - cbn [i_size set_i_size]. lia.
  - destruct H3 as [T1 T2 T3 T4 T5 T6 T7]. split; try done. cbn [di_size dinode_of i_size set_i_size] in *.
    unfold MAXFILE, NINDIRECT, NDIRECT, BSIZE in *. change (1024 / 4) with 256 in *. lia.
  - intros bn Hbn Hlt. change (is_Some (file_addr (blk s) ip bn)). cbn [i_size set_i_size] in Hlt.
    destruct (decide (bn * BSIZE < i_size ip)) as [Hin|Hout]; [by apply H7|].
    destruct (Haddr (bn * BSIZE)) as [x Hx]; [lia|]. rewrite Z.div_mul in Hx by done. by exists x.
Qed.

Lemma take_chunk bs tot : chunk bs 0 tot = take (Z.to_nat tot) bs.
Proof. done. Qed.

(** The inode blocks are not the file's. *)
Lemma grows_inodes bl s ip W bl' s' ip' inum :
  grows bl s ip W bl' s' ip' → fs_layout s → file_wf s ip → 1 ≤ inum < sb_ninodes (k_sb s) →
  blk s' (IBLOCK inum (k_sb s)) = blk s (IBLOCK inum (k_sb s)).
Proof.
  intros Hg Hl Hw Hin. destruct (fl_inode _ Hl inum Hin) as (R & U & N). apply (g_other _ _ _ _ _ _ _ Hg); try done.
  - intros E. apply (N 0); [lia|done].
  - intros Ho. destruct (fw_own _ _ Hw _ Ho) as [Hd _]. by apply (db_inode _ _ Hd inum).
Qed.

(** Two inodes are in different blocks or at different places of one. *)
Lemma inodes_apart s a b :
  fs_layout s → 1 ≤ a < sb_ninodes (k_sb s) → 1 ≤ b < sb_ninodes (k_sb s) → a ≠ b →
  IBLOCK a (k_sb s) = IBLOCK b (k_sb s) → a mod IPB ≠ b mod IPB.
Proof.
  intros Hl Ha Hb Hne. rewrite !(fl_nowrap _ Hl) by done. intros E E'. apply Hne.
  rewrite (Z.div_mod a IPB), (Z.div_mod b IPB) by done. assert (a / IPB = b / IPB) as -> by lia. by rewrite E'.
Qed.

(** The inode of the file, written back. *)
Lemma writei_finish {A} s0 ip0 bl0 off bs bl ip tot W s (K : M A) Q rounds :
  fs_layout s0 → file_wf s0 ip0 → off ≤ i_size ip0 → 0 ≤ off → off + Z.of_nat (length bs) ≤ MAXFILE * BSIZE → (i < length (k_itable s0))%nat →
  1 ≤ i_inum ip0 < sb_ninodes (k_sb s0) → written s0 ip0 bl0 off bs bl ip tot W s →
  (length W ≤ rounds)%nat → rounds = Z.to_nat (read_rounds off (Z.of_nat (length bs))) → room bl0 s0 (rounds + 8) →
  (tot < Z.of_nat (length bs) → ∀ b, 0 ≤ b < sb_size (k_sb s0) → used (k_sb s0) (blk s) b = true) →
  (∀ s' bl' ip', writei_post bl0 s0 ip0 off bs tot s' bl' ip' → wpc (disk_env me) (λ d, d = k_disk s0) (K s') Q) →
  wpc (disk_env me) (λ d, d = k_disk s0)
    ((ip <- geti i;; when (i_size ip <? off + tot) (modi i (set_i_size (off + tot)));; iupdate fuel i;; K) s) Q.
Proof.
  intros Hl0 Hw0 Hoff H0 Hmax Hent Hin Hwr HW Hrd [Hr1 Hr2] Hfull HQ. pose proof (sized_wf _ _ _ _ _ _ _ _ _ _ Hoff H0 Hmax Hwr) as Hwf.
  pose proof Hwr as [Hg Ht Hget Haddr]. pose proof (wframe_sb _ _ (g_frame _ _ _ _ _ _ _ Hg)) as Esb.
  pose proof (grows_length _ _ _ _ _ _ _ Hg) as Hlen.
  assert (k_itable s !! i = Some ip) as Hi by (rewrite (g_table _ _ _ _ _ _ _ Hg); by apply list_lookup_insert_eq).
  set (ip2 := set_i_size (Z.max (i_size ip) (off + tot)) ip) in *.
  set (s2 := set_k_itable (<[i := ip2]> (k_itable s)) s).
  assert (wpc (disk_env me) (λ d, d = k_disk s0) ((iupdate fuel i;; K) s2) Q →
    wpc (disk_env me) (λ d, d = k_disk s0)
      ((ip <- geti i;; when (i_size ip <? off + tot) (modi i (set_i_size (off + tot)));; iupdate fuel i;; K) s) Q) as Hstep.
  { intros H. eapply wpc_step; [by apply geti_some|]. cbn beta. unfold s2, ip2 in H.
    destruct (Z.ltb_spec (i_size ip) (off + tot)) as [Hlt|Hge]; cbn [when].
    - eapply wpc_step; [by apply modi_run|]. by rewrite Z.max_r in H by lia.
    - eapply wpc_step; [reflexivity|]. rewrite Z.max_l in H by lia. replace (set_i_size (i_size ip) ip) with ip in H by (by destruct ip).
      rewrite list_insert_id in H by done. by replace (set_k_itable (k_itable s) s) with s in H by (by destruct s). }
  apply Hstep, wpc_bind. clear Hstep.
  assert (i_inum ip2 = i_inum ip0) as Einum by (unfold ip2; rewrite (g_only _ _ _ _ _ _ _ Hg); done).
  destruct (layout_inode_block s (i_inum ip0)) as (data & Hib); [apply Hg|by rewrite Esb|].
  pose proof Hib as [_ Hdt Hdl _].
  eapply (iupdate_ok me pid fuel Hfuel bl s2 i ip2 data).
  - apply op_itable, Hg.
  - unfold s2. cbn [k_itable set_k_itable]. apply list_lookup_insert_eq. rewrite (g_table _ _ _ _ _ _ _ Hg). by rewrite length_insert.
  - apply Hwf.
  - rewrite Einum. destruct Hib. by split.
  - lia.
  - change (k_log s2) with (k_log s). rewrite (g_size _ _ _ _ _ _ _ Hg). lia.
  - change (k_disk s2) with (k_disk s). by rewrite (g_disk _ _ _ _ _ _ _ Hg).
  - intros s3 Hop3 Hf3 Hd3 Hl3 Hv3. rewrite Einum in *. change (k_sb s2) with (k_sb s) in *. rewrite Esb in *.
    set (data' := put_dinode (dinode_off (i_inum ip0)) (dinode_of ip2) data) in *.
    pose proof (dinode_off_fits (i_inum ip0)) as Hfit.
    assert (length data' = 1024%nat) as Hdl'.
    { unfold data', put_dinode. rewrite length_put_at; [done|]. rewrite length_dinode_bytes; [lia|apply Hwf]. }
    assert (k_sb s3 = k_sb s) as Esb3 by (by rewrite (fs_frame_sb _ _ Hf3)).
    assert (k_disk s3 = k_disk s) as Ed3 by done.
    assert (∀ m, blk s3 m = if decide (m = IBLOCK (i_inum ip0) (k_sb s)) then Some data' else blk s m) as Hv.
    { intros m. rewrite Hv3, Esb. done. }
    assert (fs_layout s) as Hl by apply Hg. assert (1 ≤ i_inum ip0 < sb_ninodes (k_sb s)) as Hin' by (by rewrite Esb).
    assert (∀ b, 0 ≤ b < sb_size (k_sb s0) → used (k_sb s0) (blk s3) b = used (k_sb s0) (blk s) b) as Hu3.
    { rewrite <- Esb. by apply (iw_used s s3 (i_inum ip0) data'). }
    eapply HQ. split.
    + exact Hop3.
    + eapply wframe_trans; [apply Hg|]. eapply wframe_trans; [|by apply wframe_fs]. unfold s2. by destruct s.
    + by rewrite Hd3, <- (g_disk _ _ _ _ _ _ _ Hg).
    + rewrite Hl3. apply Hg.
    + rewrite (itable_same _ _ Hf3). unfold s2. cbn [k_itable set_k_itable]. by rewrite (g_table _ _ _ _ _ _ _ Hg), list_insert_insert_eq.
    + pose proof (g_only _ _ _ _ _ _ _ Hg) as E. unfold ip2. destruct ip0, ip. simpl in *. injection E. intros. subst. done.
    + by eapply iw_layout.
    + by eapply (iw_wf s s3).
    + lia.
    + intros Hlt b Hb. rewrite Hu3 by done. by apply Hfull.
    + intros k Hk. rewrite (iw_get s s3 (i_inum ip0) data' Hin' Hv ip2 k Hwf Hk). apply (Hget k Hk).
    + unfold dinode_on_disk. rewrite Esb3, Hv, decide_True by done. apply get_put_dinode; [apply Hwf|lia].
    + intros inum Hn Hne. pose proof (grows_inodes _ _ _ _ _ _ _ inum Hg Hl0 Hw0 Hn) as Hb.
      unfold dinode_on_disk. rewrite Esb3. rewrite <- Esb in Hb, Hn |- *. rewrite <- Hb, Hv. case_decide as E; [|done].
      rewrite E, Esb, Hdt. simpl. apply get_put_dinode_ne; [apply Hwf|lia|].
      pose proof (inodes_apart s inum (i_inum ip0) Hl Hn Hin' Hne E) as Hmod. unfold dinode_off, DINODE_SIZE in *.
      pose proof (Z.mod_pos_bound inum IPB ltac:(done)). pose proof (Z.mod_pos_bound (i_inum ip0) IPB ltac:(done)). lia.
    + intros n Hn Hu. rewrite Hu3 by done. by apply (g_used _ _ _ _ _ _ _ Hg).
    + intros n Hn Hu Hm Hno Ho. rewrite Hv, decide_False by (by rewrite Esb). by apply (g_other _ _ _ _ _ _ _ Hg).
    + pose proof (logs_length bl (IBLOCK (i_inum ip0) (k_sb s0))). lia.
Qed.

(** [writei] from a source that can be read. *)
Lemma writei_from_ok bl s ip off src bs (inp : Z → Z → M (Z * list Z)) :
  op me pid [] bl s → k_itable s !! i = Some ip → fs_layout s → file_wf s ip → 1 ≤ i_inum ip < sb_ninodes (k_sb s) →
  0 ≤ off ≤ i_size ip → off + Z.of_nat (length bs) ≤ MAXFILE * BSIZE → 0 ≤ src → src + Z.of_nat (length bs) < 2 ^ 64 →
  (∀ s' tot m, wframe s s' → 0 ≤ tot → 0 ≤ m → tot + m ≤ Z.of_nat (length bs) → inp (src + tot) m s' = Ret (0, chunk bs tot m) s') →
  room bl s (Z.to_nat (read_rounds off (Z.of_nat (length bs))) + 8) →
  wpc (disk_env me) (λ d, d = k_disk s) (writei_from fuel i inp src off (Z.of_nat (length bs)) s)
    (λ r s', ∃ bl' ip', writei_post bl s ip off bs r s' bl' ip').
Proof.
  intros Hop Hi Hl Hw Hin Ho Hmax Hs Hs' Hinp Hroom. unfold writei_from.
  assert (0 ≤ read_rounds off (Z.of_nat (length bs))) as Hrr by apply read_rounds_nonneg.
  pose proof (fw_size _ _ Hw) as Hsz. assert (Z.of_nat (length bs) < 2 ^ 31) as Hn31.
  { unfold MAXFILE, NINDIRECT, NDIRECT, BSIZE in Hmax. change (1024 / 4) with 256 in Hmax. lia. }
  assert (off + Z.of_nat (length bs) < 2 ^ 31) as Hon.
  { unfold MAXFILE, NINDIRECT, NDIRECT, BSIZE in Hmax. change (1024 / 4) with 256 in Hmax. lia. }
  eapply wpc_step; [by apply geti_some|]. rewrite u32_small by lia.
  rewrite (proj2 (Z.ltb_ge (i_size ip) off)), (proj2 (Z.ltb_ge (off + _) off)) by lia. cbn [orb].
  rewrite (proj2 (Z.ltb_ge (MAXFILE * BSIZE) _)) by lia.
  assert (written s ip bl off bs bl ip 0 [] s) as Hwr.
  { split.
    - apply grows_reads; try done. by apply reads_refl.
    - lia.
    - intros k _. unfold write_get, chunk. simpl. by rewrite decide_False by lia.
    - lia. }
  apply wpc_bind. replace src with (src + 0) by lia. replace off with (off + 0) at 1 by lia.
  eapply wpc_mono; [eapply (writei_loop_ok s ip bl off src bs inp _ Hinp (conj Hs Hs') (conj (proj1 Ho) Hmax) Hroom)|done|].
  - by eapply lookup_lt_Some.
  - exact Hwr.
  - rewrite Z.add_0_r, Z.sub_0_r. apply read_rounds_blocks. lia.
  - rewrite Z.add_0_r, Z.sub_0_r. simpl length. rewrite Z2Nat.id by done. lia.
  - intros r s1 (bl1 & ip1 & tot & W & -> & Hwr1 & HW & Hfull). cbn [fst snd].
    pose proof (wr_tot _ _ _ _ _ _ _ _ _ _ Hwr1) as Htot.
    eapply writei_finish; try done; try lia; [by eapply lookup_lt_Some|].
    intros s2 bl2 ip2 Hp. unfold ret. cbn [wpc]. rewrite s32_small by lia. by exists bl2, ip2.
Qed.

End write.

