(* ===== verification/FsDir.v ===== *)
(** * Writing files and directories: the theorems

    [writei] from a local variable, reading back what was written, and [dirlink]. *)

From Stdlib Require Import ZArith Lia.
From S2P Require Import Prelude Machine Kernel Boot CString Printf Kalloc Vm ProcTable Seq Sleeplock Virtio Bio Log Crash Trans File Fs FsData FsAlloc FsSpec FsWrite.

(** A well-formed file can be read. *)
Lemma file_wf_ok s ip : fs_layout s → file_wf s ip → file_ok s ip.
Proof.
  intros Hl Hw.
  assert (∀ n, owns (blk s) ip n → readable s n) as Hrd.
  { intros n Hn. destruct (fw_own _ _ Hw n Hn) as [Hdb _]. pose proof (db_range _ _ Hdb).
    pose proof (bm_size _ _ (fl_map _ Hl)) as Hsz. unfold BPB, BSIZE in Hsz.
    split_and!; [lia|lia|apply (fl_disk _ Hl); lia|apply (bm_block _ _ (fl_map _ Hl)); lia]. }
  split; try apply Hw.
  - intros bn H0 Hbn. destruct (fw_full _ _ Hw bn H0 Hbn) as [a Ha]. exists a. split; [done|]. apply Hrd. left. eauto.
  - intros Hlt. destruct (fw_full _ _ Hw NDIRECT ltac:(done) Hlt) as [a Ha].
    rewrite file_addr_ind in Ha by (split; [lia|reflexivity]). apply bind_Some in Ha as (n & Hn & _).
    pose proof (file_ind_nz _ _ Hn) as [??]. exists n. split_and!; try done. apply Hrd. by right.
Qed.

Lemma file_bytes_get B ip off n : file_bytes B ip off n = (λ j, file_get B ip (off + j)) <$> seqZ 0 n.
Proof. done. Qed.

(** Reading back what was written. *)
Lemma write_get_bytes get off bs n :
  0 ≤ n ≤ Z.of_nat (length bs) → (λ j, write_get get off bs (off + j)) <$> seqZ 0 n = take (Z.to_nat n) bs.
Proof.
  intros Hn. apply list_eq. intros k. rewrite list_lookup_fmap. destruct (decide (k < Z.to_nat n)%nat) as [Hk|Hk].
  - rewrite lookup_seqZ_lt by lia. rewrite lookup_take_lt by lia. simpl. rewrite Z.add_0_l. unfold write_get. rewrite decide_True by lia.
    replace (Z.to_nat (off + Z.of_nat k - off)) with k by lia.
    destruct (lookup_lt_is_Some_2 bs k) as [x Hx]; [lia|]. by rewrite Hx.
  - rewrite lookup_seqZ_ge by lia. by rewrite lookup_take_ge by lia.
Qed.

(** ** Names *)

Lemma take_pad {A} k (c : list A) x : take k (c ++ replicate (S k) x) = take k (c ++ replicate k x).
Proof.
  replace (replicate (S k) x) with (replicate k x ++ [x]) by (by rewrite <- replicate_S_end).
  rewrite app_assoc. apply take_app_le. rewrite length_app, length_replicate. lia.
Qed.

Lemma get_bytes_zero m a k : (∀ b, a ≤ b < a + Z.of_nat k → m b = 0) → get_bytes m a k = replicate k 0.
Proof.
  revert a. induction k as [|k IH]; intros a H; [done|]. cbn [get_bytes replicate]. rewrite H by lia. f_equal. apply IH.
  intros b Hb. apply H. lia.
Qed.

Lemma strncpy_loop_bytes k m s l t :
  Forall (λ c, 0 ≤ c < 256) l →
  let '(m', s', r) := strncpy_loop k m s (buf_mem l) (Z.of_nat t) in
  get_bytes (memset_loop r m' s' 0) s k = take k (c_string (drop t l) ++ replicate k 0) ∧
  (∀ a, a < s → memset_loop r m' s' 0 a = m a).
Proof.
  intros Hl. revert m s t. induction k as [|k IH]; intros m s t; cbn [strncpy_loop]; [done|].
  assert (u8 (buf_mem l (Z.of_nat t)) = 0 ∧ c_string (drop t l) = [] ∨
    ∃ b, buf_mem l (Z.of_nat t) = b ∧ u8 b = b ∧ b ≠ 0 ∧ c_string (drop t l) = b :: c_string (drop (S t) l)) as Hcase.
  { unfold buf_mem. rewrite Nat2Z.id. destruct (l !! t) as [b|] eqn:Eb; cbn [default from_option id].
    - pose proof (Forall_lookup_1 _ _ _ _ Hl Eb) as Hb. cbn beta in Hb. rewrite u8_small by done. rewrite (drop_S _ _ _ Eb). simpl.
      destruct (Z.eqb_spec b 0) as [->|Hb0]; [by left|]. right. exists b.
      split_and!; try done. by apply u8_small.
    - left. split; [done|]. rewrite drop_ge; [done|]. by apply lookup_ge_None. }
  destruct Hcase as [[E ->]|(b & Eb & Eu & Hb0 & ->)].
  - rewrite E. cbn [Z.eqb app]. rewrite (take_ge (replicate _ _)) by (by rewrite length_replicate). split.
    + apply get_bytes_zero. intros b Hb. rewrite memset_loop_spec. case_test; [done|]. unfold st8. case_test; [done|lia].
    + intros a Ha. rewrite memset_loop_spec. case_test; [lia|]. unfold st8. case_test; [lia|done].
  - rewrite Eb, Eu, (proj2 (Z.eqb_neq b 0)) by done. specialize (IH (st8 m s b) (s + 1) (S t)).
    replace (Z.of_nat (S t)) with (Z.of_nat t + 1) in IH by lia.
    destruct (strncpy_loop k _ (s + 1) _ _) as [[m' s'] r]. destruct IH as [IH1 IH2]. split.
    + cbn [get_bytes app firstn]. rewrite IH1, IH2 by lia. unfold st8. rewrite Z.eqb_refl, Eu. f_equal.
      by rewrite take_pad.
    + intros a Ha. rewrite IH2 by lia. unfold st8. by rewrite (proj2 (Z.eqb_neq a s)) by lia.
Qed.

(** [strncpy] into a directory entry: the name, cut to [DIRSIZ], padded with zeros. *)
Lemma strncpy_name_spec name :
  Forall (λ c, 0 ≤ c < 256) name →
  strncpy_name name = take (Z.to_nat DIRSIZ) (c_string name ++ replicate (Z.to_nat DIRSIZ) 0).
Proof.
  intros Hl. pose proof (strncpy_loop_bytes (Z.to_nat DIRSIZ) (λ _, 0) 0 name 0 Hl) as H.
  unfold strncpy_name, strncpy. change (Z.of_nat 0) with 0 in H.
  destruct (strncpy_loop _ _ _ _ _) as [[m' s'] r]. by destruct H as [-> _].
Qed.

Lemma c_string_no0 l : 0 ∉ c_string l.
Proof. induction l as [|c l IH]; simpl; [set_solver|]. case_test; set_solver. Qed.

Lemma c_string_firstn k l : c_string (take k l) = take k (c_string l).
Proof. revert k. induction l as [|c l IH]; intros [|k]; simpl; try done. case_test; [done|]. by rewrite IH. Qed.

Lemma c_string_bytes l : Forall (λ c, 0 ≤ c < 256) l → Forall (λ c, 0 ≤ c < 256) (c_string l).
Proof. induction 1; simpl; [done|]. case_test; by constructor. Qed.

Lemma c_string_pad c k : 0 ∉ c → c_string (c ++ replicate k 0) = c.
Proof. intros H. destruct k; simpl; [rewrite app_nil_r; by apply c_string_full|by apply c_string_app]. Qed.

Lemma strncpy_name_length name : Forall (λ c, 0 ≤ c < 256) name → length (strncpy_name name) = 14%nat.
Proof.
  intros H. rewrite strncpy_name_spec, length_take, length_app, length_replicate by done. unfold DIRSIZ. lia.
Qed.

Lemma strncpy_name_bytes name : Forall (λ c, 0 ≤ c < 256) name → Forall (λ c, 0 ≤ c < 256) (strncpy_name name).
Proof.
  intros H. rewrite strncpy_name_spec by done. apply Forall_take, Forall_app. split; [by apply c_string_bytes|].
  apply Forall_replicate. lia.
Qed.

(** A name is found by the entry it was written to. *)
Lemma namecmp_strncpy name :
  Forall (λ c, 0 ≤ c < 256) name → (14 ≤ length name)%nat → namecmp name (strncpy_name name) = 0.
Proof.
  intros H Hlen. apply namecmp_spec; [done|by apply strncpy_name_bytes|done|by rewrite strncpy_name_length|].
  rewrite strncpy_name_spec by done. rewrite take_take, Nat.min_id, !c_string_firstn.
  rewrite c_string_pad by apply c_string_no0. done.
Qed.

Section iput.
Context `{D : Device} (fuel : nat).

(** [iput] of a reference that is not the last one to an inode without links. *)
Lemma iput_keeps s j ip :
  L_itable ∉ k_held s → k_itable s !! j = Some ip →
  ((i_ref ip =? 1) && truthy (i_valid ip) && (i_nlink ip =? 0))%bool = false →
  iput fuel j s = Ret tt (set_k_itable (<[j := set_i_ref (s32 (i_ref ip - 1)) ip]> (k_itable s)) s).
Proof.
  intros Hh Hj Hc. unfold iput. erewrite bind_step by (by apply acquire_free). erewrite bind_step.
  2: { apply geti_some. cbn [k_itable set_k_held]. exact Hj. }
  rewrite Hc. cbn [when]. erewrite bind_step by reflexivity. erewrite bind_step by reflexivity.
  erewrite release_held by reflexivity. f_equal. apply k_ext; try reflexivity. simpl. by rewrite (alter_insert_at _ _ _ ip).
Qed.

End iput.

Section files.
Context (me : nat) (pid : Z) `{D : Device} (fuel : nat) (i : nat).
Hypothesis Hfuel : enough_fuel fuel.

(** A file that a transaction can write [n] bytes of at [off]. *)
Record write_pre (bl : list Z) (s : kstate) (ip : inode) (off n : Z) : Prop := {
  pre_op : op me pid [] bl s;
  pre_entry : k_itable s !! i = Some ip;
  pre_layout : fs_layout s;
  pre_wf : file_wf s ip;
  pre_inum : 1 ≤ i_inum ip < sb_ninodes (k_sb s);
  pre_off : 0 ≤ off ≤ i_size ip;
  pre_max : off + n ≤ MAXFILE * BSIZE;
  pre_room : room bl s (Z.to_nat (read_rounds off n) + 8)
}.

Lemma writei_local_ok bl s ip off bs :
  write_pre bl s ip off (Z.of_nat (length bs)) →
  wpc (disk_env me) (λ d, d = k_disk s) (writei_local fuel i bs off s)
    (λ r s', ∃ bl' ip', writei_post me pid i bl s ip off bs r s' bl' ip').
Proof.
  intros [H1 H2 H3 H4 H5 H6 H7 H8]. apply writei_from_ok; try done.
  unfold MAXFILE, NINDIRECT, NDIRECT, BSIZE in H7. change (1024 / 4) with 256 in H7. lia.
Qed.

(** A write that starts past the end of the file or ends past the largest file is
    refused, and nothing is changed. *)
Lemma writei_rejects inp src off n s ip :
  k_itable s !! i = Some ip → 0 ≤ off → 0 ≤ n → off + n < 2 ^ 32 → i_size ip < off ∨ MAXFILE * BSIZE < off + n →
  writei_from fuel i inp src off n s = Ret (-1) s.
Proof.
  intros Hi Ho Hn Hs H. unfold writei_from. erewrite bind_step by (by apply geti_some). rewrite u32_small by lia.
  rewrite (proj2 (Z.ltb_ge (off + n) off)) by lia. rewrite orb_false_r. destruct (Z.ltb_spec (i_size ip) off); [done|].
  rewrite (proj2 (Z.ltb_lt _ _)) by lia. done.
Qed.

(** After a write, the file's bytes as [readi] returns them. *)
Lemma written_bytes bl s ip off bs tot s' bl' ip' :
  0 ≤ off → writei_post me pid i bl s ip off bs tot s' bl' ip' → file_bytes (blk s') ip' off tot = take (Z.to_nat tot) bs.
Proof.
  intros H0 Hp. pose proof (wp_tot _ _ _ _ _ _ _ _ _ _ _ _ Hp) as Ht. rewrite file_bytes_get.
  rewrite (list_fmap_ext _ (λ j, write_get (file_get (blk s) ip) off (take (Z.to_nat tot) bs) (off + j))).
  - rewrite write_get_bytes by (rewrite length_take; lia). by rewrite take_take, Nat.min_id.
  - intros k j Hj%lookup_seqZ. apply (wp_get _ _ _ _ _ _ _ _ _ _ _ _ Hp). lia.
Qed.

Lemma write_read_ok bl s ip off bs :
  write_pre bl s ip off (Z.of_nat (length bs)) →
  wpc (disk_env me) (λ d, d = k_disk s)
    ((r <- writei_local fuel i bs off;; x <- readi_local fuel i off r;; ret (r, x)) s)
    (λ y _, y.2 = (y.1, take (Z.to_nat y.1) bs) ∧ 0 ≤ y.1 ≤ Z.of_nat (length bs)).
Proof.
  intros Hpre. pose proof Hpre as [_ Hi _ _ _ Ho Hmax [Hr1 _]]. apply wpc_bind. eapply wpc_mono; [by apply writei_local_ok|done|].
  intros r s1 (bl1 & ip1 & Hp). pose proof (wp_tot _ _ _ _ _ _ _ _ _ _ _ _ Hp) as Ht.
  unfold MAXFILE, NINDIRECT, NDIRECT, BSIZE in Hmax. change (1024 / 4) with 256 in Hmax.
  assert (i_size ip1 = Z.max (i_size ip) (off + r)) as Es by (rewrite (wp_ip _ _ _ _ _ _ _ _ _ _ _ _ Hp); done).
  rewrite <- (wp_disk _ _ _ _ _ _ _ _ _ _ _ _ Hp). apply wpc_bind.
  eapply wpc_mono; [eapply (readi_local_ok me pid fuel Hfuel bl1 s1 i ip1 off r (λ d, d = k_disk s1))|done|].
  - apply Hp.
  - rewrite (wp_table _ _ _ _ _ _ _ _ _ _ _ _ Hp). apply list_lookup_insert_eq. by eapply lookup_lt_Some.
  - apply file_wf_ok; apply Hp.
  - lia.
  - lia.
  - lia.
  - pose proof (wp_log _ _ _ _ _ _ _ _ _ _ _ _ Hp). lia.
  - done.
  - intros x s2 [-> _]. unfold ret. cbn [wpc fst snd]. split; [|done].
    assert (read_len ip1 off r = r) as -> by (unfold read_len; lia).
    by rewrite (written_bytes _ _ _ _ _ _ _ _ _ (proj1 Ho) Hp).
Qed.

(** The blocks a write of [filewrite] touches. *)
Lemma write_rounds off n : 0 ≤ n ≤ 3 * BSIZE → read_rounds off n ≤ 4.
Proof.
  intros Hn. unfold read_rounds, BSIZE in *. case_test; [lia|]. pose proof (Z.mod_pos_bound off 1024 ltac:(lia)).
  apply Z.lt_succ_r, Z.div_lt_upper_bound; lia.
Qed.

(** ** [dirlink] *)

Lemma get_dirent_bytes inum nm :
  0 ≤ inum < 65536 → length nm = 14%nat → get_dirent (dirent_bytes (mk_dirent (u16 inum) nm)) = mk_dirent inum nm.
Proof.
  intros Hi Hn. unfold u16. rewrite Z.mod_small by lia. unfold get_dirent, dirent_bytes, get16. cbn [de_inum de_name le_bytes app].
  rewrite drop_0. replace (drop 2 _) with nm by done. rewrite (take_ge nm) by lia. f_equal. simpl. unfold u8. zarith.
Qed.

Lemma dirent_bytes_length inum nm : length nm = 14%nat → length (dirent_bytes (mk_dirent inum nm)) = 16%nat.
Proof. intros H. unfold dirent_bytes. simpl. by rewrite H. Qed.

Lemma dir_entry_ext B B' dp k : (∀ m, B' m = B m) → dir_entry B' dp k = dir_entry B dp k.
Proof. intros H. unfold dir_entry. by rewrite (file_bytes_ext B). Qed.

(** One entry is written: it is there, and the others are as before. *)
Lemma entry_written B dp B' dp' k d :
  0 ≤ k → length (de_name d) = 14%nat → 0 ≤ de_inum d < 65536 →
  (∀ j, 0 ≤ j → file_get B' dp' j = write_get (file_get B dp) (k * DIRENT_SIZE) (dirent_bytes (mk_dirent (u16 (de_inum d)) (de_name d))) j) →
  dir_entry B' dp' k = d ∧ ∀ k', 0 ≤ k' → k' ≠ k → dir_entry B' dp' k' = dir_entry B dp k'.
Proof.
  intros Hk Hn Hi Hget. pose proof (dirent_bytes_length (u16 (de_inum d)) _ Hn) as Hlen. set (bs := dirent_bytes _) in *.
  unfold DIRENT_SIZE in *. split.
  - unfold dir_entry, DIRENT_SIZE. rewrite file_bytes_get.
    rewrite (list_fmap_ext _ (λ j, write_get (file_get B dp) (k * 16) bs (k * 16 + j))).
    + rewrite write_get_bytes by lia. rewrite take_ge by lia. unfold bs. rewrite get_dirent_bytes by done. by destruct d.
    + intros x j Hj%lookup_seqZ. apply Hget. lia.
  - intros k' Hk' Hne. unfold dir_entry, DIRENT_SIZE. f_equal. rewrite !file_bytes_get. apply list_fmap_ext.
    intros x j Hj%lookup_seqZ. rewrite Hget by lia. unfold write_get. rewrite decide_False by lia. done.
Qed.

(** The search for a free entry. *)
Definition dir_free_post (bl : list Z) (s : kstate) (dp : inode) (o : option Z) (s' : kstate) : Prop :=
  let n := i_size dp / DIRENT_SIZE in
  reads me pid bl s s' ∧ ∃ k, 0 ≤ k ≤ n ∧ default (i_size dp) o = k * DIRENT_SIZE ∧
    (∀ k', 0 ≤ k' < k → de_inum (dir_entry (blk s) dp k') ≠ 0) ∧ (k < n → de_inum (dir_entry (blk s) dp k) = 0).

Lemma dir_free_ok bl s dp C :
  op me pid [] bl s → k_itable s !! i = Some dp → file_ok s dp → i_size dp mod DIRENT_SIZE = 0 → (length bl < NBUF)%nat →
  C (k_disk s) →
  wpc (disk_env me) C
    (for_until (dir_offs (i_size dp)) (λ off,
       r <- readi_local fuel i off DIRENT_SIZE;;
       if negb (r.1 =? DIRENT_SIZE) then panic "dirlink read"
       else if de_inum (get_dirent r.2) =? 0 then ret (Some off)
       else ret None) s) (dir_free_post bl s dp).
Proof.
  intros Hop Hi Hok Hmod Hr HC. pose proof (fo_size _ _ Hok) as Hsz. unfold MAXFILE, NINDIRECT, NDIRECT, BSIZE in Hsz.
  change (1024 / 4) with 256 in Hsz.
  eapply (wpc_for_until _ _ _ (λ pre s', reads me pid bl s s' ∧
    ∀ k, 0 ≤ k < Z.of_nat (length pre) → de_inum (dir_entry (blk s) dp k) ≠ 0)).
  { split; [by apply reads_refl|]. simpl. lia. }
  - intros pre off post s1 E [Hrd Hno]. apply dir_offs_at in E as [Eoff Hoff]; [|lia|done].
    pose proof Hrd as (Hop1 & Hf1 & Hd1 & _ & Hv1). pose proof (reads_itable _ _ _ _ _ Hrd) as Hit.
    assert (read_len dp off DIRENT_SIZE = DIRENT_SIZE) as Hrl by (unfold read_len; lia).
    apply wpc_bind. eapply wpc_mono; [eapply (readi_local_ok me pid fuel Hfuel bl s1 i dp off DIRENT_SIZE); try done|done|].
    { by rewrite Hit. } { by eapply file_ok_ext. } { unfold DIRENT_SIZE in *. lia. } { unfold DIRENT_SIZE in *. lia. } { by rewrite Hd1. }
    intros r s2 [-> Hrd2]. cbn [fst snd]. rewrite Hrl. change (negb (DIRENT_SIZE =? DIRENT_SIZE)) with false. cbn iota zeta.
    rewrite (file_bytes_ext (blk s)) by done. set (k := Z.of_nat (length pre)) in *.
    replace (file_bytes (blk s) dp off DIRENT_SIZE) with (file_bytes (blk s) dp (k * DIRENT_SIZE) DIRENT_SIZE) by (by rewrite Eoff).
    fold (dir_entry (blk s) dp k). pose proof (reads_trans _ _ _ _ _ _ Hrd Hrd2) as Hrd12.
    destruct (Z.eqb_spec (de_inum (dir_entry (blk s) dp k)) 0) as [E0|E0]; unfold ret; cbn [wpc].
    + split; [done|]. exists k. split_and!; [unfold k; lia| |done|done|done].
      unfold DIRENT_SIZE in *. apply Z.div_le_lower_bound; lia.
    + split; [done|]. rewrite length_app. simpl length. intros k' Hk'.
      destruct (decide (k' = k)) as [->|]; [done|]. apply Hno. unfold k in *. lia.
  - intros s1 [Hrd Hno]. split; [done|]. exists (i_size dp / DIRENT_SIZE). rewrite dir_offs_length in Hno by (lia || done).
    unfold DIRENT_SIZE in *. pose proof (Z.div_mod (i_size dp) 16). pose proof (Z.div_pos (i_size dp) 16).
    split_and!; [lia|lia|simpl; lia|done|lia].
Qed.

(** Giving back a reference that [iget] has just made. *)
Lemma iget_iput s dev inum j s1 :
  itable_free s → iget dev inum s = Ret j s1 → ∃ jp, iput fuel j s1 = Ret tt (set_k_itable (<[j := jp]> (k_itable s)) s).
Proof.
  intros (Hh & Hok & Hmax & j0 & jp0 & Hj0 & Hr0) Hget. pose proof (iget_ok dev inum s Hh Hok Hmax) as H.
  rewrite decide_False in H. 2: { intros HF. eapply Forall_lookup_1 in HF as [HF _]; [|done]. done. }
  destruct H as (j' & ip & ip' & Hj & Hrun & _ & _ & Hcase). rewrite Hget in Hrun. injection Hrun as <- ->.
  pose proof (lookup_lt_Some _ _ _ Hj) as Hlt. pose proof (Hmax _ _ Hj) as Hm. destruct Hok as [Hge _]. pose proof (Hge _ _ Hj) as Hg.
  assert (((i_ref ip' =? 1) && truthy (i_valid ip') && (i_nlink ip' =? 0))%bool = false ∧ 0 < i_ref ip' < 2 ^ 31) as [Hc Hrr].
  { destruct (is_inode dev inum ip) eqn:E.
    - subst ip'. cbn [i_ref set_i_ref]. unfold is_inode in E. bool_prop. rewrite (proj2 (Z.eqb_neq _ 1)) by lia. simpl. lia.
    - destruct Hcase as [_ ->]. cbn. split; [done|lia]. }
  set (s1 := set_k_itable _ s). exists (set_i_ref (s32 (i_ref ip' - 1)) ip').
  rewrite (iput_keeps fuel s1 j ip') by (done || by apply list_lookup_insert_eq). f_equal. unfold s1. apply k_ext; try reflexivity. simpl.
  by rewrite list_insert_insert_eq.
Qed.

(** What a write to the directory changes. *)
Record dir_changed (bl : list Z) (s : kstate) (dp dp' : inode) (s' : kstate) : Prop := {
  dc_op : ∃ bl', op me pid [] bl' s' ∧ (length bl' ≤ length bl + 4)%nat;
  dc_frame : wframe s s';
  dc_disk : k_disk s' = k_disk s;
  dc_lgsize : lg_size (k_log s') = lg_size (k_log s);
  dc_table : k_itable s' = <[i := dp']> (k_itable s);
  dc_layout : fs_layout s';
  dc_wf : file_wf s' dp';
  dc_dir : dp' = set_i_addrs (i_addrs dp') (set_i_size (i_size dp') dp);
  dc_inode : dinode_on_disk s' (i_inum dp) = dinode_of dp';
  dc_inodes n : 1 ≤ n < sb_ninodes (k_sb s) → n ≠ i_inum dp → dinode_on_disk s' n = dinode_on_disk s n;
  dc_used b : 0 ≤ b < sb_size (k_sb s) → used (k_sb s) (blk s) b = true → used (k_sb s) (blk s') b = true;
  dc_other b : 0 ≤ b < sb_size (k_sb s) → used (k_sb s) (blk s) b = true → b ≠ BBLOCK 0 (k_sb s) →
    b ≠ IBLOCK (i_inum dp) (k_sb s) → ¬ owns (blk s) dp b → blk s' b = blk s b
}.

(** What [dirlink] did with a new name: the entry is in the first free slot [k]. *)
Record linked (bl : list Z) (s : kstate) (dp : inode) (name : list Z) (inum k : Z) (dp' : inode) (s' : kstate) : Prop := {
  lk_changed : dir_changed bl s dp dp' s';
  lk_slot : 0 ≤ k ≤ i_size dp / DIRENT_SIZE;
  lk_first k' : 0 ≤ k' < k → de_inum (dir_entry (blk s) dp k') ≠ 0;
  lk_free : k < i_size dp / DIRENT_SIZE → de_inum (dir_entry (blk s) dp k) = 0;
  lk_size : i_size dp' = Z.max (i_size dp) ((k + 1) * DIRENT_SIZE);
  lk_entry : dir_entry (blk s') dp' k = mk_dirent inum (strncpy_name name);
  lk_is : entry_is (blk s') dp' name k = true;
  lk_entries k' : 0 ≤ k' → k' ≠ k → dir_entry (blk s') dp' k' = dir_entry (blk s) dp k'
}.

Definition dirlink_post (bl : list Z) (s : kstate) (dp : inode) (name : list Z) (inum : Z) (r : Z) (s' : kstate) : Prop :=
  (r = 0 ∧ (∀ k, 0 ≤ k < i_size dp / DIRENT_SIZE → entry_is (blk s) dp name k = false) ∧
     ∃ k dp', linked bl s dp name inum k dp' s') ∨
  (r = -1 ∧ (∃ k, 0 ≤ k < i_size dp / DIRENT_SIZE ∧ entry_is (blk s) dp name k = true) ∧
     op me pid [] bl s' ∧ ∀ m, blk s' m = blk s m) ∨
  (r = -1 ∧ (∃ dp', dir_changed bl s dp dp' s') ∧ ∀ b, 0 ≤ b < sb_size (k_sb s) → used (k_sb s) (blk s') b = true).

Lemma dirent_rounds k : read_rounds (k * DIRENT_SIZE) 16 = 1.
Proof.
  unfold read_rounds, DIRENT_SIZE, BSIZE. change (16 <=? 0) with false. cbn iota.
  replace (k * 16) with (16 * k) by lia. change 1024 with (16 * 64). rewrite Z.mul_mod_distr_l by lia.
  pose proof (Z.mod_pos_bound k 64 ltac:(lia)). symmetry. apply (Z.div_unique _ _ _ (16 * (k mod 64) + 15)); lia.
Qed.

Lemma itable_free_reads bl s s' : reads me pid bl s s' → itable_free s → itable_free s'.
Proof.
  intros Hrd (A1 & A2 & A3 & A4). unfold itable_free. rewrite (reads_itable _ _ _ _ _ Hrd). split_and!; try done.
  destruct Hrd as (O2 & _). rewrite (th_held _ _ _ (op_thread _ _ _ _ _ O2)). apply not_elem_of_nil.
Qed.

(** A directory that can take one more entry. *)
Record dir_pre (bl : list Z) (s : kstate) (dp : inode) : Prop := {
  dp_op : op me pid [] bl s;
  dp_entry : k_itable s !! i = Some dp;
  dp_layout : fs_layout s;
  dp_wf : file_wf s dp;
  dp_inum : 1 ≤ i_inum dp < sb_ninodes (k_sb s);
  dp_type : i_type dp = T_DIR;
  dp_mod : i_size dp mod DIRENT_SIZE = 0;
  dp_max : i_size dp + DIRENT_SIZE ≤ MAXFILE * BSIZE;
  dp_table : itable_free s;
  dp_room : room bl s 9
}.

Lemma writei_changes bl s s1 dp off bs tot s' bl' dp' :
  reads me pid bl s s1 → length bs = 16%nat → read_rounds off 16 = 1 → writei_post me pid i bl s1 dp off bs tot s' bl' dp' →
  dir_changed bl s dp dp' s'.
Proof.
  intros Hrd Hlen Hrr Hp. pose proof Hrd as (Hop1 & Hf1 & Hd1 & Hl1 & Hv1). pose proof (fs_frame_sb _ _ Hf1) as E1.
  pose proof (reads_itable _ _ _ _ _ Hrd) as Hit.
  assert (∀ b, used (k_sb s1) (blk s1) b = used (k_sb s) (blk s) b) as Hu by (intros b; rewrite E1; by apply used_ext).
  pose proof (wp_log _ _ _ _ _ _ _ _ _ _ _ _ Hp) as Hlog. rewrite Hlen in Hlog. change (Z.of_nat 16) with 16 in Hlog. rewrite Hrr in Hlog. simpl in Hlog.
  pose proof (wp_ip _ _ _ _ _ _ _ _ _ _ _ _ Hp) as Eip. destruct Hp as [W1 W2 W3 W4 W5 _ W7 W8 _ _ _ W12 W13 W14 W15 _].
  assert (∀ b, used (k_sb s1) (blk s') b = used (k_sb s) (blk s') b) as Hu' by (intros b; by rewrite E1).
  setoid_rewrite Hu in W14. setoid_rewrite Hu' in W14. setoid_rewrite Hu in W15. rewrite ?E1 in *. split; try done.
  - exists bl'. split; [done|lia].
  - eapply wframe_trans; [by apply wframe_fs|exact W2].
  - congruence.
  - congruence.
  - by rewrite W5, Hit.
  - rewrite Eip. by destruct dp.
  - intros n Hn Hne. rewrite W13 by done. unfold dinode_on_disk. by rewrite E1, Hv1.
  - intros b Hb Hub H0 Hi Ho. rewrite W15, Hv1; try done. intros Hown. apply Ho. unfold owns in *.
    by setoid_rewrite (file_addr_ext (blk s) (blk s1)) in Hown.
Qed.

Lemma dirlink_write bl s s1 dp name inum k :
  dir_pre bl s dp → Forall (λ c, 0 ≤ c < 256) name → (14 ≤ length name)%nat → 0 < inum < 65536 →
  (∀ k, 0 ≤ k < i_size dp / DIRENT_SIZE → entry_is (blk s) dp name k = false) →
  reads me pid bl s s1 → 0 ≤ k ≤ i_size dp / DIRENT_SIZE →
  (∀ k', 0 ≤ k' < k → de_inum (dir_entry (blk s) dp k') ≠ 0) →
  (k < i_size dp / DIRENT_SIZE → de_inum (dir_entry (blk s) dp k) = 0) →
  wpc (disk_env me) (λ d, d = k_disk s)
    ((n <- writei_local fuel i (dirent_bytes (mk_dirent (u16 inum) (strncpy_name name))) (k * DIRENT_SIZE);;
      if negb (n =? DIRENT_SIZE) then ret (-1) else ret 0) s1) (dirlink_post bl s dp name inum).
Proof.
  intros [P1 P2 P3 P4 P5 P6 P7 P8 P9 P10] Hnb Hnl Hin Hno Hrd Hk Hfirst Hfree.
  pose proof (strncpy_name_length name Hnb) as Hl14. pose proof (dirent_bytes_length (u16 inum) _ Hl14) as Hl16.
  pose proof Hrd as (Hop1 & Hf1 & Hd1 & Hl1 & Hv1). pose proof (fs_frame_sb _ _ Hf1) as E1.
  set (bs := dirent_bytes _) in *. pose proof (Z.div_mod (i_size dp) 16 ltac:(lia)) as Hdm.
  apply wpc_bind. rewrite <- Hd1. eapply wpc_mono; [apply (writei_local_ok bl s1 dp (k * DIRENT_SIZE) bs)|done|].
  { rewrite Hl16. change (Z.of_nat 16) with 16. unfold DIRENT_SIZE in *. split; rewrite ?E1; try done.
    - by rewrite (reads_itable _ _ _ _ _ Hrd).
    - by eapply layout_ext.
    - by eapply wf_ext.
    - lia.
    - lia.
    - fold DIRENT_SIZE. rewrite dirent_rounds. unfold room in *. rewrite Hl1. exact P10. }
  intros n s' (bl' & dp' & Hp). pose proof (wp_tot _ _ _ _ _ _ _ _ _ _ _ _ Hp) as Ht. rewrite Hl16 in Ht.
  destruct (Z.eqb_spec n DIRENT_SIZE) as [En|En]; cbn [negb]; unfold ret; cbn [wpc].
  { left. split; [done|]. split; [done|]. exists k, dp'. rewrite En in *.
    destruct (entry_written (blk s1) dp (blk s') dp' k (mk_dirent inum (strncpy_name name))) as [He Ho]; [lia|done|simpl; lia| |].
    { intros j Hj. rewrite (wp_get _ _ _ _ _ _ _ _ _ _ _ _ Hp j Hj). rewrite take_ge by (rewrite Hl16; done). done. }
    split; try done.
    - eapply writei_changes; [exact Hrd|done|apply dirent_rounds|exact Hp].
    - rewrite (wp_ip _ _ _ _ _ _ _ _ _ _ _ _ Hp). cbn [i_size set_i_size set_i_addrs]. unfold DIRENT_SIZE. f_equal. lia.
    - unfold entry_is. rewrite He. cbn [de_inum de_name]. rewrite namecmp_strncpy by done.
      by rewrite (proj2 (Z.eqb_neq inum 0)) by lia.
    - intros k' Hk' Hne. rewrite Ho by done. by apply dir_entry_ext. }
  right. right. split; [done|]. split; [exists dp'; eapply writei_changes; [exact Hrd|done|apply dirent_rounds|exact Hp]|].
  rewrite <- E1. apply (wp_full _ _ _ _ _ _ _ _ _ _ _ _ Hp). unfold DIRENT_SIZE in En. lia.
Qed.

Lemma dirlink_ok bl s dp name inum :
  dir_pre bl s dp → Forall (λ c, 0 ≤ c < 256) name → (14 ≤ length name)%nat → 0 < inum < 65536 →
  wpc (disk_env me) (λ d, d = k_disk s) (dirlink fuel i name inum s) (dirlink_post bl s dp name inum).
Proof.
  intros Hpre Hnb Hnl Hin. pose proof Hpre as [P1 P2 P3 P4 P5 P6 P7 P8 P9 [R1 R2]].
  pose proof (file_wf_ok _ _ P3 P4) as Hok. unfold dirlink.
  apply wpc_bind. eapply wpc_mono; [eapply (dirlookup_ok me pid fuel Hfuel bl s i dp name (λ d, d = k_disk s)); try done; lia|done|].
  intros [[j off]|] s1 Hlk.
  - destruct Hlk as (k & s0 & _ & Hk & He & _ & Hrd & Hget).
    destruct (iget_iput s0 _ _ j s1 (itable_free_reads _ _ _ Hrd P9) Hget) as [jp Hput].
    eapply wpc_step; [exact Hput|]. right. left. split; [done|]. split; [by exists k|].
    destruct Hrd as (O & _ & _ & _ & V). split; [by apply op_itable|]. intros m. rewrite <- V. done.
  - destruct Hlk as [Hrd Hno]. pose proof Hrd as (Hop1 & Hf1 & Hd1 & Hl1 & Hv1). pose proof (reads_itable _ _ _ _ _ Hrd) as Hit.
    eapply wpc_step; [apply geti_some; by rewrite Hit|]. apply wpc_bind.
    eapply wpc_mono; [eapply (dir_free_ok bl s1 dp (λ d, d = k_disk s)); try done|done|].
    { by rewrite Hit. } { by eapply file_ok_ext. } { lia. }
    intros o s2 [Hrd2 (k & Hk & Eo & Hfirst & Hfree)]. cbn beta zeta.
    replace (match o with Some off => off | None => Z.of_nat (length (dir_offs (i_size dp))) * DIRENT_SIZE end) with (k * DIRENT_SIZE).
    2: { destruct o; simpl in Eo; [done|]. rewrite dir_offs_length; [|apply P4|done].
         unfold DIRENT_SIZE in *. pose proof (Z.div_mod (i_size dp) 16). lia. }
    eapply dirlink_write; try done; [by eapply reads_trans|..].
    + intros k' Hk'. rewrite <- (dir_entry_ext _ (blk s1)) by done. by apply Hfirst.
    + intros Hlt. rewrite <- (dir_entry_ext _ (blk s1)) by done. by apply Hfree.
Qed.

End files.

(** ** What the theorems say *)

Section claims.
Context (me : nat) (pid : Z) `{D : Device} (fuel : nat) (i : nat).
Hypothesis Hfuel : enough_fuel fuel.

(** C10: [writei] writes a file: whatever the offset (up to the end of the file) and
    however many blocks the bytes span, direct and indirect, present or to be
    allocated, afterwards the file holds the bytes written at their offsets and its
    old bytes everywhere else, its size is the larger of the old size and the end of
    the write, the on-disk inode agrees, no block is shared or lost, and no block of
    another file and no other inode changed.  Fewer bytes than asked are written
    only when every block of the disk is in use. *)
Theorem writei_correct bl s ip off bs :
  write_pre me pid i bl s ip off (Z.of_nat (length bs)) →
  wpc (disk_env me) (λ d, d = k_disk s) (writei_local fuel i bs off s)
    (λ r s', ∃ bl' ip', writei_post me pid i bl s ip off bs r s' bl' ip').
Proof. by apply writei_local_ok. Qed.

(** C17: Reading what was written: [readi] at the offset of a [writei] returns the
    bytes that were written, all those the returned count says. *)
Theorem writei_readi_roundtrip bl s ip off bs :
  write_pre me pid i bl s ip off (Z.of_nat (length bs)) →
  wpc (disk_env me) (λ d, d = k_disk s)
    ((r <- writei_local fuel i bs off;; x <- readi_local fuel i off r;; ret (r, x)) s)
    (λ y _, y.2 = (y.1, take (Z.to_nat y.1) bs) ∧ 0 ≤ y.1 ≤ Z.of_nat (length bs)).
Proof. by apply write_read_ok. Qed.

(** C18: A write of at most three blocks' worth of bytes, the most [filewrite] puts in
    one transaction, logs at most [MAXOPBLOCKS] blocks, the reservation [begin_op]
    made for it, at any offset. *)
Theorem writei_fits_reservation bl s ip off bs :
  write_pre me pid i bl s ip off (Z.of_nat (length bs)) → Z.of_nat (length bs) ≤ ((MAXOPBLOCKS - 1 - 1 - 2) / 2) * BSIZE →
  wpc (disk_env me) (λ d, d = k_disk s) (writei_local fuel i bs off s)
    (λ _ s', lg_n (k_log s') ≤ lg_n (k_log s) + MAXOPBLOCKS).
Proof.
  intros Hpre Hn. eapply wpc_mono; [by apply writei_local_ok|done|]. intros r s' (bl' & ip' & Hp).
  pose proof (wp_log _ _ _ _ _ _ _ _ _ _ _ _ Hp) as Hlog. pose proof (write_rounds off (Z.of_nat (length bs)) ltac:(split; [lia|exact Hn])).
  destruct (wp_op _ _ _ _ _ _ _ _ _ _ _ _ Hp) as (P' & [_ _ -> _ _ _ _ _] & _).
  destruct Hpre as [(P & [_ _ -> _ _ _ _ _] & _) _ _ _ _ _ _ _]. unfold MAXOPBLOCKS. lia.
Qed.

(** C11: [dirlink] adds a name to a directory: the entry goes to the first free slot or
    to the end, [dirlookup]'s test then matches it, every other entry is as before,
    and the directory inode is written; a name that is already there is refused and
    no block changes; the only other failure is a full disk. *)
Theorem dirlink_correct bl s dp name inum :
  dir_pre me pid i bl s dp → Forall (λ c, 0 ≤ c < 256) name → (14 ≤ length name)%nat → 0 < inum < 65536 →
  wpc (disk_env me) (λ d, d = k_disk s) (dirlink fuel i name inum s) (dirlink_post me pid i bl s dp name inum).
Proof. by apply dirlink_ok. Qed.

End claims.

(** ** The small file system again *)

Lemma root_addr B bn n : file_addr B (root_inode 1) bn = Some n → 0 ≤ bn → bn = 0 ∧ n = 50.
Proof.
  intros H H0. destruct (file_addr_cases bn) as [Hlt|[Hr|Hr]].
  - rewrite file_addr_direct in H by done. change (i_addrs (root_inode 1)) with (50 :: replicate 12 0) in H.
    destruct (Z.to_nat bn) as [|k] eqn:E; simpl in H.
    + injection H as <-. lia.
    + apply bind_Some in H as (x & Hx & H). change ([0; 0; 0; 0; 0; 0; 0; 0; 0; 0; 0; 0]) with (replicate 12 0) in Hx.
      apply lookup_replicate_1 in Hx as [-> _]. done.
  - rewrite file_addr_ind in H by done. done.
  - by rewrite file_addr_out in H.
Qed.

Lemma demo_iblock inum : 1 ≤ inum < 200 → IBLOCK inum demo_sb = inum / IPB + 33 ∧ 33 ≤ IBLOCK inum demo_sb < 46.
Proof.
  intros H. unfold IBLOCK, IPB, BSIZE, DINODE_SIZE. change (1024 / 64) with 16. change (sb_inodestart demo_sb) with 33.
  assert (0 ≤ inum / 16 < 13) by (split; [apply Z.div_pos|apply Z.div_lt_upper_bound]; lia).
  rewrite u32_small by lia. lia.
Qed.

Lemma fs_machine_layout : fs_layout (fs_machine 1).
Proof.
  pose proof (fs_machine_pre 1 1 ltac:(lia)) as [_ _ Hmap Hdisk _ _]. split; try done.
  - intros inum H. pose proof (demo_iblock inum H) as [E R]. change (k_sb (fs_machine 1)) with demo_sb in *.
    change (sb_size demo_sb) with 64. split_and!; [lia|lia| |].
    + rewrite fs_machine_used by lia. assert (∀ k : nat, (k < 13)%nat → negb (bit_clear (fs_block 46) (33 + Z.of_nat k)) = true) as Hb.
      { intros k Hk. do 13 (destruct k; [reflexivity|]). lia. }
      rewrite <- (Hb (Z.to_nat (IBLOCK inum demo_sb - 33))) by lia. do 2 f_equal. lia.
    + intros b Hb. rewrite fs_machine_bblock by done. lia.
  - intros inum H. by apply demo_iblock.
Qed.

Lemma root_wf : file_wf (fs_machine 1) (root_inode 1).
Proof.
  assert (∀ n, owns (blk (fs_machine 1)) (root_inode 1) n → n = 50) as Ho.
  { intros n [(bn & H0 & Ha)|Hi]; [by apply root_addr in Ha as [_ ->]|done]. }
  split.
  - done.
  - vm_compute. split; discriminate.
  - apply root_dinode_typed.
  - intros n ->%Ho. split.
    + split; [simpl; lia| |].
      * intros b Hb. change (BBLOCK b demo_sb ≠ 50). rewrite fs_machine_bblock by done. lia.
      * intros inum Hin. change (IBLOCK inum demo_sb ≠ 50). pose proof (demo_iblock inum Hin). lia.
    + change (used demo_sb (blk (fs_machine 1)) 50 = true). rewrite fs_machine_used by lia. reflexivity.
  - intros bn bn' n H0 H0' [-> _]%root_addr [-> _]%root_addr; done.
  - intros bn n _ _. done.
  - intros bn H0 Hlt. change (bn * BSIZE < 32) in Hlt. unfold BSIZE in Hlt. assert (bn = 0) as -> by lia. by exists 50.
Qed.

Lemma root_write_pre off n :
  0 ≤ off ≤ 32 → 0 ≤ n → off + n ≤ MAXFILE * BSIZE → read_rounds off n ≤ 4 → write_pre 0 3 0 [] (fs_machine 1) (root_inode 1) off n.
Proof.
  intros Ho H0 Hn Hr. split; try done; [apply fs_machine_op|apply fs_machine_layout|apply root_wf|].
  pose proof (read_rounds_nonneg off n). split; [unfold NBUF; simpl; lia|simpl; lia].
Qed.

Lemma writei_correct_witness :
  wpc (@disk_env qemu_disk 0) (λ d, d = fs_disk) (writei_local 2 0 (cstr "hello") 30 (fs_machine 1))
    (λ r s', ∃ ip, k_itable s' !! 0%nat = Some ip ∧ i_size ip = Z.max 32 (30 + r)).
Proof.
  eapply wpc_mono; [apply (@writei_correct 0 3 qemu_disk 2 0 (le_n 2) [] (fs_machine 1) (root_inode 1) 30 (cstr "hello"))|done|].
  - apply root_write_pre; [lia|lia|vm_compute; discriminate|vm_compute; discriminate].
  - intros r s' (bl' & ip' & Hp). exists ip'. split.
    + rewrite (wp_table _ _ _ _ _ _ _ _ _ _ _ _ Hp). reflexivity.
    + rewrite (wp_ip _ _ _ _ _ _ _ _ _ _ _ _ Hp). reflexivity.
Defined.

Lemma writei_readi_roundtrip_witness :
  wpc (@disk_env qemu_disk 0) (λ d, d = fs_disk)
    ((r <- writei_local 2 0 (cstr "hello") 32;; x <- readi_local 2 0 32 r;; ret (r, x)) (fs_machine 1))
    (λ y _, y.2 = (y.1, take (Z.to_nat y.1) (cstr "hello"))).
Proof.
  eapply wpc_mono; [apply (@writei_readi_roundtrip 0 3 qemu_disk 2 0 (le_n 2) [] (fs_machine 1) (root_inode 1) 32 (cstr "hello"))|done|].
  - apply root_write_pre; [lia|lia|vm_compute; discriminate|vm_compute; discriminate].
  - by intros y s' [H _].
Defined.

Lemma writei_fits_reservation_witness :
  wpc (@disk_env qemu_disk 0) (λ d, d = fs_disk) (writei_local 2 0 (replicate 3072 7) 32 (fs_machine 1))
    (λ _ s', lg_n (k_log s') ≤ 10).
Proof.
  apply (@writei_fits_reservation 0 3 qemu_disk 2 0 (le_n 2) [] (fs_machine 1) (root_inode 1) 32 (replicate 3072 7)).
  - apply root_write_pre; [lia|lia|vm_compute; discriminate|vm_compute; discriminate].
  - vm_compute. discriminate.
Defined.

Lemma dirlink_correct_witness :
  wpc (@disk_env qemu_disk 0) (λ d, d = fs_disk) (dirlink 2 0 (strncpy_name (cstr "init")) 7 (fs_machine 1))
    (dirlink_post 0 3 0 [] (fs_machine 1) (root_inode 1) (strncpy_name (cstr "init")) 7).
Proof.
  apply (@dirlink_correct 0 3 qemu_disk 2 0 (le_n 2) [] (fs_machine 1) (root_inode 1)).
  - split; try done; [apply fs_machine_op|apply fs_machine_layout|apply root_wf|apply fs_machine_itable|].
    split; [unfold NBUF; simpl; lia|simpl; lia].
  - repeat (constructor; [vm_compute; split; [discriminate|reflexivity]|]). constructor.
  - vm_compute. lia.
  - lia.
Defined.
