(* ===== verification/FsFree.v ===== *)
(** * Freeing files and allocating inodes

    [itrunc], the last reference in [iput], and [ialloc] of [Fs] inside a
    transaction. *)

From Stdlib Require Import ZArith Lia.
From S2P Require Import Prelude Machine Kernel Boot CString Printf Kalloc Vm ProcTable Seq Sleeplock Virtio Bio Log Crash Trans File Fs FsData FsAlloc FsSpec FsWrite FsDir.

Section free.
Context (me : nat) (pid : Z) `{D : Device} (fuel : nat) (i : nat).
Hypothesis Hfuel : enough_fuel fuel.

(** From [s] to [s'] exactly the blocks [F] were given back. *)
Record freed (L : list nat) (bl : list Z) (s : kstate) (F : list Z) (bl' : list Z) (s' : kstate) : Prop := {
  fr_op : op me pid L bl' s';
  fr_frame : wframe s s';
  fr_disk : k_disk s' = k_disk s;
  fr_size : lg_size (k_log s') = lg_size (k_log s);
  fr_blk m : m ≠ BBLOCK 0 (k_sb s) → blk s' m = blk s m;
  fr_used b : 0 ≤ b < sb_size (k_sb s) → used (k_sb s) (blk s') b = (used (k_sb s) (blk s) b && bool_decide (b ∉ F))%bool;
  fr_log n : n ∈ bl' → n ∈ bl ∨ n = BBLOCK 0 (k_sb s);
  fr_layout : fs_layout s'
}.

Lemma freed_length L bl s F bl' s' : freed L bl s F bl' s' → (length bl' ≤ S (length bl))%nat.
Proof.
  intros H. destruct (fr_op _ _ _ _ _ _ H) as (P & Hin & _).
  assert (bl' ⊆+ bl ++ [BBLOCK 0 (k_sb s)]) as Hs.
  { apply NoDup_submseteq; [apply (io_nd _ _ _ _ _ _ Hin)|]. intros n Hn. pose proof (fr_log _ _ _ _ _ _ H n Hn). set_solver. }
  apply submseteq_length in Hs. rewrite length_app in Hs. simpl in Hs. lia.
Qed.

Lemma freed_nil L bl s : op me pid L bl s → fs_layout s → freed L bl s [] bl s.
Proof.
  intros Hop Hl. split; try done.
  - apply wframe_fs, fs_frame_refl.
  - intros b Hb. rewrite bool_decide_true by set_solver. by rewrite andb_true_r.
  - by left.
Qed.

(** Changing the inode table does not matter. *)
Lemma layout_table t s : fs_layout s → fs_layout (set_k_itable t s).
Proof. intros []. by split. Qed.

Lemma freed_table L bl s F bl' s' t : freed L bl s F bl' s' → freed L bl s F bl' (set_k_itable t s').
Proof.
  intros [H1 H2 H3 H4 H6 H7 H8 H9]. split; try done; [by apply op_itable| |by apply layout_table].
  eapply wframe_trans; [exact H2|]. unfold wframe, fs_frame. by destruct s'.
Qed.

(** Freeing one block that is not needed by the layout. *)
Lemma bfree_layout s s' b data :
  fs_layout s → data_block (k_sb s) b → k_sb s' = k_sb s → k_disk s' = k_disk s →
  (∀ m, m ≠ BBLOCK b (k_sb s) → blk s' m = blk s m) → blk s' (BBLOCK b (k_sb s)) = Some data → length data = 1024%nat →
  (∀ b', 0 ≤ b' < sb_size (k_sb s) → used (k_sb s) (blk s') b' = (used (k_sb s) (blk s) b' && negb (b =? b'))%bool) →
  fs_layout s'.
Proof.
  intros [H1 H2 H3 H4 H5] Hdb E Hd Hv Hdt Hlen Hu. pose proof (db_range _ _ Hdb) as R.
  split; rewrite ?E, ?Hd; try done.
  - apply (bitmap_ok_upd (k_sb s) (blk s)); [done| |].
    + intros m Hm. destruct (decide (m = BBLOCK b (k_sb s))) as [->|Hne]; [by exists data|]. rewrite Hv by done. by apply (bm_block _ _ H1).
    + intros b' Hb' Hor Hub. rewrite Hu, Hub by done. simpl. destruct (Z.eqb_spec b b') as [<-|]; [|done]. exfalso.
      destruct Hor as [->|(b'' & Hb'' & Eb)]; [lia|]. by apply (db_map _ _ Hdb b'').
  - intros inum Hin. destruct (H4 inum Hin) as (Ri & Ui & Ni). split_and!; [lia|lia| |done].
    rewrite Hu, Ui by done. simpl. destruct (Z.eqb_spec b (IBLOCK inum (k_sb s))) as [->|]; [|done].
    exfalso. by apply (db_inode _ _ Hdb inum).
Qed.

Lemma freed_step L bl s F bl' s' r :
  freed L bl s F bl' s' → aside L s' → (length L ≤ 1)%nat → room bl s 4 → data_block (k_sb s) r → used (k_sb s) (blk s) r = true → r ∉ F →
  wpc (disk_env me) (λ d, d = k_disk s) (bfree fuel ROOTDEV r s') (λ _ s'',
    ∃ bl'', freed L bl s (F ++ [r]) bl'' s'' ∧ k_itable s'' = k_itable s' ∧ keeps L s' s'').
Proof.
  intros Hfr Ha HL [Hr1 Hr2] Hdb Hu HrF. pose proof (freed_length _ _ _ _ _ _ Hfr) as Hlen.
  pose proof Hfr as [H1 H2 H3 H4 H6 H7 H8 H9]. pose proof (wframe_sb _ _ H2) as E. pose proof (db_range _ _ Hdb) as R.
  eapply (bfree_ok me pid fuel L Hfuel bl' s' r); rewrite ?E; try done.
  - destruct H9 as [A1 A2 A3 A4 A5]. split; try done; rewrite ?H4; lia.
  - lia.
  - rewrite H7, Hu by lia. by rewrite bool_decide_true.
  - intros s'' Hop Hf Hd Hlg Hk Hv Hus (data & Hdt & Hdl). eexists. split; [|split; [by apply itable_same|done]].
    assert (BBLOCK r (k_sb s') = BBLOCK 0 (k_sb s')) as Eb by (apply bblock_one; [done|rewrite E; lia]). rewrite E in Eb.
    split.
    + exact Hop.
    + eapply wframe_trans; [exact H2|]. by apply wframe_fs.
    + congruence.
    + congruence.
    + intros m Hm. rewrite Hv by congruence. by apply H6.
    + intros b Hb. rewrite Hus, H7 by done. destruct (used _ _ b); [|done]. simpl. apply eq_true_iff_eq.
      rewrite andb_true_iff, negb_true_iff, !bool_decide_eq_true, Z.eqb_neq, not_elem_of_app, list_elem_of_singleton. naive_solver.
    + intros n Hn. unfold logs in Hn. case_decide; [by apply H8|]. apply elem_of_app in Hn as [Hn|Hn]; [by apply H8|].
      apply list_elem_of_singleton in Hn. right. congruence.
    + eapply (bfree_layout s' s'' r data); rewrite ?E; try done. by rewrite (fs_frame_sb _ _ Hf).
Qed.

(** Reading changes nothing that matters. *)
Lemma freed_reads L L' bl s F bl' s' s'' :
  freed L bl s F bl' s' → op me pid L' bl' s'' → fs_frame s' s'' → k_disk s'' = k_disk s' → k_log s'' = k_log s' →
  (∀ m, blk s'' m = blk s' m) → freed L' bl s F bl' s''.
Proof.
  intros [H1 H2 H3 H4 H6 H7 H8 H9] Hop Hf Hd Hlg Hv. split; try done.
  - eapply wframe_trans; [exact H2|by apply wframe_fs].
  - congruence.
  - congruence.
  - intros m Hm. rewrite Hv. by apply H6.
  - intros b Hb. rewrite (used_ext _ (blk s')) by done. by apply H7.
  - eapply layout_ext; [|done..]. by apply fs_frame_sb.
Qed.

(** ** The blocks of a file as lists *)

Definition nonzero (l : list Z) : list Z := filter (λ a, a ≠ 0) l.

Lemma nonzero_snoc l a : nonzero (l ++ [a]) = nonzero l ++ (if a =? 0 then [] else [a]).
Proof.
  unfold nonzero. rewrite filter_app. f_equal. destruct (Z.eqb_spec a 0) as [->|Hne].
  - by rewrite filter_cons_False by naive_solver.
  - by rewrite filter_cons_True.
Qed.

(** The entries of an indirect block. *)
Definition entries (data : list Z) : list Z := (λ j, get32 data (4 * j)) <$> seq 0 (Z.to_nat NINDIRECT).

Lemma entries_lookup data j : (j < 256)%nat → entries data !! j = Some (get32 data (4 * j)).
Proof. intros H. unfold entries. rewrite list_lookup_fmap, lookup_seq_lt by (vm_compute; lia). done. Qed.

Section blocks.
Context (s : kstate) (ip : inode).
Hypothesis Hl : fs_layout s.
Hypothesis Hw : file_wf s ip.

Lemma addrs_length : length (i_addrs ip) = 13%nat.
Proof. apply (dt_len _ (fw_typed _ _ Hw)). Qed.

Lemma direct_in k n : (k ≤ 12)%nat → n ∈ nonzero (take k (i_addrs ip)) →
  ∃ k', (k' < k)%nat ∧ file_addr (blk s) ip (Z.of_nat k') = Some n.
Proof.
  intros Hk [Hnz (k' & Hn & Hlt)%elem_of_take]%list_elem_of_filter. exists k'. split; [done|].
  rewrite file_addr_direct by (unfold NDIRECT; lia). rewrite Nat2Z.id, Hn. simpl. by rewrite (proj2 (Z.eqb_neq n 0)).
Qed.

Lemma entry_addr ind data j :
  file_ind ip = Some ind → blk s ind = Some data → (j < 256)%nat →
  file_addr (blk s) ip (NDIRECT + Z.of_nat j) = if get32 data (4 * j) =? 0 then None else Some (get32 data (4 * j)).
Proof.
  intros Hi Hd Hj. rewrite file_addr_ind, Hi by (unfold MAXFILE, NINDIRECT, BSIZE; change (1024 / 4) with 256; lia).
  cbn -[Nat.mul Z.mul]. rewrite Hd. unfold ind_addr. cbn -[Nat.mul Z.mul]. replace (Z.to_nat (4 * (NDIRECT + Z.of_nat j - NDIRECT))) with (4 * j)%nat by lia. done.
Qed.

Lemma entry_in ind data k n :
  file_ind ip = Some ind → blk s ind = Some data → (k ≤ 256)%nat → n ∈ nonzero (take k (entries data)) →
  ∃ j, (j < k)%nat ∧ file_addr (blk s) ip (NDIRECT + Z.of_nat j) = Some n.
Proof.
  intros Hi Hd Hk [Hnz (j & Hn & Hlt)%elem_of_take]%list_elem_of_filter. exists j. split; [done|].
  rewrite (entry_addr ind data) by (done || lia). rewrite entries_lookup in Hn by lia. apply Some_inj in Hn as ->. by rewrite (proj2 (Z.eqb_neq n 0)).
Qed.

(** All the blocks of the file. *)
Definition file_blocks : list Z :=
  nonzero (take 12 (i_addrs ip)) ++
  match file_ind ip with
  | None => []
  | Some ind => nonzero (entries (default [] (blk s ind))) ++ [ind]
  end.

Lemma file_blocks_owns n : n ∈ file_blocks ↔ owns (blk s) ip n.
Proof.
  pose proof addrs_length as Hlen. unfold file_blocks. rewrite elem_of_app. split.
  - intros [(k & _ & Hk)%direct_in|H]; [left; exists (Z.of_nat k); split; [lia|done]|lia|].
    destruct (file_ind ip) as [ind|] eqn:Hi; [|by apply not_elem_of_nil in H].
    apply elem_of_app in H as [H| ->%list_elem_of_singleton]; [|by right].
    destruct (fw_own _ _ Hw ind (or_intror Hi)) as [Hdb _]. pose proof (db_range _ _ Hdb).
    destruct (bm_block _ _ (fl_map _ Hl) ind) as (data & Hd & _); [lia|]. rewrite Hd in H. simpl in H.
    rewrite <- (take_ge (entries data) 256) in H by (unfold entries; rewrite length_fmap, length_seq; vm_compute; lia).
    eapply entry_in in H as (j & Hj & Ha); [|done..|lia]. left. exists (NDIRECT + Z.of_nat j). split; [unfold NDIRECT; lia|done].
  - intros [(bn & H0 & Ha)|Hi].
    + destruct (file_addr_cases bn) as [Hlt|[Hr|Hr]].
      * left. rewrite file_addr_direct in Ha by done. apply bind_Some in Ha as (a & Hk & Ha). unfold NDIRECT in Hlt.
        destruct (Z.eqb_spec a 0); [done|]. injection Ha as <-. apply list_elem_of_filter. split; [done|].
        apply elem_of_take. exists (Z.to_nat bn). split; [done|lia].
      * right. pose proof Ha as Ha'. rewrite file_addr_ind in Ha by done. apply bind_Some in Ha as (ind & Hi & Ha). rewrite Hi.
        apply elem_of_app. left. unfold ind_addr in Ha. apply bind_Some in Ha as (data & Hd & Ha). rewrite Hd. simpl.
        destruct (Z.eqb_spec (get32 data (Z.to_nat (4 * (bn - NDIRECT)))) 0); [done|]. injection Ha as <-.
        apply list_elem_of_filter. split; [done|]. unfold MAXFILE, NINDIRECT, BSIZE in Hr. change (1024 / 4) with 256 in Hr.
        apply (list_elem_of_lookup_2 _ (Z.to_nat (bn - NDIRECT))). rewrite entries_lookup by lia. do 2 f_equal. lia.
      * by rewrite file_addr_out in Ha.
    + right. rewrite Hi. apply elem_of_app. right. by apply list_elem_of_singleton.
Qed.

End blocks.

(** ** [itrunc] *)

(** The inode with its first [k] addresses cleared. *)
Definition cleared (k : nat) (ip : inode) : inode := set_i_addrs (replicate k 0 ++ drop k (i_addrs ip)) ip.

Lemma cleared_step k ip a :
  i_addrs ip !! k = Some a →
  i_addrs (cleared k ip) !! k = Some a ∧ set_i_addrs (<[k := 0]> (i_addrs (cleared k ip))) (cleared k ip) = cleared (S k) ip ∧
  (a = 0 → cleared k ip = cleared (S k) ip).
Proof.
  intros Ha. unfold cleared. cbn [i_addrs set_i_addrs]. rewrite (drop_S _ _ _ Ha).
  assert (replicate (S k) 0 = replicate k 0 ++ [0]) as Er by apply replicate_S_end. split_and!.
  - rewrite lookup_app_r, length_replicate, Nat.sub_diag by (by rewrite length_replicate). done.
  - rewrite insert_app_r_alt, length_replicate, Nat.sub_diag by (by rewrite length_replicate). rewrite Er, <- app_assoc. by destruct ip.
  - intros ->. by rewrite Er, <- app_assoc.
Qed.

Lemma seq_split_at n pre x post : seq 0 n = pre ++ x :: post → x = length pre ∧ (length pre < n)%nat.
Proof.
  intros E. assert (seq 0 n !! length pre = Some x) as H by (rewrite E; by apply list_lookup_middle).
  apply lookup_seq in H as [-> H]. lia.
Qed.

Lemma itrunc_direct bl s ip :
  op me pid [] bl s → k_itable s !! i = Some ip → fs_layout s → file_wf s ip → room bl s 4 →
  wpc (disk_env me) (λ d, d = k_disk s)
    (for_each (seq 0 (Z.to_nat NDIRECT)) (λ k,
       ip <- geti i;;
       a <- unwrap (i_addrs ip !! k);;
       when (truthy a) (bfree fuel (i_dev ip) a;; modi i (λ ip, set_i_addrs (<[k := 0]> (i_addrs ip)) ip))) s)
    (λ _ s', ∃ bl', freed [] bl s (nonzero (take 12 (i_addrs ip))) bl' s' ∧ k_itable s' = <[i := cleared 12 ip]> (k_itable s)).
Proof.
  intros Hop Hi Hl Hw Hroom. pose proof (addrs_length s ip Hw) as Hlen. pose proof (lookup_lt_Some _ _ _ Hi) as Hlt.
  eapply wpc_mono; [eapply (wpc_for_each _ (λ d, d = k_disk s) _ (λ pre _ s', ∃ bl',
    freed [] bl s (nonzero (take (length pre) (i_addrs ip))) bl' s' ∧ k_itable s' = <[i := cleared (length pre) ip]> (k_itable s)))|done|].
  - exists bl. split; [by apply freed_nil|]. simpl. unfold cleared. rewrite drop_0. simpl.
    replace (set_i_addrs (i_addrs ip) ip) with ip by (by destruct ip). by rewrite list_insert_id.
  - intros pre k post s1 [-> Hk]%seq_split_at (bl1 & Hfr & Hit). change (Z.to_nat NDIRECT) with 12%nat in Hk.
    set (k := length pre) in *. rewrite length_app. simpl length. replace (length pre + 1)%nat with (S k) by (unfold k; lia).
    destruct (lookup_lt_is_Some_2 (i_addrs ip) k) as [a Ha]; [lia|]. destruct (cleared_step k ip a Ha) as (C1 & C2 & C3).
    eapply wpc_step; [apply geti_some; rewrite Hit; by apply list_lookup_insert_eq|]. rewrite C1.
    eapply wpc_step; [reflexivity|]. rewrite (take_S_r _ _ _ Ha), nonzero_snoc. unfold truthy.
    destruct (Z.eqb_spec a 0) as [->|Hnz]; cbn [negb when].
    + unfold ret. cbn [wpc]. exists bl1. rewrite app_nil_r. rewrite <- C3 by done. done.
    + replace (i_dev (cleared k ip)) with ROOTDEV by (symmetry; apply Hw).
      assert (file_addr (blk s) ip (Z.of_nat k) = Some a) as Haddr.
      { rewrite file_addr_direct by (unfold NDIRECT; lia). rewrite Nat2Z.id, Ha. simpl. by rewrite (proj2 (Z.eqb_neq a 0)). }
      destruct (fw_own _ _ Hw a) as [Hdb Hu]; [left; exists (Z.of_nat k); split; [lia|done]|].
      apply wpc_bind. eapply wpc_mono; [eapply (freed_step [] bl s _ bl1 s1 a); [done|apply aside_nil|simpl; lia|done|done|done|]|done|].
      * intros (k' & Hk' & Ha')%(direct_in s ip); [|lia]. pose proof (fw_inj _ _ Hw (Z.of_nat k) (Z.of_nat k') a). naive_solver lia.
      * intros _ s2 (bl2 & Hfr2 & Hit2 & _). rewrite modi_run with (ip := cleared k ip) by (rewrite Hit2, Hit; by apply list_lookup_insert_eq).
        cbn [wpc]. exists bl2. split; [by apply freed_table|]. cbn [k_itable set_k_itable]. by rewrite Hit2, Hit, C2, list_insert_insert_eq.
  - intros _ s' (bl' & H). rewrite length_seq in H. change (Z.to_nat NDIRECT) with 12%nat in H. by exists bl'.
Qed.

(** The entries of the indirect block, which is held. *)
Lemma itrunc_entries bl s ip ind data j F bl1 s1 :
  fs_layout s → file_wf s ip → room bl s 4 → file_ind ip = Some ind → blk s ind = Some data →
  freed [j] bl s F bl1 s1 → F = nonzero (take 12 (i_addrs ip)) → buf_at s1 j ind data →
  wpc (disk_env me) (λ d, d = k_disk s)
    (for_each (seq 0 (Z.to_nat NINDIRECT)) (λ k,
       x <- getb j;;
       let aj := get32 (b_data x) (4 * k) in
       when (truthy aj) (bfree fuel ROOTDEV aj)) s1)
    (λ _ s', ∃ bl', freed [j] bl s (F ++ nonzero (entries data)) bl' s' ∧ k_itable s' = k_itable s1 ∧ buf_at s' j ind data).
Proof.
  intros Hl Hw Hroom Hind Hdt Hfr0 EF Hb0. destruct (fw_own _ _ Hw ind (or_intror Hind)) as [Hdbi Hui].
  pose proof (db_range _ _ Hdbi) as Ri.
  assert (ind ∉ F) as HiF.
  { rewrite EF. intros (k' & Hk' & Ha')%(direct_in s ip); [|lia]. by apply (fw_ind _ _ Hw (Z.of_nat k') ind ltac:(lia)). }
  eapply wpc_mono; [eapply (wpc_for_each _ (λ d, d = k_disk s) _ (λ pre _ s', ∃ bl',
    freed [j] bl s (F ++ nonzero (take (length pre) (entries data))) bl' s' ∧ k_itable s' = k_itable s1 ∧ buf_at s' j ind data))|done|].
  - exists bl1. simpl. rewrite app_nil_r. done.
  - intros pre k post s2 [-> Hk]%seq_split_at (bl2 & Hfr & Hit & Hb). change (Z.to_nat NINDIRECT) with 256%nat in Hk.
    set (k := length pre) in *. rewrite length_app. simpl length. replace (length pre + 1)%nat with (S k) by (unfold k; lia).
    destruct (buf_data _ _ _ _ Hb) as (x & Hx & Ex). eapply wpc_step; [exact Hx|]. rewrite Ex. cbn zeta.
    pose proof (entries_lookup data k Hk) as Hek. rewrite (take_S_r _ _ _ Hek), nonzero_snoc, app_assoc.
    pose proof (entry_addr s ip ind data k Hind Hdt Hk) as Haddr. unfold truthy.
    set (a := get32 data (4 * k)) in *. destruct (Z.eqb_spec a 0) as [E0|Hnz]; cbn [negb when].
    + unfold ret. cbn [wpc]. exists bl2. rewrite app_nil_r. done.
    + assert (0 ≤ NDIRECT + Z.of_nat k) as H0 by (unfold NDIRECT; lia).
      destruct (fw_own _ _ Hw a) as [Hdb Hu]; [left; eauto|].
      eapply wpc_mono; [eapply (freed_step [j] bl s _ bl2 s2 a); [done| |simpl; lia|done|done|done|]|done|].
      * intros j' ->%list_elem_of_singleton. exists ind, data. rewrite (wframe_sb _ _ (fr_frame _ _ _ _ _ _ Hfr)).
        split_and!; [done|lia|lia| |apply Hdbi]. rewrite (fr_used _ _ _ _ _ _ Hfr), Hui by lia. rewrite bool_decide_true; [done|].
        rewrite not_elem_of_app. split; [done|]. intros (j' & Hj' & Ha')%(entry_in s ip ind data k ind Hind Hdt); [|lia].
        apply (fw_ind _ _ Hw (NDIRECT + Z.of_nat j') ind); [unfold NDIRECT; lia|done|done].
      * rewrite not_elem_of_app. split.
        -- rewrite EF. intros (k' & Hk' & Ha')%(direct_in s ip); [|lia].
           pose proof (fw_inj _ _ Hw (NDIRECT + Z.of_nat k) (Z.of_nat k') a). unfold NDIRECT in *. naive_solver lia.
        -- intros (j' & Hj' & Ha')%(entry_in s ip ind data k a Hind Hdt); [|lia].
           pose proof (fw_inj _ _ Hw (NDIRECT + Z.of_nat k) (NDIRECT + Z.of_nat j') a). unfold NDIRECT in *. naive_solver lia.
      * intros _ s3 (bl3 & Hfr3 & Hit3 & Hk3). exists bl3. split_and!; [done|congruence|]. apply Hk3; [by left|done].
  - intros _ s' (bl' & H). rewrite length_seq, (take_ge (entries data)) in H by (unfold entries; rewrite length_fmap, length_seq; lia).
    by exists bl'.
Qed.

Lemma itrunc_indirect bl s ip a bl1 s1 :
  i_addrs ip !! 12%nat = Some a → k_itable s !! i = Some ip → fs_layout s → file_wf s ip → room bl s 4 →
  freed [] bl s (nonzero (take 12 (i_addrs ip))) bl1 s1 → k_itable s1 = <[i := cleared 12 ip]> (k_itable s) →
  wpc (disk_env me) (λ d, d = k_disk s)
    (when (truthy a)
        (bp <- bread fuel ROOTDEV a;;
         for_each (seq 0 (Z.to_nat NINDIRECT)) (λ j,
           x <- getb bp;;
           let aj := get32 (b_data x) (4 * j) in
           when (truthy aj) (bfree fuel ROOTDEV aj));;
         brelse bp;;
         bfree fuel ROOTDEV a;;
         modi i (λ ip, set_i_addrs (<[Z.to_nat NDIRECT := 0]> (i_addrs ip)) ip)) s1)
    (λ _ s', ∃ bl', freed [] bl s (file_blocks s ip) bl' s' ∧ k_itable s' = <[i := cleared 13 ip]> (k_itable s)).
Proof.
  intros Ha Hi Hl Hw Hroom Hfr Hit. pose proof (addrs_length s ip Hw) as Hlen. pose proof (lookup_lt_Some _ _ _ Hi) as Hlt.
  pose proof Hroom as [Hr1 Hr2]. change (Z.to_nat NDIRECT) with 12%nat.
  destruct (cleared_step 12 ip a Ha) as (C1 & C2 & C3).
  assert (file_ind ip = if a =? 0 then None else Some a) as Hind.
  { unfold file_ind. change (Z.to_nat NDIRECT) with 12%nat. by rewrite Ha. }
  unfold truthy, file_blocks. destruct (Z.eqb_spec a 0) as [->|Hnz]; cbn [negb when]; rewrite Hind.
  { unfold ret. cbn [wpc]. exists bl1. rewrite app_nil_r. rewrite <- C3 by done. done. }
  destruct (fw_own _ _ Hw a (or_intror Hind)) as [Hdb Hu]. pose proof (db_range _ _ Hdb) as R.
  pose proof (bm_size _ _ (fl_map _ Hl)) as Hsz. unfold BPB, BSIZE in Hsz.
  destruct (bm_block _ _ (fl_map _ Hl) a) as (data & Hdt & Hdl); [lia|]. rewrite Hdt. cbn [default from_option id].
  pose proof Hfr as [F1 F2 F3 F4 F6 F7 F8 F9]. pose proof (freed_length _ _ _ _ _ _ Hfr) as Hlen1.
  eapply (op_read me pid fuel Hfuel [] bl1 s1 a data); try done.
  { rewrite F6; [done|]. intros E. by apply (db_map _ _ Hdb 0); [lia|]. } { rewrite F3. apply (fl_disk _ Hl). lia. } { lia. }
  { intros j e Hj. by apply not_elem_of_nil in Hj. } { simpl. lia. }
  intros j s2 Hop2 Hf2 Hd2 Hl2 Hv2 Ha2 _ _. pose proof (itable_same _ _ Hf2) as Hit2.
  apply wpc_bind. eapply wpc_mono; [eapply (itrunc_entries bl s ip a data j _ bl1 s2); try done; by eapply freed_reads|done|].
  intros _ s3 (bl3 & Hfr3 & Hit3 & Hb3).
  destruct (op_release me pid [j] [] bl3 s3 j a data) as (s4 & Hrel & Hop4 & Hf4 & Hd4 & Hl4 & Hv4 & _);
    [apply Hfr3|done|by apply not_elem_of_nil|done|]. eapply wpc_step; [exact Hrel|].
  pose proof (freed_reads _ _ _ _ _ _ _ _ Hfr3 Hop4 Hf4 Hd4 Hl4 Hv4) as Hfr4. pose proof (itable_same _ _ Hf4) as Hit4.
  apply wpc_bind. eapply wpc_mono; [eapply (freed_step [] bl s _ bl3 s4 a); [done|apply aside_nil|simpl; lia|done|done|done|]|done|].
  - rewrite not_elem_of_app. split.
    + intros (k' & Hk' & Ha')%(direct_in s ip); [|lia]. by apply (fw_ind _ _ Hw (Z.of_nat k') a ltac:(lia)).
    + rewrite <- (take_ge (entries data) 256) by (unfold entries; rewrite length_fmap, length_seq; vm_compute; lia).
      intros (j' & Hj' & Ha')%(entry_in s ip a data 256 a Hind Hdt); [|lia].
      apply (fw_ind _ _ Hw (NDIRECT + Z.of_nat j') a); [unfold NDIRECT; lia|done|done].
  - intros _ s5 (bl5 & Hfr5 & Hit5 & _). assert (k_itable s5 = <[i := cleared 12 ip]> (k_itable s)) as Hit5' by congruence.
    rewrite modi_run with (ip := cleared 12 ip) by (rewrite Hit5'; by apply list_lookup_insert_eq). cbn [wpc].
    exists bl5. split; [apply freed_table; by rewrite app_assoc|]. cbn [k_itable set_k_itable]. by rewrite Hit5', C2, list_insert_insert_eq.
Qed.

(** What truncating a file does. *)
Record truncated (bl : list Z) (s : kstate) (ip : inode) (ip' : inode) (s' : kstate) : Prop := {
  tr_op : ∃ bl', op me pid [] bl' s' ∧ (length bl' ≤ length bl + 2)%nat;
  tr_frame : wframe s s';
  tr_disk : k_disk s' = k_disk s;
  tr_size : lg_size (k_log s') = lg_size (k_log s);
  tr_table : k_itable s' = <[i := ip']> (k_itable s);
  tr_layout : fs_layout s';
  tr_free b : 0 ≤ b < sb_size (k_sb s) → owns (blk s) ip b → used (k_sb s) (blk s') b = false;
  tr_used b : 0 ≤ b < sb_size (k_sb s) → ¬ owns (blk s) ip b → used (k_sb s) (blk s') b = used (k_sb s) (blk s) b;
  tr_inode : dinode_on_disk s' (i_inum ip) = dinode_of ip';
  tr_inodes inum : 1 ≤ inum < sb_ninodes (k_sb s) → inum ≠ i_inum ip → dinode_on_disk s' inum = dinode_on_disk s inum;
  tr_other m : m ≠ BBLOCK 0 (k_sb s) → m ≠ IBLOCK (i_inum ip) (k_sb s) → blk s' m = blk s m
}.

Definition emptied (ip : inode) : inode := set_i_size 0 (set_i_addrs (replicate 13 0) ip).

(** [iupdate] in terms of the layout. *)
Record inode_put (bl : list Z) (s : kstate) (inum : Z) (d : dinode) (s' : kstate) : Prop := {
  ip_op : op me pid [] (logs bl (IBLOCK inum (k_sb s))) s';
  ip_frame : fs_frame s s';
  ip_disk : k_disk s' = k_disk s;
  ip_size : lg_size (k_log s') = lg_size (k_log s);
  ip_layout : fs_layout s';
  ip_used b : 0 ≤ b < sb_size (k_sb s) → used (k_sb s) (blk s') b = used (k_sb s) (blk s) b;
  ip_inode : dinode_on_disk s' inum = d;
  ip_inodes inum' : 1 ≤ inum' < sb_ninodes (k_sb s) → inum' ≠ inum → dinode_on_disk s' inum' = dinode_on_disk s inum';
  ip_other m : m ≠ IBLOCK inum (k_sb s) → blk s' m = blk s m
}.

Lemma inode_put_intro bl s inum d data s' :
  fs_layout s → 1 ≤ inum < sb_ninodes (k_sb s) → inode_block s inum data → dinode_typed d →
  op me pid [] (logs bl (IBLOCK inum (k_sb s))) s' → fs_frame s s' → k_disk s' = k_disk s →
  lg_size (k_log s') = lg_size (k_log s) →
  (∀ m, blk s' m = if decide (m = IBLOCK inum (k_sb s)) then Some (put_dinode (dinode_off inum) d data) else blk s m) →
  inode_put bl s inum d s'.
Proof.
  intros Hl Hin [_ Hdt Hdl _] Hty Hop Hf Hd Hlg Hv. pose proof (fs_frame_sb _ _ Hf) as Esb. pose proof (dinode_off_fits inum) as Hfit.
  set (data' := put_dinode (dinode_off inum) d data) in *.
  assert (length data' = 1024%nat) as Hdl'.
  { unfold data', put_dinode. rewrite length_put_at; [done|]. rewrite length_dinode_bytes; [lia|apply Hty]. }
  split; try done.
  - by eapply iw_layout.
  - intros b Hb. by eapply iw_used.
  - unfold dinode_on_disk. rewrite Esb, Hv, decide_True by done. apply get_put_dinode; [done|lia].
  - intros n Hn Hne. unfold dinode_on_disk. rewrite Esb, Hv. case_decide as E; [|done]. rewrite E, Hdt. simpl.
    apply get_put_dinode_ne; [apply Hty|lia|]. pose proof (inodes_apart s n inum Hl Hn Hin Hne E) as Hmod.
    unfold dinode_off, DINODE_SIZE in *.
    pose proof (Z.mod_pos_bound n IPB ltac:(done)). pose proof (Z.mod_pos_bound inum IPB ltac:(done)). lia.
  - intros m Hm. by rewrite Hv, decide_False.
Qed.

Lemma iupdate_put bl s ip :
  op me pid [] bl s → k_itable s !! i = Some ip → i_dev ip = ROOTDEV → fs_layout s → 1 ≤ i_inum ip < sb_ninodes (k_sb s) →
  dinode_typed (dinode_of ip) → room bl s 2 →
  wpc (disk_env me) (λ d, d = k_disk s) (iupdate fuel i s) (λ _ s', inode_put bl s (i_inum ip) (dinode_of ip) s').
Proof.
  intros Hop Hi Hdev Hl Hin Hty [Hr1 Hr2]. destruct (layout_inode_block s (i_inum ip) Hl Hin) as (data & Hib).
  eapply (iupdate_ok me pid fuel Hfuel bl s i ip data); try done; [lia|lia|].
  intros s' Hop' Hf Hd Hlg Hv. by eapply inode_put_intro.
Qed.

Lemma emptied_typed ip : dinode_typed (dinode_of ip) → dinode_typed (dinode_of (emptied ip)).
Proof. intros [H1 H2 H3 H4 H5 H6 H7]. split; try done. simpl. repeat constructor; lia. Qed.

Lemma cleared_all ip : length (i_addrs ip) = 13%nat → set_i_size 0 (cleared 13 ip) = emptied ip.
Proof. intros H. unfold cleared, emptied. rewrite drop_ge, app_nil_r by lia. done. Qed.

Lemma itrunc_ok bl s ip :
  op me pid [] bl s → k_itable s !! i = Some ip → fs_layout s → file_wf s ip → 1 ≤ i_inum ip < sb_ninodes (k_sb s) →
  room bl s 4 →
  wpc (disk_env me) (λ d, d = k_disk s) (itrunc fuel i s) (λ _ s', truncated bl s ip (emptied ip) s').
Proof.
  intros Hop Hi Hl Hw Hin Hroom. pose proof (addrs_length s ip Hw) as Hlen. pose proof (lookup_lt_Some _ _ _ Hi) as Hlt.
  pose proof Hroom as [Hr1 Hr2]. unfold itrunc. apply wpc_bind. eapply wpc_mono; [by apply itrunc_direct|done|].
  intros _ s1 (bl1 & Hfr1 & Hit1). change (Z.to_nat NDIRECT) with 12%nat.
  destruct (lookup_lt_is_Some_2 (i_addrs ip) 12) as [a Ha]; [lia|]. destruct (cleared_step 12 ip a Ha) as (C1 & _).
  eapply wpc_step; [apply geti_some; rewrite Hit1; by apply list_lookup_insert_eq|]. rewrite C1.
  eapply wpc_step; [reflexivity|]. replace (i_dev (cleared 12 ip)) with ROOTDEV by (symmetry; apply Hw).
  apply wpc_bind. eapply wpc_mono; [by apply (itrunc_indirect bl s ip a bl1 s1)|done|].
  intros _ s2 (bl2 & Hfr2 & Hit2). pose proof (freed_length _ _ _ _ _ _ Hfr2) as Hlen2.
  eapply wpc_step; [apply modi_run; rewrite Hit2; by apply list_lookup_insert_eq|].
  rewrite cleared_all, Hit2, list_insert_insert_eq by done.
  apply (freed_table _ _ _ _ _ _ (<[i := emptied ip]> (k_itable s))) in Hfr2. set (s3 := set_k_itable _ s2) in *.
  pose proof Hfr2 as [F1 F2 F3 F4 F6 F7 F8 F9]. pose proof (wframe_sb _ _ F2) as E. rewrite <- F3.
  eapply wpc_mono; [apply (iupdate_put bl2 s3 (emptied ip))|done|].
  - done.
  - by apply list_lookup_insert_eq.
  - apply Hw.
  - done.
  - by rewrite E.
  - apply emptied_typed, Hw.
  - split; rewrite ?F4; lia.
  - intros _ s4 [P1 P2 P3 P4 P5 P6 P7 P8 P9]. change (i_inum (emptied ip)) with (i_inum ip) in *. rewrite E in *. split.
    + eexists. split; [exact P1|]. pose proof (logs_length bl2 (IBLOCK (i_inum ip) (k_sb s))). lia.
    + eapply wframe_trans; [exact F2|by apply wframe_fs].
    + congruence.
    + congruence.
    + by rewrite (itable_same _ _ P2).
    + done.
    + intros b Hb Ho. rewrite P6, F7 by done. rewrite bool_decide_false, andb_false_r; [done|].
      intros Hn. by apply Hn, file_blocks_owns.
    + intros b Hb Ho. rewrite P6, F7 by done. rewrite bool_decide_true, andb_true_r; [done|].
      intros Hn. by apply Ho, (file_blocks_owns s ip).
    + done.
    + intros inum Hn Hne. rewrite P8 by done. unfold dinode_on_disk. rewrite E. rewrite F6; [done|].
      destruct (fl_inode _ Hl inum Hn) as (R & _ & N). intros Eb. apply (N 0); [lia|done].
    + intros m H1 H2. rewrite P9 by done. by apply F6.
Qed.

(** ** The last reference *)

(** What [iput] does with the last reference to an inode without links. *)
Record discarded (bl : list Z) (s : kstate) (ip : inode) (s' : kstate) : Prop := {
  di_op : ∃ bl', op me pid [] bl' s' ∧ (length bl' ≤ length bl + 3)%nat;
  di_disk : k_disk s' = k_disk s;
  di_table : ∃ ip', k_itable s' = <[i := ip']> (k_itable s) ∧ i_ref ip' = 0 ∧ i_valid ip' = 0 ∧ sl_locked (i_lock ip') = 0;
  di_layout : fs_layout s';
  di_free b : 0 ≤ b < sb_size (k_sb s) → owns (blk s) ip b → used (k_sb s) (blk s') b = false;
  di_used b : 0 ≤ b < sb_size (k_sb s) → ¬ owns (blk s) ip b → used (k_sb s) (blk s') b = used (k_sb s) (blk s) b;
  di_inode : di_type (dinode_on_disk s' (i_inum ip)) = 0;
  di_inodes inum : 1 ≤ inum < sb_ninodes (k_sb s) → inum ≠ i_inum ip → dinode_on_disk s' inum = dinode_on_disk s inum;
  di_other m : m ≠ BBLOCK 0 (k_sb s) → m ≠ IBLOCK (i_inum ip) (k_sb s) → blk s' m = blk s m
}.

Lemma op_wake L bl ch s : op me pid L bl s → op me pid L bl (set_k_procs (imap (wake_one (Some me) ch) (k_procs s)) s).
Proof.
  intros (P & [Hth [ord Hbio] A1 A2 A3 A4 A5 A6] & Hcl & Ho). exists P. split; [|done].
  split; try done; [by apply thread_wakeup|]. exists ord. destruct Hbio. by split.
Qed.

Lemma wf_lock s ip x : file_wf s ip → file_wf s (set_i_lock x ip).
Proof. intros []. by split. Qed.

Lemma wf_table t s ip : file_wf s ip → file_wf (set_k_itable t s) ip.
Proof. intros []. by split. Qed.

(** The end of [iput], when the sleep-lock is held and the inode has no type left. *)
Lemma iput_end s ip :
  thread me pid s → k_itable s !! i = Some ip → i_ref ip = 1 →
  ∃ s', (modi i (set_i_valid 0);; releasesleep (S_inode i);; acquire L_itable) s = Ret tt s' ∧
  (modi i (λ ip, set_i_ref (s32 (i_ref ip - 1)) ip);; release L_itable) s' =
  Ret tt (set_k_itable (<[i := set_i_ref 0 (set_i_lock (mk_sl 0 0) (set_i_valid 0 ip))]> (k_itable s))
    (set_k_procs (imap (wake_one (Some me) (Ch_sleeplock (S_inode i))) (k_procs s)) s)).
Proof.
  intros Hth Hi Hr. pose proof (lookup_lt_Some _ _ _ Hi) as Hlt.
  set (s1 := set_k_itable (<[i := set_i_valid 0 ip]> (k_itable s)) s).
  assert (thread me pid s1) as Hth1 by (by eapply thread_ext).
  assert (k_itable s1 !! i = Some (set_i_valid 0 ip)) as Hi1 by (by apply list_lookup_insert_eq).
  assert (sl_of (S_inode i) s1 = Some (i_lock ip)) as Hsl by (simpl; by rewrite list_lookup_insert_eq).
  pose proof (releasesleep_ok (S_inode i) me pid s1 _ Hth1 Hsl) as Hrel. set (s2 := set_k_procs _ _) in Hrel.
  assert (k_itable s2 = <[i := set_i_lock (mk_sl 0 0) (set_i_valid 0 ip)]> (k_itable s)) as Hi2.
  { simpl. rewrite (alter_insert_at _ _ _ (set_i_valid 0 ip)) by (by apply list_lookup_insert_eq). by rewrite list_insert_insert_eq. }
  assert (k_held s2 = []) as Hh2 by apply (th_held _ _ _ Hth).
  exists (set_k_held [L_itable] s2). split.
  - erewrite bind_step by (by apply modi_run). erewrite bind_step by exact Hrel.
    rewrite acquire_free, Hh2 by (rewrite Hh2; apply not_elem_of_nil). done.
  - erewrite bind_step. 2: { apply modi_run. cbn [k_itable set_k_held]. rewrite Hi2. by apply list_lookup_insert_eq. }
    erewrite release_held by (simpl; done). f_equal. cbn [k_itable set_k_held]. rewrite Hi2, list_insert_insert_eq.
    cbn [i_ref set_i_lock set_i_valid]. rewrite Hr. unfold s2. apply k_ext; try reflexivity. symmetry. apply (th_held _ _ _ Hth).
Qed.

Lemma iput_last bl s ip :
  op me pid [] bl s → k_itable s !! i = Some ip → fs_layout s → file_wf s ip → 1 ≤ i_inum ip < sb_ninodes (k_sb s) →
  room bl s 5 → i_ref ip = 1 → i_valid ip ≠ 0 → i_nlink ip = 0 → sl_locked (i_lock ip) = 0 →
  wpc (disk_env me) (λ d, d = k_disk s) (iput fuel i s) (λ _ s', discarded bl s ip s').
Proof.
  intros Hop Hi Hl Hw Hin [Hr1 Hr2] Href Hv Hnl Hlk. pose proof (lookup_lt_Some _ _ _ Hi) as Hlt.
  pose proof (op_thread _ _ _ _ _ Hop) as Hth. pose proof (th_held _ _ _ Hth) as Hh. unfold iput.
  eapply wpc_step; [apply acquire_free; rewrite Hh; apply not_elem_of_nil|]. rewrite Hh.
  eapply wpc_step; [by apply geti_some|].
  unfold truthy. rewrite Href, Hnl, (proj2 (Z.eqb_neq (i_valid ip) 0)) by done. cbn [negb andb when Z.eqb Pos.eqb].
  apply wpc_bind.
  eapply wpc_step; [eapply (acquiresleep_under fuel (S_inode i) me pid [L_itable] s); [done|set_solver|simpl; by rewrite Hi|done|unfold enough_fuel in Hfuel; lia]|].
  eapply wpc_step; [by apply release_held|].
  cbn [upd_sl]. rewrite (alter_insert_at _ _ _ _ Hi). set (ip1 := set_i_lock (mk_sl 1 pid) ip).
  replace (set_k_held [] _) with (set_k_itable (<[i := ip1]> (k_itable s)) s) by (apply k_ext; try reflexivity; exact Hh).
  set (s1 := set_k_itable _ s).
  assert (fs_layout s1) as Hl1 by (by apply layout_table).
  assert (k_itable s1 !! i = Some ip1) as Hi1 by (by apply list_lookup_insert_eq).
  apply wpc_bind. eapply wpc_mono; [apply (itrunc_ok bl s1 ip1); try done|done|].
  { by apply op_itable. } { by apply wf_table, wf_lock. } { split; simpl; lia. }
  intros _ s2 [(bl2 & T1 & T1') T2 T3 T4 T5 T6 T7 T8 T9 T10 T11]. pose proof (wframe_sb _ _ T2) as E2.
  change (k_sb s1) with (k_sb s) in *. change (i_inum ip1) with (i_inum ip) in *.
  set (ip3 := set_i_type 0 (emptied ip1)).
  eapply wpc_step; [apply modi_run; rewrite T5; apply list_lookup_insert_eq; eapply lookup_lt_Some; exact Hi1|].
  fold ip3. rewrite T5. unfold s1 at 1. cbn [k_itable set_k_itable]. rewrite !list_insert_insert_eq. set (s3 := set_k_itable _ s2).
  change (k_disk s) with (k_disk s1). rewrite <- T3. change (k_disk s2) with (k_disk s3).
  apply wpc_bind. eapply wpc_mono; [apply (iupdate_put bl2 s3 ip3)|done|].
  { by apply op_itable. } { by apply list_lookup_insert_eq. } { apply Hw. } { by apply layout_table. }
  { change (k_sb s3) with (k_sb s2). by rewrite E2. }
  { destruct (emptied_typed ip1) as [Q1 Q2 Q3 Q4 Q5 Q6 Q7]; [apply Hw|]. by split. }
  { split; [lia|]. change (k_log s3) with (k_log s2). rewrite T4. simpl. lia. }
  intros _ s4 [P1 P2 P3 P4 P5 P6 P7 P8 P9]. change (i_inum ip3) with (i_inum ip) in *. change (k_sb s3) with (k_sb s2) in *. rewrite E2 in *.
  pose proof (itable_same _ _ P2) as Hit4. cbn [k_itable set_k_itable s3] in Hit4.
  destruct (iput_end s4 ip3) as (s5 & Hrun5 & Hrun6); [by eapply op_thread|rewrite Hit4; by apply list_lookup_insert_eq|done|].
  rewrite Hrun5. cbn [wpc]. rewrite Hrun6. cbn [wpc]. rewrite Hit4, list_insert_insert_eq. split.
  - eexists. split; [apply op_itable, op_wake, P1|]. pose proof (logs_length bl2 (IBLOCK (i_inum ip) (k_sb s))). lia.
  - simpl. rewrite P3. exact T3.
  - eexists. split; [done|]. done.
  - by apply layout_table, (layout_ext s4).
  - intros b Hb Ho. change (used (k_sb s) (blk s4) b = false). rewrite P6 by done. by apply T7.
  - intros b Hb Ho. change (used (k_sb s) (blk s4) b = used (k_sb s) (blk s) b). rewrite P6 by done. by apply T8.
  - change (di_type (dinode_on_disk s4 (i_inum ip)) = 0). by rewrite P7.
  - intros inum Hn Hne. change (dinode_on_disk s4 inum = dinode_on_disk s inum). rewrite P8 by done. by apply T10.
  - intros m H1 H2. change (blk s4 m = blk s m). rewrite P9 by done. by apply T11.
Qed.

(** ** [ialloc] *)

Definition fresh_dinode (type : Z) : dinode := mk_dinode type 0 0 0 0 (replicate 13 0).

Lemma ialloc_bytes off type data :
  (off + 64 ≤ length data)%nat →
  put16 off type (put_at off (replicate (Z.to_nat DINODE_SIZE) 0) data) = put_dinode off (fresh_dinode type) data.
Proof.
  intros Hl. unfold put_dinode, put16, put_at. change (dinode_bytes (fresh_dinode type)) with (le_bytes 2 type ++ replicate 62 0).
  change (Z.to_nat DINODE_SIZE) with 64%nat. rewrite length_replicate, length_app, length_replicate.
  assert (length (take off data) = off) as Ht by (rewrite length_take; lia).
  rewrite take_app_le, take_ge by lia. f_equal. rewrite <- app_assoc. f_equal.
  rewrite drop_app_ge, Ht by lia. replace (off + 2 - off)%nat with 2%nat by lia. done.
Qed.

(** The inodes [ialloc] has seen are all in use. *)
Definition ialloc_seen (bl : list Z) (s : kstate) (k : nat) (s' : kstate) : Prop :=
  reads me pid bl s s' ∧ ∀ inum, 1 ≤ inum < 1 + Z.of_nat k → di_type (dinode_on_disk s inum) ≠ 0.

(** The entry [ip'] that [iget] puts at [j] for the inode [inum]. *)
Definition got_entry (s : kstate) (j : nat) (inum : Z) (ip' : inode) : Prop :=
  (i_dev ip' = ROOTDEV ∧ i_inum ip' = inum ∧ 0 < i_ref ip') ∧ itable_ok (<[j := ip']> (k_itable s)) ∧
  ∃ ip, k_itable s !! j = Some ip ∧
    if is_inode ROOTDEV inum ip then ip' = set_i_ref (i_ref ip + 1) ip
    else i_ref ip = 0 ∧ ip' = set_i_valid 0 (set_i_ref 1 (set_i_inum inum (set_i_dev ROOTDEV ip))).

Definition ialloc_post (bl : list Z) (s : kstate) (type : Z) (r : option nat) (s' : kstate) : Prop :=
  match r with
  | Some j => ∃ inum ip' s1, 1 ≤ inum < sb_ninodes (k_sb s) ∧ di_type (dinode_on_disk s inum) = 0 ∧
      (∀ n, 1 ≤ n < inum → di_type (dinode_on_disk s n) ≠ 0) ∧ inode_put bl s inum (fresh_dinode type) s1 ∧
      s' = set_k_itable (<[j := ip']> (k_itable s)) s1 ∧ got_entry s j inum ip'
  | None => (∀ inum, 1 ≤ inum < sb_ninodes (k_sb s) → di_type (dinode_on_disk s inum) ≠ 0) ∧
      op me pid [] bl s' ∧ (∀ m, blk s' m = blk s m) ∧
      k_sb s' = k_sb s ∧ k_disk s' = k_disk s ∧ k_log s' = k_log s ∧ k_itable s' = k_itable s
  end.

Lemma dinode_on_disk_ext s s' inum : k_sb s' = k_sb s → (∀ m, blk s' m = blk s m) → dinode_on_disk s' inum = dinode_on_disk s inum.
Proof. intros E Hv. unfold dinode_on_disk. by rewrite E, Hv. Qed.

(** The inode was written; [iget] makes its table entry. *)
Lemma ialloc_got bl s type inum s4 :
  itable_free s → 1 ≤ inum < sb_ninodes (k_sb s) → di_type (dinode_on_disk s inum) = 0 →
  (∀ n, 1 ≤ n < inum → di_type (dinode_on_disk s n) ≠ 0) → inode_put bl s inum (fresh_dinode type) s4 →
  wpc (disk_env me) (λ d, d = k_disk s) ((j <- iget ROOTDEV inum;; ret (Some j)) s4)
    (λ o s', match o with Some j => ialloc_post bl s type (Some j) s' | None => False end).
Proof.
  intros (A1 & A2 & A3 & j0 & jp & A4 & A5) Hin H0 Hlow Hput. pose proof (itable_same _ _ (ip_frame _ _ _ _ _ Hput)) as Hit.
  pose proof (iget_ok ROOTDEV inum s4) as H. rewrite Hit in H.
  rewrite (th_held _ _ _ (op_thread _ _ _ _ _ (ip_op _ _ _ _ _ Hput))) in H.
  specialize (H ltac:(apply not_elem_of_nil) A2 A3). rewrite decide_False in H.
  2: { intros HF. eapply Forall_lookup_1 in HF as [HF _]; [|done]. done. }
  destruct H as (j & ip & ip' & Hj & Hget & Hok & E & Hc). eapply wpc_step; [exact Hget|].
  exists inum, ip', s4. do 5 (split; [done|]). split; [exact E|]. split; [exact Hok|]. by exists ip.
Qed.

Lemma ialloc_ok bl s type :
  op me pid [] bl s → fs_layout s → itable_free s → 1 ≤ sb_ninodes (k_sb s) → room bl s 2 → 0 < type < 32768 →
  wpc (disk_env me) (λ d, d = k_disk s) (ialloc fuel ROOTDEV type s) (ialloc_post bl s type).
Proof.
  intros Hop Hl Hfree Hn [Hr1 Hr2] Hty. unfold ialloc. eapply wpc_step; [reflexivity|]. apply wpc_bind.
  eapply (wpc_for_until _ (λ d, d = k_disk s) _ (λ pre s', ialloc_seen bl s (length pre) s')).
  - split; [by apply reads_refl|]. simpl. lia.
  - intros pre inum post s1 E [Hrd Hno].
    assert (seqZ 1 (sb_ninodes (k_sb s) - 1) !! length pre = Some inum) as Hk by (rewrite E; by apply list_lookup_middle).
    apply lookup_seqZ in Hk as [-> Hk]. set (inum := 1 + Z.of_nat (length pre)) in *.
    assert (1 ≤ inum < sb_ninodes (k_sb s)) as Hin by (unfold inum; lia).
    pose proof Hrd as (Hop1 & Hf1 & Hd1 & Hl1 & Hv1).
    destruct (layout_inode_block s inum Hl Hin) as (data & Hib). pose proof Hib as [Rb Hdt Hdl Hdd].
    pose proof (dinode_off_fits inum) as Hfit.
    assert (dinode_on_disk s inum = get_dinode data (dinode_off inum)) as Ed by (unfold dinode_on_disk; by rewrite Hdt).
    eapply (op_read me pid fuel Hfuel [] bl s1 (IBLOCK inum (k_sb s)) data); try done.
    { by rewrite Hv1. } { by rewrite Hd1. } { intros j e Hj. by apply not_elem_of_nil in Hj. } { simpl. lia. }
    intros j s2 Hop2 Hf2 Hd2 Hl2 Hv2 Ha2 _ _. destruct (buf_data _ _ _ _ Ha2) as (x & Hx & Ex).
    eapply wpc_step; [exact Hx|]. rewrite Ex, <- Ed.
    destruct (Z.eqb_spec (di_type (dinode_on_disk s inum)) 0) as [E0|E0].
    + destruct (op_write me pid [j] bl s2 j (IBLOCK inum (k_sb s)) data
        (λ l, put16 (dinode_off inum) type (put_at (dinode_off inum) (replicate (Z.to_nat DINODE_SIZE) 0) l))) as
        (s3 & Hrun & Hop3 & Hf3 & Hd3 & Hs3 & Hv3 & Ha3 & _); [done|by left|done|done| |rewrite Hl2, Hl1; lia|].
      { unfold LOGSIZE, MAXOPBLOCKS. unfold NBUF in Hr1. lia. }
      eapply wpc_step; [reflexivity|]. eapply wpc_step; [exact Hrun|].
      eapply op_release in Ha3 as (s4 & Hrel & Hop4 & Hf4 & Hd4 & Hl4 & Hv4 & _); [|done|done|by apply not_elem_of_nil].
      eapply wpc_step; [exact Hrel|]. rewrite ialloc_bytes in Hv3 by lia.
      assert (fs_frame s s4) as Hf by (repeat (eapply fs_frame_trans; [eassumption|]); apply fs_frame_refl).
      assert (inode_put bl s inum (fresh_dinode type) s4) as Hput.
      { eapply (inode_put_intro bl s inum (fresh_dinode type) data); try done.
        - split; simpl; try lia. repeat constructor; lia.
        - congruence.
        - by rewrite Hl4, Hs3, Hl2, Hl1.
        - intros m. rewrite Hv4, Hv3. case_decide; [done|]. by rewrite Hv2, Hv1. }
      eapply wpc_mono; [apply (ialloc_got bl s type inum s4); try done|done|by intros [j'|]].
    + destruct (op_release me pid [j] [] bl s2 j (IBLOCK inum (k_sb s)) data) as (s3 & Hrel & Hop3 & Hf3 & Hd3 & Hl3 & Hv3 & _);
        [done..|by apply not_elem_of_nil|done|].
      eapply wpc_step; [exact Hrel|]. split.
      * split_and!; [done|repeat (eapply fs_frame_trans; [eassumption|]); apply fs_frame_refl|congruence|congruence|].
        intros m. by rewrite Hv3, Hv2.
      * intros n Hn'. rewrite length_app in Hn'. simpl length in Hn'.
        destruct (decide (n = inum)) as [->|]; [done|]. apply Hno. unfold inum in *. lia.
  - intros s1 [Hrd Hno]. pose proof Hrd as (Hop1 & Hf1 & Hd1 & Hl1 & Hv1).
    destruct (prints_printf "ialloc: no inodes
" [] eq_refl s1) as [l Hlp].
    { unfold pr_free. rewrite (th_held _ _ _ (op_thread _ _ _ _ _ Hop1)). apply not_elem_of_nil. }
    eapply wpc_step; [exact Hlp|]. split_and!; [|by apply op_out|done|exact (fs_frame_sb _ _ Hf1)|exact Hd1|exact Hl1|exact (reads_itable _ _ _ _ _ Hrd)].
    intros inum Hin. apply Hno. rewrite length_seqZ. lia.
Qed.

End free.

(** ** What the theorems say *)

Section claims.
Context (me : nat) (pid : Z) `{D : Device} (fuel : nat) (i : nat).
Hypothesis Hfuel : enough_fuel fuel.

(** [itrunc] gives back exactly the blocks of the file, its direct blocks, those in
    the indirect block, and the indirect block, and writes the empty inode. *)
Theorem itrunc_correct bl s ip :
  op me pid [] bl s → k_itable s !! i = Some ip → fs_layout s → file_wf s ip → 1 ≤ i_inum ip < sb_ninodes (k_sb s) →
  room bl s 4 →
  wpc (disk_env me) (λ d, d = k_disk s) (itrunc fuel i s) (λ _ s', truncated me pid i bl s ip (emptied ip) s').
Proof. by apply itrunc_ok. Qed.

(** C14: The last [iput] of an inode without links frees the file: exactly its blocks,
    direct and indirect, become free in the free map and every other block stays as
    used as it was; the on-disk inode is free afterwards and no other inode changes;
    the table entry is released, its sleep-lock too; it takes at most three blocks of
    the log whatever the size of the file, and the disk's layout stays well-formed. *)
Theorem iput_frees_file bl s ip :
  op me pid [] bl s → k_itable s !! i = Some ip → fs_layout s → file_wf s ip → 1 ≤ i_inum ip < sb_ninodes (k_sb s) →
  room bl s 5 → i_ref ip = 1 → i_valid ip ≠ 0 → i_nlink ip = 0 → sl_locked (i_lock ip) = 0 →
  wpc (disk_env me) (λ d, d = k_disk s) (iput fuel i s) (λ _ s', discarded me pid i bl s ip s').
Proof. by apply iput_last. Qed.

(** C15: [ialloc] takes the lowest-numbered free inode of the disk: it writes an empty
    inode of the given type there, changes no other inode and no other block, and
    returns a table entry for it; it returns null exactly when every inode is in use,
    and then changes no block. *)
Theorem ialloc_correct bl s type :
  op me pid [] bl s → fs_layout s → itable_free s → 1 ≤ sb_ninodes (k_sb s) → room bl s 2 → 0 < type < 32768 →
  wpc (disk_env me) (λ d, d = k_disk s) (ialloc fuel ROOTDEV type s) (ialloc_post me pid bl s type).
Proof. by apply ialloc_ok. Qed.

End claims.

Lemma wf_nlink s ip : file_wf s ip → file_wf s (set_i_nlink 0 ip).
Proof. intros [H1 H2 [] H4 H5 H6 H7]. by split. Qed.

(** The root directory without a link, and the last reference to it. *)
Definition dying_machine : kstate := set_k_itable (set_i_nlink 0 (root_inode 1) :: replicate 49 zero_inode) (fs_machine 1).

Lemma dying_wf : file_wf dying_machine (set_i_nlink 0 (root_inode 1)).
Proof.
  unfold dying_machine. apply wf_table, wf_nlink, root_wf.
Qed.

Lemma itrunc_correct_witness :
  wpc (@disk_env qemu_disk 0) (λ d, d = fs_disk) (itrunc 2 0 (fs_machine 1))
    (λ _ s', used demo_sb (blk s') 50 = false).
Proof.
  eapply wpc_mono; [apply (@itrunc_correct 0 3 qemu_disk 2 0 (le_n 2) [] (fs_machine 1) (root_inode 1))|done|].
  - apply fs_machine_op.
  - reflexivity.
  - apply fs_machine_layout.
  - apply root_wf.
  - change (1 ≤ 1 < 200). lia.
  - split; [unfold NBUF; simpl; lia|simpl; lia].
  - intros u s' H. apply (tr_free _ _ _ _ _ _ _ _ H); [change (0 ≤ 50 < 64); lia|]. left. exists 0. split; [lia|reflexivity].
Defined.

Lemma iput_frees_file_witness :
  wpc (@disk_env qemu_disk 0) (λ d, d = fs_disk) (iput 2 0 dying_machine)
    (λ _ s', used demo_sb (blk s') 50 = false ∧ di_type (dinode_on_disk s' 1) = 0).
Proof.
  eapply wpc_mono; [apply (@iput_frees_file 0 3 qemu_disk 2 0 (le_n 2) [] dying_machine (set_i_nlink 0 (root_inode 1)))|done|].
  - apply op_itable, fs_machine_op.
  - reflexivity.
  - apply layout_table, fs_machine_layout.
  - apply dying_wf.
  - change (1 ≤ 1 < 200). lia.
  - split; [unfold NBUF; simpl; lia|simpl; lia].
  - reflexivity.
  - discriminate.
  - reflexivity.
  - reflexivity.
  - intros u s' H. split; [|apply (di_inode _ _ _ _ _ _ _ H)].
    apply (di_free _ _ _ _ _ _ _ H); [change (0 ≤ 50 < 64); lia|]. left. exists 0. split; [lia|reflexivity].
Defined.

Lemma ialloc_correct_witness :
  wpc (@disk_env qemu_disk 0) (λ d, d = fs_disk) (ialloc 2 ROOTDEV T_FILE (fs_machine 1))
    (ialloc_post 0 3 [] (fs_machine 1) T_FILE).
Proof.
  apply (@ialloc_correct 0 3 qemu_disk 2 (le_n 2) [] (fs_machine 1) T_FILE).
  - apply fs_machine_op.
  - apply fs_machine_layout.
  - apply fs_machine_itable.
  - change (1 ≤ 200). lia.
  - split; [unfold NBUF; simpl; lia|simpl; lia].
  - unfold T_FILE. lia.
Defined.
