(* ===== verification/FsPath.v ===== *)
(** * Path names: the theorems

    [namex] on a tree of directories: what a path means, and that walking it costs no
    reference but the one it returns.

    The number of references to an inode is counted over the whole inode table
    ([irefs]), so that the statements do not depend on which entry of the table an inode
    gets.  [walks s0 xs o s]: the walk has come from [s0] to [s], it holds one reference for
    each inode number in [xs], and the lock of the entry [o]. *)

From Stdlib Require Import ZArith Lia.
From S2P Require Import Prelude Machine Kernel Boot CString Printf Kalloc Vm ProcTable Seq Sleeplock Virtio Bio Log Crash Trans File Fs FsData FsAlloc FsSpec FsWrite FsDir FsFree.

(** ** References *)

(** What an entry of the table contributes to the references to [n]. *)
Definition weight (n : Z) (ip : inode) : Z := if bool_decide (i_dev ip = ROOTDEV ∧ i_inum ip = n) then i_ref ip else 0.

Definition irefs (t : list inode) (n : Z) : Z := foldr (λ ip r, weight n ip + r) 0 t.

Lemma irefs_cons ip t n : irefs (ip :: t) n = weight n ip + irefs t n.
Proof. done. Qed.

Lemma irefs_insert t i ip ip' n :
  t !! i = Some ip → irefs (<[i := ip']> t) n = irefs t n - weight n ip + weight n ip'.
Proof.
  revert i. induction t as [|jp t IH]; intros [|i] Hi; simpl in *; try done.
  - injection Hi as ->. lia.
  - rewrite IH by done. lia.
Qed.

Lemma irefs_zero t n : (∀ i ip, t !! i = Some ip → weight n ip = 0) → irefs t n = 0.
Proof.
  induction t as [|ip t IH]; intros H; [done|]. simpl. rewrite (H 0%nat ip) by done. rewrite IH; [done|].
  intros i jp Hi. by apply (H (S i)).
Qed.

(** All references to an inode are in its one entry. *)
Lemma irefs_entry t i ip :
  itable_ok t → t !! i = Some ip → i_dev ip = ROOTDEV → 0 < i_ref ip → irefs t (i_inum ip) = i_ref ip.
Proof.
  intros [Hge Huniq] Hi Hdev Href. pose proof (irefs_insert t i ip (set_i_ref 0 ip) (i_inum ip) Hi) as H.
  rewrite irefs_zero in H.
  - unfold weight in H. cbn [i_dev i_inum i_ref set_i_ref] in H. rewrite bool_decide_eq_true_2 in H by done. lia.
  - intros j jp. rewrite list_lookup_insert. unfold weight. case_decide as E; [intros [= <-]; by case_bool_decide|].
    intros Hj. case_bool_decide as Eb; [|done]. destruct Eb as [Ed Ei]. pose proof (Hge _ _ Hj).
    destruct (decide (i_ref jp = 0)) as [|Hnz]; [done|]. exfalso. apply E. split; [|by eapply lookup_lt_Some].
    eapply (Huniq i j); [done..|]. unfold is_inode. rewrite !andb_true_iff, Z.ltb_lt, !Z.eqb_eq. lia.
Qed.

(** The inodes that are in the table. *)
Definition in_table (t : list inode) : list Z := i_inum <$> filter (λ ip, i_ref ip ≠ 0) t.

Lemma in_table_spec t n :
  n ∈ in_table t ↔ ∃ i ip, t !! i = Some ip ∧ i_ref ip ≠ 0 ∧ i_inum ip = n.
Proof.
  unfold in_table. rewrite list_elem_of_fmap. split.
  - intros (ip & -> & [Hr Hin]%list_elem_of_filter). apply list_elem_of_lookup_1 in Hin as [i Hi]. eauto.
  - intros (i & ip & Hi & Hr & <-). exists ip. split; [done|]. apply list_elem_of_filter. split; [done|]. by eapply list_elem_of_lookup_2.
Qed.

(** Entries of the table that are in use are of the file system's device. *)
Definition one_device (t : list inode) : Prop := ∀ i ip, t !! i = Some ip → 0 < i_ref ip → i_dev ip = ROOTDEV.

Lemma in_table_irefs t n : itable_ok t → one_device t → n ∈ in_table t ↔ 0 < irefs t n.
Proof.
  intros Hok Hdev. pose proof Hok as [Hge _]. rewrite in_table_spec. split.
  - intros (i & ip & Hi & Hr & <-). pose proof (Hge _ _ Hi). rewrite (irefs_entry t i ip); [lia|done|done| |lia].
    apply (Hdev i); [done|lia].
  - intros Hpos. destruct (decide (n ∈ in_table t)) as [|Hno]; [by apply in_table_spec|exfalso].
    rewrite irefs_zero in Hpos; [lia|]. intros i ip Hi. unfold weight.
    case_bool_decide as E; [|done]. destruct (decide (i_ref ip = 0)) as [|Hr]; [done|]. exfalso. apply Hno, in_table_spec. exists i, ip. naive_solver.
Qed.

Lemma in_table_nodup t : itable_ok t → one_device t → NoDup (in_table t).
Proof.
  induction t as [|ip t IH]; intros Hok Hdev; [constructor|]. destruct Hok as [Hge Huniq].
  assert (NoDup (in_table t)) as Hnd.
  { apply IH; [split|].
    - intros i jp Hi. by apply (Hge (S i)).
    - intros i j jp kp Hi Hj Hr Hm. pose proof (Huniq (S i) (S j) jp kp Hi Hj Hr Hm). lia.
    - intros i jp Hi. by apply (Hdev (S i)). }
  unfold in_table. rewrite filter_cons. case_decide as Hr; [|done]. rewrite fmap_cons. constructor; [|done].
  intros (i & jp & Hi & Hrj & Hn)%in_table_spec. pose proof (Hge 0%nat ip eq_refl). pose proof (Hge (S i) jp Hi).
  assert (0%nat = S i) as Hx; [|done]. apply (Huniq 0%nat (S i) ip jp); [done|done|lia|].
  unfold is_inode. rewrite !andb_true_iff, Z.ltb_lt, !Z.eqb_eq. rewrite (Hdev 0%nat ip), (Hdev (S i) jp) by (done || lia). lia.
Qed.

(** A table with fewer inodes than entries has a free entry. *)
Lemma table_free t : (length (in_table t) < length t)%nat → ∃ i ip, t !! i = Some ip ∧ i_ref ip = 0.
Proof.
  intros H. induction t as [|ip t IH]; simpl in H; [lia|]. destruct (decide (i_ref ip = 0)) as [E|E]; [by exists 0%nat, ip|].
  unfold in_table in H. rewrite filter_cons_True, fmap_cons in H by done. cbn [length] in H.
  destruct IH as (i & jp & Hi & Hr); [unfold in_table; lia|].
  by exists (S i), jp.
Qed.

(** ** What a path means *)

(** The inode as [ilock] loads it. *)
Definition inode_at (s : kstate) (n : Z) : inode :=
  load_inode (dinode_on_disk s n) (mk_inode ROOTDEV n 1 (mk_sl 0 0) 1 0 0 0 0 0 (replicate 13 0)).

(** The entry that [name] has in the directory [n]: the first one in use with this name,
    names being cut to [DIRSIZ] characters. *)
Definition entry_named (s : kstate) (n : Z) (name : list Z) (k : Z) : bool :=
  let de := dir_entry (blk s) (inode_at s n) k in
  (negb (de_inum de =? 0) && bool_decide (c_string (de_name de) = take (Z.to_nat DIRSIZ) name))%bool.

Definition lookup_name (s : kstate) (n : Z) (name : list Z) : option Z :=
  (λ x, de_inum (dir_entry (blk s) (inode_at s n) x.2)) <$>
    list_find (λ k, entry_named s n name k = true) (seqZ 0 (di_size (dinode_on_disk s n) / DIRENT_SIZE)).

(** The inode that a list of path elements leads to from [n]. *)
Fixpoint walk_path (s : kstate) (n : Z) (es : list (list Z)) : option Z :=
  match es with
  | [] => Some n
  | e :: es' =>
      if di_type (dinode_on_disk s n) =? T_DIR then n' ← lookup_name s n e; walk_path s n' es'
      else None
  end.

(** The directory in which the last element is to be looked up. *)
Definition parent_path (s : kstate) (n : Z) (es : list (list Z)) : option Z :=
  match es with
  | [] => None
  | _ =>
      n' ← walk_path s n (removelast es);
      if di_type (dinode_on_disk s n') =? T_DIR then Some n' else None
  end.

Lemma parent_path_dir s n es d : parent_path s n es = Some d → di_type (dinode_on_disk s d) = T_DIR.
Proof.
  unfold parent_path. destruct es as [|e es]; [done|]. intros (n' & _ & H)%bind_Some.
  destruct (Z.eqb_spec (di_type (dinode_on_disk s n')) T_DIR); [|done]. by injection H as <-.
Qed.

Lemma parent_path_cons s n e es :
  parent_path s n (e :: es) =
  if di_type (dinode_on_disk s n) =? T_DIR then
    match es with [] => Some n | _ => n' ← lookup_name s n e; parent_path s n' es end
  else None.
Proof.
  unfold parent_path. destruct es as [|e' es]; [done|]. change (removelast (e :: e' :: es)) with (e :: removelast (e' :: es)).
  cbn [walk_path]. destruct (_ =? T_DIR); [|done]. by destruct (lookup_name s n e).
Qed.

(** ** Trees of directories *)

(** An inode that a path may reach. *)
Definition live (s : kstate) (n : Z) : Prop := 1 ≤ n < sb_ninodes (k_sb s) ∧ di_type (dinode_on_disk s n) ≠ 0.

(** Directories are made of whole entries, whose names are bytes and which are for
    inodes with links. *)
Record dir_ok (s : kstate) (n : Z) : Prop := {
  do_file : file_ok s (inode_at s n);
  do_mod : di_size (dinode_on_disk s n) mod DIRENT_SIZE = 0;
  do_entry k : 0 ≤ k < di_size (dinode_on_disk s n) / DIRENT_SIZE →
    let de := dir_entry (blk s) (inode_at s n) k in
    Forall (λ c, 0 ≤ c < 256) (de_name de) ∧
    (de_inum de ≠ 0 → live s (de_inum de) ∧ di_nlink (dinode_on_disk s (de_inum de)) ≠ 0)
}.

Definition tree_ok (s : kstate) : Prop :=
  ∀ n, live s n → di_type (dinode_on_disk s n) = T_DIR → dir_ok s n.

(** An entry of the inode table: in use, it is for a live inode, and if it is valid it is
    what the disk has. *)
Definition entry_ok (s : kstate) (ip : inode) : Prop :=
  0 < i_ref ip → i_dev ip = ROOTDEV ∧ live s (i_inum ip) ∧ (i_valid ip ≠ 0 → dinode_of ip = dinode_on_disk s (i_inum ip)).

(** The number of times [n] is in [xs]. *)
Definition occ (n : Z) (xs : list Z) : Z := foldr (λ x r, (if x =? n then 1 else 0) + r) 0 xs.

Lemma occ_range n xs : 0 ≤ occ n xs ≤ Z.of_nat (length xs).
Proof. induction xs as [|x xs IH]; simpl; [lia|]. case_test; lia. Qed.

Lemma occ_pos n xs : 0 < occ n xs ↔ n ∈ xs.
Proof.
  induction xs as [|x xs IH]; simpl; [split; [lia|by intros ?%not_elem_of_nil]|]. rewrite elem_of_cons, <- IH.
  pose proof (occ_range n xs). destruct (Z.eqb_spec x n) as [->|Hne]; naive_solver lia.
Qed.

Lemma irefs_nonneg t n : itable_ok t → 0 ≤ irefs t n.
Proof.
  intros [Hge _]. induction t as [|ip t IH]; [done|]. simpl.
  pose proof (Hge 0%nat ip eq_refl). specialize (IH (λ i jp Hi, Hge (S i) jp Hi)). unfold weight. case_bool_decide; lia.
Qed.

(** [iunlock] of an entry the thread has locked. *)
Definition unlocked (me i : nat) (ip : inode) (s : kstate) : kstate :=
  set_k_procs (imap (wake_one (Some me) (Ch_sleeplock (S_inode i))) (k_procs s))
    (set_k_itable (<[i := set_i_lock (mk_sl 0 0) ip]> (k_itable s)) s).

Lemma iunlock_run me pid s i ip :
  thread me pid s → k_itable s !! i = Some ip → i_lock ip = mk_sl 1 pid → 0 < i_ref ip →
  iunlock (Some i) s = Ret tt (unlocked me i ip s).
Proof.
  intros Hth Hi Hl Hr. assert (sl_of (S_inode i) s = Some (mk_sl 1 pid)) as Hsl by (simpl; rewrite Hi; simpl; by rewrite Hl).
  unfold iunlock. erewrite bind_step by (by eapply holdingsleep_ok). erewrite bind_step by (by apply geti_some).
  cbn [sl_locked sl_pid]. rewrite Z.eqb_refl, (proj2 (Z.ltb_ge _ _)) by lia. cbn [truthy Z.eqb negb andb orb].
  rewrite (releasesleep_ok _ _ _ _ _ Hth Hsl). cbn [upd_sl]. by rewrite (alter_insert_at _ _ _ _ Hi).
Qed.

Section path.
Context (me : nat) (pid : Z) `{D : Device} (fuel : nat) (bl : list Z) (s0 : kstate).
Hypothesis Hfuel : enough_fuel fuel.

(** The state before the walk. *)
Record walk_pre : Prop := {
  pw_op : op me pid [] bl s0;
  pw_layout : fs_layout s0;
  pw_tree : tree_ok s0;
  pw_table : itable_ok (k_itable s0);
  pw_entry i ip : k_itable s0 !! i = Some ip → entry_ok s0 ip ∧ sl_locked (i_lock ip) = 0;
  pw_refs n : irefs (k_itable s0) n < 2 ^ 31 - 3;
  pw_room : (length (in_table (k_itable s0)) + 2 ≤ length (k_itable s0))%nat;
  pw_bufs : (length bl < NBUF)%nat
}.
Hypothesis Hpre : walk_pre.

Record walks (xs : list Z) (o : option nat) (s : kstate) : Prop := {
  wk_op : op me pid [] bl s;
  wk_sb : k_sb s = k_sb s0;
  wk_disk : k_disk s = k_disk s0;
  wk_log : k_log s = k_log s0;
  wk_blk m : blk s m = blk s0 m;
  wk_table : itable_ok (k_itable s);
  wk_len : length (k_itable s) = length (k_itable s0);
  wk_refs n : irefs (k_itable s) n = irefs (k_itable s0) n + occ n xs;
  wk_entry i ip : k_itable s !! i = Some ip → entry_ok s0 ip ∧
    if decide (o = Some i) then i_lock ip = mk_sl 1 pid ∧ 0 < i_ref ip ∧ i_valid ip ≠ 0 else sl_locked (i_lock ip) = 0
}.

(** Entry [j] of the table is the inode [n]. *)
Definition handle (s : kstate) (j : nat) (n : Z) : Prop :=
  ∃ ip, k_itable s !! j = Some ip ∧ i_inum ip = n ∧ 0 < i_ref ip.

Lemma walks_refl : walks [] None s0.
Proof.
  destruct Hpre as [H1 H2 H3 H4 H5 H6 H7]. split; try done.
  intros n. simpl. lia.
Qed.

Lemma walks_device xs o s : walks xs o s → one_device (k_itable s).
Proof. intros H i ip Hi Hr. destruct (wk_entry _ _ _ H i ip Hi) as [He _]. by apply He. Qed.

Lemma walks_ref xs o s i ip :
  walks xs o s → k_itable s !! i = Some ip → 0 < i_ref ip → i_ref ip = irefs (k_itable s0) (i_inum ip) + occ (i_inum ip) xs.
Proof.
  intros H Hi Hr. rewrite <- (wk_refs _ _ _ H). symmetry. eapply irefs_entry; [apply H|done| |done]. by eapply walks_device.
Qed.

Lemma walks_max xs o s i ip : walks xs o s → (length xs ≤ 2)%nat → k_itable s !! i = Some ip → 0 ≤ i_ref ip < 2 ^ 31 - 1.
Proof.
  intros H Hx Hi. destruct (wk_table _ _ _ H) as [Hge _]. pose proof (Hge _ _ Hi).
  destruct (decide (0 < i_ref ip)); [|lia]. rewrite (walks_ref _ _ _ _ _ H Hi) by done.
  pose proof (pw_refs Hpre (i_inum ip)). pose proof (occ_range (i_inum ip) xs). pose proof (irefs_nonneg _ (i_inum ip) (pw_table Hpre)). lia.
Qed.

Lemma walks_in_table xs o s n : walks xs o s → n ∈ in_table (k_itable s) → n ∈ in_table (k_itable s0) ++ xs.
Proof.
  intros H Hn. apply in_table_irefs in Hn; [|apply H|by eapply walks_device].
  rewrite (wk_refs _ _ _ H) in Hn. apply elem_of_app. destruct (decide (0 < occ n xs)) as [Ho|Ho]; [right; by apply occ_pos|left].
  pose proof (occ_range n xs). apply in_table_irefs; [apply Hpre| |lia]. apply (walks_device _ _ _ walks_refl).
Qed.

Lemma walks_free xs o s : walks xs o s → (length xs ≤ 1)%nat → itable_free s.
Proof.
  intros H Hx. pose proof (walks_device _ _ _ H) as Hdev. pose proof (wk_table _ _ _ H) as Hok.
  unfold itable_free. split_and!; [|done|intros i ip Hi; apply (walks_max _ _ _ i ip H); [lia|done]|].
  - rewrite (th_held _ _ _ (op_thread _ _ _ _ _ (wk_op _ _ _ H))). apply not_elem_of_nil.
  - apply table_free. rewrite (wk_len _ _ _ H). pose proof (pw_room Hpre).
    assert (in_table (k_itable s) ⊆+ in_table (k_itable s0) ++ xs) as Hsub.
    { apply NoDup_submseteq; [by apply in_table_nodup|]. intros n. by apply (walks_in_table xs o). }
    apply submseteq_length in Hsub. rewrite length_app in Hsub. lia.
Qed.

Lemma walks_thread xs o s : walks xs o s → thread me pid s.
Proof. intros H. by eapply op_thread, wk_op. Qed.

(** Changing one entry of the table. *)
Lemma walks_entry xs o xs' o' s i ip ip' :
  walks xs o s → k_itable s !! i = Some ip → itable_ok (<[i := ip']> (k_itable s)) →
  (∀ n, occ n xs' = occ n xs - weight n ip + weight n ip') → entry_ok s0 ip' →
  (if decide (o' = Some i) then i_lock ip' = mk_sl 1 pid ∧ 0 < i_ref ip' ∧ i_valid ip' ≠ 0 else sl_locked (i_lock ip') = 0) →
  (∀ i', i' ≠ i → o = Some i' ↔ o' = Some i') →
  walks xs' o' (set_k_itable (<[i := ip']> (k_itable s)) s).
Proof.
  intros H Hi Hok Hw He Hl Ho. pose proof H as [H1 H2 H3 H4 H5 H6 H7 H8 H9]. split; try done.
  - by apply op_itable.
  - cbn [k_itable set_k_itable]. by rewrite length_insert.
  - intros n. cbn [k_itable set_k_itable]. rewrite (irefs_insert _ _ _ _ _ Hi), H8, Hw. lia.
  - intros i' jp. cbn [k_itable set_k_itable]. intros Hj. destruct (decide (i' = i)) as [->|Hne].
    { rewrite list_lookup_insert_eq in Hj by (by eapply lookup_lt_Some). by injection Hj as <-. }
    rewrite list_lookup_insert_ne in Hj by done.
    destruct (H9 i' jp Hj) as [G1 G2]. split; [done|]. destruct (Ho i' Hne) as [O1 O2].
    destruct (decide (o' = Some i')), (decide (o = Some i')); tauto.
Qed.

Lemma handle_insert s i ip ip' j n :
  k_itable s !! i = Some ip → i_inum ip' = i_inum ip ∨ i_ref ip ≤ 0 → handle s j n → (j = i → 0 < i_ref ip') →
  handle (set_k_itable (<[i := ip']> (k_itable s)) s) j n.
Proof.
  intros Hi Hn (jp & Hj & Ej & Rj) Hr. destruct (decide (j = i)) as [->|Hne].
  - exists ip'. cbn [k_itable set_k_itable]. rewrite list_lookup_insert_eq by (by eapply lookup_lt_Some).
    assert (jp = ip) as -> by congruence. split_and!; [done| |by apply Hr]. destruct Hn as [->|]; [done|lia].
  - exists jp. cbn [k_itable set_k_itable]. by rewrite list_lookup_insert_ne.
Qed.

Lemma weight_same n ip ip' : i_dev ip' = i_dev ip → i_inum ip' = i_inum ip → i_ref ip' = i_ref ip → weight n ip' = weight n ip.
Proof. unfold weight. by intros -> -> ->. Qed.

(** ** The steps of the walk *)

Lemma walks_reads xs o s s' : walks xs o s → reads me pid bl s s' → walks xs o s'.
Proof.
  intros [H1 H2 H3 H4 H5 H6 H7 H8 H9] Hrd. pose proof (reads_itable _ _ _ _ _ Hrd) as Hit.
  destruct Hrd as (O & F & Dk & Lg & V). split; rewrite ?Hit; try done; [|congruence..|].
  - rewrite (fs_frame_sb _ _ F). done.
  - intros m. by rewrite V.
Qed.

(** The same state with the table written differently. *)
Lemma handle_table s s' j n : k_itable s' = k_itable s → handle s j n → handle s' j n.
Proof. intros E (ip & H). exists ip. by rewrite E. Qed.

Lemma walks_handle xs o s j n : walks xs o s → handle s j n → live s0 n.
Proof. intros H (ip & Hi & <- & Hr). by apply (wk_entry _ _ _ H j ip Hi). Qed.

Lemma walks_iget xs o s n j s' :
  walks xs o s → (length xs ≤ 1)%nat → live s0 n → iget ROOTDEV n s = Ret j s' →
  walks (n :: xs) o s' ∧ handle s' j n ∧ ∀ j' n', handle s j' n' → handle s' j' n'.
Proof.
  intros H Hx Hn Hget. pose proof (walks_free _ _ _ H Hx) as Hfree. pose proof Hfree as (Hh & Hok & Hmax & j0 & jp0 & Hj0 & Hr0).
  pose proof (iget_ok ROOTDEV n s Hh Hok Hmax) as HH. rewrite decide_False in HH.
  2: { intros HF. eapply Forall_lookup_1 in HF as [HF _]; [|done]. done. }
  destruct HH as (j1 & ip & ip' & Hi & Hrun & Hok' & (E1 & E2 & E3) & Hcase). rewrite Hget in Hrun. injection Hrun as <- ->.
  destruct (wk_entry _ _ _ H j ip Hi) as [He Hl]. pose proof (Hmax _ _ Hi) as Hm.
  assert (handle (set_k_itable (<[j := ip']> (k_itable s)) s) j n) as Hhd.
  { exists ip'. cbn [k_itable set_k_itable]. rewrite list_lookup_insert_eq by (by eapply lookup_lt_Some). done. }
  assert (i_inum ip' = i_inum ip ∨ i_ref ip ≤ 0) as Hnum.
  { destruct (is_inode ROOTDEV n ip); [left; by rewrite Hcase|right; lia]. }
  split_and!; [|done|intros j' n' Hj'; apply (handle_insert s j ip ip'); [done|done|done|lia]].
  apply (walks_entry xs o _ _ s j ip ip'); try done.
  - intros m. simpl. unfold weight. rewrite E1, E2. destruct (is_inode ROOTDEV n ip) eqn:E.
    + unfold is_inode in E. bool_prop. subst ip'. cbn [i_ref set_i_ref]. destruct (Z.eqb_spec n m) as [->|Hne].
      * rewrite !bool_decide_eq_true_2 by (split; [done|lia]). lia.
      * rewrite !bool_decide_eq_false_2 by lia. lia.
    + destruct Hcase as [Hr0' ->]. cbn [i_ref set_i_ref set_i_valid]. rewrite Hr0'. destruct (Z.eqb_spec n m) as [->|Hne].
      * rewrite (bool_decide_eq_true_2 (ROOTDEV = _ ∧ _)) by done. case_bool_decide; lia.
      * rewrite (bool_decide_eq_false_2 (ROOTDEV = _ ∧ _)) by naive_solver. case_bool_decide; lia.
  - destruct (is_inode ROOTDEV n ip) eqn:E.
    + subst ip'. unfold is_inode in E. bool_prop. intros _. by apply He.
    + intros _. destruct Hcase as [_ ->]. cbn. by split_and!.
  - destruct (is_inode ROOTDEV n ip) eqn:E.
    + subst ip'. unfold is_inode in E. bool_prop. destruct (decide _); [|done]. destruct Hl as (L1 & L2 & L3). cbn. split_and!; [done|lia|done].
    + destruct Hcase as [Hr0' ->]. destruct (decide _); [|done]. destruct Hl as (L1 & L2 & L3). lia.
Qed.

Lemma itable_ok_ref t i ip r :
  itable_ok t → t !! i = Some ip → 0 ≤ r → i_ref ip ≠ 0 → itable_ok (<[i := set_i_ref r ip]> t).
Proof.
  intros [Hge Huniq] Hi Hr Hnz. pose proof (Hge _ _ Hi). destruct (decide (r = 0)) as [->|Hr0].
  - split.
    + intros j jp. rewrite list_lookup_insert. case_decide; [intros [= <-]; done|apply Hge].
    + intros a b ap bp Ha Hb Hra Hm.
      destruct (decide (a = i)) as [->|Ea]; [rewrite list_lookup_insert_eq in Ha by (by eapply lookup_lt_Some); by injection Ha as <-|].
      destruct (decide (b = i)) as [->|Eb].
      { rewrite list_lookup_insert_eq in Hb by (by eapply lookup_lt_Some). by injection Hb as <-. }
      rewrite list_lookup_insert_ne in Ha, Hb by done. by eapply Huniq.
  - apply (itable_ok_insert _ _ ip); [by split|done|simpl; lia|]. intros j jp Hj Hjp.
    destruct (is_inode _ _ jp) eqn:E; [|done]. exfalso. apply Hj. symmetry. eapply (Huniq i j); [done..|lia|exact E].
Qed.

(** The test of [iput] for the last reference to an inode without links. *)
Definition last_ref (ip : inode) : bool := ((i_ref ip =? 1) && truthy (i_valid ip) && (i_nlink ip =? 0))%bool.

(** A reference that [iput] may give back: the inode has links, or somebody else refers
    to it. *)
Definition kept (n : Z) : Prop := 0 < irefs (k_itable s0) n ∨ di_nlink (dinode_on_disk s0 n) ≠ 0.

Lemma walks_not_last xs o s j n ip :
  walks (n :: xs) o s → k_itable s !! j = Some ip → i_inum ip = n → 0 < i_ref ip → kept n → last_ref ip = false.
Proof.
  intros H Hj <- Hr Hlast. pose proof (walks_ref _ _ _ _ _ H Hj Hr) as Eref. simpl in Eref. rewrite Z.eqb_refl in Eref.
  pose proof (occ_range (i_inum ip) xs). destruct (wk_entry _ _ _ H j ip Hj) as [He _]. destruct (He Hr) as (_ & _ & Hval).
  unfold last_ref, truthy. destruct (Z.eqb_spec (i_ref ip) 1) as [E1|], (Z.eqb_spec (i_valid ip) 0) as [|Ev]; try done. simpl.
  apply Z.eqb_neq. destruct Hlast as [Hl0|Hl0]; [lia|]. by rewrite <- Hval in Hl0.
Qed.

Lemma walks_iput xs s j n :
  walks (n :: xs) None s → (length xs ≤ 1)%nat → handle s j n → kept n →
  ∃ s', iput fuel j s = Ret tt s' ∧ walks xs None s' ∧ ∀ j' n', handle s j' n' → n' ∈ xs → handle s' j' n'.
Proof.
  intros H Hx (ip & Hj & <- & Hr) Hlast. pose proof (walks_not_last _ _ _ _ _ ip H Hj eq_refl Hr Hlast) as Hc. pose proof (walks_max _ _ _ _ _ H ltac:(simpl; lia) Hj) as Hm.
  pose proof (walks_ref _ _ _ _ _ H Hj Hr) as Eref. simpl in Eref. rewrite Z.eqb_refl in Eref.
  pose proof (occ_range (i_inum ip) xs) as Hocc. pose proof (irefs_nonneg _ (i_inum ip) (pw_table Hpre)) as Hnn.
  destruct (wk_entry _ _ _ H j ip Hj) as [He Hl]. destruct (He Hr) as (Hdev & Hlive & Hval).
  eexists. split; [apply iput_keeps; [|exact Hj|exact Hc]|].
  { rewrite (th_held _ _ _ (walks_thread _ _ _ H)). apply not_elem_of_nil. }
  rewrite s32_small by lia. split.
  - apply (walks_entry (i_inum ip :: xs) None _ _ s j ip); try done.
    + apply itable_ok_ref; [apply H|done|lia|lia].
    + intros m. simpl. unfold weight. cbn [i_dev i_inum i_ref set_i_ref]. rewrite Hdev.
      destruct (Z.eqb_spec (i_inum ip) m) as [->|Hne].
      * rewrite bool_decide_eq_true_2 by done. lia.
      * rewrite bool_decide_eq_false_2 by naive_solver. lia.
  - intros j' n' Hh' Hin. apply (handle_insert s j ip); [done|by left|done|]. intros ->.
    cbn [i_ref set_i_ref]. destruct Hh' as (ip' & Hj' & <- & _). rewrite Hj in Hj'. injection Hj' as <-. apply occ_pos in Hin. lia.
Qed.

Lemma itable_ok_lock t i ip ip' :
  itable_ok t → t !! i = Some ip → i_ref ip' = i_ref ip → i_dev ip' = i_dev ip → i_inum ip' = i_inum ip → 0 < i_ref ip →
  itable_ok (<[i := ip']> t).
Proof.
  intros [Hge Huniq] Hi E1 E2 E3 Hr. apply (itable_ok_insert _ _ ip); [by split|done|lia|]. rewrite E2, E3. intros j jp Hj Hjp.
  destruct (is_inode _ _ jp) eqn:E; [|done]. exfalso. apply Hj. symmetry. eapply (Huniq i j); [done..|exact E].
Qed.

Lemma dinode_of_load d ip : dinode_of (load_inode d ip) = d.
Proof. by destruct d. Qed.

(** [ilock] of an inode the walk has a reference to. *)
Lemma walks_ilock xs s j n C :
  walks xs None s → handle s j n → C (k_disk s) →
  wpc (disk_env me) C (ilock fuel (Some j) s) (λ _ s', walks xs (Some j) s' ∧ ∀ j' n', handle s j' n' → handle s' j' n').
Proof.
  intros H (ip & Hj & <- & Hr) HC. destruct (wk_entry _ _ _ H j ip Hj) as [He Hl]. rewrite decide_False in Hl by done.
  destruct (He Hr) as (Hdev & Hlive & Hval). pose proof Hlive as [Hin Hty].
  assert (fs_layout s) as Hlay by (eapply (layout_ext s0); [apply H|apply H|apply H|apply Hpre]).
  destruct (layout_inode_block s (i_inum ip)) as (data & Hib); [done|by rewrite (wk_sb _ _ _ H)|].
  assert (get_dinode data (dinode_off (i_inum ip)) = dinode_on_disk s0 (i_inum ip)) as Ed.
  { unfold dinode_on_disk. rewrite <- (wk_blk _ _ _ H), <- (wk_sb _ _ _ H), (ib_blk _ _ _ Hib). done. }
  eapply wpc_mono; [eapply (ilock_ok me pid fuel Hfuel bl s j ip data C); try done|done|].
  - apply H.
  - lia.
  - apply Hpre.
  - by rewrite Ed.
  - cbn beta. intros _ s' (O & F & Dk & Lg & V & T). rewrite Ed in T. set (ip' := set_i_lock _ _) in T.
    assert (i_ref ip' = i_ref ip ∧ i_dev ip' = i_dev ip ∧ i_inum ip' = i_inum ip ∧ i_valid ip' ≠ 0 ∧
      dinode_of ip' = dinode_on_disk s0 (i_inum ip)) as (E1 & E2 & E3 & E4 & E5).
    { unfold ip'. destruct (Z.eqb_spec (i_valid ip) 0) as [|Ev]; cbn.
      - by split_and!.
      - split_and!; try done. by rewrite <- Hval. }
    assert (walks xs (Some j) (set_k_itable (<[j := ip']> (k_itable s)) s)) as W.
    { apply (walks_entry xs None _ _ s j ip); try done.
      - by apply (itable_ok_lock _ _ ip); [apply H|..].
      - intros m. rewrite (weight_same m ip ip') by done. lia.
      - intros _. rewrite E2, E3. done.
      - rewrite decide_True by done. split_and!; [done|lia|done].
      - intros i' Hne. naive_solver. }
    split.
    + destruct W as [W1 W2 W3 W4 W5 W6 W7 W8 W9]. cbn [k_itable set_k_itable] in *. split; rewrite ?T; try done.
      * unfold ifs_frame in F. apply fs_frame_sb in F. rewrite F. exact W2.
      * by rewrite Dk.
      * by rewrite Lg.
      * intros m. rewrite V. apply W5.
    + intros j' n' Hh. eapply handle_table with (s := set_k_itable (<[j := ip']> (k_itable s)) s); [done|].
      apply (handle_insert s j ip); [done|by left|done|lia].
Qed.

Lemma walks_iunlock xs s j :
  walks xs (Some j) s → is_Some (k_itable s !! j) →
  ∃ s', iunlock (Some j) s = Ret tt s' ∧ walks xs None s' ∧ ∀ j' n', handle s j' n' → handle s' j' n'.
Proof.
  intros H [ip Hj]. destruct (wk_entry _ _ _ H j ip Hj) as [He Hl]. rewrite decide_True in Hl by done.
  destruct Hl as (L1 & L2 & L3). pose proof (walks_thread _ _ _ H) as Hth.
  exists (unlocked me j ip s). split; [by eapply iunlock_run|]. unfold unlocked. set (ip' := set_i_lock _ ip).
  set (s' := set_k_itable (<[j := ip']> (k_itable s)) s).
  assert (walks xs None s') as W.
  { apply (walks_entry xs (Some j) _ _ s j ip); try done.
    - by apply (itable_ok_lock _ _ ip); [apply H|..].
    - intros m. rewrite (weight_same m ip ip') by done. lia.
    - intros i' Hne. naive_solver. }
  split.
  - destruct W as [W1 W2 W3 W4 W5 W6 W7 W8 W9]. split; try done. exact (op_wake me pid [] bl _ s' W1).
  - intros j' n' Hh. eapply (handle_table s'); [done|]. apply (handle_insert s j ip); [done|by left|done|intros _; exact L2].
Qed.

(** ** Looking up a name *)

Lemma file_addr_addrs B ip ip' bn : i_addrs ip' = i_addrs ip → file_addr B ip' bn = file_addr B ip bn.
Proof. intros E. unfold file_addr. by rewrite E. Qed.

Lemma dir_entry_addrs B ip ip' k : i_addrs ip' = i_addrs ip → dir_entry B ip' k = dir_entry B ip k.
Proof.
  intros E. unfold dir_entry, file_bytes. f_equal. apply list_fmap_ext. intros x y _. unfold file_byte. by rewrite (file_addr_addrs B ip).
Qed.

Lemma file_ok_same ip ip' :
  i_dev ip' = i_dev ip → i_size ip' = i_size ip → i_addrs ip' = i_addrs ip → file_ok s0 ip → file_ok s0 ip'.
Proof.
  intros E1 E2 E3 [H1 H2 H3 H4]. split; rewrite ?E1, ?E2, ?E3; try done.
  intros bn H0 Hbn. rewrite (file_addr_addrs _ ip) by done. by apply H3.
Qed.

Lemma file_ok_moved s ip :
  k_disk s = k_disk s0 → (∀ m, blk s m = blk s0 m) → file_ok s0 ip → file_ok s ip.
Proof.
  intros Hd Hv [H1 H2 H3 H4].
  assert (∀ a, readable s0 a → readable s a) as Hrd.
  { intros a (R1 & R2 & data & R3 & R4). split_and!; [lia|lia|by rewrite Hd|]. exists data. by rewrite Hv. }
  split; try done.
  - intros bn H0 Hbn. destruct (H3 bn H0 Hbn) as (a & Ha & Hr). exists a. rewrite (file_addr_ext (blk s0)) by done. auto.
  - intros Hlt. destruct (H4 Hlt) as (a & Ha & Hnz & Hr). exists a. auto.
Qed.

Lemma de_name_length B ip k : length (de_name (dir_entry B ip k)) = 14%nat.
Proof.
  unfold dir_entry, get_dirent. cbn [de_name]. rewrite length_take, length_drop. unfold file_bytes.
  rewrite length_fmap, length_seqZ. done.
Qed.

(** [namecmp] on the buffer that [skipelem] filled. *)
Lemma entry_is_named ip n name e k :
  i_addrs ip = di_addrs (dinode_on_disk s0 n) → dir_ok s0 n → 0 ≤ k < di_size (dinode_on_disk s0 n) / DIRENT_SIZE →
  Forall (λ c, 0 ≤ c < 256) name → length name = 14%nat → c_string name = take (Z.to_nat DIRSIZ) e →
  entry_is (blk s0) ip name k = entry_named s0 n e k.
Proof.
  intros Ea [_ _ Hd] Hk Hb Hl He. destruct (Hd k Hk) as [Hnb _]. unfold entry_is, entry_named.
  rewrite (dir_entry_addrs _ (inode_at s0 n)) by done. set (de := dir_entry _ _ _) in *. f_equal.
  pose proof (de_name_length (blk s0) (inode_at s0 n) k) as Hdl. fold de in Hdl.
  apply eq_true_iff_eq. rewrite Z.eqb_eq, bool_decide_eq_true, <- He.
  rewrite namecmp_spec by (done || rewrite ?Hl, ?Hdl; unfold DIRSIZ; lia). unfold DIRSIZ. simpl Z.to_nat.
  rewrite !take_ge by lia. naive_solver.
Qed.

Lemma lookup_name_first n e k N :
  di_size (dinode_on_disk s0 n) / DIRENT_SIZE = N → 0 ≤ k < N → entry_named s0 n e k = true →
  (∀ k', 0 ≤ k' < k → entry_named s0 n e k' = false) →
  lookup_name s0 n e = Some (de_inum (dir_entry (blk s0) (inode_at s0 n) k)).
Proof.
  intros EN Hk Ht Hf. unfold lookup_name. rewrite EN.
  assert (list_find (λ k, entry_named s0 n e k = true) (seqZ 0 N) = Some (Z.to_nat k, k)) as ->; [|done].
  apply list_find_Some. split_and!.
  - apply lookup_seqZ. lia.
  - done.
  - intros j y Hj Hlt. apply lookup_seqZ in Hj as [-> Hj]. rewrite Hf by lia. done.
Qed.

Lemma lookup_name_none n e N :
  di_size (dinode_on_disk s0 n) / DIRENT_SIZE = N → (∀ k', 0 ≤ k' < N → entry_named s0 n e k' = false) → lookup_name s0 n e = None.
Proof.
  intros EN Hf. unfold lookup_name. rewrite EN. rewrite (proj2 (list_find_None _ _)); [done|]. apply Forall_forall. intros k Hk.
  apply elem_of_seqZ in Hk. rewrite Hf by lia. done.
Qed.

Definition looked_up (xs : list Z) (j : nat) (n : Z) (e : list Z) (r : option (nat * Z)) (s' : kstate) : Prop :=
  handle s' j n ∧
  match lookup_name s0 n e with
  | Some n' => ∃ j' off, r = Some (j', off) ∧ walks (n' :: xs) (Some j) s' ∧ handle s' j' n' ∧ di_nlink (dinode_on_disk s0 n') ≠ 0
  | None => r = None ∧ walks xs (Some j) s'
  end.

Lemma walks_dirlookup xs s j n name e C :
  walks xs (Some j) s → (length xs ≤ 1)%nat → handle s j n → di_type (dinode_on_disk s0 n) = T_DIR →
  Forall (λ c, 0 ≤ c < 256) name → length name = 14%nat → c_string name = take (Z.to_nat DIRSIZ) e → C (k_disk s) →
  wpc (disk_env me) C (dirlookup fuel j name s) (looked_up xs j n e).
Proof.
  intros H Hx Hh Hty Hb Hl He HC. pose proof (walks_handle _ _ _ _ _ H Hh) as Hlive. pose proof (pw_tree Hpre n Hlive Hty) as Hdir.
  pose proof Hdir as [D1 D2 D3]. pose proof Hh as (ip & Hj & Hn & Hr). destruct (wk_entry _ _ _ H j ip Hj) as [Hent Hlk].
  rewrite decide_True in Hlk by done. destruct Hlk as (_ & _ & Hv). destruct (Hent Hr) as (Hdev & _ & Hval). specialize (Hval Hv). rewrite Hn in Hval.
  assert (i_addrs ip = di_addrs (dinode_on_disk s0 n) ∧ i_size ip = di_size (dinode_on_disk s0 n) ∧ i_type ip = T_DIR) as (Ea & Es & Et).
  { rewrite <- Hty, <- Hval. done. }
  assert (∀ k, 0 ≤ k < i_size ip / DIRENT_SIZE → entry_is (blk s) ip name k = entry_named s0 n e k) as Hent_is.
  { intros k Hk. rewrite Es in Hk. rewrite <- (entry_is_named ip n name e k) by done.
    unfold entry_is. by rewrite (dir_entry_ext (blk s0) (blk s)) by apply H. }
  eapply wpc_mono; [eapply (dirlookup_ok me pid fuel Hfuel bl s j ip name C); try done|done|].
  - apply H.
  - apply file_ok_moved; [apply H|apply H|]. by apply (file_ok_same (inode_at s0 n)).
  - by rewrite Es.
  - by apply (walks_free xs (Some j)).
  - apply Hpre.
  - intros r s' Hpost. unfold looked_up. destruct r as [[j' off]|].
    + destruct Hpost as (k & s1 & _ & Hk & Hek & Hfst & Hrd & Hget). pose proof (walks_reads _ _ _ _ H Hrd) as H1.
      rewrite (dir_entry_ext (blk s0) (blk s)), (dir_entry_addrs _ (inode_at s0 n)) in Hget by (done || apply H).
      rewrite Hent_is in Hek by done. rewrite (lookup_name_first n e k (i_size ip / DIRENT_SIZE)); [|by rewrite Es|done|done|].
      2: { intros k' Hk'. rewrite <- Hent_is by lia. by apply Hfst. }
      rewrite Es in Hk. destruct (D3 k Hk) as [_ Hnz]. unfold entry_named in Hek. bool_prop. destruct Hnz as [Hlv Hnl]; [lia|].
      destruct (walks_iget xs (Some j) s1 _ j' s' H1 Hx Hlv Hget) as (W & Hh' & Hkeep). split.
      * apply Hkeep. apply (handle_table s); [by apply reads_itable with (1 := Hrd)|done].
      * exists j', off. split_and!; done.
    + destruct Hpost as [Hrd Hno]. pose proof (walks_reads _ _ _ _ H Hrd) as H1. split.
      * apply (handle_table s); [by apply reads_itable with (1 := Hrd)|done].
      * rewrite (lookup_name_none n e (i_size ip / DIRENT_SIZE)); [done|by rewrite Es|].
        intros k' Hk'. rewrite <- Hent_is by done. by apply Hno.
Qed.

(** ** The walk *)

Lemma walks_swap x y o s : walks [x; y] o s → walks [y; x] o s.
Proof. intros [H1 H2 H3 H4 H5 H6 H7 H8 H9]. split; try done. intros n. rewrite H8. simpl. lia. Qed.

Lemma walks_iunlockput xs s j n :
  walks (n :: xs) (Some j) s → (length xs ≤ 1)%nat → handle s j n → kept n →
  ∃ s', iunlockput fuel j s = Ret tt s' ∧ walks xs None s' ∧ ∀ j' n', handle s j' n' → n' ∈ xs → handle s' j' n'.
Proof.
  intros H Hx Hh Hk. pose proof Hh as (ip & Hj & _).
  destruct (walks_iunlock _ _ _ H ltac:(eauto)) as (s1 & Hrun1 & W1 & K1).
  destruct (walks_iput xs s1 j n W1 Hx (K1 _ _ Hh) Hk) as (s2 & Hrun2 & W2 & K2).
  exists s2. split; [|split; [done|intros j' n' Hh' Hin; by apply K2; [apply K1|]]].
  unfold iunlockput. by rewrite (bind_step _ _ _ _ _ Hrun1).
Qed.

Lemma skipelem_bytes path name rest name' :
  Forall (λ c, 0 ≤ c < 256) path → Forall (λ c, 0 ≤ c < 256) name → skipelem path name = Some (rest, name') →
  Forall (λ c, 0 ≤ c < 256) rest ∧ Forall (λ c, 0 ≤ c < 256) name'.
Proof.
  assert (∀ p, Forall (λ c, 0 ≤ c < 256) p → Forall (λ c, 0 ≤ c < 256) (skip_slashes p)) as Hsk.
  { induction 1; simpl; [done|]. case_test; [done|by constructor]. }
  intros Hp Hn. unfold skipelem. specialize (Hsk path Hp) as Hp'. destruct (skip_slashes path) as [|c p]; [done|].
  destruct (span_elem (c :: p)) as [e r] eqn:Es. apply span_elem_app in Es. rewrite Es in Hp'. apply Forall_app in Hp' as [He Hr].
  intros [= <- <-]. split; [by apply Hsk|]. unfold put_at.
  case_test; repeat apply Forall_app_2; try done; try (by apply Forall_take); try (by apply Forall_drop).
  repeat constructor; lia.
Qed.

(** The buffer [name] holds the element [e], cut to [DIRSIZ] characters. *)
Definition holds_name (name e : list Z) : Prop :=
  Forall (λ c, 0 ≤ c < 256) name ∧ length name = Z.to_nat DIRSIZ ∧ c_string name = take (Z.to_nat DIRSIZ) e.

(** The result for the elements [es] from the inode [n]. *)
Definition named (np : bool) (n : Z) (es : list (list Z)) (r : option nat * list Z) (s' : kstate) : Prop :=
  match (if np then parent_path s0 n es else walk_path s0 n es) with
  | Some n' => walks [n'] None s' ∧ (∃ j, r.1 = Some j ∧ handle s' j n') ∧ kept n' ∧
      (np = true → holds_name r.2 (default [] (last es)))
  | None => r.1 = None ∧ walks [] None s'
  end.

(** The walk ends in the directory [n], whose element [e] is not to be looked up or is not there. *)
Lemma named_none np n e es r s' :
  (di_type (dinode_on_disk s0 n) ≠ T_DIR ∨ (np = true → es ≠ []) ∧ lookup_name s0 n e = None) →
  r.1 = None → walks [] None s' → named np n (e :: es) r s'.
Proof.
  intros Hc Hr Hw. unfold named. rewrite parent_path_cons. cbn [walk_path].
  destruct (Z.eqb_spec (di_type (dinode_on_disk s0 n)) T_DIR) as [Et|Et]; [|by destruct np].
  destruct Hc as [Hc|[Hes Hl]]; [done|]. rewrite Hl. destruct np; [|done]. destruct es; [by destruct Hes|done].
Qed.

Lemma named_some np n e es n' r s' :
  di_type (dinode_on_disk s0 n) = T_DIR → (np = true → es ≠ []) → lookup_name s0 n e = Some n' →
  named np n' es r s' → named np n (e :: es) r s'.
Proof.
  intros Et Hes Hl. unfold named. rewrite parent_path_cons. cbn [walk_path]. rewrite Et, Hl, Z.eqb_refl. cbn [mbind option_bind].
  destruct np; [destruct es as [|e2 es]; [by destruct Hes|exact id]|]. destruct (walk_path s0 n' es); [|exact id]. intros (W & J & Kp & _). by split_and!.
Qed.

Lemma named_walk n es n' r s' :
  walk_path s0 n es = Some n' → named false n es r s' → walks [n'] None s' ∧ ∃ j, r.1 = Some j ∧ handle s' j n'.
Proof. unfold named. intros ->. tauto. Qed.

Lemma namex_loop_ok fl s ip path np name n :
  (length path < fl)%nat → walks [n] None s → handle s ip n → kept n → 0 ∉ path → Forall (λ c, 0 ≤ c < 256) path →
  Forall (λ c, 0 ≤ c < 256) name → length name = 14%nat →
  wpc (disk_env me) (λ d, d = k_disk s0) (namex_loop fuel fl ip path np name s) (named np n (elements path)).
Proof.
  revert s ip path name n. induction fl as [|fl IH]; intros s ip path name n Hf H Hh Hk H0 Hpb Hnb Hnl; [lia|].
  cbn [namex_loop]. pose proof (skipelem_correct path name H0 Hnl) as Hsk.
  destruct (skipelem path name) as [[rest name']|] eqn:Esk.
  - destruct Hsk as (e & es & Ee & Eer & Elast & Hc & Hnl' & _ & Hlen & H0').
    destruct (skipelem_bytes _ _ _ _ Hpb Hnb Esk) as [Hrb Hnb']. rewrite Ee.
    apply wpc_bind. eapply wpc_mono; [apply (walks_ilock [n] s ip n (λ d, d = k_disk s0)); [done|done|apply H]|done|].
    cbn beta. intros _ s1 [W1 K1]. pose proof (K1 _ _ Hh) as Hh1. pose proof Hh1 as (jp & Hj & Hn & Hr).
    destruct (wk_entry _ _ _ W1 ip jp Hj) as [Hent Hlk]. rewrite decide_True in Hlk by done. destruct Hlk as (_ & _ & Hv).
    destruct (Hent Hr) as (_ & _ & Hval). specialize (Hval Hv). rewrite Hn in Hval.
    assert (i_type jp = di_type (dinode_on_disk s0 n)) as Ety by (by rewrite <- Hval).
    destruct (walks_iunlockput [] s1 ip n W1 ltac:(simpl; lia) Hh1 Hk) as (s2 & Hrun2 & W2 & _).
    eapply wpc_step; [by apply geti_some|]. rewrite Ety. destruct (Z.eqb_spec (di_type (dinode_on_disk s0 n)) T_DIR) as [Et|Et]; cbn [negb].
    2: { eapply wpc_step; [exact Hrun2|]. unfold ret. cbn [wpc]. apply named_none; [by left|done|done]. }
    destruct (np && bool_decide (rest = []))%bool eqn:Estop.
    { apply andb_true_iff in Estop as [-> Er]. apply bool_decide_eq_true in Er. apply Elast in Er as ->.
      destruct (walks_iunlock _ _ _ W1 ltac:(eauto)) as (s3 & Hrun3 & W3 & K3).
      eapply wpc_step; [exact Hrun3|]. unfold ret. cbn [wpc]. unfold named. rewrite parent_path_cons, Et, Z.eqb_refl.
      split; [done|]. split; [exists ip; split; [done|by apply K3]|]. split; [done|]. intros _. split_and!; [exact Hnb'|exact Hnl'|exact Hc]. }
    assert (np = true → es ≠ []) as Hes.
    { intros -> ->. simpl in Estop. apply bool_decide_eq_false in Estop. by apply Estop, Elast. }
    apply wpc_bind. eapply wpc_mono; [apply (walks_dirlookup [n] s1 ip n name' e (λ d, d = k_disk s0)); try done; apply W1|done|].
    cbn beta. intros o s3 [Hh3 Hlook]. destruct (lookup_name s0 n e) as [n'|] eqn:El.
    + destruct Hlook as (j' & off & -> & W3 & Hh3' & Hnl3). apply walks_swap in W3.
      destruct (walks_iunlockput [n'] s3 ip n W3 ltac:(simpl; lia) Hh3 Hk) as (s4 & Hrun4 & W4 & K4).
      eapply wpc_step; [exact Hrun4|]. eapply wpc_mono; [apply (IH s4 j' rest name' n'); try done|done|].
      * lia.
      * apply K4; [done|by left].
      * by right.
      * cbn beta. rewrite Eer. intros r s5 Hr5. by eapply named_some.
    + destruct Hlook as [-> W3]. destruct (walks_iunlockput [] s3 ip n W3 ltac:(simpl; lia) Hh3 Hk) as (s4 & Hrun4 & W4 & _).
      eapply wpc_step; [exact Hrun4|]. unfold ret. cbn [wpc]. apply named_none; [right; done|done|done].
  - rewrite Hsk. destruct np.
    + destruct (walks_iput [] s ip n H ltac:(simpl; lia) Hh Hk) as (s2 & Hrun2 & W2 & _). eapply wpc_step; [exact Hrun2|]. by split.
    + unfold ret. cbn [wpc]. unfold named. cbn [walk_path]. split; [done|]. split; [by exists ip|]. by split.
Qed.

(** Where the walk of [path] starts: at the root, or at the working directory. *)
Definition starts_at (path : list Z) (n : Z) : Prop :=
  if bool_decide (head path = Some 47) then n = ROOTINO ∧ live s0 ROOTINO ∧ di_nlink (dinode_on_disk s0 ROOTINO) ≠ 0
  else ∃ p c, k_procs s0 !! me = Some p ∧ p_cwd p = Some c ∧ handle s0 c n.

Lemma walks_idup j n :
  handle s0 j n → ∃ s', idup j s0 = Ret j s' ∧ walks [n] None s' ∧ handle s' j n ∧ kept n.
Proof.
  intros Hh. pose proof Hh as (ip & Hj & Hn & Hr). pose proof (walks_max _ _ _ _ _ walks_refl ltac:(simpl; lia) Hj) as Hm.
  pose proof (walks_ref _ _ _ _ _ walks_refl Hj Hr) as Eref. simpl in Eref. pose proof (pw_refs Hpre (i_inum ip)).
  destruct (pw_entry Hpre j ip Hj) as [He Hl]. destruct (He Hr) as (Hdev & Hlive & Hval).
  pose proof (th_held _ _ _ (walks_thread _ _ _ walks_refl)) as Hheld.
  set (ip' := set_i_ref (i_ref ip + 1) ip).
  exists (set_k_itable (<[j := ip']> (k_itable s0)) s0). split_and!.
  - unfold idup. erewrite bind_step by (apply acquire_free; rewrite Hheld; apply not_elem_of_nil).
    erewrite bind_step. 2: { unfold bind, gets. cbn [rbind k_itable set_k_held]. rewrite Hj. reflexivity. }
    erewrite bind_step by reflexivity. erewrite bind_step by (apply release_held; simpl; by rewrite Hheld).
    unfold ret. f_equal. apply k_ext; try reflexivity; simpl; [by rewrite Hheld|unfold ip'; by rewrite s32_small by lia].
  - apply (walks_entry [] None _ _ s0 j ip); try done.
    + apply walks_refl.
    + apply itable_ok_ref; [apply Hpre|done|lia|lia].
    + intros m. simpl. unfold weight. cbn [i_dev i_inum i_ref set_i_ref ip']. rewrite Hdev, Hn. destruct (Z.eqb_spec n m) as [->|Hne].
      * rewrite bool_decide_eq_true_2 by done. lia.
      * rewrite bool_decide_eq_false_2 by naive_solver. lia.
  - exists ip'. cbn [k_itable set_k_itable]. rewrite list_lookup_insert_eq by (by eapply lookup_lt_Some). split_and!; [done|done|]. simpl. lia.
  - left. rewrite <- Hn. lia.
Qed.

Lemma namex_ok path np name n :
  starts_at path n → 0 ∉ path → Forall (λ c, 0 ≤ c < 256) path → Forall (λ c, 0 ≤ c < 256) name → length name = 14%nat →
  wpc (disk_env me) (λ d, d = k_disk s0) (namex fuel path np name s0) (named np n (elements path)).
Proof.
  intros Hst H0 Hpb Hnb Hnl. unfold namex, starts_at in *. case_bool_decide as Eh.
  - destruct Hst as (-> & Hlive & Hnlink). destruct (iget_returns s0 ROOTDEV ROOTINO) as (j & s1 & Hget); [by apply (walks_free [] None); [apply walks_refl|simpl; lia]|].
    destruct (walks_iget [] None s0 ROOTINO j s1 walks_refl ltac:(simpl; lia) Hlive Hget) as (W1 & Hh1 & _).
    eapply wpc_step; [exact Hget|]. apply namex_loop_ok; try done; [lia|by right].
  - destruct Hst as (p & c & Hp & Hc & Hh). destruct (walks_idup c n Hh) as (s1 & Hrun & W1 & Hh1 & Hk).
    pose proof (th_cur _ _ _ (walks_thread _ _ _ walks_refl)) as Hcur.
    eapply wpc_step.
    { erewrite bind_step. 2: { unfold curproc, myproc, gets, bind. cbn [rbind]. rewrite Hcur. reflexivity. }
      erewrite bind_step. 2: { unfold getp, gets, bind. cbn [rbind]. rewrite Hp. reflexivity. }
      rewrite Hc. erewrite bind_step by reflexivity. exact Hrun. }
    apply namex_loop_ok; try done; lia.
Qed.

End path.

(** ** What the theorem says *)

(** C12: [namex] follows a path as the file system means it.  From the root or the working
    directory, through every element in turn, it comes to the inode [walk_path] (or, for
    the parent, [parent_path] and the last element) gives, and to null exactly when an
    element is missing or is looked up in something that is not a directory, or a parent is
    asked of a path without elements.  It returns with one more reference to that inode
    and, on every way out, no other: each directory on the way is locked, searched,
    unlocked and put back.  It does not panic, and no block changes. *)
Theorem namex_correct me pid `{D : Device} fuel bl s path np name n :
  enough_fuel fuel → walk_pre me pid bl s → starts_at me s path n →
  0 ∉ path → Forall (λ c, 0 ≤ c < 256) path → Forall (λ c, 0 ≤ c < 256) name → length name = Z.to_nat DIRSIZ →
  wpc (disk_env me) (λ d, d = k_disk s) (namex fuel path np name s) (named me pid bl s np n (elements path)).
Proof. intros. by apply namex_ok. Qed.

(** ** The small file system again *)

(** A path to the root. *)
Definition demo_path : list Z := cstr "/.//..".

Lemma demo_walk : walk_path (fs_machine 1) 1 (elements demo_path) = Some 1.
Proof. vm_compute. reflexivity. Qed.

(** Its one inode is the root directory. *)
Lemma demo_live n : live (fs_machine 1) n → n = 1.
Proof.
  assert (Forall (λ n, di_type (dinode_on_disk (fs_machine 1) n) = 0) (seqZ 2 198)) as H.
  { apply (bool_decide_unpack _). vm_compute. exact I. }
  intros [Hin Hty]. change (1 ≤ n < 200) in Hin. destruct (decide (n = 1)) as [|Hne]; [done|exfalso]. apply Hty.
  apply (proj1 (Forall_forall _ _) H). apply elem_of_seqZ. lia.
Qed.

Lemma demo_root_live : live (fs_machine 1) 1 ∧ di_nlink (dinode_on_disk (fs_machine 1) 1) ≠ 0.
Proof. rewrite fs_machine_dinode. split; [split; [simpl; lia|by rewrite fs_machine_dinode]|done]. Qed.

Lemma demo_entries k :
  k ∈ [0; 1] → Forall (λ c, 0 ≤ c < 256) (de_name (dir_entry (blk (fs_machine 1)) (inode_at (fs_machine 1) 1) k)) ∧
    de_inum (dir_entry (blk (fs_machine 1)) (inode_at (fs_machine 1) 1) k) = 1.
Proof.
  revert k. apply Forall_forall. apply (bool_decide_unpack _). vm_compute. exact I.
Qed.

Lemma dir_ok_intro s n d :
  dinode_on_disk s n = d → file_ok s (inode_at s n) → di_size d mod DIRENT_SIZE = 0 →
  (∀ k, 0 ≤ k < di_size d / DIRENT_SIZE → Forall (λ c, 0 ≤ c < 256) (de_name (dir_entry (blk s) (inode_at s n) k)) ∧
    live s (de_inum (dir_entry (blk s) (inode_at s n) k)) ∧ di_nlink (dinode_on_disk s (de_inum (dir_entry (blk s) (inode_at s n) k))) ≠ 0) →
  dir_ok s n.
Proof.
  intros <- Hf Hm Hk. split; [done|done|]. intros k Hr. destruct (Hk k Hr) as (H1 & H2). by split_and!.
Qed.

Lemma demo_file : file_ok (fs_machine 1) (inode_at (fs_machine 1) 1).
Proof.
  apply (file_ok_same (fs_machine 1) (root_inode 1)); [| | |apply fs_machine_file]; unfold inode_at; by rewrite fs_machine_dinode.
Qed.

Lemma demo_tree : tree_ok (fs_machine 1).
Proof.
  intros n ->%demo_live _. apply (dir_ok_intro _ _ root_dinode); [apply fs_machine_dinode|apply demo_file|done|].
  change (di_size root_dinode / DIRENT_SIZE) with 2. intros k Hk.
  destruct (demo_entries k) as [Hb E]; [assert (k = 0 ∨ k = 1) as [-> | ->] by lia; set_solver|].
  split; [exact Hb|]. rewrite E. apply demo_root_live.
Qed.

Definition demo_table (t : list inode) : Prop := t = root_inode 1 :: replicate 49 zero_inode.

Lemma demo_refs t n : demo_table t → irefs t n < 2 ^ 31 - 3.
Proof.
  intros ->. rewrite irefs_cons, irefs_zero.
  - unfold weight. case_bool_decide; [|lia]. change (i_ref (root_inode 1)) with 1. lia.
  - intros i ip [-> _]%lookup_replicate_1. unfold weight. by case_bool_decide.
Qed.

Lemma demo_room t : demo_table t → (length (in_table t) + 2 ≤ length t)%nat.
Proof. intros ->. vm_compute. lia. Qed.

Lemma demo_entry_ok i ip :
  k_itable (fs_machine 1) !! i = Some ip → entry_ok (fs_machine 1) ip ∧ sl_locked (i_lock ip) = 0.
Proof.
  intros [[_ ->]| ->]%fs_machine_entry; (split; [|done]); intros Hr; [|done].
  split; [done|]. change (i_inum (root_inode 1)) with 1. split; [apply demo_root_live|]. intros _. by rewrite fs_machine_dinode.
Qed.

Lemma demo_walk_pre : walk_pre 0 3 [] (fs_machine 1).
Proof.
  assert (demo_table (k_itable (fs_machine 1))) as Ht by reflexivity.
  split.
  - apply fs_machine_op.
  - apply fs_machine_layout.
  - apply demo_tree.
  - apply (fs_machine_itable 1).
  - apply demo_entry_ok.
  - intros n. by apply demo_refs.
  - by apply demo_room.
  - apply Nat.lt_0_succ.
Qed.

Lemma demo_path_ok : starts_at 0 (fs_machine 1) demo_path 1 ∧ 0 ∉ demo_path ∧ Forall (λ c, 0 ≤ c < 256) demo_path.
Proof.
  split; [|split; apply (bool_decide_unpack _); vm_compute; exact I].
  unfold starts_at. rewrite bool_decide_eq_true_2 by done. split; [done|exact demo_root_live].
Qed.

Lemma namex_correct_witness :
  wpc (@disk_env qemu_disk 0) (λ d, d = k_disk (fs_machine 1)) (namex 2 demo_path false (replicate 14 0) (fs_machine 1))
    (λ r s', (∃ j, r.1 = Some j ∧ handle s' j 1) ∧ ∀ n, irefs (k_itable s') n = irefs (k_itable (fs_machine 1)) n + occ n [1]).
Proof.
  destruct demo_path_ok as (H1 & H2 & H3).
  eapply wpc_mono; [apply (@namex_correct 0 3 qemu_disk 2 [] (fs_machine 1) demo_path false (replicate 14 0) 1 (le_n 2) demo_walk_pre H1 H2 H3)|..].
  - apply Forall_replicate. lia.
  - reflexivity.
  - done.
  - intros r s' H. destruct (named_walk _ _ _ _ _ _ _ _ _ demo_walk H) as [W Hj]. split; [exact Hj|].
    apply (wk_refs _ _ _ _ _ _ _ W).
Defined.
