(* ===== verification/Mkfs.v ===== *)
(** * The file-system image builder

    [mkfs/mkfs.c], a program of the host: it writes an image of [FSSIZE] sectors with
    a super block, an empty log, the inodes and the contents of the files it is given,
    a root directory that names them, and the free map.

    The host is a parameter: its byte order, whether each [lseek], [read] and [write]
    on the image succeeds, whether the image can be created, and what reading an
    input file returns, call by call. *)

From Stdlib Require Import ZArith Lia.
From S2P Require Import Prelude Machine Kernel CString Printf Fs.

(** ** The program's state and its effects *)

Record image := mk_image {
  im_img : list (list Z);    (* the sectors of the image *)
  im_sb : superblock;        (* sb *)
  im_freeinode : Z;
  im_freeblock : Z;
  im_ios : nat               (* the calls on the image so far *)
}.

Definition set_img l s := mk_image l (im_sb s) (im_freeinode s) (im_freeblock s) (im_ios s).
Definition set_freeinode v s := mk_image (im_img s) (im_sb s) v (im_freeblock s) (im_ios s).
Definition set_freeblock v s := mk_image (im_img s) (im_sb s) (im_freeinode s) v (im_ios s).
Definition set_ios n s := mk_image (im_img s) (im_sb s) (im_freeinode s) (im_freeblock s) n.

(** A run goes on, calls [exit], fails an [assert], or (never, by
    [MkfsSpec.mkfs_correct]) runs out of the bound of a loop. *)
Inductive outcome (A : Type) :=
| Done (a : A) (s : image)
| Exit (code : Z) (s : image)
| Abort (s : image)
| Loop.
Arguments Done {A} a s.
Arguments Exit {A} code s.
Arguments Abort {A} s.
Arguments Loop {A}.

Definition MK (A : Type) := image → outcome A.

#[export] Instance MK_ret : MRet MK := λ A a s, Done a s.
#[export] Instance MK_bind : MBind MK := λ A B f m s,
  match m s with
  | Done a s' => f a s'
  | Exit c s' => Exit c s'
  | Abort s' => Abort s'
  | Loop => Loop
  end.

Definition get_st : MK image := λ s, Done s s.
Definition mod_st (f : image → image) : MK unit := λ s, Done tt (f s).
Definition mexit {A} (code : Z) : MK A := λ s, Exit code s.
Definition massert (b : bool) : MK unit := λ s, if b then Done tt s else Abort s.
Definition mloop {A} : MK A := λ _, Loop.

Fixpoint mseq {A} (l : list A) (f : A → MK unit) : MK unit :=
  match l with
  | [] => mret tt
  | x :: l' => _ ← f x; mseq l' f
  end.

(** [perror] and [exit(1)]. *)
Definition die {A} : MK A := mexit 1.

Section mkfs.
(** The host. *)
Variable le : bool.                               (* its byte order is little-endian *)
Variable io_ok : nat → bool.                      (* its calls on the image succeed *)
Variable img_opens : bool.                        (* the image can be created *)
Variable host_file : list Z → option (list (list Z)).  (* what reading a file returns, call by call *)

(** An integer object of the host, as its bytes. *)
Definition host_get (l : list Z) : Z := le_val (if le then l else rev l).
Definition host_put (n : nat) (v : Z) : list Z := if le then le_bytes n v else rev (le_bytes n v).

Definition xshort (x : Z) : Z := host_get [u8 x; u8 (Z.shiftr x 8)].
Definition xint (x : Z) : Z := host_get [u8 x; u8 (Z.shiftr x 8); u8 (Z.shiftr x 16); u8 (Z.shiftr x 24)].

(** Structures of the host in a buffer; their fields hold the values the host sees. *)
Definition host_at (n : nat) (l : list Z) (off : nat) : Z := host_get (take n (drop off l)).

Definition host_dinode (l : list Z) (off : nat) : dinode :=
  mk_dinode (s16 (host_at 2 l off)) (s16 (host_at 2 l (off + 2))) (s16 (host_at 2 l (off + 4))) (s16 (host_at 2 l (off + 6)))
    (host_at 4 l (off + 8)) ((λ k, host_at 4 l (off + 12 + 4 * k)) <$> seq 0 13).

Definition host_dinode_bytes (d : dinode) : list Z :=
  host_put 2 (di_type d) ++ host_put 2 (di_major d) ++ host_put 2 (di_minor d) ++ host_put 2 (di_nlink d) ++
  host_put 4 (di_size d) ++ concat (host_put 4 <$> di_addrs d).

Definition host_dirent_bytes (d : dirent) : list Z := host_put 2 (de_inum d) ++ de_name d.

Definition host_sb_bytes (x : superblock) : list Z :=
  concat (host_put 4 <$> [sb_magic x; sb_size x; sb_nblocks x; sb_ninodes x; sb_nlog x; sb_logstart x; sb_inodestart x;
                          sb_bmapstart x]).

(** ** Sectors *)

Definition zeroes : list Z := replicate (Z.to_nat BSIZE) 0.

(** One call on the image. *)
Definition image_io : MK unit :=
  s ← get_st;
  _ ← mod_st (set_ios (S (im_ios s)));
  if io_ok (im_ios s) then mret tt else die.

(** The sector at the position [sec * BSIZE], an unsigned product. *)
Definition sector (sec : Z) : nat := Z.to_nat (u32 (sec * BSIZE) / BSIZE).

(** Writing past the end of a file extends it, with zeros before what is written. *)
Definition write_sector (k : nat) (buf : list Z) (l : list (list Z)) : list (list Z) :=
  if decide (k < length l)%nat then <[k := buf]> l
  else l ++ replicate (k - length l) zeroes ++ [buf].

Definition wsect (sec : Z) (buf : list Z) : MK unit :=
  _ ← image_io;
  _ ← image_io;
  mod_st (λ s, set_img (write_sector (sector sec) buf (im_img s)) s).

Definition rsect (sec : Z) : MK (list Z) :=
  _ ← image_io;
  _ ← image_io;
  s ← get_st;
  match im_img s !! sector sec with
  | Some buf => mret buf
  | None => die
  end.

(** ** Inodes *)

Definition mk_iblock (inum : Z) : MK Z :=
  s ← get_st;
  mret (u32 (inum / IPB + sb_inodestart (im_sb s))).

Definition winode (inum : Z) (ip : dinode) : MK unit :=
  bn ← mk_iblock inum;
  buf ← rsect bn;
  wsect bn (put_at (dinode_off inum) (host_dinode_bytes ip) buf).

Definition rinode (inum : Z) : MK dinode :=
  bn ← mk_iblock inum;
  buf ← rsect bn;
  mret (host_dinode buf (dinode_off inum)).

Definition mkfs_ialloc (type : Z) : MK Z :=
  s ← get_st;
  let inum := im_freeinode s in
  _ ← mod_st (set_freeinode (u32 (inum + 1)));
  _ ← winode inum (mk_dinode (s16 (xshort type)) 0 0 (s16 (xshort 1)) (xint 0) (replicate 13 0));
  mret inum.

Definition mkfs_balloc (used : Z) : MK unit :=
  _ ← massert (used <? BSIZE * 8);
  let buf := foldl (λ buf i, set_bit buf i) zeroes (seqZ 0 used) in
  s ← get_st;
  wsect (sb_bmapstart (im_sb s)) buf.

(** ** Appending to a file *)

(** [freeblock++] *)
Definition next_block : MK Z :=
  s ← get_st;
  _ ← mod_st (set_freeblock (u32 (im_freeblock s + 1)));
  mret (im_freeblock s).

Definition din_addr (din : dinode) (k : Z) : Z := default 0 (di_addrs din !! Z.to_nat k).
Definition set_din_addr (k v : Z) (din : dinode) : dinode :=
  mk_dinode (di_type din) (di_major din) (di_minor din) (di_nlink din) (di_size din) (<[Z.to_nat k := v]> (di_addrs din)).
Definition set_din_size (v : Z) (din : dinode) : dinode :=
  mk_dinode (di_type din) (di_major din) (di_minor din) (di_nlink din) v (di_addrs din).

(** [if(xint(din.addrs[k]) == 0) din.addrs[k] = xint(freeblock++);] *)
Definition need_addr (din : dinode) (k : Z) : MK dinode :=
  if xint (din_addr din k) =? 0 then b ← next_block; mret (set_din_addr k (xint b) din) else mret din.

(** The block of the file at block number [fbn]: the body of the loop up to [x]. *)
Definition mk_bmap (din : dinode) (fbn : Z) : MK (dinode * Z) :=
  if fbn <? NDIRECT then
    din ← need_addr din fbn;
    mret (din, xint (din_addr din fbn))
  else
    din ← need_addr din NDIRECT;
    indirect ← rsect (xint (din_addr din NDIRECT));
    let k := Z.to_nat (4 * (fbn - NDIRECT)) in
    indirect ← (if host_at 4 indirect k =? 0 then
                  b ← next_block;
                  let indirect := put_at k (host_put 4 (xint b)) indirect in
                  _ ← wsect (xint (din_addr din NDIRECT)) indirect;
                  mret indirect
                else mret indirect);
    mret (din, xint (host_at 4 indirect k)).

Fixpoint iappend_loop (fl : nat) (din : dinode) (off : Z) (p : list Z) : MK (dinode * Z) :=
  match fl with
  | O => mloop
  | S f =>
      let n := Z.of_nat (length p) in
      if 0 <? n then
        let fbn := off / BSIZE in
        _ ← massert (fbn <? MAXFILE);
        r ← mk_bmap din fbn;
        let n1 := Z.min n (u32 ((fbn + 1) * BSIZE - off)) in
        buf ← rsect r.2;
        _ ← wsect r.2 (put_at (Z.to_nat (off - fbn * BSIZE)) (take (Z.to_nat n1) p) buf);
        iappend_loop f r.1 (u32 (off + n1)) (drop (Z.to_nat n1) p)
      else mret (din, off)
  end.

(** A round of the loop takes at least one byte. *)
Definition iappend (inum : Z) (p : list Z) : MK unit :=
  din ← rinode inum;
  r ← iappend_loop (S (length p)) din (xint (di_size din)) p;
  winode inum (set_din_size (xint r.2) r.1).

(** ** The program *)

(** [strcpy(de.name, s)] into a zeroed entry. *)
Definition zero_name (s : string) : list Z := put_at 0 (cstr s ++ [0]) (replicate (Z.to_nat DIRSIZ) 0).

(** [argv[i]] without [user/] and, for the file system, without a leading [_]. *)
Definition shortname (arg : list Z) : list Z :=
  if strncmp (buf_mem arg) 0 (buf_mem (cstr "user/")) 0 5 =? 0 then drop 5 arg else arg.

Definition fsname (short : list Z) : list Z :=
  match short with
  | c :: s => if c =? 95 then s else short
  | [] => []
  end.

Definition add_file (rootino : Z) (arg : list Z) : MK unit :=
  let short := shortname arg in
  _ ← massert (bool_decide (47 ∉ short));
  match host_file arg with
  | None => die
  | Some chunks =>
      inum ← mkfs_ialloc T_FILE;
      _ ← iappend rootino (host_dirent_bytes (mk_dirent (xshort inum) (strncpy_name (fsname short))));
      mseq chunks (λ buf, iappend inum buf)
  end.

Definition NINODES : Z := 200.
Definition nbitmap : Z := FSSIZE / (BSIZE * 8) + 1.
Definition ninodeblocks : Z := NINODES / IPB + 1.
Definition nlog : Z := LOGSIZE.
Definition nmeta : Z := 2 + nlog + ninodeblocks + nbitmap.
Definition nblocks : Z := FSSIZE - nmeta.

Definition mkfs_sb : superblock :=
  mk_sb FSMAGIC (xint FSSIZE) (xint nblocks) (xint NINODES) (xint nlog) (xint 2) (xint (2 + nlog)) (xint (2 + nlog + ninodeblocks)).

(** What is in memory before [main]. *)
Definition mkfs_start : image := mk_image [] (mk_sb 0 0 0 0 0 0 0 0) 1 0 0.

Definition fix_root_size (rootino : Z) : MK unit :=
  din ← rinode rootino;
  let off := xint (di_size din) in
  let off := u32 ((off / BSIZE + 1) * BSIZE) in
  winode rootino (set_din_size (xint off) din).

Definition mkfs_main (argv : list (list Z)) : MK unit :=
  if Z.of_nat (length argv) <? 2 then mexit 1
  else if negb img_opens then die
  else
    _ ← mod_st (λ s, mk_image (im_img s) mkfs_sb (im_freeinode s) nmeta (im_ios s));
    _ ← mseq (seqZ 0 FSSIZE) (λ i, wsect i zeroes);
    _ ← wsect 1 (put_at 0 (host_sb_bytes mkfs_sb) zeroes);
    rootino ← mkfs_ialloc T_DIR;
    _ ← massert (rootino =? ROOTINO);
    _ ← iappend rootino (host_dirent_bytes (mk_dirent (xshort rootino) (zero_name ".")));
    _ ← iappend rootino (host_dirent_bytes (mk_dirent (xshort rootino) (zero_name "..")));
    _ ← mseq (drop 2 argv) (add_file rootino);
    _ ← fix_root_size rootino;
    s ← get_st;
    _ ← mkfs_balloc (im_freeblock s);
    mexit 0.

End mkfs.
