(* ===== verification/MkfsSpec.v ===== *)
(** * The image mkfs builds

    On a little-endian host [mkfs] builds an image on which the kernel's file system
    is well-formed, with the files it was given. *)

From Stdlib Require Import ZArith Lia.
From S2P Require Import Prelude Machine Kernel CString Printf Fs Mkfs.
From S2P Require Import Boot Kalloc Vm ProcTable Seq Sleeplock Virtio Bio Log Crash Trans File FsData FsAlloc FsSpec FsWrite FsDir.

(** ** Integers of a little-endian host *)

Lemma xint_le x : xint true x = u32 x.
Proof.
  unfold xint, host_get. cbn [le_val]. unfold u8, u32. rewrite !Z.shiftr_div_pow2 by lia.
  change (2 ^ 8) with 256. change (2 ^ 16) with (256 * 256). change (2 ^ 24) with (256 * 256 * 256).
  rewrite <- !Z.div_div by lia. zarith.
Qed.

Lemma xshort_le x : xshort true x = u16 x.
Proof.
  unfold xshort, host_get. cbn [le_val]. unfold u8, u16. rewrite !Z.shiftr_div_pow2 by lia. change (2 ^ 8) with 256. zarith.
Qed.

Lemma host_dinode_le l off : host_dinode true l off = get_dinode l off.
Proof. done. Qed.

Lemma concat_addr_bytes l : concat (host_put true 4 <$> l) = addr_bytes l.
Proof. induction l as [|x l IH]; [done|]. cbn [fmap list_fmap concat addr_bytes]. rewrite <- IH. done. Qed.

Lemma host_dinode_bytes_le d : host_dinode_bytes true d = dinode_bytes d.
Proof. unfold host_dinode_bytes, dinode_bytes. rewrite concat_addr_bytes. done. Qed.

Lemma host_dirent_bytes_le d : host_dirent_bytes true d = dirent_bytes d.
Proof. done. Qed.

#[local] Arguments host_put : simpl never.
#[local] Arguments host_at : simpl never.
#[local] Arguments put_at : simpl never.

(** ** Runs *)

(** Byte order aside, the host is any host; [total] is the number of blocks the files
    need, those of the file system included. *)
Section spec.
Context (io_ok : nat → bool) (host_file : list Z → option (list (list Z))) (total : Z).

(** A run that goes on satisfies [Q]; it stops early only when a call on the image
    failed or the files do not fit. *)
Definition excused : Prop := (∃ n, io_ok n = false) ∨ FSSIZE < total.

Definition run {A} (r : outcome A) (Q : A → image → Prop) : Prop :=
  match r with
  | Done a s => Q a s
  | Exit c _ => c = 1 ∧ excused
  | Abort _ | Loop => False
  end.

Lemma run_bind {A B} (m : MK A) (f : A → MK B) s Q :
  run (m s) (λ a s', run (f a s') Q) → run (mbind f m s) Q.
Proof. unfold mbind, MK_bind. by destruct (m s). Qed.

Lemma run_mono {A} (r : outcome A) (Q Q' : A → image → Prop) :
  run r Q → (∀ a s, Q a s → Q' a s) → run r Q'.
Proof. destruct r; simpl; auto. Qed.

(** The contents of a sector. *)
Definition sec (s : image) (m : Z) : option (list Z) := if m <? 0 then None else im_img s !! Z.to_nat m.

(** Only the sectors may differ. *)
Definition img_frame (s s' : image) : Prop :=
  im_sb s' = im_sb s ∧ im_freeinode s' = im_freeinode s ∧ im_freeblock s' = im_freeblock s ∧
  length (im_img s') = length (im_img s).

Lemma image_io_run s Q : (∀ s', img_frame s s' → im_img s' = im_img s → Q tt s') → run (image_io io_ok s) Q.
Proof.
  intros HQ. unfold image_io. apply run_bind. simpl. apply run_bind. simpl.
  destruct (io_ok (im_ios s)) eqn:E; simpl; [by apply HQ|]. split; [done|]. left. eauto.
Qed.

Lemma sector_small x : 0 ≤ x < 4194304 → sector x = Z.to_nat x.
Proof. intros H. unfold sector, BSIZE. rewrite u32_small by lia. by rewrite Z.div_mul. Qed.

Lemma wsect_run s x buf Q :
  0 ≤ x < Z.of_nat (length (im_img s)) → Z.of_nat (length (im_img s)) ≤ FSSIZE →
  (∀ s', img_frame s s' → (∀ m, sec s' m = if decide (m = x) then Some buf else sec s m) → Q tt s') →
  run (wsect io_ok x buf s) Q.
Proof.
  intros Hx Hl HQ. unfold FSSIZE in Hl. unfold wsect. apply run_bind, image_io_run. intros s1 (E1 & E2 & E3 & E4) Ei.
  apply run_bind, image_io_run. intros s2 (F1 & F2 & F3 & F4) Fi. simpl.
  rewrite sector_small by lia. unfold write_sector. rewrite decide_True by lia. apply HQ.
  - unfold img_frame. simpl. rewrite length_insert. by rewrite F1, F2, F3, F4, E1, E2, E3.
  - intros m. unfold sec. simpl. rewrite Fi, Ei. destruct (Z.ltb_spec m 0); [by rewrite decide_False by lia|].
    rewrite list_lookup_insert. destruct (decide (m = x)) as [->|Hne]; [by rewrite decide_True by lia|].
    rewrite decide_False; [done|]. lia.
Qed.

Lemma rsect_run s x Q :
  0 ≤ x < 4194304 → (sec s x = None → FSSIZE < total) →
  (∀ buf s', img_frame s s' → im_img s' = im_img s → sec s x = Some buf → Q buf s') →
  run (rsect io_ok x s) Q.
Proof.
  intros Hx Hn HQ. unfold rsect. apply run_bind, image_io_run. intros s1 (E1 & E2 & E3 & E4) Ei.
  apply run_bind, image_io_run. intros s2 (F1 & F2 & F3 & F4) Fi. apply run_bind. simpl.
  rewrite sector_small, Fi, Ei by lia. unfold sec in *. rewrite (proj2 (Z.ltb_ge x 0)) in * by lia.
  destruct (im_img s !! Z.to_nat x) as [buf|] eqn:E; simpl.
  - apply HQ; [|congruence|done]. unfold img_frame. by rewrite F1, F2, F3, F4, E1, E2, E3.
  - split; [done|]. right. by apply Hn.
Qed.

Lemma massert_run b s Q : b = true → Q tt s → run (massert b s) Q.
Proof. by intros ->. Qed.

(** ** What the program maintains *)

Definition the_sb : superblock := mk_sb FSMAGIC 2000 1954 200 30 2 32 45.

Lemma the_sb_ok : mkfs_sb true = the_sb.
Proof. reflexivity. Qed.

(** An on-disk inode as the file lemmas take it. *)
Definition inode_of (d : dinode) : inode := set_i_dev ROOTDEV (load_inode d zero_inode).

Lemma dinode_inode d : dinode_of (inode_of d) = d.
Proof. by destruct d. Qed.

Definition zero_dinode : dinode := mk_dinode 0 0 0 0 0 (replicate 13 0).

Definition dinode_at (s : image) (j : Z) : dinode := get_dinode (default [] (sec s (32 + j / IPB))) (dinode_off j).

Definition nblock (s : image) : Z := im_freeblock s.

(** A file whose blocks are data blocks below [hi]. *)
Record good (B : Z → option (list Z)) (d : dinode) (hi : Z) : Prop := {
  gd_typed : dinode_typed d;
  gd_size : 0 ≤ di_size d ≤ MAXFILE * BSIZE;
  gd_own n : owns B (inode_of d) n → 46 ≤ n < hi;
  gd_inj bn bn' n : 0 ≤ bn → 0 ≤ bn' → file_addr B (inode_of d) bn = Some n → file_addr B (inode_of d) bn' = Some n → bn = bn';
  gd_ind bn n : 0 ≤ bn → file_addr B (inode_of d) bn = Some n → file_ind (inode_of d) ≠ Some n;
  gd_full bn : 0 ≤ bn → bn * BSIZE < di_size d → is_Some (file_addr B (inode_of d) bn)
}.

(** [cur] are the inodes as the program has them; the one it works on may not be
    written yet. *)
Record mkfs_inv (s : image) (cur : Z → dinode) : Prop := {
  v_len : length (im_img s) = 2000%nat;
  v_blk m : 0 ≤ m < 2000 → ∃ data, sec s m = Some data ∧ length data = 1024%nat;
  v_sb : im_sb s = the_sb;
  v_fb : 46 ≤ im_freeblock s ≤ 2000;
  v_fi : 1 ≤ im_freeinode s ≤ 200;
  v_good j : 1 ≤ j < im_freeinode s → good (sec s) (cur j) (im_freeblock s);
  v_disj j j' n : 1 ≤ j < im_freeinode s → 1 ≤ j' < im_freeinode s →
    owns (sec s) (inode_of (cur j)) n → owns (sec s) (inode_of (cur j')) n → j = j';
  v_zero m : im_freeblock s ≤ m < 2000 → sec s m = Some zero_block;
  v_meta m : m = 0 ∨ 2 ≤ m < 32 ∨ m = 45 → sec s m = Some zero_block;
  v_super : sec s 1 = Some (put_at 0 (host_sb_bytes true the_sb) zero_block);
  v_rest j : im_freeinode s ≤ j < 200 → dinode_at s j = zero_dinode
}.

Definition upd (cur : Z → dinode) (i : Z) (d : dinode) (j : Z) : dinode := if decide (j = i) then d else cur j.

(** From [s] to [s'] the file [i] has grown: it keeps its blocks, new ones come from
    the free ones, and no sector but its own and the new ones changes. *)
Record moved (i : Z) (s : image) (d : dinode) (s' : image) (d' : dinode) : Prop := {
  mv_sb : im_sb s' = im_sb s;
  mv_fi : im_freeinode s' = im_freeinode s;
  mv_fb : im_freeblock s ≤ im_freeblock s' ≤ 2000;
  mv_len : length (im_img s') = length (im_img s);
  mv_data m : 0 ≤ m < 2000 → ∃ data, sec s' m = Some data ∧ length data = 1024%nat;
  mv_keep m : ¬ owns (sec s) (inode_of d) m → ¬ (im_freeblock s ≤ m < im_freeblock s') → sec s' m = sec s m;
  mv_only : d' = mk_dinode (di_type d) (di_major d) (di_minor d) (di_nlink d) (di_size d) (di_addrs d');
  mv_addr bn n : 0 ≤ bn → file_addr (sec s) (inode_of d) bn = Some n → file_addr (sec s') (inode_of d') bn = Some n;
  mv_ind n : file_ind (inode_of d) = Some n → file_ind (inode_of d') = Some n;
  mv_own n : owns (sec s') (inode_of d') n → owns (sec s) (inode_of d) n ∨ im_freeblock s ≤ n < im_freeblock s';
  mv_good : good (sec s') d' (im_freeblock s')
}.

Lemma moved_owns i s d s' d' n : moved i s d s' d' → owns (sec s) (inode_of d) n → owns (sec s') (inode_of d') n.
Proof.
  intros Hm [(bn & H0 & H)|H]; [left; exists bn; split; [done|]; by apply (mv_addr _ _ _ _ _ Hm)|right; by apply (mv_ind _ _ _ _ _ Hm)].
Qed.

Lemma moved_trans i s1 d1 s2 d2 s3 d3 : moved i s1 d1 s2 d2 → moved i s2 d2 s3 d3 → moved i s1 d1 s3 d3.
Proof.
  intros A B. pose proof (mv_fb _ _ _ _ _ A). pose proof (mv_fb _ _ _ _ _ B). split.
  - rewrite (mv_sb _ _ _ _ _ B). apply A.
  - rewrite (mv_fi _ _ _ _ _ B). apply A.
  - lia.
  - rewrite (mv_len _ _ _ _ _ B). apply A.
  - apply B.
  - intros m Ho Hr. rewrite (mv_keep _ _ _ _ _ B); [apply (mv_keep _ _ _ _ _ A); [done|lia]| |lia].
    intros [Ho'|Hr']%(mv_own _ _ _ _ _ A); [done|lia].
  - rewrite (mv_only _ _ _ _ _ B), (mv_only _ _ _ _ _ A). done.
  - intros bn n Hbn Hn. by apply (mv_addr _ _ _ _ _ B), (mv_addr _ _ _ _ _ A).
  - intros n Hn. by apply (mv_ind _ _ _ _ _ B), (mv_ind _ _ _ _ _ A).
  - intros n [[Hn|Hn]%(mv_own _ _ _ _ _ A)|Hn]%(mv_own _ _ _ _ _ B); [by left|right; lia|right; lia].
  - apply B.
Qed.

(** What a file sees of another's growth: nothing. *)
Lemma other_file B B' d : (∀ n, owns B (inode_of d) n → B' n = B n) →
  (∀ bn, file_addr B' (inode_of d) bn = file_addr B (inode_of d) bn) ∧
  (∀ n, owns B' (inode_of d) n ↔ owns B (inode_of d) n) ∧
  (∀ k, 0 ≤ k → file_get B' (inode_of d) k = file_get B (inode_of d) k).
Proof.
  intros H. assert (∀ bn, file_addr B' (inode_of d) bn = file_addr B (inode_of d) bn) as Ha.
  { intros bn. apply file_addr_same. intros n Hn. apply H. by right. }
  split_and!; [done|intros n; unfold owns; by setoid_rewrite Ha|].
  intros k Hk. destruct (file_addr B (inode_of d) (k / BSIZE)) as [n|] eqn:En.
  - rewrite !(file_get_addr _ _ _ n) by (by rewrite ?Ha). rewrite H; [done|]. left. exists (k / BSIZE).
    split; [by apply Z.div_pos|done].
  - by rewrite !file_get_hole by (by rewrite ?Ha).
Qed.

Lemma good_other B B' d hi hi' : (∀ n, owns B (inode_of d) n → B' n = B n) → hi ≤ hi' → good B d hi → good B' d hi'.
Proof.
  intros H Hle [H1 H2 H3 H4 H5 H6]. destruct (other_file B B' d H) as (Ha & Ho & _). split; try done.
  - intros n Hn%Ho. specialize (H3 n Hn). lia.
  - intros bn bn' n. rewrite !Ha. apply H4.
  - intros bn n. rewrite Ha. apply H5.
  - intros bn. rewrite Ha. apply H6.
Qed.

Lemma moved_other i s d s' d' cur j n :
  mkfs_inv s cur → 1 ≤ i < im_freeinode s → cur i = d → moved i s d s' d' → 1 ≤ j < im_freeinode s → j ≠ i →
  owns (sec s) (inode_of (cur j)) n → sec s' n = sec s n.
Proof.
  intros Hv Hi <- Hm Hj Hne Ho. apply (mv_keep _ _ _ _ _ Hm).
  - intros Ho'. apply Hne. by eapply v_disj.
  - pose proof (gd_own _ _ _ (v_good _ _ Hv j Hj) n Ho). lia.
Qed.

Lemma moved_low i s d s' d' cur m :
  mkfs_inv s cur → 1 ≤ i < im_freeinode s → cur i = d → moved i s d s' d' → 0 ≤ m < 46 → sec s' m = sec s m.
Proof.
  intros Hv Hi <- Hm Hr. pose proof (v_fb _ _ Hv). apply (mv_keep _ _ _ _ _ Hm); [|lia].
  intros Ho. pose proof (gd_own _ _ _ (v_good _ _ Hv i Hi) m Ho). lia.
Qed.

Lemma moved_inv i s d s' d' cur :
  mkfs_inv s cur → 1 ≤ i < im_freeinode s → cur i = d → moved i s d s' d' → mkfs_inv s' (upd cur i d').
Proof.
  intros Hv Hi Hc Hm. pose proof (mv_fb _ _ _ _ _ Hm) as Hfb. pose proof (v_fb _ _ Hv) as Hfb0.
  assert (∀ m, 0 ≤ m < 46 → sec s' m = sec s m) as Hlow by (intros m; by apply (moved_low i s d s' d' cur)).
  assert (∀ j, 1 ≤ j < im_freeinode s → j ≠ i → ∀ n, owns (sec s) (inode_of (cur j)) n → sec s' n = sec s n) as Hother.
  { intros j Hj Hne n. by apply (moved_other i s d s' d' cur j n). }
  assert (∀ j n, 1 ≤ j < im_freeinode s → j ≠ i → owns (sec s') (inode_of (cur j)) n → owns (sec s) (inode_of (cur j)) n) as Hoo.
  { intros j n Hj Hne. by apply (other_file _ _ _ (Hother j Hj Hne)). }
  split; rewrite ?(mv_sb _ _ _ _ _ Hm), ?(mv_fi _ _ _ _ _ Hm), ?(mv_len _ _ _ _ _ Hm); try apply Hv.
  - apply (mv_data _ _ _ _ _ Hm).
  - lia.
  - intros j Hj. unfold upd. case_decide as E; [apply Hm|].
    eapply good_other; [by apply (Hother j Hj)|apply Hfb|by apply (v_good _ _ Hv)].
  - intros j j' n Hj Hj'. unfold upd. case_decide as E; case_decide as E'; subst; try done.
    + intros Ho Ho'%Hoo; try done. apply (mv_own _ _ _ _ _ Hm) in Ho as [Ho|Hr]; [by eapply v_disj|].
      pose proof (gd_own _ _ _ (v_good _ _ Hv j' Hj') n Ho'). lia.
    + intros Ho%Hoo Ho'; try done. apply (mv_own _ _ _ _ _ Hm) in Ho' as [Ho'|Hr]; [by eapply v_disj|].
      pose proof (gd_own _ _ _ (v_good _ _ Hv j Hj) n Ho). lia.
    + intros Ho%Hoo Ho'%Hoo; try done. by eapply v_disj.
  - intros m Hr. rewrite (mv_keep _ _ _ _ _ Hm); [apply (v_zero _ _ Hv); lia| |lia].
    rewrite <- Hc. intros Ho. pose proof (gd_own _ _ _ (v_good _ _ Hv i Hi) m Ho). lia.
  - intros m Hr. rewrite Hlow by lia. by apply (v_meta _ _ Hv).
  - rewrite Hlow by lia. apply Hv.
  - intros j Hj. unfold dinode_at. rewrite Hlow; [by apply (v_rest _ _ Hv)|].
    pose proof (v_fi _ _ Hv). unfold IPB, BSIZE, DINODE_SIZE. change (1024 / 64) with 16.
    assert (0 ≤ j / 16 < 13) by (split; [apply Z.div_pos|apply Z.div_lt_upper_bound]; lia). lia.
Qed.

(** The first free block joins a file, as block [bn] or as its indirect block. *)
Record joined (s : image) (d : dinode) (slot : option Z) (s' : image) (d' : dinode) : Prop := {
  jn_sb : im_sb s' = im_sb s;
  jn_fi : im_freeinode s' = im_freeinode s;
  jn_fb : im_freeblock s' = im_freeblock s + 1;
  jn_room : im_freeblock s < 2000;
  jn_len : length (im_img s') = length (im_img s);
  jn_data m : 0 ≤ m < 2000 → ∃ data, sec s' m = Some data ∧ length data = 1024%nat;
  jn_keep m : file_ind (inode_of d') ≠ Some m → sec s' m = sec s m;
  jn_only : d' = mk_dinode (di_type d) (di_major d) (di_minor d) (di_nlink d) (di_size d) (di_addrs d');
  jn_typed : dinode_typed d';
  jn_addr bn : 0 ≤ bn → file_addr (sec s') (inode_of d') bn =
    if decide (slot = Some bn) then Some (im_freeblock s) else file_addr (sec s) (inode_of d) bn;
  jn_none bn : slot = Some bn → 0 ≤ bn ∧ file_addr (sec s) (inode_of d) bn = None;
  jn_ind : file_ind (inode_of d') = match slot with Some _ => file_ind (inode_of d) | None => Some (im_freeblock s) end;
  jn_noind : slot = None → file_ind (inode_of d) = None
}.

Section joined.
Context (i : Z) (s : image) (cur : Z → dinode) (d : dinode) (slot : option Z) (s' : image) (d' : dinode).
Hypothesis Hv : mkfs_inv s cur.
Hypothesis Hi : 1 ≤ i < im_freeinode s.
Hypothesis Hc : cur i = d.
Hypothesis HJ : joined s d slot s' d'.

Lemma jn_good : good (sec s) d (im_freeblock s).
Proof using Hv Hi Hc. rewrite <- Hc. by apply (v_good _ _ Hv). Qed.

Lemma joined_own n : owns (sec s') (inode_of d') n → owns (sec s) (inode_of d) n ∨ n = im_freeblock s.
Proof using HJ.
  intros [(bn & H0 & Ha)|Hn].
  - rewrite (jn_addr _ _ _ _ _ HJ) in Ha by done. case_decide; [right; by injection Ha|]. left. left. eauto.
  - rewrite (jn_ind _ _ _ _ _ HJ) in Hn. destruct slot; [left; by right|]. right. by injection Hn.
Qed.

Lemma joined_addr bn n : 0 ≤ bn → file_addr (sec s) (inode_of d) bn = Some n → file_addr (sec s') (inode_of d') bn = Some n.
Proof using HJ.
  intros H0 Ha. rewrite (jn_addr _ _ _ _ _ HJ) by done. case_decide as E; [|done].
  destruct (jn_none _ _ _ _ _ HJ bn E) as [_ En]. congruence.
Qed.

Lemma joined_new bn n : 0 ≤ bn → slot ≠ Some bn → file_addr (sec s') (inode_of d') bn = Some n → file_addr (sec s) (inode_of d) bn = Some n.
Proof using HJ. intros H0 Hne Ha. rewrite (jn_addr _ _ _ _ _ HJ) in Ha by done. by rewrite decide_False in Ha. Qed.

Lemma joined_ind n : file_ind (inode_of d) = Some n → file_ind (inode_of d') = Some n.
Proof using HJ.
  intros Hn. rewrite (jn_ind _ _ _ _ _ HJ). destruct slot eqn:E; [done|].
  rewrite (jn_noind _ _ _ _ _ HJ eq_refl) in Hn. done.
Qed.

Lemma joined_moved : moved i s d s' d'.
Proof using Hv Hi Hc HJ.
  pose proof jn_good as Hg. pose proof (jn_fb _ _ _ _ _ HJ) as Hfb. pose proof (jn_room _ _ _ _ _ HJ) as Hroom.
  pose proof (v_fb _ _ Hv) as Hfb0.
  assert (∀ n, owns (sec s) (inode_of d) n → n < im_freeblock s) as Hlt by (intros n Hn; apply (gd_own _ _ _ Hg n Hn)).
  split; try apply HJ.
  - lia.
  - intros m Ho Hr. apply (jn_keep _ _ _ _ _ HJ). rewrite (jn_ind _ _ _ _ _ HJ). destruct slot; [intros H; apply Ho; by right|].
    intros [= E]. lia.
  - apply joined_addr.
  - apply joined_ind.
  - intros n [Hn| ->]%joined_own; [by left|right; lia].
  - destruct Hg as [G1 G2 G3 G4 G5 G6]. split.
    + apply HJ.
    + rewrite (jn_only _ _ _ _ _ HJ). done.
    + intros n [Hn%G3| ->]%joined_own; lia.
    + intros bn bn' n H0 H0'. rewrite !(jn_addr _ _ _ _ _ HJ) by done. repeat case_decide; intros A A'; [congruence|injection A as <-|injection A' as <-|by eapply G4];
        assert (owns (sec s) (inode_of d) (im_freeblock s)) as Ho by (left; eauto); specialize (Hlt _ Ho); lia.
    + intros bn n H0. rewrite (jn_addr _ _ _ _ _ HJ), (jn_ind _ _ _ _ _ HJ) by done. case_decide as E.
      * intros [= <-]. rewrite E. intros Hn. specialize (Hlt _ (or_intror Hn)). lia.
      * intros Ha. destruct slot; [by eapply G5|]. intros [= <-].
        assert (owns (sec s) (inode_of d) (im_freeblock s)) as Ho by (left; eauto). specialize (Hlt _ Ho). lia.
    + intros bn H0 Hlt'. rewrite (jn_only _ _ _ _ _ HJ) in Hlt'. destruct (G6 bn H0 Hlt') as [n Hn]. exists n. by apply joined_addr.
Qed.

Lemma joined_get k : 0 ≤ k → file_get (sec s') (inode_of d') k = file_get (sec s) (inode_of d) k.
Proof using Hv Hi Hc HJ.
  intros Hk. pose proof jn_good as Hg. pose proof (jn_fb _ _ _ _ _ HJ) as Hfb. pose proof (jn_room _ _ _ _ _ HJ) as Hroom.
  assert (0 ≤ k / BSIZE) as H0 by (by apply Z.div_pos).
  destruct (file_addr (sec s) (inode_of d) (k / BSIZE)) as [n|] eqn:En.
  - rewrite !(file_get_addr _ _ _ n) by (done || by apply joined_addr). rewrite (jn_keep _ _ _ _ _ HJ); [done|].
    intros Hn. rewrite (jn_ind _ _ _ _ _ HJ) in Hn. destruct slot; [by eapply (gd_ind _ _ _ Hg)|]. injection Hn as <-.
    assert (owns (sec s) (inode_of d) (im_freeblock s)) as Ho by (left; eauto). pose proof (gd_own _ _ _ Hg _ Ho). lia.
  - rewrite (file_get_hole _ _ _ En). destruct (file_addr (sec s') (inode_of d') (k / BSIZE)) as [n|] eqn:En'; [|by apply file_get_hole].
    rewrite (file_get_addr _ _ _ n En'). rewrite (jn_addr _ _ _ _ _ HJ) in En' by done. case_decide as E; [|congruence]. injection En' as <-.
    rewrite (jn_keep _ _ _ _ _ HJ).
    + rewrite (v_zero _ _ Hv) by lia. simpl. apply zero_block_get.
    + rewrite (jn_ind _ _ _ _ _ HJ), E. intros Hn. pose proof (gd_own _ _ _ Hg _ (or_intror Hn)). lia.
Qed.

End joined.

(** The three ways. *)
Lemma set_addr_typed d k v : dinode_typed d → 0 ≤ v < 2 ^ 32 → dinode_typed (set_din_addr k v d).
Proof.
  intros [H1 H2 H3 H4 H5 H6 H7] Hv. split; try done; simpl.
  - by rewrite length_insert.
  - by apply Forall_insert.
Qed.

(** Only [freeblock] moved. *)
Definition took_block (s s' : image) : Prop :=
  im_sb s' = im_sb s ∧ im_freeinode s' = im_freeinode s ∧ im_freeblock s' = im_freeblock s + 1 ∧ im_img s' = im_img s.

Lemma took_sec s s' m : took_block s s' → sec s' m = sec s m.
Proof. intros (_ & _ & _ & E). unfold sec. by rewrite E. Qed.

Lemma joined_direct s cur i d bn s' :
  mkfs_inv s cur → 1 ≤ i < im_freeinode s → cur i = d → im_freeblock s < 2000 → took_block s s' → 0 ≤ bn < NDIRECT →
  file_addr (sec s) (inode_of d) bn = None → joined s d (Some bn) s' (set_din_addr bn (im_freeblock s) d).
Proof.
  intros Hv Hi Hc Hroom Ht Hbn Ha. pose proof Ht as (T1 & T2 & T3 & T4).
  pose proof (v_good _ _ Hv i Hi) as Hg. rewrite Hc in Hg. pose proof (v_fb _ _ Hv) as Hfb.
  pose proof (dt_len _ (gd_typed _ _ _ Hg)) as Hlen.
  destruct (addr_direct (sec s) (sec s') (inode_of d) bn (im_freeblock s)) as [Hind Haddr]; [done|done|lia|intros; by apply took_sec|].
  split; try done.
  - by rewrite T4.
  - intros m Hm. rewrite (took_sec s) by done. by apply (v_blk _ _ Hv).
  - intros m _. by apply took_sec.
  - apply set_addr_typed; [apply Hg|lia].
  - intros bn' H0. etrans; [apply (Haddr bn' H0)|]. repeat case_decide; congruence.
  - intros bn' [= <-]. split; [lia|done].
Qed.

Lemma joined_indirect s cur i d s' :
  mkfs_inv s cur → 1 ≤ i < im_freeinode s → cur i = d → im_freeblock s < 2000 → took_block s s' →
  file_ind (inode_of d) = None → joined s d None s' (set_din_addr NDIRECT (im_freeblock s) d).
Proof.
  intros Hv Hi Hc Hroom Ht Ha. pose proof Ht as (T1 & T2 & T3 & T4).
  pose proof (v_good _ _ Hv i Hi) as Hg. rewrite Hc in Hg. pose proof (v_fb _ _ Hv) as Hfb.
  pose proof (dt_len _ (gd_typed _ _ _ Hg)) as Hlen.
  destruct (addr_indirect (sec s) (sec s') (inode_of d) (im_freeblock s)) as [Hind Haddr]; [done|done|lia| |].
  { rewrite (took_sec s) by done. apply (v_zero _ _ Hv). lia. }
  split; try done.
  - by rewrite T4.
  - intros m Hm. rewrite (took_sec s) by done. by apply (v_blk _ _ Hv).
  - intros m _. by apply took_sec.
  - apply set_addr_typed; [apply Hg|lia].
Qed.

Lemma joined_entry s cur i d ind data bn s' :
  mkfs_inv s cur → 1 ≤ i < im_freeinode s → cur i = d → im_freeblock s < 2000 →
  im_sb s' = im_sb s → im_freeinode s' = im_freeinode s → im_freeblock s' = im_freeblock s + 1 → length (im_img s') = length (im_img s) →
  NDIRECT ≤ bn < MAXFILE → file_addr (sec s) (inode_of d) bn = None → file_ind (inode_of d) = Some ind → sec s ind = Some data →
  (∀ m, sec s' m = if decide (m = ind) then Some (put32 (Z.to_nat (4 * (bn - NDIRECT))) (im_freeblock s) data) else sec s m) →
  joined s d (Some bn) s' d.
Proof.
  intros Hv Hi Hc Hroom E1 E2 E3 E4 Hbn Ha Hind Hdt Hs.
  pose proof (v_good _ _ Hv i Hi) as Hg. rewrite Hc in Hg. pose proof (v_fb _ _ Hv) as Hfb.
  pose proof (gd_own _ _ _ Hg ind (or_intror Hind)) as Rind.
  destruct (v_blk _ _ Hv ind) as (data0 & Hd0 & Hlen); [lia|]. rewrite Hdt in Hd0. injection Hd0 as <-.
  pose proof (addr_entry (sec s) (sec s') (inode_of d) ind data bn (im_freeblock s) Hind Hdt Hlen Hbn ltac:(lia)) as Haddr.
  rewrite Hs, decide_True in Haddr by done. specialize (Haddr eq_refl).
  unfold MAXFILE, NINDIRECT, BSIZE in Hbn. change (1024 / 4) with 256 in Hbn.
  split; try done.
  - intros m Hm. rewrite Hs. case_decide; [|by apply (v_blk _ _ Hv)]. eexists. split; [done|]. rewrite length_put32; lia.
  - intros m Hm. rewrite Hs, decide_False; [done|]. congruence.
  - by destruct d.
  - apply Hg.
  - intros bn' H0. rewrite Haddr by done. repeat case_decide; congruence.
  - intros bn' [= <-]. unfold NDIRECT in Hbn. split; [lia|done].
Qed.

(** A call that leaves the sectors alone, and one that writes a block of the file. *)
Lemma good_addr B B' d hi : (∀ bn, file_addr B' (inode_of d) bn = file_addr B (inode_of d) bn) → good B d hi → good B' d hi.
Proof.
  intros Ha [H1 H2 H3 H4 H5 H6]. split; try done.
  - intros n Hn. apply H3. unfold owns in *. by setoid_rewrite Ha in Hn.
  - intros bn bn' n. rewrite !Ha. apply H4.
  - intros bn n. rewrite Ha. apply H5.
  - intros bn. rewrite Ha. apply H6.
Qed.

Lemma moved_kept i s cur d s' :
  mkfs_inv s cur → 1 ≤ i < im_freeinode s → cur i = d → img_frame s s' →
  (∀ m, 0 ≤ m < 2000 → ∃ data, sec s' m = Some data ∧ length data = 1024%nat) →
  (∀ m, ¬ owns (sec s) (inode_of d) m → sec s' m = sec s m) →
  (∀ bn, file_addr (sec s') (inode_of d) bn = file_addr (sec s) (inode_of d) bn) → moved i s d s' d.
Proof.
  intros Hv Hi Hc (F1 & F2 & F3 & F4) Hb Hk Ha. pose proof (v_good _ _ Hv i Hi) as Hg. rewrite Hc in Hg.
  pose proof (v_fb _ _ Hv) as Hfb. split; try done.
  - rewrite F3. lia.
  - intros m Ho _. by apply Hk.
  - by destruct d.
  - intros bn n _. by rewrite Ha.
  - intros n Ho. left. unfold owns in *. by setoid_rewrite Ha in Ho.
  - rewrite F3. by eapply good_addr.
Qed.

Lemma same_sec s s' m : im_img s' = im_img s → sec s' m = sec s m.
Proof. intros E. unfold sec. by rewrite E. Qed.

Lemma moved_same i s cur d s' :
  mkfs_inv s cur → 1 ≤ i < im_freeinode s → cur i = d → img_frame s s' → im_img s' = im_img s → moved i s d s' d.
Proof.
  intros Hv Hi Hc Hf E. eapply moved_kept; try done.
  - intros m Hm. rewrite (same_sec s) by done. by apply (v_blk _ _ Hv).
  - intros m _. by apply same_sec.
  - intros bn. apply file_addr_same. intros n _. by apply same_sec.
Qed.

Lemma moved_store i s cur d off bs a data s' :
  mkfs_inv s cur → 1 ≤ i < im_freeinode s → cur i = d → 0 ≤ off → off mod BSIZE + Z.of_nat (length bs) ≤ BSIZE →
  file_addr (sec s) (inode_of d) (off / BSIZE) = Some a → sec s a = Some data → img_frame s s' →
  (∀ m, sec s' m = if decide (m = a) then Some (put_at (Z.to_nat (off mod BSIZE)) bs data) else sec s m) →
  moved i s d s' d ∧ ∀ k, 0 ≤ k → file_get (sec s') (inode_of d) k = write_get (file_get (sec s) (inode_of d)) off bs k.
Proof.
  intros Hv Hi Hc H0 Hm Ha Hd Hf Hs. pose proof (v_good _ _ Hv i Hi) as Hg. rewrite Hc in Hg.
  assert (0 ≤ off / BSIZE) as Hq by (by apply Z.div_pos).
  assert (owns (sec s) (inode_of d) a) as Ho by (left; eauto). pose proof (gd_own _ _ _ Hg a Ho) as Ra. pose proof (v_fb _ _ Hv) as Hfb.
  destruct (v_blk _ _ Hv a) as (data' & Hd' & Hlen); [lia|]. rewrite Hd in Hd'. injection Hd' as <-.
  pose proof (Z.mod_pos_bound off BSIZE ltac:(done)) as Hb.
  pose proof (gd_ind _ _ _ Hg _ _ Hq Ha) as Hni.
  split; [|intros k Hk; by eapply store_get; eauto; apply Hg].
  eapply moved_kept; try done.
  - intros m Hr. rewrite Hs. case_decide; [|by apply (v_blk _ _ Hv)]. eexists. split; [done|].
    rewrite length_put_at; unfold BSIZE in *; lia.
  - intros m Hno. rewrite Hs, decide_False; [done|]. by intros ->.
  - intros bn. apply file_addr_same. intros n Hn. rewrite Hs, decide_False; [done|congruence].
Qed.

(** ** Appending *)

Lemma need_addr_run s d k Q :
  dinode_typed d → 0 ≤ k < 13 → 46 ≤ im_freeblock s ≤ 2000 →
  (di_addrs d !! Z.to_nat k ≠ Some 0 → Q d s) →
  (di_addrs d !! Z.to_nat k = Some 0 → ∀ s', took_block s s' → Q (set_din_addr k (im_freeblock s) d) s') →
  run (need_addr true d k s) Q.
Proof.
  intros Ht Hk Hfb H1 H2. unfold need_addr. destruct (lookup_lt_is_Some_2 (di_addrs d) (Z.to_nat k)) as [a Ha]; [rewrite (dt_len _ Ht); lia|].
  pose proof (Forall_lookup_1 _ _ _ _ (dt_addrs _ Ht) Ha) as Ra. cbv beta in Ra. unfold din_addr. rewrite Ha. simpl. rewrite xint_le, u32_small by lia.
  destruct (Z.eqb_spec a 0) as [->|Hne].
  - apply run_bind. unfold next_block. apply run_bind. simpl. rewrite xint_le, u32_small by lia.
    apply H2; [done|]. unfold took_block. simpl. rewrite u32_small by lia. done.
  - simpl. apply H1. congruence.
Qed.

(** The blocks a new block [bn] takes. *)
Definition took (s : image) (d : dinode) (bn : Z) : Z :=
  (if file_addr (sec s) (inode_of d) bn is Some _ then 0 else 1) +
  (if decide (NDIRECT ≤ bn) then if file_ind (inode_of d) is Some _ then 0 else 1 else 0).

(** The block is there, and nothing else was added; or it is the first one beyond
    the image. *)
Record mapped_ok (i : Z) (s : image) (d : dinode) (bn : Z) (r : dinode * Z) (s' : image) : Prop := {
  mp_moved : moved i s d s' r.1;
  mp_addr : file_addr (sec s') (inode_of r.1) bn = Some r.2;
  mp_get k : 0 ≤ k → file_get (sec s') (inode_of r.1) k = file_get (sec s) (inode_of d) k;
  mp_took : im_freeblock s' = im_freeblock s + took s d bn;
  mp_new bn' n : 0 ≤ bn' → bn' ≠ bn → file_addr (sec s') (inode_of r.1) bn' = Some n → file_addr (sec s) (inode_of d) bn' = Some n;
  mp_ind : is_Some (file_ind (inode_of r.1)) → is_Some (file_ind (inode_of d)) ∨ NDIRECT ≤ bn
}.

Definition mapped (i : Z) (s : image) (d : dinode) (bn : Z) (r : dinode * Z) (s' : image) : Prop :=
  mapped_ok i s d bn r s' ∨ (FSSIZE < total ∧ r.2 = 2000 ∧ sec s' 2000 = None).

Lemma sec_beyond s cur : mkfs_inv s cur → sec s 2000 = None.
Proof. intros Hv. unfold sec. simpl. apply lookup_ge_None_2. rewrite (v_len _ _ Hv). lia. Qed.

Lemma addr_at d k B n : dinode_typed d → 0 ≤ k < NDIRECT → di_addrs d !! Z.to_nat k = Some n → n ≠ 0 →
  file_addr B (inode_of d) k = Some n ∧ xint true (din_addr d k) = n.
Proof.
  intros Ht Hk Hn Hne. pose proof (Forall_lookup_1 _ _ _ _ (dt_addrs _ Ht) Hn) as Ra. cbv beta in Ra. split.
  - rewrite file_addr_direct by lia. simpl. rewrite Hn. simpl. by rewrite (proj2 (Z.eqb_neq n 0)).
  - unfold din_addr. rewrite Hn, xint_le. simpl. by rewrite u32_small by lia.
Qed.

Lemma set_addr_at d k v : dinode_typed d → 0 ≤ k < 13 → di_addrs (set_din_addr k v d) !! Z.to_nat k = Some v.
Proof. intros Ht Hk. simpl. rewrite list_lookup_insert_eq; [done|]. rewrite (dt_len _ Ht). lia. Qed.

Lemma mk_bmap_direct i s cur d bn :
  mkfs_inv s cur → 1 ≤ i < im_freeinode s → cur i = d → 0 ≤ bn < NDIRECT → im_freeblock s + took s d bn ≤ total →
  run (mk_bmap true io_ok d bn s) (mapped i s d bn).
Proof.
  intros Hv Hi Hc Hbn Htot. pose proof (v_good _ _ Hv i Hi) as Hg. rewrite Hc in Hg. pose proof (gd_typed _ _ _ Hg) as Ht.
  unfold mk_bmap. rewrite (proj2 (Z.ltb_lt bn NDIRECT)) by lia. apply run_bind.
  apply need_addr_run; [done|unfold NDIRECT in *; lia|apply Hv| |].
  - intros Hne. left. simpl.
    destruct (lookup_lt_is_Some_2 (di_addrs d) (Z.to_nat bn)) as [n Hn]; [rewrite (dt_len _ Ht); unfold NDIRECT in *; lia|].
    destruct (addr_at d bn (sec s) n) as [E1 E2]; [done|done|done|congruence|]. rewrite E2.
    split; simpl; try done; [by eapply moved_same|unfold took; rewrite E1, decide_False by lia; lia|by left].
  - intros Hz s' Hs'. simpl. pose proof (v_fb _ _ Hv) as Hfb.
    assert (file_addr (sec s) (inode_of d) bn = None) as Hno by (rewrite file_addr_direct by lia; simpl; by rewrite Hz).
    assert (took s d bn = 1) as Htk by (unfold took; rewrite Hno, decide_False by lia; lia).
    destruct (addr_at (set_din_addr bn (im_freeblock s) d) bn (sec s') (im_freeblock s)) as [E1 E2];
      [apply set_addr_typed; [done|lia]|done|apply set_addr_at; [done|unfold NDIRECT in *; lia]|lia|].
    rewrite E2. destruct (decide (im_freeblock s = 2000)) as [E|E].
    + right. destruct Hs' as (_ & _ & E3 & E4). simpl. rewrite (same_sec s), (sec_beyond _ _ Hv) by done. unfold FSSIZE. split_and!; [lia|done|done].
    + left. simpl. assert (joined s d (Some bn) s' (set_din_addr bn (im_freeblock s) d)) as HJ by (eapply joined_direct; done || lia).
      split; cbn [fst snd]; [by eapply joined_moved|done| | | |].
      * intros k Hk. by eapply joined_get.
      * rewrite Htk. apply Hs'.
      * intros bn' n H0 Hne. eapply joined_new; [done|done|congruence].
      * rewrite (jn_ind _ _ _ _ _ HJ). by left.
Qed.

(** Beyond the direct blocks, once the indirect block is there. *)
Definition entry_rest (d : dinode) (bn : Z) : MK (dinode * Z) :=
  indirect ← rsect io_ok (xint true (din_addr d NDIRECT));
  let k := Z.to_nat (4 * (bn - NDIRECT)) in
  indirect ← (if host_at true 4 indirect k =? 0 then
                b ← next_block;
                let indirect := put_at k (host_put true 4 (xint true b)) indirect in
                _ ← wsect io_ok (xint true (din_addr d NDIRECT)) indirect;
                mret indirect
              else mret indirect);
  mret (d, xint true (host_at true 4 indirect k)).

Lemma ind_at d : dinode_typed d → ∀ n, file_ind (inode_of d) = Some n → xint true (din_addr d NDIRECT) = n.
Proof.
  intros Ht n Hn. apply file_ind_nz in Hn as [Hne Hn]. simpl in Hn.
  pose proof (Forall_lookup_1 _ _ _ _ (dt_addrs _ Ht) Hn) as Ra. cbv beta in Ra. unfold din_addr. change (i_addrs (inode_of d)) with (di_addrs d) in Hn.
  rewrite Hn, xint_le. simpl. by rewrite u32_small by lia.
Qed.

Lemma entry_rest_run i s cur d bn ind :
  mkfs_inv s cur → 1 ≤ i < im_freeinode s → cur i = d → NDIRECT ≤ bn < MAXFILE → file_ind (inode_of d) = Some ind →
  im_freeblock s + took s d bn ≤ total → run (entry_rest d bn s) (mapped i s d bn).
Proof.
  intros Hv Hi Hc Hbn Hind Htot. pose proof (v_good _ _ Hv i Hi) as Hg. rewrite Hc in Hg. pose proof (gd_typed _ _ _ Hg) as Ht.
  pose proof (gd_own _ _ _ Hg ind (or_intror Hind)) as Rind. pose proof (v_fb _ _ Hv) as Hfb.
  pose proof (v_len _ _ Hv) as Hlen. assert (0 ≤ 4 * (bn - NDIRECT) < 1024) as Hk.
  { unfold MAXFILE, NINDIRECT, BSIZE in Hbn. change (1024 / 4) with 256 in Hbn. lia. }
  destruct (v_blk _ _ Hv ind ltac:(lia)) as (data & Hd & Hl).
  unfold entry_rest. rewrite (ind_at d Ht ind Hind). apply run_bind, rsect_run; [lia|rewrite Hd; done|].
  intros buf s1 Hf1 E1 Hb. rewrite Hd in Hb. injection Hb as <-. pose proof Hf1 as (F1 & F2 & F3 & F4). apply run_bind.
  assert (file_addr (sec s) (inode_of d) bn = ind_addr (Some data) (bn - NDIRECT)) as Ha
    by (rewrite file_addr_ind, Hind by done; simpl; by rewrite Hd).
  change (host_at true 4) with get32. unfold ind_addr in Ha. simpl in Ha.
  destruct (Z.eqb_spec (get32 data (Z.to_nat (4 * (bn - NDIRECT)))) 0) as [E|E].
  - assert (took s d bn = 1) as Htk by (unfold took; rewrite Ha, Hind, decide_True by lia; lia).
    apply run_bind. simpl. rewrite xint_le, u32_small by lia. apply run_bind. set (s2 := set_freeblock _ s1).
    assert (∀ m, sec s2 m = sec s m) as Hs2 by (intros m; by apply same_sec).
    apply wsect_run; [simpl; rewrite E1, Hlen; lia|simpl; rewrite E1, Hlen; unfold FSSIZE; lia|].
    intros s3 (G1 & G2 & G3 & G4) Hs3. simpl. change (put_at ?k (host_put true 4 ?v) ?l) with (put32 k v l) in *.
    change (host_at true 4) with get32. rewrite get_put32, xint_le, !u32_small by (rewrite ?u32_small; lia).
    assert (∀ m, sec s3 m = if decide (m = ind) then Some (put32 (Z.to_nat (4 * (bn - NDIRECT))) (im_freeblock s) data) else sec s m) as Hs.
    { intros m. by rewrite Hs3, Hs2, F3. }
    assert (im_freeblock s3 = im_freeblock s + 1) as E3 by (rewrite G3; simpl; rewrite F3, u32_small; lia).
    destruct (decide (im_freeblock s = 2000)) as [E2|E2].
    + right. simpl. rewrite F3, Hs, decide_False, (sec_beyond _ _ Hv) by lia. unfold FSSIZE. split_and!; [lia|done|done].
    + left. simpl. rewrite F3. assert (joined s d (Some bn) s3 d) as HJ.
      { eapply (joined_entry s cur i d ind data bn s3); try done; [lia|..].
        - by rewrite G1.
        - by rewrite G2.
        - rewrite G4. simpl. by rewrite E1. }
      split; cbn [fst snd]; [by eapply joined_moved| | | | |].
      * rewrite (jn_addr _ _ _ _ _ HJ) by (unfold NDIRECT in *; lia). by rewrite decide_True.
      * intros k Hk'. by eapply joined_get.
      * by rewrite Htk.
      * intros bn' n H0 Hne. eapply joined_new; [done|done|congruence].
      * by left.
  - simpl. left. simpl. change (host_at true 4) with get32.
    assert (0 ≤ bn) as H0 by (unfold NDIRECT in *; lia).
    pose proof (gd_own _ _ _ Hg _ (or_introl (ex_intro _ bn (conj H0 Ha)))) as Rn. rewrite xint_le, u32_small by lia.
    assert (∀ m, sec s1 m = sec s m) as Hs by (intros m; by apply same_sec).
    split; cbn [fst snd]; [by eapply moved_same| | | | |].
    + rewrite <- Ha. apply file_addr_same. auto.
    + intros k Hk'. by apply (other_file (sec s) (sec s1) d).
    + unfold took. rewrite Ha, Hind, decide_True by lia. lia.
    + intros bn' n _ _ Hn. rewrite <- Hn. symmetry. apply file_addr_same. auto.
    + by left.
Qed.

Lemma upd_same cur i d : upd cur i d i = d.
Proof. unfold upd. by rewrite decide_True. Qed.

Lemma mk_bmap_run i s cur d bn :
  mkfs_inv s cur → 1 ≤ i < im_freeinode s → cur i = d → 0 ≤ bn < MAXFILE → im_freeblock s + took s d bn ≤ total →
  run (mk_bmap true io_ok d bn s) (mapped i s d bn).
Proof.
  intros Hv Hi Hc Hbn Htot. destruct (decide (bn < NDIRECT)) as [Hlt|Hge]; [eapply mk_bmap_direct; eauto; lia|].
  pose proof (v_good _ _ Hv i Hi) as Hg. rewrite Hc in Hg. pose proof (gd_typed _ _ _ Hg) as Ht. pose proof (v_fb _ _ Hv) as Hfb.
  assert (NDIRECT ≤ bn < MAXFILE) as Hbn' by lia.
  unfold mk_bmap. rewrite (proj2 (Z.ltb_ge bn NDIRECT)) by lia. apply run_bind.
  change (run (need_addr true d NDIRECT s) (λ d1 s1, run (entry_rest d1 bn s1) (mapped i s d bn))).
  apply need_addr_run; [done|done|lia|..].
  - intros Hne. assert (∃ n, file_ind (inode_of d) = Some n) as [n Hn].
    { destruct (lookup_lt_is_Some_2 (di_addrs d) (Z.to_nat NDIRECT)) as [n Hn]; [rewrite (dt_len _ Ht); vm_compute; lia|].
      exists n. unfold file_ind. change (i_addrs (inode_of d)) with (di_addrs d). rewrite Hn. simpl.
      rewrite (proj2 (Z.eqb_neq n 0)); [done|congruence]. }
    by eapply entry_rest_run.
  - intros Hz s1 Hs1. assert (file_ind (inode_of d) = None) as Hn by (unfold file_ind; simpl; by rewrite Hz).
    assert (file_ind (inode_of (set_din_addr NDIRECT (im_freeblock s) d)) = Some (im_freeblock s)) as Hn1.
    { unfold file_ind. change (i_addrs (inode_of ?d)) with (di_addrs d). rewrite (set_addr_at d NDIRECT) by done. simpl.
      by rewrite (proj2 (Z.eqb_neq (im_freeblock s) 0)) by lia. }
    assert (file_addr (sec s) (inode_of d) bn = None) as Hno by (rewrite file_addr_ind, Hn by done; done).
    assert (took s d bn = 2) as Htk by (unfold took; rewrite Hno, Hn, decide_True by lia; lia).
    destruct (decide (im_freeblock s = 2000)) as [E|E].
    + unfold entry_rest. rewrite (ind_at _ (set_addr_typed d NDIRECT (im_freeblock s) Ht ltac:(lia)) _ Hn1), E.
      apply run_bind, rsect_run; [lia| |].
      * intros _. unfold FSSIZE. lia.
      * intros buf s2 _ _. rewrite (took_sec s), (sec_beyond _ _ Hv) by done. done.
    + assert (joined s d None s1 (set_din_addr NDIRECT (im_freeblock s) d)) as HJ by (eapply joined_indirect; done || lia).
      assert (moved i s d s1 (set_din_addr NDIRECT (im_freeblock s) d)) as Hm by (by eapply joined_moved).
      assert (took s1 (set_din_addr NDIRECT (im_freeblock s) d) bn = 1) as Htk1.
      { unfold took. rewrite Hn1, (jn_addr _ _ _ _ _ HJ) by (unfold NDIRECT in *; lia). rewrite (decide_False (P := None = Some bn)), Hno by done. rewrite decide_True by lia. done. }
      eapply run_mono; [eapply (entry_rest_run i s1 (upd cur i (set_din_addr NDIRECT (im_freeblock s) d)) _ bn (im_freeblock s))|].
      { by eapply moved_inv. } { by rewrite (mv_fi _ _ _ _ _ Hm). } { by rewrite upd_same. } { done. } { done. }
      { rewrite Htk1, (jn_fb _ _ _ _ _ HJ). lia. }
      intros r s2 [[M A G T N I]|F]; [left|by right]. split; [by eapply moved_trans|done| | | |].
      * intros k Hk. rewrite G by done. by eapply joined_get.
      * rewrite T, Htk, Htk1, (jn_fb _ _ _ _ _ HJ). lia.
      * intros bn' n H0 Hne Hx%N; try done. eapply joined_new; [exact HJ|done|done|done].
      * intros _. right. lia.
Qed.

(** The file has blocks up to [off], and no others. *)
Definition full_to (s : image) (d : dinode) (off : Z) : Prop :=
  ∀ bn, 0 ≤ bn → bn * BSIZE < off → is_Some (file_addr (sec s) (inode_of d) bn).

Record tight (s : image) (d : dinode) (off : Z) : Prop := {
  ti_addr bn n : 0 ≤ bn → file_addr (sec s) (inode_of d) bn = Some n → bn * BSIZE < off;
  ti_ind : is_Some (file_ind (inode_of d)) → NDIRECT * BSIZE < off
}.

(** The blocks of a file of [len] bytes. *)
Definition blocks (len : Z) : Z := (len + BSIZE - 1) / BSIZE + (if NDIRECT * BSIZE <? len then 1 else 0).

Lemma blocks_mono a b : 0 ≤ a ≤ b → 0 ≤ blocks a ≤ blocks b.
Proof.
  intros H. unfold blocks, NDIRECT, BSIZE. assert (0 ≤ (a + 1024 - 1) / 1024 ≤ (b + 1024 - 1) / 1024) by zarith.
  destruct (Z.ltb_spec (12 * 1024) a), (Z.ltb_spec (12 * 1024) b); lia.
Qed.

Lemma ceil_step off n1 : 0 ≤ off → 0 < n1 ≤ BSIZE - off mod BSIZE →
  (off + n1 + BSIZE - 1) / BSIZE = (off + BSIZE - 1) / BSIZE + (if decide (off mod BSIZE = 0) then 1 else 0).
Proof. unfold BSIZE. intros H1 H2. case_decide; zarith. Qed.

Lemma took_blocks s d off n1 :
  0 ≤ off → off + n1 ≤ MAXFILE * BSIZE → full_to s d off → tight s d off → 0 < n1 ≤ BSIZE - off mod BSIZE →
  took s d (off / BSIZE) = blocks (off + n1) - blocks off.
Proof.
  intros H0 Hmax Hf [Ht1 Ht2] Hn. assert (0 ≤ off / BSIZE) as Hq by (by apply Z.div_pos).
  assert (∀ bn, NDIRECT ≤ bn < MAXFILE → is_Some (file_addr (sec s) (inode_of d) bn) → is_Some (file_ind (inode_of d))) as Hind.
  { intros bn Hbn [m Ha]. rewrite file_addr_ind in Ha by done. by destruct (file_ind (inode_of d)). }
  pose proof (ceil_step off n1 H0 Hn) as Hc. change (MAXFILE * BSIZE) with 274432 in Hmax. change MAXFILE with 268 in Hind.
  pose proof (Z.div_mod off BSIZE ltac:(done)). pose proof (Z.mod_pos_bound off BSIZE ltac:(done)).
  unfold took, blocks. rewrite Hc. unfold full_to, NDIRECT, BSIZE in *. destruct (decide (off mod 1024 = 0)) as [E|E].
  - destruct (file_addr _ _ (off / 1024)) as [m|] eqn:Em; [specialize (Ht1 _ _ Hq Em); lia|]. case_decide as Ed.
    + destruct (decide (off = 12 * 1024)) as [->|Hne].
      * destruct (file_ind _) eqn:Ei; [specialize (Ht2 ltac:(eauto)); lia|].
        rewrite (proj2 (Z.ltb_lt _ _)), (proj2 (Z.ltb_ge _ _)) by lia. lia.
      * destruct (Hind (off / 1024 - 1)) as [x ->]; [lia|apply Hf; lia|]. rewrite !(proj2 (Z.ltb_lt _ _)) by lia. lia.
    + rewrite !(proj2 (Z.ltb_ge _ _)) by lia. lia.
  - destruct (Hf (off / 1024)) as [m Em]; [lia|lia|]. rewrite Em. case_decide as Ed.
    + destruct (Hind (off / 1024)) as [x ->]; [lia|by eexists|]. rewrite !(proj2 (Z.ltb_lt _ _)) by lia. lia.
    + rewrite !(proj2 (Z.ltb_ge _ _)) by lia. lia.
Qed.

Record appended (i : Z) (s : image) (d : dinode) (off : Z) (p : list Z) (r : dinode * Z) (s' : image) : Prop := {
  ap_moved : moved i s d s' r.1;
  ap_off : r.2 = off + Z.of_nat (length p);
  ap_get k : 0 ≤ k → file_get (sec s') (inode_of r.1) k = write_get (file_get (sec s) (inode_of d)) off p k;
  ap_full : full_to s' r.1 r.2;
  ap_tight : tight s' r.1 r.2;
  ap_blocks : im_freeblock s' = im_freeblock s + blocks r.2 - blocks off
}.

Lemma moved_full i s d s' d' off : moved i s d s' d' → full_to s d off → full_to s' d' off.
Proof. intros Hm Hf bn H0 Hlt. destruct (Hf bn H0 Hlt) as [n Hn]. exists n. by apply (mv_addr _ _ _ _ _ Hm). Qed.

(** The second half of a round: the block is read and written. *)
Lemma store_run {A} i s cur d off cs a (K : MK A) Q :
  mkfs_inv s cur → 1 ≤ i < im_freeinode s → cur i = d → 0 ≤ off → off mod BSIZE + Z.of_nat (length cs) ≤ BSIZE →
  file_addr (sec s) (inode_of d) (off / BSIZE) = Some a →
  (∀ s', moved i s d s' d → im_freeblock s' = im_freeblock s → (∀ bn, file_addr (sec s') (inode_of d) bn = file_addr (sec s) (inode_of d) bn) →
     (∀ k, 0 ≤ k → file_get (sec s') (inode_of d) k = write_get (file_get (sec s) (inode_of d)) off cs k) → run (K s') Q) →
  run ((buf ← rsect io_ok a; _ ← wsect io_ok a (put_at (Z.to_nat (off - off / BSIZE * BSIZE)) cs buf); K) s) Q.
Proof.
  intros Hv Hi Hc H0 Hm Ha HK. pose proof (v_good _ _ Hv i Hi) as Hg. rewrite Hc in Hg. pose proof (v_fb _ _ Hv) as Hfb.
  assert (0 ≤ off / BSIZE) as Hq by (by apply Z.div_pos). pose proof (v_len _ _ Hv) as Hlen.
  pose proof (gd_own _ _ _ Hg a (or_introl (ex_intro _ _ (conj Hq Ha)))) as Ra.
  destruct (v_blk _ _ Hv a ltac:(lia)) as (data & Hd & Hl).
  apply run_bind, rsect_run; [lia|by rewrite Hd|]. intros buf s1 (F1 & F2 & F3 & F4) E1 Hb. rewrite Hd in Hb. injection Hb as <-.
  apply run_bind, wsect_run; [rewrite F4, Hlen; lia|rewrite F4, Hlen; done|]. intros s2 (G1 & G2 & G3 & G4) Hs.
  assert (off - off / BSIZE * BSIZE = off mod BSIZE) as E by (unfold BSIZE; zarith). rewrite E in Hs.
  assert (img_frame s s2) as Hf by (split_and!; congruence).
  assert (∀ m, sec s2 m = if decide (m = a) then Some (put_at (Z.to_nat (off mod BSIZE)) cs data) else sec s m) as Hs'
    by (intros m; by rewrite Hs, (same_sec s)).
  destruct (moved_store i s cur d off cs a data s2) as [M G]; try done. apply HK; try done; [congruence|].
  intros bn. apply file_addr_same. intros n Hn. rewrite Hs', decide_False; [done|].
  pose proof (gd_ind _ _ _ Hg _ _ Hq Ha). congruence.
Qed.

Lemma iappend_loop_run fl i s cur d off p :
  mkfs_inv s cur → 1 ≤ i < im_freeinode s → cur i = d → 0 ≤ off → off + Z.of_nat (length p) ≤ MAXFILE * BSIZE →
  full_to s d off → tight s d off → im_freeblock s + blocks (off + Z.of_nat (length p)) - blocks off ≤ total →
  (length p < fl)%nat → run (iappend_loop true io_ok fl d off p s) (appended i s d off p).
Proof.
  revert s cur d off p. induction fl as [|fl IH]; intros s cur d off p Hv Hi Hc H0 Hmax Hfull Htight Htot Hfl; [lia|].
  cbn [iappend_loop]. destruct (Z.ltb_spec 0 (Z.of_nat (length p))) as [Hpos|Hz].
  2: { assert (p = []) as -> by (by destruct p; simpl in Hz; [|lia]). simpl. split; simpl; [|lia| |done|done|lia].
       - by eapply moved_same. - intros k Hk. unfold write_get. rewrite decide_False by (simpl; lia). done. }
  assert (MAXFILE * BSIZE < 2 ^ 30) as Hbig by done.
  assert (0 ≤ off / BSIZE < MAXFILE) as Hfbn by (split; [by apply Z.div_pos|apply Z.div_lt_upper_bound; [done|lia]]).
  set (n1 := Z.min (Z.of_nat (length p)) (u32 ((off / BSIZE + 1) * BSIZE - off))).
  assert (n1 = Z.min (Z.of_nat (length p)) (BSIZE - off mod BSIZE)) as En1.
  { unfold n1. pose proof (Z.mod_pos_bound off BSIZE ltac:(done)). pose proof (Z.div_mod off BSIZE ltac:(done)).
    rewrite u32_small; unfold BSIZE in *; lia. }
  pose proof (Z.mod_pos_bound off BSIZE ltac:(done)) as Hmod.
  assert (0 < n1 ≤ Z.of_nat (length p)) as Hn1 by lia.
  assert (length (take (Z.to_nat n1) p) = Z.to_nat n1) as Hcs by (rewrite length_take; lia).
  pose proof (took_blocks s d off n1 H0 ltac:(lia) Hfull Htight ltac:(lia)) as Htk.
  pose proof (blocks_mono (off + n1) (off + Z.of_nat (length p)) ltac:(lia)) as Hmono.
  apply run_bind, massert_run; [lia|]. apply run_bind.
  eapply run_mono; [eapply (mk_bmap_run i s cur d); done || lia|]. intros r s1 [[M A G T N I]|(F & E & X)].
  2: { rewrite E. apply run_bind, rsect_run; [lia|done|]. intros buf s2 _ _. by rewrite X. }
  assert (mkfs_inv s1 (upd cur i r.1)) as Hv1 by (by eapply moved_inv).
  assert (1 ≤ i < im_freeinode s1) as Hi1 by (by rewrite (mv_fi _ _ _ _ _ M)).
  eapply (store_run i s1 (upd cur i r.1) r.1 off (take (Z.to_nat n1) p) r.2); try done; [apply upd_same|lia|].
  intros s2 M2 T2 A2 G2. rewrite u32_small by lia.
  assert (moved i s d s2 r.1) as M' by (by eapply moved_trans).
  eapply run_mono; [eapply (IH s2 (upd (upd cur i r.1) i r.1))|].
  - eapply moved_inv; [exact Hv1|done|apply upd_same|done].
  - by rewrite (mv_fi _ _ _ _ _ M2).
  - apply upd_same.
  - lia.
  - rewrite length_drop. lia.
  - intros bn Hbn Hlt. destruct (decide (bn * BSIZE < off)) as [Hlow|Hhigh].
    + by apply (moved_full i s d s2 r.1 off M' Hfull).
    + assert (bn = off / BSIZE) as -> by (unfold BSIZE in *; zarith). exists r.2. by apply (mv_addr _ _ _ _ _ M2).
  - split.
    + intros bn n Hbn Ha. rewrite A2 in Ha. destruct (decide (bn = off / BSIZE)) as [->|Hne]; [unfold BSIZE in *; zarith|].
      apply N in Ha; [|done|done]. pose proof (ti_addr _ _ _ Htight _ _ Hbn Ha). lia.
    + intros [Hx|Hx]%I; [pose proof (ti_ind _ _ _ Htight Hx); lia|]. unfold NDIRECT, BSIZE in *. zarith.
  - rewrite T2, T, length_drop. replace (off + n1 + Z.of_nat (length p - Z.to_nat n1)) with (off + Z.of_nat (length p)) by lia. lia.
  - rewrite length_drop. lia.
  - intros r' s3 [B1 B2 B3 B4 B5 B6]. split.
    + by eapply moved_trans.
    + rewrite B2, length_drop. lia.
    + intros k Hk. rewrite B3 by done. rewrite <- (take_drop (Z.to_nat n1) p) at 2.
      rewrite <- write_get_app, Hcs, Z2Nat.id by lia. apply write_get_ext. rewrite G2 by done. apply write_get_ext. by apply G.
    + done.
    + done.
    + rewrite B6, T2, T. lia.
Qed.

(** ** Inodes of the image *)

Lemma iblock_range j : 0 ≤ j < 208 → 0 ≤ j / IPB < 13.
Proof. intros H. unfold IPB, BSIZE, DINODE_SIZE. change (1024 / 64) with 16. split; [apply Z.div_pos|apply Z.div_lt_upper_bound]; lia. Qed.

Lemma iblock_apart i j : 0 ≤ i < 208 → 0 ≤ j < 208 → i ≠ j → i / IPB = j / IPB →
  (dinode_off i + 64 ≤ dinode_off j ∨ dinode_off j + 64 ≤ dinode_off i)%nat.
Proof. unfold dinode_off, IPB, BSIZE, DINODE_SIZE. change (1024 / 64) with 16. intros. zarith. Qed.

(** The block of an inode, read and (if it is changed) written. *)
Lemma iblock_run s cur j : mkfs_inv s cur → 0 ≤ j < 208 → mk_iblock j s = Done (32 + j / IPB) s.
Proof.
  intros Hv Hj. unfold mk_iblock. pose proof (iblock_range j Hj). simpl. unfold mbind, MK_bind. simpl.
  rewrite (v_sb _ _ Hv). simpl. rewrite u32_small by lia. unfold mret, MK_ret. f_equal. lia.
Qed.

Lemma rinode_run s cur j Q :
  mkfs_inv s cur → 0 ≤ j < 208 → (∀ s', img_frame s s' → im_img s' = im_img s → Q (dinode_at s j) s') → run (rinode true io_ok j s) Q.
Proof.
  intros Hv Hj HQ. pose proof (iblock_range j Hj). destruct (v_blk _ _ Hv (32 + j / IPB)) as (data & Hd & Hl); [lia|].
  unfold rinode. apply run_bind. rewrite (iblock_run s cur) by done. simpl. apply run_bind, rsect_run; [lia|by rewrite Hd|].
  intros buf s1 Hf E Hb. simpl. rewrite host_dinode_le. specialize (HQ s1 Hf E). unfold dinode_at in HQ. by rewrite Hb in HQ.
Qed.

(** Nothing but inode blocks changed. *)
Definition meta_only (s s' : image) : Prop := img_frame s s' ∧ ∀ m, ¬ (32 ≤ m < 45) → sec s' m = sec s m.

Lemma meta_file s cur s' j : mkfs_inv s cur → meta_only s s' → 1 ≤ j < im_freeinode s →
  ∀ n, owns (sec s) (inode_of (cur j)) n → sec s' n = sec s n.
Proof. intros Hv [_ Hs] Hj n Ho. apply Hs. pose proof (gd_own _ _ _ (v_good _ _ Hv j Hj) n Ho). lia. Qed.

Lemma meta_inv s cur s' : mkfs_inv s cur → meta_only s s' →
  (∀ m, 0 ≤ m < 2000 → ∃ data, sec s' m = Some data ∧ length data = 1024%nat) →
  (∀ j, im_freeinode s ≤ j < 200 → dinode_at s' j = dinode_at s j) → mkfs_inv s' cur.
Proof.
  intros Hv Hm Hb Hr. pose proof (λ j, meta_file s cur s' j Hv Hm) as Hfile. destruct Hm as [(F1 & F2 & F3 & F4) Hs].
  assert (∀ j n, 1 ≤ j < im_freeinode s → owns (sec s') (inode_of (cur j)) n → owns (sec s) (inode_of (cur j)) n) as Ho.
  { intros j n Hj. by apply (other_file _ _ _ (Hfile j Hj)). }
  split; rewrite ?F1, ?F2, ?F3, ?F4; try apply Hv; try done.
  - intros j Hj. eapply good_other; [by apply Hfile|done|by apply Hv].
  - intros j j' n Hj Hj' H1 H2. eapply (v_disj _ _ Hv j j' n); auto.
  - intros m Hm. rewrite Hs by (pose proof (v_fb _ _ Hv); lia). by apply (v_zero _ _ Hv).
  - intros m Hm. rewrite Hs by lia. by apply (v_meta _ _ Hv).
  - rewrite Hs by lia. apply Hv.
  - intros j Hj. rewrite Hr by done. by apply (v_rest _ _ Hv).
Qed.

Lemma winode_run s cur i d Q :
  mkfs_inv s cur → 1 ≤ i < im_freeinode s → dinode_typed d →
  (∀ s', meta_only s s' → mkfs_inv s' cur → (∀ j, 1 ≤ j < 200 → dinode_at s' j = if decide (j = i) then d else dinode_at s j) → Q tt s') →
  run (winode true io_ok i d s) Q.
Proof.
  intros Hv Hi Ht HQ. pose proof (v_fi _ _ Hv) as Hfi. pose proof (iblock_range i ltac:(lia)) as Rb. pose proof (v_len _ _ Hv) as Hlen.
  destruct (v_blk _ _ Hv (32 + i / IPB)) as (data & Hd & Hl); [lia|].
  unfold winode. apply run_bind. rewrite (iblock_run s cur) by (done || lia). simpl.
  apply run_bind, rsect_run; [lia|by rewrite Hd|]. intros buf s1 (F1 & F2 & F3 & F4) E1 Hb. rewrite Hd in Hb. injection Hb as <-.
  apply wsect_run; [rewrite F4, Hlen; lia|rewrite F4, Hlen; done|]. intros s2 (G1 & G2 & G3 & G4) Hs.
  rewrite host_dinode_bytes_le in Hs. change (put_at (dinode_off i) (dinode_bytes d) data) with (put_dinode (dinode_off i) d data) in Hs.
  assert (∀ m, sec s2 m = if decide (m = 32 + i / IPB) then Some (put_dinode (dinode_off i) d data) else sec s m) as Hs'
    by (intros m; rewrite Hs; by rewrite (same_sec s)).
  pose proof (dinode_off_fits i) as Hoff.
  assert (meta_only s s2) as Hm.
  { split; [split_and!; congruence|]. intros m Hr. rewrite Hs', decide_False; [done|]. lia. }
  assert (∀ j, 1 ≤ j < 200 → dinode_at s2 j = if decide (j = i) then d else dinode_at s j) as Hat.
  { intros j Hj. unfold dinode_at. rewrite Hs'. case_decide as E.
    - simpl. case_decide as Ej; [subst j; by rewrite get_put_dinode by (done || lia)|].
      replace (32 + j / IPB) with (32 + i / IPB). rewrite Hd. simpl. rewrite get_put_dinode_ne; [done|apply Ht|lia|].
      assert (i ≠ j) as Hne by auto. destruct (iblock_apart i j ltac:(lia) ltac:(lia) Hne ltac:(lia)); [by right|by left].
    - by rewrite decide_False by (intros ->; lia). }
  apply HQ; [done| |done]. eapply meta_inv; try done.
  - intros m Hr. rewrite Hs'. case_decide; [|by apply (v_blk _ _ Hv)]. eexists. split; [done|].
    unfold put_dinode. rewrite length_put_at; [done|]. rewrite length_dinode_bytes by apply Ht. lia.
  - intros j Hj. rewrite Hat by lia. by rewrite decide_False by lia.
Qed.

(** ** The image as a list of files *)

Lemma inv_ext s cur cur' : (∀ j, 1 ≤ j < im_freeinode s → cur j = cur' j) → mkfs_inv s cur → mkfs_inv s cur'.
Proof.
  intros E Hv. split; try apply Hv.
  - intros j Hj. rewrite <- E by done. by apply Hv.
  - intros j j' n Hj Hj'. rewrite <- !E by done. by apply Hv.
Qed.

(** An inode with its type and its bytes; past the end it reads as zeros. *)
Record holds (s : image) (d : dinode) (type : Z) (bytes : list Z) : Prop := {
  hd_only : d = mk_dinode type 0 0 1 (Z.of_nat (length bytes)) (di_addrs d);
  hd_get k : 0 ≤ k → file_get (sec s) (inode_of d) k = default 0 (bytes !! Z.to_nat k)
}.

(** The data blocks of the files. *)
Definition blocks_of (fs : list (Z * list Z)) : Z := foldr (λ f n, blocks (Z.of_nat (length f.2)) + n) 0 fs.

(** Inode [1 + k] is the [k]-th file, with its type and its bytes. *)
Record image_of (s : image) (fs : list (Z * list Z)) : Prop := {
  io_inv : mkfs_inv s (dinode_at s);
  io_fi : im_freeinode s = 1 + Z.of_nat (length fs);
  io_fb : im_freeblock s = 46 + blocks_of fs;
  io_file k type bytes : fs !! k = Some (type, bytes) →
    holds s (dinode_at s (1 + Z.of_nat k)) type bytes ∧ tight s (dinode_at s (1 + Z.of_nat k)) (Z.of_nat (length bytes))
}.

Lemma blocks_of_cons type bytes fs : blocks_of ((type, bytes) :: fs) = blocks (Z.of_nat (length bytes)) + blocks_of fs.
Proof. done. Qed.

Lemma blocks_of_app fs fs' : blocks_of (fs ++ fs') = blocks_of fs + blocks_of fs'.
Proof. induction fs as [|f fs IH]; simpl; [done|]. rewrite IH. lia. Qed.

Lemma blocks_of_nonneg fs : 0 ≤ blocks_of fs.
Proof. induction fs as [|f fs IH]; simpl; [done|]. pose proof (blocks_mono (Z.of_nat (length f.2)) (Z.of_nat (length f.2)) ltac:(lia)). lia. Qed.

Lemma blocks_of_insert fs k f f' :
  fs !! k = Some f → blocks_of (<[k := f']> fs) = blocks_of fs + blocks (Z.of_nat (length f'.2)) - blocks (Z.of_nat (length f.2)).
Proof.
  revert k. induction fs as [|g fs IH]; intros [|k] Hk; simplify_eq/=; [lia|]. rewrite (IH k Hk). lia.
Qed.

Lemma tight_same s s' d off : (∀ n, owns (sec s) (inode_of d) n → sec s' n = sec s n) → tight s d off → tight s' d off.
Proof.
  intros H [H1 H2]. split; [|done]. intros bn n H0. destruct (other_file _ _ _ H) as (Ha & _ & _). rewrite Ha. by apply H1.
Qed.

Lemma holds_other s s' d type bytes : (∀ n, owns (sec s) (inode_of d) n → sec s' n = sec s n) → holds s d type bytes → holds s' d type bytes.
Proof.
  intros H [H1 H2]. split; [done|]. intros k Hk. destruct (other_file (sec s) (sec s') d H) as (_ & _ & G).
  rewrite G by done. by apply H2.
Qed.

Lemma inv_resize s cur i d v :
  mkfs_inv s cur → 1 ≤ i < im_freeinode s → cur i = d → full_to s d v → 0 ≤ v ≤ MAXFILE * BSIZE →
  mkfs_inv s (upd cur i (set_din_size v d)).
Proof.
  intros Hv Hi <- Hf Hr. assert (MAXFILE * BSIZE < 2 ^ 30) as Hbig by done. split; try apply Hv.
  - intros j Hj. unfold upd. case_decide as E; [subst j|by apply Hv].
    destruct (v_good _ _ Hv i Hj) as [[T1 T2 T3 T4 T5 T6 T7] G2 G3 G4 G5 G6]. split; try done. split; simpl; done || lia.
  - intros j j' n Hj Hj' H1 H2. apply (v_disj _ _ Hv j j' n Hj Hj'); [revert H1|revert H2]; unfold upd;
      case_decide; subst; auto.
Qed.

Lemma no_blocks d : di_addrs d = replicate 13 0 →
  (∀ B bn, file_addr B (inode_of d) bn = None) ∧ file_ind (inode_of d) = None.
Proof.
  intros Ha. assert (file_ind (inode_of d) = None) as Hi by (unfold file_ind; simpl; by rewrite Ha). split; [|done].
  intros B bn. destruct (file_addr_cases bn) as [?|[?|?]]; [|by rewrite file_addr_ind, Hi by done|by apply file_addr_out].
  rewrite file_addr_direct by done. simpl. rewrite Ha. destruct (replicate 13 0 !! _) as [a|] eqn:E; [|done].
  apply lookup_replicate in E as [-> _]. done.
Qed.

Lemma inv_fresh s cur d :
  mkfs_inv s cur → im_freeinode s < 200 → dinode_typed d → di_size d = 0 → di_addrs d = replicate 13 0 →
  mkfs_inv (set_freeinode (im_freeinode s + 1) s) (upd cur (im_freeinode s) d).
Proof.
  intros Hv Hlt Ht Hz Ha. pose proof (v_fi _ _ Hv) as Hfi.
  destruct (no_blocks d Ha) as [Hn Hi].
  assert (∀ B n, ¬ owns B (inode_of d) n) as Ho.
  { intros B n [(bn & H0 & H)|H]; [by rewrite Hn in H|congruence]. }
  assert (MAXFILE * BSIZE < 2 ^ 30) as Hbig by done.
  split; try apply Hv; simpl.
  - lia.
  - intros j Hj. unfold upd. case_decide as E; [|apply Hv; lia]. split.
    + done. + rewrite Hz. by vm_compute. + intros n H. by apply Ho in H.
    + intros bn bn' n H0 H0' H. by rewrite Hn in H.
    + intros bn n H0 H. by rewrite Hn in H.
    + intros bn H0 H. rewrite Hz in H. unfold BSIZE in H. lia.
  - intros j j' n Hj Hj'. unfold upd. case_decide; case_decide; subst; try done; intros H1 H2; try (by apply Ho in H1); try (by apply Ho in H2).
    eapply v_disj; try done; lia.
  - intros j Hj. apply (v_rest _ _ Hv). lia.
Qed.

Lemma mkfs_ialloc_run s fs type :
  image_of s fs → (length fs < 199)%nat → 0 ≤ type < 32768 →
  run (mkfs_ialloc true io_ok type s) (λ r s', r = 1 + Z.of_nat (length fs) ∧ image_of s' (fs ++ [(type, [])])).
Proof.
  intros [Hv Hfi Hfb Hfile] Hlt Hty. set (d := mk_dinode type 0 0 1 0 (replicate 13 0)).
  unfold mkfs_ialloc. apply run_bind. simpl. apply run_bind. simpl. rewrite !xshort_le, xint_le.
  rewrite (u32_small (im_freeinode s + 1)) by lia.
  assert (s16 (u16 type) = type) as -> by (unfold s16, u16; rewrite !(Z.mod_small type) by lia; case_test; lia).
  change (s16 (u16 1)) with 1. change (u32 0) with 0. apply run_bind. change (mk_dinode type 0 0 1 0 _) with d.
  assert (dinode_typed d) as Htd by (split; cbn [d di_type di_major di_minor di_nlink di_size di_addrs]; try lia; [done|by apply Forall_replicate]).
  pose proof (inv_fresh s (dinode_at s) d Hv ltac:(lia) Htd eq_refl eq_refl) as Hv1.
  set (s1 := set_freeinode (im_freeinode s + 1) s) in *.
  eapply (winode_run s1 _ (im_freeinode s)); [done|simpl; lia|done|]. intros s2 Hm Hv2 Hat. pose proof Hm as [(F1 & F2 & F3 & F4) Hs].
  simpl in F2. simpl. split; [done|].
  assert (∀ j, 1 ≤ j < im_freeinode s2 → upd (dinode_at s) (im_freeinode s) d j = dinode_at s2 j) as Hcur.
  { intros j Hj. rewrite Hat by lia. done. }
  split.
  - by eapply inv_ext.
  - rewrite length_app. simpl. lia.
  - rewrite blocks_of_app. simpl in *. rewrite F3, Hfb. change (blocks (Z.of_nat 0)) with 0. lia.
  - intros k ty bytes Hk. rewrite Hat by (apply lookup_lt_Some in Hk; rewrite length_app in Hk; simpl in Hk; lia).
    apply lookup_app_Some in Hk as [Hk|[Hge Hk]].
    + pose proof (lookup_lt_Some _ _ _ Hk). rewrite decide_False by lia. destruct (Hfile _ _ _ Hk) as [Hh Ht].
      assert (∀ n, owns (sec s) (inode_of (dinode_at s (1 + Z.of_nat k))) n → sec s2 n = sec s n) as Hown.
      { intros n Hn. eapply (meta_file s1 _ s2 (1 + Z.of_nat k) Hv1 Hm); [simpl; lia|].
        unfold upd. by rewrite decide_False by lia. }
      split; [by eapply holds_other|by eapply tight_same].
    + apply list_lookup_singleton_Some in Hk as [Hk [= <- <-]]. rewrite decide_True by lia.
      destruct (no_blocks d eq_refl) as [Hn Hi]. split; [split; [done|]|split].
      * intros j Hj. by rewrite file_get_hole.
      * intros bn n _. by rewrite Hn.
      * rewrite Hi. by intros [? ?].
Qed.

Lemma same_inv s cur s' : mkfs_inv s cur → img_frame s s' → im_img s' = im_img s → mkfs_inv s' cur.
Proof.
  intros Hv Hf E. eapply meta_inv; [done| | |].
  - split; [done|]. intros m _. by apply same_sec.
  - intros m Hm. rewrite (same_sec s) by done. by apply (v_blk _ _ Hv).
  - intros j _. unfold dinode_at. by rewrite (same_sec s).
Qed.

Lemma appended_get get (bytes p : list Z) k :
  (∀ j, 0 ≤ j → get j = default 0 (bytes !! Z.to_nat j)) → 0 ≤ k →
  write_get get (Z.of_nat (length bytes)) p k = default 0 ((bytes ++ p) !! Z.to_nat k).
Proof.
  intros Hg Hk. unfold write_get. case_decide as E.
  - rewrite lookup_app_r by lia. do 2 f_equal. lia.
  - rewrite Hg by done. destruct (decide (k < Z.of_nat (length bytes))).
    + by rewrite lookup_app_l by lia.
    + rewrite !lookup_ge_None_2 by (rewrite ?length_app; lia). done.
Qed.

(** The end of [iappend]: the inode is written with its new size. *)
Lemma iappend_finish s fs k type bytes p s1 s2 r :
  image_of s fs → fs !! k = Some (type, bytes) → Z.of_nat (length bytes) + Z.of_nat (length p) ≤ MAXFILE * BSIZE →
  let i := 1 + Z.of_nat k in let d := dinode_at s i in
  mkfs_inv s1 (dinode_at s) → img_frame s s1 → im_img s1 = im_img s → appended i s1 d (di_size d) p r s2 →
  run (winode true io_ok i (set_din_size (xint true r.2) r.1) s2) (λ _ s', image_of s' (<[k := (type, bytes ++ p)]> fs)).
Proof.
  intros [Hv Hfi Hfb Hfile] Hk Hmax i d Hv1 (F1 & F2 & F3 & F4) E1 [M Eoff G Hfull Htight Hbl].
  pose proof (lookup_lt_Some _ _ _ Hk) as Hlt. destruct (Hfile _ _ _ Hk) as [[Hd Hget] _]. fold i d in Hd, Hget.
  assert (Z.of_nat (length bytes) = di_size d) as Esz by (by rewrite Hd).
  assert (MAXFILE * BSIZE < 2 ^ 30) as Hbig by done.
  assert (1 ≤ i < im_freeinode s1) as Hi by (unfold i; lia).
  assert (mkfs_inv s2 (upd (dinode_at s) i r.1)) as Hv2 by (by apply (moved_inv i s1 d)).
  rewrite xint_le, u32_small by lia. set (d2 := set_din_size r.2 r.1).
  assert (mkfs_inv s2 (upd (upd (dinode_at s) i r.1) i d2)) as Hv2'.
  { eapply inv_resize; [done|by rewrite (mv_fi _ _ _ _ _ M)|by rewrite upd_same|done|lia]. }
  assert (∀ j, 0 ≤ j < 200 → dinode_at s2 j = dinode_at s j) as Hlow.
  { intros j Hj. pose proof (iblock_range j ltac:(lia)). unfold dinode_at.
    rewrite (moved_low i s1 d s2 r.1 (dinode_at s)) by (done || lia). by rewrite (same_sec s). }
  pose proof (v_fi _ _ Hv2) as Hfi2. rewrite (mv_fi _ _ _ _ _ M), F2 in Hfi2.
  eapply winode_run; [exact Hv2'|by rewrite (mv_fi _ _ _ _ _ M)| |].
  { pose proof (v_good _ _ Hv2' i) as Hg. rewrite upd_same, (mv_fi _ _ _ _ _ M) in Hg. apply (Hg Hi). }
  intros s3 Hm3 Hv3 Hat. pose proof Hm3 as [(G1 & G2 & G3 & G4) Hs3]. rewrite (mv_fi _ _ _ _ _ M), F2 in G2.
  split.
  - eapply inv_ext; [|exact Hv3]. intros j Hj. rewrite Hat by lia. unfold upd. case_decide; [done|]. by rewrite Hlow by lia.
  - by rewrite length_insert, G2.
  - rewrite (blocks_of_insert _ _ _ _ Hk). simpl. rewrite length_app, Nat2Z.inj_add, G3, Hbl, Eoff, F3, Hfb, Esz. lia.
  - intros k' ty b' Hk'. destruct (decide (k' = k)) as [->|Hne].
    + rewrite list_lookup_insert_eq in Hk' by done. injection Hk' as <- <-. rewrite Hat, decide_True by (unfold i in *; lia || done).
      assert (∀ n, owns (sec s2) (inode_of d2) n → sec s3 n = sec s2 n) as Hown.
      { intros n Hn. eapply (meta_file s2 _ s3 i Hv2' Hm3); [by rewrite (mv_fi _ _ _ _ _ M)|]. by rewrite upd_same. }
      split; [split|].
      * unfold d2, set_din_size. rewrite (mv_only _ _ _ _ _ M), Hd. simpl. rewrite Eoff, <- Esz, length_app. f_equal. lia.
      * intros j Hj. destruct (other_file (sec s2) (sec s3) d2 Hown) as (_ & _ & G'). rewrite G' by done.
        change (inode_of d2) with (set_i_size r.2 (inode_of r.1)). etrans; [apply (G j Hj)|]. rewrite <- Esz.
        apply appended_get; [|done]. intros j' Hj'. rewrite <- Hget by done. unfold file_get, file_byte.
        rewrite (file_addr_ext (sec s) (sec s1)) by (intros; by apply same_sec). destruct (file_addr _ _ _); simpl; [by rewrite (same_sec s)|done].
      * eapply tight_same; [exact Hown|]. rewrite length_app, Nat2Z.inj_add, Esz, <- Eoff. split; apply Htight.
    + rewrite list_lookup_insert_ne in Hk' by done. pose proof (lookup_lt_Some _ _ _ Hk').
      rewrite Hat, decide_False, Hlow by (unfold i; lia).
      destruct (Hfile _ _ _ Hk') as [Hh Ht].
      enough (∀ n, owns (sec s) (inode_of (dinode_at s (1 + Z.of_nat k'))) n → sec s3 n = sec s n) as Hown
        by (split; [by eapply holds_other|by eapply tight_same]). intros n Hn.
      assert (owns (sec s1) (inode_of (dinode_at s (1 + Z.of_nat k'))) n) as Hn1.
      { eapply owns_ext; [|exact Hn]. intros m. by apply same_sec. }
      pose proof (gd_own _ _ _ (v_good _ _ Hv (1 + Z.of_nat k') ltac:(lia)) n Hn).
      rewrite Hs3 by lia. rewrite (moved_other i s1 d s2 r.1 (dinode_at s) (1 + Z.of_nat k') n) by (done || unfold i; lia).
      by apply same_sec.
Qed.

Lemma iappend_run s fs k type bytes p :
  image_of s fs → fs !! k = Some (type, bytes) → Z.of_nat (length bytes) + Z.of_nat (length p) ≤ MAXFILE * BSIZE →
  46 + blocks_of (<[k := (type, bytes ++ p)]> fs) ≤ total →
  run (iappend true io_ok (1 + Z.of_nat k) p s) (λ _ s', image_of s' (<[k := (type, bytes ++ p)]> fs)).
Proof.
  intros Him Hk Hmax Htot. pose proof Him as [Hv Hfi Hfb Hfile]. pose proof (lookup_lt_Some _ _ _ Hk) as Hlt. pose proof (v_fi _ _ Hv).
  rewrite (blocks_of_insert _ _ _ _ Hk) in Htot. simpl in Htot. rewrite length_app, Nat2Z.inj_add in Htot.
  destruct (Hfile _ _ _ Hk) as [[Hd _] Htight]. set (i := 1 + Z.of_nat k) in *. set (d := dinode_at s i) in *.
  assert (di_size d = Z.of_nat (length bytes)) as Esz by (by rewrite Hd).
  assert (MAXFILE * BSIZE < 2 ^ 30) as Hbig by done.
  unfold iappend. apply run_bind. eapply rinode_run; [done|unfold i; lia|]. intros s1 Hf E. fold d.
  pose proof (same_inv s (dinode_at s) s1 Hv Hf E) as Hv1. pose proof Hf as (F1 & F2 & F3 & F4).
  apply run_bind. rewrite xint_le, u32_small by lia.
  eapply run_mono; [apply (iappend_loop_run (S (length p)) i s1 (dinode_at s) d)|].
  - done. - unfold i; lia. - done. - lia. - lia.
  - intros bn H0 Hbn. apply (gd_full _ _ _ (v_good _ _ Hv1 i ltac:(unfold i; lia)) bn H0 Hbn).
  - eapply tight_same; [|by rewrite Esz]. intros n _. by apply same_sec.
  - rewrite F3, Esz. lia.
  - lia.
  - intros r s2 Ha. by eapply iappend_finish.
Qed.

(** ** Directories and files *)

Lemma mseq_append s fs k type bytes chunks :
  image_of s fs → fs !! k = Some (type, bytes) → Z.of_nat (length bytes) + Z.of_nat (length (concat chunks)) ≤ MAXFILE * BSIZE →
  46 + blocks_of (<[k := (type, bytes ++ concat chunks)]> fs) ≤ total →
  run (mseq chunks (λ buf, iappend true io_ok (1 + Z.of_nat k) buf) s) (λ _ s', image_of s' (<[k := (type, bytes ++ concat chunks)]> fs)).
Proof.
  revert s fs bytes. induction chunks as [|c chunks IH]; intros s fs bytes Him Hk Hmax Htot.
  - simpl. rewrite app_nil_r. by rewrite list_insert_id.
  - cbn [mseq]. simpl in Hmax. rewrite length_app in Hmax. apply run_bind.
    assert (46 + blocks_of (<[k := (type, bytes ++ c)]> fs) ≤ total) as Htot'.
    { etrans; [|exact Htot]. rewrite !(blocks_of_insert _ _ _ _ Hk). simpl. rewrite !length_app.
      pose proof (blocks_mono (Z.of_nat (length bytes + length c)) (Z.of_nat (length bytes + (length c + length (concat chunks)))) ltac:(lia)). lia. }
    eapply run_mono; [apply (iappend_run s fs k type bytes c); done || lia|]. intros [] s1 Him1. cbn beta in Him1.
    eapply run_mono; [apply (IH s1 (<[k := (type, bytes ++ c)]> fs) (bytes ++ c)); [done| |rewrite length_app; lia|]|].
    + rewrite list_lookup_insert_eq; [done|by eapply lookup_lt_Some].
    + rewrite list_insert_insert_eq. by rewrite <- app_assoc.
    + intros [] s2. rewrite list_insert_insert_eq. simpl. by rewrite <- app_assoc.
Qed.

(** The name a file gets. *)
Definition target_name (arg : list Z) : list Z := fsname (shortname arg).

(** An argument [mkfs] accepts: its name has no slash, it can be read, and fits. *)
Record good_arg (arg : list Z) : Prop := {
  ga_bytes : Forall (λ c, 0 ≤ c < 256) arg;
  ga_slash : 47 ∉ shortname arg;
  ga_file : ∃ chunks, host_file arg = Some chunks ∧ Z.of_nat (length (concat chunks)) ≤ MAXFILE * BSIZE
}.

Definition contents (arg : list Z) : list Z := concat (default [] (host_file arg)).

Definition entries (args : list (list Z)) : list dirent :=
  mk_dirent ROOTINO (zero_name ".") :: mk_dirent ROOTINO (zero_name "..") ::
  imap (λ k arg, mk_dirent (2 + Z.of_nat k) (strncpy_name (target_name arg))) args.

Definition dir_bytes (args : list (list Z)) : list Z := concat (dirent_bytes <$> entries args).

Definition files_of (args : list (list Z)) : list (Z * list Z) :=
  (T_DIR, dir_bytes args) :: ((λ arg, (T_FILE, contents arg)) <$> args).

Lemma target_bytes arg : Forall (λ c, 0 ≤ c < 256) arg → Forall (λ c, 0 ≤ c < 256) (target_name arg).
Proof.
  intros H. unfold target_name. assert (Forall (λ c, 0 ≤ c < 256) (shortname arg)) as H'.
  { unfold shortname. case_test; [by apply Forall_drop|done]. }
  unfold fsname. destruct H'; [done|]. case_test; [done|by constructor].
Qed.

Lemma dir_bytes_snoc args arg :
  dir_bytes (args ++ [arg]) = dir_bytes args ++ dirent_bytes (mk_dirent (2 + Z.of_nat (length args)) (strncpy_name (target_name arg))).
Proof.
  unfold dir_bytes, entries. rewrite imap_app. cbn [imap]. cbn [fmap list_fmap concat]. rewrite fmap_app, concat_app.
  cbn [fmap list_fmap concat]. rewrite Nat.add_0_r, app_nil_r, !app_assoc. done.
Qed.

Lemma dir_bytes_length args : Forall good_arg args → length (dir_bytes args) = (16 * (2 + length args))%nat.
Proof.
  induction args as [|arg args IH] using rev_ind; [done|]. intros [H1 H2]%Forall_app. apply Forall_cons in H2 as [H2 _].
  rewrite dir_bytes_snoc, length_app, IH, dirent_bytes_length, length_app; [simpl; lia| |done].
  apply strncpy_name_length, target_bytes, H2.
Qed.

(** More files need more blocks. *)
Lemma blocks_of_files args rest :
  Forall good_arg (args ++ rest) → blocks_of (files_of args) ≤ blocks_of (files_of (args ++ rest)).
Proof.
  intros H. unfold files_of. rewrite !blocks_of_cons, fmap_app, blocks_of_app. pose proof (blocks_of_nonneg ((λ arg, (T_FILE, contents arg)) <$> rest)).
  pose proof (proj1 (Forall_app _ _ _) H) as [H1 _]. rewrite !dir_bytes_length, length_app by done.
  pose proof (blocks_mono (Z.of_nat (16 * (2 + length args))) (Z.of_nat (16 * (2 + (length args + length rest)))) ltac:(lia)). lia.
Qed.

Lemma add_file_run s args arg :
  image_of s (files_of args) → Forall good_arg args → good_arg arg → (length args < 198)%nat →
  46 + blocks_of (files_of (args ++ [arg])) ≤ total →
  run (add_file true io_ok host_file ROOTINO arg s) (λ _ s', image_of s' (files_of (args ++ [arg]))).
Proof.
  intros Him Hargs [Hb Hs (chunks & Hf & Hmax)] Hlt Htot. assert (MAXFILE * BSIZE = 274432) as Hm by done.
  assert (length (files_of args) = S (length args)) as Hlen by (simpl; by rewrite length_fmap).
  unfold add_file. apply run_bind, massert_run; [by apply bool_decide_eq_true|]. rewrite Hf. apply run_bind.
  eapply run_mono; [apply mkfs_ialloc_run; [done|lia|done]|]. intros inum s1 [-> Him1].
  apply run_bind. rewrite xshort_le. assert (u16 (1 + Z.of_nat (length (files_of args))) = 2 + Z.of_nat (length args)) as ->
    by (unfold u16; rewrite Z.mod_small; lia).
  change (host_dirent_bytes true ?d) with (dirent_bytes d). change (fsname (shortname arg)) with (target_name arg).
  set (e := dirent_bytes _). assert (length e = 16%nat) as He by (by apply dirent_bytes_length, strncpy_name_length, target_bytes).
  assert (contents arg = concat chunks) as E by (unfold contents; by rewrite Hf).
  unfold files_of in Htot. rewrite dir_bytes_snoc, fmap_app, blocks_of_cons, blocks_of_app in Htot. fold e in Htot.
  cbn [fmap list_fmap] in Htot. rewrite blocks_of_cons, E in Htot. change (blocks_of []) with 0 in Htot.
  pose proof (blocks_mono (Z.of_nat (length (concat chunks))) (Z.of_nat (length (concat chunks))) ltac:(lia)) as Hnn.
  change ROOTINO with (1 + Z.of_nat 0). eapply run_mono; [apply (iappend_run s1 (files_of args ++ [(T_FILE, [])]) 0 T_DIR (dir_bytes args)); [done|done|..]|].
  { rewrite dir_bytes_length, He by done. lia. }
  { change (<[0%nat := ?x]> (files_of args ++ ?l)) with (x :: (((λ arg, (T_FILE, contents arg)) <$> args) ++ l)).
    rewrite blocks_of_cons, blocks_of_app. change (blocks_of [(T_FILE, [])]) with 0. lia. }
  intros [] s2 Him2. cbn beta in Him2. rewrite Hlen.
  eapply run_mono; [apply (mseq_append s2 (<[0%nat := (T_DIR, dir_bytes args ++ e)]> (files_of args ++ [(T_FILE, [])])) (S (length args)) T_FILE [] chunks Him2)|].
  - rewrite list_lookup_insert_ne by done. rewrite lookup_app_r by (rewrite Hlen; lia). by rewrite Hlen, Nat.sub_diag.
  - simpl. lia.
  - erewrite blocks_of_insert.
    2: { rewrite list_lookup_insert_ne by done. rewrite lookup_app_r by (rewrite Hlen; lia). by rewrite Hlen, Nat.sub_diag. }
    change (<[0%nat := ?x]> (files_of args ++ ?l)) with (x :: (((λ arg, (T_FILE, contents arg)) <$> args) ++ l)).
    rewrite blocks_of_cons, blocks_of_app, app_nil_l. change (blocks_of [(T_FILE, [])]) with 0. cbn [snd]. change (blocks (Z.of_nat (length []))) with 0. lia.
  - intros [] s3. cbn beta. simpl. unfold files_of. rewrite dir_bytes_snoc, fmap_app. simpl. rewrite E.
    rewrite <- (length_fmap (λ arg, (T_FILE, contents arg)) args) at 1.
    rewrite insert_app_r_alt by lia. rewrite Nat.sub_diag. done.
Qed.

Lemma add_files_run s args rest :
  image_of s (files_of args) → Forall good_arg args → Forall good_arg rest → (length args + length rest ≤ 198)%nat →
  46 + blocks_of (files_of (args ++ rest)) ≤ total →
  run (mseq rest (add_file true io_ok host_file ROOTINO) s) (λ _ s', image_of s' (files_of (args ++ rest))).
Proof.
  revert s args. induction rest as [|arg rest IH]; intros s args Him Ha Hr Hl Htot; cbn [mseq].
  - simpl. by rewrite app_nil_r.
  - apply Forall_cons in Hr as [H1 H2]. simpl in Hl. apply run_bind.
    assert (Forall good_arg (args ++ [arg])) as Ha' by (by apply Forall_app; split; [done|apply Forall_singleton]).
    replace (args ++ arg :: rest) with ((args ++ [arg]) ++ rest) in * by (by rewrite <- app_assoc).
    pose proof (blocks_of_files (args ++ [arg]) rest (proj2 (Forall_app _ _ _) (conj Ha' H2))).
    eapply run_mono; [apply (add_file_run s args arg); done || lia|]. intros [] s1 Him1. cbn beta in Him1.
    apply IH; try done. rewrite length_app. simpl. lia.
Qed.

(** ** The empty image *)

Lemma write_sector_end buf l : write_sector (length l) buf l = l ++ [buf].
Proof. unfold write_sector. rewrite decide_False by lia. by rewrite Nat.sub_diag. Qed.

Lemma format_run n a s Q :
  0 ≤ a → a + Z.of_nat n ≤ FSSIZE → im_img s = replicate (Z.to_nat a) zeroes →
  (∀ s', im_sb s' = im_sb s → im_freeinode s' = im_freeinode s → im_freeblock s' = im_freeblock s →
     im_img s' = replicate (Z.to_nat (a + Z.of_nat n)) zeroes → Q tt s') →
  run (mseq (seqZ a (Z.of_nat n)) (λ i, wsect io_ok i zeroes) s) Q.
Proof.
  revert a s. induction n as [|n IH]; intros a s Ha Hn Hi HQ.
  - simpl. apply HQ; try done. by rewrite Z.add_0_r.
  - unfold FSSIZE in Hn. rewrite seqZ_cons by lia. replace (Z.pred (Z.of_nat (S n))) with (Z.of_nat n) by lia. cbn [mseq].
    apply run_bind. unfold wsect. apply run_bind, image_io_run. intros s1 (E1 & E2 & E3 & E4) Ei.
    apply run_bind, image_io_run. intros s2 (F1 & F2 & F3 & F4) Fi. simpl. rewrite sector_small by lia.
    assert (write_sector (Z.to_nat a) zeroes (im_img s2) = replicate (Z.to_nat (Z.succ a)) zeroes) as Ew.
    { rewrite Fi, Ei, Hi. rewrite <- (length_replicate (Z.to_nat a) zeroes) at 1. rewrite write_sector_end, <- replicate_S_end.
      f_equal. lia. }
    apply IH; [lia|unfold FSSIZE; lia|done|]. intros s3 G1 G2 G3 G4. simpl in *. apply HQ; try congruence. rewrite G4. f_equal. lia.
Qed.

Lemma zero_dinode_get off : get_dinode zero_block off = zero_dinode.
Proof.
  unfold get_dinode, zero_dinode. rewrite !zero_block_get32.
  assert (∀ o, get16 zero_block o = 0) as E16.
  { intros o. unfold get16, zero_block. rewrite drop_replicate, take_replicate. generalize (2 `min` (Z.to_nat BSIZE - o))%nat.
    intros n. induction n as [|n IH]; simpl; [done|]. by rewrite IH. }
  rewrite !E16. change (s16 0) with 0. f_equal.
  change (replicate 13 0) with ((λ _, 0) <$> seq 0 13). apply list_fmap_ext. intros i k _. apply zero_block_get32.
Qed.

(** The state after the super block is written. *)
Lemma start_run s Q :
  im_img s = [] → im_sb s = the_sb → im_freeinode s = 1 → im_freeblock s = 46 →
  (∀ s', image_of s' [] → Q tt s') →
  run (mseq (seqZ 0 FSSIZE) (λ i, wsect io_ok i zeroes) s) (λ _ s1, run (wsect io_ok 1 (put_at 0 (host_sb_bytes true (mkfs_sb true)) zeroes) s1) Q).
Proof.
  intros H1 H2 H3 H4 HQ. change FSSIZE with (Z.of_nat 2000) at 1.
  apply format_run; [done|done|done|]. intros s1 E1 E2 E3 E4. change (Z.to_nat (0 + Z.of_nat 2000)) with 2000%nat in E4.
  assert (length (im_img s1) = 2000%nat) as Hl by (by rewrite E4, length_replicate).
  apply wsect_run; [rewrite Hl; lia|rewrite Hl; done|]. intros s2 (F1 & F2 & F3 & F4) Hs. apply HQ. rewrite the_sb_ok in Hs.
  change zeroes with zero_block in *.
  assert (∀ m, 0 ≤ m < 2000 → sec s1 m = Some zero_block) as Hz.
  { intros m Hm. unfold sec. rewrite (proj2 (Z.ltb_ge m 0)), E4 by lia. apply lookup_replicate_2. lia. }
  assert (∀ m, 0 ≤ m < 2000 → m ≠ 1 → sec s2 m = Some zero_block) as Hz' by (intros m Hm Hne; rewrite Hs, decide_False; auto).
  rewrite H2 in E1. rewrite H3 in E2. rewrite H4 in E3.
  split; [split|by rewrite F2, E2|by rewrite F3, E3|done]; rewrite ?F1, ?F2, ?F3, ?F4, ?E1, ?E2, ?E3, ?Hl; try done; try (intros; lia).
  - intros m Hm. rewrite Hs. case_decide; [eexists; split; [done|reflexivity]|]. rewrite Hz by done. eexists. split; [done|reflexivity].
  - intros m Hm. apply Hz'; lia.
  - intros m Hm. apply Hz'; lia.
  - intros j Hj. unfold dinode_at. pose proof (iblock_range j ltac:(lia)). rewrite Hz' by lia. cbn [default from_option].
    apply zero_dinode_get.
Qed.

(** ** The root directory fills its last block, and the free map *)

Definition pad_of (bytes : list Z) : list Z := replicate (Z.to_nat (BSIZE - Z.of_nat (length bytes) mod BSIZE)) 0.

Lemma pad_length bytes : Z.of_nat (length (bytes ++ pad_of bytes)) = (Z.of_nat (length bytes) / BSIZE + 1) * BSIZE.
Proof. rewrite length_app. unfold pad_of. rewrite length_replicate. unfold BSIZE. zarith. Qed.

Lemma blocks_pad len : 0 ≤ len → len mod BSIZE ≠ 0 → blocks ((len / BSIZE + 1) * BSIZE) = blocks len.
Proof.
  unfold blocks, NDIRECT, BSIZE. intros H0 H. f_equal; [zarith|].
  destruct (Z.ltb_spec (12 * 1024) len), (Z.ltb_spec (12 * 1024) ((len / 1024 + 1) * 1024)); zarith || done.
Qed.

Lemma fix_root_size_run s fs type bytes :
  image_of s fs → fs !! 0%nat = Some (type, bytes) → Z.of_nat (length bytes) mod BSIZE ≠ 0 →
  Z.of_nat (length (bytes ++ pad_of bytes)) ≤ MAXFILE * BSIZE →
  run (fix_root_size true io_ok ROOTINO s) (λ _ s', image_of s' (<[0%nat := (type, bytes ++ pad_of bytes)]> fs)).
Proof.
  intros Him Hk Hmod Hmax. pose proof Him as [Hv Hfi Hfb Hfile]. pose proof (lookup_lt_Some _ _ _ Hk) as Hlt. pose proof (v_fi _ _ Hv).
  destruct (Hfile _ _ _ Hk) as [[Hd Hget] Htight]. change (1 + Z.of_nat 0) with 1 in *. set (d := dinode_at s 1) in *.
  assert (di_size d = Z.of_nat (length bytes)) as Esz by (by rewrite Hd).
  assert (MAXFILE * BSIZE < 2 ^ 30) as Hbig by done. pose proof (pad_length bytes) as Hpl.
  unfold fix_root_size. apply run_bind. change ROOTINO with 1. eapply rinode_run; [done|lia|]. intros s1 Hf E. fold d.
  pose proof (same_inv s (dinode_at s) s1 Hv Hf E) as Hv1. pose proof Hf as (F1 & F2 & F3 & F4).
  rewrite length_app, Nat2Z.inj_add in Hmax, Hpl. rewrite !xint_le, (u32_small (di_size d)), Esz, <- Hpl, !(u32_small (_ + _)) by lia.
  assert (∀ k, 0 ≤ k → file_get (sec s1) (inode_of d) k = file_get (sec s) (inode_of d) k) as Hsame.
  { intros k Hk0. apply (other_file (sec s) (sec s1) d); [|done]. intros n _. by apply same_sec. }
  set (r := (d, Z.of_nat (length bytes) + Z.of_nat (length (pad_of bytes)))).
  enough (appended 1 s1 d (di_size d) (pad_of bytes) r s1) as Hap.
  { pose proof (iappend_finish s fs 0 type bytes (pad_of bytes) s1 s1 r Him Hk ltac:(lia) Hv1 Hf E Hap) as Hfin.
    rewrite xint_le, u32_small in Hfin by (simpl; lia). exact Hfin. }
  split; cbn [r fst snd].
  - eapply moved_same; try done. lia.
  - by rewrite Esz.
  - intros k Hk0. rewrite Esz. unfold write_get. case_decide as Ek; [|done]. rewrite Hsame, Hget by done.
    rewrite lookup_ge_None_2 by lia. unfold pad_of. destruct (replicate _ 0 !! _) eqn:Er; [|done]. by apply lookup_replicate_1 in Er as [-> _].
  - intros bn H0 Hbn. apply (gd_full _ _ _ (v_good _ _ Hv1 1 ltac:(lia)) bn H0). fold d. rewrite Esz.
    unfold BSIZE in *. zarith.
  - assert (tight s1 d (Z.of_nat (length bytes))) as [T1 T2] by (eapply tight_same; [|exact Htight]; intros n _; by apply same_sec).
    split; [intros bn n H0 Ha; specialize (T1 bn n H0 Ha); lia|intros Hx; specialize (T2 Hx); lia].
  - rewrite Esz, Hpl, blocks_pad by (done || lia). lia.
Qed.

(** The block [balloc] writes: the first [used] bits are set. *)
Definition free_map (used : Z) : list Z := foldl (λ buf i, set_bit buf i) zeroes (seqZ 0 used).

Lemma free_map_bits (n : nat) b :
  Z.of_nat n ≤ BPB → 0 ≤ b < BPB →
  length (free_map (Z.of_nat n)) = 1024%nat ∧ bit_clear (free_map (Z.of_nat n)) b = negb (b <? Z.of_nat n).
Proof.
  intros Hn Hb. induction n as [|n IH].
  - split; [done|]. change (free_map (Z.of_nat 0)) with zero_block. unfold bit_clear, byte_at. rewrite zero_block_get, Z.land_0_l.
    by rewrite (proj2 (Z.ltb_ge _ _)) by lia.
  - destruct IH as [IH1 IH2]; [lia|]. unfold free_map. rewrite seqZ_S, foldl_app. cbn [foldl]. rewrite Z.add_0_l.
    fold (free_map (Z.of_nat n)). split; [unfold set_bit; by rewrite length_insert|].
    rewrite set_bit_spec, IH2 by (done || lia). destruct (Z.eqb_spec (Z.of_nat n) b); [|].
    + by rewrite (proj2 (Z.ltb_lt _ _)) by lia.
    + f_equal. destruct (Z.ltb_spec b (Z.of_nat n)), (Z.ltb_spec b (Z.of_nat (S n))); lia || done.
Qed.

(** The finished image: the one before, with its free map. *)
Definition built (s : image) (fs : list (Z * list Z)) : Prop :=
  ∃ s0, image_of s0 fs ∧ ∀ m, sec s m = if decide (m = 45) then Some (free_map (im_freeblock s0)) else sec s0 m.

Lemma mkfs_balloc_run s fs :
  image_of s fs → run (mkfs_balloc io_ok (im_freeblock s) s) (λ _ s', built s' fs).
Proof.
  intros Him. pose proof (io_inv _ _ Him) as Hv. pose proof (v_fb _ _ Hv). pose proof (v_len _ _ Hv) as Hl.
  unfold mkfs_balloc. apply run_bind, massert_run; [apply Z.ltb_lt; unfold BSIZE; lia|]. apply run_bind. simpl.
  rewrite (v_sb _ _ Hv). apply wsect_run; [rewrite Hl; simpl; lia|rewrite Hl; done|]. intros s' Hf Hs. by exists s.
Qed.

Lemma built_block s s0 fs : image_of s0 fs → (∀ m, sec s m = if decide (m = 45) then Some (free_map (im_freeblock s0)) else sec s0 m) →
  ∀ m, 0 ≤ m < 2000 → ∃ data, sec s m = Some data ∧ length data = 1024%nat.
Proof.
  intros Him Hs m Hm. rewrite Hs. case_decide; [|by apply (v_blk _ _ (io_inv _ _ Him))]. eexists. split; [done|].
  pose proof (v_fb _ _ (io_inv _ _ Him)). rewrite <- (Z2Nat.id (im_freeblock s0)) by lia. apply (free_map_bits _ 0); unfold BPB, BSIZE; lia.
Qed.

(** ** The kernel on the image *)

(** A kernel whose disk is the image, after [fsinit] has read the super block. *)
Record mounts (k : kstate) (s : image) : Prop := {
  mt_sb : k_sb k = get_sb (default [] (sec s 1));
  mt_blk m : 0 ≤ m < 2000 → blk k m = sec s m;
  mt_disk m : 0 ≤ m < 2000 → is_Some (k_disk k !! m)
}.

(** On such a kernel inode [1 + j] is a well-formed file of that type, with one link
    and those bytes. *)
Record file_at (k : kstate) (j : nat) (type : Z) (bytes : list Z) : Prop := {
  fa_wf : file_wf k (inode_of (dinode_on_disk k (1 + Z.of_nat j)));
  fa_inode : dinode_on_disk k (1 + Z.of_nat j) =
    mk_dinode type 0 0 1 (Z.of_nat (length bytes)) (di_addrs (dinode_on_disk k (1 + Z.of_nat j)));
  fa_bytes : file_bytes (blk k) (inode_of (dinode_on_disk k (1 + Z.of_nat j))) 0 (Z.of_nat (length bytes)) = bytes
}.

Record mounted (k : kstate) (fs : list (Z * list Z)) : Prop := {
  mo_sb : k_sb k = the_sb;
  mo_layout : fs_layout k;
  mo_file j type bytes : fs !! j = Some (type, bytes) → file_at k j type bytes;
  mo_disjoint j j' n : (j < length fs)%nat → (j' < length fs)%nat →
    owns (blk k) (inode_of (dinode_on_disk k (1 + Z.of_nat j))) n →
    owns (blk k) (inode_of (dinode_on_disk k (1 + Z.of_nat j'))) n → j = j';
  mo_free j : Z.of_nat (length fs) < j < 200 → dinode_on_disk k j = zero_dinode;
  mo_used n : 0 ≤ n < FSSIZE → used (k_sb k) (blk k) n = (n <? 46 + blocks_of fs);
  mo_log : blk k 2 = Some zero_block
}.

Section kernel.
Context (k : kstate) (s s0 : image) (fs : list (Z * list Z)).
Hypothesis Hm : mounts k s.
Hypothesis Him : image_of s0 fs.
Hypothesis Hs : ∀ m, sec s m = if decide (m = 45) then Some (free_map (im_freeblock s0)) else sec s0 m.

Lemma k_same m : 0 ≤ m < 2000 → m ≠ 45 → blk k m = sec s0 m.
Proof using Hm Hs. intros H1 H2. rewrite (mt_blk _ _ Hm) by done. rewrite Hs. by rewrite decide_False. Qed.

Lemma k_the_sb : k_sb k = the_sb.
Proof using Hm Him Hs.
  rewrite (mt_sb _ _ Hm), Hs. rewrite decide_False by done. rewrite (v_super _ _ (io_inv _ _ Him)). reflexivity.
Qed.

Lemma k_iblock j : 1 ≤ j < 200 → IBLOCK j (k_sb k) = 32 + j / IPB.
Proof using Hm Him Hs.
  intros Hj. rewrite k_the_sb. unfold IBLOCK. simpl. pose proof (iblock_range j ltac:(lia)). rewrite u32_small by lia. lia.
Qed.

Lemma k_bblock b : 0 ≤ b < 2000 → BBLOCK b (k_sb k) = 45.
Proof using Hm Him Hs.
  intros Hb. rewrite k_the_sb. unfold BBLOCK. simpl. unfold BPB, BSIZE. change (1024 * 8) with 8192.
  rewrite Z.div_small by lia. done.
Qed.

Lemma k_dinode j : 1 ≤ j < 200 → dinode_on_disk k j = dinode_at s0 j.
Proof using Hm Him Hs.
  intros Hj. unfold dinode_on_disk, dinode_at. rewrite k_iblock by done. pose proof (iblock_range j ltac:(lia)).
  by rewrite k_same by lia.
Qed.

Lemma k_used b : 0 ≤ b < 2000 → used (k_sb k) (blk k) b = (b <? im_freeblock s0).
Proof using Hm Him Hs.
  intros Hb. pose proof (v_fb _ _ (io_inv _ _ Him)).
  rewrite (used_data _ _ _ (free_map (im_freeblock s0))).
  - destruct (free_map_bits (Z.to_nat (im_freeblock s0)) (b mod BPB)) as [_ E]; [unfold BPB, BSIZE; lia|by apply Z.mod_pos_bound|].
    rewrite Z2Nat.id in E by lia. rewrite E, negb_involutive. by rewrite Z.mod_small by (unfold BPB, BSIZE; lia).
  - rewrite k_bblock, (mt_blk _ _ Hm), Hs by done. by rewrite decide_True.
Qed.

Lemma k_block m : 0 ≤ m < 2000 → ∃ data, blk k m = Some data ∧ length data = 1024%nat.
Proof using Hm Him Hs.
  intros Hr. rewrite (mt_blk _ _ Hm) by done. by apply (built_block s s0 fs).
Qed.

Lemma k_layout : fs_layout k.
Proof using Hm Him Hs.
  pose proof (v_fb _ _ (io_inv _ _ Him)) as Hfb. assert (sb_size (k_sb k) = 2000) as Hsz by (by rewrite k_the_sb).
  assert (sb_ninodes (k_sb k) = 200) as Hni by (by rewrite k_the_sb). split; [split| | | |]; rewrite ?Hsz, ?Hni.
  - done.
  - by rewrite k_the_sb.
  - apply k_block.
  - rewrite k_used by done. lia.
  - intros b Hb. rewrite k_bblock, k_used by done. lia.
  - done.
  - apply (mt_disk _ _ Hm).
  - intros j Hj. pose proof (iblock_range j ltac:(lia)). rewrite k_iblock by done. split_and!; [lia|lia|rewrite k_used; lia|].
    intros b Hb. rewrite k_bblock by done. lia.
  - intros j Hj. rewrite k_iblock by done. rewrite k_the_sb. simpl. lia.
Qed.

Lemma k_owned j : 1 ≤ j < 1 + Z.of_nat (length fs) → ∀ n, owns (sec s0) (inode_of (dinode_at s0 j)) n → blk k n = sec s0 n.
Proof using Hm Him Hs.
  intros Hj n Ho. pose proof (io_inv _ _ Him) as Hv. pose proof (v_fb _ _ Hv). rewrite <- (io_fi _ _ Him) in Hj.
  pose proof (gd_own _ _ _ (v_good _ _ Hv j Hj) n Ho). apply k_same; lia.
Qed.

Lemma k_wf j : 1 ≤ j < 1 + Z.of_nat (length fs) → file_wf k (inode_of (dinode_at s0 j)).
Proof using Hm Him Hs.
  intros Hj. pose proof (k_owned j Hj) as Ho. pose proof (io_inv _ _ Him) as Hv. pose proof (v_fb _ _ Hv). rewrite <- (io_fi _ _ Him) in Hj.
  destruct (good_other _ _ _ _ _ Ho (Z.le_refl _) (v_good _ _ Hv j Hj)) as [G1 G2 G3 G4 G5 G6]. split; try done.
  - intros n Hn. pose proof (G3 n Hn). rewrite k_used by lia. split; [|lia]. split.
    + rewrite k_the_sb. simpl. lia.
    + intros b Hb. rewrite k_the_sb in Hb. rewrite k_bblock by done. lia.
    + intros inum Hin. rewrite k_the_sb in Hin. rewrite k_iblock by done. simpl in Hin. pose proof (iblock_range inum ltac:(lia)). lia.
Qed.

Lemma k_mounted : mounted k fs.
Proof using Hm Him Hs.
  pose proof (io_inv _ _ Him) as Hv. pose proof (io_fi _ _ Him) as Hfi. pose proof (v_fi _ _ Hv).
  split.
  - apply k_the_sb.
  - apply k_layout.
  - intros j type bytes Hj. pose proof (lookup_lt_Some _ _ _ Hj). pose proof (io_file _ _ Him _ _ _ Hj) as [[H1 H2] _].
    assert (1 ≤ 1 + Z.of_nat j < 1 + Z.of_nat (length fs)) as Hr by lia. split; rewrite k_dinode by lia.
    + by apply k_wf.
    + done.
    + destruct (other_file _ _ _ (k_owned _ Hr)) as (_ & _ & G). rewrite file_bytes_get. apply list_eq. intros i.
      rewrite list_lookup_fmap. destruct (decide (i < length bytes)%nat) as [Hi|Hi].
      * rewrite lookup_seqZ_lt by lia. simpl. rewrite G, H2 by lia. destruct (lookup_lt_is_Some_2 bytes i Hi) as [x Hx].
        replace (Z.to_nat (0 + (0 + Z.of_nat i))) with i by lia. by rewrite Hx.
      * rewrite lookup_seqZ_ge by lia. by rewrite lookup_ge_None_2 by lia.
  - intros j j' n Hj Hj'. rewrite !k_dinode by lia.
    intros Ho%(other_file _ _ _ (k_owned (1 + Z.of_nat j) ltac:(lia))) Ho'%(other_file _ _ _ (k_owned (1 + Z.of_nat j') ltac:(lia))).
    assert (1 + Z.of_nat j = 1 + Z.of_nat j') by (eapply (v_disj _ _ Hv); try done; lia). lia.
  - intros j Hj. rewrite k_dinode by lia. apply (v_rest _ _ Hv). lia.
  - intros n Hn. rewrite k_used by done. by rewrite (io_fb _ _ Him).
  - rewrite k_same by lia. apply (v_meta _ _ Hv). lia.
Qed.

End kernel.

(** ** The program *)

(** The files on the finished image: the root directory fills its last block. *)
Definition image_files (args : list (list Z)) : list (Z * list Z) :=
  <[0%nat := (T_DIR, dir_bytes args ++ pad_of (dir_bytes args))]> (files_of args).

(** How a run of [main] ends. *)
Definition ends (r : outcome unit) (Q : image → Prop) : Prop :=
  match r with
  | Exit c s => c = 1 ∧ excused ∨ c = 0 ∧ Q s
  | Done _ _ | Abort _ | Loop => False
  end.

Lemma ends_bind {A} (m : MK A) (f : A → MK unit) s Q : run (m s) (λ a s', ends (f a s') Q) → ends (mbind f m s) Q.
Proof. unfold mbind, MK_bind. destruct (m s); simpl; auto. Qed.

Lemma mkfs_main_built (prog img : list Z) args :
  Forall good_arg args → (length args ≤ 198)%nat → Z.of_nat (2 + length args) mod 64 ≠ 0 →
  46 + blocks_of (files_of args) ≤ total →
  ends (mkfs_main true io_ok true host_file (prog :: img :: args) mkfs_start) (λ s, built s (image_files args)).
Proof.
  intros Ha Hl Hmod Htot. assert (MAXFILE * BSIZE = 274432) as Hmax by done.
  unfold mkfs_main. rewrite (proj2 (Z.ltb_ge _ _)) by (simpl; lia). cbn [negb].
  apply ends_bind. change (run (mod_st ?f ?s) ?Q) with (Q tt (f s)). cbv beta.
  apply ends_bind. eapply run_mono; [apply (start_run _ (λ _ s, image_of s [])); done|].
  intros [] s1 H1. apply ends_bind. eapply run_mono; [exact H1|]. intros [] s2 H2. cbn beta in H2.
  apply ends_bind. eapply run_mono; [apply (mkfs_ialloc_run s2 [] T_DIR); done || (simpl; lia)|]. intros ? s3 [-> H3].
  change (1 + Z.of_nat (length (@nil (Z * list Z)))) with ROOTINO. apply ends_bind, massert_run; [done|].
  change (xshort true ROOTINO) with ROOTINO. change (host_dirent_bytes true ?d) with (dirent_bytes d).
  pose proof (blocks_of_files [] args Ha) as Hb0. assert (blocks_of (files_of []) = 1) as E0 by done.
  apply ends_bind. eapply run_mono; [apply (iappend_run s3 _ 0 T_DIR [] _ H3); [done|done|]|].
  { transitivity (46 + blocks_of (files_of [])); [done|simpl in *; lia]. }
  intros [] s4 H4. apply ends_bind. eapply run_mono; [eapply (iappend_run s4 _ 0 T_DIR _ _ H4); [done|done|]|].
  { transitivity (46 + blocks_of (files_of [])); [done|simpl in *; lia]. }
  intros [] s5 H5. apply ends_bind. eapply run_mono; [apply (add_files_run s5 [] args H5); [done|done|simpl; lia|done]|]. intros [] s6 H6.
  rewrite app_nil_l in H6. pose proof (dir_bytes_length args Ha) as Hd. pose proof (pad_length (dir_bytes args)) as Hp.
  apply ends_bind. eapply run_mono; [apply (fix_root_size_run s6 _ T_DIR (dir_bytes args) H6); [done|..]|].
  { rewrite Hd. unfold BSIZE. zarith. }
  { rewrite Hp, Hd. unfold BSIZE in *. zarith. }
  intros [] s7 H7. apply ends_bind. simpl. apply ends_bind.
  eapply run_mono; [apply (mkfs_balloc_run s7 _ H7)|]. intros [] s8 H8. simpl. by right.
Qed.

End spec.

(** ** The root directory *)

Lemma concat_chunk {A} m (ls : list (list A)) rest j x :
  Forall (λ l, length l = m) ls → ls !! j = Some x → take m (drop (m * j) (concat ls ++ rest)) = x.
Proof.
  revert j. induction ls as [|l ls IH]; intros j Hl Hj; [done|]. apply Forall_cons in Hl as [H1 H2]. simpl. rewrite <- app_assoc.
  destruct j as [|j]; simplify_eq/=.
  - rewrite Nat.mul_0_r, drop_0. apply take_app_length.
  - rewrite Nat.mul_succ_r, Nat.add_comm, <- drop_drop, drop_app_length. by apply IH.
Qed.

Lemma file_bytes_part B ip off n len :
  0 ≤ off → 0 ≤ n → off + n ≤ len → file_bytes B ip off n = take (Z.to_nat n) (drop (Z.to_nat off) (file_bytes B ip 0 len)).
Proof.
  intros H1 H2 H3. apply list_eq. intros i. rewrite !file_bytes_get. destruct (decide (i < Z.to_nat n)%nat) as [Hi|Hi].
  - rewrite lookup_take_lt, lookup_drop, !list_lookup_fmap, !lookup_seqZ_lt by lia. simpl. do 2 f_equal. lia.
  - rewrite lookup_take_ge, list_lookup_fmap, lookup_seqZ_ge by lia. done.
Qed.

Lemma entries_good host_file args : Forall (good_arg host_file) args → (length args ≤ 198)%nat →
  Forall (λ e, 0 ≤ de_inum e < 65536 ∧ length (de_name e) = 14%nat) (entries args).
Proof.
  intros Ha Hl. unfold entries. repeat (apply Forall_cons; split; [done|]). apply Forall_lookup. intros j e He.
  rewrite list_lookup_imap in He. destruct (args !! j) as [arg|] eqn:E; [|done]. injection He as <-. cbn [de_inum de_name].
  pose proof (lookup_lt_Some _ _ _ E). split; [lia|]. eapply strncpy_name_length, target_bytes.
  by eapply (ga_bytes host_file), Forall_lookup_1.
Qed.

Lemma mounted_entry host_file k args j e :
  Forall (good_arg host_file) args → (length args ≤ 198)%nat → mounted k (image_files host_file args) →
  entries args !! j = Some e → dir_entry (blk k) (inode_of (dinode_on_disk k ROOTINO)) (Z.of_nat j) = e.
Proof.
  intros Ha Hl Hm He. pose proof (entries_good _ _ Ha Hl) as Hg.
  destruct (mo_file _ _ Hm 0 T_DIR (dir_bytes args ++ pad_of (dir_bytes args)) eq_refl) as [_ _ Hb]. change (1 + Z.of_nat 0) with ROOTINO in Hb.
  assert (Forall (λ l, length l = 16%nat) (dirent_bytes <$> entries args)) as H16.
  { apply Forall_fmap. eapply Forall_impl; [exact Hg|]. intros [i nm] [_ H]. by apply dirent_bytes_length. }
  pose proof (lookup_lt_Some _ _ _ He) as Hj. pose proof (dir_bytes_length host_file args Ha) as Hd.
  assert (length (entries args) = (2 + length args)%nat) as Hel by (unfold entries; simpl; by rewrite length_imap).
  unfold dir_entry, DIRENT_SIZE. rewrite (file_bytes_part _ _ _ _ (Z.of_nat (length (dir_bytes args ++ pad_of (dir_bytes args)))))
    by (rewrite ?length_app; lia).
  rewrite Hb. replace (Z.to_nat (Z.of_nat j * 16)) with (16 * j)%nat by lia. change (Z.to_nat 16) with 16%nat.
  change (dir_bytes args ++ ?x) with (concat (dirent_bytes <$> entries args) ++ x).
  rewrite (concat_chunk 16 _ _ j (dirent_bytes e)); [|done|by rewrite list_lookup_fmap, He].
  pose proof (Forall_lookup_1 _ _ _ _ Hg He) as [H1 H2]. destruct e as [i nm]. simpl in *.
  rewrite <- (Z.mod_small i 65536) at 1 by lia. by apply get_dirent_bytes.
Qed.

(** ** The property *)

(** C16: [mkfs] on a little-endian host, given at most 198 readable files of at most
    [MAXFILE] blocks whose names have no slash (and not 62 or 126 or 190 of them), ends.
    It fails only when a call on the image fails or the files need more than [FSSIZE]
    blocks. Otherwise it writes the whole image, a file system the kernel's invariants hold on: every
    inode is a well-formed file with its type, one link and its bytes, no block belongs
    to two files, the free map marks exactly the blocks in use, the log is empty, the
    other inodes are free, and the root directory has the entries in order. *)
Theorem mkfs_correct io_ok host_file (prog img : list Z) args :
  Forall (good_arg host_file) args → (length args ≤ 198)%nat → Z.of_nat (2 + length args) mod 64 ≠ 0 →
  match mkfs_main true io_ok true host_file (prog :: img :: args) mkfs_start with
  | Exit c s =>
      c = 1 ∧ ((∃ n, io_ok n = false) ∨ FSSIZE < 46 + blocks_of (files_of host_file args)) ∨
      c = 0 ∧ (∀ m, 0 ≤ m < FSSIZE → ∃ data, sec s m = Some data ∧ length data = 1024%nat) ∧
      ∀ k, mounts k s → mounted k (image_files host_file args) ∧
        ∀ j e, entries args !! j = Some e → dir_entry (blk k) (inode_of (dinode_on_disk k ROOTINO)) (Z.of_nat j) = e
  | _ => False
  end.
Proof.
  intros Ha Hl Hmod.
  pose proof (mkfs_main_built io_ok host_file (46 + blocks_of (files_of host_file args)) prog img args Ha Hl Hmod (Z.le_refl _)) as H.
  unfold ends in H. destruct (mkfs_main _ _ _ _ _ _) as [|c s| |]; try done. destruct H as [[-> H]|[-> (s0 & Him & Hs)]]; [left|right].
  - done.
  - split; [done|]. split; [by apply (built_block s s0 _ Him)|]. intros k Hm. pose proof (k_mounted k s s0 _ Hm Him Hs) as Hk. split; [done|].
    intros j e. by apply (mounted_entry host_file).
Qed.

(** ** Two files *)

Definition demo_host (arg : list Z) : option (list (list Z)) := Some [replicate 1024 65; replicate 1000 66].
Definition demo_args : list (list Z) := [cstr "README"; cstr "user/_cat"].

(** A kernel that has just started on the image. *)
Definition image_disk (s : image) : diskmap := list_to_map ((λ n, (n, default [] (sec s n))) <$> seqZ 0 FSSIZE).
Definition image_machine (s : image) : kstate :=
  set_k_sb (get_sb (default [] (sec s 1))) (log_machine (mk_log 2 30 0 0 ROOTDEV 0 (replicate 30 0)) (image_disk s)).

Lemma image_disk_at s n : 0 ≤ n < FSSIZE → image_disk s !! n = Some (default [] (sec s n)).
Proof. apply (seq_disk (λ n, default [] (sec s n))). Qed.

Lemma image_machine_disk s : k_disk (image_machine s) = image_disk s.
Proof. reflexivity. Qed.

Lemma k_bufs_sb sb s : k_bufs (set_k_sb sb s) = k_bufs s.
Proof. reflexivity. Qed.

Lemma image_machine_bufs s : k_bufs (image_machine s) = fresh_cache.
Proof. unfold image_machine. rewrite k_bufs_sb. apply log_machine_bufs. Qed.

Lemma image_machine_blk s m : blk (image_machine s) m = image_disk s !! m.
Proof. rewrite blk_fresh by apply image_machine_bufs. by rewrite image_machine_disk. Qed.

Lemma image_machine_mounts s : (∀ m, 0 ≤ m < FSSIZE → ∃ data, sec s m = Some data ∧ length data = 1024%nat) → mounts (image_machine s) s.
Proof.
  intros H. assert (∀ m, 0 ≤ m < FSSIZE → image_disk s !! m = sec s m ∧ is_Some (sec s m)) as Hd.
  { intros m Hm. destruct (H m Hm) as (data & Hd & _). rewrite image_disk_at, Hd by done. eauto. }
  clear H. split.
  - done.
  - intros m Hm. rewrite image_machine_blk. apply Hd, Hm.
  - intros m Hm. rewrite image_machine_disk. destruct (Hd m Hm) as [-> H]. exact H.
Qed.

Lemma demo_args_good : Forall (good_arg demo_host) demo_args.
Proof.
  assert (∀ a, Forall (λ c, 0 ≤ c < 256) a → 47 ∉ shortname a → good_arg demo_host a) as H.
  { intros a H1 H2. split; [done|done|]. eexists. split; [done|]. rewrite length_concat. simpl. vm_compute. congruence. }
  repeat (apply Forall_cons; split; [apply H; apply (bool_decide_unpack _); by vm_compute|]). done.
Qed.

Lemma mkfs_correct_witness :
  ∃ s k, mkfs_main true (λ _, true) true demo_host (cstr "mkfs" :: cstr "fs.img" :: demo_args) mkfs_start = Exit 0 s ∧
    mounts k s ∧ mounted k (image_files demo_host demo_args) ∧ dir_entry (blk k) (inode_of (dinode_on_disk k ROOTINO)) 3 = mk_dirent 3 (strncpy_name (cstr "cat")).
Proof.
  pose proof (mkfs_correct (λ _, true) demo_host (cstr "mkfs") (cstr "fs.img") demo_args demo_args_good ltac:(simpl; lia) ltac:(done)) as H.
  destruct (mkfs_main _ _ _ _ _ _) as [|c s| |]; try done. destruct H as [[_ [[n Hn]|Hn]]|[-> [Hb Hk]]]; [done| |].
  - vm_compute in Hn. done.
  - exists s, (image_machine s). destruct (Hk _ (image_machine_mounts s Hb)) as [Hm He].
    split_and!; [done|by apply image_machine_mounts|done|]. by apply (He 3%nat).
Defined.
