(* ===== verification/ProcLife.v ===== *)
(** * The life of a process

    Creation, [fork], [exit], [wait] and [waitx] of [kernel/proc.c].  [for (;;)]
    loops that sleep take a bound on the number of times round. *)

From Stdlib Require Import ZArith Lia.
From S2P Require Import Prelude Machine Kernel Boot CString Printf Kalloc Vm ProcTable Sched File.

Section proclife.
Context `{B : Build} `{F : FileSystem}.

(** ** Page tables of processes *)

Definition proc_pagetable (i : nat) : M Z :=
  pagetable <- uvmcreate;;
  if pagetable =? 0 then ret 0
  else
    r <- mappages pagetable TRAMPOLINE PGSIZE trampoline (Z.lor PTE_R PTE_X);;
    if r <? 0 then uvmfree pagetable 0;; ret 0
    else
      p <- getp i;;
      r <- mappages pagetable TRAPFRAME PGSIZE (p_trapframe p) (Z.lor PTE_R PTE_W);;
      if r <? 0 then uvmunmap pagetable TRAMPOLINE 1 false;; uvmfree pagetable 0;; ret 0
      else ret pagetable.

Definition proc_freepagetable (pagetable sz : Z) : M unit :=
  uvmunmap pagetable TRAMPOLINE 1 false;;
  uvmunmap pagetable TRAPFRAME 1 false;;
  uvmfree pagetable sz.

(** ** Slots of the table *)

Definition freeproc (i : nat) : M unit :=
  p <- getp i;;
  when (truthy (p_trapframe p)) (kfree (p_trapframe p));;
  modp i (set_p_trapframe 0);;
  when (truthy (p_pagetable p)) (proc_freepagetable (p_pagetable p) (p_sz p));;
  modp i (set_p_pagetable 0);;
  modp i (set_p_sz 0);;
  modp i (set_p_pid 0);;
  modp i (set_p_parent None);;
  modp i (λ p, set_p_name (<[0%nat := 0]> (p_name p)) p);;
  modp i (set_p_chan Ch_null);;
  modp i (set_p_killed 0);;
  modp i (set_p_xstate 0);;
  modp i (set_p_state UNUSED);;
  when (truthy (p_trap_backup p)) (kfree (p_trap_backup p));;
  modp i (set_p_trap_backup 0);;
  modp i (set_p_sigalarm_nticks 0);;
  modp i (set_p_sigalarm_running 0);;
  modp i (set_p_sigalarm_handler 0);;
  when (bool_decide (policy = MLFQ)) (modp i (set_p_mlfq_data (mk_mlfq 0 0 0 0 0))).

(** What [kalloc] leaves in a page that becomes a trapframe. *)
Definition junk64 : Z := 0x0505050505050505.
Definition junk_tf : trapframe :=
  mk_tf junk64 junk64 junk64 junk64 junk64 junk64 junk64 junk64 junk64 junk64 junk64 junk64 junk64
    junk64 junk64 junk64 junk64 junk64 junk64 junk64 junk64 junk64 junk64 junk64 junk64 junk64
    junk64 junk64 junk64 junk64 junk64 junk64 junk64 junk64 junk64 junk64.

(** [(struct trapframe * )kalloc()] *)
Definition kalloc_tf : M Z :=
  pa <- kalloc;;
  when (truthy pa) (modify (λ s, set_k_tfs (<[pa := junk_tf]> (k_tfs s)) s));;
  ret pa.

(** The scan of [allocproc]: it leaves with the lock of the slot it found. *)
Definition find_unused : M (option nat) :=
  for_until all_procs (λ i,
    acquire (L_proc i);;
    p <- getp i;;
    if bool_decide (p_state p = UNUSED) then ret (Some i)
    else release (L_proc i);; ret None).

(** The code at the label [found]. *)
Definition allocproc_found (i : nat) : M (option nat) :=
  pid <- allocpid;;
  modp i (set_p_pid pid);;
  modp i (set_p_state USED);;
  tf <- kalloc_tf;;
  modp i (set_p_trapframe tf);;
  if tf =? 0 then freeproc i;; release (L_proc i);; ret None
  else
    pagetable <- proc_pagetable i;;
    modp i (set_p_pagetable pagetable);;
    if pagetable =? 0 then freeproc i;; release (L_proc i);; ret None
    else
      modp i (set_p_context zero_context);;
      modp i (λ p, set_p_context (set_ctx_ra forkret_addr (p_context p)) p);;
      modp i (λ p, set_p_context (set_ctx_sp (u64 (p_kstack p + PGSIZE)) (p_context p)) p);;
      modp i (set_p_rtime 0);;
      modp i (set_p_etime 0);;
      ticks <- gets k_ticks;;
      modp i (set_p_ctime ticks);;
      modp i (set_p_ticks_elapsed 0);;
      modp i (set_p_sigalarm_handler 0);;
      modp i (set_p_sigalarm_running 0);;
      modp i (set_p_sigalarm_nticks 0);;
      ret (Some i).

Definition allocproc : M (option nat) :=
  o <- find_unused;;
  match o with
  | None => ret None
  | Some i => allocproc_found i
  end.

(** ** The first process *)

Definition initcode : list Z :=
  [0x17; 0x05; 0x00; 0x00; 0x13; 0x05; 0x45; 0x02;
   0x97; 0x05; 0x00; 0x00; 0x93; 0x85; 0x35; 0x02;
   0x93; 0x08; 0x70; 0x00; 0x73; 0x00; 0x00; 0x00;
   0x93; 0x08; 0x20; 0x00; 0x73; 0x00; 0x00; 0x00;
   0xef; 0xf0; 0x9f; 0xff; 0x2f; 0x69; 0x6e; 0x69;
   0x74; 0x00; 0x00; 0x24; 0x00; 0x00; 0x00; 0x00;
   0x00; 0x00; 0x00; 0x00].

(** [safestrcpy(p->name, l, sizeof(p->name))] on the array of names. *)
Definition set_name (l : list Z) (p : proc) : proc := set_p_name (safestrcpy_buf (p_name p) l 16) p.

Definition userinit : M unit :=
  o <- allocproc;;
  modify (set_k_initproc o);;
  i <- unwrap o;;
  p <- getp i;;
  uvmfirst (p_pagetable p) initcode;;
  modp i (set_p_sz PGSIZE);;
  settf (p_trapframe p) (set_tf_epc 0);;
  settf (p_trapframe p) (set_tf_sp PGSIZE);;
  modp i (set_name (cstr "initcode"));;
  cwd <- namei (cstr "/");;
  modp i (set_p_cwd cwd);;
  modp i (set_p_state RUNNABLE);;
  when (bool_decide (policy = MLFQ)) (push i 0);;
  release (L_proc i).

Definition growproc (n : Z) : M Z :=
  i <- curproc;;
  p <- getp i;;
  let sz := p_sz p in
  if 0 <? n then
    sz' <- uvmalloc (p_pagetable p) sz (u64 (sz + n)) PTE_W;;
    if sz' =? 0 then ret (-1)
    else modp i (set_p_sz sz');; ret 0
  else if n <? 0 then
    sz' <- uvmdealloc (p_pagetable p) sz (u64 (sz + n));;
    modp i (set_p_sz sz');; ret 0
  else modp i (set_p_sz sz);; ret 0.

(** ** fork *)

(** [for (i = 0; i < NOFILE; i++) if (p->ofile[i]) np->ofile[i] = filedup(p->ofile[i]);] *)
Definition fork_files (me np : nat) : M unit :=
  for_each (seq 0 NOFILE) (λ fd,
    p <- getp me;;
    match p_ofile p !! fd with
    | Some (Some f) => f' <- filedup f;; modp np (λ q, set_p_ofile (<[fd := Some f']> (p_ofile q)) q)
    | _ => ret tt
    end).

(** [fork] from the copy of the registers on. *)
Definition fork_finish (me np : nat) : M Z :=
  p <- getp me;;
  modp np (set_p_sz (p_sz p));;
  tf <- gettf (p_trapframe p);;
  q <- getp np;;
  settf (p_trapframe q) (λ _, tf);;
  settf (p_trapframe q) (set_tf_a0 0);;
  fork_files me np;;
  p <- getp me;;
  cwd <- unwrap (p_cwd p);;
  cwd' <- idup cwd;;
  modp np (set_p_cwd (Some cwd'));;
  modp np (set_name (p_name p));;
  q <- getp np;;
  let pid := p_pid q in
  release (L_proc np);;
  acquire L_wait;;
  modp np (set_p_parent (Some me));;
  release L_wait;;
  acquire (L_proc np);;
  modp np (set_p_state RUNNABLE);;
  when (bool_decide (policy = MLFQ)) (push np 0);;
  release (L_proc np);;
  ret pid.

Definition fork : M Z :=
  me <- curproc;;
  o <- allocproc;;
  match o with
  | None => ret (-1)
  | Some np =>
      p <- getp me;;
      q <- getp np;;
      r <- uvmcopy (p_pagetable p) (p_pagetable q) (p_sz p);;
      if r <? 0 then freeproc np;; release (L_proc np);; ret (-1)
      else fork_finish me np
  end.

(** ** exit *)

Definition exit_close (i : nat) : M unit :=
  for_each (seq 0 NOFILE) (λ fd,
    p <- getp i;;
    match p_ofile p !! fd with
    | Some (Some f) => fileclose f;; modp i (λ q, set_p_ofile (<[fd := None]> (p_ofile q)) q)
    | _ => ret tt
    end).

(** [exit] from [acquire(&wait_lock)] on. *)
Definition exit_tail (i : nat) (status : Z) : M Z :=
  acquire L_wait;;
  reparent i;;
  p <- getp i;;
  wakeup (chan_proc (p_parent p));;
  acquire (L_proc i);;
  modp i (set_p_xstate status);;
  modp i (set_p_state ZOMBIE);;
  ticks <- gets k_ticks;;
  modp i (set_p_etime ticks);;
  release L_wait;;
  sched;;
  panic "zombie exit".

Definition exit (status : Z) : M Z :=
  i <- curproc;;
  init <- gets k_initproc;;
  if bool_decide (init = Some i) then panic "init exiting"
  else
    exit_close i;;
    begin_op;;
    p <- getp i;;
    cwd <- unwrap (p_cwd p);;
    iput cwd;;
    end_op;;
    modp i (set_p_cwd None);;
    exit_tail i status.

(** ** wait *)

(** An exited child [pp] at [j] was found; its lock and [wait_lock] are held. *)
Definition wait_reap (me j : nat) (pp : proc) (addr : Z) : M Z :=
  let pid := p_pid pp in
  p <- getp me;;
  r <- (if truthy addr then copyout (p_pagetable p) addr (le_bytes 4 (p_xstate pp)) else ret 0);;
  if r <? 0 then release (L_proc j);; release L_wait;; ret (-1)
  else
    freeproc j;;
    release (L_proc j);;
    release L_wait;;
    ret pid.

(** The scan for an exited child: [inr r] is [return r], [inl havekids] the end
    of the loop. *)
Fixpoint wait_scan (l : list nat) (me : nat) (addr : Z) (havekids : bool) : M (bool + Z) :=
  match l with
  | [] => ret (inl havekids)
  | j :: l' =>
      pp <- getp j;;
      if bool_decide (p_parent pp = Some me) then
        acquire (L_proc j);;
        pp <- getp j;;
        if bool_decide (p_state pp = ZOMBIE) then r <- wait_reap me j pp addr;; ret (inr r)
        else release (L_proc j);; wait_scan l' me addr true
      else wait_scan l' me addr havekids
  end.

Fixpoint wait_loop (fuel : nat) (me : nat) (addr : Z) : M Z :=
  match fuel with
  | O => stuck
  | S f =>
      r <- wait_scan all_procs me addr false;;
      match r with
      | inr v => ret v
      | inl havekids =>
          stop <- (if negb havekids then ret true else k <- killed me;; ret (truthy k));;
          if stop : bool then release L_wait;; ret (-1)
          else sleep (Ch_proc me) L_wait;; wait_loop f me addr
      end
  end.

Definition wait (fuel : nat) (addr : Z) : M Z :=
  me <- curproc;;
  acquire L_wait;;
  wait_loop fuel me addr.

(** ** waitx: the result with the values stored at [wtime] and [rtime], if any *)

Definition waitx_reap (me j : nat) (np : proc) (addr : Z) : M (Z * option (Z * Z)) :=
  let pid := p_pid np in
  let rtime := p_rtime np in
  let wtime := u32 (p_etime np - p_ctime np - p_rtime np) in
  p <- getp me;;
  r <- (if truthy addr then copyout (p_pagetable p) addr (le_bytes 4 (p_xstate np)) else ret 0);;
  if r <? 0 then release (L_proc j);; release L_wait;; ret (-1, Some (wtime, rtime))
  else
    freeproc j;;
    release (L_proc j);;
    release L_wait;;
    ret (pid, Some (wtime, rtime)).

Fixpoint waitx_scan (l : list nat) (me : nat) (addr : Z) (havekids : bool) :
    M (bool + Z * option (Z * Z)) :=
  match l with
  | [] => ret (inl havekids)
  | j :: l' =>
      np <- getp j;;
      if bool_decide (p_parent np = Some me) then
        acquire (L_proc j);;
        np <- getp j;;
        if bool_decide (p_state np = ZOMBIE) then r <- waitx_reap me j np addr;; ret (inr r)
        else release (L_proc j);; waitx_scan l' me addr true
      else waitx_scan l' me addr havekids
  end.

Fixpoint waitx_loop (fuel : nat) (me : nat) (addr : Z) : M (Z * option (Z * Z)) :=
  match fuel with
  | O => stuck
  | S f =>
      r <- waitx_scan all_procs me addr false;;
      match r with
      | inr v => ret v
      | inl havekids =>
          p <- getp me;;
          if (negb havekids || truthy (p_killed p))%bool then release L_wait;; ret (-1, None)
          else sleep (Ch_proc me) L_wait;; waitx_loop f me addr
      end
  end.

Definition waitx (fuel : nat) (addr : Z) : M (Z * option (Z * Z)) :=
  me <- curproc;;
  acquire L_wait;;
  waitx_loop fuel me addr.

(** ** exit *)

(** What [reparent] does to the table once the first [n] slots are done: the
    children of [i] among them go to [init], and if there was one, the sleepers
    on [init]'s channel are woken. *)
Definition rp (i : nat) (init : option nat) (p : proc) : proc :=
  if decide (p_parent p = Some i) then set_p_parent init p else p.
Definition has_child (i : nat) (ps : list proc) : bool :=
  existsb (λ p, bool_decide (p_parent p = Some i)) ps.
Definition reparented (n : nat) (me init : option nat) (i : nat) (ps : list proc) : list proc :=
  imap (λ j p, let p' := if decide (j < n)%nat then rp i init p else p in
               if has_child i (take n ps) then wake_one me (chan_proc init) j p' else p') ps.

Lemma reparented_step n me init i ps p :
  ps !! n = Some p →
  reparented (S n) me init i ps =
  if decide (p_parent p = Some i)
  then imap (wake_one me (chan_proc init)) (alter (set_p_parent init) n (reparented n me init i ps))
  else reparented n me init i ps.
Proof.
  intros Hp. unfold reparented. rewrite (take_S_r _ _ _ Hp). unfold has_child at 1.
  rewrite existsb_app. simpl. rewrite orb_false_r. fold (has_child i (take n ps)).
  destruct (decide (p_parent p = Some i)) as [Hc|Hc];
    [rewrite bool_decide_true, orb_true_r by done|rewrite bool_decide_false, orb_false_r by done];
    apply list_eq; intros j; rewrite !list_lookup_imap; destruct (decide (j = n)) as [->|Hne].
  - rewrite list_lookup_alter_eq, list_lookup_imap, Hp. simpl. f_equal.
    rewrite decide_True, decide_False by lia. unfold rp. rewrite decide_True by done.
    destruct (has_child _ _); [|done]. by rewrite wake_one_set_parent, wake_one_idem.
  - rewrite list_lookup_alter_ne, list_lookup_imap by done. destruct (ps !! j) as [q|]; simpl; [|done].
    f_equal. destruct (decide (j < n)%nat); [rewrite decide_True by lia|rewrite decide_False by lia];
      (destruct (has_child _ _); [by rewrite wake_one_idem|done]).
  - rewrite Hp. simpl. f_equal. rewrite decide_True, decide_False by lia. unfold rp.
    by rewrite decide_False.
  - destruct (ps !! j) as [q|]; simpl; [|done]. f_equal.
    by destruct (decide (j < n)%nat); [rewrite decide_True by lia|rewrite decide_False by lia].
Qed.

Lemma length_reparented n me init i ps : length (reparented n me init i ps) = length ps.
Proof. unfold reparented. by rewrite length_imap. Qed.

Lemma reparented_lookup n me init i ps j p :
  ps !! j = Some p → ∃ p', reparented n me init i ps !! j = Some p' ∧
    p_parent p' = p_parent (if decide (j < n)%nat then rp i init p else p).
Proof.
  intros Hp. unfold reparented. rewrite list_lookup_imap, Hp. simpl. eexists. split; [done|].
  destruct (has_child _ _); [apply wake_one_parent|done].
Qed.

Lemma reparent_ok i s :
  table_ok s → no_proc_locks s →
  reparent i s =
  Ret tt (set_k_procs (reparented NPROC (k_cur s) (k_initproc s) i (k_procs s)) s).
Proof.
  intros Ht Hl. unfold reparent.
  set (st := λ n, set_k_procs (reparented n (k_cur s) (k_initproc s) i (k_procs s)) s).
  assert (s = st 0%nat) as Hs.
  { unfold st, reparented. simpl. rewrite <- (set_procs_id s) at 1. f_equal.
    apply list_eq. intros j. rewrite list_lookup_imap. by destruct (k_procs s !! j). }
  rewrite Hs at 1. unfold all_procs.
  assert (∀ k n, (n + k = NPROC)%nat → for_each (seq n k) (λ j,
    pp <- getp j;;
    when (bool_decide (p_parent pp = Some i))
      (init <- gets k_initproc;;
       modp j (set_p_parent init);;
       wakeup (chan_proc init))) (st n) = Ret tt (st NPROC)) as Hgen; [|by apply Hgen].
  intros k. induction k as [|k IH]; intros n Hn.
  { replace n with NPROC by lia. done. }
  destruct (lookup_lt_is_Some_2 (k_procs s) n) as [p Hp]; [rewrite Ht; lia|].
  destruct (reparented_lookup n (k_cur s) (k_initproc s) i _ _ _ Hp) as (p' & Hp' & Hpar).
  rewrite decide_False in Hpar by lia.
  cbn [seq for_each]. erewrite bind_step; [apply (IH (S n)); lia|].
  erewrite bind_step by (by apply getp_some). rewrite Hpar. unfold st.
  rewrite (reparented_step _ _ _ _ _ _ Hp). case_bool_decide as Hc; unfold when.
  - rewrite decide_True by done. kstep. cbn [k_procs k_initproc set_k_procs]. rewrite wakeup_ok.
    + keq.
    + unfold table_ok. simpl. by rewrite length_alter, length_reparented.
    + by left.
  - by rewrite decide_False.
Qed.

Definition zombie (status ticks : Z) (p : proc) : proc :=
  set_p_etime ticks (set_p_state ZOMBIE (set_p_xstate status p)).

(** The table when the exiting process enters the scheduler. *)
Definition exit_table (s : kstate) (i : nat) (parent : option nat) (status : Z) : list proc :=
  alter (zombie status (k_ticks s)) i
    (imap (wake_one (k_cur s) (chan_proc parent))
       (reparented NPROC (k_cur s) (k_initproc s) i (k_procs s))).

Lemma exit_tail_ok i status s p :
  k_cur s = Some i → k_held s = [] → table_ok s → k_procs s !! i = Some p → p_parent p ≠ Some i →
  exit_tail i status s =
  Swtch (set_k_held [L_proc i] (set_k_procs (exit_table s i (p_parent p) status) s))
    (λ _, Panic "zombie exit").
Proof.
  intros Hc Hh Ht Hp Hpar. unfold exit_tail.
  erewrite bind_step by (apply acquire_free; rewrite Hh; apply not_elem_of_nil). rewrite Hh.
  erewrite bind_step by (apply reparent_ok; [done|intros j _; simpl; set_solver]).
  cbn [k_cur k_initproc k_procs set_k_held].
  destruct (reparented_lookup NPROC (k_cur s) (k_initproc s) i _ _ _ Hp) as (p1 & Hp1 & Hpar1).
  assert (p_parent p1 = p_parent p) as E1.
  { rewrite Hpar1. case_decide; [|done]. unfold rp. by rewrite decide_False. }
  erewrite bind_step by (by apply getp_some). rewrite E1.
  erewrite bind_step.
  2: { apply wakeup_ok; [|left; intros j _; simpl; set_solver].
       unfold table_ok. simpl. by rewrite length_reparented. }
  cbn [k_cur k_procs set_k_procs set_k_held].
  set (ps := imap _ (reparented _ _ _ _ _)).
  assert (∃ p2, ps !! i = Some p2) as [p2 Hp2].
  { unfold ps. rewrite list_lookup_imap, Hp1. by eexists. }
  erewrite bind_step by (apply acquire_free; simpl; set_solver).
  kstep. cbn [k_procs k_ticks k_held set_k_procs set_k_held].
  unfold release. cbn [k_held set_k_procs set_k_held]. rewrite decide_True by set_solver.
  cbn [remove_lock]. rewrite decide_False, decide_True by done. cbn [rbind].
  set (s1 := set_k_held _ _).
  assert (s1 = set_k_held [L_proc i] (set_k_procs (exit_table s i (p_parent p) status) s)) as Hs1.
  { unfold s1, exit_table. fold ps. rewrite !list_alter_twice. keq. }
  rewrite (sched_ok s1 i (zombie status (k_ticks s) p2)); [by rewrite Hs1|].
  rewrite Hs1. split_and!; simpl; [done..| |done]. unfold exit_table. fold ps.
  by rewrite list_lookup_alter_eq, Hp2.
Qed.

(** C37: An exiting process leaves everything in order when it enters the
    scheduler: it is a zombie with its status and time of exit, holding its own
    lock only; every child of it now belongs to [init] and no other process
    changes parents; its parent is runnable if it slept in [wait]; and if it were
    ever resumed the kernel would stop. *)
Theorem exit_correct i status s p par init :
  k_cur s = Some i → k_held s = [] → table_ok s → k_procs s !! i = Some p →
  p_parent p = Some par → par ≠ i → k_initproc s = Some init →
  ∃ s1 k, exit_tail i status s = Swtch s1 k ∧ k_held s1 = [L_proc i] ∧
    (∃ z, k_procs s1 !! i = Some z ∧ p_state z = ZOMBIE ∧ p_xstate z = status ∧
       p_etime z = k_ticks s ∧ p_pid z = p_pid p ∧ p_parent z = Some par) ∧
    (∀ j q, k_procs s !! j = Some q → j ≠ i → ∃ q', k_procs s1 !! j = Some q' ∧
       p_parent q' = if decide (p_parent q = Some i) then Some init else p_parent q) ∧
    (∀ q, k_procs s !! par = Some q → p_state q = SLEEPING → p_chan q = Ch_proc par →
       p_state <$> k_procs s1 !! par = Some RUNNABLE) ∧
    (∀ s2, k s2 = Panic "zombie exit").
Proof.
  intros Hc Hh Ht Hp Hpar Hne Hinit. eexists _, _.
  split; [eapply exit_tail_ok; try done; rewrite Hpar; congruence|]. split; [done|].
  rewrite Hpar. cbn [k_procs set_k_procs set_k_held]. unfold exit_table.
  assert (∀ j q, k_procs s !! j = Some q → (j < NPROC)%nat) as Hlt.
  { intros j q Hq. apply lookup_lt_Some in Hq. by rewrite <- Ht. }
  split_and!.
  - rewrite list_lookup_alter_eq, list_lookup_imap. unfold reparented. rewrite list_lookup_imap, Hp. simpl.
    eexists. split; [done|]. rewrite decide_True by (by eapply Hlt). unfold rp.
    rewrite decide_False by congruence. simpl. split_and!; [done..| |].
    + destruct (has_child _ _); by rewrite !wake_one_pid.
    + destruct (has_child _ _); by rewrite !wake_one_parent.
  - intros j q Hq Hj. rewrite list_lookup_alter_ne by done.
    destruct (reparented_lookup NPROC (k_cur s) (k_initproc s) i _ _ _ Hq) as (q1 & Hq1 & Hq1p).
    rewrite list_lookup_imap, Hq1. simpl. eexists. split; [done|].
    rewrite wake_one_parent, Hq1p, decide_True by (by eapply Hlt). unfold rp. rewrite Hinit.
    by destruct (decide (p_parent q = Some i)).
  - intros q Hq Hst Hch. rewrite list_lookup_alter_ne by done. rewrite list_lookup_imap. unfold reparented.
    rewrite list_lookup_imap, Hq. simpl. f_equal.
    assert (∀ ch x, wake_one (k_cur s) ch par x = x ∨ p_state (wake_one (k_cur s) ch par x) = RUNNABLE) as Hw.
    { intros ch x. unfold wake_one. case_match; auto. }
    set (q1 := if decide (par < NPROC)%nat then rp i (k_initproc s) q else q).
    assert (p_state q1 = SLEEPING ∧ p_chan q1 = Ch_proc par) as [Hs1 Hc1].
    { unfold q1, rp. by repeat case_decide. }
    set (q2 := if has_child i (take NPROC (k_procs s)) then _ else q1).
    assert (p_state q2 = RUNNABLE ∨ q2 = q1) as [H2|H2].
    { unfold q2. destruct (has_child _ _); [|by right]. destruct (Hw (chan_proc (k_initproc s)) q1); auto. }
    + destruct (Hw (Ch_proc par) q2) as [E|E]; [by rewrite E|done].
    + rewrite H2. unfold wake_one. rewrite Hc, (bool_decide_false (Some i = Some par)) by congruence.
      by rewrite !bool_decide_true.
  - done.
Qed.

(** ** wait *)

Definition zombie_child (me : nat) (p : proc) : Prop := p_parent p = Some me ∧ p_state p = ZOMBIE.

#[global] Instance zombie_child_dec me p : Decision (zombie_child me p).
Proof. unfold zombie_child. solve_decision. Defined.

(** A scan for exited children is a search for the first one, in either call. *)
Lemma scan_ok {A} (scan : list nat → nat → Z → bool → M (bool + A)) (reap : nat → nat → proc → Z → M A)
    me addr s :
  (∀ hk, scan [] me addr hk = ret (inl hk)) →
  (∀ j l hk, scan (j :: l) me addr hk =
     (pp <- getp j;;
      if bool_decide (p_parent pp = Some me) then
        acquire (L_proc j);;
        pp <- getp j;;
        if bool_decide (p_state pp = ZOMBIE) then r <- reap me j pp addr;; ret (inr r)
        else release (L_proc j);; scan l me addr true
      else scan l me addr hk)) →
  table_ok s → no_proc_locks s →
  scan all_procs me addr false s =
  match list_find (zombie_child me) (k_procs s) with
  | Some (j, pp) => rbind (reap me j pp addr (set_k_held (L_proc j :: k_held s) s)) (λ r, ret (inr r))
  | None => Ret (inl (has_child me (k_procs s))) s
  end.
Proof.
  intros Hnil Hcons Ht Hl.
  assert (∀ k n hk, (n + k = NPROC)%nat → scan (seq n k) me addr hk s =
    match list_find (zombie_child me) (drop n (k_procs s)) with
    | Some (d, pp) => rbind (reap me (n + d)%nat pp addr (set_k_held (L_proc (n + d) :: k_held s) s)) (λ r, ret (inr r))
    | None => Ret (inl (hk || has_child me (drop n (k_procs s)))%bool) s
    end) as Hgen; [|unfold all_procs; by rewrite (Hgen NPROC 0%nat false)].
  intros k. induction k as [|k IH]; intros n hk Hn.
  { rewrite drop_ge by (rewrite Ht; lia). cbn [seq list_find]. rewrite Hnil. simpl. by rewrite orb_false_r. }
  destruct (lookup_lt_is_Some_2 (k_procs s) n) as [p Hp]; [rewrite Ht; lia|].
  rewrite (drop_S _ _ _ Hp). cbn [seq list_find]. rewrite Hcons.
  erewrite bind_step by (by apply getp_some).
  assert (∀ b, match list_find (zombie_child me) (drop (S n) (k_procs s)) return res (bool + A) with
    | Some (d, pp) => rbind (reap me (S n + d)%nat pp addr (set_k_held (L_proc (S n + d) :: k_held s) s)) (λ r, ret (inr r))
    | None => Ret (inl b) s end =
    match prod_map S (@id proc) <$> list_find (zombie_child me) (drop (S n) (k_procs s)) return res (bool + A) with
    | Some (d, pp) => rbind (reap me (n + d)%nat pp addr (set_k_held (L_proc (n + d) :: k_held s) s)) (λ r, ret (inr r))
    | None => Ret (inl b) s end) as Hshift.
  { intros b. destruct (list_find _ _) as [[d pp]|]; simpl; [by rewrite Nat.add_succ_r|done]. }
  case_bool_decide as Hpar.
  - erewrite bind_step by (apply acquire_free, Hl; lia). erewrite bind_step by (by apply getp_some).
    case_bool_decide as Hst.
    + rewrite decide_True by done. by rewrite Nat.add_0_r.
    + rewrite decide_False by (by intros [? ?]). erewrite bind_step by (by apply release_held).
      assert (set_k_held (k_held s) (set_k_held (L_proc n :: k_held s) s) = s) as -> by (by destruct s).
      rewrite IH by lia. rewrite Hshift. cbn [has_child existsb]. rewrite bool_decide_true by done.
      by rewrite orb_true_r.
  - rewrite decide_False by (by intros [? ?]). rewrite IH by lia. rewrite Hshift. cbn [has_child existsb].
    by rewrite bool_decide_false.
Qed.

Lemma wait_lock_only s : k_held s = [L_wait] → no_proc_locks s.
Proof. intros Hh i _. rewrite Hh. set_solver. Qed.

(** Acquiring [wait_lock] on entry. *)
Lemma take_wait_lock s : k_held s = [] → acquire L_wait s = Ret tt (set_k_held [L_wait] s).
Proof. intros Hh. rewrite acquire_free by (rewrite Hh; apply not_elem_of_nil). by rewrite Hh. Qed.

Lemma drop_wait_lock {A} (v : A) s :
  k_held s = [] → (release L_wait;; ret v) (set_k_held [L_wait] s) = Ret v s.
Proof.
  intros Hh. erewrite bind_step by (by apply release_held). unfold ret. apply ret_eq, k_ext; simpl; auto.
Qed.


Lemma waitx_reap_post me j np addr s :
  post (waitx_reap me j np addr s) (λ v,
    v.2 = Some (u32 (p_etime np - p_ctime np - p_rtime np), p_rtime np) ∧ (v.1 = -1 ∨ v.1 = p_pid np)).
Proof.
  unfold waitx_reap. apply post_bind. intros q s1. apply post_bind. intros r s2. case_test.
  - do 2 (apply post_bind; intros ? ?). simpl. auto.
  - do 3 (apply post_bind; intros ? ?). simpl. auto.
Qed.

(** [waitx] reports the child's times exactly: it reaps the same child as
    [wait] would, and the waiting time and running time it stores add up to the
    child's life from creation to exit (modulo the width of [uint]). *)
Theorem waitx_times fuel addr s me p j np v s' :
  k_cur s = Some me → k_held s = [] → table_ok s → k_procs s !! me = Some p →
  list_find (zombie_child me) (k_procs s) = Some (j, np) →
  waitx_reap me j np addr (set_k_held [L_proc j; L_wait] s) = Ret v s' →
  waitx (S fuel) addr s = Ret v s' ∧
  ∃ wtime, v.2 = Some (wtime, p_rtime np) ∧
    u32 (wtime + p_rtime np) = u32 (p_etime np - p_ctime np) ∧ (v.1 = -1 ∨ v.1 = p_pid np).
Proof.
  intros Hc Hh Ht Hp Hfind Hr. split.
  - unfold waitx, curproc, myproc. kstep. rewrite Hc. cbn [rbind]. rewrite take_wait_lock by done.
    cbn [rbind waitx_loop]. unfold bind at 1.
    rewrite (scan_ok waitx_scan waitx_reap) by (try done; intros i _; simpl; set_solver).
    cbn [k_procs k_held set_k_held]. rewrite Hfind.
    change (set_k_held (L_proc j :: [L_wait]) (set_k_held [L_wait] s)) with (set_k_held [L_proc j; L_wait] s).
    by rewrite Hr.
  - exists (u32 (p_etime np - p_ctime np - p_rtime np)).
    rewrite u32_add_l. replace (p_etime np - p_ctime np - p_rtime np + p_rtime np) with (p_etime np - p_ctime np) by lia.
    pose proof (waitx_reap_post me j np addr (set_k_held [L_proc j; L_wait] s)) as Hpost.
    rewrite Hr in Hpost. simpl in Hpost. destruct Hpost as [Hv Ho]. by rewrite Hv.
Qed.

(** ** fork *)

Definition refs_to (f : nat) (l : list (option nat)) : Z := Z.of_nat (length (filter (λ o, o = Some f) l)).

(** The child's descriptors and the file table after the first [n] descriptors. *)
Definition dup_ofile (n : nat) (ofs qofs : list (option nat)) : list (option nat) :=
  imap (λ fd o, if decide (fd < n)%nat then match ofs !! fd with Some (Some f) => Some f | _ => o end else o) qofs.
Definition dup_ftable (n : nat) (ofs : list (option nat)) (ft : list file) : list file :=
  imap (λ f x, set_f_ref (f_ref x + refs_to f (take n ofs)) x) ft.

Lemma refs_to_snoc f l o : refs_to f (l ++ [o]) = refs_to f l + if decide (o = Some f) then 1 else 0.
Proof.
  unfold refs_to. rewrite filter_app, length_app, Nat2Z.inj_add. f_equal.
  rewrite filter_cons, filter_nil. by destruct (decide (o = Some f)).
Qed.

Lemma refs_to_range f l : 0 ≤ refs_to f l ≤ Z.of_nat (length l).
Proof. unfold refs_to. pose proof (length_filter (λ o, o = Some f) l). lia. Qed.

Lemma filedup_ok f s x :
  L_ftable ∉ k_held s → k_ftable s !! f = Some x → 1 ≤ f_ref x < 2 ^ 31 - 1 →
  filedup f s = Ret f (set_k_ftable (alter (set_f_ref (f_ref x + 1)) f (k_ftable s)) s).
Proof.
  intros Hl Hx Hr. unfold filedup. erewrite bind_step by (by apply acquire_free). kstep. simpl. rewrite Hx.
  cbn [rbind]. rewrite (proj2 (Z.ltb_ge _ _)), s32_small by lia. cbn [rbind].
  erewrite release_held by done. keq.
Qed.

Section forking.
Variables (s : kstate) (me np : nat) (p q : proc).
Hypothesis (Hne : me ≠ np) (Hp : k_procs s !! me = Some p) (Hq : k_procs s !! np = Some q).
Hypothesis (Hlp : length (p_ofile p) = NOFILE) (Hlq : length (p_ofile q) = NOFILE).
Hypothesis Hfiles : ∀ fd f, p_ofile p !! fd = Some (Some f) →
  ∃ x, k_ftable s !! f = Some x ∧ 1 ≤ f_ref x < 2 ^ 31 - 17.
Hypothesis Hheld : k_held s = [L_proc np].

Definition fork_state (n : nat) : kstate :=
  set_k_ftable (dup_ftable n (p_ofile p) (k_ftable s))
    (set_k_procs (alter (set_p_ofile (dup_ofile n (p_ofile p) (p_ofile q))) np (k_procs s)) s).

Lemma dup_ftable_step n f x :
  p_ofile p !! n = Some (Some f) → k_ftable s !! f = Some x →
  alter (set_f_ref (f_ref x + refs_to f (take n (p_ofile p)) + 1)) f (dup_ftable n (p_ofile p) (k_ftable s)) =
  dup_ftable (S n) (p_ofile p) (k_ftable s).
Proof.
  intros Ho Hx. unfold dup_ftable. rewrite (take_S_r _ _ _ Ho). apply list_eq. intros g.
  rewrite list_lookup_imap. destruct (decide (g = f)) as [->|Hg].
  - rewrite list_lookup_alter_eq, list_lookup_imap, Hx. simpl.
    rewrite refs_to_snoc, decide_True by done. unfold set_f_ref. simpl. do 2 f_equal. lia.
  - rewrite list_lookup_alter_ne, list_lookup_imap by done. destruct (k_ftable s !! g); simpl; [|done].
    rewrite refs_to_snoc, decide_False by congruence. by rewrite Z.add_0_r.
Qed.

Lemma dup_ofile_step n f :
  p_ofile p !! n = Some (Some f) →
  <[n := Some f]> (dup_ofile n (p_ofile p) (p_ofile q)) = dup_ofile (S n) (p_ofile p) (p_ofile q).
Proof.
  intros Ho. pose proof (lookup_lt_Some _ _ _ Ho). apply list_eq. intros fd. unfold dup_ofile.
  rewrite list_lookup_imap. destruct (decide (fd = n)) as [->|Hfd].
  - rewrite list_lookup_insert_eq by (rewrite length_imap; lia).
    destruct (lookup_lt_is_Some_2 (p_ofile q) n) as [o Hqo]; [lia|]. rewrite Hqo. simpl.
    by rewrite decide_True, Ho by lia.
  - rewrite list_lookup_insert_ne, list_lookup_imap by done. destruct (p_ofile q !! fd); simpl; [|done].
    destruct (decide (fd < n)%nat); [by rewrite decide_True by lia|by rewrite decide_False by lia].
Qed.

Lemma dup_none n :
  p_ofile p !! n = Some None → fork_state (S n) = fork_state n.
Proof.
  intros Ho. unfold fork_state. f_equal; [|do 3 f_equal].
  - unfold dup_ftable. rewrite (take_S_r _ _ _ Ho). apply imap_ext. intros f x _.
    rewrite refs_to_snoc, decide_False by done. by rewrite Z.add_0_r.
  - unfold dup_ofile. apply imap_ext. intros fd o _. destruct (decide (fd = n)) as [->|].
    + by rewrite decide_True, decide_False, Ho by lia.
    + destruct (decide (fd < n)%nat); [by rewrite decide_True by lia|by rewrite decide_False by lia].
Qed.

Lemma fork_files_ok : fork_files me np s = Ret tt (fork_state NOFILE).
Proof.
  assert (s = fork_state 0) as Hs0.
  { unfold fork_state, dup_ftable. apply k_ext; simpl; try done.
    - symmetry. apply list_alter_id. intros x Hx. simplify_eq.
      assert (dup_ofile 0 (p_ofile p) (p_ofile q) = p_ofile q) as ->; [|by destruct q].
      apply list_eq. intros fd. unfold dup_ofile. rewrite list_lookup_imap. by destruct (p_ofile q !! fd).
    - apply list_eq. intros f. rewrite list_lookup_imap. destruct (k_ftable s !! f) as [x|]; simpl; [|done].
      f_equal. change (refs_to f []) with 0. rewrite Z.add_0_r. by destruct x. }
  unfold fork_files. rewrite Hs0 at 1.
  match goal with |- for_each _ ?body _ = _ => assert (∀ k n, (n + k = NOFILE)%nat →
    for_each (seq n k) body (fork_state n) = Ret tt (fork_state NOFILE)) as Hgen; [|by apply Hgen] end.
  intros k. induction k as [|k IH]; intros n Hn; [by replace n with NOFILE by lia|].
  cbn [seq for_each]. erewrite bind_step; [apply (IH (S n)); lia|].
  erewrite bind_step by (apply getp_some; simpl; rewrite list_lookup_alter_ne by done; exact Hp).
  destruct (lookup_lt_is_Some_2 (p_ofile p) n) as [[f|] Ho]; [lia| |]; rewrite Ho; [|by rewrite dup_none].
  destruct (Hfiles n f Ho) as (x & Hx & Hr).
  pose proof (refs_to_range f (take n (p_ofile p))) as Hrr. rewrite length_take in Hrr.
  erewrite bind_step.
  2: { apply (filedup_ok f _ (set_f_ref (f_ref x + refs_to f (take n (p_ofile p))) x)).
       - simpl. rewrite Hheld. set_solver.
       - simpl. unfold dup_ftable. by rewrite list_lookup_imap, Hx.
       - simpl. unfold NOFILE in *. lia. }
  unfold modp, modify, fork_state. simpl. rewrite list_alter_twice. apply ret_eq, k_ext; simpl; try done.
  - erewrite (alter_at _ (set_p_ofile (dup_ofile (S n) (p_ofile p) (p_ofile q)))); [done|exact Hq|].
    simpl. rewrite (dup_ofile_step n f) by done. by destruct q.
  - by apply dup_ftable_step.
Qed.

End forking.

Lemma idup_ok c s ip :
  L_itable ∉ k_held s → k_itable s !! c = Some ip →
  idup c s = Ret c (set_k_itable (<[c := set_i_ref (s32 (i_ref ip + 1)) ip]> (k_itable s)) s).
Proof.
  intros Hl Hi. unfold idup. erewrite bind_step by (by apply acquire_free). kstep. simpl. rewrite Hi.
  cbn [rbind]. erewrite release_held by done. keq.
Qed.

Lemma settf_ok pa f s tf :
  k_tfs s !! pa = Some tf → settf pa f s = Ret tt (set_k_tfs (<[pa := f tf]> (k_tfs s)) s).
Proof. intros H. unfold settf, gettf. kstep. by rewrite H. Qed.

Lemma gettf_ok pa s tf : k_tfs s !! pa = Some tf → gettf pa s = Ret tf s.
Proof. intros H. unfold gettf. kstep. by rewrite H. Qed.

(** Everything [fork] gives the child: its entry in the table. *)
Definition forked (me : nat) (p q : proc) (cwd : nat) (ticks : Z) : proc :=
  let c := set_p_state RUNNABLE (set_p_parent (Some me) (set_name (p_name p) (set_p_cwd (Some cwd)
    (set_p_ofile (dup_ofile NOFILE (p_ofile p) (p_ofile q)) (set_p_sz (p_sz p) q))))) in
  if bool_decide (policy = MLFQ) then enqueue 0 ticks c else c.

Lemma fork_end me np s q :
  k_held s = [L_proc np] → k_procs s !! np = Some q →
  (release (L_proc np);; acquire L_wait;; modp np (set_p_parent (Some me));; release L_wait;;
   acquire (L_proc np);; modp np (set_p_state RUNNABLE);;
   when (bool_decide (policy = MLFQ)) (push np 0);; release (L_proc np);; ret (p_pid q)) s =
  Ret (p_pid q) (set_k_held [] (set_k_procs (alter (λ c,
    let c := set_p_state RUNNABLE (set_p_parent (Some me) c) in
    if bool_decide (policy = MLFQ) then enqueue 0 (k_ticks s) c else c) np (k_procs s)) s)).
Proof.
  intros Hh Hq. erewrite bind_step by (by apply release_held).
  erewrite bind_step by (apply acquire_free; apply not_elem_of_nil).
  unfold bind at 1, modp at 1, modify at 1. cbn [rbind]. erewrite bind_step by (by apply release_held).
  erewrite bind_step by (apply acquire_free; apply not_elem_of_nil).
  unfold bind at 1, modp at 1, modify at 1. cbn [rbind].
  unfold when. destruct (bool_decide (policy = MLFQ)).
  - erewrite bind_step by apply push_ok. erewrite bind_step by (by apply release_held).
    unfold ret. simpl. rewrite !list_alter_twice. keq.
  - rewrite bind_ret_l. erewrite bind_step by (by apply release_held).
    unfold ret. simpl. rewrite !list_alter_twice. keq.
Qed.

(** [fork] gives the child what the parent has: once memory is copied, the
    call returns the child's pid with no lock held; the child is runnable, a child
    of the caller, with the same size, working directory, name and open files and
    the same registers except that its [fork] returns 0; every shared open file
    has one more reference per descriptor that names it, the working directory
    one more, and the parent's own entry is untouched. *)
Theorem fork_child s me np p q tf qtf c ip :
  me ≠ np → k_procs s !! me = Some p → k_procs s !! np = Some q →
  length (p_ofile p) = NOFILE → length (p_ofile q) = NOFILE →
  (∀ fd f, p_ofile p !! fd = Some (Some f) →
     ∃ x, k_ftable s !! f = Some x ∧ 1 ≤ f_ref x < 2 ^ 31 - 17) →
  k_held s = [L_proc np] →
  k_tfs s !! p_trapframe p = Some tf → k_tfs s !! p_trapframe q = Some qtf →
  p_cwd p = Some c → k_itable s !! c = Some ip →
  ∃ s', fork_finish me np s = Ret (p_pid q) s' ∧ k_held s' = [] ∧
    k_procs s' !! np = Some (forked me p q c (k_ticks s)) ∧ k_procs s' !! me = Some p ∧
    k_tfs s' !! p_trapframe q = Some (set_tf_a0 0 tf) ∧
    k_ftable s' = dup_ftable NOFILE (p_ofile p) (k_ftable s) ∧
    k_itable s' = <[c := set_i_ref (s32 (i_ref ip + 1)) ip]> (k_itable s).
Proof.
  intros Hne Hp Hq Hlp Hlq Hfiles Hh Htf Hqtf Hc Hip. unfold fork_finish.
  erewrite bind_step by (by apply getp_some). unfold bind at 1, modp at 1, modify at 1. cbn [rbind].
  erewrite bind_step by (by apply gettf_ok).
  erewrite bind_step by (apply getp_some; simpl; by rewrite list_lookup_alter_eq, Hq).
  cbn [p_trapframe set_p_sz]. erewrite bind_step by (by apply settf_ok).
  erewrite bind_step by (apply settf_ok; simpl; by rewrite lookup_insert_eq).
  match goal with |- ∃ s', bind _ _ ?st = _ ∧ _ => set (s1 := st) end.
  assert (k_procs s1 !! me = Some p) as Hp1 by (simpl; by rewrite list_lookup_alter_ne).
  assert (k_procs s1 !! np = Some (set_p_sz (p_sz p) q)) as Hq1 by (simpl; by rewrite list_lookup_alter_eq, Hq).
  erewrite bind_step by (by apply (fork_files_ok s1 me np p (set_p_sz (p_sz p) q))).
  erewrite bind_step by (apply getp_some; simpl; by rewrite !list_lookup_alter_ne).
  rewrite Hc. unfold unwrap. rewrite bind_ret_l.
  erewrite bind_step by (apply (idup_ok c _ ip); [simpl; rewrite Hh; set_solver|exact Hip]).
  unfold bind at 1, modp at 1, modify at 1. cbn [rbind]. unfold bind at 1, modp at 1, modify at 1. cbn [rbind].
  erewrite bind_step by (apply getp_some; simpl; by rewrite !list_lookup_alter_eq, Hq).
  eexists. split.
  { etrans; [apply (fork_end me np); [exact Hh|simpl; by rewrite !list_lookup_alter_eq, Hq]|reflexivity]. }
  simpl. split_and!; [done|..].
  - rewrite !list_lookup_alter_eq, Hq. simpl. unfold forked. done.
  - by rewrite !list_lookup_alter_ne.
  - rewrite insert_insert_eq, lookup_insert_eq. done.
  - done.
  - done.
Qed.

(** ** allocproc *)

Lemma find_unused_ok s :
  table_ok s → no_proc_locks s →
  find_unused s = match list_find (λ p, p_state p = UNUSED) (k_procs s) with
                  | Some (i, _) => Ret (Some i) (set_k_held (L_proc i :: k_held s) s)
                  | None => Ret None s
                  end.
Proof.
  intros Ht Hl. unfold find_unused.
  assert (∀ i p, k_procs s !! i = Some p → L_proc i ∉ k_held s) as Hfree.
  { intros i p Hp. apply lookup_lt_Some in Hp. apply Hl. by rewrite <- Ht. }
  erewrite (for_until_find (λ p, p_state p = UNUSED) s _
    (λ i _, Ret (Some i) (set_k_held (L_proc i :: k_held s) s))); [done|..|done].
  - intros i p Hp Hne. erewrite bind_step by (apply acquire_free; by eapply Hfree).
    erewrite bind_step by (by apply getp_some). rewrite bool_decide_false by done.
    erewrite bind_step by (by apply release_held). unfold ret. keq.
  - intros i p Hp He. split; [|done]. erewrite bind_step by (apply acquire_free; by eapply Hfree).
    erewrite bind_step by (by apply getp_some). by rewrite bool_decide_true.
Qed.

Lemma allocpid_ok s :
  L_pid ∉ k_held s → allocpid s = Ret (k_nextpid s) (set_k_nextpid (s32 (k_nextpid s + 1)) s).
Proof.
  intros Hl. unfold allocpid. erewrite bind_step by (by apply acquire_free). kstep.
  erewrite release_held by done. keq.
Qed.

(** The slot after [freeproc], when there was nothing to free. *)
Definition reset_slot (p : proc) : proc :=
  let p := set_p_sigalarm_handler 0 (set_p_sigalarm_running 0 (set_p_sigalarm_nticks 0
    (set_p_trap_backup 0 (set_p_state UNUSED (set_p_xstate 0 (set_p_killed 0 (set_p_chan Ch_null
    (set_p_name (<[0%nat := 0]> (p_name p)) (set_p_parent None (set_p_pid 0 (set_p_sz 0
    (set_p_pagetable 0 (set_p_trapframe 0 p))))))))))))) in
  if bool_decide (policy = MLFQ) then set_p_mlfq_data (mk_mlfq 0 0 0 0 0) p else p.

Definition bare (p : proc) : Prop := p_trapframe p = 0 ∧ p_pagetable p = 0 ∧ p_trap_backup p = 0.

Lemma freeproc_bare i s p :
  k_procs s !! i = Some p → bare p →
  freeproc i s = Ret tt (set_k_procs (alter reset_slot i (k_procs s)) s).
Proof.
  intros Hp (Htf & Hpt & Htb). unfold freeproc. erewrite bind_step by (by apply getp_some).
  rewrite Htf, Hpt, Htb. change (truthy 0) with false. unfold when. kstep. simpl. rewrite !list_alter_twice.
  unfold reset_slot. destruct (bool_decide (policy = MLFQ)); simpl; rewrite ?list_alter_twice; keq.
Qed.

(** [allocproc] fails cleanly.  With no unused slot it returns 0 and changes
    nothing.  With a slot but no memory it returns 0 and leaves no trace but the
    consumed pid: the slot is unused again with no pid, every other process and
    all of memory are as they were, and the slot's lock is released. *)
Theorem allocproc_fails_cleanly s :
  table_ok s → no_proc_locks s → L_pid ∉ k_held s → L_kmem ∉ k_held s → k_freelist s = 0 →
  match list_find (λ p, p_state p = UNUSED) (k_procs s) with
  | None => allocproc s = Ret None s
  | Some (i, p) =>
      bare p →
      allocproc s = Ret None (set_k_nextpid (s32 (k_nextpid s + 1))
        (set_k_procs (alter reset_slot i (k_procs s)) s)) ∧
      p_state (reset_slot p) = UNUSED ∧ p_pid (reset_slot p) = 0
  end.
Proof.
  intros Ht Hl Hpid Hmem Hfl. pose proof (find_unused_ok s Ht Hl) as Hfu.
  destruct (list_find _ (k_procs s)) as [[i p]|] eqn:Hfind.
  2: { unfold allocproc. by erewrite bind_step by exact Hfu. }
  intros (Htf & Hpt & Htb). apply list_find_Some in Hfind as (Hp & Hst & _).
  split; [|unfold reset_slot; by case_bool_decide].
  unfold allocproc. erewrite bind_step by exact Hfu. unfold allocproc_found.
  erewrite bind_step by (apply allocpid_ok; simpl; set_solver).
  unfold bind at 1, modp at 1, modify at 1. cbn [rbind]. unfold bind at 1, modp at 1, modify at 1. cbn [rbind].
  erewrite bind_step.
  2: { unfold kalloc_tf. erewrite bind_step by (apply kalloc_empty; [simpl; set_solver|exact Hfl]). done. }
  unfold bind at 1, modp at 1, modify at 1. cbn [rbind]. change (0 =? 0) with true. cbn iota.
  erewrite bind_step.
  2: { eapply freeproc_bare; [simpl; by rewrite !list_lookup_alter_eq, Hp|]. by split_and!. }
  erewrite bind_step by (by apply release_held). unfold ret. simpl. rewrite !list_alter_twice.
  erewrite (alter_at _ reset_slot); [keq|exact Hp|].
  unfold reset_slot. by destruct (bool_decide (policy = MLFQ)).
Qed.

End proclife.

(** ** The theorems at concrete states *)

#[local] Existing Instance build_mlfq.

(** [init] (0) and a shell (1) sleep in [wait]; the shell's child (2) runs and
    has a child of its own (3). *)
Definition demo_init : proc :=
  set_p_pid 1 (set_p_chan (Ch_proc 0) (set_p_state SLEEPING zero_proc)).
Definition demo_shell : proc :=
  set_p_parent (Some 0%nat) (set_p_pid 2 (set_p_chan (Ch_proc 1) (set_p_state SLEEPING zero_proc))).
Definition demo_child : proc :=
  set_p_rtime 4 (set_p_ctime 10 (set_p_parent (Some 1%nat) (set_p_pid 3 (set_p_state RUNNING zero_proc)))).
Definition demo_grandchild : proc :=
  set_p_parent (Some 2%nat) (set_p_pid 4 (set_p_state RUNNABLE zero_proc)).
Definition demo_family (c : proc) (me : nat) : kstate :=
  set_k_ticks 25 (set_k_initproc (Some 0%nat) (set_k_cur (Some me)
    (set_k_procs (demo_init :: demo_shell :: c :: demo_grandchild :: replicate 60 zero_proc) bss))).

Lemma exit_correct_witness :
  ∃ s1 k, exit_tail 2 7 (demo_family demo_child 2) = Swtch s1 k ∧
    p_state <$> k_procs s1 !! 1%nat = Some RUNNABLE ∧ p_xstate <$> k_procs s1 !! 2%nat = Some 7.
Proof.
  destruct (exit_correct 2 7 (demo_family demo_child 2) demo_child 1 0)
    as (s1 & k & H & _ & (z & Hz & _ & Hx & _) & _ & Hw & _); [reflexivity..|done|reflexivity|].
  exists s1, k. split; [exact H|]. split; [by apply (Hw demo_shell)|].
  rewrite Hz. cbn [fmap option_fmap option_map]. by rewrite Hx.
Defined.

Definition demo_zombie : proc := zombie 7 25 demo_child.

Lemma demo_zombie_found :
  list_find (zombie_child 1) (k_procs (demo_family demo_zombie 1)) = Some (2%nat, demo_zombie).
Proof. reflexivity. Qed.

Lemma demo_reap :
  wait_reap 1 2 demo_zombie 0 (set_k_held [L_proc 2; L_wait] (demo_family demo_zombie 1)) =
  Ret 3 (set_k_procs (alter reset_slot 2%nat (k_procs (demo_family demo_zombie 1))) (demo_family demo_zombie 1)).
Proof.
  unfold wait_reap. erewrite bind_step by (by apply getp_some). change (truthy 0) with false. cbn iota.
  rewrite bind_ret_l. change (0 <? 0) with false.
  cbn iota. erewrite bind_step by (by eapply freeproc_bare).
  erewrite bind_step by (by apply release_held). erewrite bind_step by (by apply release_held).
  unfold ret. keq.
Qed.


Lemma demo_reapx :
  waitx_reap 1 2 demo_zombie 0 (set_k_held [L_proc 2; L_wait] (demo_family demo_zombie 1)) =
  Ret (3, Some (11, 4))
    (set_k_procs (alter reset_slot 2%nat (k_procs (demo_family demo_zombie 1))) (demo_family demo_zombie 1)).
Proof.
  unfold waitx_reap. erewrite bind_step by (by apply getp_some). change (truthy 0) with false. cbn iota.
  rewrite bind_ret_l. change (0 <? 0) with false.
  cbn iota. erewrite bind_step by (by eapply freeproc_bare).
  erewrite bind_step by (by apply release_held). erewrite bind_step by (by apply release_held).
  unfold ret. keq.
Qed.

Lemma waitx_times_witness :
  ∃ s', waitx 1 0 (demo_family demo_zombie 1) = Ret (3, Some (11, 4)) s' ∧
    ∃ wtime, Some (11, 4) = Some (wtime, p_rtime demo_zombie) ∧
      u32 (wtime + p_rtime demo_zombie) = u32 (p_etime demo_zombie - p_ctime demo_zombie) ∧
      (3 = -1 ∨ 3 = p_pid demo_zombie).
Proof.
  eexists. apply (waitx_times 0 0 (demo_family demo_zombie 1) 1 demo_shell 2 demo_zombie (3, Some (11, 4)));
    [reflexivity..|exact demo_zombie_found|exact demo_reapx].
Defined.

(** A parent with one open file on two descriptors, and a fresh child. *)
Definition demo_forker : proc :=
  set_p_trapframe 0x80200000 (set_p_cwd (Some 0%nat)
    (set_p_ofile (Some 5%nat :: Some 5%nat :: replicate 14 None) (set_p_pid 2 (set_p_state RUNNING zero_proc)))).
Definition demo_newborn : proc := set_p_trapframe 0x80201000 (set_p_pid 3 (set_p_state USED zero_proc)).
Definition demo_fork : kstate :=
  set_k_held [L_proc 1] (set_k_tfs {[0x80200000 := set_tf_a0 9 zero_tf; 0x80201000 := zero_tf]}
    (set_k_ftable (<[5%nat := set_f_ref 2 zero_file]> (replicate NFILE zero_file))
      (set_k_cur (Some 0%nat) (set_k_procs (demo_forker :: demo_newborn :: replicate 62 zero_proc) bss)))).

Lemma fork_child_witness :
  ∃ s', fork_finish 0 1 demo_fork = Ret 3 s' ∧ k_held s' = [] ∧
    k_procs s' !! 1%nat = Some (forked 0 demo_forker demo_newborn 0 0) ∧
    f_ref <$> k_ftable s' !! 5%nat = Some 4.
Proof.
  destruct (fork_child demo_fork 0 1 demo_forker demo_newborn (set_tf_a0 9 zero_tf) zero_tf 0 zero_inode)
    as (s' & H & Hh & Hc & _ & _ & Hf & _); try reflexivity; [done| |].
  - intros fd f Hfd. exists (set_f_ref 2 zero_file).
    assert (f = 5%nat) as ->; [|split; [reflexivity|simpl; lia]].
    destruct fd as [|[|fd]]; [simpl in Hfd; congruence..|].
    change (replicate 14 None !! fd = Some (Some f)) in Hfd. by apply lookup_replicate in Hfd as [? _].
  - exists s'. split; [exact H|]. split; [exact Hh|]. split; [exact Hc|]. rewrite Hf. reflexivity.
Defined.

Lemma allocproc_fails_cleanly_witness :
  allocproc bss = Ret None (set_k_nextpid 2 (set_k_procs (alter reset_slot 0%nat (k_procs bss)) bss)).
Proof.
  apply (allocproc_fails_cleanly bss); [reflexivity|intros i _; apply not_elem_of_nil|apply not_elem_of_nil
    |apply not_elem_of_nil|reflexivity|by split_and!].
Defined.
