(* ===== verification/Syscall.v ===== *)
(** * System calls

    [kernel/syscall.c], [kernel/sysproc.c] and [kernel/getreadcount.c].  The
    handlers of [kernel/sysfile.c] are the interface [FileSyscalls].  A handler
    returns the [uint64] that [syscall] stores in [a0]; buffers that a call fills
    are returned with the result.  [fuel] bounds how often a call goes round a
    loop that sleeps. *)

From Stdlib Require Import ZArith Lia.
From S2P Require Import Prelude Machine Kernel Boot CString Printf Kalloc Vm ProcTable Sched File ProcLife.

Class FileSyscalls := {
  sys_pipe : M Z; sys_read : M Z; sys_exec : M Z; sys_fstat : M Z; sys_chdir : M Z; sys_dup : M Z;
  sys_open : M Z; sys_write : M Z; sys_mknod : M Z; sys_unlink : M Z; sys_link : M Z; sys_mkdir : M Z;
  sys_close : M Z
}.

Section syscall.
Context `{B : Build} `{F : FileSystem} `{FS : FileSyscalls}.
Variable fuel : nat.

(** What the stack holds in [wtime] and [rtime] of [sys_waitx] before [waitx]. *)
Variables uninit_wtime uninit_rtime : Z.

(** ** getreadcount.c *)

Definition increment_read_count (num : Z) : M unit :=
  when (num =? SYS_read)
    (acquire L_readcount;;
     modify (λ s, set_k_readcount (s32 (k_readcount s + 1)) s);;
     release L_readcount).

Definition readcountfunc : M Z :=
  acquire L_readcount;;
  count <- gets k_readcount;;
  release L_readcount;;
  ret count.

Definition readcountinit : M unit := modify (set_k_readcount 0).

(** ** Arguments *)

(** The bytes copied in, and 0 or -1. *)
Definition fetchaddr (addr : Z) : M (Z * Z) :=
  i <- curproc;;
  p <- getp i;;
  if ((p_sz p <=? addr) || (p_sz p <? u64 (addr + 8)))%bool then ret (-1, 0)
  else
    r <- copyin (p_pagetable p) addr 8;;
    if negb (r.1 =? 0) then ret (-1, 0) else ret (0, le_val r.2).

(** The length of the string, or -1, and the bytes in the buffer. *)
Definition fetchstr (addr max : Z) : M (Z * list Z) :=
  i <- curproc;;
  p <- getp i;;
  r <- copyinstr (p_pagetable p) addr max;;
  if r.1 <? 0 then ret (-1, r.2) else ret (Z.of_nat (length (cbytes r.2)), r.2).

Definition argraw (n : Z) : M Z :=
  i <- curproc;;
  p <- getp i;;
  tf <- gettf (p_trapframe p);;
  if n =? 0 then ret (tf_a0 tf)
  else if n =? 1 then ret (tf_a1 tf)
  else if n =? 2 then ret (tf_a2 tf)
  else if n =? 3 then ret (tf_a3 tf)
  else if n =? 4 then ret (tf_a4 tf)
  else if n =? 5 then ret (tf_a5 tf)
  else panic "argraw".

Definition argint (n : Z) : M Z := x <- argraw n;; ret (s32 x).
Definition argaddr (n : Z) : M Z := argraw n.
Definition argstr (n max : Z) : M (Z * list Z) := addr <- argaddr n;; fetchstr addr max.

(** ** sysproc.c *)

Definition sys_exit : M Z := n <- argint 0;; exit n.

Definition sys_getpid : M Z := i <- curproc;; p <- getp i;; ret (u64 (p_pid p)).

Definition sys_fork : M Z := r <- fork;; ret (u64 r).

Definition sys_wait : M Z := p <- argaddr 0;; r <- wait fuel p;; ret (u64 r).

Definition sys_sbrk : M Z :=
  n <- argint 0;;
  i <- curproc;;
  p <- getp i;;
  let addr := p_sz p in
  r <- growproc n;;
  if r <? 0 then ret (u64 (-1)) else ret addr.

Fixpoint sys_sleep_loop (fl : nat) (ticks0 n : Z) : M Z :=
  match fl with
  | O => stuck
  | S f =>
      ticks <- gets k_ticks;;
      if u32 (ticks - ticks0) <? u32 n then
        i <- curproc;;
        k <- killed i;;
        if truthy k then release L_ticks;; ret (u64 (-1))
        else sleep Ch_ticks L_ticks;; sys_sleep_loop f ticks0 n
      else release L_ticks;; ret 0
  end.

Definition sys_sleep : M Z :=
  n <- argint 0;;
  acquire L_ticks;;
  ticks0 <- gets k_ticks;;
  sys_sleep_loop fuel ticks0 n.

Definition sys_kill : M Z := pid <- argint 0;; r <- kill pid;; ret (u64 r).

Definition sys_uptime : M Z :=
  acquire L_ticks;;
  xticks <- gets k_ticks;;
  release L_ticks;;
  ret xticks.

Definition sys_waitx : M Z :=
  addr <- argaddr 0;;
  addr1 <- argaddr 1;;
  addr2 <- argaddr 2;;
  r <- waitx fuel addr;;
  let wtime := default uninit_wtime (fst <$> r.2) in
  let rtime := default uninit_rtime (snd <$> r.2) in
  i <- curproc;;
  p <- getp i;;
  r1 <- copyout (p_pagetable p) addr1 (le_bytes 4 wtime);;
  if r1 <? 0 then ret (u64 (-1))
  else
    r2 <- copyout (p_pagetable p) addr2 (le_bytes 4 rtime);;
    if r2 <? 0 then ret (u64 (-1)) else ret (u64 r.1).

Definition sys_getreadcount : M Z := r <- readcountfunc;; ret (u64 r).

Definition sys_sigalarm : M Z :=
  ticks <- argint 0;;
  handler <- argaddr 1;;
  if ((ticks =? -1) || (handler =? u64 (-1)))%bool then ret (u64 (-1))
  else
    i <- curproc;;
    modp i (set_p_sigalarm_nticks ticks);;
    modp i (set_p_sigalarm_handler handler);;
    modp i (set_p_sigalarm_running 0);;
    modp i (set_p_ticks_elapsed 0);;
    ret 0.

Definition sys_sigreturn : M Z :=
  i <- curproc;;
  p <- getp i;;
  tf <- gettf (p_trap_backup p);;
  settf (p_trapframe p) (λ _, tf);;
  when (truthy (p_trap_backup p)) (kfree (p_trap_backup p));;
  modp i (set_p_trap_backup 0);;
  modp i (set_p_sigalarm_running 0);;
  tf <- gettf (p_trapframe p);;
  ret (tf_a0 tf).

(** ** Dispatch *)

Definition syscalls (num : Z) : option (M Z) :=
  if num =? SYS_fork then Some sys_fork
  else if num =? SYS_exit then Some sys_exit
  else if num =? SYS_wait then Some sys_wait
  else if num =? SYS_pipe then Some sys_pipe
  else if num =? SYS_read then Some sys_read
  else if num =? SYS_kill then Some sys_kill
  else if num =? SYS_exec then Some sys_exec
  else if num =? SYS_fstat then Some sys_fstat
  else if num =? SYS_chdir then Some sys_chdir
  else if num =? SYS_dup then Some sys_dup
  else if num =? SYS_getpid then Some sys_getpid
  else if num =? SYS_sbrk then Some sys_sbrk
  else if num =? SYS_sleep then Some sys_sleep
  else if num =? SYS_uptime then Some sys_uptime
  else if num =? SYS_open then Some sys_open
  else if num =? SYS_write then Some sys_write
  else if num =? SYS_mknod then Some sys_mknod
  else if num =? SYS_unlink then Some sys_unlink
  else if num =? SYS_link then Some sys_link
  else if num =? SYS_mkdir then Some sys_mkdir
  else if num =? SYS_close then Some sys_close
  else if num =? SYS_waitx then Some sys_waitx
  else if num =? SYS_getreadcount then Some sys_getreadcount
  else if num =? SYS_sigalarm then Some sys_sigalarm
  else if num =? SYS_sigreturn then Some sys_sigreturn
  else None.

Definition syscall : M unit :=
  i <- curproc;;
  p <- getp i;;
  tf <- gettf (p_trapframe p);;
  let num := s32 (tf_a7 tf) in
  increment_read_count num;;
  match syscalls num with
  | Some f => r <- f;; p <- getp i;; settf (p_trapframe p) (set_tf_a0 r)
  | None =>
      printf "%d %s: unknown sys call %d
" [A_int (p_pid p); A_str (Some (cbytes (p_name p))); A_int num];;
      settf (p_trapframe p) (set_tf_a0 (u64 (-1)))
  end.

(** ** Lemmas *)

Lemma curproc_some s i : k_cur s = Some i → curproc s = Ret i s.
Proof. intros H. unfold curproc, myproc. kstep. by rewrite H. Qed.

Lemma increment_read_count_ok num s :
  L_readcount ∉ k_held s →
  increment_read_count num s =
  Ret tt (set_k_readcount (if num =? SYS_read then s32 (k_readcount s + 1) else k_readcount s) s).
Proof.
  intros Hl. unfold increment_read_count, when. case_test.
  - erewrite bind_step by (by apply acquire_free). kstep. erewrite release_held by done. keq.
  - unfold ret. by destruct s.
Qed.

(** Registers of the current process. *)
Record in_syscall (s : kstate) (i : nat) (p : proc) (tf : trapframe) : Prop := {
  sc_cur : k_cur s = Some i;
  sc_proc : k_procs s !! i = Some p;
  sc_tf : k_tfs s !! p_trapframe p = Some tf
}.

Lemma argraw_ok n s i p tf :
  in_syscall s i p tf → 0 ≤ n < 6 →
  argraw n s = Ret (nth (Z.to_nat n) [tf_a0 tf; tf_a1 tf; tf_a2 tf; tf_a3 tf; tf_a4 tf; tf_a5 tf] 0) s.
Proof.
  intros [Hc Hp Ht] Hn. unfold argraw. erewrite bind_step by (by apply curproc_some).
  erewrite bind_step by (by apply getp_some). erewrite bind_step by (by apply gettf_ok).
  assert (n = 0 ∨ n = 1 ∨ n = 2 ∨ n = 3 ∨ n = 4 ∨ n = 5) as Hcase by lia.
  by destruct Hcase as [->|[->|[->|[->|[->| ->]]]]].
Qed.

Lemma argint_ok n s i p tf :
  in_syscall s i p tf → 0 ≤ n < 6 →
  argint n s = Ret (s32 (nth (Z.to_nat n) [tf_a0 tf; tf_a1 tf; tf_a2 tf; tf_a3 tf; tf_a4 tf; tf_a5 tf] 0)) s.
Proof. intros H Hn. unfold argint. by erewrite bind_step by (by eapply argraw_ok). Qed.

(** ** Theorems *)

(** A system call with a number the kernel does not know returns -1 to the
    caller: besides the message on the console only [a0] changes. *)
Theorem syscall_unknown s i p tf :
  in_syscall s i p tf → L_readcount ∉ k_held s → L_pr ∉ k_held s →
  s32 (tf_a7 tf) ≤ 0 ∨ 25 < s32 (tf_a7 tf) →
  ∃ l, syscall s = Ret tt (set_k_tfs (<[p_trapframe p := set_tf_a0 (2 ^ 64 - 1) tf]> (k_tfs s))
                             (set_k_out (k_out s ++ l) s)).
Proof.
  intros [Hc Hp Ht] Hl Hpr Hn. unfold syscall. erewrite bind_step by (by apply curproc_some).
  erewrite bind_step by (by apply getp_some). erewrite bind_step by (by apply gettf_ok).
  set (num := s32 (tf_a7 tf)) in *. erewrite bind_step by (by apply increment_read_count_ok).
  assert ((num =? SYS_read) = false) as -> by (apply Z.eqb_neq; unfold SYS_read; lia).
  assert (set_k_readcount (k_readcount s) s = s) as -> by (by destruct s).
  assert (syscalls num = None) as ->.
  { unfold syscalls, SYS_fork, SYS_exit, SYS_wait, SYS_pipe, SYS_read, SYS_kill, SYS_exec, SYS_fstat, SYS_chdir,
      SYS_dup, SYS_getpid, SYS_sbrk, SYS_sleep, SYS_uptime, SYS_open, SYS_write, SYS_mknod, SYS_unlink, SYS_link,
      SYS_mkdir, SYS_close, SYS_waitx, SYS_getreadcount, SYS_sigalarm, SYS_sigreturn.
    by repeat (case_test; [lia|]). }
  edestruct prints_printf as [l Hpf]; [|exact Hpr|]; [|erewrite bind_step by exact Hpf]; [reflexivity|].
  exists l. erewrite settf_ok by exact Ht. change (u64 (-1)) with (2 ^ 64 - 1). keq.
Qed.

(** [getreadcount] counts reads: after any sequence of system-call numbers
    the counter has grown by the number of [SYS_read] among them and by nothing
    else, and [readcountfunc] returns it. *)
Theorem readcount_counts nums s :
  L_readcount ∉ k_held s → 0 ≤ k_readcount s → k_readcount s + Z.of_nat (length nums) < 2 ^ 31 →
  let n := k_readcount s + Z.of_nat (length (filter (λ x, x = SYS_read) nums)) in
  for_each nums increment_read_count s = Ret tt (set_k_readcount n s) ∧
  readcountfunc (set_k_readcount n s) = Ret n (set_k_readcount n s).
Proof.
  intros Hl H0 Hmax n. split.
  - unfold n. clear n. revert s Hl H0 Hmax. induction nums as [|x nums IH]; intros s Hl H0 Hmax.
    { simpl. rewrite Z.add_0_r. by destruct s. }
    cbn [for_each]. erewrite bind_step by (by apply increment_read_count_ok). simpl length in Hmax.
    rewrite filter_cons. destruct (Z.eqb_spec x SYS_read) as [E|E].
    + rewrite decide_True by done. rewrite s32_small by lia. rewrite IH by (simpl; done || lia).
      apply ret_eq, k_ext; cbn [k_readcount set_k_readcount length]; done || lia.
    + rewrite decide_False by done. rewrite IH by (simpl; done || lia). simpl. by destruct s.
  - unfold readcountfunc. erewrite bind_step by (by apply acquire_free). kstep.
    erewrite release_held by done. keq.
Qed.

Hypothesis kend_range : KERNBASE ≤ kend ≤ PHYSTOP.

(** [fetchaddr] reads only inside the process: for every 64-bit address,
    including those whose end overflows, it fails unless all eight bytes lie
    below the size of the process, and otherwise reads what a byte-by-byte copy
    of those eight bytes reads. *)
Theorem fetchaddr_bounds addr s i p fl :
  k_cur s = Some i → k_procs s !! i = Some p → 0 ≤ addr < 2 ^ 64 → 0 ≤ p_sz p ≤ MAXVA →
  pt_wf (k_mem s) (p_pagetable p) fl →
  fetchaddr addr s =
  if addr + 8 <=? p_sz p then
    (let r := copyin_ref 8 (k_mem s) (p_pagetable p) addr [] in
     if r.1 =? 0 then Ret (0, le_val r.2) s else Ret (-1, 0) s)
  else Ret (-1, 0) s.
Proof.
  intros Hc Hp Ha Hsz Hpt. unfold fetchaddr. erewrite bind_step by (by apply curproc_some).
  erewrite bind_step by (by apply getp_some). change MAXVA with 274877906944 in Hsz.
  assert (((p_sz p <=? addr) || (p_sz p <? u64 (addr + 8)))%bool = negb (addr + 8 <=? p_sz p)) as ->.
  { unfold u64. destruct (Z.leb_spec (addr + 8) (p_sz p)); cbn [negb].
    - apply orb_false_iff. split; [apply Z.leb_gt; lia|apply Z.ltb_ge; zarith].
    - apply orb_true_iff. rewrite Z.leb_le, Z.ltb_lt. zarith. }
  destruct (addr + 8 <=? p_sz p); cbn [negb]; [|done].
  erewrite bind_step by (eapply copyin_spec; [exact kend_range|exact Hpt|exact Ha|lia]).
  change (Z.to_nat 8) with 8%nat. cbv zeta.
  destruct (copyin_ref 8 (k_mem s) (p_pagetable p) addr []) as [r bs]. cbn [fst snd]. by destruct (r =? 0).
Qed.

(** [sigreturn] with no alarm handler running stops the kernel: the handler
    copies from the null [trap_backup] before it tests it. *)
Theorem sigreturn_without_alarm s i p tf :
  in_syscall s i p tf → p_trap_backup p = 0 → k_tfs s !! 0 = None →
  sys_sigreturn s = Panic "kerneltrap".
Proof.
  intros [Hc Hp Ht] H0 Hnull. unfold sys_sigreturn. erewrite bind_step by (by apply curproc_some).
  erewrite bind_step by (by apply getp_some). rewrite H0. apply bind_panic.
  unfold gettf. kstep. by rewrite Hnull.
Qed.

End syscall.

(** ** The theorems at concrete states *)

#[local] Existing Instance build_rr.

(** File-system operations that do nothing, and file system calls that fail. *)
Definition null_fs : FileSystem := {|
  begin_op := ret tt; end_op := ret tt; iput := λ _, ret tt; namei := λ _, ret None; fsinit := λ _, ret tt
|}.
Definition null_sysfile : FileSyscalls := {|
  sys_pipe := ret (u64 (-1)); sys_read := ret (u64 (-1)); sys_exec := ret (u64 (-1)); sys_fstat := ret (u64 (-1));
  sys_chdir := ret (u64 (-1)); sys_dup := ret (u64 (-1)); sys_open := ret (u64 (-1)); sys_write := ret (u64 (-1));
  sys_mknod := ret (u64 (-1)); sys_unlink := ret (u64 (-1)); sys_link := ret (u64 (-1)); sys_mkdir := ret (u64 (-1));
  sys_close := ret (u64 (-1))
|}.
#[local] Existing Instances null_fs null_sysfile.

(** Process 0 makes system call 99 with the memory of [demo_user]. *)
Definition demo_caller : proc :=
  set_p_sz 4096 (set_p_pagetable demo_pt (set_p_trapframe 0x80200000 (set_p_pid 3 (set_p_state RUNNING zero_proc)))).
Definition demo_regs : trapframe := mk_tf 0 0 0 0 0 0 0 0 0 0 0 0 0 0 1 2 3 4 5 6 7 99 0 0 0 0 0 0 0 0 0 0 0 0 0 0.
Definition demo_call : kstate :=
  set_k_tfs {[0x80200000 := demo_regs]}
    (set_k_procs (demo_caller :: replicate 63 zero_proc) (set_k_cur (Some 0%nat) demo_user)).

Lemma demo_in_syscall : in_syscall demo_call 0 demo_caller demo_regs.
Proof. by split. Qed.

Lemma syscall_unknown_witness :
  ∃ l, syscall 0 0 0 demo_call =
    Ret tt (set_k_tfs (<[0x80200000 := set_tf_a0 (2 ^ 64 - 1) demo_regs]> (k_tfs demo_call))
      (set_k_out (k_out demo_call ++ l) demo_call)).
Proof.
  apply (syscall_unknown 0 0 0 demo_call 0 demo_caller demo_regs demo_in_syscall);
    [apply not_elem_of_nil|apply not_elem_of_nil|right; reflexivity].
Defined.

Lemma readcount_counts_witness :
  for_each [5; 16; 5] increment_read_count bss = Ret tt (set_k_readcount 2 bss) ∧
  readcountfunc (set_k_readcount 2 bss) = Ret 2 (set_k_readcount 2 bss).
Proof. apply (readcount_counts [5; 16; 5] bss); [apply not_elem_of_nil|done|done]. Defined.

Lemma fetchaddr_bounds_witness :
  fetchaddr 0 demo_call = Ret (0, 26984) demo_call ∧
  fetchaddr 4090 demo_call = Ret (-1, 0) demo_call ∧
  fetchaddr (2 ^ 64 - 4) demo_call = Ret (-1, 0) demo_call.
Proof.
  split_and!; (etrans; [apply (fetchaddr_bounds (build_of_kend RR) _ demo_call 0 demo_caller []);
    [reflexivity|reflexivity|lia|vm_compute; split; discriminate|apply demo_wf]|vm_compute; reflexivity]).
Defined.

Lemma sigreturn_without_alarm_witness : sys_sigreturn demo_call = Panic "kerneltrap".
Proof.
  by apply (sigreturn_without_alarm demo_call 0 demo_caller demo_regs demo_in_syscall).
Defined.
