(* ===== verification/Exec.v ===== *)
(** * Running a program

    [kernel/exec.c]: loading an ELF file into a new address space, building the
    user stack with the arguments, and committing to the new image. *)

From Stdlib Require Import ZArith Lia.
From S2P Require Import Prelude Machine Kernel Boot CString Printf Kalloc Vm ProcTable Sleeplock Bio Log File Fs ProcLife.

(** The file system the process code uses. *)
Definition xv6_fs (fuel : nat) (uninit_name : list Z) : FileSystem := {|
  File.begin_op := Log.begin_op fuel;
  File.end_op := Log.end_op fuel;
  File.iput := Fs.iput fuel;
  File.namei := Fs.namei fuel uninit_name;
  File.fsinit := Fs.fsinit fuel
|}.

(** ** ELF files *)

Definition ELF_MAGIC : Z := 0x464C457F.
Definition ELF_PROG_LOAD : Z := 1.
Definition ELFHDR_SIZE : Z := 64.
Definition PROGHDR_SIZE : Z := 56.

Definition get64 (l : list Z) (off : nat) : Z := le_val (take 8 (drop off l)).

(** The fields of [struct elfhdr] that [exec] uses. *)
Record elfhdr := mk_elf { elf_magic : Z; elf_entry : Z; elf_phoff : Z; elf_phnum : Z }.
Definition get_elfhdr (l : list Z) : elfhdr := mk_elf (get32 l 0) (get64 l 24) (get64 l 32) (get16 l 56).

(** The fields of [struct proghdr] that [exec] uses. *)
Record proghdr := mk_ph { ph_type : Z; ph_flags : Z; ph_off : Z; ph_vaddr : Z; ph_filesz : Z; ph_memsz : Z }.
Definition get_proghdr (l : list Z) : proghdr :=
  mk_ph (get32 l 0) (get32 l 4) (get64 l 8) (get64 l 16) (get64 l 32) (get64 l 40).

Definition flags2perm (flags : Z) : Z :=
  let perm := if truthy (Z.land flags 0x1) then PTE_X else 0 in
  if truthy (Z.land flags 0x2) then Z.lor perm PTE_W else perm.

Section exec.
Context `{B : Build}.
Variable fuel : nat.
Variable uninit_name : list Z.

Fixpoint loadseg_loop (fl : nat) (pagetable va : Z) (ip : nat) (offset sz i : Z) : M Z :=
  match fl with
  | O => stuck
  | S f =>
      if i <? sz then
        pa <- walkaddr pagetable (u64 (va + i));;
        if pa =? 0 then panic "loadseg: address should exist"
        else
          let n := if sz - i <? PGSIZE then sz - i else PGSIZE in
          r <- readi fuel ip false pa (u32 (offset + i)) n;;
          if negb (u32 r =? n) then ret (-1)
          else loadseg_loop f pagetable va ip offset sz (u32 (i + PGSIZE))
      else ret 0
  end.

Definition loadseg (pagetable va : Z) (ip : nat) (offset sz : Z) : M Z :=
  loadseg_loop (Z.to_nat (sz / PGSIZE + 2)) pagetable va ip offset sz 0.

(** The loop over the program headers: whether it ended without a [goto bad], and [sz]. *)
Fixpoint exec_segs (k : nat) (pagetable : Z) (ip : nat) (off sz : Z) : M (bool * Z) :=
  match k with
  | O => ret (true, sz)
  | S k' =>
      r <- readi_local fuel ip (u32 off) PROGHDR_SIZE;;
      if negb (r.1 =? PROGHDR_SIZE) then ret (false, sz)
      else
        let ph := get_proghdr r.2 in
        let off' := s32 (off + PROGHDR_SIZE) in
        if negb (ph_type ph =? ELF_PROG_LOAD) then exec_segs k' pagetable ip off' sz
        else if ph_memsz ph <? ph_filesz ph then ret (false, sz)
        else if u64 (ph_vaddr ph + ph_memsz ph) <? ph_vaddr ph then ret (false, sz)
        else if negb (ph_vaddr ph mod PGSIZE =? 0) then ret (false, sz)
        else
          sz1 <- uvmalloc pagetable sz (u64 (ph_vaddr ph + ph_memsz ph)) (flags2perm (ph_flags ph));;
          if sz1 =? 0 then ret (false, sz)
          else
            l <- loadseg pagetable (ph_vaddr ph) ip (u32 (ph_off ph)) (u32 (ph_filesz ph));;
            if l <? 0 then ret (false, sz1)
            else exec_segs k' pagetable ip off' sz1
  end.

(** The loop that pushes the argument strings; [argv] are the addresses of the
    strings up to the null pointer.  Returns the stack pointer and [ustack]. *)
Fixpoint exec_push (argv : list Z) (pagetable stackbase sp argc : Z) (ustack : list Z) : M (option (Z * list Z)) :=
  match argv with
  | [] => ret (Some (sp, ustack))
  | a :: argv' =>
      if Z.of_nat MAXARG <=? argc then ret None
      else
        o <- gets (λ s, strlen (Z.to_nat PGSIZE) (k_mem s) a);;
        match o with
        | None => stuck
        | Some len =>
            let sp := u64 (sp - (len + 1)) in
            let sp := sp - sp mod 16 in
            if sp <? stackbase then ret None
            else
              str <- gets (λ s, get_bytes (k_mem s) a (Z.to_nat (len + 1)));;
              r <- copyout pagetable sp str;;
              if r <? 0 then ret None
              else exec_push argv' pagetable stackbase sp (argc + 1) (ustack ++ [sp])
        end
  end.

(** [for(last=s=path; *s; s++) if( *s == '/') last = s+1;] *)
Fixpoint basename (s last : list Z) : list Z :=
  match s with
  | [] => last
  | c :: s' => basename s' (if c =? 47 then s' else last)
  end.

(** The label [bad]. *)
Definition exec_bad (pagetable sz : Z) (ip : option nat) : M Z :=
  when (truthy pagetable) (proc_freepagetable pagetable sz);;
  match ip with
  | Some i => Fs.iunlockput fuel i;; Log.end_op fuel
  | None => ret tt
  end;;
  ret (-1).

(** From the new image to the return: the stack, then the commit. *)
Definition exec_commit (path argv : list Z) (elf : elfhdr) (pagetable sz : Z) : M Z :=
  me <- curproc;;
  p <- getp me;;
  let oldsz := p_sz p in
  let sz := PGROUNDUP sz in
  sz1 <- uvmalloc pagetable sz (u64 (sz + 2 * PGSIZE)) PTE_W;;
  if sz1 =? 0 then exec_bad pagetable sz None
  else
    uvmclear pagetable (u64 (sz1 - 2 * PGSIZE));;
    let stackbase := u64 (sz1 - PGSIZE) in
    o <- exec_push argv pagetable stackbase sz1 0 [];;
    match o with
    | None => exec_bad pagetable sz1 None
    | Some (sp, ustack) =>
        let argc := Z.of_nat (length ustack) in
        let sp := u64 (sp - (argc + 1) * 8) in
        let sp := sp - sp mod 16 in
        if sp <? stackbase then exec_bad pagetable sz1 None
        else
          r <- copyout pagetable sp (mjoin (le_bytes 8 <$> (ustack ++ [0])));;
          if r <? 0 then exec_bad pagetable sz1 None
          else
            settf (p_trapframe p) (set_tf_a1 sp);;
            modp me (set_name (basename path path));;
            p <- getp me;;
            let oldpagetable := p_pagetable p in
            modp me (set_p_pagetable pagetable);;
            modp me (set_p_sz sz1);;
            settf (p_trapframe p) (set_tf_epc (elf_entry elf));;
            settf (p_trapframe p) (set_tf_sp sp);;
            proc_freepagetable oldpagetable oldsz;;
            ret argc
    end.

Definition exec (path argv : list Z) : M Z :=
  me <- curproc;;
  Log.begin_op fuel;;
  o <- Fs.namei fuel uninit_name path;;
  match o with
  | None => Log.end_op fuel;; ret (-1)
  | Some ip =>
      ilock fuel (Some ip);;
      r <- readi_local fuel ip 0 ELFHDR_SIZE;;
      if negb (r.1 =? ELFHDR_SIZE) then exec_bad 0 0 (Some ip)
      else
        let elf := get_elfhdr r.2 in
        if negb (elf_magic elf =? ELF_MAGIC) then exec_bad 0 0 (Some ip)
        else
          pagetable <- proc_pagetable me;;
          if pagetable =? 0 then exec_bad 0 0 (Some ip)
          else
            l <- exec_segs (Z.to_nat (elf_phnum elf)) pagetable ip (s32 (elf_phoff elf)) 0;;
            if negb l.1 then exec_bad pagetable l.2 (Some ip)
            else
              iunlockput fuel ip;;
              Log.end_op fuel;;
              exec_commit path argv elf pagetable l.2
  end.

End exec.

(** ** The user stack *)

Lemma strlen_bound fl m a len : strlen fl m a = Some len → 0 ≤ len < Z.of_nat fl.
Proof.
  revert a len. induction fl as [|fl IH]; intros a len; cbn [strlen]; [done|]. case_test; [intros [= <-]; lia|].
  destruct (strlen fl m (a + 1)) as [l|] eqn:El; [|done]. intros [= <-]. apply IH in El. lia.
Qed.

(** Addresses on the stack, highest first, aligned and inside the stack page. *)
Fixpoint stacked (stackbase sp : Z) (l : list Z) : Prop :=
  match l with
  | [] => True
  | a :: l' => stackbase ≤ a < sp ∧ a mod 16 = 0 ∧ stacked stackbase a l'
  end.

Lemma align16 x : 0 ≤ x → (x - x mod 16) mod 16 = 0 ∧ 0 ≤ x - x mod 16 ≤ x.
Proof.
  intros H. pose proof (Z.mod_pos_bound x 16 ltac:(lia)). split.
  - rewrite Zminus_mod, Z.mod_mod, Z.sub_diag by lia. done.
  - pose proof (Z.mod_le x 16 H ltac:(lia)). lia.
Qed.

(** The argument strings of [exec] stay inside the stack page: when the loop
    succeeds, every string has its own 16-byte aligned place, below the one before
    and not below [stackbase], the stack pointer ends at the last of them, and
    [ustack] has one entry per argument, in order; the subtractions do not wrap
    around, whatever the strings are. *)
Theorem exec_push_bounds argv pagetable stackbase sp argc ustack s sp' ustack' s' :
  PGSIZE ≤ stackbase ≤ sp → sp < 2 ^ 64 → 
  exec_push argv pagetable stackbase sp argc ustack s = Ret (Some (sp', ustack')) s' →
  stackbase ≤ sp' ≤ sp ∧
  ∃ l, ustack' = ustack ++ l ∧ length l = length argv ∧ stacked stackbase sp l ∧
    sp' = default sp (last l) ∧ argc + Z.of_nat (length argv) ≤ Z.max argc (Z.of_nat MAXARG).
Proof.
  revert sp argc ustack s. induction argv as [|a argv IH]; intros sp argc ustack s Hb Hsp; cbn [exec_push].
  { intros [= <- <- <-]. split; [lia|]. exists []. rewrite app_nil_r. split_and!; try done. simpl. lia. }
  destruct (Z.leb_spec (Z.of_nat MAXARG) argc) as [Hm|Hm]; [done|].
  unfold bind at 1, gets at 1. cbn [rbind]. destruct (strlen _ _ a) as [len|] eqn:El; [|done].
  apply strlen_bound in El. unfold PGSIZE in *.
  assert (u64 (sp - (len + 1)) = sp - (len + 1)) as -> by (unfold u64; apply Z.mod_small; lia).
  destruct (align16 (sp - (len + 1)) ltac:(lia)) as [Ha1 Ha2]. set (sp1 := sp - (len + 1) - _ mod 16) in *.
  destruct (Z.ltb_spec sp1 stackbase) as [Hlt|Hge]; [done|].
  unfold bind at 1, gets at 1. cbn [rbind].
  unfold bind at 1. destruct (copyout pagetable sp1 _ s) as [r s1|msg|s1 k|] eqn:Ec; cbn [rbind]; [|done|done|done].
  destruct (r <? 0); [done|]. intros Hrun. apply IH in Hrun as (Hb' & l & -> & Hl & Hst & Hlast & Hargc); [|lia|lia].
  split; [lia|]. exists (sp1 :: l). rewrite <- app_assoc. split_and!; try done.
  - simpl. lia.
  - simpl. split_and!; [lia|lia|done|done].
  - rewrite Hlast, last_cons. by destruct (last l).
  - simpl length. lia.
Qed.

(** A second user page at 4096 and the string "hi" in kernel memory. *)
Definition push_machine : kstate :=
  set_k_mem (st64 demo_mem (demo_pt0 + 8) (ld64 demo_mem demo_pt0)) demo_user.

Lemma exec_push_bounds_witness :
  ∃ s', exec_push [demo_page; demo_page] demo_pt 4096 8192 0 [] push_machine = Ret (Some (8160, [8176; 8160])) s' ∧
    stacked 4096 8192 [8176; 8160].
Proof.
  assert (∃ s', exec_push [demo_page; demo_page] demo_pt 4096 8192 0 [] push_machine = Ret (Some (8160, [8176; 8160])) s') as [s' H].
  { assert (match exec_push [demo_page; demo_page] demo_pt 4096 8192 0 [] push_machine with
            | Ret o _ => o | _ => None end = Some (8160, [8176; 8160])) as E by (vm_compute; reflexivity).
    destruct (exec_push _ _ _ _ _ _ _) as [o s'|?|? ?|]; try discriminate E. exists s'. by rewrite E. }
  exists s'. split; [exact H|].
  destruct (exec_push_bounds [demo_page; demo_page] demo_pt 4096 8192 0 [] push_machine 8160 [8176; 8160] s') as (_ & l & E & _ & Hst & _).
  - unfold PGSIZE. lia.
  - lia.
  - exact H.
  - simpl in E. by rewrite E.
Defined.
