(* ===== verification/Sysfile.v ===== *)
(** * File system calls

    [kernel/sysfile.c] and the part of [kernel/file.c] that works on inodes:
    reading, writing and [stat] of open files, and the system calls on paths and
    descriptors.  The result of a system call is the 64-bit value of [a0]. *)

From Stdlib Require Import ZArith Lia.
From S2P Require Import Prelude Machine Kernel Boot CString Printf Kalloc Vm ProcTable Sleeplock Bio Log Console File Fs ProcLife Syscall Exec.

(** [devsw] after [consoleinit]: only the console is connected. *)
Definition CONSOLE : Z := 1.

(** The bytes of a [struct stat], with the padding before [size]; [pad] is what the
    stack holds there. *)
Definition stat_bytes (pad : list Z) (st : stat) : list Z :=
  le_bytes 4 (st_dev st) ++ le_bytes 4 (st_ino st) ++ le_bytes 2 (st_type st) ++ le_bytes 2 (st_nlink st) ++
  pad ++ le_bytes 8 (st_size st).

Section sysfile.
Context `{B : Build} `{U : Uart}.
Variable fuel : nat.

(** What the uninitialised locals [name] hold, and the padding of [struct stat]. *)
Variables (uninit_name : list Z) (stat_pad : list Z).

#[local] Instance the_fs : FileSystem := xv6_fs fuel uninit_name.

Abbreviation begin_op := (Log.begin_op fuel).
Abbreviation end_op := (Log.end_op fuel).
Abbreviation iput := (Fs.iput fuel).
Abbreviation iunlockput := (Fs.iunlockput fuel).
Abbreviation ilock := (Fs.ilock fuel).
Abbreviation iupdate := (Fs.iupdate fuel).
Abbreviation namei := (Fs.namei fuel uninit_name).
Abbreviation nameiparent := (Fs.nameiparent fuel).

Definition devsw_read (major : Z) : option (bool → Z → Z → M Z) :=
  if major =? CONSOLE then Some (consoleread fuel) else None.
Definition devsw_write (major : Z) : option (bool → Z → Z → M Z) :=
  if major =? CONSOLE then Some (consolewrite fuel) else None.

(** ** file.c *)

Definition filestat (f : nat) (addr : Z) : M Z :=
  me <- curproc;;
  ff <- getf f;;
  match f_type ff with
  | FD_INODE | FD_DEVICE =>
      ilock (f_ip ff);;
      ip <- unwrap (f_ip ff);;
      st <- stati ip;;
      iunlock (f_ip ff);;
      p <- getp me;;
      r <- copyout (p_pagetable p) addr (stat_bytes stat_pad st);;
      if r <? 0 then ret (-1) else ret 0
  | _ => ret (-1)
  end.

Definition fileread (f : nat) (addr n : Z) : M Z :=
  ff <- getf f;;
  if f_readable ff =? 0 then ret (-1)
  else
    match f_type ff with
    | FD_PIPE => piperead fuel (f_pipe ff) addr n
    | FD_DEVICE =>
        if ((f_major ff <? 0) || (Z.of_nat NDEV <=? f_major ff))%bool then ret (-1)
        else match devsw_read (f_major ff) with
             | None => ret (-1)
             | Some rd => rd true addr n
             end
    | FD_INODE =>
        ilock (f_ip ff);;
        ip <- unwrap (f_ip ff);;
        ff <- getf f;;
        r <- readi fuel ip true addr (f_off ff) (u32 n);;
        when (0 <? r) (modf f (λ ff, set_f_off (u32 (f_off ff + r)) ff));;
        iunlock (f_ip ff);;
        ret r
    | FD_NONE => panic "fileread"
    end.

(** [((MAXOPBLOCKS-1-1-2) / 2) * BSIZE] *)
Definition write_max : Z := ((MAXOPBLOCKS - 1 - 1 - 2) / 2) * BSIZE.

Fixpoint filewrite_loop (fl : nat) (f ip : nat) (addr n i : Z) : M Z :=
  match fl with
  | O => stuck
  | S fl' =>
      if i <? n then
        let n1 := if write_max <? n - i then write_max else n - i in
        begin_op;;
        ilock (Some ip);;
        ff <- getf f;;
        r <- writei fuel ip true (u64 (addr + i)) (f_off ff) n1;;
        when (0 <? r) (modf f (λ ff, set_f_off (u32 (f_off ff + r)) ff));;
        iunlock (Some ip);;
        end_op;;
        if negb (r =? n1) then ret i else filewrite_loop fl' f ip addr n (i + r)
      else ret i
  end.

Definition filewrite (f : nat) (addr n : Z) : M Z :=
  ff <- getf f;;
  if f_writable ff =? 0 then ret (-1)
  else
    match f_type ff with
    | FD_PIPE => pipewrite fuel (f_pipe ff) addr n
    | FD_DEVICE =>
        if ((f_major ff <? 0) || (Z.of_nat NDEV <=? f_major ff))%bool then ret (-1)
        else match devsw_write (f_major ff) with
             | None => ret (-1)
             | Some wr => wr true addr n
             end
    | FD_INODE =>
        ip <- unwrap (f_ip ff);;
        i <- filewrite_loop (Z.to_nat (n / write_max + 2)) f ip addr n 0;;
        ret (if i =? n then n else -1)
    | FD_NONE => panic "filewrite"
    end.

(** ** sysfile.c: descriptors *)

(** The descriptor and its open file. *)
Definition argfd (n : Z) : M (option (nat * nat)) :=
  fd <- argint n;;
  if ((fd <? 0) || (Z.of_nat NOFILE <=? fd))%bool then ret None
  else
    me <- curproc;;
    p <- getp me;;
    o <- unwrap (p_ofile p !! Z.to_nat fd);;
    ret (match o with Some f => Some (Z.to_nat fd, f) | None => None end).

Fixpoint first_fd (l : list (option nat)) (fd : nat) : option nat :=
  match l with
  | [] => None
  | None :: _ => Some fd
  | Some _ :: l' => first_fd l' (S fd)
  end.

Definition fdalloc (f : nat) : M Z :=
  me <- curproc;;
  p <- getp me;;
  match first_fd (p_ofile p) O with
  | Some fd => modp me (λ p, set_p_ofile (<[fd := Some f]> (p_ofile p)) p);; ret (Z.of_nat fd)
  | None => ret (-1)
  end.

Definition sys_dup : M Z :=
  o <- argfd 0;;
  match o with
  | None => ret (u64 (-1))
  | Some (_, f) =>
      fd <- fdalloc f;;
      if fd <? 0 then ret (u64 (-1)) else filedup f;; ret (u64 fd)
  end.

Definition sys_read : M Z :=
  p <- argaddr 1;;
  n <- argint 2;;
  o <- argfd 0;;
  match o with
  | None => ret (u64 (-1))
  | Some (_, f) => r <- fileread f p n;; ret (u64 r)
  end.

Definition sys_write : M Z :=
  p <- argaddr 1;;
  n <- argint 2;;
  o <- argfd 0;;
  match o with
  | None => ret (u64 (-1))
  | Some (_, f) => r <- filewrite f p n;; ret (u64 r)
  end.

Definition set_ofile (fd : nat) (o : option nat) : M unit :=
  me <- curproc;; modp me (λ p, set_p_ofile (<[fd := o]> (p_ofile p)) p).

Definition sys_close : M Z :=
  o <- argfd 0;;
  match o with
  | None => ret (u64 (-1))
  | Some (fd, f) => set_ofile fd None;; fileclose f;; ret 0
  end.

Definition sys_fstat : M Z :=
  st <- argaddr 1;;
  o <- argfd 0;;
  match o with
  | None => ret (u64 (-1))
  | Some (_, f) => r <- filestat f st;; ret (u64 r)
  end.

(** ** sysfile.c: paths *)

(** [argstr(n, path, MAXPATH)]: the string, if it could be fetched. *)
Definition argpath (n : Z) : M (option (list Z)) :=
  r <- argstr n MAXPATH;;
  ret (if r.1 <? 0 then None else Some (cbytes r.2)).

(** [end_op(); return -1;] *)
Definition fail_op : M Z := end_op;; ret (u64 (-1)).

Definition sys_link_bad (ip : nat) : M Z :=
  ilock (Some ip);;
  modi ip (λ x, set_i_nlink (s16 (i_nlink x - 1)) x);;
  iupdate ip;;
  iunlockput ip;;
  fail_op.

Definition sys_link : M Z :=
  o <- argpath 0;;
  match o with
  | None => ret (u64 (-1))
  | Some old =>
      o <- argpath 1;;
      match o with
      | None => ret (u64 (-1))
      | Some new =>
          begin_op;;
          o <- namei old;;
          match o with
          | None => fail_op
          | Some ip =>
              ilock (Some ip);;
              x <- geti ip;;
              if i_type x =? T_DIR then iunlockput ip;; fail_op
              else
                modi ip (λ x, set_i_nlink (s16 (i_nlink x + 1)) x);;
                iupdate ip;;
                iunlock (Some ip);;
                d <- nameiparent new uninit_name;;
                match d with
                | (None, _) => sys_link_bad ip
                | (Some dp, name) =>
                    ilock (Some dp);;
                    y <- geti dp;;
                    x <- geti ip;;
                    r <- (if negb (i_dev y =? i_dev x) then ret (-1) else dirlink fuel dp name (i_inum x));;
                    if r <? 0 then iunlockput dp;; sys_link_bad ip
                    else
                      iunlockput dp;;
                      iput ip;;
                      end_op;;
                      ret 0
                end
          end
      end
  end.

Definition isdirempty (dp : nat) : M bool :=
  d <- geti dp;;
  r <- for_until (drop 2 (dir_offs (i_size d))) (λ off,
    r <- readi_local fuel dp off DIRENT_SIZE;;
    if negb (r.1 =? DIRENT_SIZE) then panic "isdirempty: readi"
    else if negb (de_inum (get_dirent r.2) =? 0) then ret (Some false)
    else ret None);;
  ret (match r with Some b => b | None => true end).

(** The label [bad] of [sys_unlink]. *)
Definition sys_unlink_bad (dp : nat) : M Z := iunlockput dp;; fail_op.

Definition sys_unlink : M Z :=
  o <- argpath 0;;
  match o with
  | None => ret (u64 (-1))
  | Some path =>
      begin_op;;
      d <- nameiparent path uninit_name;;
      match d with
      | (None, _) => fail_op
      | (Some dp, name) =>
          ilock (Some dp);;
          if ((namecmp name (cstr "." ++ [0]) =? 0) || (namecmp name (cstr ".." ++ [0]) =? 0))%bool then sys_unlink_bad dp
          else
            o <- dirlookup fuel dp name;;
            match o with
            | None => sys_unlink_bad dp
            | Some (ip, off) =>
                ilock (Some ip);;
                x <- geti ip;;
                if i_nlink x <? 1 then panic "unlink: nlink < 1"
                else
                  e <- (if i_type x =? T_DIR then isdirempty ip else ret true);;
                  if negb (e : bool) then iunlockput ip;; sys_unlink_bad dp
                  else
                    r <- writei_local fuel dp (replicate (Z.to_nat DIRENT_SIZE) 0) off;;
                    if negb (r =? DIRENT_SIZE) then panic "unlink: writei"
                    else
                      when (i_type x =? T_DIR)
                        (modi dp (λ y, set_i_nlink (s16 (i_nlink y - 1)) y);;
                         iupdate dp);;
                      iunlockput dp;;
                      modi ip (λ x, set_i_nlink (s16 (i_nlink x - 1)) x);;
                      iupdate ip;;
                      iunlockput ip;;
                      end_op;;
                      ret 0
            end
      end
  end.

(** The label [fail] of [create]. *)
Definition create_fail (ip dp : nat) : M (option nat) :=
  modi ip (set_i_nlink 0);;
  iupdate ip;;
  iunlockput ip;;
  iunlockput dp;;
  ret None.

Definition create (path : list Z) (type major minor : Z) : M (option nat) :=
  d <- nameiparent path uninit_name;;
  match d with
  | (None, _) => ret None
  | (Some dp, name) =>
      ilock (Some dp);;
      o <- dirlookup fuel dp name;;
      match o with
      | Some (ip, _) =>
          iunlockput dp;;
          ilock (Some ip);;
          x <- geti ip;;
          if ((type =? T_FILE) && ((i_type x =? T_FILE) || (i_type x =? T_DEVICE)))%bool then ret (Some ip)
          else iunlockput ip;; ret None
      | None =>
          y <- geti dp;;
          o <- ialloc fuel (i_dev y) type;;
          match o with
          | None => iunlockput dp;; ret None
          | Some ip =>
              ilock (Some ip);;
              modi ip (λ x, set_i_nlink 1 (set_i_minor minor (set_i_major major x)));;
              iupdate ip;;
              x <- geti ip;;
              r <- (if type =? T_DIR then
                      r1 <- dirlink fuel ip (cstr "." ++ [0]) (i_inum x);;
                      if r1 <? 0 then ret (-1) else dirlink fuel ip (cstr ".." ++ [0]) (i_inum y)
                    else ret 0);;
              if r <? 0 then create_fail ip dp
              else
                r <- dirlink fuel dp name (i_inum x);;
                if r <? 0 then create_fail ip dp
                else
                  when (type =? T_DIR)
                    (modi dp (λ y, set_i_nlink (s16 (i_nlink y + 1)) y);;
                     iupdate dp);;
                  iunlockput dp;;
                  ret (Some ip)
          end
      end
  end.

(** [iunlockput(ip); end_op(); return -1;] *)
Definition drop_op (ip : nat) : M Z := iunlockput ip;; fail_op.

(** The inode [sys_open] opens, locked. *)
Definition open_inode (path : list Z) (omode : Z) : M (option nat) :=
  if truthy (Z.land omode O_CREATE) then create path T_FILE 0 0
  else
    o <- namei path;;
    match o with
    | None => ret None
    | Some ip =>
        ilock (Some ip);;
        x <- geti ip;;
        if ((i_type x =? T_DIR) && negb (omode =? O_RDONLY))%bool then iunlockput ip;; ret None
        else ret (Some ip)
    end.

(** The open file for an inode and a mode. *)
Definition open_file (ip : nat) (x : inode) (omode : Z) (ff : file) : file :=
  let ff := if i_type x =? T_DEVICE then set_f_major (i_major x) (set_f_type FD_DEVICE ff)
            else set_f_off 0 (set_f_type FD_INODE ff) in
  set_f_writable (b2z (truthy (Z.land omode O_WRONLY) || truthy (Z.land omode O_RDWR)))
    (set_f_readable (b2z (negb (truthy (Z.land omode O_WRONLY)))) (set_f_ip (Some ip) ff)).

Definition sys_open : M Z :=
  omode <- argint 1;;
  o <- argpath 0;;
  match o with
  | None => ret (u64 (-1))
  | Some path =>
      begin_op;;
      o <- open_inode path omode;;
      match o with
      | None => fail_op
      | Some ip =>
          x <- geti ip;;
          if ((i_type x =? T_DEVICE) && ((i_major x <? 0) || (Z.of_nat NDEV <=? i_major x)))%bool then drop_op ip
          else
            o <- filealloc;;
            match o with
            | None => drop_op ip
            | Some f =>
                fd <- fdalloc f;;
                if fd <? 0 then fileclose f;; drop_op ip
                else
                  modf f (open_file ip x omode);;
                  when (truthy (Z.land omode O_TRUNC) && (i_type x =? T_FILE))%bool (itrunc fuel ip);;
                  iunlock (Some ip);;
                  end_op;;
                  ret (u64 fd)
            end
      end
  end.

Definition sys_mkdir : M Z :=
  begin_op;;
  o <- argpath 0;;
  match o with
  | None => fail_op
  | Some path =>
      o <- create path T_DIR 0 0;;
      match o with
      | None => fail_op
      | Some ip => iunlockput ip;; end_op;; ret 0
      end
  end.

Definition sys_mknod : M Z :=
  begin_op;;
  major <- argint 1;;
  minor <- argint 2;;
  o <- argpath 0;;
  match o with
  | None => fail_op
  | Some path =>
      o <- create path T_DEVICE (s16 major) (s16 minor);;
      match o with
      | None => fail_op
      | Some ip => iunlockput ip;; end_op;; ret 0
      end
  end.

Definition sys_chdir : M Z :=
  me <- curproc;;
  begin_op;;
  o <- argpath 0;;
  match o with
  | None => fail_op
  | Some path =>
      o <- namei path;;
      match o with
      | None => fail_op
      | Some ip =>
          ilock (Some ip);;
          x <- geti ip;;
          if negb (i_type x =? T_DIR) then drop_op ip
          else
            iunlock (Some ip);;
            p <- getp me;;
            c <- unwrap (p_cwd p);;
            iput c;;
            end_op;;
            modp me (set_p_cwd (Some ip));;
            ret 0
      end
  end.

(** [for(i = 0; i < NELEM(argv) && argv[i] != 0; i++) kfree(argv[i]);] *)
Definition free_args (argv : list Z) : M unit := for_each argv kfree.

(** The loop of [sys_exec]: [None] is [goto bad]; the pages allocated are returned
    in both cases. *)
Fixpoint exec_args (k : nat) (uargv i : Z) (argv : list Z) : M (bool * list Z) :=
  match k with
  | O => ret (false, argv)
  | S k' =>
      r <- fetchaddr (u64 (uargv + 8 * i));;
      if r.1 <? 0 then ret (false, argv)
      else if r.2 =? 0 then ret (true, argv)
      else
        a <- kalloc;;
        if a =? 0 then ret (false, argv)
        else
          l <- fetchstr r.2 PGSIZE;;
          kput_bytes a l.2;;
          if l.1 <? 0 then ret (false, argv ++ [a])
          else exec_args k' uargv (i + 1) (argv ++ [a])
  end.

Definition sys_exec : M Z :=
  uargv <- argaddr 1;;
  o <- argpath 0;;
  match o with
  | None => ret (u64 (-1))
  | Some path =>
      r <- exec_args MAXARG uargv 0 [];;
      if r.1 : bool then
        n <- exec fuel uninit_name path r.2;;
        free_args r.2;;
        ret (u64 n)
      else free_args r.2;; ret (u64 (-1))
  end.

Definition sys_pipe : M Z :=
  me <- curproc;;
  fdarray <- argaddr 0;;
  r <- pipealloc;;
  match r.2 with
  | None => ret (u64 (-1))
  | Some (rf, wf) =>
      fd0 <- fdalloc rf;;
      if fd0 <? 0 then fileclose rf;; fileclose wf;; ret (u64 (-1))
      else
        fd1 <- fdalloc wf;;
        if fd1 <? 0 then set_ofile (Z.to_nat fd0) None;; fileclose rf;; fileclose wf;; ret (u64 (-1))
        else
          p <- getp me;;
          r0 <- copyout (p_pagetable p) fdarray (le_bytes 4 fd0);;
          r1 <- (if r0 <? 0 then ret (-1) else copyout (p_pagetable p) (u64 (fdarray + 4)) (le_bytes 4 fd1));;
          if ((r0 <? 0) || (r1 <? 0))%bool then
            set_ofile (Z.to_nat fd0) None;;
            set_ofile (Z.to_nat fd1) None;;
            fileclose rf;;
            fileclose wf;;
            ret (u64 (-1))
          else ret 0
  end.

(** The handlers the dispatch table calls. *)
Definition xv6_syscalls : FileSyscalls := {|
  Syscall.sys_pipe := sys_pipe; Syscall.sys_read := sys_read; Syscall.sys_exec := sys_exec;
  Syscall.sys_fstat := sys_fstat; Syscall.sys_chdir := sys_chdir; Syscall.sys_dup := sys_dup;
  Syscall.sys_open := sys_open; Syscall.sys_write := sys_write; Syscall.sys_mknod := sys_mknod;
  Syscall.sys_unlink := sys_unlink; Syscall.sys_link := sys_link; Syscall.sys_mkdir := sys_mkdir;
  Syscall.sys_close := sys_close
|}.

End sysfile.

(** ** Descriptors *)

Lemma first_fd_spec l k :
  match first_fd l k with
  | Some fd => ∃ j, fd = (k + j)%nat ∧ l !! j = Some None ∧ ∀ j', (j' < j)%nat → ∃ f, l !! j' = Some (Some f)
  | None => ∀ j, (j < length l)%nat → ∃ f, l !! j = Some (Some f)
  end.
Proof.
  revert k. induction l as [|[f|] l IH]; intros k; cbn [first_fd]; [simpl; lia| |].
  - specialize (IH (S k)). destruct (first_fd l (S k)) as [fd|].
    + destruct IH as (j & -> & Hj & Hl). exists (S j). split_and!; [lia|done|].
      intros [|j'] Hj'; [by exists f|]. apply Hl. lia.
    + intros [|j] Hj; [by exists f|]. apply IH. simpl in Hj. lia.
  - exists 0%nat. split_and!; [lia|done|lia].
Qed.

(** The running process, its trapframe and the open file a descriptor argument names. *)
Record in_syscall (me : nat) (p : proc) (tf : trapframe) (s : kstate) : Prop := {
  is_cur : k_cur s = Some me;
  is_proc : k_procs s !! me = Some p;
  is_tf : k_tfs s !! p_trapframe p = Some tf;
  is_files : length (p_ofile p) = NOFILE
}.

Definition fd_file (p : proc) (fd : Z) : option nat :=
  if ((fd <? 0) || (Z.of_nat NOFILE <=? fd))%bool then None else mjoin (p_ofile p !! Z.to_nat fd).

Lemma argint_0 me p tf s : in_syscall me p tf s → argint 0 s = Ret (s32 (tf_a0 tf)) s.
Proof.
  intros [Hc Hp Ht _]. unfold argint, argraw. kstep. rewrite Hc. cbn [rbind]. rewrite Hp. cbn [rbind].
  rewrite Ht. done.
Qed.

Lemma argfd_ok me p tf s :
  in_syscall me p tf s →
  argfd 0 s = Ret ((λ f, (Z.to_nat (s32 (tf_a0 tf)), f)) <$> fd_file p (s32 (tf_a0 tf))) s.
Proof.
  intros H. unfold argfd. erewrite bind_step by (by eapply argint_0). unfold fd_file.
  destruct (_ || _)%bool eqn:E; [done|]. bool_prop. destruct H as [Hc Hp Ht Hl]. unfold NOFILE in *.
  kstep. rewrite Hc. cbn [rbind]. rewrite Hp. cbn [rbind].
  destruct (lookup_lt_is_Some_2 (p_ofile p) (Z.to_nat (s32 (tf_a0 tf)))) as [o Ho]; [lia|]. rewrite Ho. by destruct o.
Qed.

Lemma fdalloc_ok f me p tf s :
  in_syscall me p tf s →
  fdalloc f s = match first_fd (p_ofile p) 0 with
                | Some fd => Ret (Z.of_nat fd) (set_k_procs (alter (λ p, set_p_ofile (<[fd := Some f]> (p_ofile p)) p) me (k_procs s)) s)
                | None => Ret (-1) s
                end.
Proof.
  intros [Hc Hp _ _]. unfold fdalloc. kstep. rewrite Hc. cbn [rbind]. rewrite Hp. cbn [rbind].
  by destruct (first_fd (p_ofile p) 0).
Qed.

(** [dup]: a descriptor that is out of range or not open, and a process whose
    descriptors are all in use, give -1 and change nothing; otherwise the lowest
    free descriptor becomes one more reference to the same open file, whose count
    goes up by one, and is returned. *)
Theorem sys_dup_correct me p tf s :
  in_syscall me p tf s → L_ftable ∉ k_held s →
  (∀ f ff, fd_file p (s32 (tf_a0 tf)) = Some f → k_ftable s !! f = Some ff → 1 ≤ f_ref ff < 2 ^ 31 - 1) →
  (∀ f, fd_file p (s32 (tf_a0 tf)) = Some f → is_Some (k_ftable s !! f)) →
  match fd_file p (s32 (tf_a0 tf)) with
  | None => sys_dup s = Ret (u64 (-1)) s
  | Some f =>
      (sys_dup s = Ret (u64 (-1)) s ∧ ∀ fd, (fd < NOFILE)%nat → ∃ g, p_ofile p !! fd = Some (Some g)) ∨
      ∃ fd, (fd < NOFILE)%nat ∧ p_ofile p !! fd = Some None ∧
        (∀ fd', (fd' < fd)%nat → ∃ g, p_ofile p !! fd' = Some (Some g)) ∧
        sys_dup s = Ret (Z.of_nat fd)
          (set_k_ftable (alter (λ ff, set_f_ref (f_ref ff + 1) ff) f (k_ftable s))
            (set_k_procs (alter (λ p, set_p_ofile (<[fd := Some f]> (p_ofile p)) p) me (k_procs s)) s))
  end.
Proof.
  intros H Hl Href Hsome. unfold sys_dup. erewrite bind_step by (by eapply argfd_ok).
  destruct (fd_file p _) as [f|] eqn:Ef; [|done]. simpl.
  pose proof (first_fd_spec (p_ofile p) 0) as Hfd. pose proof (fdalloc_ok f me p tf s H) as Hal.
  destruct (first_fd (p_ofile p) 0) as [fd|].
  - right. destruct Hfd as (j & -> & Hj & Hlow). simpl in Hal |- *. exists j.
    pose proof (lookup_lt_Some _ _ _ Hj) as Hlt. rewrite (is_files _ _ _ _ H) in Hlt. split_and!; try done.
    erewrite bind_step by exact Hal. rewrite (proj2 (Z.ltb_ge _ _)) by lia.
    destruct (Hsome f eq_refl) as [ff Hff]. pose proof (Href f ff eq_refl Hff) as Hr.
    erewrite bind_step by (apply (filedup_ok f _ ff); done). unfold ret. f_equal.
    + unfold u64. apply Z.mod_small. unfold NOFILE in Hlt. lia.
    + f_equal. simpl. eapply alter_at; done.
  - left. rewrite (is_files _ _ _ _ H) in Hfd. split; [|done]. erewrite bind_step by exact Hal. done.
Qed.

(** A process with descriptor 0 open on the first entry of the file table. *)
Definition dup_proc : proc := set_p_ofile (Some 0%nat :: replicate 15 None) (set_p_state RUNNING zero_proc).
Definition dup_machine : kstate :=
  set_k_cur (Some 0%nat) (set_k_procs [dup_proc] (set_k_tfs {[0 := zero_tf]}
    (set_k_ftable [set_f_ref 1 zero_file] bss))).

Lemma sys_dup_correct_witness : ∃ s', sys_dup dup_machine = Ret 1 s'.
Proof.
  pose proof (sys_dup_correct 0 dup_proc zero_tf dup_machine) as H.
  destruct H as [[_ H]|(fd & Hlt & Hfd & Hlow & H)].
  - by split.
  - apply not_elem_of_nil.
  - intros f ff Hf Hff. vm_compute in Hf. injection Hf as <-. vm_compute in Hff. injection Hff as <-. simpl. lia.
  - intros f Hf. vm_compute in Hf. injection Hf as <-. by eexists.
  - destruct (H 1%nat) as [g Hg]; [unfold NOFILE; lia|]. by vm_compute in Hg.
  - assert (fd = 1%nat) as ->; [|by eexists].
    destruct fd as [|[|fd]]; [by vm_compute in Hfd|done|]. destruct (Hlow 1%nat) as [g Hg]; [lia|]. by vm_compute in Hg.
Defined.
