(* ===== verification/FsCreate.v ===== *)
(** * Creating files: the theorem

    [create] of [Sysfile], for anything but directories ([open] with O_CREATE and
    [mknod]): the composition of [nameiparent], [dirlookup], [ialloc], [iupdate] and
    [dirlink].  What the walk to the parent does is [walks] of [FsPath]; the steps after it
    change blocks, and are followed on the inode table itself. *)

From Stdlib Require Import ZArith Lia.
From S2P Require Import Prelude Machine Kernel Boot CString Printf Kalloc Vm ProcTable Seq Sleeplock Virtio Bio Log Crash Trans File Fs FsData FsAlloc FsSpec FsWrite FsDir FsFree FsPath Sysfile.

(** ** Inodes and files *)

(** Writing one inode does not change files. *)
Lemma inode_put_data me pid bl s inum d s' :
  fs_layout s → 1 ≤ inum < sb_ninodes (k_sb s) → inode_put me pid bl s inum d s' →
  ∃ data', length data' = 1024%nat ∧ ∀ m, blk s' m = if decide (m = IBLOCK inum (k_sb s)) then Some data' else blk s m.
Proof.
  intros Hl Hin H. pose proof (ip_layout _ _ _ _ _ _ _ H) as Hl'. pose proof (fs_frame_sb _ _ (ip_frame _ _ _ _ _ _ _ H)) as E.
  destruct (fl_inode _ Hl inum Hin) as (R & _ & _). destruct (bm_block _ _ (fl_map _ Hl') (IBLOCK inum (k_sb s))) as (data' & Hd & Hlen); [by rewrite E|].
  exists data'. split; [done|]. intros m. case_decide as Em; [by subst m|]. by apply (ip_other _ _ _ _ _ _ _ H).
Qed.

Lemma inode_put_wf me pid bl s inum d s' ip :
  fs_layout s → 1 ≤ inum < sb_ninodes (k_sb s) → inode_put me pid bl s inum d s' → file_wf s ip → file_wf s' ip.
Proof.
  intros Hl Hin H Hw. destruct (inode_put_data _ _ _ _ _ _ _ Hl Hin H) as (data' & Hlen & Hb).
  eapply (iw_wf s s' inum data'); try done. apply (fs_frame_sb _ _ (ip_frame _ _ _ _ _ _ _ H)).
Qed.

Lemma inode_put_addr me pid bl s inum d s' ip bn :
  fs_layout s → 1 ≤ inum < sb_ninodes (k_sb s) → inode_put me pid bl s inum d s' → file_wf s ip →
  file_addr (blk s') ip bn = file_addr (blk s) ip bn.
Proof.
  intros Hl Hin H Hw. destruct (inode_put_data _ _ _ _ _ _ _ Hl Hin H) as (data' & Hlen & Hb). by eapply (iw_addr s s' inum data').
Qed.

Lemma dir_entry_get B B' ip k :
  0 ≤ k → (∀ x, 0 ≤ x → file_get B' ip x = file_get B ip x) → dir_entry B' ip k = dir_entry B ip k.
Proof.
  intros Hk H. unfold dir_entry, DIRENT_SIZE. f_equal. rewrite !file_bytes_get. apply list_fmap_ext. intros x j Hj%lookup_seqZ.
  apply H. lia.
Qed.

Lemma inode_put_entry me pid bl s inum d s' ip k :
  fs_layout s → 1 ≤ inum < sb_ninodes (k_sb s) → inode_put me pid bl s inum d s' → file_wf s ip → 0 ≤ k →
  dir_entry (blk s') ip k = dir_entry (blk s) ip k.
Proof.
  intros Hl Hin H Hw Hk. destruct (inode_put_data _ _ _ _ _ _ _ Hl Hin H) as (data' & Hlen & Hb).
  apply dir_entry_get; [done|]. intros x Hx. eapply (iw_get s s' inum data'); try done.
Qed.

(** A file without blocks. *)
Lemma empty_addr B ip bn : i_addrs ip = replicate 13 0 → file_addr B ip bn = None ∧ file_ind ip = None.
Proof.
  intros Ha. split; [|unfold file_ind; by rewrite Ha]. unfold file_addr. rewrite Ha. destruct (bn <? NDIRECT).
  - destruct (replicate 13 0 !! Z.to_nat bn) as [a|] eqn:E; [|done]. apply lookup_replicate_1 in E as [-> _]. done.
  - by destruct (_ <? NINDIRECT).
Qed.

Lemma empty_owns B ip n : i_addrs ip = replicate 13 0 → ¬ owns B ip n.
Proof.
  intros Ha [(bn & _ & H)|H]; [by rewrite (proj1 (empty_addr B ip bn Ha)) in H|by rewrite (proj2 (empty_addr B ip 0 Ha)) in H].
Qed.

Lemma empty_wf s ip :
  i_dev ip = ROOTDEV → i_size ip = 0 → i_addrs ip = replicate 13 0 → dinode_typed (dinode_of ip) → file_wf s ip.
Proof.
  intros Hd Hs Ha Ht. split; try done.
  - rewrite Hs. unfold MAXFILE, NINDIRECT, NDIRECT, BSIZE. change (1024 / 4) with 256. lia.
  - intros n H. by apply empty_owns in H.
  - intros bn bn' n _ _ H. by rewrite (proj1 (empty_addr _ ip bn Ha)) in H.
  - intros bn n _ H. by rewrite (proj1 (empty_addr _ ip bn Ha)) in H.
  - intros bn H0 H. rewrite Hs in H. unfold BSIZE in H. lia.
Qed.

(** ** Looking up after an entry was added *)

(** The two cases of [lookup_name]. *)
Lemma lookup_name_cases s n e :
  0 ≤ di_size (dinode_on_disk s n) / DIRENT_SIZE →
  (∃ k, 0 ≤ k < di_size (dinode_on_disk s n) / DIRENT_SIZE ∧ entry_named s n e k = true ∧
     (∀ k', 0 ≤ k' < k → entry_named s n e k' = false) ∧ lookup_name s n e = Some (de_inum (dir_entry (blk s) (inode_at s n) k))) ∨
  (∀ k, 0 ≤ k < di_size (dinode_on_disk s n) / DIRENT_SIZE → entry_named s n e k = false) ∧ lookup_name s n e = None.
Proof.
  intros HN. set (N := di_size (dinode_on_disk s n) / DIRENT_SIZE) in *.
  destruct (list_find (λ k, entry_named s n e k = true) (seqZ 0 N)) as [[i k]|] eqn:E.
  - left. exists k. pose proof E as E'. apply list_find_Some in E as (Hi & Ht & Hf). apply lookup_seqZ in Hi as [-> Hi].
    split_and!; [lia|lia|done| |unfold lookup_name; fold N; by rewrite E'].
    intros k' Hk'. apply not_true_iff_false. apply (Hf (Z.to_nat k') k'); [|lia]. apply lookup_seqZ. lia.
  - right. split; [|unfold lookup_name; fold N; by rewrite E]. apply list_find_None in E. intros k Hk.
    apply not_true_iff_false. apply (proj1 (Forall_forall _ _) E k). apply elem_of_seqZ. lia.
Qed.

(** One entry of a directory became [de]; the others, up to the old size, are as before. *)
Record entry_added (s s' : kstate) (n k : Z) (de : dirent) : Prop := {
  ea_slot : 0 ≤ k ≤ di_size (dinode_on_disk s n) / DIRENT_SIZE;
  ea_free : k < di_size (dinode_on_disk s n) / DIRENT_SIZE → de_inum (dir_entry (blk s) (inode_at s n) k) = 0;
  ea_size : di_size (dinode_on_disk s' n) / DIRENT_SIZE = Z.max (di_size (dinode_on_disk s n) / DIRENT_SIZE) (k + 1);
  ea_entry : dir_entry (blk s') (inode_at s' n) k = de;
  ea_others k' : 0 ≤ k' → k' ≠ k → dir_entry (blk s') (inode_at s' n) k' = dir_entry (blk s) (inode_at s n) k'
}.

Lemma entry_added_named s s' n k de e k' :
  entry_added s s' n k de → 0 ≤ k' → k' ≠ k → entry_named s' n e k' = entry_named s n e k'.
Proof. intros H H0 Hne. unfold entry_named. by rewrite (ea_others _ _ _ _ _ H). Qed.

Lemma entry_added_lookup s s' n k de e :
  entry_added s s' n k de → de_inum de ≠ 0 →
  if decide (c_string (de_name de) = take (Z.to_nat DIRSIZ) e)
  then lookup_name s n e = None → lookup_name s' n e = Some (de_inum de)
  else lookup_name s' n e = lookup_name s n e.
Proof.
  intros H Hnz. pose proof H as [H1 H2 H3 H4 H5].
  assert (entry_named s' n e k = bool_decide (c_string (de_name de) = take (Z.to_nat DIRSIZ) e)) as Hk.
  { unfold entry_named. rewrite H4. by rewrite (proj2 (Z.eqb_neq _ 0)). }
  destruct (lookup_name_cases s n e ltac:(lia)) as [(k0 & Hk0 & Ht & Hf & El)|[Hno El]]; rewrite El.
  - case_decide as Ec; [done|]. rewrite bool_decide_eq_false_2 in Hk by done.
    assert (k0 ≠ k) as Hne. { intros ->. unfold entry_named in Ht. rewrite H2 in Ht by lia. done. }
    rewrite (lookup_name_first s' n e k0 (di_size (dinode_on_disk s' n) / DIRENT_SIZE)); [|done|lia| |].
    + by rewrite H5 by lia.
    + by rewrite (entry_added_named _ _ _ _ _ _ _ H) by lia.
    + intros k' Hk'. destruct (decide (k' = k)) as [->|]; [done|]. rewrite (entry_added_named _ _ _ _ _ _ _ H) by lia. by apply Hf.
  - case_decide as Ec.
    + intros _. rewrite bool_decide_eq_true_2 in Hk by done.
      rewrite (lookup_name_first s' n e k (di_size (dinode_on_disk s' n) / DIRENT_SIZE)); [by rewrite H4|done|lia|done|].
      intros k' Hk'. rewrite (entry_added_named _ _ _ _ _ _ _ H) by lia. apply Hno. lia.
    + rewrite bool_decide_eq_false_2 in Hk by done.
      apply (lookup_name_none s' n e (di_size (dinode_on_disk s' n) / DIRENT_SIZE)); [done|].
      intros k' Hk'. destruct (decide (k' = k)) as [->|]; [done|]. rewrite (entry_added_named _ _ _ _ _ _ _ H) by lia. apply Hno. lia.
Qed.

(** ** The new inode *)

Definition new_dinode (type major minor : Z) : dinode := mk_dinode type major minor 1 0 (replicate 13 0).

Section create.
Context (me : nat) (pid : Z) `{D : Device} (fuel : nat) (bl : list Z) (s0 : kstate).
Hypothesis Hfuel : enough_fuel fuel.
Hypothesis Hpre : walk_pre me pid bl s0.

(** The entry of the new inode. *)
Record new_entry (inum type major minor : Z) (jp : inode) : Prop := {
  ne_dev : i_dev jp = ROOTDEV;
  ne_inum : i_inum jp = inum;
  ne_ref : i_ref jp = 1;
  ne_valid : i_valid jp = 1;
  ne_lock : i_lock jp = mk_sl 1 pid;
  ne_dinode : dinode_of jp = new_dinode type major minor
}.

(** From [s1] to [s] the inode [inum] was made, in the free entry [j] of the table. *)
Record made (s1 : kstate) (inum type major minor : Z) (j : nat) (jp : inode) (s : kstate) : Prop := {
  md_op : ∃ bl', op me pid [] bl' s ∧ (length bl' ≤ S (length bl))%nat;
  md_sb : k_sb s = k_sb s1;
  md_disk : k_disk s = k_disk s1;
  md_lgsize : lg_size (k_log s) = lg_size (k_log s1);
  md_layout : fs_layout s;
  md_table : k_itable s = <[j := jp]> (k_itable s1);
  md_new : new_entry inum type major minor jp;
  md_free : ∃ ip, k_itable s1 !! j = Some ip ∧ i_ref ip = 0 ∧ sl_locked (i_lock ip) = 0;
  md_ok : itable_ok (k_itable s);
  md_inode : dinode_on_disk s inum = new_dinode type major minor;
  md_inodes n : 1 ≤ n < sb_ninodes (k_sb s1) → n ≠ inum → dinode_on_disk s n = dinode_on_disk s1 n;
  md_used b : 0 ≤ b < sb_size (k_sb s1) → used (k_sb s1) (blk s) b = used (k_sb s1) (blk s1) b;
  md_wf ip : file_wf s1 ip → file_wf s ip;
  md_entry ip k : file_wf s1 ip → 0 ≤ k → dir_entry (blk s) ip k = dir_entry (blk s1) ip k;
  md_addr ip bn : file_wf s1 ip → file_addr (blk s) ip bn = file_addr (blk s1) ip bn;
  md_other m : m ≠ IBLOCK inum (k_sb s1) → blk s m = blk s1 m
}.

Lemma walks_layout xs o s : walks me pid bl s0 xs o s → fs_layout s.
Proof. intros H. eapply (layout_ext s0); [apply H|apply H|apply H|apply Hpre]. Qed.

Lemma walks_dinode xs o s n : walks me pid bl s0 xs o s → dinode_on_disk s n = dinode_on_disk s0 n.
Proof. intros H. apply dinode_on_disk_ext; apply H. Qed.

(** A free inode is not in the table: [iget] takes a free entry for it. *)
Lemma got_free xs o s1 j inum jp :
  walks me pid bl s0 xs o s1 → di_type (dinode_on_disk s1 inum) = 0 → got_entry s1 j inum jp →
  ∃ ip, k_itable s1 !! j = Some ip ∧ i_ref ip = 0 ∧ sl_locked (i_lock ip) = 0 ∧
    jp = set_i_valid 0 (set_i_ref 1 (set_i_inum inum (set_i_dev ROOTDEV ip))).
Proof.
  intros W H0 (_ & _ & ip & Hj & Hc). rewrite (walks_dinode _ _ _ _ W) in H0. exists ip.
  destruct (wk_entry _ _ _ _ _ _ _ W j ip Hj) as [He Hl].
  destruct (is_inode ROOTDEV inum ip) eqn:E.
  - exfalso. unfold is_inode in E. bool_prop. destruct (He ltac:(lia)) as (_ & [_ Hty] & _). congruence.
  - destruct Hc as [Hr ->]. split_and!; try done. destruct (decide _); [|done]. destruct Hl as (_ & Hr' & _). lia.
Qed.

Lemma make_inode {A} (K : M A) Q xs o s1 j inum jp type major minor s2 :
  walks me pid bl s0 xs o s1 → room bl s0 3 → 0 < type < 32768 → -32768 ≤ major < 32768 → -32768 ≤ minor < 32768 →
  1 ≤ inum < sb_ninodes (k_sb s1) → di_type (dinode_on_disk s1 inum) = 0 → got_entry s1 j inum jp →
  inode_put me pid bl s1 inum (fresh_dinode type) s2 →
  (∀ s jp', made s1 inum type major minor j jp' s → wpc (disk_env me) (λ d, d = k_disk s0) (K s) Q) →
  wpc (disk_env me) (λ d, d = k_disk s0)
    ((ilock fuel (Some j);; modi j (λ x, set_i_nlink 1 (set_i_minor minor (set_i_major major x)));; iupdate fuel j;; K)
       (set_k_itable (<[j := jp]> (k_itable s1)) s2)) Q.
Proof.
  intros W [Hr1 Hr2] Hty Hma Hmi Hin H0 Hgot Hput HK. pose proof (walks_layout _ _ _ W) as Hl1.
  destruct (got_free _ _ _ _ _ _ W H0 Hgot) as (ip & Hj & Href0 & Hlk & Ejp). destruct Hgot as (_ & Hok & _).
  assert (i_dev jp = ROOTDEV ∧ i_inum jp = inum ∧ i_ref jp = 1 ∧ i_valid jp = 0 ∧ sl_locked (i_lock jp) = 0) as (J1 & J2 & J3 & J4 & J5)
    by (by rewrite Ejp).
  pose proof (lookup_lt_Some _ _ _ Hj) as Hlt. pose proof (wk_log _ _ _ _ _ _ _ W) as Elog. pose proof (wk_disk _ _ _ _ _ _ _ W) as Edisk.
  pose proof Hput as [P1 P2 P3 P4 P5 P6 P7 P8 P9]. pose proof (fs_frame_sb _ _ P2) as Esb.
  set (t2 := <[j := jp]> (k_itable s1)) in *. set (s2' := set_k_itable t2 s2).
  assert (k_itable s2' !! j = Some jp) as Hj2 by (by apply list_lookup_insert_eq).
  assert (fs_layout s2') as Hl2 by (by apply layout_table).
  pose proof (logs_length bl (IBLOCK inum (k_sb s1))) as Hlog.
  destruct (layout_inode_block s2' inum Hl2) as (data & Hib); [change (k_sb s2') with (k_sb s2); by rewrite Esb|].
  assert (get_dinode data (dinode_off inum) = fresh_dinode type) as Ed.
  { pose proof (ib_blk _ _ _ Hib) as Eb. change (blk s2 (IBLOCK inum (k_sb s2)) = Some data) in Eb.
    rewrite <- P7. unfold dinode_on_disk. by rewrite Eb. }
  apply wpc_bind. eapply wpc_mono; [eapply (ilock_ok me pid fuel Hfuel _ s2' j jp data (λ d, d = k_disk s0))|done|].
  { apply op_itable. exact P1. } { done. } { done. } { lia. } { done. } { by rewrite J2. }
  { lia. } { simpl. congruence. } { intros _. rewrite J2, Ed. simpl. lia. }
  cbn beta. rewrite J2, Ed, J4. cbn iota. intros _ s3 (O3 & F3 & D3 & L3 & V3 & T3).
  set (jp1 := set_i_lock (mk_sl 1 pid) _) in T3. cbn [k_itable set_k_itable s2'] in T3.
  assert (k_itable s3 !! j = Some jp1) as Hj3. { rewrite T3. apply list_lookup_insert_eq. unfold t2. by rewrite length_insert. }
  eapply wpc_step; [exact (modi_run j s3 jp1 _ Hj3)|]. cbn beta.
  set (jp2 := set_i_nlink 1 (set_i_minor minor (set_i_major major jp1))). set (s4 := set_k_itable _ s3).
  assert (k_sb s3 = k_sb s1) as Esb3.
  { unfold ifs_frame in F3. apply fs_frame_sb in F3. rewrite F3. exact Esb. }
  assert (fs_layout s4) as Hl4. { apply layout_table. apply (layout_ext s2'); [|done|done|done]. by rewrite Esb3. }
  assert (new_entry inum type major minor jp2) as Hnew. { by split. }
  pose proof (ne_dinode _ _ _ _ _ Hnew) as Edin. pose proof (ne_inum _ _ _ _ _ Hnew) as Einum.
  assert (dinode_typed (dinode_of jp2)) as Htyped.
  { rewrite Edin. split; simpl; try lia. repeat constructor; lia. }
  assert (k_disk s0 = k_disk s4) as Edisk4 by (simpl; rewrite D3; simpl; congruence).
  apply wpc_bind. eapply wpc_mono; [eapply (iupdate_put me pid fuel j Hfuel _ s4 jp2)| |].
  { apply op_itable. exact O3. } { apply list_lookup_insert_eq. by eapply lookup_lt_Some. } { apply Hnew. } { done. }
  { rewrite Einum. change (k_sb s4) with (k_sb s3). by rewrite Esb3. } { done. }
  { split; [lia|]. change (k_log s4) with (k_log s3). rewrite L3. change (k_log s2') with (k_log s2). rewrite P4, Elog. lia. }
  { cbn beta. intros x ->. by rewrite Edisk4. }
  intros u s5 Hput5. cbn beta in Hput5. rewrite Einum, Edin in Hput5. pose proof Hput5 as [Q1 Q2 Q3 Q4 Q5 Q6 Q7 Q8 Q9].
  change (k_sb s4) with (k_sb s3) in *. rewrite Esb3 in *. apply (HK s5 jp2).
  assert (k_itable s5 = <[j := jp2]> (k_itable s1)) as T5.
  { rewrite (itable_same _ _ Q2). unfold s4. cbn [k_itable set_k_itable]. rewrite T3. unfold t2. by rewrite !list_insert_insert_eq. }
  assert (∀ m, blk s4 m = blk s2 m) as V4 by (intros m; exact (V3 m)).
  assert (∀ n, dinode_on_disk s4 n = dinode_on_disk s2 n) as Ed4.
  { intros n. unfold dinode_on_disk. change (k_sb s4) with (k_sb s3). by rewrite Esb3, Esb, V4. }
  split; try done.
  - eexists. split; [exact Q1|]. rewrite logs_absorb by apply logs_in. lia.
  - rewrite (fs_frame_sb _ _ Q2). exact Esb3.
  - rewrite Q3. simpl. rewrite D3. exact P3.
  - rewrite Q4. change (k_log s4) with (k_log s3). rewrite L3. exact P4.
  - by exists ip.
  - rewrite T5. replace (<[j := jp2]> (k_itable s1)) with (<[j := jp2]> t2) by (unfold t2; by rewrite list_insert_insert_eq).
    apply (itable_ok_lock _ _ jp); try done. lia.
  - intros n Hn Hne. rewrite Q8, Ed4 by done. by apply P8.
  - intros b Hb. rewrite Q6 by done. rewrite (used_ext _ (blk s2)) by done. by apply P6.
  - intros fp Hf. eapply (inode_put_wf _ _ _ s4 inum); [done|change (k_sb s4) with (k_sb s3); by rewrite Esb3|exact Hput5|].
    apply (wf_ext s2); [change (k_sb s3 = k_sb s2); by rewrite Esb3, Esb|done|].
    exact (inode_put_wf _ _ _ s1 inum _ s2 fp Hl1 Hin Hput Hf).
  - intros fp k Hf Hk. pose proof (inode_put_wf _ _ _ s1 inum _ s2 fp Hl1 Hin Hput Hf) as Hf2. cbn beta in Hf2.
    etrans; [eapply (inode_put_entry _ _ _ s4 inum); [done|change (k_sb s4) with (k_sb s3); by rewrite Esb3|exact Hput5| |done]|].
    { apply (wf_ext s2); [change (k_sb s3 = k_sb s2); by rewrite Esb3, Esb|done|done]. }
    rewrite (dir_entry_ext (blk s2)) by done. by eapply (inode_put_entry _ _ _ s1 inum).
  - intros fp bn Hf. pose proof (inode_put_wf _ _ _ s1 inum _ s2 fp Hl1 Hin Hput Hf) as Hf2. cbn beta in Hf2.
    etrans; [eapply (inode_put_addr _ _ _ s4 inum); [done|change (k_sb s4) with (k_sb s3); by rewrite Esb3|exact Hput5|]|].
    { apply (wf_ext s2); [change (k_sb s3 = k_sb s2); by rewrite Esb3, Esb|done|done]. }
    rewrite (file_addr_ext (blk s2)) by done. by eapply (inode_put_addr _ _ _ s1 inum).
  - intros m Hm. rewrite Q9, V4 by done. by apply P9.
Qed.

(** ** The parent directory *)

Lemma parent_entry xs i s1 d :
  walks me pid bl s0 xs (Some i) s1 → (length xs ≤ 2)%nat → handle s1 i d →
  ∃ dp, k_itable s1 !! i = Some dp ∧ i_inum dp = d ∧ i_dev dp = ROOTDEV ∧ i_lock dp = mk_sl 1 pid ∧ 0 < i_ref dp < 2 ^ 31 - 1 ∧
    dinode_of dp = dinode_on_disk s0 d.
Proof.
  intros W Hx (dp & Hi & Hd & Hr). exists dp. destruct (wk_entry _ _ _ _ _ _ _ W i dp Hi) as [He Hl].
  rewrite decide_True in Hl by done. destruct Hl as (L1 & _ & Hv). destruct (He Hr) as (Hdev & _ & Hval).
  pose proof (walks_max _ _ _ _ Hpre _ _ _ _ _ W Hx Hi). rewrite <- Hd. split_and!; try done; [lia|by apply Hval].
Qed.

Lemma wf_same s ip ip' : i_dev ip' = i_dev ip → dinode_of ip' = dinode_of ip → file_wf s ip → file_wf s ip'.
Proof.
  intros Ed E [H1 H2 H3 H4 H5 H6 H7].
  assert (i_size ip' = i_size ip ∧ i_addrs ip' = i_addrs ip) as [Es Ea].
  { split; [exact (f_equal di_size E)|exact (f_equal di_addrs E)]. }
  assert (∀ B bn, file_addr B ip' bn = file_addr B ip bn) as Hf by (intros; by apply file_addr_addrs).
  assert (file_ind ip' = file_ind ip) as Hi by (unfold file_ind; by rewrite Ea).
  split; rewrite ?Ed, ?Es, ?E; try done.
  - intros n Ho. apply H4. unfold owns in *. rewrite Hi in Ho. by setoid_rewrite Hf in Ho.
  - intros bn bn' n. rewrite !Hf. apply H5.
  - intros bn n. rewrite Hf, Hi. apply H6.
  - intros bn. rewrite Hf. apply H7.
Qed.

(** The table has a free entry left after the new inode got one. *)
Lemma made_free xs i s1 inum type major minor j jp s :
  walks me pid bl s0 xs (Some i) s1 → (length xs ≤ 1)%nat → (length (in_table (k_itable s0)) + 3 ≤ length (k_itable s0))%nat →
  made s1 inum type major minor j jp s → itable_free s.
Proof.
  intros W Hx Hroom Hm. pose proof Hm as [(bl' & Hop & _) _ _ _ _ Ht Hnew (ip & Hj & Hr0 & _) Hok _ _ _ _ _ _ _].
  pose proof (lookup_lt_Some _ _ _ Hj) as Hlt. pose proof (walks_device _ _ _ _ _ _ _ W) as Hdev.
  assert (∀ k kp, k_itable s !! k = Some kp → k = j ∧ kp = jp ∨ k_itable s1 !! k = Some kp) as Hcases.
  { intros k kp Hk. rewrite Ht in Hk. destruct (decide (k = j)) as [->|Hne].
    - rewrite list_lookup_insert_eq in Hk by done. injection Hk as <-. by left.
    - rewrite list_lookup_insert_ne in Hk by done. by right. }
  unfold itable_free. split_and!.
  - rewrite (th_held _ _ _ (op_thread _ _ _ _ _ Hop)). apply not_elem_of_nil.
  - done.
  - intros k kp [[-> ->]|Hk]%Hcases; [rewrite (ne_ref _ _ _ _ _ Hnew); lia|].
    apply (walks_max _ _ _ _ Hpre _ _ _ k kp W); [lia|done].
  - apply table_free. rewrite Ht, length_insert, <- Ht, (wk_len _ _ _ _ _ _ _ W).
    assert (in_table (k_itable s) ⊆+ in_table (k_itable s0) ++ inum :: xs) as Hsub.
    { apply NoDup_submseteq.
      - apply in_table_nodup; [done|]. intros k kp [[-> ->]|Hk]%Hcases Hr; [apply Hnew|by apply (Hdev k)].
      - intros n (k & kp & Hk & Hr & Hn)%in_table_spec. destruct (Hcases _ _ Hk) as [[-> ->]|Hk1].
        + rewrite (ne_inum _ _ _ _ _ Hnew) in Hn. set_solver.
        + assert (n ∈ in_table (k_itable s0) ++ xs); [|set_solver]. apply (walks_in_table _ _ _ _ Hpre xs (Some i) s1); [done|].
          apply in_table_spec. eauto. }
    apply submseteq_length in Hsub. rewrite length_app in Hsub. simpl in Hsub. lia.
Qed.

(** [iunlockput] of a reference that is not the last one to an inode without links. *)
Lemma iunlockput_run s i ip :
  thread me pid s → k_itable s !! i = Some ip → i_lock ip = mk_sl 1 pid → 0 < i_ref ip < 2 ^ 31 → last_ref ip = false →
  ∃ s', iunlockput fuel i s = Ret tt s' ∧
    k_itable s' = <[i := set_i_ref (i_ref ip - 1) (set_i_lock (mk_sl 0 0) ip)]> (k_itable s) ∧
    (∀ L b, op me pid L b s → op me pid L b s') ∧ k_sb s' = k_sb s ∧ k_disk s' = k_disk s ∧ k_log s' = k_log s ∧
    ∀ m, blk s' m = blk s m.
Proof.
  intros Hth Hi Hl Hr Hlast. pose proof (lookup_lt_Some _ _ _ Hi) as Hlt. set (ip1 := set_i_lock (mk_sl 0 0) ip).
  assert (k_itable (unlocked me i ip s) !! i = Some ip1) as Hi1 by (by apply list_lookup_insert_eq).
  eexists. split.
  { unfold iunlockput. rewrite (bind_step _ _ _ _ _ (iunlock_run _ _ _ _ _ Hth Hi Hl (proj1 Hr))).
    apply (iput_keeps fuel _ i ip1); [|done|exact Hlast].
    simpl. rewrite (th_held _ _ _ Hth). apply not_elem_of_nil. }
  cbn [i_ref set_i_lock ip1]. rewrite s32_small by lia. split_and!; try done.
  - cbn [k_itable set_k_itable]. unfold unlocked. cbn [k_itable set_k_itable set_k_procs]. by rewrite list_insert_insert_eq.
  - intros L b Hop. apply op_itable. exact (op_wake me pid L b _ _ (op_itable me pid L b _ s Hop)).
Qed.

(** ** The new entry *)

Lemma c_string_strncpy name e :
  Forall (λ c, 0 ≤ c < 256) name → c_string name = take (Z.to_nat DIRSIZ) e →
  c_string (strncpy_name name) = take (Z.to_nat DIRSIZ) e.
Proof.
  intros Hb He. rewrite strncpy_name_spec, c_string_firstn, c_string_pad by (done || apply c_string_no0).
  by rewrite He, take_take, Nat.min_id.
Qed.

(** A directory that a file can be created in. *)
Record parent_ok (d : Z) : Prop := {
  po_wf : file_wf s0 (inode_at s0 d);
  po_max : di_size (dinode_on_disk s0 d) + DIRENT_SIZE ≤ MAXFILE * BSIZE;
  po_type : di_type (dinode_on_disk s0 d) = T_DIR
}.

Section link.
Context (i : nat) (s1 : kstate) (d : Z) (inum type major minor : Z) (j : nat) (jp : inode) (s : kstate) (name e : list Z).
Hypothesis W : walks me pid bl s0 [d] (Some i) s1.
Hypothesis Hh : handle s1 i d.
Hypothesis Hp : parent_ok d.
Hypothesis Hm : made s1 inum type major minor j jp s.
Hypothesis Hin : 1 ≤ inum < sb_ninodes (k_sb s0).
Hypothesis H0 : di_type (dinode_on_disk s0 inum) = 0.
Hypothesis Hu16 : sb_ninodes (k_sb s0) ≤ 65536.
Hypothesis Hbl : room bl s0 13.
Hypothesis Htab : (length (in_table (k_itable s0)) + 3 ≤ length (k_itable s0))%nat.
Hypothesis Hnb : Forall (λ c, 0 ≤ c < 256) name.
Hypothesis Hnl : length name = 14%nat.
Hypothesis He : c_string name = take (Z.to_nat DIRSIZ) e.
Hypothesis Hno : lookup_name s0 d e = None.

Lemma link_parent : ∃ dp, k_itable s1 !! i = Some dp ∧ i_inum dp = d ∧ i_dev dp = ROOTDEV ∧ i_lock dp = mk_sl 1 pid ∧
  0 < i_ref dp < 2 ^ 31 - 1 ∧ dinode_of dp = dinode_on_disk s0 d ∧ i ≠ j ∧ k_itable s !! i = Some dp ∧ d ≠ inum ∧ live s0 d.
Proof.
  destruct (parent_entry _ _ _ _ W ltac:(simpl; lia) Hh) as (dp & G1 & G2 & G3 & G4 & G5 & G6). exists dp.
  destruct (md_free _ _ _ _ _ _ _ _ Hm) as (ip & Hj & Hr0 & _).
  assert (i ≠ j) as Hij. { intros ->. rewrite G1 in Hj. injection Hj as <-. lia. }
  pose proof (walks_handle _ _ _ _ _ _ _ _ _ W Hh) as Hlive.
  split_and!; try done; [lia|lia| |].
  - rewrite (md_table _ _ _ _ _ _ _ _ Hm). by rewrite list_lookup_insert_ne.
  - intros ->. destruct Hlive as [_ Ht]. congruence.
Qed.

(** The entries of the parent before the new one. *)
Lemma link_entries dp k :
  i_dev dp = ROOTDEV → dinode_of dp = dinode_on_disk s0 d → 0 ≤ k →
  file_wf s1 dp ∧ dir_entry (blk s) dp k = dir_entry (blk s0) (inode_at s0 d) k.
Proof.
  intros Hdev Hd Hk.
  assert (file_wf s1 dp) as Hw.
  { apply (wf_ext s0); [apply W|apply W|]. apply (wf_same s0 (inode_at s0 d)); [done| |apply Hp]. rewrite Hd. unfold inode_at. by rewrite dinode_of_load. }
  split; [done|]. rewrite (md_entry _ _ _ _ _ _ _ _ Hm) by done. rewrite (dir_entry_ext (blk s0)) by apply W.
  apply dir_entry_addrs. exact (f_equal di_addrs Hd).
Qed.

Lemma link_new dp k :
  i_dev dp = ROOTDEV → dinode_of dp = dinode_on_disk s0 d → live s0 d → 0 ≤ k < di_size (dinode_on_disk s0 d) / DIRENT_SIZE →
  entry_is (blk s) dp name k = false.
Proof.
  intros Hdev Hd Hlive Hk. pose proof (pw_tree _ _ _ _ Hpre d Hlive (po_type _ Hp)) as Hdir.
  assert (entry_is (blk s) dp name k = entry_is (blk s0) (inode_at s0 d) name k) as ->.
  { unfold entry_is. by rewrite (proj2 (link_entries dp k Hdev Hd ltac:(lia))). }
  rewrite (entry_is_named s0 (inode_at s0 d) d name e) by done.
  destruct (lookup_name_cases s0 d e ltac:(lia)) as [(k0 & _ & _ & _ & El)|[Hf _]]; [congruence|by apply Hf].
Qed.

Lemma link_pre dp :
  k_itable s !! i = Some dp → i_dev dp = ROOTDEV → i_inum dp = d → dinode_of dp = dinode_on_disk s0 d → live s0 d →
  ∃ bl', (length bl' ≤ S (length bl))%nat ∧ dir_pre me pid i bl' s dp.
Proof.
  intros Hi Hdev Hd Hdin [Hlive Hnz]. destruct (md_op _ _ _ _ _ _ _ _ Hm) as (bl' & Hop & Hlen). exists bl'. split; [done|].
  pose proof (pw_tree _ _ _ _ Hpre d (conj Hlive Hnz) (po_type _ Hp)) as Hdir.
  destruct Hbl as [R1 R2]. assert (i_size dp = di_size (dinode_on_disk s0 d)) as Es by (exact (f_equal di_size Hdin)).
  split; try done.
  - apply Hm.
  - apply (md_wf _ _ _ _ _ _ _ _ Hm). by apply (link_entries dp 0).
  - rewrite (md_sb _ _ _ _ _ _ _ _ Hm), (wk_sb _ _ _ _ _ _ _ W), Hd. done.
  - rewrite (f_equal di_type Hdin : i_type dp = _). apply Hp.
  - rewrite Es. apply Hdir.
  - rewrite Es. apply Hp.
  - by eapply made_free.
  - split; [lia|]. rewrite (md_lgsize _ _ _ _ _ _ _ _ Hm), (wk_log _ _ _ _ _ _ _ W). lia.
Qed.

Lemma link_ok :
  wpc (disk_env me) (λ x, x = k_disk s0) (dirlink fuel i name inum s) (λ r s', ∃ bl' dp,
    k_itable s !! i = Some dp ∧ (length bl' ≤ S (length bl))%nat ∧
    (r = 0 ∧ (∃ k dp', linked me pid i bl' s dp name inum k dp' s') ∨
     r = -1 ∧ (∃ dp', dir_changed me pid i bl' s dp dp' s') ∧ ∀ b, 0 ≤ b < sb_size (k_sb s) → used (k_sb s) (blk s') b = true)).
Proof.
  destruct link_parent as (dp & G1 & G2 & G3 & G4 & G5 & G6 & G7 & G8 & G9 & G10).
  destruct (link_pre dp G8 G3 G2 G6 G10) as (bl' & Hlen & Hdp).
  assert (k_disk s0 = k_disk s) as -> by (by rewrite (md_disk _ _ _ _ _ _ _ _ Hm), (wk_disk _ _ _ _ _ _ _ W)).
  eapply wpc_mono; [apply (dirlink_ok me pid fuel i Hfuel bl' s dp name inum Hdp Hnb); [lia|lia]|done|].
  intros r s' Hpost. exists bl', dp. split; [done|]. split; [done|].
  destruct Hpost as [(-> & _ & k & dp' & Hlk)|[(-> & (k & Hk & His) & _)|(-> & Hch & Hu)]]; [left; eauto| |right; eauto].
  rewrite link_new in His; [done|done|done|done|]. by rewrite (f_equal di_size G6 : i_size dp = _) in Hk.
Qed.

End link.

(** ** What [create] did *)

(** The new file: the free inode [inum] became an empty file with one link, the name [e] of
    the directory [d] means it, every other name there means what it meant, and no other inode
    and no block of another file changed. *)
Record created (d : Z) (e : list Z) (type major minor inum : Z) (j : nat) (s' : kstate) : Prop := {
  cr_op : ∃ bl', op me pid [] bl' s';
  cr_disk : k_disk s' = k_disk s0;
  cr_layout : fs_layout s';
  cr_entry : ∃ jp, k_itable s' !! j = Some jp ∧ new_entry inum type major minor jp;
  cr_refs n : irefs (k_itable s') n = irefs (k_itable s0) n + occ n [inum];
  cr_was_free : 1 ≤ inum < sb_ninodes (k_sb s0) ∧ di_type (dinode_on_disk s0 inum) = 0;
  cr_inode : dinode_on_disk s' inum = new_dinode type major minor;
  cr_found : lookup_name s' d e = Some inum;
  cr_names e' : take (Z.to_nat DIRSIZ) e' ≠ take (Z.to_nat DIRSIZ) e → lookup_name s' d e' = lookup_name s0 d e';
  cr_parent : di_type (dinode_on_disk s' d) = T_DIR ∧ di_nlink (dinode_on_disk s' d) = di_nlink (dinode_on_disk s0 d);
  cr_inodes n : 1 ≤ n < sb_ninodes (k_sb s0) → n ≠ inum → n ≠ d → dinode_on_disk s' n = dinode_on_disk s0 n;
  cr_blocks b : 0 ≤ b < sb_size (k_sb s0) → used (k_sb s0) (blk s0) b = true → b ≠ BBLOCK 0 (k_sb s0) →
    b ≠ IBLOCK d (k_sb s0) → b ≠ IBLOCK inum (k_sb s0) → ¬ owns (blk s0) (inode_at s0 d) b → blk s' b = blk s0 b
}.

(** The disk is full: the inode is free again, nothing refers to it, and the references are
    those before the call. *)
Record not_created (s' : kstate) : Prop := {
  nc_op : ∃ bl', op me pid [] bl' s';
  nc_disk : k_disk s' = k_disk s0;
  nc_layout : fs_layout s';
  nc_refs n : irefs (k_itable s') n = irefs (k_itable s0) n;
  nc_free n : 1 ≤ n < sb_ninodes (k_sb s0) → di_type (dinode_on_disk s0 n) = 0 → di_type (dinode_on_disk s' n) = 0;
  nc_full b : 0 ≤ b < sb_size (k_sb s0) → used (k_sb s0) (blk s') b = true
}.

Section finish.
Context (i : nat) (s1 : kstate) (d : Z) (inum type major minor : Z) (j : nat) (jp : inode) (s : kstate) (name e : list Z).
Hypothesis W : walks me pid bl s0 [d] (Some i) s1.
Hypothesis Hh : handle s1 i d.
Hypothesis Hp : parent_ok d.
Hypothesis Hm : made s1 inum type major minor j jp s.
Hypothesis Hin : 1 ≤ inum < sb_ninodes (k_sb s0).
Hypothesis H0 : di_type (dinode_on_disk s0 inum) = 0.
Hypothesis Hk : kept s0 d.

Lemma owns_same B ip ip' b : i_addrs ip' = i_addrs ip → owns B ip' b → owns B ip b.
Proof. intros E. unfold owns, file_ind. rewrite E. by setoid_rewrite (file_addr_addrs B ip ip' _ E). Qed.

(** The references when the new inode has its entry and the parent still has its. *)
Lemma refs_made t dp dp' n :
  k_itable s1 !! i = Some dp → i ≠ j → (∀ n, weight n dp' = weight n dp) → t = <[i := dp']> (k_itable s) →
  irefs t n = irefs (k_itable s0) n + occ n [d; inum].
Proof.
  intros Hi Hne Hw ->. pose proof Hm as [_ _ _ _ _ Ht Hnew (ip & Hj & Hr0 & _) _ _ _ _ _ _ _ _].
  rewrite Ht, (irefs_insert _ i dp) by (by rewrite list_lookup_insert_ne). rewrite Hw, (irefs_insert _ j ip) by done.
  rewrite (wk_refs _ _ _ _ _ _ _ W). destruct Hnew as [N1 N2 N3 _ _ _]. unfold weight. rewrite Hr0, N1, N2, N3. simpl.
  destruct (Z.eqb_spec inum n) as [->|Hn].
  - rewrite (bool_decide_eq_true_2 (ROOTDEV = ROOTDEV ∧ n = n)) by done. case_bool_decide; lia.
  - rewrite (bool_decide_eq_false_2 (ROOTDEV = ROOTDEV ∧ inum = n)) by naive_solver. case_bool_decide; lia.
Qed.

Lemma weight_dec dp n :
  i_dev dp = ROOTDEV → i_inum dp = d → weight n (set_i_ref (i_ref dp - 1) (set_i_lock (mk_sl 0 0) dp)) = weight n dp - occ n [d].
Proof.
  intros E1 E2. unfold weight. cbn [i_dev i_inum i_ref set_i_ref set_i_lock]. rewrite E1, E2. simpl. destruct (Z.eqb_spec d n) as [->|Hn].
  - rewrite bool_decide_eq_true_2 by done. lia.
  - rewrite bool_decide_eq_false_2 by naive_solver. lia.
Qed.

(** Giving the parent back. *)
Lemma put_parent bl' dp dp' s6 :
  k_itable s1 !! i = Some dp → i_dev dp = ROOTDEV → i_inum dp = d → i_lock dp = mk_sl 1 pid → 0 < i_ref dp < 2 ^ 31 - 1 →
  dp' = set_i_addrs (i_addrs dp') (set_i_size (i_size dp') dp) → op me pid [] bl' s6 → k_itable s6 !! i = Some dp' →
  ∃ s7, iunlockput fuel i s6 = Ret tt s7 ∧ op me pid [] bl' s7 ∧ k_sb s7 = k_sb s6 ∧ k_disk s7 = k_disk s6 ∧
    (∀ m, blk s7 m = blk s6 m) ∧ (∀ n, irefs (k_itable s7) n = irefs (k_itable s6) n - occ n [d]) ∧
    ∀ x, x ≠ i → k_itable s7 !! x = k_itable s6 !! x.
Proof.
  intros Hi Hdev Hd Hl Hr Edp Hop Hi6.
  assert (i_dev dp' = i_dev dp ∧ i_inum dp' = i_inum dp ∧ i_ref dp' = i_ref dp ∧ i_lock dp' = i_lock dp ∧ last_ref dp' = last_ref dp)
    as (E1 & E2 & E3 & E4 & E5) by (by rewrite Edp).
  pose proof (walks_not_last me pid bl s0 [] (Some i) s1 i d dp W Hi Hd ltac:(lia) Hk) as Hlast.
  destruct (iunlockput_run s6 i dp') as (s7 & Hrun & Ht & Hop7 & Hsb & Hdk & _ & Hv); [by eapply op_thread|done|congruence|lia|congruence|].
  exists s7. split_and!; try done; [by apply Hop7| |].
  - intros n. rewrite Ht, (irefs_insert _ i dp') by done. rewrite weight_dec by congruence. lia.
  - intros x Hx. rewrite Ht. by rewrite list_lookup_insert_ne.
Qed.

(** The blocks of the parent are those it had. *)
Lemma parent_owns dp b :
  i_dev dp = ROOTDEV → dinode_of dp = dinode_on_disk s0 d → owns (blk s) dp b → owns (blk s0) (inode_at s0 d) b.
Proof.
  intros Hdev Hd Ho. destruct (link_entries i s1 d inum type major minor j jp s W Hp Hm dp 0 Hdev Hd ltac:(lia)) as [Hw _].
  apply (owns_same _ _ dp); [exact (f_equal di_addrs Hd)|]. rewrite <- (owns_ext _ (blk s1)) by apply W.
  unfold owns in *. by setoid_rewrite (md_addr _ _ _ _ _ _ _ _ Hm dp _ Hw) in Ho.
Qed.

Lemma entry_added_ok bl' dp k dp' s6 s7 :
  i_dev dp = ROOTDEV → i_inum dp = d → dinode_of dp = dinode_on_disk s0 d → live s0 d →
  linked me pid i bl' s dp name inum k dp' s6 → k_sb s7 = k_sb s6 → (∀ m, blk s7 m = blk s6 m) →
  entry_added s0 s7 d k (mk_dirent inum (strncpy_name name)).
Proof.
  intros Hdev Hd Hdin Hlive [Hch L1 L2 L3 L4 L5 L6 L7] Hsb Hv.
  assert (∀ k, 0 ≤ k → dir_entry (blk s) dp k = dir_entry (blk s0) (inode_at s0 d) k) as He
    by (intros x Hx; by apply (link_entries i s1 d inum type major minor j jp s W Hp Hm dp x)).
  assert (dinode_on_disk s7 d = dinode_of dp') as Ed7.
  { rewrite (dinode_on_disk_ext s6) by done. rewrite <- Hd. apply (dc_inode _ _ _ _ _ _ _ _ Hch). }
  assert (i_size dp = di_size (dinode_on_disk s0 d)) as Es by (exact (f_equal di_size Hdin)). rewrite Es in *.
  assert (∀ x, dir_entry (blk s7) (inode_at s7 d) x = dir_entry (blk s6) dp' x) as H7.
  { intros x. rewrite (dir_entry_ext (blk s6)) by done. apply dir_entry_addrs. unfold inode_at. by rewrite Ed7. }
  pose proof (do_mod _ _ (pw_tree _ _ _ _ Hpre d Hlive (po_type _ Hp))) as Hmod. unfold DIRENT_SIZE in *.
  pose proof (Z.div_mod (di_size (dinode_on_disk s0 d)) 16 ltac:(lia)) as Hdm.
  split; unfold DIRENT_SIZE.
  - done.
  - intros Hlt. rewrite <- He by lia. by apply L3.
  - rewrite Ed7. change (di_size (dinode_of dp')) with (i_size dp'). rewrite L4.
    set (q := di_size (dinode_on_disk s0 d) / 16) in *. replace (Z.max (di_size (dinode_on_disk s0 d)) ((k + 1) * 16)) with (Z.max q (k + 1) * 16) by lia.
    by rewrite Z.div_mul by lia.
  - by rewrite H7.
  - intros k' Hk' Hne. by rewrite H7, L7, He.
Qed.

Lemma create_done bl' dp k dp' s6 :
  k_itable s1 !! i = Some dp → k_itable s !! i = Some dp → i_dev dp = ROOTDEV → i_inum dp = d → i_lock dp = mk_sl 1 pid →
  0 < i_ref dp < 2 ^ 31 - 1 → dinode_of dp = dinode_on_disk s0 d → i ≠ j → d ≠ inum → live s0 d →
  Forall (λ c, 0 ≤ c < 256) name → c_string name = take (Z.to_nat DIRSIZ) e → lookup_name s0 d e = None →
  linked me pid i bl' s dp name inum k dp' s6 →
  ∃ s7, iunlockput fuel i s6 = Ret tt s7 ∧ created d e type major minor inum j s7.
Proof.
  intros Hi Hi5 Hdev Hd Hl Hr Hdin Hij Hdi Hlive Hnb He Hno Hlk.
  pose proof (lk_changed _ _ _ _ _ _ _ _ _ _ _ Hlk) as [(bl6 & Hop6 & _) _ C3 _ C5 C6 _ C8 C9 C10 _ C12].
  pose proof (md_sb _ _ _ _ _ _ _ _ Hm) as Esb. rewrite (wk_sb _ _ _ _ _ _ _ W) in Esb.
  pose proof (wframe_sb _ _ (dc_frame _ _ _ _ _ _ _ _ (lk_changed _ _ _ _ _ _ _ _ _ _ _ Hlk))) as Esb6. rewrite Esb in Esb6.
  destruct (put_parent bl6 dp dp' s6 Hi Hdev Hd Hl Hr C8 Hop6) as (s7 & Hrun & Hop7 & Hsb7 & Hdk7 & Hv7 & Hrf & Hoth).
  { rewrite C5. apply list_lookup_insert_eq. by eapply lookup_lt_Some. }
  exists s7. split; [done|].
  assert (∀ n, dinode_on_disk s7 n = dinode_on_disk s6 n) as Ed7 by (intros n; by apply dinode_on_disk_ext).
  assert (∀ n, 1 ≤ n < sb_ninodes (k_sb s0) → n ≠ inum → dinode_on_disk s n = dinode_on_disk s0 n) as Ed5.
  { intros n Hn Hne. rewrite (md_inodes _ _ _ _ _ _ _ _ Hm) by (by rewrite ?(wk_sb _ _ _ _ _ _ _ W)). by eapply walks_dinode. }
  pose proof (entry_added_ok bl' dp k dp' s6 s7 Hdev Hd Hdin Hlive Hlk Hsb7 Hv7) as Hadd.
  assert (∀ e', if decide (take (Z.to_nat DIRSIZ) e = take (Z.to_nat DIRSIZ) e') then lookup_name s0 d e' = None → lookup_name s7 d e' = Some inum
    else lookup_name s7 d e' = lookup_name s0 d e') as Hlook.
  { intros e'. pose proof (entry_added_lookup _ _ _ _ _ e' Hadd) as HL. cbn [de_inum de_name] in HL. rewrite (c_string_strncpy name e) in HL by done.
    apply HL. lia. }
  rewrite Esb in *. rewrite Hd in *. split.
  - eauto.
  - rewrite Hdk7, C3, (md_disk _ _ _ _ _ _ _ _ Hm). apply W.
  - eapply (layout_ext s6); [done..|]. exact C6.
  - exists jp. rewrite Hoth, C5 by done. rewrite list_lookup_insert_ne by done. rewrite (md_table _ _ _ _ _ _ _ _ Hm). split; [|apply Hm].
    destruct (md_free _ _ _ _ _ _ _ _ Hm) as (ip & Hj & _). apply list_lookup_insert_eq. by eapply lookup_lt_Some.
  - intros n. rewrite Hrf, (refs_made _ dp dp' n Hi Hij); [simpl; lia| |exact C5].
    intros m. apply weight_same; by rewrite C8.
  - done.
  - rewrite Ed7, C10; [|done|done]. apply Hm.
  - specialize (Hlook e). rewrite decide_True in Hlook by done. by apply Hlook.
  - intros e' Hne. specialize (Hlook e'). by rewrite decide_False in Hlook by done.
  - rewrite Ed7, C9. split; [|rewrite C8; exact (f_equal di_nlink Hdin)].
    rewrite C8. change (i_type dp = T_DIR). rewrite (f_equal di_type Hdin : i_type dp = _). apply Hp.
  - intros n Hn Hne Hnd. rewrite Ed7, C10 by done. by apply Ed5.
  - intros b Hb Hu Hb0 Hbd Hbi Ho. rewrite Hv7, C12; try done.
    + rewrite (md_other _ _ _ _ _ _ _ _ Hm); [apply W|]. by rewrite (wk_sb _ _ _ _ _ _ _ W).
    + rewrite <- (wk_sb _ _ _ _ _ _ _ W) in Hb, Hu |- *. rewrite (md_used _ _ _ _ _ _ _ _ Hm) by done. rewrite (used_ext _ (blk s0)); [done|]. apply W.
    + intros Ho'. by apply Ho, (parent_owns dp).
Qed.

Lemma create_undone bl' dp dp' s6 :
  k_itable s1 !! i = Some dp → k_itable s !! i = Some dp → i_dev dp = ROOTDEV → i_inum dp = d → i_lock dp = mk_sl 1 pid →
  0 < i_ref dp < 2 ^ 31 - 1 → dinode_of dp = dinode_on_disk s0 d → i ≠ j → 0 < type < 32768 → -32768 ≤ major < 32768 →
  -32768 ≤ minor < 32768 → room bl s0 13 → (length bl' ≤ S (length bl))%nat →
  dir_changed me pid i bl' s dp dp' s6 → (∀ b, 0 ≤ b < sb_size (k_sb s) → used (k_sb s) (blk s6) b = true) →
  wpc (disk_env me) (λ x, x = k_disk s0) (create_fail fuel j i s6) (λ r s', r = None ∧ not_created s').
Proof.
  intros Hi Hi5 Hdev Hd Hl Hr Hdin Hij Hty Hma Hmi [R1 R2] Hlen Hch Hfull.
  pose proof Hch as [(bl6 & Hop6 & Hlen6) C2 C3 C4 C5 C6 _ C8 _ C10 _ _]. pose proof (md_new _ _ _ _ _ _ _ _ Hm) as [N1 N2 N3 N4 N5 N6].
  pose proof (md_sb _ _ _ _ _ _ _ _ Hm) as Esb. rewrite (wk_sb _ _ _ _ _ _ _ W) in Esb.
  pose proof (wframe_sb _ _ C2) as Esb6. rewrite Esb in *. rewrite Hd in *.
  destruct (md_free _ _ _ _ _ _ _ _ Hm) as (ip0 & Hj1 & _).
  assert (k_itable s6 !! j = Some jp) as Hj6.
  { rewrite C5, list_lookup_insert_ne by done. rewrite (md_table _ _ _ _ _ _ _ _ Hm). apply list_lookup_insert_eq. by eapply lookup_lt_Some. }
  assert (k_disk s6 = k_disk s0) as Edisk by (rewrite C3, (md_disk _ _ _ _ _ _ _ _ Hm); apply W).
  assert (lg_size (k_log s6) = lg_size (k_log s0)) as Elg by (rewrite C4, (md_lgsize _ _ _ _ _ _ _ _ Hm), (wk_log _ _ _ _ _ _ _ W); done).
  unfold create_fail. eapply wpc_step; [exact (modi_run j s6 jp _ Hj6)|]. set (jp3 := set_i_nlink 0 jp). set (s6' := set_k_itable _ s6).
  assert (dinode_of jp3 = mk_dinode type major minor 0 0 (replicate 13 0)) as Ed3.
  { unfold jp3, new_dinode in *. unfold dinode_of in *. cbn in *. by injection N6 as -> -> -> _ -> ->. }
  assert (dinode_typed (dinode_of jp3)) as Htyped. { rewrite Ed3. split; simpl; try lia. repeat constructor; lia. }
  assert (fs_layout s6') as Hl6 by (by apply layout_table).
  replace (k_disk s0) with (k_disk s6') by exact Edisk.
  apply wpc_bind. eapply wpc_mono; [eapply (iupdate_put me pid fuel j Hfuel bl6 s6' jp3)|done|].
  { by apply op_itable. } { apply list_lookup_insert_eq. by eapply lookup_lt_Some. } { exact N1. } { done. }
  { change (i_inum jp3) with (i_inum jp). rewrite N2. change (k_sb s6') with (k_sb s6). by rewrite Esb6. } { done. }
  { split; [lia|]. change (k_log s6') with (k_log s6). rewrite Elg. lia. }
  intros u s7 Hput. cbn beta in Hput. change (i_inum jp3) with (i_inum jp) in Hput. rewrite N2 in Hput.
  pose proof Hput as [P1 P2 P3 P4 P5 P6 P7 P8 P9]. change (k_sb s6') with (k_sb s6) in *. rewrite Esb6 in *.
  pose proof (logs_length bl6 (IBLOCK inum (k_sb s0))) as Hlogs. pose proof (fs_frame_sb _ _ P2) as Esb7. change (k_sb s6') with (k_sb s6) in Esb7.
  assert (k_itable s7 = <[j := jp3]> (k_itable s6)) as T7 by (by rewrite (itable_same _ _ P2)).
  assert (k_itable s7 !! j = Some jp3) as Hj7 by (rewrite T7; apply list_lookup_insert_eq; by eapply lookup_lt_Some).
  set (jp4 := set_i_lock (mk_sl 0 0) jp3). set (s8 := unlocked me j jp3 s7).
  assert (iunlockput fuel j s7 = iput fuel j s8) as Hrun8.
  { refine (bind_step _ (λ _, iput fuel j) _ tt s8 _). apply (iunlock_run me pid); [by eapply op_thread|done|exact N5|].
    change (0 < i_ref jp). lia. }
  assert (op me pid [] (logs bl6 (IBLOCK inum (k_sb s0))) s8) as Hop8.
  { exact (op_wake me pid _ _ _ _ (op_itable me pid _ _ _ s7 P1)). }
  assert (i_addrs jp4 = replicate 13 0) as Ea4 by (exact (f_equal di_addrs Ed3)).
  replace (k_disk s6') with (k_disk s8) by exact P3.
  apply wpc_bind. rewrite Hrun8. eapply wpc_mono; [eapply (iput_last me pid fuel j Hfuel _ s8 jp4)|done|].
  { exact Hop8. } { apply list_lookup_insert_eq. by eapply lookup_lt_Some. } { by apply (layout_ext s7). }
  { apply empty_wf; [exact N1|exact (f_equal di_size Ed3)|done|exact Htyped]. }
  { change (i_inum jp4) with (i_inum jp). rewrite N2. change (k_sb s8) with (k_sb s7). by rewrite Esb7, Esb6. }
  { split; [lia|]. change (k_log s8) with (k_log s7). rewrite P4. change (k_log s6') with (k_log s6). rewrite Elg. lia. }
  { exact N3. } { change (i_valid jp ≠ 0). lia. } { done. } { done. }
  intros u9 s9 [(bl9 & D1 & _) D2 (ip9 & D3 & D3r & _) D4 _ D6 D7 D8 _]. change (k_sb s8) with (k_sb s7) in *. rewrite Esb7, Esb6 in *.
  change (i_inum jp4) with (i_inum jp) in *. rewrite N2 in *.
  assert (k_itable s9 = <[j := ip9]> (k_itable s6)) as T9.
  { rewrite D3. unfold s8, unlocked. cbn [k_itable set_k_itable set_k_procs]. by rewrite T7, !list_insert_insert_eq. }
  destruct (put_parent bl9 dp dp' s9 Hi Hdev Hd Hl Hr C8 D1) as (s10 & Hrun & Hop10 & Hsb10 & Hdk10 & Hv10 & Hrf & _).
  { rewrite T9, list_lookup_insert_ne by done. rewrite C5. apply list_lookup_insert_eq. by eapply lookup_lt_Some. }
  eapply wpc_step; [exact Hrun|]. unfold ret. cbn [wpc]. split; [done|].
  assert (∀ n, dinode_on_disk s10 n = dinode_on_disk s9 n) as Ed10 by (intros n; by apply dinode_on_disk_ext).
  split.
  - eauto.
  - rewrite Hdk10, D2. change (k_disk s8) with (k_disk s7). rewrite P3. exact Edisk.
  - by apply (layout_ext s9).
  - intros n. rewrite Hrf, T9, (irefs_insert _ j jp) by done.
    rewrite (refs_made (k_itable s6) dp dp' n Hi Hij); [|intros m; apply weight_same; by rewrite C8|exact C5].
    unfold weight. rewrite N1, N2, N3, D3r. simpl. destruct (Z.eqb_spec inum n) as [->|Hn].
    + rewrite bool_decide_eq_true_2 by done. case_bool_decide; lia.
    + rewrite bool_decide_eq_false_2 by naive_solver. case_bool_decide; lia.
  - intros n Hn Ht0. rewrite Ed10. destruct (decide (n = inum)) as [->|Hne]; [exact D7|]. rewrite D8 by done.
    change (di_type (dinode_on_disk s7 n) = 0). rewrite P8 by done. change (di_type (dinode_on_disk s6 n) = 0).
    destruct (decide (n = d)) as [->|Hnd]; [rewrite (po_type _ Hp) in Ht0; done|]. rewrite C10 by done.
    rewrite (md_inodes _ _ _ _ _ _ _ _ Hm) by (by rewrite ?(wk_sb _ _ _ _ _ _ _ W)). by rewrite (walks_dinode _ _ _ _ W).
  - intros b Hb. rewrite (used_ext _ (blk s9)) by done. rewrite D6 by (done || by apply empty_owns).
    change (used (k_sb s0) (blk s7) b = true). rewrite P6 by done. by apply Hfull.
Qed.

End finish.

(** ** The composition *)

(** The case of a path that exists: [open] of a file or a device succeeds. *)
Definition may_open (type : Z) (x : Z) : bool :=
  let t := di_type (dinode_on_disk s0 x) in ((type =? T_FILE) && ((t =? T_FILE) || (t =? T_DEVICE)))%bool.

Definition create_post (n : Z) (es : list (list Z)) (type major minor : Z) (r : option nat) (s' : kstate) : Prop :=
  match parent_path s0 n es with
  | None => r = None ∧ walks me pid bl s0 [] None s'
  | Some d =>
      let e := default [] (last es) in
      match lookup_name s0 d e with
      | Some x =>
          if may_open type x then ∃ j, r = Some j ∧ handle s' j x ∧ walks me pid bl s0 [x] (Some j) s'
          else r = None ∧ walks me pid bl s0 [] None s'
      | None =>
          (∃ inum j, r = Some j ∧ created d e type major minor inum j s') ∨
          (r = None ∧ walks me pid bl s0 [] None s' ∧ ∀ inum, 1 ≤ inum < sb_ninodes (k_sb s0) → di_type (dinode_on_disk s0 inum) ≠ 0) ∨
          (r = None ∧ not_created s')
      end
  end.

Record create_pre (n : Z) (path name : list Z) (type major minor : Z) : Prop := {
  cp_start : starts_at me s0 path n;
  cp_path : 0 ∉ path ∧ Forall (λ c, 0 ≤ c < 256) path;
  cp_name : Forall (λ c, 0 ≤ c < 256) name ∧ length name = Z.to_nat DIRSIZ;
  cp_type : 0 < type < 32768 ∧ type ≠ T_DIR;
  cp_numbers : -32768 ≤ major < 32768 ∧ -32768 ≤ minor < 32768;
  cp_inodes : 1 ≤ sb_ninodes (k_sb s0) ≤ 65536;
  cp_room : room bl s0 13;
  cp_table : (length (in_table (k_itable s0)) + 3 ≤ length (k_itable s0))%nat;
  cp_parent d : parent_path s0 n (elements path) = Some d → parent_ok d
}.

(** The entry the thread holds locked has what the disk has. *)
Lemma walks_locked xs j s x :
  walks me pid bl s0 xs (Some j) s → (length xs ≤ 2)%nat → handle s j x →
  ∃ ip, geti j s = Ret ip s ∧ i_dev ip = ROOTDEV ∧ i_inum ip = x ∧ i_type ip = di_type (dinode_on_disk s0 x).
Proof.
  intros W Hx Hh. destruct (parent_entry _ _ _ _ W Hx Hh) as (ip & Hj & H1 & H2 & _ & _ & H3). exists ip.
  split_and!; [by apply geti_some|done|done|exact (f_equal di_type H3)].
Qed.

(** The name is there. *)
Lemma create_exists i d x j s type :
  walks me pid bl s0 [x; d] (Some i) s → handle s i d → handle s j x → kept s0 d → kept s0 x →
  wpc (disk_env me) (λ y, y = k_disk s0)
    ((iunlockput fuel i;; ilock fuel (Some j);; y <- geti j;;
      if ((type =? T_FILE) && ((i_type y =? T_FILE) || (i_type y =? T_DEVICE)))%bool then ret (Some j)
      else iunlockput fuel j;; ret None) s)
    (λ r s', if may_open type x then ∃ j, r = Some j ∧ handle s' j x ∧ walks me pid bl s0 [x] (Some j) s'
             else r = None ∧ walks me pid bl s0 [] None s').
Proof.
  intros W Hi Hj Hkd Hkx. apply walks_swap in W.
  destruct (walks_iunlockput me pid fuel bl s0 Hpre [x] s i d W ltac:(simpl; lia) Hi Hkd) as (s2 & Hrun2 & W2 & K2).
  eapply wpc_step; [exact Hrun2|]. pose proof (K2 j x Hj ltac:(by left)) as Hj2.
  apply wpc_bind. eapply wpc_mono; [apply (walks_ilock me pid fuel bl s0 Hfuel Hpre [x] s2 j x (λ y, y = k_disk s0) W2 Hj2); apply W2|done|].
  cbn beta. intros _ s3 [W3 K3]. pose proof (K3 _ _ Hj2) as Hj3.
  destruct (walks_locked _ _ _ _ W3 ltac:(simpl; lia) Hj3) as (ip & Hget & _ & _ & Ety). eapply wpc_step; [exact Hget|]. rewrite Ety.
  unfold may_open. destruct (_ && _)%bool; [unfold ret; cbn [wpc]; eauto|].
  destruct (walks_iunlockput me pid fuel bl s0 Hpre [] s3 j x W3 ltac:(simpl; lia) Hj3 Hkx) as (s4 & Hrun4 & W4 & _).
  eapply wpc_step; [exact Hrun4|]. unfold ret. cbn [wpc]. done.
Qed.

(** The rest of [create] once the inode exists. *)
Lemma create_links i s1 d inum type major minor j jp s name e :
  walks me pid bl s0 [d] (Some i) s1 → handle s1 i d → kept s0 d → parent_ok d →
  1 ≤ inum < sb_ninodes (k_sb s0) → di_type (dinode_on_disk s0 inum) = 0 → holds_name name e → lookup_name s0 d e = None →
  0 < type < 32768 ∧ type ≠ T_DIR → -32768 ≤ major < 32768 ∧ -32768 ≤ minor < 32768 → sb_ninodes (k_sb s0) ≤ 65536 → room bl s0 13 →
  (length (in_table (k_itable s0)) + 3 ≤ length (k_itable s0))%nat → made s1 inum type major minor j jp s →
  wpc (disk_env me) (λ y, y = k_disk s0)
    ((r <- dirlink fuel i name inum;;
      if r <? 0 then create_fail fuel j i
      else
        when (type =? T_DIR) (modi i (λ y, set_i_nlink (s16 (i_nlink y + 1)) y);; iupdate fuel i);;
        iunlockput fuel i;;
        ret (Some j)) s)
    (λ r s', (∃ inum j, r = Some j ∧ created d e type major minor inum j s') ∨ r = None ∧ not_created s').
Proof.
  intros W Hh Hk Hp Hin H0 (Hnb & Hnl & Hne) Hno [Hty Hnd] [Hma Hmi] Hu Hroom Htab Hm.
  destruct (link_parent i s1 d inum type major minor j jp s name e W Hh Hp Hm H0 Htab Hnl Hno) as (dp & G1 & G2 & G3 & G4 & G5 & G6 & G7 & G8 & G9 & G10).
  apply wpc_bind. eapply wpc_mono; [apply (link_ok i s1 d inum type major minor j jp s name e W Hh Hp Hm Hin H0 Hu Hroom Htab Hnb Hnl Hne Hno)|done|].
  intros r s6 (bl' & dp2 & Hdp2 & Hlen & Hcase). rewrite G8 in Hdp2. injection Hdp2 as <-.
  destruct Hcase as [(-> & k & dp' & Hlk)|(-> & (dp' & Hch) & Hfull)].
  - change (0 <? 0) with false. cbn iota. rewrite (proj2 (Z.eqb_neq type T_DIR)) by done. cbn [when]. eapply wpc_step; [reflexivity|].
    destruct (create_done i s1 d inum type major minor j jp s name e W Hh Hp Hm Hin H0 Hk bl' dp k dp' s6) as (s7 & Hrun & Hcr); try done.
    eapply wpc_step; [exact Hrun|]. unfold ret. cbn [wpc]. left. eauto.
  - change (-1 <? 0) with true. cbn iota.
    eapply wpc_mono; [by eapply (create_undone i s1 d inum type major minor j jp s W Hh Hp Hm Hin H0 Hk bl' dp dp' s6)|done|]. by right.
Qed.

(** The name is not there. *)
Lemma create_new n path name0 type major minor i s d name e :
  create_pre n path name0 type major minor → parent_ok d → walks me pid bl s0 [d] (Some i) s → handle s i d → kept s0 d →
  holds_name name e → lookup_name s0 d e = None →
  wpc (disk_env me) (λ y, y = k_disk s0)
    ((y <- geti i;;
      o <- ialloc fuel (i_dev y) type;;
      match o with
      | None => iunlockput fuel i;; ret None
      | Some ip =>
          ilock fuel (Some ip);;
          modi ip (λ x, set_i_nlink 1 (set_i_minor minor (set_i_major major x)));;
          iupdate fuel ip;;
          x <- geti ip;;
          r <- (if type =? T_DIR then
                  r1 <- dirlink fuel ip (cstr "." ++ [0]) (i_inum x);;
                  if r1 <? 0 then ret (-1) else dirlink fuel ip (cstr ".." ++ [0]) (i_inum y)
                else ret 0);;
          if r <? 0 then create_fail fuel ip i
          else
            r <- dirlink fuel i name (i_inum x);;
            if r <? 0 then create_fail fuel ip i
            else
              when (type =? T_DIR)
                (modi i (λ y, set_i_nlink (s16 (i_nlink y + 1)) y);;
                 iupdate fuel i);;
              iunlockput fuel i;;
              ret (Some ip)
      end) s)
    (λ r s', (∃ inum j, r = Some j ∧ created d e type major minor inum j s') ∨
       (r = None ∧ walks me pid bl s0 [] None s' ∧ ∀ inum, 1 ≤ inum < sb_ninodes (k_sb s0) → di_type (dinode_on_disk s0 inum) ≠ 0) ∨
       (r = None ∧ not_created s')).
Proof.
  intros [_ _ _ Hty Hnum [Hn1 Hn2] Hroom Htab _] Hp W Hh Hk Hname Hno.
  destruct (walks_locked _ _ _ _ W ltac:(simpl; lia) Hh) as (dp & Hget & Hdev & Hd & _). eapply wpc_step; [exact Hget|]. rewrite Hdev.
  pose proof W as [W1 W2 W3 W4 W5 W6 W7 W8 W9]. apply wpc_bind. rewrite <- W3.
  eapply wpc_mono; [eapply (ialloc_ok me pid fuel Hfuel bl s type); try done|done|].
  { by eapply walks_layout. } { eapply (walks_free me pid bl s0 Hpre [d]); [done|simpl; lia]. } { by rewrite W2. }
  { destruct Hroom as [R1 R2]. split; rewrite ?W4; lia. } { apply Hty. }
  intros [j|] s4 Hpost.
  - destruct Hpost as (inum & jp & s4' & Hin & H0 & _ & Hput & -> & Hgot). rewrite W3.
    eapply (make_inode _ _ [d] (Some i) s j inum jp type major minor s4'); try done; try apply Hty; try apply Hnum.
    { destruct Hroom as [R1 R2]. split; lia. }
    intros s5 jp' Hm. rewrite W2 in Hin. rewrite (walks_dinode _ _ _ _ W) in H0.
    assert (k_itable s5 !! j = Some jp') as Hj5.
    { rewrite (md_table _ _ _ _ _ _ _ _ Hm). destruct (md_free _ _ _ _ _ _ _ _ Hm) as (ip & Hj & _).
      apply list_lookup_insert_eq. by eapply lookup_lt_Some. }
    eapply wpc_step; [by apply geti_some|]. rewrite (ne_inum _ _ _ _ _ (md_new _ _ _ _ _ _ _ _ Hm)).
    rewrite (proj2 (Z.eqb_neq type T_DIR)) by apply Hty. eapply wpc_step; [reflexivity|]. change (0 <? 0) with false. cbn iota.
    rewrite <- (proj2 (Z.eqb_neq type T_DIR)) by apply Hty.
    eapply wpc_mono; [eapply (create_links i s d inum type major minor j jp' s5 name e); try done|done|].
    cbn beta. intros r s' [H|H]; [by left|by right; right].
  - destruct Hpost as (Hall & O & V & Esb & Edk & Elg & Eit).
    assert (walks me pid bl s0 [d] (Some i) s4) as W'.
    { split; rewrite ?Eit; try done; [congruence..|]. intros m. by rewrite V. }
    destruct (walks_iunlockput me pid fuel bl s0 Hpre [] s4 i d W' ltac:(simpl; lia)) as (s5 & Hrun & W5' & _); [|done|].
    { by apply (handle_table s). }
    eapply wpc_step; [exact Hrun|]. unfold ret. cbn [wpc]. right. left. split; [done|]. split; [done|].
    intros inum Hin. rewrite <- (walks_dinode _ _ _ inum W). apply Hall. by rewrite W2.
Qed.

Lemma create_ok n path name type major minor :
  create_pre n path name type major minor →
  wpc (disk_env me) (λ y, y = k_disk s0) (create fuel name path type major minor s0) (create_post n (elements path) type major minor).
Proof.
  intros Hc. pose proof Hc as [C1 [C2 C3] [C4 C5] C6 C7 C8 C9 C10 C11]. unfold create.
  apply wpc_bind. eapply wpc_mono; [apply (namex_ok me pid fuel bl s0 Hfuel Hpre path true name n); done|done|].
  intros [r nm] s1 Hnm. unfold named in Hnm. unfold create_post. cbn [fst snd] in Hnm.
  destruct (parent_path s0 n (elements path)) as [d|] eqn:Epar.
  2: { destruct Hnm as [-> W]. unfold ret. cbn [wpc]. done. }
  destruct Hnm as (W1 & (i & -> & Hh1) & Hk & Hname). specialize (Hname eq_refl). pose proof (C11 d eq_refl) as Hp.
  set (e := default [] (last (elements path))) in *. pose proof Hname as (Hnb & Hnl & Hne).
  apply wpc_bind. eapply wpc_mono; [apply (walks_ilock me pid fuel bl s0 Hfuel Hpre [d] s1 i d (λ y, y = k_disk s0) W1 Hh1); apply W1|done|].
  cbn beta. intros _ s2 [W2 K2]. pose proof (K2 _ _ Hh1) as Hh2.
  apply wpc_bind. eapply wpc_mono; [apply (walks_dirlookup me pid fuel bl s0 Hfuel Hpre [d] s2 i d nm e (λ y, y = k_disk s0)); try done; [apply Hp|apply W2]|done|].
  cbn beta. intros o s3 [Hh3 Hlook]. destruct (lookup_name s0 d e) as [x|] eqn:El.
  - destruct Hlook as (j & off & -> & W3 & Hj3 & Hnl3). eapply (create_exists i d x j); try done. by right.
  - destruct Hlook as [-> W3]. by apply (create_new n path name type major minor i s3 d nm e).
Qed.

End create.

(** ** What the theorem says *)

(** C13: [create] of a file or a device, on every branch.  When the parent of the path does
    not exist or is not a directory it fails; when the name is there it returns the inode,
    locked, exactly if a file is wanted and it is a file or a device.  Otherwise it makes an
    inode that was free into an empty file with one link, which the name then means in the
    directory; no other name of the directory, no other inode and no block of another file
    changes, and the one reference the call leaves is to the new inode.  It fails only when
    every inode or every block is in use, and then the inode is free again and every
    reference is given back. *)
Theorem create_correct me pid `{D : Device} fuel bl s n path uninit_name type major minor :
  enough_fuel fuel → walk_pre me pid bl s → create_pre me bl s n path uninit_name type major minor →
  wpc (disk_env me) (λ d, d = k_disk s) (create fuel uninit_name path type major minor s)
    (create_post me pid bl s n (elements path) type major minor).
Proof. intros. by apply create_ok. Qed.

(** ** The small file system again *)

Lemma create_post_new me pid bl s n es type major minor r s' d :
  parent_path s n es = Some d → lookup_name s d (default [] (last es)) = None → create_post me pid bl s n es type major minor r s' →
  (∃ inum j, r = Some j ∧ created me pid s d (default [] (last es)) type major minor inum j s') ∨ r = None.
Proof. unfold create_post. intros -> ->. intros [H|[[-> _]|[-> _]]]; [by left|by right..]. Qed.

(** A file f in the root directory. *)
Definition demo_file_path : list Z := cstr "/f".

Lemma demo_file_parent :
  parent_path (fs_machine 1) 1 (elements demo_file_path) = Some 1 ∧
  lookup_name (fs_machine 1) 1 (default [] (last (elements demo_file_path))) = None.
Proof. split; vm_compute; reflexivity. Qed.

Lemma demo_parent_ok : parent_ok (fs_machine 1) 1.
Proof.
  split; [|rewrite fs_machine_dinode; vm_compute; discriminate|by rewrite fs_machine_dinode].
  apply (wf_same _ (root_inode 1)); [done| |apply root_wf]. unfold inode_at. by rewrite dinode_of_load, fs_machine_dinode.
Qed.

Lemma demo_create_pre : create_pre 0 [] (fs_machine 1) 1 demo_file_path (replicate 14 0) T_FILE 0 0.
Proof.
  split.
  - unfold starts_at. rewrite bool_decide_eq_true_2 by done. split; [done|exact demo_root_live].
  - split; apply (bool_decide_unpack _); vm_compute; exact I.
  - split; [apply Forall_replicate; lia|done].
  - done.
  - done.
  - change (1 ≤ 200 ≤ 65536). lia.
  - split; [unfold NBUF; simpl; lia|change (13 < 31); lia].
  - assert (∀ t, demo_table t → (length (in_table t) + 3 ≤ length t)%nat) as H by (intros t ->; vm_compute; lia).
    by apply H.
  - intros d. rewrite (proj1 demo_file_parent). intros [= <-]. apply demo_parent_ok.
Qed.

Lemma create_correct_witness :
  wpc (@disk_env qemu_disk 0) (λ d, d = k_disk (fs_machine 1)) (create 2 (replicate 14 0) demo_file_path T_FILE 0 0 (fs_machine 1))
    (λ r s', (∃ inum j, r = Some j ∧ lookup_name s' 1 (default [] (last (elements demo_file_path))) = Some inum) ∨ r = None).
Proof.
  eapply wpc_mono; [apply (@create_correct 0 3 qemu_disk 2 [] (fs_machine 1) 1 demo_file_path (replicate 14 0) T_FILE 0 0 (le_n 2) demo_walk_pre demo_create_pre)|done|].
  intros r s' H. destruct (create_post_new _ _ _ _ _ _ _ _ _ _ _ _ (proj1 demo_file_parent) (proj2 demo_file_parent) H) as [(inum & j & Hr & Hc)|Hr].
  - left. exists inum, j. split; [exact Hr|exact (cr_found _ _ _ _ _ _ _ _ _ _ _ Hc)].
  - by right.
Defined.
