(* ===== verification/Trap.v ===== *)
(** * Traps

    [kernel/trap.c]: the clock, device interrupts, traps from user space and
    from the kernel, the alarm, and the MLFQ time slices.  Reads and writes of
    supervisor registers go to [k_csr].  The PLIC and the disk driver are the
    interface [Devices]. *)

From Stdlib Require Import ZArith Lia.
From S2P Require Import Prelude Machine Kernel Boot CString Printf Kalloc Vm ProcTable Console Sched File.
From S2P Require Import ProcLife Syscall.

(** [plic_irq] is what a read of the PLIC's claim register returns. *)
Class Devices := {
  plic_irq : kstate → Z;
  virtio_disk_intr : M unit
}.

Section trap.
Context `{B : Build} `{F : FileSystem} `{FS : FileSyscalls} `{U : Uart} `{D : Devices}.
Variable fuel : nat.
Variables uninit_wtime uninit_rtime : Z.

Abbreviation syscall := (syscall fuel uninit_wtime uninit_rtime).

(** ** Registers *)

Definition modcsr (f : csrs → csrs) : M unit := modify (λ s, set_k_csr (f (k_csr s)) s).
Definition r_csr (f : csrs → Z) : M Z := gets (λ s, f (k_csr s)).

Definition trapinithart : M unit := modcsr (set_csr_stvec kernelvec_addr).

(** ** Interrupts *)

Definition plic_claim : M Z := gets plic_irq.

(** The write to the claim register that ends an interrupt. *)
Definition plic_complete (irq : Z) : M unit := ret tt.

Definition clockintr : M unit :=
  acquire L_ticks;;
  modify (λ s, set_k_ticks (u32 (k_ticks s + 1)) s);;
  update_time;;
  wakeup Ch_ticks;;
  release L_ticks.

Definition devintr : M Z :=
  scause <- r_csr csr_scause;;
  if (truthy (Z.land scause 0x8000000000000000) && (Z.land scause 0xff =? 9))%bool then
    irq <- plic_claim;;
    (if irq =? UART0_IRQ then uartintr
     else if irq =? VIRTIO0_IRQ then virtio_disk_intr
     else when (truthy irq) (printf "unexpected interrupt irq=%d
" [A_int irq]));;
    when (truthy irq) (plic_complete irq);;
    ret 1
  else if scause =? 0x8000000000000001 then
    id <- r_csr csr_hartid;;
    when (id =? 0) clockintr;;
    modcsr (λ c, set_csr_sip (Z.land (csr_sip c) (u64 (Z.lnot 2))) c);;
    ret 2
  else ret 0.

(** ** MLFQ in the trap handlers *)

(** The ageing pass of [usertrap] and [kerneltrap]. *)
Definition age_all : M unit :=
  for_each all_procs (λ i,
    acquire (L_proc i);;
    p <- getp i;;
    ticks <- gets k_ticks;;
    if aged ticks p then boost i;; release (L_proc i)
    else release (L_proc i)).

(** The [switch] on the current queue. *)
Definition time_slice (curr_pri : Z) : Z :=
  if curr_pri =? 1 then MLFQ_TICKS1
  else if curr_pri =? 2 then MLFQ_TICKS2
  else if curr_pri =? 3 then MLFQ_TICKS3
  else MLFQ_TICKS0.

(** The time-slice check of process [i]. *)
Definition slice_check (which_dev : Z) (i : nat) : M unit :=
  p <- getp i;;
  when ((which_dev =? 2) && bool_decide (p_state p = RUNNING))%bool
    (let time := time_slice (mq_curr_pri (p_mlfq_data p)) in
     when (time <=? mq_num_ticks (p_mlfq_data p))
       (let new_pri := Z.min (mq_curr_pri (p_mlfq_data p) + 1) (MLFQ_NUM_QUEUES - 1) in
        remove i (mq_curr_pri (p_mlfq_data p));;
        push i new_pri;;
        yield)).

(** Is some runnable process queued above level [q]?  The nested loops that set
    [flag]. *)
Definition higher_waiting (q : Z) (ps : list proc) : bool :=
  existsb (λ i, existsb (λ p, (bool_decide (p_state p = RUNNABLE) && truthy (mq_in_queue (p_mlfq_data p)) &&
                              (mq_curr_pri (p_mlfq_data p) =? i))%bool) ps) (seqZ 0 q).

Definition preempt_check (i : nat) : M unit :=
  p <- getp i;;
  flag <- gets (λ s, higher_waiting (mq_curr_pri (p_mlfq_data p)) (k_procs s));;
  when flag yield.

(** ** usertrap *)

(** The alarm, on a timer interrupt. *)
Definition alarm_tick (i : nat) : M unit :=
  modp i (λ p, set_p_ticks_elapsed (s32 (p_ticks_elapsed p + 1)) p);;
  p <- getp i;;
  when ((0 <? p_sigalarm_nticks p) && negb (truthy (p_sigalarm_running p)))%bool
    (when (p_sigalarm_nticks p <=? p_ticks_elapsed p)
       (modp i (set_p_sigalarm_running 1);;
        modp i (set_p_ticks_elapsed 0);;
        backup <- kalloc_tf;;
        modp i (set_p_trap_backup backup);;
        tf <- gettf (p_trapframe p);;
        settf backup (λ _, tf);;
        settf (p_trapframe p) (set_tf_epc (p_sigalarm_handler p)))).

Definition usertrapret : M Z :=
  i <- curproc;;
  intr_off;;
  modcsr (set_csr_stvec (u64 (TRAMPOLINE + (uservec - trampoline))));;
  p <- getp i;;
  satp <- r_csr csr_satp;;
  settf (p_trapframe p) (set_tf_kernel_satp satp);;
  settf (p_trapframe p) (set_tf_kernel_sp (u64 (p_kstack p + PGSIZE)));;
  settf (p_trapframe p) (set_tf_kernel_trap usertrap_addr);;
  tp <- r_csr csr_hartid;;
  settf (p_trapframe p) (set_tf_kernel_hartid tp);;
  modcsr (λ c, set_csr_sstatus
    (Z.lor (Z.land (csr_sstatus c) (u64 (Z.lnot SSTATUS_SPP))) SSTATUS_SPIE) c);;
  tf <- gettf (p_trapframe p);;
  modcsr (set_csr_sepc (tf_epc tf));;
  ret (MAKE_SATP (p_pagetable p)).

(** [if (killed(p)) exit(-1);] *)
Definition exit_if_killed (i : nat) : M unit :=
  k <- killed i;;
  when (truthy k) (exit (-1);; ret tt).

(** The cause of the trap is handled; the value is [which_dev]. *)
Definition usertrap_cause (i : nat) : M Z :=
  scause <- r_csr csr_scause;;
  if scause =? 8 then
    exit_if_killed i;;
    p <- getp i;;
    settf (p_trapframe p) (λ tf, set_tf_epc (u64 (tf_epc tf + 4)) tf);;
    intr_on;;
    syscall;;
    ret 0
  else
    which_dev <- devintr;;
    if truthy which_dev then
      when (which_dev =? 2)
        (alarm_tick i;;
         match policy with
         | RR => yield
         | FCFS => ret tt
         | MLFQ => age_all;; slice_check which_dev i;; preempt_check i
         end);;
      ret which_dev
    else
      p <- getp i;;
      sepc <- r_csr csr_sepc;;
      stval <- r_csr csr_stval;;
      printf "usertrap(): unexpected scause %p pid=%d
" [A_int scause; A_int (p_pid p)];;
      printf "            sepc=%p stval=%p
" [A_int sepc; A_int stval];;
      setkilled i;;
      ret 0.

(** The value is the [satp] with which [userret] is entered. *)
Definition usertrap : M Z :=
  sstatus <- r_csr csr_sstatus;;
  if truthy (Z.land sstatus SSTATUS_SPP) then panic "usertrap: not from user mode"
  else
    modcsr (set_csr_stvec kernelvec_addr);;
    i <- curproc;;
    p <- getp i;;
    sepc <- r_csr csr_sepc;;
    settf (p_trapframe p) (set_tf_epc sepc);;
    which_dev <- usertrap_cause i;;
    exit_if_killed i;;
    when (bool_decide (policy = RR) && (which_dev =? 2))%bool yield;;
    usertrapret.

(** ** kerneltrap *)

Definition kerneltrap : M unit :=
  sepc <- r_csr csr_sepc;;
  sstatus <- r_csr csr_sstatus;;
  scause <- r_csr csr_scause;;
  if Z.land sstatus SSTATUS_SPP =? 0 then panic "kerneltrap: not from supervisor mode"
  else
    on <- intr_get;;
    if on : bool then panic "kerneltrap: interrupts enabled"
    else
      which_dev <- devintr;;
      if which_dev =? 0 then
        stval <- r_csr csr_stval;;
        printf "scause %p
" [A_int scause];;
        printf "sepc=%p stval=%p
" [A_int sepc; A_int stval];;
        panic "kerneltrap"
      else
        match policy with
        | FCFS => ret tt
        | RR =>
            me <- myproc;;
            match me with
            | None => ret tt
            | Some i =>
                p <- getp i;;
                when ((which_dev =? 2) && bool_decide (p_state p = RUNNING))%bool yield
            end
        | MLFQ =>
            age_all;;
            me <- myproc;;
            match me with
            | None => ret tt
            | Some i => slice_check which_dev i;; preempt_check i
            end
        end;;
        modcsr (set_csr_sepc sepc);;
        modcsr (set_csr_sstatus sstatus).

(** [forkret] of proc.c; [first] is its static flag. *)
Definition forkret (first : bool) : M Z :=
  i <- curproc;;
  release (L_proc i);;
  when first (fsinit ROOTDEV);;
  usertrapret.

(** ** The clock *)

Lemma clockintr_ok s :
  table_ok s → no_proc_locks s → L_ticks ∉ k_held s →
  clockintr s = Ret tt (set_k_ticks (u32 (k_ticks s + 1))
    (set_k_procs (imap (wake_one (k_cur s) Ch_ticks) (tick_one <$> k_procs s)) s)).
Proof.
  intros Ht Hl Htk. unfold clockintr. erewrite bind_step by (by apply acquire_free).
  unfold bind at 1, modify at 1. cbn [rbind].
  assert (no_proc_locks (set_k_ticks (u32 (k_ticks s + 1)) (set_k_held (L_ticks :: k_held s) s))) as Hl'.
  { intros i Hi. specialize (Hl i Hi). simpl. set_solver. }
  erewrite bind_step by (by apply update_time_ok).
  erewrite bind_step by (apply wakeup_ok; [unfold table_ok; simpl; by rewrite length_fmap|by left]).
  erewrite release_held by done. keq.
Qed.

(** A timer interrupt is recognised, acknowledged and counted once: [devintr]
    returns 2 and clears the pending bit on every hart; on hart 0 it also advances
    [ticks] by one, charges the running processes for the tick and wakes exactly
    the processes sleeping on [ticks]; on the others nothing else changes. *)
Theorem devintr_timer s :
  csr_scause (k_csr s) = 0x8000000000000001 → table_ok s → no_proc_locks s → L_ticks ∉ k_held s →
  let ack := λ s, set_k_csr (set_csr_sip (Z.land (csr_sip (k_csr s)) (u64 (Z.lnot 2))) (k_csr s)) s in
  devintr s = Ret 2 (ack (if csr_hartid (k_csr s) =? 0
    then set_k_ticks (u32 (k_ticks s + 1))
           (set_k_procs (imap (wake_one (k_cur s) Ch_ticks) (tick_one <$> k_procs s)) s)
    else s)).
Proof.
  intros Hsc Ht Hl Htk ack. unfold devintr. unfold bind at 1, r_csr at 1, gets. cbn [rbind].
  rewrite Hsc. change (truthy _ && _)%bool with false. change (_ =? 0x8000000000000001) with true. cbn iota.
  unfold bind at 1, r_csr, gets. cbn [rbind]. unfold when.
  destruct (csr_hartid (k_csr s) =? 0).
  - erewrite bind_step by (by apply clockintr_ok). unfold ack, modcsr. kstep. keq.
  - rewrite bind_ret_l. unfold ack, modcsr. kstep. keq.
Qed.

(** ** Alarms *)

Definition alarm_due (p : proc) : Prop :=
  0 < p_sigalarm_nticks p ∧ p_sigalarm_running p = 0 ∧
  p_sigalarm_nticks p ≤ s32 (p_ticks_elapsed p + 1).

#[local] Instance alarm_due_dec p : Decision (alarm_due p).
Proof. unfold alarm_due. apply _. Defined.

Lemma alarm_test p :
  let p' := set_p_ticks_elapsed (s32 (p_ticks_elapsed p + 1)) p in
  ((0 <? p_sigalarm_nticks p') && negb (truthy (p_sigalarm_running p')))%bool &&
    (p_sigalarm_nticks p' <=? p_ticks_elapsed p') = bool_decide (alarm_due p).
Proof.
  simpl. unfold truthy. rewrite negb_involutive. apply eq_true_iff_eq.
  rewrite !andb_true_iff, Z.ltb_lt, Z.eqb_eq, Z.leb_le, bool_decide_eq_true. unfold alarm_due. tauto.
Qed.

Lemma alarm_tick_unfold i s p :
  k_procs s !! i = Some p →
  let p' := set_p_ticks_elapsed (s32 (p_ticks_elapsed p + 1)) p in
  let s1 := set_k_procs (<[i := p']> (k_procs s)) s in
  alarm_tick i s =
  if decide (alarm_due p) then
    (modp i (set_p_sigalarm_running 1);;
     modp i (set_p_ticks_elapsed 0);;
     backup <- kalloc_tf;;
     modp i (set_p_trap_backup backup);;
     tf <- gettf (p_trapframe p);;
     settf backup (λ _, tf);;
     settf (p_trapframe p) (set_tf_epc (p_sigalarm_handler p))) s1
  else Ret tt s1.
Proof.
  intros Hp p' s1. pose proof (lookup_lt_Some _ _ _ Hp) as Hlt.
  unfold alarm_tick. unfold bind at 1, modp at 1, modify at 1. cbn [rbind].
  assert (alter (λ p, set_p_ticks_elapsed (s32 (p_ticks_elapsed p + 1)) p) i (k_procs s) = <[i := p']> (k_procs s)) as ->.
  { apply list_eq. intros j. destruct (decide (j = i)) as [->|].
    - by rewrite list_lookup_alter_eq, Hp, list_lookup_insert_eq.
    - by rewrite list_lookup_alter_ne, list_lookup_insert_ne. }
  fold s1. erewrite bind_step by (apply getp_some; by apply list_lookup_insert_eq).
  generalize (alarm_test p). fold p'. cbv zeta.
  destruct ((0 <? p_sigalarm_nticks p') && negb (truthy (p_sigalarm_running p')))%bool; unfold when;
    [destruct (p_sigalarm_nticks p' <=? p_ticks_elapsed p')|]; cbn [andb]; intros Htest; symmetry in Htest.
  - apply bool_decide_eq_true in Htest. by rewrite decide_True.
  - apply bool_decide_eq_false in Htest. by rewrite decide_False.
  - apply bool_decide_eq_false in Htest. by rewrite decide_False.
Qed.

Hypothesis kend_range : KERNBASE ≤ kend ≤ PHYSTOP.

(** The state after an alarm went off with backup page [pg]. *)
Lemma alarm_fires i s p tf pg fl :
  k_procs s !! i = Some p → alarm_due p → k_tfs s !! p_trapframe p = Some tf →
  p_trapframe p ≠ pg → L_kmem ∉ k_held s → free_pages s (pg :: fl) →
  ∃ s1, alarm_tick i s = Ret tt s1 ∧
    k_procs s1 !! i = Some (set_p_trap_backup pg (set_p_ticks_elapsed 0 (set_p_sigalarm_running 1 p))) ∧
    k_tfs s1 = <[p_trapframe p := set_tf_epc (p_sigalarm_handler p) tf]> (<[pg := tf]> (k_tfs s)) ∧
    free_pages s1 fl ∧ k_held s1 = k_held s ∧ k_cur s1 = k_cur s.
Proof.
  intros Hp Hdue Htf Hne Hk Hfree. pose proof (lookup_lt_Some _ _ _ Hp) as Hlt.
  rewrite (alarm_tick_unfold i s p Hp), decide_True by done.
  unfold bind at 1, modp at 1, modify at 1. cbn [rbind]. unfold bind at 1, modp at 1, modify at 1. cbn [rbind].
  match goal with |- ∃ s1, bind kalloc_tf _ ?st = _ ∧ _ => set (s2 := st) end.
  destruct (kalloc_pop kend_range s2 pg fl Hk Hfree) as (s3 & Hka & Hfree3 & Hok & _ & _ & Hs3).
  pose proof (page_ok_pos kend_range pg Hok) as Hpos.
  assert (kalloc_tf s2 = Ret pg (set_k_tfs (<[pg := junk_tf]> (k_tfs s3)) s3)) as Hkt.
  { unfold kalloc_tf. erewrite bind_step by exact Hka. unfold truthy.
    rewrite (proj2 (Z.eqb_neq pg 0)) by lia. done. }
  erewrite bind_step by exact Hkt. unfold bind at 1, modp at 1, modify at 1. cbn [rbind].
  rewrite Hs3. cbn [k_tfs k_procs set_k_mem set_k_freelist set_k_tfs set_k_procs].
  erewrite bind_step by (apply gettf_ok; simpl; by rewrite lookup_insert_ne).
  erewrite bind_step by (apply settf_ok; simpl; by rewrite lookup_insert_eq).
  eexists. split.
  { apply settf_ok. simpl. by rewrite !lookup_insert_ne. }
  split_and!; simpl.
  - rewrite !list_lookup_alter_eq, list_lookup_insert_eq by done. by destruct p.
  - by rewrite insert_insert_eq.
  - rewrite Hs3 in Hfree3. exact Hfree3.
  - done.
  - done.
Qed.

(** C23: An alarm handler is transparent to the program it interrupts.  When the
    alarm is due the process resumes at its handler with all other registers kept;
    and from any later state in which the handler calls [sigreturn] (whatever it
    did to its registers), every saved register, the program counter and [a0]
    included, is what it was when the alarm went off, alarms are enabled again, and
    the page that held them is back on the free list. *)
Theorem alarm_roundtrip i s p tf pg fl :
  k_procs s !! i = Some p → alarm_due p → k_tfs s !! p_trapframe p = Some tf →
  p_trapframe p ≠ pg → L_kmem ∉ k_held s → free_pages s (pg :: fl) →
  ∃ s1 p1, alarm_tick i s = Ret tt s1 ∧ k_procs s1 !! i = Some p1 ∧
    k_tfs s1 !! p_trapframe p1 = Some (set_tf_epc (p_sigalarm_handler p) tf) ∧
    p_sigalarm_running p1 = 1 ∧
    ∀ s2 p2 fl2, k_cur s2 = Some i → k_procs s2 !! i = Some p2 →
      p_trapframe p2 = p_trapframe p1 → p_trap_backup p2 = p_trap_backup p1 →
      k_tfs s2 !! p_trap_backup p1 = k_tfs s1 !! p_trap_backup p1 →
      is_Some (k_tfs s2 !! p_trapframe p1) → L_kmem ∉ k_held s2 → free_pages s2 fl2 → pg ∉ fl2 →
      ∃ s3, sys_sigreturn s2 = Ret (tf_a0 tf) s3 ∧ k_tfs s3 !! p_trapframe p1 = Some tf ∧
        free_pages s3 (pg :: fl2) ∧
        ∃ p3, k_procs s3 !! i = Some p3 ∧ p_sigalarm_running p3 = 0 ∧ p_trap_backup p3 = 0.
Proof.
  intros Hp Hdue Htf Hne Hk Hfree.
  destruct (alarm_fires i s p tf pg fl Hp Hdue Htf Hne Hk Hfree) as (s1 & Hr & Hp1 & Htfs & _).
  exists s1. eexists. split; [exact Hr|]. split; [exact Hp1|].
  cbn [p_trapframe p_trap_backup p_sigalarm_running set_p_trap_backup set_p_ticks_elapsed set_p_sigalarm_running].
  split; [by rewrite Htfs, lookup_insert_eq|]. split; [done|].
  intros s2 p2 fl2 Hc2 Hp2 Htf2 Htb2 Hbk [tf0 Hcur] Hk2 Hfree2 Hnin.
  assert (page_ok pg) as Hok by (destruct Hfree as [(_ & ? & _) _]; done).
  pose proof (page_ok_pos kend_range pg Hok) as Hpos.
  rewrite Htfs, lookup_insert_ne, lookup_insert_eq in Hbk by done.
  unfold sys_sigreturn. erewrite bind_step by (by apply curproc_some).
  erewrite bind_step by (by apply getp_some). rewrite Htb2, Htf2.
  erewrite bind_step by (by apply gettf_ok). erewrite bind_step by (by apply settf_ok).
  unfold truthy. rewrite (proj2 (Z.eqb_neq pg 0)) by lia. cbn [negb when].
  match goal with |- ∃ s3, bind (kfree pg) _ ?st = _ ∧ _ => set (s4 := st) end.
  destruct (kfree_push kend_range s4 pg fl2 Hk2 Hfree2 Hok Hnin) as (s5 & Hkf & Hfree5 & _ & Hs5).
  erewrite bind_step by exact Hkf.
  unfold bind at 1, modp at 1, modify at 1. cbn [rbind]. unfold bind at 1, modp at 1, modify at 1. cbn [rbind].
  assert (k_tfs s5 !! p_trapframe p = Some tf) as Htf5.
  { rewrite Hs5. simpl. rewrite lookup_delete_ne by congruence. by rewrite lookup_insert_eq. }
  assert (k_procs s5 = k_procs s2) as Hps5 by (by rewrite Hs5).
  erewrite bind_step by (by apply gettf_ok). eexists. split; [done|]. simpl.
  split; [exact Htf5|]. split; [exact Hfree5|].
  rewrite Hps5, !list_lookup_alter_eq, Hp2. simpl. by eexists.
Qed.

(** An alarm that goes off when memory is exhausted stops the kernel: the
    result of [kalloc] is used without a test. *)
Theorem alarm_out_of_memory i s p tf :
  k_procs s !! i = Some p → alarm_due p → k_tfs s !! p_trapframe p = Some tf → k_tfs s !! 0 = None →
  L_kmem ∉ k_held s → k_freelist s = 0 →
  alarm_tick i s = Panic "kerneltrap".
Proof.
  intros Hp Hdue Htf Hnull Hk Hfl.
  rewrite (alarm_tick_unfold i s p Hp), decide_True by done.
  unfold bind at 1, modp at 1, modify at 1. cbn [rbind]. unfold bind at 1, modp at 1, modify at 1. cbn [rbind].
  erewrite bind_step.
  2: { unfold kalloc_tf. erewrite bind_step by (by apply kalloc_empty). done. }
  unfold bind at 1, modp at 1, modify at 1. cbn [rbind].
  erewrite bind_step by (by apply gettf_ok). apply bind_panic. unfold settf, gettf. kstep. simpl.
  by rewrite Hnull.
Qed.

(** ** Time slices *)

Abbreviation pri p := (mq_curr_pri (p_mlfq_data p)).

Definition slice_over (p : proc) : Prop :=
  p_state p = RUNNING ∧ time_slice (pri p) ≤ mq_num_ticks (p_mlfq_data p).

#[local] Instance slice_over_dec p : Decision (slice_over p).
Proof. unfold slice_over. apply _. Defined.

Definition demoted (ticks : Z) (p : proc) : proc :=
  set_p_state RUNNABLE (enqueue (Z.min (pri p + 1) (MLFQ_NUM_QUEUES - 1)) ticks p).

Lemma slice_check_ok i s p :
  k_cur s = Some i → k_held s = [] → k_procs s !! i = Some p →
  slice_check 2 i s =
  if decide (slice_over p) then
    Swtch (set_k_held [L_proc i] (set_k_procs (alter (demoted (k_ticks s)) i (k_procs s)) s))
      (λ s', release (L_proc i) (set_k_sie (k_sie s) s'))
  else Ret tt s.
Proof.
  intros Hc Hh Hp. unfold slice_check. erewrite bind_step by (by apply getp_some).
  change (2 =? 2) with true. rewrite andb_true_l. unfold when.
  case_bool_decide as Hst; [|by rewrite decide_False by (by intros [? _])]. cbv zeta. case_test.
  2: { rewrite decide_False by (intros [_ ?]; lia). done. }
  rewrite decide_True by (by split). erewrite bind_step by apply remove_ok. erewrite bind_step by apply push_ok.
  cbn [k_procs k_ticks set_k_procs]. rewrite list_alter_twice.
  erewrite yield_ok; [|done..|simpl; by rewrite list_lookup_alter_eq, Hp].
  cbn [k_procs k_sie set_k_procs]. rewrite list_alter_twice.
  erewrite (alter_at _ (demoted (k_ticks s))); [|exact Hp|done]. reflexivity.
Qed.

(** A process that has used up the time slice of its queue is demoted at
    the next timer tick: it gives up the CPU, runnable, at the tail of the next
    lower queue (the lowest queue keeps its processes) with a fresh slice; the
    slices are 1, 3, 9 and 15 ticks.  A process that has not is left alone. *)
Theorem mlfq_demotion i s p :
  k_cur s = Some i → k_held s = [] → k_procs s !! i = Some p → p_state p = RUNNING → 0 ≤ pri p < 4 →
  let slice := nth (Z.to_nat (pri p)) [1; 3; 9; 15] 0 in
  if slice <=? mq_num_ticks (p_mlfq_data p) then
    ∃ s1 k q, slice_check 2 i s = Swtch s1 k ∧ k_held s1 = [L_proc i] ∧ k_procs s1 !! i = Some q ∧
      p_state q = RUNNABLE ∧ p_mlfq_data q = mk_mlfq (Z.min (pri p + 1) 3) 0 0 1 (k_ticks s)
  else slice_check 2 i s = Ret tt s.
Proof.
  intros Hc Hh Hp Hst Hpri slice.
  assert (time_slice (pri p) = slice) as Hts.
  { assert (pri p = 0 ∨ pri p = 1 ∨ pri p = 2 ∨ pri p = 3) as Hcase by lia. unfold slice.
    by destruct Hcase as [->|[->|[->| ->]]]. }
  rewrite (slice_check_ok i s p) by done. unfold slice_over. case_test.
  - rewrite decide_True by (split; [done|lia]). eexists _, _, _. split; [done|]. split; [done|].
    simpl. by rewrite list_lookup_alter_eq, Hp.
  - by rewrite decide_False by (intros [_ ?]; lia).
Qed.

Lemma higher_waiting_spec q ps :
  higher_waiting q ps = true ↔
  ∃ k p, ps !! k = Some p ∧ p_state p = RUNNABLE ∧ mq_in_queue (p_mlfq_data p) ≠ 0 ∧ 0 ≤ pri p < q.
Proof.
  unfold higher_waiting. rewrite existsb_exists. split.
  - intros (i & Hi & He). apply existsb_exists in He as (p & Hp & Ht).
    apply list_elem_of_In, elem_of_seqZ in Hi. apply list_elem_of_In, list_elem_of_lookup in Hp as [k Hk].
    unfold truthy in Ht. rewrite !andb_true_iff, bool_decide_eq_true, negb_true_iff, Z.eqb_neq, Z.eqb_eq in Ht.
    exists k, p. destruct Ht as [[? ?] <-]. split_and!; done || lia.
  - intros (k & p & Hk & Hst & Hq & Hr). exists (pri p).
    split; [apply list_elem_of_In, elem_of_seqZ; lia|]. apply existsb_exists. exists p.
    split; [apply list_elem_of_In; by eapply list_elem_of_lookup_2|]. unfold truthy.
    rewrite !andb_true_iff, bool_decide_eq_true, negb_true_iff, Z.eqb_neq, Z.eqb_eq. done.
Qed.

(** Pre-emption is exact: at a tick the running process gives up the CPU
    exactly when some runnable process waits in a strictly higher queue, and
    otherwise nothing changes. *)
Theorem mlfq_preemption i s p :
  k_cur s = Some i → k_held s = [] → k_procs s !! i = Some p →
  (preempt_check i s = Ret tt s ∧
   ∀ k q, k_procs s !! k = Some q → p_state q = RUNNABLE → mq_in_queue (p_mlfq_data q) ≠ 0 → 0 ≤ pri q →
     pri p ≤ pri q) ∨
  (∃ s1 kont, preempt_check i s = Swtch s1 kont ∧ k_held s1 = [L_proc i] ∧
     p_state <$> k_procs s1 !! i = Some RUNNABLE ∧
     ∃ k q, k_procs s !! k = Some q ∧ p_state q = RUNNABLE ∧ mq_in_queue (p_mlfq_data q) ≠ 0 ∧
       0 ≤ pri q < pri p).
Proof.
  intros Hc Hh Hp. unfold preempt_check. erewrite bind_step by (by apply getp_some).
  unfold bind at 1, gets. cbn [rbind]. unfold bind, gets. cbn [rbind].
  destruct (higher_waiting (pri p) (k_procs s)) eqn:E; unfold when.
  - right. eexists _, _. split; [by eapply yield_ok|]. split; [done|].
    split; [simpl; by rewrite list_lookup_alter_eq, Hp|]. by apply higher_waiting_spec.
  - left. split; [done|]. intros k q Hk Hst Hq Hpq. destruct (Z.le_gt_cases (pri p) (pri q)); [done|].
    exfalso. assert (higher_waiting (pri p) (k_procs s) = true); [|congruence].
    apply higher_waiting_spec. by exists k, q.
Qed.

(** The same check in [kerneltrap] does not ask whether the process is
    running: a process that has gone to sleep but is still recorded as the CPU's
    current one (the scheduler clears that record only after it released the
    process's lock) is made runnable, although nothing woke it. *)
Theorem preempt_wakes_sleeper i s p :
  k_cur s = Some i → k_held s = [] → k_procs s !! i = Some p → p_state p = SLEEPING →
  higher_waiting (pri p) (k_procs s) = true →
  ∃ s1 kont, preempt_check i s = Swtch s1 kont ∧ p_state <$> k_procs s1 !! i = Some RUNNABLE.
Proof.
  intros Hc Hh Hp Hst E. unfold preempt_check. erewrite bind_step by (by apply getp_some).
  unfold bind, gets. cbn [rbind]. rewrite E. eexists _, _. split; [by eapply yield_ok|].
  simpl. by rewrite list_lookup_alter_eq, Hp.
Qed.

(** ** Back to user space *)

(** [usertrapret] prepares exactly the return the trampoline expects: the
    trap vector is [uservec] in the trampoline page, the saved program counter
    goes to [sepc], [sret] will enter user mode with interrupts on, the process's
    page table is handed over, and the trapframe tells the next trap where the
    kernel's page table, stack, handler and hart are; the user's registers are
    untouched and interrupts are off until then. *)
Theorem usertrapret_correct s i p tf :
  in_syscall s i p tf → 0 ≤ csr_sstatus (k_csr s) < 2 ^ 64 →
  ∃ s', usertrapret s = Ret (MAKE_SATP (p_pagetable p)) s' ∧ k_sie s' = false ∧
    csr_stvec (k_csr s') = u64 (TRAMPOLINE + (uservec - trampoline)) ∧
    csr_sepc (k_csr s') = tf_epc tf ∧
    Z.testbit (csr_sstatus (k_csr s')) 8 = false ∧ Z.testbit (csr_sstatus (k_csr s')) 5 = true ∧
    k_tfs s' !! p_trapframe p =
      Some (set_tf_kernel_hartid (csr_hartid (k_csr s)) (set_tf_kernel_trap usertrap_addr
        (set_tf_kernel_sp (u64 (p_kstack p + PGSIZE)) (set_tf_kernel_satp (csr_satp (k_csr s)) tf)))).
Proof.
  intros [Hc Hp Ht] Hss. unfold usertrapret. erewrite bind_step by (by apply curproc_some).
  unfold intr_off, modcsr, r_csr. unfold bind at 1, modify at 1. cbn [rbind].
  unfold bind at 1, modify at 1. cbn [rbind]. erewrite bind_step by (by apply getp_some).
  unfold bind at 1, gets at 1. cbn [rbind]. erewrite bind_step by (by apply settf_ok).
  erewrite bind_step by (apply settf_ok; simpl; by rewrite lookup_insert_eq).
  erewrite bind_step by (apply settf_ok; simpl; by rewrite lookup_insert_eq).
  unfold bind at 1, gets at 1. cbn [rbind].
  erewrite bind_step by (apply settf_ok; simpl; by rewrite lookup_insert_eq).
  unfold bind at 1, modify at 1. cbn [rbind].
  erewrite bind_step by (apply gettf_ok; simpl; by rewrite lookup_insert_eq).
  eexists. split; [done|].
  cbn [k_sie k_csr k_tfs set_k_csr set_k_tfs set_k_sie csr_sstatus csr_sepc csr_stvec csr_hartid csr_satp
    set_csr_sepc set_csr_sstatus set_csr_stvec].
  split_and!; [done..| | |].
  - rewrite Z.lor_spec, Z.land_spec. change (Z.testbit (u64 (Z.lnot SSTATUS_SPP)) 8) with false.
    by rewrite andb_false_r.
  - rewrite Z.lor_spec. change (Z.testbit SSTATUS_SPIE 5) with true. apply orb_true_r.
  - rewrite !insert_insert_eq. by rewrite lookup_insert_eq.
Qed.

(** ** Round robin *)

Lemma devintr_other_hart s :
  csr_scause (k_csr s) = 0x8000000000000001 → csr_hartid (k_csr s) ≠ 0 →
  ∃ c, devintr s = Ret 2 (set_k_csr c s).
Proof.
  intros Hsc Hid. eexists. unfold devintr. unfold bind at 1, r_csr at 1, gets. cbn [rbind].
  rewrite Hsc. change (truthy _ && _)%bool with false. change (_ =? 0x8000000000000001) with true. cbn iota.
  unfold bind at 1, r_csr, gets. cbn [rbind]. rewrite (proj2 (Z.eqb_neq _ 0)) by done.
  unfold when. rewrite bind_ret_l. unfold modcsr. kstep. reflexivity.
Qed.

(** Under round robin a timer interrupt in user space makes the process give
    up the CPU twice: [usertrap] yields while it handles the interrupt, and when
    the process is resumed it yields again before it returns to user space. *)
Theorem rr_yields_twice s i p tf :
  policy = RR → in_syscall s i p tf → k_held s = [] → ¬ alarm_due p →
  csr_scause (k_csr s) = 0x8000000000000001 → csr_hartid (k_csr s) ≠ 0 →
  Z.land (csr_sstatus (k_csr s)) SSTATUS_SPP = 0 →
  ∃ s1 k1, usertrap s = Swtch s1 k1 ∧ k_cur s1 = Some i ∧
    ∀ s2 p2, k_cur s2 = Some i → k_held s2 = [L_proc i] → k_procs s2 !! i = Some p2 → p_killed p2 = 0 →
      ∃ s3 k3, k1 s2 = Swtch s3 k3 ∧ k_held s3 = [L_proc i] ∧ p_state <$> k_procs s3 !! i = Some RUNNABLE.
Proof.
  intros Hpol [Hc Hp Ht] Hh Hnd Hsc Hid Hspp. unfold usertrap.
  unfold bind at 1, r_csr at 1, gets at 1. cbn [rbind]. rewrite Hspp. change (truthy 0) with false. cbn iota.
  unfold bind at 1, modcsr at 1, modify at 1. cbn [rbind]. erewrite bind_step by (by apply curproc_some).
  erewrite bind_step by (by apply getp_some). unfold bind at 1, r_csr at 1, gets at 1. cbn [rbind].
  erewrite bind_step by (by apply settf_ok). unfold usertrap_cause.
  match goal with |- ∃ s1 k1, bind (bind _ _) _ ?st = _ ∧ _ => set (s0 := st) end.
  assert (csr_scause (k_csr s0) = 0x8000000000000001) as Hsc0 by exact Hsc.
  destruct (devintr_other_hart s0 Hsc0 Hid) as [c Hdev].
  set (s4 := set_k_csr c s0). set (p' := set_p_ticks_elapsed (s32 (p_ticks_elapsed p + 1)) p).
  set (s5 := set_k_procs (<[i := p']> (k_procs s4)) s4).
  assert (alarm_tick i s4 = Ret tt s5) as Hal.
  { rewrite (alarm_tick_unfold i s4 p) by exact Hp. by rewrite decide_False. }
  assert (k_procs s5 !! i = Some p') as Hp5.
  { simpl. apply list_lookup_insert_eq. by eapply lookup_lt_Some. }
  pose proof (yield_ok s5 i p' Hc Hh Hp5) as Hy.
  eexists _, _. split.
  { unfold bind at 1. unfold bind at 1, r_csr at 1, gets at 1. cbn [rbind]. rewrite Hsc0.
    change (_ =? 8) with false. cbn iota. unfold bind at 1. fold s4 in Hdev. rewrite Hdev. cbn [rbind].
    change (truthy 2) with true. change (2 =? 2) with true. cbn [when].
    unfold bind at 1. unfold bind at 1. rewrite Hal. cbn [rbind]. rewrite Hpol, Hy. cbn [rbind]. reflexivity. }
  split; [done|]. intros s2 p2 Hc2 Hh2 Hp2 Hk2. cbv beta.
  erewrite release_held by done. cbn [rbind]. unfold ret at 1. cbn [rbind].
  unfold bind at 1, exit_if_killed.
  erewrite (bind_step (killed i)); [|apply killed_ok; [apply not_elem_of_nil|exact Hp2]].
  rewrite Hk2. change (truthy 0) with false. unfold when at 1. unfold ret at 1. cbn [rbind].
  rewrite bool_decide_true by done. change (true && (2 =? 2))%bool with true. unfold when.
  eexists _, _. split; [eapply bind_swtch; eapply yield_ok; [exact Hc2|reflexivity|exact Hp2]|].
  split; [done|]. simpl. by rewrite list_lookup_alter_eq, Hp2.
Qed.

End trap.

(** ** The theorems at concrete states *)

#[local] Existing Instances build_rr null_fs null_sysfile.

(** A UART with nothing to read whose transmitter is free, and no other device. *)
Definition quiet_uart : Uart := {| lsr_tx_idle := λ _, true; rhr := λ _, [] |}.
Definition quiet_devices : Devices := {| plic_irq := λ _, 0; virtio_disk_intr := ret tt |}.
#[local] Existing Instances quiet_uart quiet_devices.

(** A timer interrupt on hart [id] in the state [s]. *)
Definition timer_csr (id : Z) : csrs := mk_csr 0x8000000000000001 0x1000 0 0 0 0 2 id.

Lemma devintr_timer_witness :
  devintr (set_k_csr (timer_csr 0) demo_procs) =
  Ret 2 (set_k_csr (set_csr_sip 0 (timer_csr 0)) (set_k_ticks 1 (set_k_procs
    (set_p_rtime 1 demo_p0 :: set_p_state RUNNABLE demo_p1 :: replicate 62 zero_proc) demo_procs))).
Proof.
  rewrite (devintr_timer (set_k_csr (timer_csr 0) demo_procs) eq_refl demo_procs_ok demo_procs_unlocked
    (not_elem_of_nil _)). reflexivity.
Defined.

(** A process whose alarm is due at the next tick. *)
Definition demo_alarmed : proc :=
  set_p_sigalarm_nticks 1 (set_p_sigalarm_handler 0x40 (set_p_trapframe 0x80200000 (set_p_state RUNNING zero_proc))).
Definition demo_alarm : kstate :=
  set_k_tfs {[0x80200000 := demo_regs]}
    (set_k_procs (demo_alarmed :: replicate 63 zero_proc) (set_k_cur (Some 0%nat) one_page)).

Lemma demo_alarm_due : alarm_due demo_alarmed.
Proof. by split_and!. Qed.

Lemma alarm_roundtrip_witness :
  ∃ s1 p1, alarm_tick 0 demo_alarm = Ret tt s1 ∧ k_procs s1 !! 0%nat = Some p1 ∧
    k_tfs s1 !! p_trapframe p1 = Some (set_tf_epc 0x40 demo_regs) ∧ p_sigalarm_running p1 = 1.
Proof.
  destruct (alarm_roundtrip (build_of_kend RR) 0 demo_alarm demo_alarmed demo_regs 0x80022000 []
    eq_refl demo_alarm_due eq_refl) as (s1 & p1 & H1 & H2 & H3 & H4 & _);
    [done|apply not_elem_of_nil|apply one_page_free|].
  exists s1, p1. exact (conj H1 (conj H2 (conj H3 H4))).
Defined.

Lemma alarm_out_of_memory_witness : alarm_tick 0 (set_k_freelist 0 demo_alarm) = Panic "kerneltrap".
Proof.
  apply (alarm_out_of_memory 0 (set_k_freelist 0 demo_alarm) demo_alarmed demo_regs eq_refl demo_alarm_due);
    [reflexivity|reflexivity|apply not_elem_of_nil|reflexivity].
Defined.

(** Process 0 runs in queue 1 and has used its three ticks; process 1 waits in
    queue 0. *)
Definition demo_q0 : proc := set_p_mlfq_data (mk_mlfq 1 0 3 1 5) (set_p_state RUNNING zero_proc).
Definition demo_q1 : proc := set_p_mlfq_data (mk_mlfq 0 0 0 1 6) (set_p_state RUNNABLE zero_proc).
Definition demo_queues (p : proc) : kstate :=
  set_k_ticks 8 (set_k_cur (Some 0%nat) (set_k_procs (p :: demo_q1 :: replicate 62 zero_proc) bss)).

Lemma mlfq_demotion_witness :
  ∃ s1 k q, slice_check 2 0 (demo_queues demo_q0) = Swtch s1 k ∧ k_held s1 = [L_proc 0] ∧
    k_procs s1 !! 0%nat = Some q ∧ p_state q = RUNNABLE ∧ p_mlfq_data q = mk_mlfq 2 0 0 1 8.
Proof. apply (mlfq_demotion 0 (demo_queues demo_q0) demo_q0); [reflexivity..|simpl; lia]. Defined.

Lemma mlfq_preemption_witness :
  ∃ s1 kont, preempt_check 0 (demo_queues demo_q0) = Swtch s1 kont ∧ k_held s1 = [L_proc 0].
Proof.
  destruct (mlfq_preemption 0 (demo_queues demo_q0) demo_q0 eq_refl eq_refl eq_refl)
    as [[_ H]|(s1 & kont & H1 & H2 & _)].
  - specialize (H 1%nat demo_q1 eq_refl eq_refl ltac:(done) ltac:(simpl; lia)). simpl in H. lia.
  - exists s1, kont. exact (conj H1 H2).
Defined.

Lemma preempt_wakes_sleeper_witness :
  ∃ s1 kont, preempt_check 0 (demo_queues (set_p_state SLEEPING demo_q0)) = Swtch s1 kont ∧
    p_state <$> k_procs s1 !! 0%nat = Some RUNNABLE.
Proof.
  apply (preempt_wakes_sleeper 0 (demo_queues (set_p_state SLEEPING demo_q0)) (set_p_state SLEEPING demo_q0));
    reflexivity.
Defined.

Lemma usertrapret_correct_witness :
  ∃ s', usertrapret demo_call = Ret (MAKE_SATP demo_pt) s' ∧ k_sie s' = false ∧ csr_sepc (k_csr s') = 0.
Proof.
  destruct (usertrapret_correct demo_call 0 demo_caller demo_regs demo_in_syscall) as (s' & H1 & H2 & _ & H3 & _);
    [done|]. exists s'. exact (conj H1 (conj H2 H3)).
Defined.

Lemma rr_yields_twice_witness :
  ∃ s1 k1, usertrap 0 0 0 (set_k_csr (timer_csr 1) demo_call) = Swtch s1 k1 ∧ k_cur s1 = Some 0%nat.
Proof.
  destruct (rr_yields_twice 0 0 0 (set_k_csr (timer_csr 1) demo_call) 0 demo_caller demo_regs)
    as (s1 & k1 & H1 & H2 & _); [reflexivity|by split|reflexivity| |reflexivity|done|reflexivity|].
  - intros (H & _). simpl in H. lia.
  - exists s1, k1. exact (conj H1 H2).
Defined.
