(* ===== verification/Main.v ===== *)
(** * Boot

    [kernel/start.c] in machine mode, then [kernel/main.c] and the initialisers it
    calls on the devices: [uartinit], [consoleinit], [plicinit], [plicinithart],
    [virtio_disk_init].

    Registers of devices are memory-mapped: a write is an entry of a log, and what a
    read returns is a function of the writes before it (the interface [Mmio]).
    [initlock] of a kernel lock has no effect on [k_held]. *)

From Stdlib Require Import ZArith Lia.
From S2P Require Import Prelude Machine Kernel Boot CString Printf Kalloc Vm ProcTable Sleeplock Virtio Bio Sched File ProcLife Fs FsData Syscall Exec Sysfile Trap.

(** ** Machine mode: registers *)

Record mcsrs := mk_mcsr {
  m_mstatus : Z;
  m_mepc : Z;
  m_satp : Z;
  m_medeleg : Z;
  m_mideleg : Z;
  m_sie : Z;
  m_pmpaddr0 : Z;
  m_pmpcfg0 : Z;
  m_mscratch : Z;
  m_mtvec : Z;
  m_mie : Z;
  m_tp : Z
}.

Definition w_mstatus v c := mk_mcsr v (m_mepc c) (m_satp c) (m_medeleg c) (m_mideleg c) (m_sie c) (m_pmpaddr0 c) (m_pmpcfg0 c) (m_mscratch c) (m_mtvec c) (m_mie c) (m_tp c).
Definition w_mepc v c := mk_mcsr (m_mstatus c) v (m_satp c) (m_medeleg c) (m_mideleg c) (m_sie c) (m_pmpaddr0 c) (m_pmpcfg0 c) (m_mscratch c) (m_mtvec c) (m_mie c) (m_tp c).
Definition w_satp v c := mk_mcsr (m_mstatus c) (m_mepc c) v (m_medeleg c) (m_mideleg c) (m_sie c) (m_pmpaddr0 c) (m_pmpcfg0 c) (m_mscratch c) (m_mtvec c) (m_mie c) (m_tp c).
Definition w_medeleg v c := mk_mcsr (m_mstatus c) (m_mepc c) (m_satp c) v (m_mideleg c) (m_sie c) (m_pmpaddr0 c) (m_pmpcfg0 c) (m_mscratch c) (m_mtvec c) (m_mie c) (m_tp c).
Definition w_mideleg v c := mk_mcsr (m_mstatus c) (m_mepc c) (m_satp c) (m_medeleg c) v (m_sie c) (m_pmpaddr0 c) (m_pmpcfg0 c) (m_mscratch c) (m_mtvec c) (m_mie c) (m_tp c).
Definition w_sie v c := mk_mcsr (m_mstatus c) (m_mepc c) (m_satp c) (m_medeleg c) (m_mideleg c) v (m_pmpaddr0 c) (m_pmpcfg0 c) (m_mscratch c) (m_mtvec c) (m_mie c) (m_tp c).
Definition w_pmpaddr0 v c := mk_mcsr (m_mstatus c) (m_mepc c) (m_satp c) (m_medeleg c) (m_mideleg c) (m_sie c) v (m_pmpcfg0 c) (m_mscratch c) (m_mtvec c) (m_mie c) (m_tp c).
Definition w_pmpcfg0 v c := mk_mcsr (m_mstatus c) (m_mepc c) (m_satp c) (m_medeleg c) (m_mideleg c) (m_sie c) (m_pmpaddr0 c) v (m_mscratch c) (m_mtvec c) (m_mie c) (m_tp c).
Definition w_mscratch v c := mk_mcsr (m_mstatus c) (m_mepc c) (m_satp c) (m_medeleg c) (m_mideleg c) (m_sie c) (m_pmpaddr0 c) (m_pmpcfg0 c) v (m_mtvec c) (m_mie c) (m_tp c).
Definition w_mtvec v c := mk_mcsr (m_mstatus c) (m_mepc c) (m_satp c) (m_medeleg c) (m_mideleg c) (m_sie c) (m_pmpaddr0 c) (m_pmpcfg0 c) (m_mscratch c) v (m_mie c) (m_tp c).
Definition w_mie v c := mk_mcsr (m_mstatus c) (m_mepc c) (m_satp c) (m_medeleg c) (m_mideleg c) (m_sie c) (m_pmpaddr0 c) (m_pmpcfg0 c) (m_mscratch c) (m_mtvec c) v (m_tp c).
Definition w_tp v c := mk_mcsr (m_mstatus c) (m_mepc c) (m_satp c) (m_medeleg c) (m_mideleg c) (m_sie c) (m_pmpaddr0 c) (m_pmpcfg0 c) (m_mscratch c) (m_mtvec c) (m_mie c) v.

Definition MSTATUS_MPP_MASK : Z := Z.shiftl 3 11.
Definition MSTATUS_MPP_S : Z := Z.shiftl 1 11.
Definition MSTATUS_MIE : Z := Z.shiftl 1 3.
Definition SIE_SEIE : Z := Z.shiftl 1 9.
Definition SIE_STIE : Z := Z.shiftl 1 5.
Definition SIE_SSIE : Z := Z.shiftl 1 1.
Definition MIE_MTIE : Z := Z.shiftl 1 7.

Definition CLINT : Z := 0x2000000.
Definition CLINT_MTIMECMP (hartid : Z) : Z := CLINT + 0x4000 + 8 * hartid.
Definition CLINT_MTIME : Z := CLINT + 0xBFF8.

(** ** start.c *)

(** The registers of the hart, [timer_scratch], and the writes to the CLINT. *)
Record machine := mk_machine {
  ma_csr : mcsrs;
  ma_scratch : list (list Z);
  ma_io : list (Z * Z)
}.

Definition set_csr (f : mcsrs → mcsrs) (m : machine) : machine := mk_machine (f (ma_csr m)) (ma_scratch m) (ma_io m).

Section start.
(** The hart, the time, and addresses the linker chose. *)
Variables hartid mtime main_addr timervec_addr timer_scratch_addr : Z.

Definition interval : Z := 1000000.

Definition timerinit (m : machine) : machine :=
  let id := Z.to_nat hartid in
  let m := mk_machine (ma_csr m) (ma_scratch m) (ma_io m ++ [(CLINT_MTIMECMP hartid, u64 (mtime + interval))]) in
  let m := mk_machine (ma_csr m) (alter (<[3%nat := CLINT_MTIMECMP hartid]>) id (ma_scratch m)) (ma_io m) in
  let m := mk_machine (ma_csr m) (alter (<[4%nat := interval]>) id (ma_scratch m)) (ma_io m) in
  let m := set_csr (w_mscratch (u64 (timer_scratch_addr + 40 * hartid))) m in
  let m := set_csr (w_mtvec timervec_addr) m in
  let m := set_csr (λ c, w_mstatus (Z.lor (m_mstatus c) MSTATUS_MIE) c) m in
  set_csr (λ c, w_mie (Z.lor (m_mie c) MIE_MTIE) c) m.

(** [start], up to [mret]. *)
Definition start (m : machine) : machine :=
  let x := m_mstatus (ma_csr m) in
  let x := Z.land x (u64 (Z.lnot MSTATUS_MPP_MASK)) in
  let x := Z.lor x MSTATUS_MPP_S in
  let m := set_csr (w_mstatus x) m in
  let m := set_csr (w_mepc main_addr) m in
  let m := set_csr (w_satp 0) m in
  let m := set_csr (w_medeleg 0xffff) m in
  let m := set_csr (w_mideleg 0xffff) m in
  let m := set_csr (λ c, w_sie (Z.lor (m_sie c) (Z.lor (Z.lor SIE_SEIE SIE_STIE) SIE_SSIE)) c) m in
  let m := set_csr (w_pmpaddr0 0x3fffffffffffff) m in
  let m := set_csr (w_pmpcfg0 0xf) m in
  let m := timerinit m in
  set_csr (w_tp (s32 hartid)) m.

End start.

(** [mret] goes to [mepc] with the privilege in the field MPP of [mstatus] (0 is
    user, 1 supervisor, 3 machine mode). *)
Definition mret_privilege (c : mcsrs) : Z := Z.shiftr (m_mstatus c) 11 mod 4.

(** ** Devices *)

(** What a read of the register at an address returns after a list of writes. *)
Class Mmio := { mmio_read : list (Z * Z) → Z → Z }.

(** The functions [devsw] points to. *)
Inductive devfun := dev_consoleread | dev_consolewrite.

Record boot := mk_boot {
  bo_k : kstate;
  bo_io : list (Z * Z);                                    (* writes to devices, in order *)
  bo_devsw : list (option devfun * option devfun);         (* devsw: read, write *)
  bo_locking : Z;                                          (* pr.locking *)
  bo_started : Z                                           (* started *)
}.

Inductive bres (A : Type) :=
| BRet (a : A) (b : boot)
| BPanic (msg : string)
| BStuck.
Arguments BRet {A} a b.
Arguments BPanic {A} msg.
Arguments BStuck {A}.

Definition BM (A : Type) := boot → bres A.

#[export] Instance BM_ret : MRet BM := λ A a b, BRet a b.
#[export] Instance BM_bind : MBind BM := λ A B f m b,
  match m b with
  | BRet a b' => f a b'
  | BPanic msg => BPanic msg
  | BStuck => BStuck
  end.

Definition bmod (f : boot → boot) : BM unit := λ b, BRet tt (f b).
Definition bpanic {A} (msg : string) : BM A := λ _, BPanic msg.

(** A function of the kernel; before the scheduler runs, none may give up the CPU. *)
Definition lift {A} (m : M A) : BM A := λ b,
  match m (bo_k b) with
  | Ret a s => BRet a (mk_boot s (bo_io b) (bo_devsw b) (bo_locking b) (bo_started b))
  | Panic msg => BPanic msg
  | _ => BStuck
  end.

Definition mmio_write (a v : Z) : BM unit :=
  bmod (λ b, mk_boot (bo_k b) (bo_io b ++ [(a, v)]) (bo_devsw b) (bo_locking b) (bo_started b)).

Section boot.
Context `{B : Build} `{F : FileSystem} `{R : Mmio}.

Definition mmio (a : Z) : BM Z := λ b, BRet (mmio_read (bo_io b) a) b.

(** *** uart.c *)

Definition IER : Z := 1.
Definition IER_RX_ENABLE : Z := Z.shiftl 1 0.
Definition IER_TX_ENABLE : Z := Z.shiftl 1 1.
Definition FCR : Z := 2.
Definition FCR_FIFO_ENABLE : Z := Z.shiftl 1 0.
Definition FCR_FIFO_CLEAR : Z := Z.shiftl 3 1.
Definition LCR : Z := 3.
Definition LCR_EIGHT_BITS : Z := Z.shiftl 3 0.
Definition LCR_BAUD_LATCH : Z := Z.shiftl 1 7.

Definition WriteReg (reg v : Z) : BM unit := mmio_write (UART0 + reg) (u8 v).

Definition uartinit : BM unit :=
  _ ← WriteReg IER 0x00;
  _ ← WriteReg LCR LCR_BAUD_LATCH;
  _ ← WriteReg 0 0x03;
  _ ← WriteReg 1 0x00;
  _ ← WriteReg LCR LCR_EIGHT_BITS;
  _ ← WriteReg FCR (Z.lor FCR_FIFO_ENABLE FCR_FIFO_CLEAR);
  WriteReg IER (Z.lor IER_TX_ENABLE IER_RX_ENABLE).

(** *** console.c, printf.c, file.c, trap.c *)

Definition consoleinit : BM unit :=
  _ ← uartinit;
  _ ← bmod (λ b, mk_boot (bo_k b) (bo_io b) (alter (λ d, (Some dev_consoleread, d.2)) (Z.to_nat CONSOLE) (bo_devsw b)) (bo_locking b) (bo_started b));
  bmod (λ b, mk_boot (bo_k b) (bo_io b) (alter (λ d, (d.1, Some dev_consolewrite)) (Z.to_nat CONSOLE) (bo_devsw b)) (bo_locking b) (bo_started b)).

Definition printfinit : BM unit := bmod (λ b, mk_boot (bo_k b) (bo_io b) (bo_devsw b) 1 (bo_started b)).
Definition trapinit : BM unit := mret tt.
Definition fileinit : BM unit := mret tt.

(** *** plic.c *)

Definition PLIC_SENABLE (hart : Z) : Z := PLIC + 0x2080 + hart * 0x100.
Definition PLIC_SPRIORITY (hart : Z) : Z := PLIC + 0x201000 + hart * 0x2000.

Definition plicinit : BM unit :=
  _ ← mmio_write (PLIC + UART0_IRQ * 4) 1;
  mmio_write (PLIC + VIRTIO0_IRQ * 4) 1.

Definition plicinithart (hart : Z) : BM unit :=
  _ ← mmio_write (PLIC_SENABLE hart) (Z.lor (Z.shiftl 1 UART0_IRQ) (Z.shiftl 1 VIRTIO0_IRQ));
  mmio_write (PLIC_SPRIORITY hart) 0.

(** *** virtio_disk.c *)

Definition VIRTIO_MMIO_MAGIC_VALUE : Z := 0x000.
Definition VIRTIO_MMIO_VERSION : Z := 0x004.
Definition VIRTIO_MMIO_DEVICE_ID : Z := 0x008.
Definition VIRTIO_MMIO_VENDOR_ID : Z := 0x00c.
Definition VIRTIO_MMIO_DEVICE_FEATURES : Z := 0x010.
Definition VIRTIO_MMIO_DRIVER_FEATURES : Z := 0x020.
Definition VIRTIO_MMIO_QUEUE_SEL : Z := 0x030.
Definition VIRTIO_MMIO_QUEUE_NUM_MAX : Z := 0x034.
Definition VIRTIO_MMIO_QUEUE_NUM : Z := 0x038.
Definition VIRTIO_MMIO_QUEUE_READY : Z := 0x044.
Definition VIRTIO_MMIO_STATUS : Z := 0x070.
Definition VIRTIO_MMIO_QUEUE_DESC_LOW : Z := 0x080.
Definition VIRTIO_MMIO_QUEUE_DESC_HIGH : Z := 0x084.
Definition VIRTIO_MMIO_DRIVER_DESC_LOW : Z := 0x090.
Definition VIRTIO_MMIO_DRIVER_DESC_HIGH : Z := 0x094.
Definition VIRTIO_MMIO_DEVICE_DESC_LOW : Z := 0x0a0.
Definition VIRTIO_MMIO_DEVICE_DESC_HIGH : Z := 0x0a4.

Definition VIRTIO_CONFIG_S_ACKNOWLEDGE : Z := 1.
Definition VIRTIO_CONFIG_S_DRIVER : Z := 2.
Definition VIRTIO_CONFIG_S_DRIVER_OK : Z := 4.
Definition VIRTIO_CONFIG_S_FEATURES_OK : Z := 8.

Definition VIRTIO_BLK_F_RO : Z := 5.
Definition VIRTIO_BLK_F_SCSI : Z := 7.
Definition VIRTIO_BLK_F_CONFIG_WCE : Z := 11.
Definition VIRTIO_BLK_F_MQ : Z := 12.
Definition VIRTIO_F_ANY_LAYOUT : Z := 27.
Definition VIRTIO_RING_F_INDIRECT_DESC : Z := 28.
Definition VIRTIO_RING_F_EVENT_IDX : Z := 29.

(** [*R(r)] and [*R(r) = v]. *)
Definition readR (r : Z) : BM Z := v ← mmio (VIRTIO0 + r); mret (u32 v).
Definition writeR (r v : Z) : BM unit := mmio_write (VIRTIO0 + r) (u32 v).

(** The features the driver refuses, one statement each. *)
Definition refused : list Z :=
  [VIRTIO_BLK_F_RO; VIRTIO_BLK_F_SCSI; VIRTIO_BLK_F_CONFIG_WCE; VIRTIO_BLK_F_MQ; VIRTIO_F_ANY_LAYOUT;
   VIRTIO_RING_F_EVENT_IDX; VIRTIO_RING_F_INDIRECT_DESC].

Definition driver_features (features : Z) : Z :=
  foldl (λ f bit, Z.land f (u64 (Z.lnot (Z.shiftl 1 bit)))) features refused.

(** The [||] of the identification registers reads them in order. *)
Fixpoint mismatch (l : list (Z * Z)) : BM bool :=
  match l with
  | [] => mret false
  | (r, v) :: l' => x ← readR r; if negb (x =? v) then mret true else mismatch l'
  end.

Definition virtio_ids : list (Z * Z) :=
  [(VIRTIO_MMIO_MAGIC_VALUE, 0x74726976); (VIRTIO_MMIO_VERSION, 2); (VIRTIO_MMIO_DEVICE_ID, 2); (VIRTIO_MMIO_VENDOR_ID, 0x554d4551)].

(** [disk.desc], [disk.avail], [disk.used] and the registers that hold them. *)
Definition virtio_queue : BM unit :=
  desc ← lift kalloc;
  avail ← lift kalloc;
  used ← lift kalloc;
  if (negb (truthy desc) || negb (truthy avail) || negb (truthy used))%bool then bpanic "virtio disk kalloc"
  else
    _ ← lift (kmemset desc 0 PGSIZE);
    _ ← lift (kmemset avail 0 PGSIZE);
    _ ← lift (kmemset used 0 PGSIZE);
    _ ← lift (modvd (λ v, set_vd_desc (replicate NUM (mk_desc D_null 0 0 0))
                (set_vd_avail_ring (replicate NUM 0) (set_vd_avail_idx 0 (set_vd_used_ring (replicate NUM 0) (set_vd_used_at 0 v))))));
    _ ← writeR VIRTIO_MMIO_QUEUE_NUM (Z.of_nat NUM);
    _ ← writeR VIRTIO_MMIO_QUEUE_DESC_LOW desc;
    _ ← writeR VIRTIO_MMIO_QUEUE_DESC_HIGH (Z.shiftr desc 32);
    _ ← writeR VIRTIO_MMIO_DRIVER_DESC_LOW avail;
    _ ← writeR VIRTIO_MMIO_DRIVER_DESC_HIGH (Z.shiftr avail 32);
    _ ← writeR VIRTIO_MMIO_DEVICE_DESC_LOW used;
    writeR VIRTIO_MMIO_DEVICE_DESC_HIGH (Z.shiftr used 32).

Definition virtio_disk_init : BM unit :=
  bad ← mismatch virtio_ids;
  if (bad : bool) then bpanic "could not find virtio disk"
  else
    let status := 0 in
    _ ← writeR VIRTIO_MMIO_STATUS status;
    let status := Z.lor status VIRTIO_CONFIG_S_ACKNOWLEDGE in
    _ ← writeR VIRTIO_MMIO_STATUS status;
    let status := Z.lor status VIRTIO_CONFIG_S_DRIVER in
    _ ← writeR VIRTIO_MMIO_STATUS status;
    features ← readR VIRTIO_MMIO_DEVICE_FEATURES;
    _ ← writeR VIRTIO_MMIO_DRIVER_FEATURES (driver_features features);
    let status := Z.lor status VIRTIO_CONFIG_S_FEATURES_OK in
    _ ← writeR VIRTIO_MMIO_STATUS status;
    status ← readR VIRTIO_MMIO_STATUS;
    if negb (truthy (Z.land status VIRTIO_CONFIG_S_FEATURES_OK)) then bpanic "virtio disk FEATURES_OK unset"
    else
      _ ← writeR VIRTIO_MMIO_QUEUE_SEL 0;
      ready ← readR VIRTIO_MMIO_QUEUE_READY;
      if truthy ready then bpanic "virtio disk should not be ready"
      else
        max ← readR VIRTIO_MMIO_QUEUE_NUM_MAX;
        if max =? 0 then bpanic "virtio disk has no queue 0"
        else if max <? Z.of_nat NUM then bpanic "virtio disk max queue too short"
        else
          _ ← virtio_queue;
          _ ← writeR VIRTIO_MMIO_QUEUE_READY 0x1;
          _ ← lift (for_each (seq 0 NUM) (λ i, modvd (λ v, set_vd_free (<[i := 1]> (vd_free v)) v)));
          writeR VIRTIO_MMIO_STATUS (Z.lor status VIRTIO_CONFIG_S_DRIVER_OK).

(** *** main.c *)

(** The branch of hart 0. *)
Definition main_first : BM unit :=
  _ ← consoleinit;
  _ ← printfinit;
  _ ← lift (printf (String (Ascii.ascii_of_nat 10) EmptyString) []);
  _ ← lift (printf (String.append "xv6 kernel is booting" (String (Ascii.ascii_of_nat 10) EmptyString)) []);
  _ ← lift (printf (String (Ascii.ascii_of_nat 10) EmptyString) []);
  _ ← lift kinit;
  _ ← lift kvminit;
  _ ← lift kvminithart;
  _ ← lift procinit;
  _ ← trapinit;
  _ ← lift trapinithart;
  _ ← plicinit;
  _ ← plicinithart 0;
  _ ← lift binit;
  _ ← lift iinit;
  _ ← fileinit;
  _ ← virtio_disk_init;
  _ ← lift userinit;
  _ ← lift readcountinit;
  bmod (λ b, mk_boot (bo_k b) (bo_io b) (bo_devsw b) (bo_locking b) 1).

(** The other harts: [seen] are the values of [started] the loop reads. *)
Fixpoint wait_started (seen : list Z) : BM unit :=
  match seen with
  | [] => λ _, BStuck
  | v :: seen' => if v =? 0 then wait_started seen' else mret tt
  end.

Definition main_other (hart : Z) (seen : list Z) : BM unit :=
  _ ← wait_started seen;
  _ ← lift (printf (String.append "hart %d starting" (String (Ascii.ascii_of_nat 10) EmptyString)) [A_int hart]);
  _ ← lift kvminithart;
  _ ← lift trapinithart;
  plicinithart hart.

(** [main], with [n] rounds of the scheduler. *)
Definition main (hart : Z) (seen : list Z) (n : nat) (b : boot) : res unit :=
  match (if hart =? 0 then main_first else main_other hart seen) b with
  | BRet _ b' => scheduler n (bo_k b')
  | BPanic msg => Panic msg
  | BStuck => Stuck
  end.

(** ** What the driver tells the device *)

Abbreviation VSTATUS := (VIRTIO0 + VIRTIO_MMIO_STATUS).

Definition id_ok (io : list (Z * Z)) : bool := forallb (λ p, u32 (mmio_read io (VIRTIO0 + p.1)) =? p.2) virtio_ids.

(** The writes up to the point where the device has accepted the features, and up to
    the selection of queue 0. *)
Definition reset_writes (io : list (Z * Z)) : list (Z * Z) := io ++ [(VSTATUS, 0); (VSTATUS, 1); (VSTATUS, 3)].
Definition offered (io : list (Z * Z)) : Z := u32 (mmio_read (reset_writes io) (VIRTIO0 + VIRTIO_MMIO_DEVICE_FEATURES)).
Definition feature_writes (io : list (Z * Z)) : list (Z * Z) :=
  reset_writes io ++ [(VIRTIO0 + VIRTIO_MMIO_DRIVER_FEATURES, u32 (driver_features (offered io))); (VSTATUS, 11)].
Definition accepted (io : list (Z * Z)) : Z := u32 (mmio_read (feature_writes io) VSTATUS).
Definition select_writes (io : list (Z * Z)) : list (Z * Z) := feature_writes io ++ [(VIRTIO0 + VIRTIO_MMIO_QUEUE_SEL, 0)].
Definition queue_busy (io : list (Z * Z)) : Z := u32 (mmio_read (select_writes io) (VIRTIO0 + VIRTIO_MMIO_QUEUE_READY)).
Definition queue_max (io : list (Z * Z)) : Z := u32 (mmio_read (select_writes io) (VIRTIO0 + VIRTIO_MMIO_QUEUE_NUM_MAX)).

Definition queue_writes (desc avail used : Z) : list (Z * Z) :=
  [(VIRTIO0 + VIRTIO_MMIO_QUEUE_NUM, Z.of_nat NUM);
   (VIRTIO0 + VIRTIO_MMIO_QUEUE_DESC_LOW, u32 desc); (VIRTIO0 + VIRTIO_MMIO_QUEUE_DESC_HIGH, u32 (Z.shiftr desc 32));
   (VIRTIO0 + VIRTIO_MMIO_DRIVER_DESC_LOW, u32 avail); (VIRTIO0 + VIRTIO_MMIO_DRIVER_DESC_HIGH, u32 (Z.shiftr avail 32));
   (VIRTIO0 + VIRTIO_MMIO_DEVICE_DESC_LOW, u32 used); (VIRTIO0 + VIRTIO_MMIO_DEVICE_DESC_HIGH, u32 (Z.shiftr used 32))].

(** Three pages are zero and belong to the device; the rings are empty, every
    descriptor is free. *)
Record queue_ready (s : kstate) (pages rest : list Z) (s' : kstate) : Prop := {
  qr_free : free_pages s' rest;
  qr_ok : Forall page_ok pages;
  qr_zero pa a : pa ∈ pages → in_page pa a → k_mem s' a = 0;
  qr_keep a : (∀ pa, pa ∈ pages → ¬ in_page pa a) → k_mem s' a = k_mem s a
}.

Definition empty_rings (v : vdisk) : vdisk :=
  set_vd_desc (replicate NUM (mk_desc D_null 0 0 0))
    (set_vd_avail_ring (replicate NUM 0) (set_vd_avail_idx 0 (set_vd_used_ring (replicate NUM 0) (set_vd_used_at 0 v)))).

(** ** Proofs *)

Hypothesis kend_range : KERNBASE ≤ kend ≤ PHYSTOP.

Lemma bind_ret {A C} (m : BM A) (f : A → BM C) b a b' : m b = BRet a b' → mbind f m b = f a b'.
Proof. intros H. unfold mbind, BM_bind. by rewrite H. Qed.

Lemma readR_run r b : readR r b = BRet (u32 (mmio_read (bo_io b) (VIRTIO0 + r))) b.
Proof. done. Qed.

Lemma lift_run {A} (m : M A) b a s : m (bo_k b) = Ret a s → lift m b = BRet a (mk_boot s (bo_io b) (bo_devsw b) (bo_locking b) (bo_started b)).
Proof. intros H. unfold lift. by rewrite H. Qed.

Lemma mismatch_run l b : mismatch l b = BRet (negb (forallb (λ p, u32 (mmio_read (bo_io b) (VIRTIO0 + p.1)) =? p.2) l)) b.
Proof.
  induction l as [|[r v] l IH]; [done|]. cbn [mismatch]. rewrite (bind_ret _ _ _ _ _ (readR_run r b)). simpl.
  destruct (_ =? v); simpl; [exact IH|done].
Qed.

(** Three allocations: the three pages, or one of them is null. *)
Lemma three_pages s l :
  L_kmem ∉ k_held s → free_pages s l →
  ∃ p1 p2 p3 s1 s2 s3 rest, kalloc s = Ret p1 s1 ∧ kalloc s1 = Ret p2 s2 ∧ kalloc s2 = Ret p3 s3 ∧
    ((length l < 3)%nat ∧ (truthy p1 && truthy p2 && truthy p3)%bool = false ∨
     l = p1 :: p2 :: p3 :: rest ∧ (truthy p1 && truthy p2 && truthy p3)%bool = true ∧ free_pages s3 rest ∧
     Forall page_ok [p1; p2; p3] ∧ k_vd s3 = k_vd s ∧
     ∀ a, ¬ in_page p1 a → ¬ in_page p2 a → ¬ in_page p3 a → k_mem s3 a = k_mem s a).
Proof.
  assert (∀ pa, page_ok pa → truthy pa = true) as Hpos.
  { intros pa Hok. apply page_ok_pos in Hok; [|done]. unfold truthy. apply negb_true_iff, Z.eqb_neq. lia. }
  assert (∀ s, L_kmem ∉ k_held s → free_pages s [] → kalloc s = Ret 0 s) as Hempty.
  { intros s0 H0 [Hf _]. by apply kalloc_empty. }
  assert (∀ s pa (l : list Z) s', s' = set_k_mem (memset (k_mem s) pa 5 PGSIZE) (set_k_freelist (ld64 (k_mem s) pa) s) →
    k_held s' = k_held s ∧ k_vd s' = k_vd s ∧ ∀ a, ¬ in_page pa a → k_mem s' a = k_mem s a) as Hfr.
  { intros s0 pa _ s' ->. split_and!; [done|done|]. intros a Ha. simpl. apply memset_out; [|done]. unfold in_page in Ha. lia. }
  intros Hl Hf. destruct l as [|p1 l].
  { exists 0, 0, 0, s, s, s, []. rewrite Hempty by done. split_and!; try done. left. split; [simpl; lia|done]. }
  destruct (kalloc_pop kend_range s p1 l Hl Hf) as (s1 & K1 & F1 & O1 & _ & _ & E1). destruct (Hfr _ _ [] _ E1) as (H1 & V1 & M1).
  destruct l as [|p2 l].
  { exists p1, 0, 0, s1, s1, s1, []. rewrite (Hempty s1) by (done || by rewrite H1). split_and!; try done.
    left. split; [simpl; lia|]. by destruct (truthy p1). }
  destruct (kalloc_pop kend_range s1 p2 l ltac:(by rewrite H1) F1) as (s2 & K2 & F2 & O2 & _ & _ & E2). destruct (Hfr _ _ [] _ E2) as (H2 & V2 & M2).
  destruct l as [|p3 l].
  { exists p1, p2, 0, s1, s2, s2, []. rewrite (Hempty s2) by (done || by rewrite H2, H1). split_and!; try done.
    left. split; [simpl; lia|]. by destruct (truthy p1), (truthy p2). }
  destruct (kalloc_pop kend_range s2 p3 l ltac:(by rewrite H2, H1) F2) as (s3 & K3 & F3 & O3 & _ & _ & E3). destruct (Hfr _ _ [] _ E3) as (H3 & V3 & M3).
  exists p1, p2, p3, s1, s2, s3, l. split_and!; try done. right. split_and!; try done.
  - by rewrite !Hpos.
  - do 3 (apply Forall_cons; split; [done|]). constructor.
  - congruence.
  - intros a A1 A2 A3. by rewrite M3, M2, M1.
Qed.

(** The three pages after they were zeroed. *)
Lemma zeroed_pages s s3 l p1 p2 p3 rest :
  free_pages s l → l = p1 :: p2 :: p3 :: rest → free_pages s3 rest → Forall page_ok [p1; p2; p3] →
  (∀ a, ¬ in_page p1 a → ¬ in_page p2 a → ¬ in_page p3 a → k_mem s3 a = k_mem s a) → ∀ v,
  queue_ready s [p1; p2; p3] rest
    (set_k_vd v (set_k_mem (memset (memset (memset (k_mem s3) p1 0 PGSIZE) p2 0 PGSIZE) p3 0 PGSIZE) s3)).
Proof.
  intros [Hon Hnd] -> [Hon3 Hnd3] Hok Hkeep v. set (m := memset _ _ _ _).
  assert (∀ a, m a = if decide (in_page p1 a ∨ in_page p2 a ∨ in_page p3 a) then 0 else k_mem s3 a) as Hm.
  { intros a. unfold m, in_page, PGSIZE. rewrite !memset_spec. change (u8 0) with 0. change (Z.max 0 4096) with 4096.
    repeat case_test; case_decide; try done; lia. }
  split; simpl.
  - split; [|done]. eapply on_list_ext; [|exact Hon3]. intros pa a Hin Ha. rewrite Hm, decide_False; [done|].
    pose proof (on_list_ok _ _ _ Hon3) as Hall. rewrite Forall_forall in Hall. specialize (Hall pa Hin).
    assert (∀ p, p ∈ [p1; p2; p3] → ¬ in_page p a) as Hno.
    { intros p Hp. eapply (page_ok_disjoint pa); [done|by eapply Forall_forall| |done].
      intros ->. change (NoDup ([p1; p2; p3] ++ rest)) in Hnd. apply NoDup_app in Hnd as (_ & Hd & _). by apply (Hd p). }
    intros [H|[H|H]]; eapply Hno; try exact H; set_solver.
  - done.
  - intros pa a Hin Ha. rewrite Hm, decide_True; [done|]. set_solver.
  - intros a Ha. rewrite Hm, decide_False; [apply Hkeep; apply Ha; set_solver|].
    intros [H|[H|H]]; eapply Ha; try exact H; set_solver.
Qed.

Lemma virtio_queue_run b l :
  L_kmem ∉ k_held (bo_k b) → free_pages (bo_k b) l →
  (length l < 3)%nat ∧ virtio_queue b = BPanic "virtio disk kalloc" ∨
  ∃ p1 p2 p3 rest s', l = p1 :: p2 :: p3 :: rest ∧
    virtio_queue b = BRet tt (mk_boot s' (bo_io b ++ queue_writes p1 p2 p3) (bo_devsw b) (bo_locking b) (bo_started b)) ∧
    queue_ready (bo_k b) [p1; p2; p3] rest s' ∧ k_vd s' = empty_rings (k_vd (bo_k b)).
Proof.
  intros Hl Hf. destruct (three_pages _ _ Hl Hf) as (p1 & p2 & p3 & s1 & s2 & s3 & rest & K1 & K2 & K3 & HC).
  assert (virtio_queue b = (if negb (truthy p1 && truthy p2 && truthy p3) then λ _, BPanic "virtio disk kalloc" else
    λ b3, BRet tt (mk_boot (set_k_vd (empty_rings (k_vd s3)) (set_k_mem (memset (memset (memset (k_mem s3) p1 0 PGSIZE) p2 0 PGSIZE) p3 0 PGSIZE) s3))
      (bo_io b3 ++ queue_writes p1 p2 p3) (bo_devsw b3) (bo_locking b3) (bo_started b3))) b) as ->.
  { unfold virtio_queue. rewrite (bind_ret _ _ _ _ _ (lift_run _ _ _ _ K1)).
    rewrite (bind_ret _ _ _ _ _ (lift_run _ (mk_boot s1 _ _ _ _) _ _ K2)). rewrite (bind_ret _ _ _ _ _ (lift_run _ (mk_boot s2 _ _ _ _) _ _ K3)).
    destruct (truthy p1), (truthy p2), (truthy p3); try done. cbv [negb andb orb].
    cbv [lift modvd kmemset modify writeR mmio_write bmod mbind BM_bind bo_k bo_io bo_devsw bo_locking bo_started].
    rewrite <- !app_assoc. reflexivity. }
  destruct HC as [(H3 & E)|(-> & E & Hf3 & Hok & Hvd & Hkeep)]; rewrite E; [by left|right].
  exists p1, p2, p3, rest. eexists. split_and!; [done|reflexivity| |].
  - by eapply zeroed_pages.
  - simpl. by rewrite Hvd.
Qed.

Lemma driver_features_spec f n :
  0 ≤ n < 32 → Z.testbit (u32 (driver_features f)) n = (Z.testbit f n && negb (bool_decide (n ∈ refused)))%bool.
Proof.
  intros Hn. unfold u32. change 4294967296 with (2 ^ 32). rewrite Z.mod_pow2_bits_low by lia.
  assert (∀ bit, 0 ≤ bit < 32 → Z.testbit (u64 (Z.lnot (Z.shiftl 1 bit))) n = negb (bit =? n)) as Hb.
  { intros bit Hbit. unfold u64. change 18446744073709551616 with (2 ^ 64). rewrite Z.mod_pow2_bits_low by lia.
    rewrite Z.lnot_spec, Z.shiftl_1_l, Z.pow2_bits_eqb by lia. done. }
  assert (∀ l f, Forall (λ bit, 0 ≤ bit < 32) l →
    Z.testbit (foldl (λ f bit, Z.land f (u64 (Z.lnot (Z.shiftl 1 bit)))) f l) n = (Z.testbit f n && negb (bool_decide (n ∈ l)))%bool) as H.
  { intros l. induction l as [|bit l IH]; intros g Hl; simpl.
    - by rewrite andb_true_r.
    - apply Forall_cons in Hl as [Hbit Hl]. rewrite IH, Z.land_spec, Hb by done. destruct (Z.testbit g n); simpl; [|done].
      destruct (Z.eqb_spec bit n) as [->|Hne]; simpl.
      + by rewrite bool_decide_eq_true_2 by set_solver.
      + f_equal. apply bool_decide_ext. set_solver. }
  apply H. unfold refused. repeat (apply Forall_cons; split; [vm_compute; split; congruence|]). constructor.
Qed.

Lemma truthy_bit x k : 0 ≤ k → truthy (Z.land x (2 ^ k)) = Z.testbit x k.
Proof.
  intros Hk. unfold truthy. destruct (Z.testbit x k) eqn:E.
  - apply negb_true_iff, Z.eqb_neq. intros H. apply (f_equal (λ y, Z.testbit y k)) in H.
    by rewrite Z.land_spec, E, Z.pow2_bits_true, Z.bits_0 in H.
  - apply negb_false_iff, Z.eqb_eq, Z.bits_inj'. intros j Hj. rewrite Z.land_spec, Z.bits_0, Z.pow2_bits_eqb by done.
    destruct (Z.eqb_spec k j) as [<-|]; [by rewrite E|apply andb_false_r].
Qed.

(** What [virtio_disk_init] does before the queue: it resets the device and
    negotiates, or stops. *)
Definition negotiated (io : list (Z * Z)) : option string :=
  if negb (id_ok io) then Some "could not find virtio disk"%string
  else if negb (Z.testbit (accepted io) 3) then Some "virtio disk FEATURES_OK unset"%string
  else if truthy (queue_busy io) then Some "virtio disk should not be ready"%string
  else if queue_max io =? 0 then Some "virtio disk has no queue 0"%string
  else if queue_max io <? 8 then Some "virtio disk max queue too short"%string
  else None.

Definition with_io (io : list (Z * Z)) (b : boot) : boot := mk_boot (bo_k b) io (bo_devsw b) (bo_locking b) (bo_started b).

(** The end: the queue is enabled, the descriptors are free, the driver is ready. *)
Definition finish (status : Z) : BM unit :=
  _ ← writeR VIRTIO_MMIO_QUEUE_READY 0x1;
  _ ← lift (for_each (seq 0 NUM) (λ i, modvd (λ v, set_vd_free (<[i := 1]> (vd_free v)) v)));
  writeR VIRTIO_MMIO_STATUS (Z.lor status VIRTIO_CONFIG_S_DRIVER_OK).

Lemma writeR_io r v io b : writeR r v (with_io io b) = BRet tt (with_io (io ++ [(VIRTIO0 + r, u32 v)]) b).
Proof. done. Qed.

Lemma readR_io r io b : readR r (with_io io b) = BRet (u32 (mmio_read io (VIRTIO0 + r))) (with_io io b).
Proof. done. Qed.

Lemma with_io_id b : with_io (bo_io b) b = b.
Proof. by destruct b. Qed.

Ltac bstep := first [rewrite (bind_ret _ _ _ _ _ (writeR_io _ _ _ _)); rewrite <- ?app_assoc; cbn [app]
                    | rewrite (bind_ret _ _ _ _ _ (readR_io _ _ _))].

Lemma virtio_negotiate b :
  virtio_disk_init b =
  match negotiated (bo_io b) with
  | Some msg => BPanic msg
  | None => (_ ← virtio_queue; finish (accepted (bo_io b))) (with_io (select_writes (bo_io b)) b)
  end.
Proof.
  rewrite <- (with_io_id b) at 1. unfold virtio_disk_init, negotiated.
  rewrite (bind_ret _ _ _ _ _ (mismatch_run _ _)). change (bo_io (with_io ?io b)) with io. fold (id_ok (bo_io b)).
  destruct (id_ok (bo_io b)); [|done]. cbv zeta. cbn [negb].
  unfold queue_busy, queue_max, accepted, select_writes, feature_writes, offered, reset_writes. rewrite <- !app_assoc. cbn [app].
  do 7 bstep. rewrite <- (truthy_bit _ 3) by done. change (2 ^ 3) with VIRTIO_CONFIG_S_FEATURES_OK.
  destruct (truthy (Z.land _ VIRTIO_CONFIG_S_FEATURES_OK)); [|done]. cbn [negb]. do 2 bstep.
  destruct (truthy _); [done|]. bstep. destruct (_ =? 0); [done|]. change (Z.of_nat NUM) with 8. destruct (_ <? 8); done.
Qed.

Lemma free_all (s : kstate) : length (vd_free (k_vd s)) = NUM →
  for_each (seq 0 NUM) (λ i, modvd (λ v, set_vd_free (<[i := 1]> (vd_free v)) v)) s =
  Ret tt (set_k_vd (set_vd_free (replicate NUM 1) (k_vd s)) s).
Proof.
  intros H. destruct s as [? ? ? ? ? ? ? ? ? ? ? ? ? ? ? ? ? ? ? ? ? ? ? v]. destruct v as [? ? ? ? ? fr ? ? ?]. simpl in H.
  do 8 (destruct fr as [|? fr]; [discriminate H|]). destruct fr; [|discriminate H]. reflexivity.
Qed.

Lemma finish_run status io b :
  length (vd_free (k_vd (bo_k b))) = NUM →
  finish status (with_io io b) =
  BRet tt (with_io (io ++ [(VIRTIO0 + VIRTIO_MMIO_QUEUE_READY, 1); (VSTATUS, u32 (Z.lor status VIRTIO_CONFIG_S_DRIVER_OK))])
    (mk_boot (set_k_vd (set_vd_free (replicate NUM 1) (k_vd (bo_k b))) (bo_k b)) (bo_io b) (bo_devsw b) (bo_locking b) (bo_started b))).
Proof.
  intros H. unfold finish. bstep. rewrite (bind_ret _ _ _ _ _ (lift_run _ (with_io _ b) _ _ (free_all _ H))).
  unfold writeR, mmio_write, bmod, with_io. cbn [bo_k bo_io bo_devsw bo_locking bo_started]. by rewrite <- app_assoc.
Qed.

(** ** Theorems *)

(** [start] leaves machine mode for [main] in supervisor mode with paging off: all
    traps are delegated, supervisor interrupts of the three kinds are enabled and no
    other bit of [sie], [mie] or [mstatus] changes; the timer of the hart fires after
    the interval into [timervec], which finds the compare register and the interval in
    the hart's row of [timer_scratch]; [tp] holds the hart's number. *)
Theorem start_correct hartid mtime main_addr timervec_addr timer_scratch_addr m a b c d e :
  0 ≤ hartid < Z.of_nat NCPU → 0 ≤ m_mstatus (ma_csr m) < 2 ^ 64 → ma_scratch m !! Z.to_nat hartid = Some [a; b; c; d; e] →
  let m' := start hartid mtime main_addr timervec_addr timer_scratch_addr m in
  let r := ma_csr m' in
  mret_privilege r = 1 ∧ m_mepc r = main_addr ∧ m_satp r = 0 ∧ m_medeleg r = 0xffff ∧ m_mideleg r = 0xffff ∧
  (∀ n, 0 ≤ n → Z.testbit (m_mstatus r) n =
     if decide (n = 3 ∨ n = 11) then true else if decide (n = 12) then false else Z.testbit (m_mstatus (ma_csr m)) n) ∧
  (∀ n, 0 ≤ n → Z.testbit (m_sie r) n = (bool_decide (n = 1 ∨ n = 5 ∨ n = 9) || Z.testbit (m_sie (ma_csr m)) n)%bool) ∧
  (∀ n, 0 ≤ n → Z.testbit (m_mie r) n = (bool_decide (n = 7) || Z.testbit (m_mie (ma_csr m)) n)%bool) ∧
  m_tp r = hartid ∧ m_mtvec r = timervec_addr ∧ m_mscratch r = u64 (timer_scratch_addr + 40 * hartid) ∧
  ma_scratch m' = <[Z.to_nat hartid := [a; b; c; CLINT_MTIMECMP hartid; interval]]> (ma_scratch m) ∧
  ma_io m' = ma_io m ++ [(CLINT_MTIMECMP hartid, u64 (mtime + interval))].
Proof.
  intros Hh Hs Hrow m' r. unfold NCPU in Hh.
  assert (∀ n, 0 ≤ n → Z.testbit (m_mstatus r) n =
     if decide (n = 3 ∨ n = 11) then true else if decide (n = 12) then false else Z.testbit (m_mstatus (ma_csr m)) n) as Hbits.
  { intros n Hn. unfold r, m', start. simpl. rewrite !Z.lor_spec, Z.land_spec.
    change MSTATUS_MIE with (2 ^ 3). change MSTATUS_MPP_S with (2 ^ 11). rewrite !Z.pow2_bits_eqb by lia.
    change (u64 (Z.lnot MSTATUS_MPP_MASK)) with (Z.lnot (Z.lor (2 ^ 11) (2 ^ 12)) mod 2 ^ 64).
    destruct (Z.ltb_spec n 64).
    - rewrite Z.mod_pow2_bits_low, Z.lnot_spec, Z.lor_spec, !Z.pow2_bits_eqb by lia.
      repeat case_decide; destruct (Z.eqb_spec 11 n), (Z.eqb_spec 12 n), (Z.eqb_spec 3 n); try lia; simpl;
        rewrite ?andb_false_r, ?andb_true_r, ?orb_true_r, ?orb_false_r; done.
    - rewrite !decide_False by lia. destruct (Z.eqb_spec 11 n), (Z.eqb_spec 3 n); try lia.
      destruct (Z.eq_dec (m_mstatus (ma_csr m)) 0) as [->|]; [by rewrite Z.bits_0|].
      rewrite Z.bits_above_log2 with (n := n); [done|lia|]. apply Z.log2_lt_pow2; [lia|]. eapply Z.lt_le_trans; [apply Hs|]. apply Z.pow_le_mono_r; lia. }
  split_and!; try done.
  - unfold mret_privilege. apply Z.bits_inj'. intros n Hn. change 4 with (2 ^ 2). destruct (Z.ltb_spec n 2).
    + rewrite Z.mod_pow2_bits_low, Z.shiftr_spec, Hbits by lia. destruct (decide (n = 0)) as [->|]; [done|].
      assert (n = 1) as -> by lia. done.
    + rewrite Z.mod_pow2_bits_high by lia. symmetry. apply Z.bits_above_log2; [lia|]. simpl. lia.
  - intros n Hn. unfold r, m', start. simpl. rewrite !Z.lor_spec. change SIE_SEIE with (2 ^ 9). change SIE_STIE with (2 ^ 5).
    change SIE_SSIE with (2 ^ 1). rewrite !Z.pow2_bits_eqb by lia. rewrite orb_comm. f_equal.
    case_bool_decide; destruct (Z.eqb_spec 9 n), (Z.eqb_spec 5 n), (Z.eqb_spec 1 n); lia || done.
  - intros n Hn. unfold r, m', start. simpl. rewrite Z.lor_spec. change MIE_MTIE with (2 ^ 7). rewrite Z.pow2_bits_eqb by lia.
    rewrite orb_comm. f_equal. case_bool_decide; destruct (Z.eqb_spec 7 n); lia || done.
  - unfold r, m', start. simpl. unfold s32, u32. rewrite Z.mod_small by lia. case_test; lia.
  - unfold m', start. simpl. rewrite (alter_insert_at _ _ (ma_scratch m) _ Hrow).
    rewrite (alter_insert_at _ _ _ [a; b; c; CLINT_MTIMECMP hartid; e]) by (apply list_lookup_insert_eq; by eapply lookup_lt_Some).
    by rewrite list_insert_insert_eq.
Qed.

(** C6: [virtio_disk_init] follows the protocol of the device, whatever the device
    answers. It stops with the message for the first condition that fails: wrong
    identification, features not accepted, queue in use, no queue, a queue shorter than
    [NUM], no memory. Otherwise it has written, in this order and nothing else, the
    status bits, the features that were offered without the refused ones, the queue
    with three zeroed pages of the allocator, and DRIVER_OK at the end; all
    descriptors are free. *)
Theorem virtio_disk_init_correct b l :
  L_kmem ∉ k_held (bo_k b) → free_pages (bo_k b) l → length (vd_free (k_vd (bo_k b))) = NUM →
  let io := bo_io b in
  match virtio_disk_init b with
  | BRet _ b' =>
      negotiated io = None ∧
      (∀ n, 0 ≤ n < 32 → Z.testbit (u32 (driver_features (offered io))) n = (Z.testbit (offered io) n && negb (bool_decide (n ∈ refused)))%bool) ∧
      ∃ desc avail used rest, l = desc :: avail :: used :: rest ∧ queue_ready (bo_k b) [desc; avail; used] rest (bo_k b') ∧
        k_vd (bo_k b') = set_vd_free (replicate NUM 1) (empty_rings (k_vd (bo_k b))) ∧
        bo_io b' = select_writes io ++ queue_writes desc avail used ++
          [(VIRTIO0 + VIRTIO_MMIO_QUEUE_READY, 1); (VSTATUS, u32 (Z.lor (accepted io) VIRTIO_CONFIG_S_DRIVER_OK))]
  | BPanic msg => negotiated io = Some msg ∨ negotiated io = None ∧ (length l < 3)%nat ∧ msg = "virtio disk kalloc"%string
  | BStuck => False
  end.
Proof.
  intros Hl Hf Hfr io. rewrite virtio_negotiate. fold io. destruct (negotiated io) as [msg|]; [by left|].
  destruct (virtio_queue_run (with_io (select_writes io) b) l Hl Hf) as [[H3 E]|(p1 & p2 & p3 & rest & s' & -> & E & [Q1 Q2 Q3 Q4] & V)].
  - unfold mbind, BM_bind. rewrite E. by right.
  - rewrite (bind_ret _ _ _ _ _ E). change (mk_boot s' ?io _ _ _) with (with_io io (mk_boot s' [] (bo_devsw b) (bo_locking b) (bo_started b))).
    rewrite finish_run by (cbn [bo_k]; by rewrite V). split; [done|]. split; [intros n; apply driver_features_spec|].
    exists p1, p2, p3, rest. split_and!; [done|by split|simpl; by rewrite V|]. cbn [with_io bo_io]. by rewrite <- app_assoc.
Qed.

(** Until hart 0 has set [started], another hart does nothing. *)
Lemma wait_started_run seen b : wait_started seen b = if existsb truthy seen then BRet tt b else BStuck.
Proof. induction seen as [|v seen IH]; [done|]. cbn [wait_started existsb]. unfold truthy at 1. by destruct (v =? 0). Qed.

End boot.

(** ** A device *)

#[local] Existing Instance build_rr.

(** A disk with a queue of 1024 entries that accepts the features. *)
#[local] Instance demo_device : Mmio := {
  mmio_read io a :=
    if a =? VIRTIO0 + VIRTIO_MMIO_MAGIC_VALUE then 0x74726976
    else if a =? VIRTIO0 + VIRTIO_MMIO_VERSION then 2
    else if a =? VIRTIO0 + VIRTIO_MMIO_DEVICE_ID then 2
    else if a =? VIRTIO0 + VIRTIO_MMIO_VENDOR_ID then 0x554d4551
    else if a =? VIRTIO0 + VIRTIO_MMIO_DEVICE_FEATURES then 0x30006e54
    else if a =? VIRTIO0 + VIRTIO_MMIO_QUEUE_NUM_MAX then 1024
    else foldl (λ v w, if w.1 =? a then w.2 else v) 0 io
}.

(** Three free pages. *)
Definition three_free : kstate :=
  set_k_freelist 0x80022000 (set_k_mem (st64 (st64 (λ _, 0) 0x80022000 0x80023000) 0x80023000 0x80024000) bss).

Definition demo_boot : boot := mk_boot three_free [] (replicate NDEV (None, None)) 0 0.

Lemma three_free_pages : free_pages three_free [0x80022000; 0x80023000; 0x80024000].
Proof.
  split; [by repeat split|]. apply (bool_decide_unpack _). by vm_compute.
Qed.

Lemma virtio_disk_init_correct_witness :
  ∃ b', virtio_disk_init demo_boot = BRet tt b' ∧ vd_free (k_vd (bo_k b')) = replicate NUM 1 ∧
    last (bo_io b') = Some (VIRTIO0 + VIRTIO_MMIO_STATUS, 15).
Proof.
  pose proof (virtio_disk_init_correct (build_of_kend RR) demo_boot _ (not_elem_of_nil _) three_free_pages eq_refl) as H.
  assert (negotiated (bo_io demo_boot) = None) as Hn by (by vm_compute). cbv zeta in H. rewrite Hn in H.
  destruct (virtio_disk_init _) as [[] b'|msg|]; [| |done].
  - exists b'. destruct H as (_ & _ & d & a & u & rest & _ & _ & Hv & Hio). split_and!; [done|by rewrite Hv|].
    rewrite Hio, !last_app. by vm_compute.
  - destruct H as [H|(_ & H & _)]; [done|simpl in H; lia].
Defined.

Definition reset_machine : machine := mk_machine (mk_mcsr 0 0 0 0 0 0 0 0 0 0 0 0) (replicate NCPU [0; 0; 0; 0; 0]) [].

Lemma start_correct_witness :
  let m := start 2 5 0x80000eb4 0x80005d00 0x80009000 reset_machine in
  mret_privilege (ma_csr m) = 1 ∧ m_tp (ma_csr m) = 2 ∧ ma_scratch m !! 2%nat = Some [0; 0; 0; 0x2004010; 1000000].
Proof.
  pose proof (start_correct 2 5 0x80000eb4 0x80005d00 0x80009000 reset_machine 0 0 0 0 0
    ltac:(by vm_compute) ltac:(by vm_compute) eq_refl)
    as (H1 & _ & _ & _ & _ & _ & _ & _ & H9 & _ & _ & H12 & _).
  split_and!; [exact H1|exact H9|]. by rewrite H12.
Defined.
