(* ===== verification/Grep.v ===== *)
(** * grep

    [user/grep.c]: the regular-expression matcher of Kernighan and Pike and the loop
    that reads a file by chunks and prints the matching lines.  A C string is the
    list of its characters without the NUL.

    The matcher is proved equal to a denotation: a pattern is a sequence of items,
    each a character or a dot, possibly starred, between optional anchors, and it
    matches a text that contains a string of the sequence's language. *)

From Stdlib Require Import ZArith Lia.
From S2P Require Import Prelude.

(** ** The code *)

(** [matchstar]; [mh] is [matchhere] of the rest of the pattern. *)
Fixpoint matchstar (mh : list Z → bool) (c : Z) (text : list Z) : bool :=
  if mh text then true
  else match text with
       | [] => false
       | x :: text' => if ((x =? c) || (c =? 46))%bool then matchstar mh c text' else false
       end.

Fixpoint matchhere (re text : list Z) : bool :=
  match re with
  | [] => true
  | c :: re1 =>
      match re1 with
      | 42 :: re2 => matchstar (matchhere re2) c text
      | _ =>
          if ((c =? 36) && bool_decide (re1 = []))%bool then bool_decide (text = [])
          else match text with
               | [] => false
               | x :: text' => if ((c =? 46) || (c =? x))%bool then matchhere re1 text' else false
               end
      end
  end.

(** The [do ... while] of [match]. *)
Fixpoint match_loop (re text : list Z) : bool :=
  if matchhere re text then true
  else match text with
       | [] => false
       | _ :: text' => match_loop re text'
       end.

Definition grep_match (re text : list Z) : bool :=
  match re with
  | 94 :: re' => matchhere re' text
  | _ => match_loop re text
  end.

(** [strchr(p, '\n')] in a buffer that ends with a NUL: what is before the newline
    and what follows it. *)
Fixpoint split_nl (p : list Z) : option (list Z * list Z) :=
  match p with
  | [] => None
  | c :: p' =>
      if c =? 10 then Some ([], p')
      else if c =? 0 then None
      else match split_nl p' with Some (l, rest) => Some (c :: l, rest) | None => None end
  end.

(** The inner loop: the lines of the buffer.  Returns what is written and what is
    left in the buffer.  The fuel is the length of the buffer. *)
Fixpoint grep_lines (fuel : nat) (pattern p out : list Z) : list Z * list Z :=
  match fuel with
  | O => (out, p)
  | S f =>
      match split_nl p with
      | None => (out, p)
      | Some (l, rest) => grep_lines f pattern rest (if grep_match pattern l then out ++ l ++ [10] else out)
      end
  end.

(** [read] returns between one and [room] of the bytes that are left, none at the
    end of the file or when there is no room; [want] is what the kernel has ready. *)
Definition read_count (want room left : nat) : nat := Nat.min (Nat.max 1 want) (Nat.min room left).

(** The outer loop: [buf] are the [m] bytes in the buffer, [input] what [read] has
    not returned yet, [ready] how much each call of [read] finds ready. *)
Fixpoint grep_loop (fuel : nat) (pattern buf input : list Z) (ready : nat → nat) (out : list Z) : option (list Z) :=
  match fuel with
  | O => None
  | S f =>
      let n := read_count (ready f) (1024 - length buf - 1) (length input) in
      if (n =? 0)%nat then Some out
      else
        let buf := buf ++ take n input in
        let '(out, rest) := grep_lines (S (length buf)) pattern buf out in
        grep_loop f pattern rest (drop n input) ready out
  end.

Definition grep (pattern input : list Z) (ready : nat → nat) : option (list Z) :=
  grep_loop (S (length input)) pattern [] input ready [].

(** ** The meaning of patterns *)

Record item := mk_item { it_char : Z; it_star : bool }.

Definition fits (c x : Z) : bool := ((c =? 46) || (c =? x))%bool.

(** A pattern without its leading '^': its items, and whether it ends in '$'. *)
Fixpoint parse (re : list Z) : list item * bool :=
  match re with
  | [] => ([], false)
  | c :: re1 =>
      match re1 with
      | 42 :: re2 => let '(l, e) := parse re2 in (mk_item c true :: l, e)
      | _ => if ((c =? 36) && bool_decide (re1 = []))%bool then ([], true)
             else let '(l, e) := parse re1 in (mk_item c false :: l, e)
      end
  end.

(** The strings of a sequence of items. *)
Inductive lang : list item → list Z → Prop :=
| lang_nil : lang [] []
| lang_one c x l w : fits c x = true → lang l w → lang (mk_item c false :: l) (x :: w)
| lang_star c v l w : Forall (λ x, fits c x = true) v → lang l w → lang (mk_item c true :: l) (v ++ w).

(** The text has a string of the pattern's language, at the beginning if the pattern
    starts with '^' and at the end if it ends with '$'. *)
Definition matches (re text : list Z) : Prop :=
  let '(start, body) := match re with 94 :: re' => (true, re') | _ => (false, re) end in
  let '(l, ends) := parse body in
  ∃ a b c, text = a ++ b ++ c ∧ lang l b ∧ (start = true → a = []) ∧ (ends = true → c = []).

Definition here (re text : list Z) : Prop :=
  ∃ b c, text = b ++ c ∧ lang (parse re).1 b ∧ ((parse re).2 = true → c = []).

Lemma matchstar_spec mh c text :
  matchstar mh c text = true ↔ ∃ v w, text = v ++ w ∧ Forall (λ x, fits c x = true) v ∧ mh w = true.
Proof.
  revert mh. induction text as [|x text IH]; intros mh; cbn [matchstar].
  - destruct (mh []) eqn:E; split; try done.
    + intros _. exists [], []. done.
    + intros (v & w & Hvw & _ & Hw). symmetry in Hvw. apply app_eq_nil in Hvw as [-> ->]. by rewrite E in Hw.
  - destruct (mh (x :: text)) eqn:E.
    + split; [intros _; by exists [], (x :: text)|done].
    + assert (((x =? c) || (c =? 46))%bool = fits c x) as -> by (unfold fits; rewrite orb_comm; by rewrite (Z.eqb_sym x c)).
      destruct (fits c x) eqn:Ef.
      * rewrite IH. split.
        -- intros (v & w & -> & Hv & Hw). exists (x :: v), w. split_and!; [done|by constructor|done].
        -- intros ([|y v] & w & Hvw & Hv & Hw).
           ++ simpl in Hvw. subst w. by rewrite E in Hw.
           ++ injection Hvw as <- ->. apply Forall_cons in Hv as [_ Hv]. by exists v, w.
      * split; [done|]. intros ([|y v] & w & Hvw & Hv & Hw).
        -- simpl in Hvw. subst w. by rewrite E in Hw.
        -- injection Hvw as <- _. apply Forall_cons in Hv as [Hy _]. by rewrite Ef in Hy.
Qed.

Lemma here_star c re text :
  here (c :: 42 :: re) text ↔ ∃ v w, text = v ++ w ∧ Forall (λ x, fits c x = true) v ∧ here re w.
Proof.
  unfold here. cbn [parse]. destruct (parse re) as [l e]. simpl. split.
  - intros (b & r & -> & Hl & He). inversion Hl; subst. exists v, (w ++ r). rewrite <- app_assoc.
    split_and!; [done|done|]. by exists w, r.
  - intros (v & w & -> & Hv & b & r & -> & Hl & He). exists (v ++ b), r. rewrite <- app_assoc. split_and!; try done.
    by constructor.
Qed.

Lemma here_one c re1 l e text :
  parse (c :: re1) = (mk_item c false :: l, e) → parse re1 = (l, e) →
  here (c :: re1) text ↔ ∃ x text', text = x :: text' ∧ fits c x = true ∧ here re1 text'.
Proof.
  intros E E1. unfold here. rewrite E, E1. simpl. split.
  - intros (b & r & -> & Hl & He). inversion Hl; subst. exists x, (w ++ r). split_and!; [done|done|]. by exists w, r.
  - intros (x & t & -> & Hx & b & r & -> & Hl & He). exists (x :: b), r. split_and!; try done. by constructor.
Qed.

#[local] Instance starts_with_dec (d : Z) (l : list Z) : Decision (∃ r, l = d :: r).
Proof.
  destruct l as [|c l]; [right; naive_solver|]. destruct (decide (c = d)) as [->|]; [left; eauto|right; naive_solver].
Defined.

Lemma matchhere_spec re text : matchhere re text = true ↔ here re text.
Proof.
  remember (length re) as n eqn:Hn. revert re text Hn. induction (lt_wf n) as [n _ IH]. intros re text ->.
  destruct re as [|c re1].
  { split; [|done]. intros _. exists [], text. split_and!; [done|constructor|done]. }
  destruct (decide (∃ re2, re1 = 42 :: re2)) as [[re2 ->]|Hns].
  { cbn [matchhere]. rewrite matchstar_spec, here_star. simpl in IH.
    split; intros (v & w & -> & Hv & Hw); exists v, w; (split_and!; [done..|]); by apply (IH (length re2) ltac:(lia)). }
  assert (matchhere (c :: re1) text =
    if ((c =? 36) && bool_decide (re1 = []))%bool then bool_decide (text = [])
    else match text with [] => false | x :: t => if ((c =? 46) || (c =? x))%bool then matchhere re1 t else false end) as ->.
  { cbn [matchhere]. destruct re1 as [|d re2]; [done|]. destruct (decide (d = 42)) as [->|Hd]; [exfalso; eauto|].
    destruct d as [|p|p]; try done. do 6 (destruct p as [p|p|]; try done). }
  assert (parse (c :: re1) = if ((c =? 36) && bool_decide (re1 = []))%bool then ([], true)
    else let '(l, e) := parse re1 in (mk_item c false :: l, e)) as Ep.
  { cbn [parse]. destruct re1 as [|d re2]; [done|]. destruct (decide (d = 42)) as [->|Hd]; [exfalso; eauto|].
    destruct d as [|p|p]; try done. do 6 (destruct p as [p|p|]; try done). }
  destruct (_ && _)%bool.
  - rewrite bool_decide_eq_true. unfold here. rewrite Ep. simpl. split.
    + intros ->. exists [], []. split_and!; [done|constructor|done].
    + intros (b & r & -> & Hl & He). inversion Hl; subst. by rewrite He.
  - destruct (parse re1) as [l e] eqn:E1. rewrite (here_one c re1 l e) by done. simpl in IH.
    destruct text as [|x t]; [naive_solver|]. fold (fits c x).
    destruct (fits c x) eqn:Ef.
    + rewrite (IH (length re1) ltac:(lia) re1 t eq_refl). naive_solver.
    + split; [done|]. intros (y & t' & [= <- <-] & Hy & _). by rewrite Ef in Hy.
Qed.

Lemma match_loop_spec re text : match_loop re text = true ↔ ∃ a t, text = a ++ t ∧ here re t.
Proof.
  induction text as [|x text IH]; cbn [match_loop]; destruct (matchhere re _) eqn:E.
  - apply matchhere_spec in E. split; [|done]. intros _. by exists [], [].
  - split; [done|]. intros (a & t & Hat & Ht). symmetry in Hat. apply app_eq_nil in Hat as [-> ->].
    apply matchhere_spec in Ht. by rewrite E in Ht.
  - apply matchhere_spec in E. split; [|done]. intros _. by exists [], (x :: text).
  - rewrite IH. split.
    + intros (a & t & -> & Ht). by exists (x :: a), t.
    + intros ([|y a] & t & Hat & Ht).
      * simpl in Hat. subst t. apply matchhere_spec in Ht. by rewrite E in Ht.
      * injection Hat as <- ->. by exists a, t.
Qed.

(** C31: The matcher of grep decides the language of the pattern: it accepts a text
    exactly when the text contains a string of the pattern's language, at its
    beginning if the pattern starts with '^', at its end if it ends with '$'. *)
Theorem grep_match_correct re text : grep_match re text = true ↔ matches re text.
Proof.
  assert (∀ start body, (∃ a t, text = a ++ t ∧ here body t ∧ (start = true → a = [])) ↔
    let '(l, ends) := parse body in
    ∃ a b c, text = a ++ b ++ c ∧ lang l b ∧ (start = true → a = []) ∧ (ends = true → c = [])) as Hhere.
  { intros start body. unfold here. destruct (parse body) as [l e]. simpl. naive_solver. }
  destruct (decide (∃ re', re = 94 :: re')) as [[re' ->]|Hno].
  - cbn [grep_match]. unfold matches. rewrite matchhere_spec, <- Hhere. split; [intros H; by exists [], text|].
    intros (a & t & -> & Ht & Ha). by rewrite Ha.
  - assert (grep_match re text = match_loop re text) as ->.
    { destruct re as [|d re]; [done|]. destruct (decide (d = 94)) as [->|Hd]; [exfalso; eauto|].
      destruct d as [|p|p]; try done. do 7 (destruct p as [p|p|]; try done). }
    unfold matches. assert ((match re with 94 :: re' => (true, re') | _ => (false, re) end) = (false, re)) as ->.
    { destruct re as [|d re]; [done|]. destruct (decide (d = 94)) as [->|Hd]; [exfalso; eauto|].
      destruct d as [|p|p]; try done. do 7 (destruct p as [p|p|]; try done). }
    rewrite match_loop_spec, <- Hhere. naive_solver.
Qed.

(** ** The loop over the file *)

(** The lines of a file that end in a newline, [cur] the characters of the current
    one. *)
Fixpoint complete_lines (cur s : list Z) : list (list Z) :=
  match s with
  | [] => []
  | c :: s' => if c =? 10 then cur :: complete_lines [] s' else complete_lines (cur ++ [c]) s'
  end.

(** What [grep] is to print: the matching ones of some lines. *)
Definition matching (pattern : list Z) (ls : list (list Z)) : list Z :=
  concat (map (λ l, l ++ [10]) (filter (λ l, grep_match pattern l = true) ls)).

Lemma matching_app pattern ls ls' : matching pattern (ls ++ ls') = matching pattern ls ++ matching pattern ls'.
Proof. unfold matching. by rewrite filter_app, map_app, concat_app. Qed.

Lemma complete_lines_nil cur s : 10 ∉ s → complete_lines cur s = [].
Proof.
  revert cur. induction s as [|c s IH]; intros cur Hs; [done|]. apply not_elem_of_cons in Hs as [Hc Hs].
  cbn [complete_lines]. rewrite (proj2 (Z.eqb_neq c 10)) by done. by apply IH.
Qed.

Lemma complete_lines_app cur l r :
  10 ∉ l → complete_lines cur (l ++ 10 :: r) = (cur ++ l) :: complete_lines [] r.
Proof.
  revert cur. induction l as [|c l IH]; intros cur Hl; [by rewrite app_nil_r|].
  apply not_elem_of_cons in Hl as [Hc Hl]. cbn [app complete_lines]. rewrite (proj2 (Z.eqb_neq c 10)) by done.
  rewrite IH by done. by rewrite <- app_assoc.
Qed.

(** [strchr] finds the first newline of a buffer without NULs. *)
Lemma split_nl_spec p :
  0 ∉ p →
  match split_nl p with
  | None => 10 ∉ p
  | Some (l, rest) => p = l ++ 10 :: rest ∧ 10 ∉ l
  end.
Proof.
  induction p as [|c p IH]; intros Hp; cbn [split_nl]; [set_solver|].
  apply not_elem_of_cons in Hp as [Hc Hp]. destruct (Z.eqb_spec c 10) as [->|H10]; [set_solver|].
  rewrite (proj2 (Z.eqb_neq c 0)) by done. specialize (IH Hp).
  destruct (split_nl p) as [[l rest]|]; [|set_solver]. destruct IH as [-> Hl]. set_solver.
Qed.

Lemma grep_lines_spec fuel pattern p out :
  0 ∉ p → (length p < fuel)%nat →
  ∃ ls rest, grep_lines fuel pattern p out = (out ++ matching pattern ls, rest) ∧
    10 ∉ rest ∧ rest `suffix_of` p ∧
    ∀ q, complete_lines [] (p ++ q) = ls ++ complete_lines [] (rest ++ q).
Proof.
  revert p out. induction fuel as [|f IH]; intros p out Hp Hf; [lia|]. cbn [grep_lines].
  pose proof (split_nl_spec p Hp) as Hs. destruct (split_nl p) as [[l rest]|].
  - destruct Hs as [-> Hl]. rewrite length_app in Hf. simpl in Hf.
    destruct (IH rest (if grep_match pattern l then out ++ l ++ [10] else out) ltac:(set_solver) ltac:(lia))
      as (ls & r & -> & Hr & Hsuf & Hq).
    exists (l :: ls), r. split_and!; [|done| |].
    + f_equal. unfold matching. rewrite filter_cons. destruct (grep_match pattern l) eqn:E.
      * rewrite decide_True by done. cbn [map concat]. by rewrite <- !app_assoc.
      * by rewrite decide_False.
    + etrans; [done|]. exists (l ++ [10]). by rewrite <- app_assoc.
    + intros q. rewrite <- app_assoc. cbn [app]. by rewrite complete_lines_app, Hq.
  - exists [], p. split_and!; [by rewrite app_nil_r|done|done|done].
Qed.

(** The condition under which [read] returns nothing. *)
Lemma read_count_spec want room left :
  (read_count want room left ≤ room)%nat ∧ (read_count want room left ≤ left)%nat ∧
  (read_count want room left = 0 → room = 0 ∨ left = 0)%nat.
Proof. unfold read_count. lia. Qed.

Lemma complete_lines_long s cur l :
  (∃ a b, s = a ++ b ∧ 10 ∉ a ∧ (1023 ≤ length a)%nat) →
  (∀ l, l ∈ complete_lines cur s → (length l < 1023)%nat) → l ∈ complete_lines cur s → False.
Proof.
  intros (a & b & -> & Ha & Hlen) Hall Hl. revert Hall Hl. generalize l.
  destruct (decide (10 ∈ b)) as [Hb|Hb].
  - apply list_elem_of_split_l in Hb as (b1 & b2 & -> & Hb1). rewrite app_assoc.
    intros l' Hall _. rewrite complete_lines_app in Hall by set_solver. specialize (Hall _ (list_elem_of_here _ _)).
    rewrite !length_app in Hall. lia.
  - intros l' _. rewrite complete_lines_nil by set_solver. set_solver.
Qed.

Lemma grep_loop_spec fuel pattern buf input ready out :
  (length input < fuel)%nat → 0 ∉ buf ++ input → 10 ∉ buf →
  (∀ l, l ∈ complete_lines [] (buf ++ input) → (length l < 1023)%nat) →
  grep_loop fuel pattern buf input ready out = Some (out ++ matching pattern (complete_lines [] (buf ++ input))).
Proof.
  revert buf input out. induction fuel as [|f IH]; intros buf input out Hf H0 H10 Hl; [lia|]. cbn [grep_loop].
  destruct (read_count_spec (ready f) (1024 - length buf - 1) (length input)) as (_ & Hn & Hz).
  set (n := read_count _ _ _) in *. destruct (Nat.eqb_spec n 0) as [E|E].
  - f_equal. assert (complete_lines [] (buf ++ input) = []) as ->; [|unfold matching; simpl; by rewrite app_nil_r].
    destruct (Hz E) as [Hroom|Hleft].
    + destruct (complete_lines [] (buf ++ input)) as [|l ls] eqn:El; [done|exfalso].
      apply (complete_lines_long (buf ++ input) [] l).
      * exists buf, input. split_and!; [done|done|lia].
      * by rewrite El.
      * rewrite El. set_solver.
    + apply nil_length_inv in Hleft as ->. rewrite app_nil_r. by apply complete_lines_nil.
  - destruct (grep_lines_spec (S (length (buf ++ take n input))) pattern (buf ++ take n input) out)
      as (ls & rest & -> & Hr & Hsuf & Hq).
    { intros H. apply H0. apply elem_of_app in H as [H|H]; apply elem_of_app; [by left|right].
      rewrite <- (take_drop n input). apply elem_of_app. by left. }
    { lia. }
    specialize (Hq (drop n input)). rewrite <- app_assoc, take_drop in Hq. rewrite Hq in Hl |- *.
    rewrite IH.
    + by rewrite matching_app, app_assoc.
    + rewrite length_drop. lia.
    + intros H. apply H0. rewrite <- (take_drop n input), app_assoc. destruct Hsuf as [k ->].
      apply elem_of_app in H as [H|H]; apply elem_of_app; [left; apply elem_of_app; by right|by right].
    + done.
    + intros l Hin. apply Hl, elem_of_app. by right.
Qed.

(** On a file without NUL characters whose lines have fewer than 1023 characters,
    [grep] terminates and prints exactly the newline-terminated lines that match, in
    order and whole, however the file is cut into the chunks that [read] returns. *)
Theorem grep_correct pattern input ready :
  0 ∉ input → (∀ l, l ∈ complete_lines [] input → (length l < 1023)%nat) →
  grep pattern input ready = Some (matching pattern (complete_lines [] input)).
Proof.
  intros H0 Hl. unfold grep. apply (grep_loop_spec (S (length input)) pattern [] input ready []); try done; [lia|set_solver].
Qed.

(** The pattern ^a.*c$ on the lines abc, xabc, ac and abd, three bytes at a time. *)
Lemma grep_correct_witness :
  grep [94; 97; 46; 42; 99; 36]
    [97; 98; 99; 10; 120; 97; 98; 99; 10; 97; 99; 10; 97; 98; 100; 10] (λ _, 3%nat)
  = Some [97; 98; 99; 10; 97; 99; 10].
Proof.
  rewrite grep_correct.
  - reflexivity.
  - apply (bool_decide_unpack _). vm_compute. exact I.
  - intros l Hl. vm_compute in Hl. assert (Forall (λ l, length l < 1023)%nat [[97;98;99];[120;97;98;99];[97;99];[97;98;100]]) as HF
      by (repeat constructor; simpl; lia).
    exact (proj1 (Forall_forall _ _) HF l Hl).
Defined.

Lemma grep_loop_long fuel pattern buf input ready out a b :
  (length input < fuel)%nat → buf ++ input = a ++ b → length a = 1023%nat → (length buf ≤ 1023)%nat →
  0 ∉ a → 10 ∉ a → grep_loop fuel pattern buf input ready out = Some out.
Proof.
  revert buf input. induction fuel as [|f IH]; intros buf input Hf Hab Ha Hb H0 H10; [lia|]. cbn [grep_loop].
  destruct (read_count_spec (ready f) (1024 - length buf - 1) (length input)) as (Hr & Hn & _).
  set (n := read_count _ _ _) in *. destruct (Nat.eqb_spec n 0) as [E|E]; [done|].
  assert (length (buf ++ take n input) ≤ 1023)%nat as Hlen by (rewrite length_app, length_take; lia).
  assert (buf ++ take n input = take (length (buf ++ take n input)) a) as Hpre.
  { rewrite <- (take_app_le a b) by lia. rewrite <- Hab. rewrite <- (take_drop n input) at 3. rewrite app_assoc.
    by rewrite take_app_length. }
  destruct (grep_lines (S (length (buf ++ take n input))) pattern (buf ++ take n input) out) as [o r] eqn:El.
  cbn [grep_lines] in El. pose proof (split_nl_spec (buf ++ take n input)) as Hs.
  rewrite Hpre in Hs. assert (∀ x, x ∈ take (length (buf ++ take n input)) a → x ∈ a) as Hin.
  { intros x Hx. rewrite <- (take_drop (length (buf ++ take n input)) a). apply elem_of_app. by left. }
  specialize (Hs (λ H, H0 (Hin _ H))). rewrite <- Hpre in Hs.
  destruct (split_nl (buf ++ take n input)) as [[l rest]|].
  - destruct Hs as [Hs _]. exfalso. apply H10, Hin. rewrite <- Hpre, Hs. set_solver.
  - injection El as <- <-. apply IH; try done; [rewrite length_drop; lia|]. by rewrite <- app_assoc, take_drop.
Qed.

(** A line of 1023 characters or more ends [grep]: the buffer is full, [read] is
    asked for no bytes and returns none, and the loop takes that for the end of the
    file, so neither the line nor what follows it is printed, whatever the pattern. *)
Theorem grep_stops_at_long_line pattern a b ready :
  length a = 1023%nat → 0 ∉ a → 10 ∉ a → grep pattern (a ++ b) ready = Some [].
Proof. intros Ha H0 H10. unfold grep. apply (grep_loop_long _ _ _ _ _ _ a b); try done; simpl; lia. Qed.

(** Every line matches the empty pattern, and nothing is printed. *)
Lemma grep_stops_at_long_line_witness :
  grep [] (replicate 1023 97 ++ [10; 98; 10]) (λ _, 512%nat) = Some [] ∧ grep_match [] [98] = true.
Proof.
  split; [apply grep_stops_at_long_line; [reflexivity| |]; intros H; apply elem_of_replicate in H as [H _]; discriminate H|].
  reflexivity.
Defined.
