(* ===== verification/Umalloc.v ===== *)
(** * The user memory allocator

    [user/umalloc.c], the allocator of Kernighan and Ritchie: free blocks in a circular
    list ordered by address, first fit with a roving pointer, neighbours coalesced when a
    block is freed, more memory from [sbrk] when nothing fits.

    The memory is the byte memory of a process; a header is sixteen bytes, the pointer at
    offset 0 and the 32-bit size at offset 8.  Sizes count headers.  Loops have a fuel
    argument and return [None] without it; the theorems give a sufficient amount, four times the
    number of free blocks and a few more.

    The kernel's part is [sbrk]: [avail brk n] says whether [uvmalloc] has the pages for [n]
    more bytes. *)

From Stdlib Require Import ZArith Lia Sorted.
From S2P Require Import Prelude Machine.

(** ** The code *)

Record umem := mk_umem { um : mem; freep : Z; brk : Z }.

Definition hptr (m : mem) (p : Z) : Z := ld64 m p.
Definition hsize (m : mem) (p : Z) : Z := ld32 m (p + 8).
Definition set_ptr (m : mem) (p v : Z) : mem := st64 m p v.
Definition set_size (m : mem) (p v : Z) : mem := st32 m (p + 8) v.

(** Pointer arithmetic on [Header *]. *)
Definition hplus (p n : Z) : Z := p + 16 * n.

Section umalloc.

(** The address of the static header [base] and the memory the kernel has. *)
Context (base : Z) (avail : Z → Z → bool).

(** [sys_sbrk] and [growproc] as the process sees them; [uvmalloc] zeroes the pages it adds. *)
Definition usbrk (n : Z) (st : umem) : Z * umem :=
  if 0 <? n then
    if avail (brk st) n then
      (brk st, mk_umem (λ a, if ((PGROUNDUP (brk st) <=? a) && (a <? PGROUNDUP (brk st + n)))%bool then 0 else um st a)
                       (freep st) (brk st + n))
    else (-1, st)
  else if n <? 0 then
    let newsz := u64 (brk st + n) in
    (brk st, mk_umem (um st) (freep st) (if brk st <=? newsz then brk st else newsz))
  else (brk st, st).

(** The loop of [free]. *)
Fixpoint free_search (fuel : nat) (m : mem) (bp p : Z) : option Z :=
  match fuel with
  | O => None
  | S f =>
      if ((p <? bp) && (bp <? hptr m p))%bool then Some p
      else if ((hptr m p <=? p) && ((p <? bp) || (bp <? hptr m p)))%bool then Some p
      else free_search f m bp (hptr m p)
  end.

(** The two tests of [free] that join the block to its neighbours. *)
Definition join_right (m : mem) (bp p : Z) : mem :=
  if hplus bp (hsize m bp) =? hptr m p then
    let m := set_size m bp (hsize m bp + hsize m (hptr m p)) in
    set_ptr m bp (hptr m (hptr m p))
  else set_ptr m bp (hptr m p).

Definition join_left (m : mem) (bp p : Z) : mem :=
  if hplus p (hsize m p) =? bp then
    let m := set_size m p (hsize m p + hsize m bp) in
    set_ptr m p (hptr m bp)
  else set_ptr m p bp.

Definition free (fuel : nat) (ap : Z) (st : umem) : option umem :=
  let bp := ap - 16 in
  match free_search fuel (um st) bp (freep st) with
  | None => None
  | Some p => Some (mk_umem (join_left (join_right (um st) bp p) bp p) p (brk st))
  end.

(** [morecore]: the new roving pointer, or 0. *)
Definition morecore (fuel : nat) (nu : Z) (st : umem) : option (Z * umem) :=
  let nu := if nu <? 4096 then 4096 else nu in
  let '(p, st) := usbrk (s32 (nu * 16)) st in
  if p =? -1 then Some (0, st)
  else
    let hp := p in
    match free fuel (hplus hp 1) (mk_umem (set_size (um st) hp nu) (freep st) (brk st)) with
    | None => None
    | Some st => Some (freep st, st)
    end.

(** What [malloc] does with a block that is big enough. *)
Definition take_block (nunits prevp p : Z) (st : umem) : Z * umem :=
  let m := um st in
  if hsize m p =? nunits then
    (hplus p 1, mk_umem (set_ptr m prevp (hptr m p)) prevp (brk st))
  else
    let m := set_size m p (hsize m p - nunits) in
    let p := hplus p (hsize m p) in
    (hplus p 1, mk_umem (set_size m p nunits) prevp (brk st)).

Fixpoint malloc_loop (fuel : nat) (nunits prevp p : Z) (st : umem) : option (Z * umem) :=
  match fuel with
  | O => None
  | S f =>
      if nunits <=? hsize (um st) p then Some (take_block nunits prevp p st)
      else if p =? freep st then
        match morecore f nunits st with
        | None => None
        | Some (p, st) =>
            if p =? 0 then Some (0, st) else malloc_loop f nunits p (hptr (um st) p) st
        end
      else malloc_loop f nunits p (hptr (um st) p) st
  end.

Definition units (nbytes : Z) : Z := u32 ((nbytes + 16 - 1) / 16 + 1).

Definition malloc (fuel : nat) (nbytes : Z) (st : umem) : option (Z * umem) :=
  let nunits := units nbytes in
  let st := if freep st =? 0 then mk_umem (set_size (set_ptr (um st) base base) base 0) base (brk st) else st in
  malloc_loop fuel nunits (freep st) (hptr (um st) (freep st)) st.

End umalloc.

(** ** The free list *)

Section free_list.

Context (base : Z).

(** A block: the address of its header and its size in headers. *)
Abbreviation block := (Z * Z)%type.

Definition bend (b : block) : Z := b.1 + 16 * b.2.
Definition disj (b c : block) : Prop := bend b ≤ c.1 ∨ bend c ≤ b.1.
Definition before (b c : block) : Prop := bend b < c.1.

Definition head_addr (l : list block) (nxt : Z) : Z := match l with [] => nxt | b :: _ => b.1 end.

(** The headers of [l] are linked in order, the last one to [nxt]. *)
Fixpoint lseg (m : mem) (l : list block) (nxt : Z) : Prop :=
  match l with
  | [] => True
  | b :: l' => hptr m b.1 = head_addr l' nxt ∧ hsize m b.1 = b.2 ∧ lseg m l' nxt
  end.

Definition total (l : list block) : Z := foldr (λ b s, b.2 + s) 0 l.

(** A block of the heap proper. *)
Definition in_heap (lim : Z) (b : block) : Prop := 1 ≤ b.2 ∧ base + 16 ≤ b.1 ∧ bend b ≤ lim.

(** The heap: [F] the free blocks by address, [A] the allocated ones, [U] the number of
    headers the kernel has given. *)
Record heap (st : umem) (F A : list block) (U : Z) : Prop := {
  h_base : 0 < base;
  h_brk : base + 16 ≤ brk st ≤ 68719476736;
  h_ring : lseg (um st) ((base, 0) :: F) base;
  h_sorted : StronglySorted before F;
  h_free : Forall (in_heap (brk st)) F;
  h_freep : freep st ∈ map fst ((base, 0) :: F);
  h_alloc : Forall (λ b, in_heap (brk st) b ∧ hsize (um st) b.1 = b.2 ∧ Forall (disj b) F) A;
  h_disj : StronglySorted disj A;
  h_units : total F + total A = U;
}.


(** ** Headers in memory *)

Lemma hptr_set_ptr m p v : 0 ≤ v < 18446744073709551616 → hptr (set_ptr m p v) p = v.
Proof. intros Hv. apply ld_st_eq. exact Hv. Qed.
Lemma hsize_set_size m p v : 0 ≤ v < 4294967296 → hsize (set_size m p v) p = v.
Proof. intros Hv. apply ld_st_eq. exact Hv. Qed.
Lemma hptr_set_size m p q v : q = p ∨ q + 16 ≤ p ∨ p + 16 ≤ q → hptr (set_size m p v) q = hptr m q.
Proof. intros H. apply ld_st_ne. lia. Qed.
Lemma hsize_set_ptr m p q v : q = p ∨ q + 16 ≤ p ∨ p + 16 ≤ q → hsize (set_ptr m p v) q = hsize m q.
Proof. intros H. apply ld_st_ne. lia. Qed.
Lemma hptr_set_ptr_ne m p q v : q + 16 ≤ p ∨ p + 16 ≤ q → hptr (set_ptr m p v) q = hptr m q.
Proof. intros H. apply ld_st_ne. lia. Qed.
Lemma hsize_set_size_ne m p q v : q + 16 ≤ p ∨ p + 16 ≤ q → hsize (set_size m p v) q = hsize m q.
Proof. intros H. apply ld_st_ne. lia. Qed.

(** [m'] differs from [m] at most in the header at [p]. *)
Definition only_header (p : Z) (m m' : mem) : Prop := ∀ a, a < p ∨ p + 16 ≤ a → m' a = m a.

Lemma set_ptr_only m p v : only_header p m (set_ptr m p v).
Proof. intros a Ha. apply st_other. lia. Qed.
Lemma set_size_only m p v : only_header p m (set_size m p v).
Proof. intros a Ha. apply st_other. lia. Qed.
Lemma only_header_trans p m m' m'' : only_header p m m' → only_header p m' m'' → only_header p m m''.
Proof. intros H H' a Ha. rewrite H' by done. by apply H. Qed.

Lemma only_header_hptr p q m m' : only_header p m m' → q + 16 ≤ p ∨ p + 16 ≤ q → hptr m' q = hptr m q.
Proof. intros H Hq. apply ld_ext. intros a Ha. apply H. lia. Qed.
Lemma only_header_hsize p q m m' : only_header p m m' → q + 16 ≤ p ∨ p + 16 ≤ q → hsize m' q = hsize m q.
Proof. intros H Hq. apply ld_ext. intros a Ha. apply H. lia. Qed.

Lemma lseg_frame p m m' l nxt :
  only_header p m m' → Forall (λ b, b.1 + 16 ≤ p ∨ p + 16 ≤ b.1) l → lseg m l nxt → lseg m' l nxt.
Proof.
  intros Hm Hl. induction Hl as [|b l Hb Hl IH]; [done|]. intros (Hp & Hs & Hr). simpl.
  rewrite (only_header_hptr p b.1 m m'), (only_header_hsize p b.1 m m') by done. auto.
Qed.

Lemma lseg_app m l l' nxt : lseg m (l ++ l') nxt ↔ lseg m l (head_addr l' nxt) ∧ lseg m l' nxt.
Proof.
  induction l as [|b l IH]; simpl; [naive_solver|]. rewrite IH.
  assert (head_addr (l ++ l') nxt = head_addr l (head_addr l' nxt)) as -> by (by destruct l).
  naive_solver.
Qed.

(** ** Coalescing *)

Definition glue_right (b : block) (l : list block) : list block :=
  match l with
  | c :: l' => if bend b =? c.1 then (b.1, b.2 + c.2) :: l' else b :: c :: l'
  | [] => [b]
  end.

Definition glue_left (p : block) (l : list block) : list block :=
  match l with
  | b :: l' => if bend p =? b.1 then (p.1, p.2 + b.2) :: l' else p :: b :: l'
  | [] => [p]
  end.

Definition spaced (b c : block) : Prop := b.1 + 16 ≤ c.1.

Lemma join_right_spec m b p N nxt :
  lseg m (p :: N) nxt → hsize m b.1 = b.2 → 0 ≤ nxt < b.1 → spaced p b → Forall (spaced b) N →
  StronglySorted spaced N → 1 ≤ b.2 → Forall (λ c, 0 ≤ c.1 < 2 ^ 64 ∧ 1 ≤ c.2 ∧ b.2 + c.2 < 2 ^ 32) N →
  0 < b.1 < 2 ^ 64 →
  lseg (join_right m b.1 p.1) (glue_right b N) nxt ∧ only_header b.1 m (join_right m b.1 p.1).
Proof.
  intros (Hp & _ & HN) Hb Hnxt Hpb HbN HNs Hb1 Hr Hba. unfold spaced in *.
  unfold join_right. rewrite Hb, Hp. change (hplus b.1 b.2) with (bend b).
  destruct N as [|c N]; simpl in *.
  - assert (bend b =? nxt = false) as -> by (unfold bend; lia).
    split; [|apply set_ptr_only]. rewrite hptr_set_ptr by lia. rewrite hsize_set_ptr by lia. done.
  - apply Forall_cons in HbN as [Hbc HbN]. apply Forall_cons in Hr as [Hc Hr].
    apply StronglySorted_inv in HNs as [HNs HcN]. destruct HN as (Hcp & Hcs & HN).
    assert (∀ m', only_header b.1 m m' → lseg m' N nxt) as Hfr.
    { intros m' Hm'. eapply lseg_frame; [done| |done]. eapply Forall_impl; [exact HbN|]. simpl. lia. }
    destruct (bend b =? c.1) eqn:E.
    + rewrite Hcs. set (m1 := set_size m b.1 (b.2 + c.2)).
      assert (only_header b.1 m m1) as H1 by apply set_size_only.
      rewrite (only_header_hptr b.1 p.1 m m1), Hp by (done || lia).
      rewrite (only_header_hptr b.1 c.1 m m1), Hcp by (done || lia).
      assert (only_header b.1 m (set_ptr m1 b.1 (head_addr N nxt))) as H2
        by (eapply only_header_trans; [done|apply set_ptr_only]).
      split; [|done]. split_and!; [|simpl|by apply Hfr].
      * apply hptr_set_ptr. destruct N as [|d N]; simpl; [lia|]. apply Forall_cons in Hr as [? _]. lia.
      * rewrite hsize_set_ptr by lia. apply hsize_set_size. lia.
    + split; [|apply set_ptr_only]. simpl. rewrite hptr_set_ptr by lia. rewrite hsize_set_ptr by lia.
      split_and!; [done|done| | |].
      * rewrite hptr_set_ptr_ne by lia. done.
      * rewrite hsize_set_ptr by lia. done.
      * apply Hfr, set_ptr_only.
Qed.

Lemma join_left_spec m b p N nxt :
  lseg m (b :: N) nxt → hsize m p.1 = p.2 → spaced p b → Forall (spaced b) N →
  0 ≤ p.2 → 1 ≤ b.2 → p.2 + b.2 < 2 ^ 32 → 0 ≤ hptr m b.1 < 2 ^ 64 → 0 ≤ p.1 → b.1 < 2 ^ 64 →
  lseg (join_left m b.1 p.1) (glue_left p (b :: N)) nxt ∧ only_header p.1 m (join_left m b.1 p.1).
Proof.
  intros (Hbp & Hbs & HN) Hp Hpb HbN Hp0 Hb1 Hr Hptr Hpa Hba. unfold spaced in *.
  unfold join_left, glue_left. rewrite Hp. change (hplus p.1 p.2) with (bend p).
  assert (∀ m', only_header p.1 m m' → lseg m' N nxt) as Hfr.
  { intros m' Hm'. eapply lseg_frame; [done| |done]. eapply Forall_impl; [exact HbN|]. simpl. lia. }
  destruct (bend p =? b.1).
  - rewrite Hbs. set (m1 := set_size m p.1 (p.2 + b.2)).
    assert (only_header p.1 m m1) as H1 by apply set_size_only.
    rewrite (only_header_hptr p.1 b.1 m m1) by (done || lia).
    assert (only_header p.1 m (set_ptr m1 p.1 (hptr m b.1))) as H2
      by (eapply only_header_trans; [done|apply set_ptr_only]).
    split; [|done]. split_and!; simpl; [|  |by apply Hfr].
    + rewrite hptr_set_ptr by lia. done.
    + rewrite hsize_set_ptr by lia. apply hsize_set_size. lia.
  - split; [|apply set_ptr_only]. simpl.
    rewrite hptr_set_ptr by lia. rewrite hsize_set_ptr by lia.
    rewrite hptr_set_ptr_ne by lia. rewrite hsize_set_ptr by lia.
    split_and!; try done. apply Hfr, set_ptr_only.
Qed.

(** A property that holds of joined blocks when it holds of the parts survives coalescing. *)
Definition joinable (Q : block → Prop) : Prop :=
  ∀ x y, Q x → Q y → bend x = y.1 → Q (x.1, x.2 + y.2).

Lemma glue_right_Forall Q b l : joinable Q → Q b → Forall Q l → Forall Q (glue_right b l).
Proof.
  intros HQ Hb Hl. destruct l as [|c l]; [by constructor|]. apply Forall_cons in Hl as [Hc Hl]. simpl.
  case_test; repeat constructor; auto.
Qed.

Lemma glue_left_Forall Q p l : joinable Q → Q p → Forall Q l → Forall Q (glue_left p l).
Proof.
  intros HQ Hb Hl. destruct l as [|c l]; [by constructor|]. apply Forall_cons in Hl as [Hc Hl]. simpl.
  case_test; repeat constructor; auto.
Qed.

Lemma in_heap_joinable lim : joinable (in_heap lim).
Proof. intros x y Hx Hy E. unfold in_heap, bend in *. simpl in *. lia. Qed.

Lemma disj_joinable c : 1 ≤ c.2 → joinable (disj c).
Proof. intros H x y Hx Hy E. unfold disj, bend in *. simpl in *. lia. Qed.

Lemma total_app l l' : total (l ++ l') = total l + total l'.
Proof. induction l as [|b l IH]; simpl; [done|]. rewrite IH. lia. Qed.

Lemma glue_right_total b l : total (glue_right b l) = b.2 + total l.
Proof. destruct l as [|c l]; simpl; [done|]. case_test; simpl; lia. Qed.

Lemma glue_left_total p l : total (glue_left p l) = p.2 + total l.
Proof. destruct l as [|c l]; simpl; [done|]. case_test; simpl; lia. Qed.

(** The order of the list after a block has been put between [p] and [N2]. *)
Lemma glue_right_sorted b l :
  1 ≤ b.2 → StronglySorted before l → Forall (λ c, bend b ≤ c.1 ∧ 1 ≤ c.2) l → StronglySorted before (glue_right b l).
Proof.
  intros Hb Hs Hl. destruct l as [|c l]; [repeat constructor|]. apply StronglySorted_inv in Hs as [Hs Hc].
  apply Forall_cons in Hl as [Hbc Hl]. simpl. case_test.
  - constructor; [done|]. eapply Forall_impl; [exact Hc|]. unfold before, bend in *. simpl. lia.
  - constructor; [by constructor|]. constructor; [unfold before, bend in *; lia|].
    eapply Forall_impl; [exact Hc|]. unfold before, bend in *. simpl in *. lia.
Qed.

Lemma glue_right_shape b l :
  Forall (λ c, 1 ≤ c.2) l →
  ∃ n l', glue_right b l = (b.1, n) :: l' ∧ b.2 ≤ n ∧ ∃ k, l' = drop k l.
Proof.
  intros Hl. destruct l as [|c l]; simpl; [by exists b.2, []; destruct b; split_and!; [..|exists 0%nat]|].
  apply Forall_cons in Hl as [Hc Hl]. case_test.
  - exists (b.2 + c.2), l. split_and!; [done|lia|by exists 1%nat].
  - exists b.2, (c :: l). destruct b. split_and!; [done|done|by exists 0%nat].
Qed.

Lemma glue_left_sorted p b l :
  0 ≤ p.2 → bend p ≤ b.1 → 1 ≤ b.2 → StronglySorted before (b :: l) → StronglySorted before (glue_left p (b :: l)).
Proof.
  intros Hp Hpb Hb Hs. pose proof (StronglySorted_inv Hs) as [Hs' Hbl]. simpl. case_test.
  - constructor; [done|]. eapply Forall_impl; [exact Hbl|]. unfold before, bend in *. simpl in *. lia.
  - constructor; [done|]. constructor; [unfold before, bend in *; lia|].
    eapply Forall_impl; [exact Hbl|]. unfold before, bend in *. simpl in *. lia.
Qed.

Lemma glue_left_shape p l :
  Forall (λ c, 1 ≤ c.2) l → ∃ n l', glue_left p l = (p.1, n) :: l' ∧ p.2 ≤ n.
Proof.
  intros Hl. destruct l as [|c l]; simpl; [by exists p.2, []; destruct p|].
  apply Forall_cons in Hl as [Hc Hl]. destruct p. case_test; eexists _, _; (split; [done|simpl in *; lia]).
Qed.

(** ** The search of [free] *)

Lemma free_search_low fuel m bp p N :
  lseg m (p :: N) base → StronglySorted spaced (p :: N) → base < bp → base ≤ p.1 < bp → Forall (λ c, c.1 ≠ bp) N →
  (length N < fuel)%nat →
  ∃ M1 q M2, p :: N = M1 ++ q :: M2 ∧ free_search fuel m bp p.1 = Some q.1 ∧ q.1 < bp ∧ Forall (λ c, bp < c.1) M2.
Proof.
  revert fuel p. induction N as [|c N IH]; intros fuel p (Hp & _ & HN) Hs Hb Hpb Hne Hf;
    (destruct fuel as [|fuel]; [simpl in Hf; lia|]); cbn [free_search]; rewrite Hp; cbn [head_addr].
  - exists [], p, []. assert (p.1 <? bp = true) as -> by lia. assert (bp <? base = false) as -> by lia.
    assert (base <=? p.1 = true) as -> by lia. split_and!; [done|done|lia|done].
  - apply Forall_cons in Hne as [Hc Hne]. apply StronglySorted_inv in Hs as [Hs Hpc].
    apply Forall_cons in Hpc as [Hpc _]. pose proof (StronglySorted_inv Hs) as [_ HcN]. unfold spaced in *.
    assert (p.1 <? bp = true) as -> by lia. destruct (bp <? c.1) eqn:E; cbn [andb]; bool_prop.
    + exists [], p, (c :: N). split_and!; [done|done|lia|]. constructor; [done|].
      eapply Forall_impl; [exact HcN|]. simpl. lia.
    + assert (c.1 <=? p.1 = false) as -> by lia. cbn [andb].
      destruct (IH fuel c HN Hs Hb ltac:(lia) Hne ltac:(simpl in Hf; lia)) as (M1 & q & M2 & -> & Hq & Hq2).
      exists (p :: M1), q, M2. done.
Qed.

Lemma free_search_high fuel m bp p N :
  lseg m (p :: N) base → StronglySorted spaced (p :: N) → base < bp < p.1 → (length N < fuel)%nat →
  free_search fuel m bp p.1 = free_search (fuel - S (length N)) m bp base.
Proof.
  revert fuel p. induction N as [|c N IH]; intros fuel p (Hp & _ & HN) Hs Hb Hf;
    (destruct fuel as [|fuel]; [simpl in Hf; lia|]); cbn [free_search]; rewrite Hp; cbn [head_addr];
    assert (p.1 <? bp = false) as -> by lia; cbn [andb orb].
  - assert (bp <? base = false) as -> by lia. rewrite andb_false_r. simpl. by rewrite Nat.sub_0_r.
  - apply StronglySorted_inv in Hs as [Hs Hpc]. apply Forall_cons in Hpc as [Hpc _]. unfold spaced in *.
    assert (c.1 <=? p.1 = false) as -> by lia. cbn [andb].
    rewrite IH by (done || simpl in *; lia). done.
Qed.

Abbreviation nodes F := ((base, 0) :: F).

Lemma heap_spaced st F A U : heap st F A U → StronglySorted spaced (nodes F).
Proof.
  intros H. constructor.
  - pose proof (h_sorted _ _ _ _ H) as Hs. pose proof (h_free _ _ _ _ H) as Hf. clear -Hs Hf.
    induction Hs as [|b l Hs IH Hb]; [constructor|]. apply Forall_cons in Hf as [Hbh Hf].
    constructor; [by apply IH|]. eapply Forall_impl; [exact Hb|]. intros c Hc.
    unfold before, bend, spaced, in_heap in *. lia.
  - eapply Forall_impl; [exact (h_free _ _ _ _ H)|]. intros c Hc. unfold in_heap, spaced in *. simpl. lia.
Qed.

Lemma StronglySorted_app_inv_r {B} (R : B → B → Prop) l l' : StronglySorted R (l ++ l') → StronglySorted R l'.
Proof. induction l as [|x l IH]; [done|]. intros H. apply StronglySorted_inv in H as [H _]. auto. Qed.

Lemma nodes_ge st F A U b : heap st F A U → b ∈ nodes F → base ≤ b.1.
Proof.
  intros H Hb. apply elem_of_cons in Hb as [->|Hb]; [done|]. pose proof (h_free _ _ _ _ H) as Hf.
  rewrite Forall_forall in Hf. apply Hf in Hb. unfold in_heap in Hb. lia.
Qed.

Lemma free_search_spec st F A U fuel bp :
  heap st F A U → base < bp → Forall (λ c, c.1 ≠ bp) F → (2 * length (nodes F) ≤ fuel)%nat →
  ∃ M1 q M2, nodes F = M1 ++ q :: M2 ∧ free_search fuel (um st) bp (freep st) = Some q.1 ∧ q.1 < bp ∧
    Forall (λ c, bp < c.1) M2.
Proof.
  intros H Hb Hne Hf. pose proof (heap_spaced _ _ _ _ H) as Hs. pose proof (h_ring _ _ _ _ H) as Hr.
  pose proof (h_freep _ _ _ _ H) as Hfp. apply list_elem_of_fmap in Hfp as (p & Hp & HpN).
  rewrite Hp. pose proof (nodes_ge _ _ _ _ _ H HpN) as Hge.
  assert (Forall (λ c, c.1 ≠ bp) (nodes F)) as HneN by (constructor; [simpl; lia|done]).
  apply list_elem_of_split in HpN as (N1 & N2 & HN). rewrite HN in Hr, Hs, HneN, Hf.
  rewrite length_app in Hf. simpl in Hf. pose proof Hr as Hr0. pose proof Hs as Hs0.
  apply lseg_app in Hr as [_ Hr]. apply StronglySorted_app_inv_r in Hs. apply Forall_app in HneN as [_ HneN].
  apply Forall_cons in HneN as [Hpne HneN].
  destruct (Z_lt_le_dec p.1 bp) as [Hlt|Hle].
  - destruct (free_search_low fuel (um st) bp p N2) as (M1 & q & M2 & HM & Hq & Hq2); try done; try lia.
    exists (N1 ++ M1), q, M2. rewrite HN, HM, <- app_assoc. done.
  - rewrite (free_search_high fuel (um st) bp p N2) by (done || lia).
    change base with (base, 0).1. rewrite <- HN in Hr0, Hs0.
    destruct (free_search_low (fuel - S (length N2)) (um st) bp (base, 0) F) as (M1 & q & M2 & HM & Hq & Hq2);
      try done; simpl; try lia.
    + assert (length (nodes F) = length (N1 ++ p :: N2)) as Hlen by (by rewrite HN).
      rewrite length_app in Hlen. simpl in Hlen. lia.
    + exists M1, q, M2. done.
Qed.

Lemma StronglySorted_replace {B} (R : B → B → Prop) l q l2 l' :
  StronglySorted R (l ++ q :: l2) → StronglySorted R l' → (∀ x, R x q → Forall (R x) l') → StronglySorted R (l ++ l').
Proof.
  intros H Hl' HR. induction l as [|x l IH]; [done|]. simpl in *. apply StronglySorted_inv in H as [H Hx].
  constructor; [by apply IH|]. apply Forall_app in Hx as [Hx Hq]. apply Forall_app. split; [done|].
  apply HR. by apply Forall_cons in Hq as [? _].
Qed.

Lemma nodes_before st F A U : heap st F A U → StronglySorted before (nodes F).
Proof.
  intros H. constructor; [by apply H|]. eapply Forall_impl; [apply H|]. intros c Hc.
  unfold in_heap, before, bend in *. simpl. lia.
Qed.

(** The place of a block [b] that is not free: between [q] and [M2]. *)
Record place (st : umem) (F : list block) (b : block) (M1 : list block) (q : block) (M2 : list block) : Prop := {
  pl_nodes : nodes F = M1 ++ q :: M2;
  pl_q : base ≤ q.1 ∧ 0 ≤ q.2 ∧ bend q ≤ b.1 ∧ q.1 + 16 ≤ b.1;
  pl_after : Forall (λ c, in_heap (brk st) c ∧ bend b ≤ c.1) M2;
}.

Lemma place_intro st F A U b M1 q M2 :
  heap st F A U → in_heap (brk st) b → Forall (disj b) F →
  nodes F = M1 ++ q :: M2 → q.1 < b.1 → Forall (λ c, b.1 < c.1) M2 → place st F b M1 q M2.
Proof.
  intros H Hb Hd HN Hq HM. pose proof (h_free _ _ _ _ H) as Hf.
  assert (Forall (λ c, in_heap (brk st) c ∧ disj b c) F) as HF by (by apply Forall_and).
  split; [done| |].
  - destruct M1 as [|x M1]; simplify_eq/=.
    + unfold bend, in_heap in *. simpl. lia.
    + apply Forall_app in HF as [_ HF]. apply Forall_cons in HF as [HF _].
      unfold in_heap, disj, bend in *. lia.
  - assert (Forall (λ c, in_heap (brk st) c ∧ disj b c) M2) as HF2.
    { destruct M1 as [|x M1]; simplify_eq/=; [done|]. apply Forall_app in HF as [_ HF]. by apply Forall_cons in HF as [_ HF]. }
    rewrite Forall_forall in HF2, HM |- *. intros c Hc. specialize (HF2 c Hc). specialize (HM c Hc).
    unfold in_heap, disj, bend in *. simpl in *. lia.
Qed.

(** Coalescing keeps [base] first and keeps what holds of every free block. *)
Lemma place_glue st F b M1 q M2 :
  place st F b M1 q M2 → base < b.1 → Forall (λ c, 1 ≤ c.2) M2 →
  ∃ F', M1 ++ glue_left q (glue_right b M2) = nodes F' ∧
    (∀ Q, joinable Q → Forall Q F → Q b → Forall Q F') ∧ total F' = total F + b.2 ∧
    (length F' ≤ S (length F))%nat ∧ Exists (λ f, b.2 ≤ f.2) F'.
Proof.
  intros [HN Hq _] Hb HM2. destruct (glue_right_shape b M2 HM2) as (n & l' & HL & Hn & _).
  assert (length (glue_right b M2) ≤ S (length M2))%nat as Hlen by (destruct M2; simpl; [|case_test; simpl]; lia).
  destruct M1 as [|x M1]; simplify_eq/=.
  - assert (bend (base, 0) =? b.1 = false) as E by (unfold bend; simpl; lia).
    exists (glue_right b M2). split_and!.
    + rewrite HL. simpl. by rewrite E.
    + intros Q HQ HF HQb. by apply glue_right_Forall.
    + rewrite glue_right_total. lia.
    + done.
    + rewrite HL. by constructor.
  - exists (M1 ++ glue_left q (glue_right b M2)). split_and!; [done| | | |].
    + intros Q HQ HF HQb. apply Forall_app in HF as [HF1 HF2]. apply Forall_cons in HF2 as [HQq HF2].
      apply Forall_app. split; [done|]. apply glue_left_Forall; [done..|]. by apply glue_right_Forall.
    + rewrite !total_app, glue_left_total, glue_right_total. simpl. lia.
    + rewrite !length_app. rewrite HL in Hlen |- *. simpl in *. case_test; simpl; lia.
    + apply Exists_app. right. rewrite HL. simpl. case_test; [|apply Exists_cons; right]; constructor; simpl; lia.
Qed.

Lemma place_sorted st F A U b M1 q M2 :
  heap st F A U → in_heap (brk st) b → place st F b M1 q M2 →
  StronglySorted before (M1 ++ glue_left q (glue_right b M2)).
Proof.
  intros H Hb [HN Hq HM]. pose proof (nodes_before _ _ _ _ H) as Hs. rewrite HN in Hs.
  assert (Forall (λ c, 1 ≤ c.2) M2) as HM2 by (eapply Forall_impl; [exact HM|]; unfold in_heap; simpl; lia).
  pose proof (StronglySorted_app_inv_r _ _ _ Hs) as Hs2. apply StronglySorted_inv in Hs2 as [Hs2 _].
  assert (StronglySorted before (glue_right b M2)) as HL.
  { apply glue_right_sorted; [unfold in_heap in Hb; lia|done|].
    eapply Forall_impl; [exact HM|]. unfold in_heap. simpl. lia. }
  apply (StronglySorted_replace _ _ q M2); [done| |].
  - destruct (glue_right_shape b M2 HM2) as (n & l' & E & Hn & _). rewrite E in HL |- *.
    unfold in_heap in Hb. apply glue_left_sorted; simpl; [lia..|done].
  - intros x Hx. eapply Forall_impl; [apply (glue_left_Forall (λ y, q.1 ≤ y.1))|].
    + intros y z Hy Hz _. exact Hy.
    + done.
    + apply glue_right_Forall; [intros y z Hy Hz _; exact Hy|unfold bend in *; lia|].
      eapply Forall_impl; [exact HM|]. intros c [_ Hc]. unfold bend, in_heap in *. lia.
    + intros y Hy. unfold before in *. lia.
Qed.

Lemma place_ring st F A U b M1 q M2 :
  heap st F A U → in_heap (brk st) b → hsize (um st) b.1 = b.2 → place st F b M1 q M2 →
  ∃ m1, only_header b.1 (um st) m1 ∧
    only_header q.1 m1 (join_left (join_right (um st) b.1 q.1) b.1 q.1) ∧
    lseg (join_left (join_right (um st) b.1 q.1) b.1 q.1) (M1 ++ glue_left q (glue_right b M2)) base.
Proof.
  intros H Hb Hbs [HN Hq HM]. pose proof (heap_spaced _ _ _ _ H) as Hs. pose proof (h_ring _ _ _ _ H) as Hr.
  pose proof (h_brk _ _ _ _ H) as Hbrk. pose proof (h_base _ _ _ _ H) as Hbase.
  rewrite HN in Hs, Hr. apply lseg_app in Hr as [Hr1 Hr]. pose proof (StronglySorted_app_inv_r _ _ _ Hs) as Hs2.
  pose proof (StronglySorted_inv Hs2) as [HsM HqM]. pose proof Hr as (_ & Hqs & _).
  assert (1 ≤ b.2 ∧ base + 16 ≤ b.1 ∧ b.1 + 16 * b.2 ≤ brk st) as Hb' by exact Hb.
  assert (Forall (λ c, 1 ≤ c.2) M2) as HM2 by (eapply Forall_impl; [exact HM|]; unfold in_heap; simpl; lia).
  destruct (join_right_spec (um st) b q M2 base) as [HL Ho1]; try done; try (unfold spaced; lia).
  { eapply Forall_impl; [exact HM|]. intros c Hc. unfold bend, spaced in *. lia. }
  { eapply Forall_impl; [exact HM|]. intros c Hc. unfold in_heap, bend in *. lia. }
  assert (Forall (in_heap (brk st)) (glue_right b M2)) as HLh.
  { apply glue_right_Forall; [apply in_heap_joinable|done|]. eapply Forall_impl; [exact HM|]. by intros c [? _]. }
  destruct (glue_right_shape b M2 HM2) as (n & l' & E & Hn & k & Hk). rewrite E in HL, HLh |- *.
  apply Forall_cons in HLh as [Hbn HLh]. unfold in_heap, bend in Hbn. simpl in Hbn.
  set (m1 := join_right (um st) b.1 q.1) in *.
  assert (Forall (spaced (b.1, n)) l') as Hsp.
  { rewrite Hk. apply Forall_drop. eapply Forall_impl; [exact HM|]. intros c Hc. unfold bend, spaced in *. simpl in *. lia. }
  assert (lseg (join_left m1 b.1 q.1) (glue_left q ((b.1, n) :: l')) base ∧ only_header q.1 m1 (join_left m1 b.1 q.1))
    as [HR Ho2].
  { apply (join_left_spec m1 (b.1, n)); try done; unfold bend, spaced in *; simpl in *; try lia.
    - by rewrite (only_header_hsize b.1 q.1 (um st) m1) by (done || lia).
    - destruct HL as (-> & _). destruct l' as [|c l']; simpl; [lia|]. apply Forall_cons in HLh as [Hc _].
      unfold in_heap, bend in Hc. lia. }
  exists m1. split_and!; [done|done|]. apply lseg_app. split; [|done].
  assert (Forall (λ c, c.1 + 16 ≤ q.1) M1) as HM1.
  { clear -Hs. induction M1 as [|x M1 IH]; [constructor|]. simpl in Hs. apply StronglySorted_inv in Hs as [Hs Hx].
    constructor; [|by apply IH]. apply Forall_app in Hx as [_ Hx]. by apply Forall_cons in Hx as [Hx _]. }
  assert (head_addr (glue_left q ((b.1, n) :: l')) base = q.1) as -> by (simpl; by case_test).
  eapply (lseg_frame q.1 m1); [done|eapply Forall_impl; [exact HM1|]; simpl; lia|].
  eapply (lseg_frame b.1); [done|eapply Forall_impl; [exact HM1|]; simpl; lia|]. exact Hr1.
Qed.

(** The header of a node of the list is away from an allocated block. *)
Lemma node_away st F A U c q :
  heap st F A U → in_heap (brk st) c → Forall (disj c) F → q ∈ nodes F → bend c ≤ q.1 ∨ q.1 + 16 ≤ c.1.
Proof.
  intros H Hc Hd Hq. apply elem_of_cons in Hq as [->|Hq]; [unfold in_heap in Hc; simpl; lia|].
  pose proof (h_free _ _ _ _ H) as Hf. rewrite Forall_forall in Hf, Hd. specialize (Hf q Hq). specialize (Hd q Hq).
  unfold in_heap, disj, bend in *. lia.
Qed.

(** The bytes of the blocks [A] are the same. *)
Definition same_blocks (A : list block) (m m' : mem) : Prop :=
  ∀ c a, c ∈ A → c.1 ≤ a < bend c → m' a = m a.

Lemma same_blocks_hsize A m m' c : same_blocks A m m' → c ∈ A → 1 ≤ c.2 → hsize m' c.1 = hsize m c.1.
Proof. intros H Hc H1. apply ld_ext. intros a Ha. apply (H c); [done|]. unfold bend. lia. Qed.

Lemma StronglySorted_remove {B} (R : B → B → Prop) l x l' : StronglySorted R (l ++ x :: l') → StronglySorted R (l ++ l').
Proof.
  induction l as [|y l IH]; simpl; intros H; apply StronglySorted_inv in H as [H Hy]; [done|].
  constructor; [by apply IH|]. apply Forall_app in Hy as [? Hy]. apply Forall_cons in Hy as [_ Hy]. by apply Forall_app.
Qed.

Lemma disj_others l b l' c : StronglySorted disj (l ++ b :: l') → c ∈ l ++ l' → disj c b.
Proof.
  intros H Hc. apply elem_of_app in Hc as [Hc|Hc].
  - induction l as [|y l IH]; [by apply not_elem_of_nil in Hc|]. simpl in H. apply StronglySorted_inv in H as [H Hy].
    apply elem_of_cons in Hc as [->|Hc]; [|by apply IH]. apply Forall_app in Hy as [_ Hy]. by apply Forall_cons in Hy as [Hy _].
  - apply StronglySorted_app_inv_r in H. apply StronglySorted_inv in H as [_ Hb]. rewrite Forall_forall in Hb.
    specialize (Hb c Hc). unfold disj in *. lia.
Qed.

(** [free] gives the block back to the list. *)
Lemma free_heap st F A1 b A2 U fuel :
  heap st F (A1 ++ b :: A2) U → (2 * length (nodes F) ≤ fuel)%nat →
  ∃ st' F', free fuel (b.1 + 16) st = Some st' ∧ heap st' F' (A1 ++ A2) U ∧ brk st' = brk st ∧
    same_blocks (A1 ++ A2) (um st) (um st') ∧ (length F' ≤ S (length F))%nat ∧ Exists (λ f, b.2 ≤ f.2) F'.
Proof.
  intros H Hfuel. pose proof (h_alloc _ _ _ _ H) as HA.
  assert ((in_heap (brk st) b ∧ hsize (um st) b.1 = b.2 ∧ Forall (disj b) F) ∧
    Forall (λ b, in_heap (brk st) b ∧ hsize (um st) b.1 = b.2 ∧ Forall (disj b) F) (A1 ++ A2)) as [(Hb & Hbs & Hbd) HA'].
  { apply Forall_app in HA as [HA1 HA2]. apply Forall_cons in HA2 as [? ?]. split; [done|by apply Forall_app]. }
  assert (1 ≤ b.2 ∧ base + 16 ≤ b.1 ∧ b.1 + 16 * b.2 ≤ brk st) as Hb' by exact Hb.
  destruct (free_search_spec st F _ U fuel b.1 H) as (M1 & q & M2 & HN & Hsearch & Hq & HM2); [lia| |done|].
  { pose proof (h_free _ _ _ _ H) as Hf. rewrite Forall_forall in Hbd, Hf |- *. intros c Hc.
    specialize (Hbd c Hc). specialize (Hf c Hc). unfold disj, in_heap, bend in *. lia. }
  pose proof (place_intro _ _ _ _ _ _ _ _ H Hb Hbd HN Hq HM2) as Hpl.
  destruct (place_ring _ _ _ _ _ _ _ _ H Hb Hbs Hpl) as (m1 & Ho1 & Ho2 & Hring).
  pose proof (place_sorted _ _ _ _ _ _ _ _ H Hb Hpl) as Hsorted.
  assert (Forall (λ c, 1 ≤ c.2) M2) as HM21.
  { eapply Forall_impl; [apply (pl_after _ _ _ _ _ _ Hpl)|]. unfold in_heap. simpl. lia. }
  destruct (place_glue _ _ _ _ _ _ Hpl ltac:(lia) HM21) as (F' & HF' & HQ & Htot & Hlen & Hex). rewrite HF' in Hring, Hsorted.
  set (m' := join_left _ _ _) in *.
  assert (same_blocks (A1 ++ A2) (um st) m') as Hsame.
  { intros c a Hc Ha. rewrite Forall_forall in HA'. destruct (HA' c Hc) as (Hch & _ & Hcd).
    assert (q ∈ nodes F) as HqN by (rewrite HN; set_solver).
    pose proof (node_away _ _ _ _ c q H Hch Hcd HqN). pose proof (disj_others _ _ _ c (h_disj _ _ _ _ H) Hc) as Hcb.
    unfold in_heap, disj, bend in *. rewrite Ho2 by lia. apply Ho1. lia. }
  exists (mk_umem m' q.1 (brk st)), F'. split_and!; [|split|done|done|done|done].
  - unfold free. replace (b.1 + 16 - 16) with b.1 by lia. by rewrite Hsearch.
  - apply H.
  - apply H.
  - done.
  - by apply StronglySorted_inv in Hsorted as [? _].
  - simpl. apply HQ; [apply in_heap_joinable|apply H|done].
  - rewrite <- HF', map_app. apply elem_of_app. right. destruct (glue_left_shape q (glue_right b M2)) as (n & l' & -> & _).
    { apply glue_right_Forall; [intros x y ? ? _; simpl; lia|lia|done]. }
    simpl. left.
  - rewrite Forall_forall in HA' |- *. intros c Hc. destruct (HA' c Hc) as (Hch & Hcs & Hcd). split_and!; [done| |].
    + simpl. rewrite (same_blocks_hsize (A1 ++ A2) (um st)) by (done || unfold in_heap in Hch; lia). done.
    + apply HQ; [apply disj_joinable; unfold in_heap in Hch; lia|done|]. by apply (disj_others _ _ _ c (h_disj _ _ _ _ H)).
  - by eapply StronglySorted_remove, H.
  - pose proof (h_units _ _ _ _ H) as HU. rewrite !total_app in HU |- *. simpl in HU. lia.
Qed.

(** ** More memory from the kernel *)

Lemma lseg_ext m m' l nxt :
  (∀ b a, b ∈ l → b.1 ≤ a < b.1 + 16 → m' a = m a) → lseg m l nxt → lseg m' l nxt.
Proof.
  induction l as [|b l IH]; [done|]. intros H (Hp & Hs & Hl). simpl. split_and!.
  - rewrite <- Hp. apply ld_ext. intros a Ha. apply (H b); [left|lia].
  - rewrite <- Hs. apply ld_ext. intros a Ha. apply (H b); [left|lia].
  - apply IH; [|done]. intros c a Hc. apply H. by right.
Qed.

Lemma heap_grow st F A U m' n :
  heap st F A U → (∀ a, a < brk st → m' a = um st a) → hsize m' (brk st) = n → 1 ≤ n →
  brk st + 16 * n ≤ 68719476736 →
  heap (mk_umem m' (freep st) (brk st + 16 * n)) F ((brk st, n) :: A) (U + n).
Proof.
  intros H Hm Hn Hn1 Hlim. pose proof (h_brk _ _ _ _ H) as Hbrk.
  assert (∀ b, in_heap (brk st) b → in_heap (brk st + 16 * n) b) as Hmono by (unfold in_heap; intros; lia).
  assert (∀ b, in_heap (brk st) b → disj (brk st, n) b) as Hnew by (unfold in_heap, disj; simpl; intros; lia).
  split; cbn [um freep brk].
  - apply H.
  - lia.
  - eapply lseg_ext; [|apply H]. intros b a Hb Ha. apply Hm. apply elem_of_cons in Hb as [->|Hb]; [simpl in Ha; lia|].
    pose proof (h_free _ _ _ _ H) as Hf. rewrite Forall_forall in Hf. specialize (Hf b Hb).
    unfold in_heap, bend in Hf. lia.
  - apply H.
  - eapply Forall_impl; [apply H|done].
  - apply H.
  - constructor.
    + split_and!; [unfold in_heap, bend; simpl; lia|done|]. eapply Forall_impl; [apply H|done].
    + eapply Forall_impl; [apply H|]. intros c (Hc & Hs & Hd). split_and!; [by apply Hmono| |done].
      rewrite <- Hs. apply ld_ext. intros a Ha. apply Hm. unfold in_heap, bend in Hc. lia.
  - constructor; [apply H|]. eapply Forall_impl; [apply H|]. intros c (Hc & _). by apply Hnew.
  - pose proof (h_units _ _ _ _ H). simpl. lia.
Qed.

Context (avail : Z → Z → bool).

(** What [malloc] asks [morecore] for. *)
Definition more_units (nu : Z) : Z := if nu <? 4096 then 4096 else nu.

(** The kernel never gives more than 64 GB; the 32-bit sizes hold that many. *)
Definition avail_bounded : Prop := ∀ b n, avail b n = true → b + n ≤ 68719476736.

Lemma heap_freep_pos st F A U : heap st F A U → 0 < freep st.
Proof.
  intros H. pose proof (h_base _ _ _ _ H). pose proof (h_freep _ _ _ _ H) as Hf.
  apply list_elem_of_fmap in Hf as (p & -> & Hp). pose proof (nodes_ge _ _ _ _ _ H Hp). lia.
Qed.

Lemma PGROUNDUP_le a : 0 ≤ a ≤ 68719476736 → a ≤ PGROUNDUP a.
Proof. intros Ha. rewrite PGROUNDUP_spec by lia. zarith. Qed.

Lemma morecore_heap st F A U fuel nu :
  avail_bounded → heap st F A U → 1 ≤ nu → 16 * more_units nu < 2147483648 → (2 * length (nodes F) ≤ fuel)%nat →
  if avail (brk st) (16 * more_units nu) then
    ∃ st' F', morecore avail fuel nu st = Some (freep st', st') ∧ heap st' F' A (U + more_units nu) ∧
      brk st' = brk st + 16 * more_units nu ∧ same_blocks A (um st) (um st') ∧
      (length F' ≤ S (length F))%nat ∧ Exists (λ f, nu ≤ f.2) F'
  else morecore avail fuel nu st = Some (0, st).
Proof.
  intros Hav H Hnu Hint Hfuel. unfold morecore. fold (more_units nu).
  assert (nu ≤ more_units nu ∧ 4096 ≤ more_units nu) as Hchunk by (unfold more_units; case_test; lia).
  pose proof (h_brk _ _ _ _ H) as Hbrk. pose proof (h_base _ _ _ _ H) as Hbase.
  rewrite s32_small by lia. replace (more_units nu * 16) with (16 * more_units nu) by lia. unfold usbrk.
  assert (0 <? 16 * more_units nu = true) as -> by lia.
  destruct (avail (brk st) (16 * more_units nu)) eqn:Ea; [|done].
  assert (brk st =? -1 = false) as -> by lia. cbn [um freep brk].
  set (m' := set_size _ _ _).
  assert (heap (mk_umem m' (freep st) (brk st + 16 * more_units nu)) F ((brk st, more_units nu) :: A) (U + more_units nu)) as Hg.
  { apply heap_grow; [done| |subst m'; apply hsize_set_size; lia|lia|by apply Hav].
    intros a Ha. subst m'. rewrite set_size_only by lia. pose proof (PGROUNDUP_le (brk st)).
    assert (PGROUNDUP (brk st) <=? a = false) as -> by lia. done. }
  destruct (free_heap _ F [] _ A _ fuel Hg Hfuel) as (st' & F' & Hf & Hh & Hb & Hs & Hl & He).
  unfold hplus. replace (16 * 1) with 16 by lia. cbn [fst snd] in Hf. rewrite Hf.
  exists st', F'. split_and!; try done.
  - intros c a Hc Ha. rewrite (Hs c a Hc Ha). subst m'. cbn [um].
    pose proof (h_alloc _ _ _ _ H) as HA. rewrite Forall_forall in HA. destruct (HA c Hc) as [Hci _].
    unfold in_heap in Hci. rewrite set_size_only by lia. pose proof (PGROUNDUP_le (brk st)).
    assert (PGROUNDUP (brk st) <=? a = false) as -> by lia. done.
  - eapply Exists_impl; [exact He|]. simpl. lia.
Qed.

(** ** Taking a block *)

Lemma free_mid st G1 x G2 A U :
  heap st (G1 ++ x :: G2) A U →
  in_heap (brk st) x ∧ Forall (λ c, bend c < x.1) G1 ∧ Forall (λ c, bend x < c.1) G2 ∧
  Forall (in_heap (brk st)) (G1 ++ G2) ∧ hptr (um st) x.1 = head_addr G2 base ∧ hsize (um st) x.1 = x.2.
Proof.
  intros H. pose proof (h_free _ _ _ _ H) as Hf. pose proof (h_sorted _ _ _ _ H) as Hs.
  pose proof (h_ring _ _ _ _ H) as Hr. change (nodes (G1 ++ x :: G2)) with (nodes G1 ++ x :: G2) in Hr.
  apply lseg_app in Hr as [_ (Hp & Hz & _)]. apply Forall_app in Hf as [Hf1 Hf2]. apply Forall_cons in Hf2 as [Hx Hf2].
  split_and!; [done| | |by apply Forall_app|done|done].
  - clear -Hs. induction G1 as [|c G1 IH]; [constructor|]. simpl in Hs. apply StronglySorted_inv in Hs as [Hs Hc].
    constructor; [|by apply IH]. apply Forall_app in Hc as [_ Hc]. by apply Forall_cons in Hc as [Hc _].
  - apply StronglySorted_app_inv_r in Hs. by apply StronglySorted_inv in Hs as [_ Hs].
Qed.

(** A whole block: it is unlinked from its predecessor [y]. *)
Lemma take_whole st M1 y G1 x G2 A U :
  heap st (G1 ++ x :: G2) A U → nodes G1 = M1 ++ [y] →
  heap (mk_umem (set_ptr (um st) y.1 (hptr (um st) x.1)) y.1 (brk st)) (G1 ++ G2) (x :: A) U ∧
  same_blocks A (um st) (set_ptr (um st) y.1 (hptr (um st) x.1)).
Proof.
  intros H HN. destruct (free_mid _ _ _ _ _ _ H) as (Hx & Hb & Ha & Hf & Hp & Hz). rewrite Hp.
  pose proof (h_brk _ _ _ _ H) as Hbrk. pose proof (h_base _ _ _ _ H) as Hbase.
  set (m' := set_ptr _ _ _). assert (only_header y.1 (um st) m') as Ho by apply set_ptr_only.
  assert (y ∈ nodes (G1 ++ x :: G2)) as Hy.
  { change (nodes (G1 ++ x :: G2)) with (nodes G1 ++ x :: G2). rewrite HN. set_solver. }
  pose proof (h_alloc _ _ _ _ H) as HA. rewrite Forall_forall in HA.
  assert (same_blocks A (um st) m') as Hsame.
  { intros c a Hc Hca. apply Ho. destruct (HA c Hc) as (Hci & _ & Hcd).
    pose proof (node_away _ _ _ _ c y H Hci Hcd Hy). lia. }
  pose proof (heap_spaced _ _ _ _ H) as Hsp. change (nodes (G1 ++ x :: G2)) with (nodes G1 ++ x :: G2) in Hsp.
  pose proof (h_ring _ _ _ _ H) as Hr. change (nodes (G1 ++ x :: G2)) with (nodes G1 ++ x :: G2) in Hr.
  rewrite HN, <- app_assoc in Hr, Hsp. apply lseg_app in Hr as [Hr1 Hr]. destruct Hr as (Hyp & Hys & Hr).
  pose proof (StronglySorted_app_inv_r _ _ _ Hsp) as Hsp2. apply StronglySorted_inv in Hsp2 as [Hsp2 Hy2].
  apply Forall_cons in Hy2 as [Hyx Hy2]. unfold spaced in Hyx, Hy2.
  split; [|done]. split; cbn [um freep brk].
  - done.
  - done.
  - change (nodes (G1 ++ G2)) with (nodes G1 ++ G2). rewrite HN, <- app_assoc. apply lseg_app. split.
    + eapply lseg_frame; [done| |exact Hr1]. clear -Hsp. induction M1 as [|z M1 IH]; [constructor|].
      simpl in Hsp. apply StronglySorted_inv in Hsp as [Hsp Hzs]. constructor; [|by apply IH].
      apply Forall_app in Hzs as [_ Hzs]. apply Forall_cons in Hzs as [Hzs _]. unfold spaced in Hzs. lia.
    + simpl. split_and!.
      * subst m'. rewrite hptr_set_ptr; [done|]. destruct G2 as [|c G2]; simpl; [lia|].
        apply Forall_app in Hf as [_ Hf]. apply Forall_cons in Hf as [Hc _]. unfold in_heap, bend in Hc. lia.
      * subst m'. rewrite hsize_set_ptr by lia. done.
      * destruct Hr as (_ & _ & Hr). eapply lseg_frame; [done| |exact Hr].
        eapply Forall_impl; [exact Hy2|]. simpl. lia.
  - eapply StronglySorted_remove, H.
  - done.
  - change (nodes (G1 ++ G2)) with (nodes G1 ++ G2). rewrite HN, !map_app. simpl. set_solver.
  - constructor.
    + split_and!; [done| |].
      * rewrite <- Hz. apply (only_header_hsize y.1); [done|lia].
      * apply Forall_app. unfold in_heap, disj, bend in *.
        split; [eapply Forall_impl; [exact Hb|]|eapply Forall_impl; [exact Ha|]]; simpl; lia.
    + apply Forall_forall. intros c Hc. destruct (HA c Hc) as (Hci & Hcs & Hcd). split_and!; [done| |].
      * rewrite (same_blocks_hsize A (um st)) by (done || unfold in_heap in Hci; lia). done.
      * apply Forall_app in Hcd as [Hd1 Hd2]. apply Forall_cons in Hd2 as [_ Hd2]. by apply Forall_app.
  - constructor; [apply H|]. apply Forall_forall. intros c Hc. destruct (HA c Hc) as (_ & _ & Hcd).
    apply Forall_app in Hcd as [_ Hd]. apply Forall_cons in Hd as [Hd _]. unfold disj in *. lia.
  - pose proof (h_units _ _ _ _ H) as HU. rewrite total_app in HU |- *. simpl in *. lia.
Qed.

(** The tail of a bigger block: the front stays in the list. *)
Lemma take_tail st G1 x G2 A U nu fp :
  heap st (G1 ++ x :: G2) A U → 1 ≤ nu < x.2 → fp ∈ map fst (nodes (G1 ++ x :: G2)) →
  let p := x.1 + 16 * (x.2 - nu) in
  let m' := set_size (set_size (um st) x.1 (x.2 - nu)) p nu in
  heap (mk_umem m' fp (brk st)) (G1 ++ (x.1, x.2 - nu) :: G2) ((p, nu) :: A) U ∧ same_blocks A (um st) m'.
Proof.
  intros H Hnu Hfp p m'. destruct (free_mid _ _ _ _ _ _ H) as (Hx & Hb & Ha & Hf & Hp & Hz).
  pose proof (h_brk _ _ _ _ H) as Hbrk. pose proof (h_base _ _ _ _ H) as Hbase.
  assert (1 ≤ x.2 ∧ base + 16 ≤ x.1 ∧ x.1 + 16 * x.2 ≤ brk st) as Hx' by exact Hx.
  assert (∀ a, a < x.1 ∨ bend x ≤ a → m' a = um st a) as Hout.
  { intros a Hx0. unfold bend in Hx0. subst m' p. rewrite set_size_only by lia. apply set_size_only. lia. }
  pose proof (h_alloc _ _ _ _ H) as HA. rewrite Forall_forall in HA.
  assert (∀ c, c ∈ A → disj c x) as Hcx.
  { intros c Hc. destruct (HA c Hc) as (_ & _ & Hcd). apply Forall_app in Hcd as [_ Hd]. by apply Forall_cons in Hd as [Hd _]. }
  assert (same_blocks A (um st) m') as Hsame.
  { intros c a Hc Hca. apply Hout. specialize (Hcx c Hc). destruct (HA c Hc) as (Hci & _).
    unfold in_heap, disj, bend in *. lia. }
  split; [|done]. split; cbn [um freep brk].
  - done.
  - done.
  - pose proof (h_ring _ _ _ _ H) as Hr. change (nodes (G1 ++ x :: G2)) with (nodes G1 ++ x :: G2) in Hr.
    change (nodes (G1 ++ (x.1, x.2 - nu) :: G2)) with (nodes G1 ++ (x.1, x.2 - nu) :: G2).
    apply lseg_app in Hr as [Hr1 (_ & _ & Hr2)]. apply lseg_app. split; [|split_and!; simpl].
    + eapply lseg_ext; [|exact Hr1]. intros b a Hbn Hab. apply Hout. apply elem_of_cons in Hbn as [->|Hbn]; [simpl in Hab; lia|].
      apply Forall_app in Hf as [Hf1 _]. rewrite Forall_forall in Hb, Hf1. specialize (Hb b Hbn). specialize (Hf1 b Hbn).
      unfold in_heap, bend in *. lia.
    + subst m' p. rewrite !hptr_set_size by lia. done.
    + subst m' p. rewrite hsize_set_size_ne by lia. apply hsize_set_size. lia.
    + eapply lseg_ext; [|exact Hr2]. intros b a Hbn Hab. apply Hout. rewrite Forall_forall in Ha. specialize (Ha b Hbn). simpl in *. lia.
  - apply (StronglySorted_replace _ _ x G2); [apply H| |].
    + constructor; [|eapply Forall_impl; [exact Ha|]; unfold before, bend; simpl; lia].
      pose proof (h_sorted _ _ _ _ H) as Hs. apply StronglySorted_app_inv_r in Hs. by apply StronglySorted_inv in Hs as [Hs _].
    + intros y Hy. unfold before, bend in *. constructor; [simpl; lia|]. eapply Forall_impl; [exact Ha|]. simpl. lia.
  - apply Forall_app in Hf as [Hf1 Hf2]. apply Forall_app. split; [done|]. constructor; [unfold in_heap, bend; simpl; lia|done].
  - change (nodes (G1 ++ (x.1, x.2 - nu) :: G2)) with (nodes G1 ++ (x.1, x.2 - nu) :: G2).
    change (nodes (G1 ++ x :: G2)) with (nodes G1 ++ x :: G2) in Hfp. rewrite map_app in *. done.
  - constructor.
    + split_and!; [subst p; unfold in_heap, bend; simpl; lia| |].
      * subst m'. apply hsize_set_size. simpl. lia.
      * subst p. apply Forall_app. unfold disj, bend, in_heap in *. split; [|constructor; [simpl; lia|]].
        -- eapply Forall_impl; [exact Hb|]. simpl. lia.
        -- eapply Forall_impl; [exact Ha|]. simpl. lia.
    + apply Forall_forall. intros c Hc. destruct (HA c Hc) as (Hci & Hcs & Hcd). specialize (Hcx c Hc). split_and!; [done| |].
      * rewrite (same_blocks_hsize A (um st)) by (done || unfold in_heap in Hci; lia). done.
      * apply Forall_app in Hcd as [Hd1 Hd2]. apply Forall_cons in Hd2 as [_ Hd2]. apply Forall_app. split; [done|].
        constructor; [|done]. unfold disj, bend in *. simpl. lia.
  - constructor; [apply H|]. apply Forall_forall. intros c Hc. specialize (Hcx c Hc). subst p. unfold disj, bend in *. simpl. lia.
  - pose proof (h_units _ _ _ _ H) as HU. rewrite total_app in HU |- *. simpl in *. lia.
Qed.

Lemma take_block_heap st M1 y G1 x G2 A U nu :
  heap st (G1 ++ x :: G2) A U → nodes G1 = M1 ++ [y] → 1 ≤ nu ≤ x.2 →
  ∃ p st' F', take_block nu y.1 x.1 st = (p + 16, st') ∧ heap st' F' ((p, nu) :: A) U ∧ brk st' = brk st ∧
    same_blocks A (um st) (um st').
Proof.
  intros H HN Hnu. destruct (free_mid _ _ _ _ _ _ H) as (Hx & _ & _ & _ & _ & Hz). unfold take_block. rewrite Hz.
  pose proof (h_brk _ _ _ _ H) as Hbrk. pose proof (h_base _ _ _ _ H) as Hbase.
  destruct (Z.eqb_spec x.2 nu) as [<-|Hne].
  - destruct (take_whole _ _ _ _ _ _ _ _ H HN) as [Hh Hs]. exists x.1. eexists _, _. split; [done|].
    split; [|done]. destruct x. exact Hh.
  - destruct (take_tail st G1 x G2 A U nu y.1 H) as [Hh Hs]; [lia| |].
    { change (nodes (G1 ++ x :: G2)) with (nodes G1 ++ x :: G2). rewrite HN, !map_app. simpl. set_solver. }
    unfold in_heap, bend in Hx. rewrite hsize_set_size by lia. eexists _, _, _. split; [|split; [exact Hh|done]].
    done.
Qed.

(** ** The scan of [malloc] *)

Definition last_addr (d : Z) (l : list block) : Z := foldl (λ _ b, b.1) d l.

Lemma last_addr_snoc d l y : last_addr d (l ++ [y]) = y.1.
Proof. unfold last_addr. by rewrite foldl_app. Qed.

Lemma malloc_loop_scan fuel nu st prevp l fp nxt :
  lseg (um st) (l ++ [fp]) nxt → fp.1 = freep st → Forall (λ c, c.1 ≠ freep st) l → (length l < fuel)%nat →
  (∃ l1 x l2, l ++ [fp] = l1 ++ x :: l2 ∧ nu ≤ x.2 ∧
     malloc_loop avail fuel nu prevp (head_addr (l ++ [fp]) nxt) st = Some (take_block nu (last_addr prevp l1) x.1 st)) ∨
  (Forall (λ c, c.2 < nu) (l ++ [fp]) ∧
     malloc_loop avail fuel nu prevp (head_addr (l ++ [fp]) nxt) st =
       match morecore avail (fuel - S (length l)) nu st with
       | None => None
       | Some (p, st) =>
           if p =? 0 then Some (0, st) else malloc_loop avail (fuel - S (length l)) nu p (hptr (um st) p) st
       end).
Proof.
  revert fuel prevp. induction l as [|b l IH]; intros fuel prevp Hl Hfp Hne Hf;
    (destruct fuel as [|fuel]; [simpl in Hf; lia|]); cbn [app head_addr malloc_loop].
  - destruct Hl as (_ & Hs & _). rewrite Hs. destruct (nu <=? fp.2) eqn:E; bool_prop.
    + left. by exists [], fp, [].
    + right. split; [by constructor|]. rewrite Hfp, Z.eqb_refl. simpl. by rewrite Nat.sub_0_r.
  - destruct Hl as (Hp & Hs & Hl). apply Forall_cons in Hne as [Hb Hne]. rewrite Hs.
    destruct (nu <=? b.2) eqn:E; bool_prop; [left; by exists [], b, (l ++ [fp])|].
    rewrite (proj2 (Z.eqb_neq _ _) Hb). rewrite Hp. fold (app l [fp]).
    destruct (IH fuel b.1 Hl Hfp Hne ltac:(simpl in Hf; lia)) as [(l1 & x & l2 & Heq & Hx & ->)|[Hall ->]].
    + left. exists (b :: l1), x, l2. split_and!; [simpl; by rewrite Heq|done|done].
    + right. split; [by constructor|done].
Qed.

(** The order of the scan, the list rotated to start after the roving pointer. *)
Lemma ring_rotate m F N1 fp N2 :
  lseg m (nodes F) base → nodes F = N1 ++ fp :: N2 →
  lseg m ((N2 ++ N1) ++ [fp]) (head_addr N2 base) ∧
  head_addr ((N2 ++ N1) ++ [fp]) (head_addr N2 base) = hptr m fp.1.
Proof.
  intros Hr HN. rewrite HN in Hr. apply lseg_app in Hr as [Hr1 (Hp & Hs & Hr2)].
  assert (head_addr (N1 ++ [fp]) (head_addr N2 base) = base) as Hb by (destruct N1; by simplify_eq/=).
  rewrite <- app_assoc. split.
  - apply lseg_app. rewrite Hb. split; [done|]. apply lseg_app. by split.
  - rewrite Hp. destruct N2; [exact Hb|done].
Qed.

(** The block before [x] in the scan is the one before it in the list. *)
Lemma ring_pred F N1 fp N2 l1 x l2 :
  nodes F = N1 ++ fp :: N2 → (N2 ++ N1) ++ [fp] = l1 ++ x :: l2 → 1 ≤ x.2 →
  ∃ G1 G2 M1 y, F = G1 ++ x :: G2 ∧ nodes G1 = M1 ++ [y] ∧ last_addr fp.1 l1 = y.1.
Proof.
  intros HN Hl Hx. rewrite <- app_assoc in Hl.
  assert (∀ k G2, nodes F = k ++ x :: G2 → ∃ G1 M1 y, F = G1 ++ x :: G2 ∧ nodes G1 = M1 ++ [y] ∧ k = M1 ++ [y]) as Hk.
  { intros k G2 Hk. destruct k as [|z k]; simplify_eq/=; [lia|]. exists k.
    destruct (exists_last (l := nodes k)) as (M1 & y & Hy); [done|]. by exists M1, y. }
  destruct (app_eq_inv _ _ _ _ Hl) as [(k & -> & Hk2)|(k & -> & Hk2)].
  - destruct k as [|z k]; simplify_eq/=.
    + exfalso. destruct N1 as [|z N1]; simplify_eq/=; lia.
    + destruct (Hk (N1 ++ fp :: l1) k) as (G1 & M1 & y & HF & HG & Hm); [by rewrite HN, <- app_assoc|].
      exists G1, k, M1, y. split_and!; [done..|].
      destruct (exists_last (l := fp :: l1)) as (M & y' & Hy); [done|].
      assert (y' = y) as ->.
      { rewrite Hy, app_assoc in Hm. by apply app_inj_tail in Hm as [_ ?]. }
      change (last_addr fp.1 l1) with (last_addr 0 (fp :: l1)). rewrite Hy. apply last_addr_snoc.
  - destruct (Hk k (l2 ++ N2)) as (G1 & M1 & y & HF & HG & ->).
    { change (fp :: N2) with ([fp] ++ N2) in HN. rewrite HN, app_assoc, Hk2. by rewrite <- app_assoc. }
    exists G1, (l2 ++ N2), M1, y. split_and!; [done..|]. rewrite app_assoc. apply last_addr_snoc.
Qed.

Lemma malloc_loop_start st F A U fuel nu :
  heap st F A U → 1 ≤ nu → (length (nodes F) ≤ fuel)%nat →
  (∃ p st' F', malloc_loop avail fuel nu (freep st) (hptr (um st) (freep st)) st = Some (p + 16, st') ∧
     heap st' F' ((p, nu) :: A) U ∧ brk st' = brk st ∧ same_blocks A (um st) (um st')) ∨
  (Forall (λ c, c.2 < nu) F ∧
     malloc_loop avail fuel nu (freep st) (hptr (um st) (freep st)) st =
       match morecore avail (fuel - length (nodes F)) nu st with
       | None => None
       | Some (p, st) =>
           if p =? 0 then Some (0, st) else malloc_loop avail (fuel - length (nodes F)) nu p (hptr (um st) p) st
       end).
Proof.
  intros H Hnu Hf. pose proof (h_freep _ _ _ _ H) as Hfp. apply list_elem_of_fmap in Hfp as (fp & Hfp & HfN).
  apply list_elem_of_split in HfN as (N1 & N2 & HN). pose proof (heap_spaced _ _ _ _ H) as Hs. rewrite HN in Hs.
  destruct (ring_rotate _ _ _ _ _ (h_ring _ _ _ _ H) HN) as [Hr Hhd].
  assert (length (nodes F) = S (length (N2 ++ N1))) as Hlen by (rewrite HN, !length_app; simpl; lia).
  destruct (malloc_loop_scan fuel nu st (freep st) (N2 ++ N1) fp _ Hr) as [(l1 & x & l2 & Hl & Hx & Hm)|[Hall Hm]].
  - done.
  - rewrite Hfp. apply Forall_app. split.
    + apply StronglySorted_app_inv_r, StronglySorted_inv in Hs as [_ Hs]. eapply Forall_impl; [exact Hs|].
      unfold spaced. simpl. lia.
    + clear -Hs. induction N1 as [|z N1 IH]; [constructor|]. simpl in Hs. apply StronglySorted_inv in Hs as [Hs Hz].
      constructor; [|by apply IH]. apply Forall_app in Hz as [_ Hz]. apply Forall_cons in Hz as [Hz _]. unfold spaced in Hz. lia.
  - lia.
  - left. rewrite Hhd, <- Hfp in Hm. rewrite Hm. destruct (ring_pred F N1 fp N2 l1 x l2) as (G1 & G2 & M1 & y & HF & HG & Hy); [done|done|lia|].
    rewrite Hfp, Hy. rewrite HF in H. destruct (take_block_heap _ _ _ _ _ _ _ _ nu H HG ltac:(lia)) as (p & st' & F' & -> & Hh).
    by exists p, st', F'.
  - right. rewrite Hhd, <- Hfp, <- Hlen in Hm. split; [|done].
    apply Forall_app in Hall as [Hall Hlast]. apply Forall_app in Hall as [Ha2 Ha1].
    assert (Forall (λ c, c.2 < nu) (nodes F)) as HF.
    { rewrite HN. apply Forall_app. split; [done|]. constructor; [|done]. by apply Forall_cons in Hlast as [? _]. }
    by apply Forall_cons in HF as [_ HF].
Qed.

(** The allocator's state before the first call and after it. *)
Definition allocator (st : umem) (F A : list block) (U : Z) : Prop :=
  heap st F A U ∨
  (freep st = 0 ∧ F = [] ∧ A = [] ∧ U = 0 ∧ 0 < base ∧ base + 16 ≤ brk st ≤ 68719476736).

Lemma init_heap st :
  0 < base → base + 16 ≤ brk st ≤ 68719476736 →
  heap (mk_umem (set_size (set_ptr (um st) base base) base 0) base (brk st)) [] [] 0.
Proof.
  intros Hb Hbrk. split; cbn [um freep brk]; try done; try solve [constructor].
  simpl. rewrite hptr_set_size by lia. split_and!; [apply hptr_set_ptr; lia|apply hsize_set_size; lia|done].
Qed.

Lemma malloc_loop_heap st F A U fuel nu :
  avail_bounded → heap st F A U → 1 ≤ nu → 16 * more_units nu < 2147483648 → (4 * length F + 12 ≤ fuel)%nat →
  (malloc_loop avail fuel nu (freep st) (hptr (um st) (freep st)) st = Some (0, st) ∧
     avail (brk st) (16 * more_units nu) = false ∧ Forall (λ c, c.2 < nu) F) ∨
  (∃ p st' F' U', malloc_loop avail fuel nu (freep st) (hptr (um st) (freep st)) st = Some (p + 16, st') ∧
     heap st' F' ((p, nu) :: A) U' ∧ (U' = U ∨ U' = U + more_units nu) ∧ brk st' = brk st + 16 * (U' - U) ∧
     same_blocks A (um st) (um st')).
Proof.
  intros Hav H Hnu Hint Hf.
  destruct (malloc_loop_start st F A U fuel nu H Hnu) as [(p & st' & F' & -> & Hh & Hb & Hs)|[Hall ->]]; [simpl; lia| |].
  { right. exists p, st', F', U. split_and!; try done; [by left|lia]. }
  pose proof (morecore_heap st F A U (fuel - length (nodes F)) nu Hav H Hnu Hint ltac:(simpl; lia)) as Hmc.
  destruct (avail (brk st) (16 * more_units nu)); [right|left; by rewrite Hmc].
  destruct Hmc as (st1 & F1 & -> & H1 & Hb1 & Hs1 & Hl1 & Hex).
  pose proof (heap_freep_pos _ _ _ _ H1). rewrite (proj2 (Z.eqb_neq (freep st1) 0)) by lia.
  destruct (malloc_loop_start st1 F1 A _ (fuel - length (nodes F)) nu H1 Hnu) as [(p & st' & F' & -> & Hh & Hb & Hs)|[Hall1 _]];
    [simpl in *; lia| |].
  - exists p, st', F', (U + more_units nu). split_and!; try done; [by right|lia|].
    intros c a Hc Ha. rewrite (Hs c a) by done. by apply (Hs1 c a).
  - exfalso. apply Exists_exists in Hex as (f & Hf1 & Hf2). rewrite Forall_forall in Hall1. specialize (Hall1 f Hf1). simpl in *. lia.
Qed.

(** C30: [malloc] of at most 2^31 - 32 bytes returns: null, with nothing changed, only when
    no free block is big enough and the kernel has no memory; otherwise a block that holds
    the bytes asked for, outside every free and every other allocated block, no byte of
    which is touched.  The list stays ordered, coalesced and complete: free and allocated
    blocks together are the memory obtained from [sbrk]. *)
Theorem malloc_correct st F A U fuel nbytes :
  avail_bounded → allocator st F A U → 0 ≤ nbytes ≤ 2147483616 → (4 * length F + 12 ≤ fuel)%nat →
  ∃ r st', malloc base avail fuel nbytes st = Some (r, st') ∧
    ((r = 0 ∧ avail (brk st) (16 * more_units (units nbytes)) = false ∧ Forall (λ c, c.2 < units nbytes) F ∧
      allocator st' F A U ∧ brk st' = brk st ∧ same_blocks A (um st) (um st')) ∨
     (∃ F' U', allocator st' F' ((r - 16, units nbytes) :: A) U' ∧ 0 < r ∧ r + nbytes ≤ bend (r - 16, units nbytes) ∧
      (U' = U ∨ U' = U + more_units (units nbytes)) ∧ brk st' = brk st + 16 * (U' - U) ∧ same_blocks A (um st) (um st'))).
Proof.
  intros Hav Hal Hn Hf.
  assert (units nbytes = (nbytes + 15) / 16 + 1) as Hu by (unfold units; rewrite u32_small; zarith).
  assert (1 ≤ units nbytes ∧ nbytes + 16 ≤ 16 * units nbytes ∧ 16 * units nbytes < 2147483648) as Hu' by (rewrite Hu; zarith).
  assert (16 * more_units (units nbytes) < 2147483648) as Hc by (unfold more_units; case_test; lia).
  assert (∃ st0, malloc base avail fuel nbytes st = malloc_loop avail fuel (units nbytes) (freep st0) (hptr (um st0) (freep st0)) st0 ∧
    heap st0 F A U ∧ brk st0 = brk st ∧ same_blocks A (um st) (um st0)) as (st0 & -> & H & Hb0 & Hs0).
  { unfold malloc. destruct Hal as [H|(Hfp & -> & -> & -> & Hb & Hbrk)].
    - pose proof (heap_freep_pos _ _ _ _ H). rewrite (proj2 (Z.eqb_neq (freep st) 0)) by lia. by exists st.
    - rewrite Hfp. eexists. split; [done|]. split; [by apply init_heap|]. split; [done|].
      intros c a Hca. by apply not_elem_of_nil in Hca. }
  destruct (malloc_loop_heap st0 F A U fuel (units nbytes) Hav H ltac:(lia) Hc Hf)
    as [(-> & Ha & Hall)|(p & st' & F' & U' & -> & H' & HU & Hb & Hs)].
  - exists 0, st0. split; [done|]. left. rewrite <- Hb0. split_and!; try done. by left.
  - exists (p + 16), st'. split; [done|]. right. exists F', U'. replace (p + 16 - 16) with p by lia.
    pose proof (h_alloc _ _ _ _ H') as HA. apply Forall_cons in HA as [(Hp & _) _]. unfold in_heap in Hp. simpl in Hp.
    pose proof (h_base _ _ _ _ H). split_and!; try done; [by left|lia|unfold bend; simpl; lia|lia|].
    intros c a Hca Ha. rewrite (Hs c a Hca Ha). by apply (Hs0 c a).
Qed.

(** C32: [free] of an allocated block terminates and puts it back: the other allocated blocks
    keep their bytes, the list stays ordered and coalesced, and no memory is lost. *)
Theorem free_correct st F A1 b A2 U fuel :
  allocator st F (A1 ++ b :: A2) U → (2 * length F + 2 ≤ fuel)%nat →
  ∃ st' F', free fuel (b.1 + 16) st = Some st' ∧ allocator st' F' (A1 ++ A2) U ∧ brk st' = brk st ∧
    same_blocks (A1 ++ A2) (um st) (um st') ∧ total F' = total F + b.2.
Proof.
  intros [H|(_ & _ & HA & _)] Hf; [|by destruct A1].
  destruct (free_heap st F A1 b A2 U fuel H ltac:(simpl; lia)) as (st' & F' & Hfr & H' & Hb & Hs & _ & _).
  exists st', F'. split_and!; try done; [by left|]. pose proof (h_units _ _ _ _ H) as HU. pose proof (h_units _ _ _ _ H') as HU'.
  rewrite total_app in HU, HU'. simpl in HU. lia.
Qed.

(** The size that [morecore] passes to [sbrk] is an [int]: for the first request of
    2^31 - 31 bytes or more it is negative, [sbrk] leaves the break where it is and reports
    success, and [malloc] returns a block that starts at the end of the process's memory. *)
Theorem malloc_size_overflow st fuel nbytes :
  freep st = 0 → 0 < base → base + 16 ≤ brk st → 2147483617 ≤ nbytes → brk st + 16 * units nbytes < 4294967296 →
  nbytes < 4294967296 → (3 ≤ fuel)%nat →
  ∃ st', malloc base avail fuel nbytes st = Some (brk st + 16, st') ∧ brk st' = brk st.
Proof.
  intros Hfp Hb Hbrk Hn Hu Hn2 Hf.
  assert (units nbytes = (nbytes + 15) / 16 + 1) as Hue by (unfold units; rewrite u32_small; zarith).
  assert (134217728 ≤ units nbytes) as Hu2 by (rewrite Hue; zarith).
  pose proof (init_heap st Hb ltac:(lia)) as Hinit. unfold malloc. rewrite Hfp. cbn [Z.eqb].
  set (st0 := mk_umem _ _ _) in *. set (nu := units nbytes) in *.
  assert (hptr (um st0) base = base ∧ hsize (um st0) base = 0) as [Hp0 Hs0]
    by (pose proof (h_ring _ _ _ _ Hinit) as (? & ? & _); done).
  change (freep st0) with base. rewrite Hp0. destruct fuel as [|[|[|fuel]]]; [lia..|].
  cbn [malloc_loop]. rewrite Hs0. assert (nu <=? 0 = false) as -> by lia.
  change (freep st0) with base. rewrite Z.eqb_refl.
  assert (morecore avail (S (S fuel)) nu st0 =
    Some (base, mk_umem (set_ptr (set_ptr (set_size (um st0) (brk st) nu) (brk st) base) base (brk st)) base (brk st))) as ->.
  { unfold morecore. assert (nu <? 4096 = false) as -> by lia.
    assert (s32 (nu * 16) = nu * 16 - 4294967296) as ->.
    { unfold s32. rewrite u32_small by lia. case_test; lia. }
    unfold usbrk. change (brk st0) with (brk st). assert (0 <? nu * 16 - 4294967296 = false) as -> by lia.
    assert (nu * 16 - 4294967296 <? 0 = true) as -> by lia.
    assert (u64 (brk st + (nu * 16 - 4294967296)) = brk st + nu * 16 - 4294967296 + 18446744073709551616) as ->.
    { unfold u64. symmetry. apply Z.mod_unique with (-1); lia. }
    assert (brk st <=? brk st + nu * 16 - 4294967296 + 18446744073709551616 = true) as -> by lia.
    assert (brk st =? -1 = false) as -> by lia. unfold free. cbn [um freep brk]. unfold hplus at 1 2 3.
    replace (brk st + 16 * 1 - 16) with (brk st) by lia. cbn [free_search]. change (freep st0) with base.
    set (m1 := set_size (um st0) (brk st) nu). assert (hptr m1 base = base) as Hp1 by (subst m1; rewrite hptr_set_size by lia; done).
    rewrite Hp1. assert (brk st <? base = false) as -> by lia. rewrite andb_false_r, Z.leb_refl.
    assert (base <? brk st = true) as -> by lia. cbn [andb orb].
    unfold join_right. rewrite Hp1. unfold hplus. assert (hsize m1 (brk st) = nu) as Hs1 by (subst m1; apply hsize_set_size; lia).
    rewrite Hs1. assert (brk st + 16 * nu =? base = false) as -> by lia.
    unfold join_left. rewrite hsize_set_ptr by lia. assert (hsize m1 base = 0) as -> by (subst m1; rewrite hsize_set_size_ne by lia; done).
    unfold hplus. assert (base + 16 * 0 =? brk st = false) as -> by lia. done. }
  rewrite (proj2 (Z.eqb_neq base 0)) by lia. cbn [um].
  rewrite hptr_set_ptr by lia. set (m2 := set_ptr _ _ _).
  assert (hsize m2 (brk st) = nu) as Hs2.
  { subst m2. rewrite !hsize_set_ptr by lia. apply hsize_set_size. lia. }
  rewrite Hs2, Z.leb_refl. unfold take_block. cbn [um brk]. rewrite Hs2, Z.eqb_refl. eexists. split; [reflexivity|done].
Qed.

End free_list.

(** ** Witnesses *)

(** A process with a megabyte of memory to come, [base] at address 4096. *)
Definition demo_avail (b n : Z) : bool := b + n <=? 1048576.
Definition demo_mem : umem := mk_umem (λ _, 0) 0 8192.

Lemma demo_allocator : allocator 4096 demo_mem [] [] 0.
Proof. right. split_and!; done. Qed.

Lemma demo_avail_bounded : avail_bounded demo_avail.
Proof. intros b n H. unfold demo_avail in H. lia. Qed.

Lemma malloc_correct_witness :
  ∃ r st', malloc 4096 demo_avail 12 100 demo_mem = Some (r, st') ∧
    ((r = 0 ∧ demo_avail 8192 (16 * more_units (units 100)) = false ∧ Forall (λ c : Z * Z, c.2 < units 100) [] ∧
      allocator 4096 st' [] [] 0 ∧ brk st' = 8192 ∧ same_blocks [] (um demo_mem) (um st')) ∨
     (∃ F' U', allocator 4096 st' F' [(r - 16, units 100)] U' ∧ 0 < r ∧ r + 100 ≤ bend (r - 16, units 100) ∧
      (U' = 0 ∨ U' = 0 + more_units (units 100)) ∧ brk st' = 8192 + 16 * (U' - 0) ∧ same_blocks [] (um demo_mem) (um st'))).
Proof.
  exact (malloc_correct 4096 demo_avail demo_mem [] [] 0 12 100 demo_avail_bounded demo_allocator ltac:(lia) ltac:(simpl; lia)).
Defined.

(** The heap after one allocation: the block that [malloc] returned is at its end. *)
Definition demo_after : umem := match malloc 4096 demo_avail 12 100 demo_mem with Some (_, st) => st | None => demo_mem end.

Lemma demo_after_allocator : allocator 4096 demo_after [(8192, 4088)] ([] ++ (73600, 8) :: []) 4096.
Proof.
  assert (hptr (um demo_after) 4096 = 8192) as H1 by (vm_compute; reflexivity).
  assert (hsize (um demo_after) 4096 = 0) as H2 by (vm_compute; reflexivity).
  assert (hptr (um demo_after) 8192 = 4096) as H3 by (vm_compute; reflexivity).
  assert (hsize (um demo_after) 8192 = 4088) as H4 by (vm_compute; reflexivity).
  assert (hsize (um demo_after) 73600 = 8) as H5 by (vm_compute; reflexivity).
  assert (freep demo_after = 4096) as H6 by (vm_compute; reflexivity).
  assert (brk demo_after = 73728) as H7 by (vm_compute; reflexivity).
  revert H1 H2 H3 H4 H5 H6 H7. generalize demo_after as st. intros st H1 H2 H3 H4 H5 H6 H7.
  left. split; unfold in_heap, disj, bend; rewrite ?H6, ?H7; simpl; try lia.
  - repeat constructor.
  - repeat constructor; simpl; lia.
  - left.
  - repeat constructor; simpl; lia.
  - repeat constructor.
Qed.

Lemma free_correct_witness :
  ∃ st' F', free 4 ((73600, 8).1 + 16) demo_after = Some st' ∧ allocator 4096 st' F' ([] ++ []) 4096 ∧
    brk st' = brk demo_after ∧ same_blocks ([] ++ []) (um demo_after) (um st') ∧ total F' = total [(8192, 4088)] + 8.
Proof.
  exact (free_correct 4096 demo_after [(8192, 4088)] [] (73600, 8) [] 4096 4 demo_after_allocator ltac:(simpl; lia)).
Defined.

(** Two gigabytes in a process of eight kilobytes. *)
Lemma malloc_size_overflow_witness :
  ∃ st', malloc 4096 demo_avail 3 2147483648 demo_mem = Some (8192 + 16, st') ∧ brk st' = 8192.
Proof.
  apply (malloc_size_overflow 4096 demo_avail demo_mem 3 2147483648); [reflexivity|lia|simpl; lia|lia| |lia|lia].
  vm_compute. reflexivity.
Defined.
