(* ===== verification/Sh.v ===== *)
(** * The shell's parser

    [user/sh.c]: the lexer ([gettoken], [peek]), the recursive-descent parser
    ([parsecmd] and below) and [nulterminate].  The command line is a buffer of characters
    with a NUL at its end; a pointer into it is a position, and [*s] at the end is 0.

    A command holds pointers into the buffer, as in the source: the beginning and the end of
    each word.  [panic] is a value of the result type.  [parseexec] fills the [execcmd] it has
    allocated after [parseredirs] may have put redirections around it; [push_arg] writes to
    that innermost command.

    The grammar is stated by a printer with precedence levels and a relation that lays tokens
    out with any white space; the parser is its inverse.  Recursion through the parser has
    fuel; three times the length of the line is enough. *)

From Stdlib Require Import ZArith Lia.
From S2P Require Import Prelude Machine.

(** ** The code *)

Definition MAXARGS : nat := 10.

Inductive cmd :=
| EXEC (argv : list (nat * nat))
| REDIR (c : cmd) (file efile : nat) (mode fd : Z)
| PIPE (left right : cmd)
| LIST (left right : cmd)
| BACK (c : cmd).

(** The messages of [panic]. *)
Inductive shpanic := Syntax | MissingFile | Parseblock | MissingParen | TooManyArgs.

Inductive res (A : Type) := Done (a : A) | Panicked (p : shpanic) | NoFuel.
Arguments Done {A} a.
Arguments Panicked {A} p.
Arguments NoFuel {A}.

Definition rbind {A B} (x : res A) (f : A → res B) : res B :=
  match x with Done a => f a | Panicked p => Panicked p | NoFuel => NoFuel end.

Declare Scope sh_scope.
Notation "'let!' ' p ':=' e 'in' f" := (rbind e (fun p => f)) (at level 10, p strict pattern, e at level 200, f at level 200) : sh_scope.
Open Scope sh_scope.

Definition whitespace : list Z := [32; 9; 13; 10; 11].
Definition symbols : list Z := [60; 124; 62; 38; 59; 40; 41].

(** [strchr] of a string constant: NUL is in none. *)
Definition mem_chr (l : list Z) (c : Z) : bool := (negb (c =? 0) && existsb (Z.eqb c) l)%bool.
Definition is_space (c : Z) : bool := mem_chr whitespace c.
Definition is_symbol (c : Z) : bool := mem_chr symbols c.

Section parser.

Context (buf : list Z).

(** [*s], and the end [es] of the line. *)
Definition chr (s : nat) : Z := default 0 (buf !! s).
Definition es : nat := length buf.

(** [while(s < es && f( *s )) s++]; the fuel is the distance to [es]. *)
Fixpoint scan_loop (fuel : nat) (f : Z → bool) (s : nat) : nat :=
  match fuel with
  | O => s
  | S n => if ((s <? es)%nat && f (chr s))%bool then scan_loop n f (S s) else s
  end.
Definition scan (f : Z → bool) (s : nat) : nat := scan_loop (es - s) f s.

(** [gettoken]: the token, the two ends of its text, and the new position. *)
Definition gettoken (s : nat) : Z * nat * nat * nat :=
  let s := scan is_space s in
  let q := s in
  let c := chr s in
  let '(ret, s) :=
    if c =? 0 then (c, s)
    else if ((c =? 124) || (c =? 40) || (c =? 41) || (c =? 59) || (c =? 38) || (c =? 60))%bool then (c, S s)
    else if c =? 62 then
      if chr (S s) =? 62 then (43, S (S s)) else (c, S s)
    else (97, scan (λ x, negb (is_space x) && negb (is_symbol x))%bool s) in
  let eq := s in
  (ret, q, eq, scan is_space s).

(** [peek]: the test and the new position. *)
Definition peek (s : nat) (toks : list Z) : bool * nat :=
  let s := scan is_space s in
  ((negb (chr s =? 0) && mem_chr toks (chr s))%bool, s).

(** A step of the lexer whose text is not kept. *)
Definition skip_token (s : nat) : nat := let '(_, _, _, s) := gettoken s in s.

Fixpoint parseredirs (fuel : nat) (c : cmd) (s : nat) : res (cmd * nat) :=
  match fuel with
  | O => NoFuel
  | S f =>
      let '(more, s) := peek s [60; 62] in
      if negb more then Done (c, s)
      else
        let '(tok, _, _, s) := gettoken s in
        let '(tok2, q, eq, s) := gettoken s in
        if negb (tok2 =? 97) then Panicked MissingFile
        else
          let c :=
            if tok =? 60 then REDIR c q eq O_RDONLY 0
            else if tok =? 62 then REDIR c q eq (Z.lor (Z.lor O_WRONLY O_CREATE) O_TRUNC) 1
            else if tok =? 43 then REDIR c q eq (Z.lor O_WRONLY O_CREATE) 1
            else c in
          parseredirs f c s
  end.

(** [cmd->argv[argc] = q; cmd->eargv[argc] = eq] on the [execcmd] inside [ret]. *)
Fixpoint push_arg (ret : cmd) (a : nat * nat) : cmd :=
  match ret with
  | EXEC argv => EXEC (argv ++ [a])
  | REDIR c q eq mode fd => REDIR (push_arg c a) q eq mode fd
  | _ => ret
  end.

(** The loop of [parseexec]. *)
Fixpoint parse_args (fuel : nat) (ret : cmd) (argc : nat) (s : nat) : res (cmd * nat) :=
  match fuel with
  | O => NoFuel
  | S f =>
      let '(stop, s) := peek s [124; 41; 38; 59] in
      if stop then Done (ret, s)
      else
        let '(tok, q, eq, s) := gettoken s in
        if tok =? 0 then Done (ret, s)
        else if negb (tok =? 97) then Panicked Syntax
        else
          let ret := push_arg ret (q, eq) in
          let argc := S argc in
          if (MAXARGS <=? argc)%nat then Panicked TooManyArgs
          else
            let! '(ret, s) := parseredirs (S (es - s)) ret s in
            parse_args f ret argc s
  end.

(** The loop of [parseline] over "&". *)
Fixpoint parse_backs (fuel : nat) (c : cmd) (s : nat) : res (cmd * nat) :=
  match fuel with
  | O => NoFuel
  | S f =>
      let '(more, s) := peek s [38] in
      if more then parse_backs f (BACK c) (skip_token s) else Done (c, s)
  end.

Fixpoint parseline (fuel : nat) (s : nat) {struct fuel} : res (cmd * nat) :=
  match fuel with
  | O => NoFuel
  | S f =>
      let! '(c, s) := parsepipe f s in
      let! '(c, s) := parse_backs (S (es - s)) c s in
      let '(more, s) := peek s [59] in
      if more then
        let! '(r, s) := parseline f (skip_token s) in
        Done (LIST c r, s)
      else Done (c, s)
  end
with parsepipe (fuel : nat) (s : nat) {struct fuel} : res (cmd * nat) :=
  match fuel with
  | O => NoFuel
  | S f =>
      let! '(c, s) := parseexec f s in
      let '(more, s) := peek s [124] in
      if more then
        let! '(r, s) := parsepipe f (skip_token s) in
        Done (PIPE c r, s)
      else Done (c, s)
  end
with parseexec (fuel : nat) (s : nat) {struct fuel} : res (cmd * nat) :=
  match fuel with
  | O => NoFuel
  | S f =>
      let '(block, s) := peek s [40] in
      if block then parseblock f s
      else
        let! '(ret, s) := parseredirs (S (es - s)) (EXEC []) s in
        parse_args (S (es - s)) ret 0 s
  end
with parseblock (fuel : nat) (s : nat) {struct fuel} : res (cmd * nat) :=
  match fuel with
  | O => NoFuel
  | S f =>
      let '(ok, s) := peek s [40] in
      if negb ok then Panicked Parseblock
      else
        let! '(c, s) := parseline f (skip_token s) in
        let '(ok, s) := peek s [41] in
        if negb ok then Panicked MissingParen
        else
          let s := skip_token s in
          parseredirs (S (es - s)) c s
  end.

End parser.

(** [nulterminate]: the buffer with a NUL at the end of every word of the command. *)
Fixpoint nulterminate (c : cmd) (b : list Z) : list Z :=
  match c with
  | EXEC argv => foldl (λ b a, <[a.2 := 0]> b) b argv
  | REDIR c _ efile _ _ => <[efile := 0]> (nulterminate c b)
  | PIPE l r | LIST l r => nulterminate r (nulterminate l b)
  | BACK c => nulterminate c b
  end.

(** [parsecmd] of the line [buf]: the command and the buffer it points into. *)
Definition parsecmd (buf : list Z) : res (cmd * list Z) :=
  let! '(c, s) := parseline buf (4 * length buf + 4) 0 in
  let '(_, s) := peek buf s [] in
  if negb (s =? es buf)%nat then Panicked Syntax
  else Done (c, nulterminate c (buf ++ [0])).

(** ** The lexer *)

Definition word_char (c : Z) : bool := (negb (is_space c) && negb (is_symbol c))%bool.

Section lexer.

Context (buf : list Z) (Hnul : 0 ∉ buf).

Abbreviation chr := (chr buf).
Abbreviation es := (es buf).
Abbreviation scan := (scan buf).
Abbreviation gettoken := (gettoken buf).
Abbreviation peek := (peek buf).
Abbreviation skip_token := (skip_token buf).

Lemma chr_end s : (es ≤ s)%nat → chr s = 0.
Proof. intros H. unfold Sh.chr. by rewrite lookup_ge_None_2. Qed.

Lemma chr_nonzero s : (s < es)%nat → chr s ≠ 0.
Proof.
  intros H. destruct (lookup_lt_is_Some_2 buf s H) as [c Hc]. unfold Sh.chr. rewrite Hc. simpl. intros ->.
  by eapply Hnul, list_elem_of_lookup_2, Hc.
Qed.

Lemma chr_lt s : chr s ≠ 0 → (s < es)%nat.
Proof. intros H. destruct (Nat.lt_ge_cases s es); [done|]. by rewrite chr_end in H. Qed.

Lemma scan_loop_spec n f s :
  (es - s ≤ n)%nat → (s ≤ es)%nat →
  (s ≤ scan_loop buf n f s ≤ es)%nat ∧
  (∀ x, (s ≤ x < scan_loop buf n f s)%nat → f (chr x) = true) ∧
  ((scan_loop buf n f s < es)%nat → f (chr (scan_loop buf n f s)) = false).
Proof.
  revert s. induction n as [|n IH]; intros s Hn Hs; simpl; [split_and!; lia|].
  destruct (Nat.ltb_spec s es) as [Hlt|Hge]; simpl; [|split_and!; lia].
  destruct (f (chr s)) eqn:E; [|split_and!; first [done|lia]].
  destruct (IH (S s)) as (H1 & H2 & H3); [lia|lia|]. split_and!; [lia|lia| |exact H3].
  intros x Hx. destruct (decide (x = s)) as [->|]; [done|]. apply H2. lia.
Qed.

Lemma scan_spec f s :
  (s ≤ es)%nat →
  (s ≤ scan f s ≤ es)%nat ∧ (∀ x, (s ≤ x < scan f s)%nat → f (chr x) = true) ∧
  ((scan f s < es)%nat → f (chr (scan f s)) = false).
Proof. intros H. by apply scan_loop_spec. Qed.

(** A maximal word of the line: what a token of type 'a' delimits. *)
Definition word (q eq : nat) : Prop :=
  (q < eq ≤ es)%nat ∧ (∀ x, (q ≤ x < eq)%nat → word_char (chr x) = true) ∧
  (eq = es ∨ word_char (chr eq) = false).

Lemma gettoken_spec s tok q eq s' :
  (s ≤ es)%nat → gettoken s = (tok, q, eq, s') →
  (s ≤ q ≤ eq ∧ eq ≤ s' ≤ es)%nat ∧ (tok = 0 → q = es) ∧ (tok ≠ 0 → (q < eq)%nat) ∧ (tok = 97 → word q eq).
Proof.
  intros Hs H. unfold Sh.gettoken in H. destruct (scan_spec is_space s Hs) as (H1 & _ & H3).
  cbv zeta in H. revert H H1 H3. generalize (scan is_space s) as q0. intros q0 H H1 H3.
  assert (∀ e, (q0 < e ≤ es)%nat → (s ≤ q0 ≤ e ∧ e ≤ scan is_space e ≤ es)%nat) as Hend.
  { intros e He. destruct (scan_spec is_space e) as (? & _); lia. }
  destruct (Z.eqb_spec (chr q0) 0) as [E0|E0].
  { injection H as <- <- <- <-. assert (q0 = es) as Hq by (destruct (Nat.lt_ge_cases q0 es) as [Hlt|]; [by apply chr_nonzero in Hlt|lia]).
    rewrite Hq. destruct (scan_spec is_space es) as (? & _); [lia|]. rewrite chr_end by lia. split_and!; first [done|lia]. }
  pose proof (chr_lt _ E0) as Hlt.
  destruct (_ || _)%bool eqn:Esym.
  { injection H as <- <- <- <-. specialize (Hend (S q0) ltac:(lia)). split_and!; first [lia|done|intros E; by rewrite E in Esym]. }
  destruct (Z.eqb_spec (chr q0) 62) as [E62|E62].
  { destruct (Z.eqb_spec (chr (S q0)) 62) as [E2|E2]; injection H as <- <- <- <-.
    - assert (S q0 < es)%nat by (apply chr_lt; lia). specialize (Hend (S (S q0)) ltac:(lia)). split_and!; first [lia|done].
    - specialize (Hend (S q0) ltac:(lia)). split_and!; first [lia|done|intros E; by rewrite E in E62]. }
  injection H as <- <- <- <-. destruct (scan_spec word_char q0) as (G1 & G2 & G3); [lia|].
  change (scan (λ x, negb (is_space x) && negb (is_symbol x))%bool q0) with (scan word_char q0).
  assert (q0 < scan word_char q0)%nat as Hprog.
  { destruct (Nat.lt_ge_cases q0 (scan word_char q0)) as [|Hge]; [done|]. exfalso.
    assert (scan word_char q0 = q0) as Heq by lia. rewrite Heq in G3. specialize (G3 Hlt). unfold word_char in G3.
    rewrite (H3 Hlt) in G3. simpl in G3. apply negb_false_iff in G3. unfold is_symbol, mem_chr in G3.
    apply andb_true_iff in G3 as [_ G3]. simpl in G3. bool_prop.
    repeat (apply orb_true_iff in G3 as [G3|G3]; [apply Z.eqb_eq in G3; lia|]). done. }
  specialize (Hend _ (conj Hprog (proj2 G1))). split_and!; try lia; try done.
  intros _. split_and!; [lia|lia|done|]. destruct (Nat.lt_ge_cases (scan word_char q0) es); [right; by apply G3|left; lia].
Qed.

Lemma peek_spec s toks b s' :
  (s ≤ es)%nat → peek s toks = (b, s') →
  (s ≤ s' ≤ es)%nat ∧ (b = true → (s' < es)%nat ∧ mem_chr toks (chr s') = true) ∧
  ((s' < es)%nat → is_space (chr s') = false).
Proof.
  intros Hs H. unfold Sh.peek in H. destruct (scan_spec is_space s Hs) as (H1 & _ & H3). simplify_eq.
  split_and!; [lia|lia| |done]. intros E. apply andb_true_iff in E as [E1 E2].
  apply negb_true_iff, Z.eqb_neq, chr_lt in E1. done.
Qed.

(** After a successful [peek] the next token is not empty. *)
Lemma skip_token_spec s : (s < es)%nat → (s < skip_token s ≤ es)%nat.
Proof.
  intros Hs. unfold Sh.skip_token. destruct (gettoken s) as [[[tok q] eq] s'] eqn:E.
  destruct (gettoken_spec s tok q eq s') as (H1 & H2 & H3 & _); [lia|done|].
  destruct (Z.eq_dec tok 0) as [->|Hne]; [|specialize (H3 Hne); lia].
  specialize (H2 eq_refl). assert (eq = es) by lia. lia.
Qed.

(** ** Safety of the parser

    Every pointer of a command delimits a word of the line, a command has fewer than
    [MAXARGS] words (so that the terminating 0 of [argv] has a place), positions stay in the
    line, and the fuel suffices. *)

Fixpoint wf_cmd (c : cmd) : Prop :=
  match c with
  | EXEC argv => Forall (λ a, word a.1 a.2) argv ∧ (length argv < MAXARGS)%nat
  | REDIR c q eq _ _ => wf_cmd c ∧ word q eq
  | PIPE l r | LIST l r => wf_cmd l ∧ wf_cmd r
  | BACK c => wf_cmd c
  end.

(** The number of words of the [execcmd] under redirections; [None] when there is none. *)
Fixpoint nargs (c : cmd) : option nat :=
  match c with
  | EXEC argv => Some (length argv)
  | REDIR c _ _ _ _ => nargs c
  | _ => None
  end.

Definition safe (s : nat) (Q : cmd → Prop) (r : res (cmd * nat)) : Prop :=
  match r with
  | Done (c, s') => (s ≤ s' ≤ es)%nat ∧ Q c
  | Panicked _ => True
  | NoFuel => False
  end.

Lemma safe_bind s Q s1 Q1 r f :
  safe s1 Q1 r → (s ≤ s1)%nat →
  (∀ c s', (s1 ≤ s' ≤ es)%nat → Q1 c → safe s Q (f (c, s'))) → safe s Q (rbind r f).
Proof. intros Hr Hs Hf. destruct r as [[c s']| |]; simpl in *; [|done|done]. destruct Hr. auto. Qed.

Lemma safe_weaken s s1 (Q : cmd → Prop) r : (s ≤ s1)%nat → safe s1 Q r → safe s Q r.
Proof. intros Hs Hr. destruct r as [[c s']| |]; simpl in *; [|done..]. split; [lia|by destruct Hr]. Qed.

Lemma push_arg_spec c a n :
  nargs c = Some n → wf_cmd c → word a.1 a.2 → (S n < MAXARGS)%nat →
  nargs (push_arg c a) = Some (S n) ∧ wf_cmd (push_arg c a).
Proof.
  intros Hn Hc Ha Hlt. induction c as [argv|c IH q e m fd| | |]; simpl in *; try done.
  - simplify_eq. rewrite length_app. simpl. destruct Hc as [Hc _]. split_and!; [f_equal; lia| |lia].
    apply Forall_app. split; [done|]. by constructor.
  - destruct Hc as [Hc Hw]. destruct (IH Hn Hc). by split_and!.
Qed.

Lemma parseredirs_safe fuel c s :
  (es - s < fuel)%nat → (s ≤ es)%nat → wf_cmd c →
  safe s (λ c', wf_cmd c' ∧ nargs c' = nargs c) (parseredirs buf fuel c s).
Proof.
  revert c s. induction fuel as [|f IH]; intros c s Hf Hs Hc; [lia|]. cbn [parseredirs].
  destruct (peek s _) as [more s1] eqn:E1. destruct (peek_spec _ _ _ _ Hs E1) as (H1 & H2 & _).
  destruct more; simpl; [|split; [lia|done]]. destruct (H2 eq_refl) as [Hlt _].
  destruct (gettoken s1) as [[[tok q1] e1] s2] eqn:E2.
  pose proof (skip_token_spec s1 Hlt) as Hsk. unfold Sh.skip_token in Hsk. rewrite E2 in Hsk.
  destruct (gettoken s2) as [[[tok2 q] e] s3] eqn:E3. destruct (gettoken_spec s2 tok2 q e s3) as (G1 & _ & _ & G4); [lia|done|].
  destruct (Z.eqb_spec tok2 97) as [->|]; simpl; [|done]. specialize (G4 eq_refl).
  set (c1 := if tok =? 60 then _ else _).
  assert (wf_cmd c1 ∧ nargs c1 = nargs c) as [Hw1 Hn1] by (subst c1; repeat case_test; simpl; auto).
  rewrite <- Hn1. apply (safe_weaken s s3); [lia|]. apply IH; [lia|lia|done].
Qed.

Lemma parse_args_safe fuel ret argc s :
  (es - s < fuel)%nat → (s ≤ es)%nat → wf_cmd ret → nargs ret = Some argc → (argc < MAXARGS)%nat →
  safe s wf_cmd (parse_args buf fuel ret argc s).
Proof.
  revert ret argc s. induction fuel as [|f IH]; intros ret argc s Hf Hs Hr Hn Ha; [lia|]. cbn [parse_args].
  destruct (peek s _) as [stop s1] eqn:E1. destruct (peek_spec _ _ _ _ Hs E1) as (H1 & _ & _).
  destruct stop; [split; [lia|done]|]. destruct (gettoken s1) as [[[tok q] e] s2] eqn:E2.
  destruct (gettoken_spec s1 tok q e s2) as (G1 & _ & G3 & G4); [lia|done|].
  destruct (Z.eqb_spec tok 0) as [->|H0]; [split; [lia|done]|]. specialize (G3 H0).
  destruct (Z.eqb_spec tok 97) as [->|]; cbn [negb]; [|done]. specialize (G4 eq_refl).
  destruct (Nat.leb_spec MAXARGS (S argc)) as [|Hlt]; [done|].
  destruct (push_arg_spec ret (q, e) argc Hn Hr G4 Hlt) as [Hn1 Hw1].
  eapply safe_bind; [apply parseredirs_safe; [lia|lia|done]|lia|]. intros c s' Hs' [Hw Hn2].
  apply (safe_weaken s s'); [lia|]. apply IH; [lia|lia|done|by rewrite Hn2|lia].
Qed.

Lemma parse_backs_safe fuel c s :
  (es - s < fuel)%nat → (s ≤ es)%nat → wf_cmd c → safe s wf_cmd (parse_backs buf fuel c s).
Proof.
  revert c s. induction fuel as [|f IH]; intros c s Hf Hs Hc; [lia|]. cbn [parse_backs].
  destruct (peek s _) as [more s1] eqn:E1. destruct (peek_spec _ _ _ _ Hs E1) as (H1 & H2 & _).
  destruct more; [|split; [lia|done]]. destruct (H2 eq_refl) as [Hlt _]. pose proof (skip_token_spec s1 Hlt).
  apply (safe_weaken s (skip_token s1)); [lia|]. apply IH; [lia|lia|done].
Qed.

Lemma parser_safe fuel s :
  (s ≤ es)%nat →
  ((4 * (es - s) + 4 ≤ fuel)%nat → safe s wf_cmd (parseline buf fuel s)) ∧
  ((4 * (es - s) + 3 ≤ fuel)%nat → safe s wf_cmd (parsepipe buf fuel s)) ∧
  ((4 * (es - s) + 2 ≤ fuel)%nat → safe s wf_cmd (parseexec buf fuel s)) ∧
  ((4 * (es - s) + 1 ≤ fuel)%nat → safe s wf_cmd (parseblock buf fuel s)).
Proof.
  revert s. induction fuel as [|f IH]; intros s Hs; [split_and!; lia|]. split_and!; intros Hf.
  - cbn [parseline]. eapply safe_bind; [apply (IH s Hs); lia|lia|]. intros c s1 H1 Hc. cbv beta iota.
    eapply safe_bind; [apply parse_backs_safe; [lia|lia|done]|lia|]. intros c2 s2 H2 Hc2. cbv beta iota.
    destruct (peek s2 _) as [more s3] eqn:E. destruct (peek_spec s2 _ _ _ ltac:(lia) E) as (H3 & H4 & _).
    destruct more; [|split; [lia|done]]. destruct (H4 eq_refl) as [Hlt _]. pose proof (skip_token_spec s3 Hlt).
    eapply safe_bind; [apply (IH (skip_token s3)); lia|lia|]. intros r s4 Hs4 Hr. split; [lia|done].
  - cbn [parsepipe]. eapply safe_bind; [apply (IH s Hs); lia|lia|]. intros c s1 H1 Hc. cbv beta iota.
    destruct (peek s1 _) as [more s3] eqn:E. destruct (peek_spec s1 _ _ _ ltac:(lia) E) as (H3 & H4 & _).
    destruct more; [|split; [lia|done]]. destruct (H4 eq_refl) as [Hlt _]. pose proof (skip_token_spec s3 Hlt).
    eapply safe_bind; [apply (IH (skip_token s3)); lia|lia|]. intros r s4 Hs4 Hr. split; [lia|done].
  - cbn [parseexec]. destruct (peek s _) as [block s1] eqn:E. destruct (peek_spec s _ _ _ Hs E) as (H3 & H4 & _).
    destruct block; [apply (safe_weaken s s1); [lia|]; apply (IH s1); lia|].
    assert (wf_cmd (EXEC [])) as H0 by (split; [constructor|simpl; unfold MAXARGS; lia]).
    eapply safe_bind; [apply (parseredirs_safe _ (EXEC []) s1); [lia|lia|done]|lia|]. intros c s2 H2 [Hc Hn].
    apply (safe_weaken s s2); [lia|]. apply parse_args_safe; [lia|lia|done|done|unfold MAXARGS; lia].
  - cbn [parseblock]. destruct (peek s _) as [ok s1] eqn:E. destruct (peek_spec s _ _ _ Hs E) as (H3 & H4 & _).
    destruct ok; [|done]. destruct (H4 eq_refl) as [Hlt _]. pose proof (skip_token_spec s1 Hlt). cbn [negb].
    eapply safe_bind; [apply (IH (skip_token s1)); lia|lia|]. intros c s2 H2 Hc. cbv beta iota.
    destruct (peek s2 _) as [ok s3] eqn:E2. destruct (peek_spec s2 _ _ _ ltac:(lia) E2) as (H5 & H6 & _).
    destruct ok; [|done]. destruct (H6 eq_refl) as [Hlt2 _]. pose proof (skip_token_spec s3 Hlt2). cbn [negb].
    pose proof (parseredirs_safe (S (es - skip_token s3)) c (skip_token s3) ltac:(lia) ltac:(lia) Hc) as Hp.
    cbv zeta. revert Hp. destruct (parseredirs _ _ _ _) as [[c' s']| |]; simpl; [|done..]. intros [? [? _]]. split; [lia|done].
Qed.

End lexer.

(** ** What the terminated words are *)

(** The C string that starts a list of characters. *)
Fixpoint c_string (l : list Z) : list Z :=
  match l with
  | [] => []
  | c :: l' => if c =? 0 then [] else c :: c_string l'
  end.

Definition slice (buf : list Z) (a : nat * nat) : list Z := take (a.2 - a.1) (drop a.1 buf).

(** The words of a command in the order [nulterminate] visits them. *)
Fixpoint words (c : cmd) : list (nat * nat) :=
  match c with
  | EXEC argv => argv
  | REDIR c q eq _ _ => words c ++ [(q, eq)]
  | PIPE l r | LIST l r => words l ++ words r
  | BACK c => words c
  end.

Definition put_nuls (b : list Z) (l : list (nat * nat)) : list Z := foldl (λ b a, <[a.2 := 0]> b) b l.

Lemma nulterminate_words c b : nulterminate c b = put_nuls b (words c).
Proof.
  revert b. induction c as [argv|c IH q e m f|l IHl r IHr|l IHl r IHr|c IH]; intros b; simpl; [done| | | |apply IH].
  - unfold put_nuls in *. rewrite foldl_app. simpl. by rewrite IH.
  - unfold put_nuls in *. by rewrite foldl_app, IHl, IHr.
  - unfold put_nuls in *. by rewrite foldl_app, IHl, IHr.
Qed.

Lemma length_put_nuls b l : length (put_nuls b l) = length b.
Proof. revert b. induction l as [|a l IH]; intros b; simpl; [done|]. unfold put_nuls in *. simpl. by rewrite IH, length_insert. Qed.

Lemma put_nuls_other b l x : Forall (λ a, a.2 ≠ x) l → put_nuls b l !! x = b !! x.
Proof.
  intros H. revert b. induction H as [|a l Ha _ IH]; intros b; [done|]. unfold put_nuls in *. simpl.
  rewrite IH. by apply list_lookup_insert_ne.
Qed.

Lemma put_nuls_in b l a : a ∈ l → (a.2 < length b)%nat → put_nuls b l !! a.2 = Some 0.
Proof.
  revert b a. induction l as [|d l IH]; intros b a Ha Hb; [by apply not_elem_of_nil in Ha|].
  change (put_nuls b (d :: l)) with (put_nuls (<[d.2 := 0]> b) l).
  destruct (decide (Exists (λ e : nat * nat, e.2 = a.2) l)) as [He|Hne].
  - apply Exists_exists in He as (e & He & Heq). rewrite <- Heq. apply IH; [done|]. rewrite length_insert. lia.
  - apply elem_of_cons in Ha as [->|Ha]; [|exfalso; apply Hne, Exists_exists; eauto].
    rewrite put_nuls_other; [by apply list_lookup_insert_eq|].
    apply Forall_forall. intros e He Heq. apply Hne, Exists_exists. eauto.
Qed.

Lemma c_string_take l n :
  (∀ x, (x < n)%nat → ∃ c, l !! x = Some c ∧ c ≠ 0) → l !! n = Some 0 → c_string l = take n l.
Proof.
  revert n. induction l as [|c l IH]; intros n H Hn; [done|]. destruct n as [|n]; simpl in *.
  - by simplify_eq.
  - destruct (H 0%nat) as (c' & Hc & Hnz); [lia|]. simplify_eq/=. case_test; [done|]. f_equal.
    apply IH; [|done]. intros x Hx. apply (H (S x)). lia.
Qed.

Lemma wf_words buf c : wf_cmd buf c → Forall (λ a, word buf a.1 a.2) (words c).
Proof.
  induction c as [argv|c IH q e m f|l IHl r IHr|l IHl r IHr|c IH]; simpl; intros H.
  - by destruct H.
  - destruct H. apply Forall_app. split; [by apply IH|]. by apply Forall_singleton.
  - destruct H. apply Forall_app. auto.
  - destruct H. apply Forall_app. auto.
  - auto.
Qed.

Lemma read_word buf c a :
  0 ∉ buf → wf_cmd buf c → a ∈ words c → c_string (drop a.1 (nulterminate c (buf ++ [0]))) = slice buf a.
Proof.
  intros Hnul Hwf Ha. pose proof (wf_words _ _ Hwf) as Hw. rewrite Forall_forall in Hw.
  destruct (Hw a Ha) as (Hr & Hin & _). rewrite nulterminate_words.
  assert (∀ x, (a.1 ≤ x < a.2)%nat → put_nuls (buf ++ [0]) (words c) !! x = Some (chr buf x)) as Hx.
  { intros x Hx. rewrite put_nuls_other.
    - unfold es in Hr. rewrite lookup_app_l by lia. unfold chr. destruct (lookup_lt_is_Some_2 buf x) as [v ->]; [lia|done].
    - apply Forall_forall. intros e He Heq. specialize (Hin x Hx). rewrite <- Heq in Hin, Hx.
      destruct (Hw e He) as (_ & _ & [Hes|Hes]); [lia|]. by rewrite Hes in Hin. }
  unfold es in *. rewrite (c_string_take _ (a.2 - a.1)).
  - unfold slice. apply list_eq. intros i. destruct (Nat.lt_ge_cases i (a.2 - a.1)).
    + rewrite !lookup_take_lt, !lookup_drop by done. rewrite Hx by lia. unfold chr.
      destruct (lookup_lt_is_Some_2 buf (a.1 + i)) as [v ->]; [lia|done].
    + by rewrite !lookup_take_ge.
  - intros x Hlt. rewrite lookup_drop, Hx by lia. eexists. split; [done|]. apply chr_nonzero; [done|unfold es; lia].
  - rewrite lookup_drop. replace (a.1 + (a.2 - a.1))%nat with a.2 by lia. apply put_nuls_in; [done|].
    rewrite length_app. simpl. lia.
Qed.

(** C33: On every command line the parser returns: it reports a syntax error, or yields a
    command whose words are maximal runs of word characters of the line, fewer than
    [MAXARGS] to each [argv]; once [nulterminate] has put its NULs into the line, every
    pointer of the command is a C string equal to its word, so that no NUL cuts another
    word. *)
Theorem parsecmd_correct buf :
  0 ∉ buf →
  match parsecmd buf with
  | Done (c, b) =>
      wf_cmd buf c ∧ length b = S (length buf) ∧ ∀ a, a ∈ words c → c_string (drop a.1 b) = slice buf a
  | Panicked _ => True
  | NoFuel => False
  end.
Proof.
  intros Hnul. unfold parsecmd. destruct (parser_safe buf Hnul (4 * length buf + 4) 0) as [Hp _]; [lia|].
  specialize (Hp ltac:(unfold es; lia)). destruct (parseline _ _ _) as [[c s]| |]; simpl in *; [|done..].
  destruct Hp as [_ Hc]. case_test; simpl; [done|]. split_and!; [done| |].
  - rewrite nulterminate_words, length_put_nuls, length_app. simpl. lia.
  - intros a Ha. by apply read_word.
Qed.

(** The line  echo hi>f & ls  *)
Lemma parsecmd_correct_witness :
  parsecmd [101;99;104;111;32;104;105;62;102;32;38] =
    Done (BACK (REDIR (EXEC [(0, 4); (5, 7)]%nat) 8 9 (Z.lor (Z.lor O_WRONLY O_CREATE) O_TRUNC) 1),
          [101;99;104;111;0;104;105;0;102;0;38;0]) ∧
  match parsecmd [101;99;104;111;32;104;105;62;102;32;38] with
  | Done (c, b) => ∀ a, a ∈ words c → c_string (drop a.1 b) = slice [101;99;104;111;32;104;105;62;102;32;38] a
  | _ => False
  end.
Proof.
  split; [vm_compute; reflexivity|].
  assert (0 ∉ [101;99;104;111;32;104;105;62;102;32;38]) as Hn by (apply (bool_decide_unpack _); vm_compute; exact I).
  pose proof (parsecmd_correct _ Hn) as H. destruct (parsecmd _) as [[c b]| |] eqn:E; [apply H|vm_compute in E; discriminate E|exact H].
Defined.

(** ** Tokens and their layouts *)

Inductive token := Word (w : list Z) | Sym (c : Z).

Definition spell (t : token) : list Z :=
  match t with
  | Word w => w
  | Sym c => if c =? 43 then [62; 62] else [c]
  end.

(** What [gettoken] returns for it. *)
Definition tok_ret (t : token) : Z := match t with Word _ => 97 | Sym c => c end.

Definition valid_token (t : token) : Prop :=
  match t with
  | Word w => w ≠ [] ∧ Forall (λ c, c ≠ 0 ∧ word_char c = true) w
  | Sym c => c ∈ [124; 40; 41; 59; 38; 60; 62; 43]
  end.

(** What may follow a token directly: a word ends where its characters end, and ">" is not
    followed by ">". *)
Definition ends (t : token) (rest : list Z) : Prop :=
  match rest with
  | [] => True
  | c :: _ => match t with Word _ => word_char c = false | Sym k => k = 62 → c ≠ 62 end
  end.

(** [layout toks str]: the tokens with any white space before, between and after them. *)
Inductive layout : list token → list Z → Prop :=
| layout_nil ws : Forall (λ c, is_space c = true) ws → layout [] ws
| layout_cons ws t toks str :
    Forall (λ c, is_space c = true) ws → valid_token t → ends t str → layout toks str →
    layout (t :: toks) (ws ++ spell t ++ str).

Lemma spell_first t : valid_token t → ∃ c l, spell t = c :: l ∧ c ≠ 0 ∧ is_space c = false.
Proof.
  destruct t as [w|k]; simpl.
  - intros [Hw Hall]. destruct w as [|c w]; [done|]. apply Forall_cons in Hall as [[Hc Hwc] _].
    exists c, w. split_and!; [done|done|]. unfold word_char in Hwc. by destruct (is_space c).
  - intros Hk. repeat (apply elem_of_cons in Hk as [->|Hk]; [by eexists _, _|]). by apply not_elem_of_nil in Hk.
Qed.

Section round_trip.

Context (buf : list Z) (Hnul : 0 ∉ buf).

(** The tokens from a position on. *)
Definition at_ (s : nat) (toks : list token) : Prop := (s ≤ es buf)%nat ∧ layout toks (drop s buf).

Lemma chr_drop s c l : drop s buf = c :: l → chr buf s = c ∧ drop (S s) buf = l ∧ (s < es buf)%nat.
Proof.
  intros H. assert (buf !! s = Some c) as Hc.
  { pose proof (lookup_drop buf s 0) as Hl. rewrite H, Nat.add_0_r in Hl. by symmetry. }
  split_and!.
  - unfold chr. by rewrite Hc.
  - replace (S s) with (s + 1)%nat by lia. by rewrite <- drop_drop, H.
  - by apply lookup_lt_Some in Hc.
Qed.

Lemma scan_loop_drop n f s pre rest :
  drop s buf = pre ++ rest → Forall (λ c, f c = true) pre → match rest with [] => True | c :: _ => f c = false end →
  (s ≤ es buf)%nat → (es buf - s ≤ n)%nat → scan_loop buf n f s = (s + length pre)%nat.
Proof.
  revert n s. induction pre as [|c pre IH]; intros n s Hd Hpre Hrest Hs Hn; simpl in *.
  - rewrite Nat.add_0_r. destruct n as [|n]; [done|]. cbn [scan_loop].
    destruct (Nat.ltb_spec s (es buf)); simpl; [|done]. destruct rest as [|c rest].
    + exfalso. apply (f_equal length) in Hd. rewrite length_drop in Hd. unfold es in *. simpl in Hd. lia.
    + destruct (chr_drop _ _ _ Hd) as (-> & _). by rewrite Hrest.
  - destruct (chr_drop _ _ _ Hd) as (Hc & Hd' & Hlt). destruct n as [|n]; [lia|]. cbn [scan_loop].
    apply Forall_cons in Hpre as [Hfc Hpre]. rewrite Hc, Hfc. rewrite (proj2 (Nat.ltb_lt _ _) Hlt). simpl.
    rewrite IH by (done || lia). lia.
Qed.

Lemma scan_drop f s pre rest :
  drop s buf = pre ++ rest → Forall (λ c, f c = true) pre → match rest with [] => True | c :: _ => f c = false end →
  (s ≤ es buf)%nat → scan buf f s = (s + length pre)%nat ∧ drop (s + length pre) buf = rest ∧ (s + length pre ≤ es buf)%nat.
Proof.
  intros Hd Hp Hr Hs. split; [by eapply scan_loop_drop|]. split.
  - rewrite <- drop_drop, Hd. by rewrite drop_app_length.
  - apply (f_equal length) in Hd. rewrite length_drop, length_app in Hd. unfold es in *. lia.
Qed.

(** Skipping white space before tokens. *)
Lemma scan_space s toks :
  at_ s toks →
  at_ (scan buf is_space s) toks ∧
  match toks with
  | [] => drop (scan buf is_space s) buf = []
  | t :: toks' => ∃ str, drop (scan buf is_space s) buf = spell t ++ str ∧ valid_token t ∧ ends t str ∧ layout toks' str
  end.
Proof.
  intros [Hs Hl]. remember (drop s buf) as d eqn:Hd. symmetry in Hd.
  destruct Hl as [ws Hws|ws t toks' str Hws Ht He Hl'].
  - destruct (scan_drop is_space s ws []) as (-> & Hd' & Hle); [by rewrite app_nil_r|done|done|done|].
    split; [|done]. split; [done|]. rewrite Hd'. by constructor.
  - destruct (spell_first t Ht) as (c & l & Hsp & _ & Hc).
    destruct (scan_drop is_space s ws (spell t ++ str)) as (-> & Hd' & Hle); [done|done|by rewrite Hsp|done|].
    split; [|by exists str]. split; [done|]. rewrite Hd'. by apply (layout_cons [] t toks' str).
Qed.

Lemma peek_at s toks set :
  at_ s toks →
  ∃ s', at_ s' toks ∧
    peek buf s set = (match toks with [] => false | t :: _ => existsb (Z.eqb (hd 0 (spell t))) set end, s').
Proof.
  intros H. destruct (scan_space s toks H) as [Ha Hd]. exists (scan buf is_space s). split; [done|].
  unfold peek. destruct toks as [|t toks].
  - rewrite chr_end; [done|]. apply (f_equal length) in Hd. rewrite length_drop in Hd. unfold es. simpl in Hd. lia.
  - destruct Hd as (str & Hd & Ht & _). destruct (spell_first t Ht) as (c & l & Hsp & Hnz & _).
    rewrite Hsp in Hd. destruct (chr_drop _ _ _ Hd) as (-> & _). rewrite Hsp. unfold mem_chr.
    rewrite (proj2 (Z.eqb_neq c 0)) by done. done.
Qed.

Lemma gettoken_at s t toks :
  at_ s (t :: toks) →
  ∃ q eq s', gettoken buf s = (tok_ret t, q, eq, s') ∧ at_ s' toks ∧ slice buf (q, eq) = spell t.
Proof.
  intros H. destruct (scan_space s _ H) as [[Hle _] (str & Hd & Ht & He & Hl)]. unfold gettoken. cbv zeta.
  revert Hle Hd. generalize (scan buf is_space s) as q. intros q Hle Hd.
  assert (slice buf (q, (q + length (spell t))%nat) = spell t) as Hsl.
  { unfold slice. simpl. replace (q + length (spell t) - q)%nat with (length (spell t)) by lia.
    rewrite Hd. apply take_app_length. }
  assert (at_ (q + length (spell t)) toks) as Hat.
  { split; [apply (f_equal length) in Hd; rewrite length_drop, length_app in Hd; unfold es in *; lia|].
    rewrite <- drop_drop, Hd, drop_app_length. done. }
  assert (∀ e, e = (q + length (spell t))%nat → ∃ q0 eq s', (tok_ret t, q, e, scan buf is_space e) = (tok_ret t, q0, eq, s') ∧
    at_ s' toks ∧ slice buf (q0, eq) = spell t) as Hgoal.
  { intros e ->. eexists _, _, _. split; [done|]. split; [|done]. by apply scan_space. }
  destruct (spell_first t Ht) as (c & l & Hsp & Hnz & _). pose proof Hd as Hd0. rewrite Hsp in Hd0.
  destruct (chr_drop q c (l ++ str) Hd0) as (Hc & Hd1 & Hlt). rewrite Hc.
  rewrite (proj2 (Z.eqb_neq c 0)) by done.
  destruct t as [w|k]; simpl in *.
  - destruct Ht as [_ Hw]. assert (is_symbol c = false) as Hsym.
    { rewrite Hsp in Hw. apply Forall_cons in Hw as [[_ Hw] _]. unfold word_char in Hw. by destruct (is_space c), (is_symbol c). }
    unfold is_symbol, mem_chr in Hsym. rewrite (proj2 (Z.eqb_neq c 0)) in Hsym by done. simpl in Hsym. bool_prop.
    repeat match goal with Hx : c ≠ _ |- _ => rewrite (proj2 (Z.eqb_neq _ _) Hx); clear Hx end. simpl. apply Hgoal.
    destruct (scan_drop word_char q w str) as (Heq & _); try done.
    eapply Forall_impl; [exact Hw|]. by intros x [_ Hx].
  - repeat (apply elem_of_cons in Ht as [->|Ht]; [simpl in *; injection Hsp as <- <-; simpl; try (apply Hgoal; lia)|]).
    + destruct str as [|d str].
      * assert (chr buf (S q) = 0) as ->; [|simpl; apply Hgoal; lia]. apply chr_end.
        apply (f_equal length) in Hd1. rewrite length_drop in Hd1. simpl in Hd1. unfold es. lia.
      * destruct (chr_drop (S q) _ _ Hd1) as (-> & _). simpl in He. rewrite (proj2 (Z.eqb_neq d 62)) by auto. apply Hgoal. lia.
    + destruct (chr_drop (S q) _ _ Hd1) as (-> & _). simpl. apply Hgoal. lia.
    + by apply not_elem_of_nil in Ht.
Qed.

Lemma gettoken_end s : at_ s [] → ∃ q eq s', gettoken buf s = (0, q, eq, s') ∧ at_ s' [].
Proof.
  intros H. destruct (scan_space s _ H) as [Ha Hd]. unfold gettoken. cbv zeta.
  assert (chr buf (scan buf is_space s) = 0) as E.
  { apply chr_end. apply (f_equal length) in Hd. rewrite length_drop in Hd. unfold es. simpl in Hd. lia. }
  rewrite !E. simpl. eexists _, _, _. split; [done|]. by apply scan_space.
Qed.

Lemma at_length s toks : at_ s toks → (length toks ≤ es buf - s)%nat.
Proof.
  intros [Hs Hl]. assert (length toks ≤ length (drop s buf))%nat as H; [|by rewrite length_drop in H].
  clear Hs. induction Hl as [|ws t toks str _ Ht _ _ IH]; [simpl; lia|].
  destruct (spell_first t Ht) as (c & l & -> & _). rewrite !length_app. simpl. lia.
Qed.

Lemma peek_word s w toks set :
  at_ s (Word w :: toks) → (∀ c, c ∈ set → is_symbol c = true) →
  ∃ s', at_ s' (Word w :: toks) ∧ peek buf s set = (false, s').
Proof.
  intros H Hset. destruct (peek_at s _ set H) as (s' & Hs' & ->). exists s'. split; [done|]. f_equal.
  destruct (scan_space s _ H) as [_ (str & _ & [Hne Hw] & _)]. destruct w as [|c w]; [done|]. simpl.
  apply Forall_cons in Hw as [[_ Hw] _]. apply not_true_is_false. intros He.
  apply existsb_exists in He as (x & Hx & Heq). apply Z.eqb_eq in Heq as <-.
  apply list_elem_of_In in Hx. apply Hset in Hx. unfold word_char in Hw. rewrite Hx in Hw. by destruct (is_space c).
Qed.

Lemma skip_token_at s t toks : at_ s (t :: toks) → at_ (skip_token buf s) toks.
Proof. intros H. destruct (gettoken_at s t toks H) as (q & e & s' & E & Hs' & _). unfold skip_token. by rewrite E. Qed.

End round_trip.

(** ** Commands as trees, and how they are written *)

Inductive rkind := RIn | ROut | RApp.

Inductive ast :=
| AExec (argv : list (list Z))
| ARedir (a : ast) (k : rkind) (file : list Z)
| APipe (a b : ast)
| AList (a b : ast)
| ABack (a : ast).

Definition rsym (k : rkind) : Z := match k with RIn => 60 | ROut => 62 | RApp => 43 end.
Definition rmode (k : rkind) : Z :=
  match k with
  | RIn => O_RDONLY
  | ROut => Z.lor (Z.lor O_WRONLY O_CREATE) O_TRUNC
  | RApp => Z.lor O_WRONLY O_CREATE
  end.
Definition rfd (k : rkind) : Z := match k with RIn => 0 | _ => 1 end.

Definition wrap (b : bool) (ts : list token) : list token := if b then Sym 40 :: ts ++ [Sym 41] else ts.

(** Levels: 0 a line, 1 an operand of ";", 2 an operand of "&", 3 an operand of "|". *)
Fixpoint print (lvl : nat) (a : ast) : list token :=
  match a with
  | AExec argv => map Word argv
  | ARedir a k w => print 3 a ++ [Sym (rsym k); Word w]
  | APipe a b => wrap (2 <? lvl)%nat (print 3 a ++ Sym 124 :: print 2 b)
  | ABack a => wrap (1 <? lvl)%nat (print 1 a ++ [Sym 38])
  | AList a b => wrap (0 <? lvl)%nat (print 1 a ++ Sym 59 :: print 0 b)
  end.

(** At most nine words. *)
Fixpoint few_args (a : ast) : Prop :=
  match a with
  | AExec argv => (length argv < MAXARGS)%nat
  | ARedir a _ _ | ABack a => few_args a
  | APipe a b | AList a b => few_args a ∧ few_args b
  end.

(** The command [c], its words read by [rd], is the tree [a]. *)
Fixpoint denotes (rd : nat * nat → list Z) (c : cmd) (a : ast) : Prop :=
  match c, a with
  | EXEC argv, AExec ws => map rd argv = ws
  | REDIR c q e mode fd, ARedir a k w => denotes rd c a ∧ rd (q, e) = w ∧ mode = rmode k ∧ fd = rfd k
  | PIPE l r, APipe a b | LIST l r, AList a b => denotes rd l a ∧ denotes rd r b
  | BACK c, ABack a => denotes rd c a
  | _, _ => False
  end.

Lemma denotes_ext rd rd' c a : (∀ x, x ∈ words c → rd' x = rd x) → denotes rd c a → denotes rd' c a.
Proof.
  revert a. induction c as [argv|c IH q e m f|l IHl r IHr|l IHl r IHr|c IH]; intros [] H; simpl in *; try done.
  - intros <-. apply map_ext_in. intros x Hx. by apply H, list_elem_of_In.
  - intros (Hd & <- & Hm). split_and!; try done; [apply IH; [|done]; set_solver|by apply H; set_solver|by destruct Hm|by destruct Hm].
  - intros [H1 H2]. split; [apply IHl|apply IHr]; set_solver.
  - intros [H1 H2]. split; [apply IHl|apply IHr]; set_solver.
  - by apply IH.
Qed.

(** What the next token may be. *)
Definition starts (ks : list Z) (toks : list token) : Prop :=
  match toks with [] => True | Word _ :: _ => False | Sym k :: _ => k ∈ ks end.

Lemma starts_mono ks ks' toks : ks ⊆ ks' → starts ks toks → starts ks' toks.
Proof. destruct toks as [|[w|k] toks]; simpl; auto. Qed.

Ltac sym_cases H :=
  repeat (apply elem_of_cons in H as [->|H]); try (by apply not_elem_of_nil in H).

Section parse_print.

Context (buf : list Z) (Hnul : 0 ∉ buf).

Abbreviation at_ := (at_ buf).
Abbreviation es := (es buf).
Abbreviation den := (denotes (slice buf)).

(** [peek] for symbols that the next token cannot be. *)
Lemma peek_starts s toks ks set :
  at_ s toks → starts ks toks → forallb (λ k, negb (existsb (Z.eqb (if k =? 43 then 62 else k)) set)) ks = true →
  ∃ s', at_ s' toks ∧ peek buf s set = (false, s').
Proof.
  intros H Hst Hks. destruct (peek_at buf s toks set H) as (s' & Hs' & ->). exists s'. split; [done|]. f_equal.
  destruct toks as [|[w|k] toks]; [done|done|]. simpl in Hst. rewrite forallb_forall in Hks.
  specialize (Hks k (proj1 (list_elem_of_In _ _) Hst)). apply negb_true_iff in Hks. rewrite <- Hks.
  simpl. by destruct (k =? 43).
Qed.

Lemma peek_sym s k toks set :
  at_ s (Sym k :: toks) → existsb (Z.eqb (if k =? 43 then 62 else k)) set = true →
  ∃ s', at_ s' (Sym k :: toks) ∧ peek buf s set = (true, s').
Proof.
  intros H Hk. destruct (peek_at buf s _ set H) as (s' & Hs' & ->). exists s'. split; [done|]. f_equal.
  rewrite <- Hk. simpl. by destruct (k =? 43).
Qed.

(** The tokens that end a simple command, and those that redirect. *)
Definition stops : list Z := [124; 41; 38; 59].
Definition redirs : list Z := [60; 62; 43].

Lemma parseredirs_stop fuel c s toks :
  at_ s toks → (match toks with Word _ :: _ => True | _ => starts (40 :: stops) toks end) → (0 < fuel)%nat →
  ∃ s', at_ s' toks ∧ parseredirs buf fuel c s = Done (c, s').
Proof.
  intros H Hst Hf. destruct fuel as [|f]; [lia|]. cbn [parseredirs].
  assert (∃ s', at_ s' toks ∧ peek buf s [60; 62] = (false, s')) as (s' & Hs' & ->); [|by exists s'].
  destruct toks as [|[w|k] toks].
  - by apply (peek_starts _ _ [] _ H).
  - apply (peek_word buf _ _ _ _ H). intros x Hx. sym_cases Hx; done.
  - by apply (peek_starts _ _ (40 :: stops) _ H).
Qed.

Lemma parseredirs_step fuel c s k w toks :
  at_ s (Sym (rsym k) :: Word w :: toks) →
  ∃ q e s', at_ s' toks ∧ slice buf (q, e) = w ∧
    parseredirs buf (S fuel) c s = parseredirs buf fuel (REDIR c q e (rmode k) (rfd k)) s'.
Proof.
  intros H. cbn [parseredirs]. destruct (peek_sym s _ _ [60; 62] H) as (s1 & H1 & ->); [by destruct k|].
  destruct (gettoken_at buf s1 _ _ H1) as (q0 & e0 & s2 & -> & H2 & _).
  destruct (gettoken_at buf s2 _ _ H2) as (q & e & s3 & -> & H3 & Hsl).
  exists q, e, s3. split_and!; [done|done|]. by destruct k.
Qed.

Lemma parse_args_stop fuel c argc s toks :
  at_ s toks → starts stops toks → (0 < fuel)%nat → ∃ s', at_ s' toks ∧ parse_args buf fuel c argc s = Done (c, s').
Proof.
  intros H Hst Hf. destruct fuel as [|f]; [lia|]. cbn [parse_args]. destruct toks as [|[w|k] toks]; [|done|].
  - destruct (peek_starts s [] [] stops H) as (s1 & H1 & Hp); [done|done|]. unfold stops in Hp. rewrite Hp.
    destruct (gettoken_end buf s1 H1) as (q & e & s2 & -> & H2). by exists s2.
  - destruct (peek_sym s k toks stops H) as (s1 & H1 & Hp); [simpl in Hst; sym_cases Hst; done|].
    unfold stops in Hp. rewrite Hp. by exists s1.
Qed.

(** The words of a simple command, up to the redirections that follow the last one. *)
Lemma parse_args_words fuel argv argc s ws rest :
  ws ≠ [] → at_ s (map Word ws ++ rest) → (argc + length ws < MAXARGS)%nat → (length ws < fuel)%nat →
  ∃ argv' argc' s' F f, map (slice buf) argv' = map (slice buf) argv ++ ws ∧ at_ s' rest ∧
    (length rest < F)%nat ∧ (0 < f)%nat ∧
    parse_args buf fuel (EXEC argv) argc s =
      rbind (parseredirs buf F (EXEC argv') s') (λ '(ret, s), parse_args buf f ret argc' s).
Proof.
  intros Hne. revert fuel argv argc s. induction ws as [|w ws IH]; [done|]. intros fuel argv argc s H Ha Hf.
  destruct fuel as [|fuel]; [lia|]. cbn [parse_args]. simpl in H, Ha, Hf.
  destruct (peek_word buf _ _ _ [124; 41; 38; 59] H) as (s1 & H1 & ->); [intros x Hx; sym_cases Hx; done|].
  destruct (gettoken_at buf s1 _ _ H1) as (q & e & s2 & -> & H2 & Hsl). cbn [tok_ret Z.eqb Pos.eqb negb].
  destruct (Nat.leb_spec MAXARGS (S argc)); [lia|]. cbn [push_arg].
  destruct ws as [|w2 ws].
  - exists (argv ++ [(q, e)]), (S argc), s2, (S (es - s2)), fuel. pose proof (at_length buf _ _ H2). simpl in *.
    split_and!; [rewrite map_app; simpl; by rewrite Hsl|done|lia|lia|done].
  - destruct (parseredirs_stop (S (es - s2)) (EXEC (argv ++ [(q, e)])) s2 _ H2) as (s3 & H3 & ->); [done|lia|]. cbn [rbind].
    destruct (IH ltac:(done) fuel (argv ++ [(q, e)]) (S argc) s3 H3) as (argv' & argc' & s' & F & f & Hm & Hr); [simpl in *; lia|simpl in *; lia|].
    exists argv', argc', s', F, f. split; [|done]. rewrite Hm, map_app. simpl. rewrite Hsl. by rewrite <- app_assoc.
Qed.

(** The four levels of the parser on a printed tree.  At the level of a simple command or a
    block, redirections may follow: the parser goes on with [parseredirs] and then [K], which
    stops where no redirection is left. *)
Definition exec_ok (a : ast) : Prop :=
  ∀ fuel s rest, at_ s (print 3 a ++ rest) → starts (redirs ++ stops) rest → (4 * length (print 3 a) + 2 ≤ fuel)%nat →
  ∃ c s' F K, parseexec buf fuel s = rbind (parseredirs buf F c s') K ∧ at_ s' rest ∧ den c a ∧ (length rest < F)%nat ∧
    ∀ c2 s2 rest2, at_ s2 rest2 → starts stops rest2 → ∃ s3, K (c2, s2) = Done (c2, s3) ∧ at_ s3 rest2.

Definition pipe_ok (a : ast) : Prop :=
  ∀ fuel s rest, at_ s (print 2 a ++ rest) → starts [41; 38; 59] rest → (4 * length (print 2 a) + 3 ≤ fuel)%nat →
  ∃ c s', parsepipe buf fuel s = Done (c, s') ∧ at_ s' rest ∧ den c a.

Definition back_ok (a : ast) : Prop :=
  ∀ fuel s rest, at_ s (print 1 a ++ rest) → starts [41; 38; 59] rest → (4 * length (print 1 a) + 3 ≤ fuel)%nat →
  ∃ c0 s0 n c s', parsepipe buf fuel s = Done (c0, s0) ∧ (n + length rest ≤ es - s0)%nat ∧ at_ s' rest ∧ den c a ∧
    ∀ f, parse_backs buf (n + f) c0 s0 = parse_backs buf f c s'.

Definition line_ok (a : ast) : Prop :=
  ∀ fuel s rest, at_ s (print 0 a ++ rest) → starts [41] rest → (4 * length (print 0 a) + 4 ≤ fuel)%nat →
  ∃ c s', parseline buf fuel s = Done (c, s') ∧ at_ s' rest ∧ den c a.

Ltac sub_starts := eapply starts_mono; [|eassumption]; unfold redirs, stops; set_solver.

(** A simple command or block followed by no redirection. *)
Lemma exec_done a fuel s rest :
  exec_ok a → at_ s (print 3 a ++ rest) → starts stops rest → (4 * length (print 3 a) + 2 ≤ fuel)%nat →
  ∃ c s', parseexec buf fuel s = Done (c, s') ∧ at_ s' rest ∧ den c a.
Proof.
  intros Ha H Hst Hf. destruct (Ha fuel s rest H) as (c & s1 & F & K & -> & H1 & Hd & HF & HK); [sub_starts|done|].
  destruct (parseredirs_stop F c s1 rest H1) as (s2 & H2 & ->).
  { destruct rest as [|[w|k] rest]; [done|done|]. sub_starts. }
  { lia. }
  cbn [rbind]. destruct (HK c s2 rest H2 Hst) as (s3 & -> & H3). by exists c, s3.
Qed.

Lemma exec_simple ws : (length ws < MAXARGS)%nat → exec_ok (AExec ws).
Proof.
  intros Hws fuel s rest H Hst Hf. destruct fuel as [|fuel]; [lia|]. cbn [parseexec print] in *.
  assert (∃ s1, at_ s1 (map Word ws ++ rest) ∧ peek buf s [40] = (false, s1)) as (s1 & H1 & ->).
  { destruct ws as [|w ws].
    - by apply (peek_starts s rest (redirs ++ stops)).
    - apply peek_word; [done|]. intros x Hx. sym_cases Hx. done. }
  assert (∀ f argc c2 s2 rest2, (0 < f)%nat → at_ s2 rest2 → starts stops rest2 →
    ∃ s3, (λ '(ret, s), parse_args buf f ret argc s) (c2, s2) = Done (c2, s3) ∧ at_ s3 rest2) as HK.
  { intros f argc c2 s2 rest2 Hf2 H2 Hs2. destruct (parse_args_stop f c2 argc s2 rest2 H2 Hs2 Hf2) as (s3 & H3 & E).
    by exists s3. }
  destruct ws as [|w ws].
  - exists (EXEC []), s1, (S (es - s1)), (λ '(ret, s), parse_args buf (S (es - s)) ret 0 s).
    pose proof (at_length buf _ _ H1) as Hlen. simpl in Hlen. split_and!; [done|done|done|lia|].
    intros c2 s2 rest2 H2 Hs2. destruct (HK (S (es - s2)) 0%nat c2 s2 rest2) as (s3 & E & H3); [lia|done|done|]. by exists s3.
  - destruct (parseredirs_stop (S (es - s1)) (EXEC []) s1 _ H1) as (s2 & H2 & ->); [done|lia|]. cbn [rbind].
    pose proof (at_length buf _ _ H2) as Hlen. rewrite length_app, length_map in Hlen.
    destruct (parse_args_words (S (es - s2)) [] 0 s2 (w :: ws) rest) as (argv & argc & s3 & F & f & Hm & H3 & HF & Hf2 & ->);
      [done|done|simpl in *; lia|simpl in *; lia|].
    exists (EXEC argv), s3, F, (λ '(ret, s), parse_args buf f ret argc s). split_and!; [done|done|exact Hm|done|].
    intros. by apply HK.
Qed.

Lemma exec_redir a k w : exec_ok a → exec_ok (ARedir a k w).
Proof.
  intros Ha fuel s rest H Hst Hf. cbn [print] in *. rewrite <- app_assoc in H. cbn [app] in H. rewrite length_app in Hf. simpl in Hf.
  destruct (Ha fuel s _ H) as (c & s1 & F & K & -> & H1 & Hd & HF & HK); [simpl; unfold redirs; destruct k; simpl; set_solver|lia|].
  destruct F as [|F]; [simpl in HF; lia|].
  destruct (parseredirs_step F c s1 k w rest H1) as (q & e & s2 & H2 & Hsl & ->).
  exists (REDIR c q e (rmode k) (rfd k)), s2, F, K. split_and!; try done. simpl in HF. lia.
Qed.

(** A block. *)
Lemma exec_block a : line_ok a → print 3 a = wrap true (print 0 a) → exec_ok a.
Proof.
  intros Ha Hp fuel s rest H Hst Hf. rewrite Hp in *. cbn [wrap app] in *. rewrite <- app_assoc in H. cbn [app] in H.
  simpl in Hf. rewrite length_app in Hf. simpl in Hf. destruct fuel as [|[|fuel]]; [lia..|]. cbn [parseexec].
  destruct (peek_sym s 40 _ [40] H) as (s1 & H1 & ->); [done|]. cbn [parseblock].
  destruct (peek_sym s1 40 _ [40] H1) as (s2 & H2 & ->); [done|]. cbn [negb].
  pose proof (skip_token_at buf _ _ _ H2) as H3.
  destruct (Ha fuel (skip_token buf s2) (Sym 41 :: rest) H3) as (c & s4 & -> & H4 & Hd); [simpl; set_solver|lia|]. cbn [rbind].
  destruct (peek_sym s4 41 _ [41] H4) as (s5 & H5 & ->); [done|]. cbn [negb]. cbv zeta.
  pose proof (skip_token_at buf _ _ _ H5) as H6. pose proof (at_length buf _ _ H6).
  exists c, (skip_token buf s5), (S (es - skip_token buf s5)), Done. split_and!; [|done|done|lia|].
  - by destruct (parseredirs _ _ _ _).
  - intros c2 s7 rest2 H7 _. by exists s7.
Qed.

Lemma pipe_exec a : exec_ok a → print 2 a = print 3 a → pipe_ok a.
Proof.
  intros Ha Hp fuel s rest H Hst Hf. rewrite Hp in *. destruct fuel as [|fuel]; [lia|]. cbn [parsepipe].
  destruct (exec_done a fuel s rest Ha H) as (c & s1 & -> & H1 & Hd); [sub_starts|lia|]. cbn [rbind].
  destruct (peek_starts s1 rest [41; 38; 59] [124]) as (s2 & H2 & ->); [done..|]. by exists c, s2.
Qed.

Lemma pipe_pipe a b : exec_ok a → pipe_ok b → pipe_ok (APipe a b).
Proof.
  intros Ha Hb fuel s rest H Hst Hf. cbn [print wrap Nat.ltb Nat.leb] in *. rewrite <- app_assoc in H. cbn [app] in H.
  rewrite length_app in Hf. simpl in Hf. destruct fuel as [|fuel]; [lia|]. cbn [parsepipe].
  destruct (exec_done a fuel s _ Ha H) as (c & s1 & -> & H1 & Hd); [simpl; unfold stops; set_solver|lia|]. cbn [rbind].
  destruct (peek_sym s1 124 _ [124] H1) as (s2 & H2 & ->); [done|].
  destruct (Hb fuel (skip_token buf s2) rest) as (c' & s3 & -> & H3 & Hd'); [by eapply skip_token_at|done|lia|].
  by exists (PIPE c c'), s3.
Qed.

Lemma back_pipe a : pipe_ok a → print 1 a = print 2 a → back_ok a.
Proof.
  intros Ha Hp fuel s rest H Hst Hf. rewrite Hp in *. destruct (Ha fuel s rest H Hst Hf) as (c & s1 & E & H1 & Hd).
  exists c, s1, 0%nat, c, s1. pose proof (at_length buf _ _ H1). by split_and!.
Qed.

Lemma back_back a : back_ok a → back_ok (ABack a).
Proof.
  intros Ha fuel s rest H Hst Hf. cbn [print wrap Nat.ltb Nat.leb] in *. rewrite <- app_assoc in H. cbn [app] in H.
  rewrite length_app in Hf. simpl in Hf.
  destruct (Ha fuel s _ H) as (c0 & s0 & n & c & s1 & E & Hn & H1 & Hd & HB); [simpl; set_solver|lia|].
  destruct (peek_sym s1 38 _ [38] H1) as (s2 & H2 & Hp); [done|].
  exists c0, s0, (S n), (BACK c), (skip_token buf s2). simpl in Hn. split_and!; [done|lia|by eapply skip_token_at|done|].
  intros f. replace (S n + f)%nat with (n + S f)%nat by lia. rewrite HB. cbn [parse_backs]. by rewrite Hp.
Qed.

(** [parsepipe] and the loop over "&", which stops. *)
Lemma back_done a fuel s rest :
  back_ok a → at_ s (print 1 a ++ rest) → starts [41; 59] rest → (4 * length (print 1 a) + 3 ≤ fuel)%nat →
  ∃ c0 s0 c s', parsepipe buf fuel s = Done (c0, s0) ∧ parse_backs buf (S (es - s0)) c0 s0 = Done (c, s') ∧ at_ s' rest ∧ den c a.
Proof.
  intros Ha H Hst Hf. destruct (Ha fuel s rest H) as (c0 & s0 & n & c & s1 & E & Hn & H1 & Hd & HB); [sub_starts|done|].
  destruct (peek_starts s1 rest [41; 59] [38]) as (s2 & H2 & Hp); [done..|].
  exists c0, s0, c, s2. split_and!; try done. replace (S (es - s0)) with (n + S (es - s0 - n))%nat by lia.
  rewrite HB. cbn [parse_backs]. by rewrite Hp.
Qed.

Lemma line_back a : back_ok a → print 0 a = print 1 a → line_ok a.
Proof.
  intros Ha Hp fuel s rest H Hst Hf. rewrite Hp in *. destruct fuel as [|fuel]; [lia|]. cbn [parseline].
  destruct (back_done a fuel s rest Ha H) as (c0 & s0 & c & s1 & -> & E & H1 & Hd); [sub_starts|lia|]. cbn [rbind]. rewrite E. cbn [rbind].
  destruct (peek_starts s1 rest [41] [59]) as (s2 & H2 & ->); [done..|]. by exists c, s2.
Qed.

Lemma line_list a b : back_ok a → line_ok b → line_ok (AList a b).
Proof.
  intros Ha Hb fuel s rest H Hst Hf. cbn [print wrap Nat.ltb Nat.leb] in *. rewrite <- app_assoc in H. cbn [app] in H.
  rewrite length_app in Hf. simpl in Hf. destruct fuel as [|fuel]; [lia|]. cbn [parseline].
  destruct (back_done a fuel s _ Ha H) as (c0 & s0 & c & s1 & -> & E & H1 & Hd); [simpl; set_solver|lia|]. cbn [rbind]. rewrite E. cbn [rbind].
  destruct (peek_sym s1 59 _ [59] H1) as (s2 & H2 & ->); [done|].
  destruct (Hb fuel (skip_token buf s2) rest) as (c' & s3 & -> & H3 & Hd'); [by eapply skip_token_at|done|lia|].
  by exists (LIST c c'), s3.
Qed.

Lemma parser_inverts a : few_args a → exec_ok a ∧ pipe_ok a ∧ back_ok a ∧ line_ok a.
Proof.
  induction a as [ws|a IH k w|a IHa b IHb|a IHa b IHb|a IH]; simpl; intros Hfew.
  - assert (exec_ok (AExec ws)) as He by by apply exec_simple.
    assert (pipe_ok (AExec ws)) as Hp by by apply pipe_exec. assert (back_ok (AExec ws)) as Hb by by apply back_pipe.
    split_and!; try done. by apply line_back.
  - destruct (IH Hfew) as (IHe & _). assert (exec_ok (ARedir a k w)) as He by by apply exec_redir.
    assert (pipe_ok (ARedir a k w)) as Hp by by apply pipe_exec. assert (back_ok (ARedir a k w)) as Hb by by apply back_pipe.
    split_and!; try done. by apply line_back.
  - destruct Hfew as [Hfa Hfb]. destruct (IHa Hfa) as (IHe & _). destruct (IHb Hfb) as (_ & IHp & _).
    assert (pipe_ok (APipe a b)) as Hp by by apply pipe_pipe. assert (back_ok (APipe a b)) as Hb by by apply back_pipe.
    assert (line_ok (APipe a b)) as Hl by by apply line_back. split_and!; try done. by apply exec_block.
  - destruct Hfew as [Hfa Hfb]. destruct (IHa Hfa) as (_ & _ & IHk & _). destruct (IHb Hfb) as (_ & _ & _ & IHl).
    assert (line_ok (AList a b)) as Hl by by apply line_list. assert (exec_ok (AList a b)) as He by by apply exec_block.
    assert (pipe_ok (AList a b)) as Hp by by apply pipe_exec. split_and!; try done. by apply back_pipe.
  - destruct (IH Hfew) as (_ & _ & IHk & _). assert (back_ok (ABack a)) as Hb by by apply back_back.
    assert (line_ok (ABack a)) as Hl by by apply line_back. assert (exec_ok (ABack a)) as He by by apply exec_block.
    split_and!; try done. by apply pipe_exec.
Qed.

End parse_print.

Lemma layout_no_nul toks str : layout toks str → 0 ∉ str.
Proof.
  induction 1 as [ws Hws|ws t toks str Hws Ht _ _ IH].
  - intros H. rewrite Forall_forall in Hws. by apply Hws in H.
  - intros H. apply elem_of_app in H as [H|H]; [rewrite Forall_forall in Hws; by apply Hws in H|].
    apply elem_of_app in H as [H|H]; [|done]. destruct t as [w|k]; simpl in Ht, H.
    + destruct Ht as [_ Ht]. rewrite Forall_forall in Ht. by apply Ht in H as [? _].
    + sym_cases Ht; revert H; simpl; set_solver.
Qed.

Lemma parser_inverts_line a str :
  few_args a → layout (print 0 a) str →
  ∃ c b, parsecmd str = Done (c, b) ∧ denotes (λ x, c_string (drop x.1 b)) c a.
Proof.
  intros Hfew Hl. pose proof (layout_no_nul _ _ Hl) as Hnul. destruct (parser_inverts str Hnul a Hfew) as (_ & _ & _ & Hline).
  assert (at_ str 0 (print 0 a ++ [])) as H0 by (split; [lia|]; by rewrite app_nil_r, drop_0).
  pose proof (at_length str _ _ H0) as Hlen. rewrite app_nil_r in Hlen. unfold es in Hlen.
  destruct (Hline (4 * length str + 4)%nat 0%nat [] H0) as (c & s & Hp & [Hs Hrest] & Hd); [done|lia|].
  destruct (parser_safe str Hnul (4 * length str + 4) 0) as [Hsafe _]; [lia|]. specialize (Hsafe ltac:(unfold es; lia)).
  rewrite Hp in Hsafe. destruct Hsafe as [_ Hwf].
  unfold parsecmd. rewrite Hp. cbn [rbind]. destruct (scan_space str s [] (conj Hs Hrest)) as [[Hle _] Hend].
  apply (f_equal length) in Hend. rewrite length_drop in Hend. simpl in Hend. unfold peek. cbv zeta.
  assert (scan str is_space s =? es str = true)%nat as -> by (apply Nat.eqb_eq; unfold es in *; lia). cbn [negb].
  eexists c, _. split; [done|]. eapply denotes_ext; [|exact Hd]. intros x Hx. by apply read_word.
Qed.

(** C29: The parser inverts the printer: for every command tree with fewer than [MAXARGS]
    words in each simple command, and every line that lays out its printed tokens with any
    white space, [parsecmd] yields a command that is that tree, its words read as C strings
    from the buffer it returns. *)
Theorem parse_print a str :
  few_args a → layout (print 0 a) str →
  ∃ c b, parsecmd str = Done (c, b) ∧ denotes (λ x, c_string (drop x.1 b)) c a.
Proof.
  apply parser_inverts_line.
Qed.

(** The line  (a|b&;c)>f , written without a space, and its tree. *)
Definition demo_line : list Z := [40; 97; 124; 98; 38; 59; 99; 41; 62; 102].
Definition demo_tree : ast := ARedir (AList (ABack (APipe (AExec [[97]]) (AExec [[98]]))) (AExec [[99]])) ROut [102].

Lemma demo_layout : layout (print 0 demo_tree) demo_line.
Proof.
  unfold demo_line. simpl.
  assert (∀ t toks l str, l = spell t ++ str → valid_token t → ends t str → layout toks str → layout (t :: toks) l) as L.
  { intros t toks l str -> Ht He Hl. by apply (layout_cons [] t toks str). }
  assert (∀ c, c ≠ 0 → word_char c = true → valid_token (Word [c])) as V.
  { intros c Hc Hw. split; [done|]. by repeat constructor. }
  repeat first
    [ eapply (L (Word _)); [simpl; reflexivity|by apply V|first [reflexivity|exact I]|]
    | eapply (L (Sym _)); [simpl; reflexivity|apply (bool_decide_unpack _); vm_compute; exact I|simpl; first [lia|done]|] ].
  apply layout_nil. constructor.
Qed.

Lemma parse_print_witness :
  ∃ c b, parsecmd demo_line = Done (c, b) ∧ denotes (λ x, c_string (drop x.1 b)) c demo_tree.
Proof. apply parse_print; [simpl; unfold MAXARGS; lia|exact demo_layout]. Defined.
