(* ===== verification/User.v ===== *)
(** * User programs: system calls and the C library

    A user program is a tree of system calls ([U]): a node is a call and a continuation that
    takes the kernel's answer; the leaves are a result, [exit], or [Ustuck] where a loop has
    run out of fuel or the C text has no meaning.  [user/printf.c] and the parts of
    [user/ulib.c] that make system calls are such programs.

    A tree is run against a handler for the calls ([urun]); [uos] is a handler with files,
    descriptors and an output log in which [read] returns any number of the bytes that are
    left, so that the theorems hold however the kernel cuts the input into chunks. *)

From Stdlib Require Import ZArith Lia Ascii.
From S2P Require Import Prelude Machine CString.

(** ** System calls *)

Inductive ucall :=
| Cfork | Cwait | Cpipe | Cread (fd n : Z) | Cwrite (fd : Z) (bytes : list Z) | Cclose (fd : Z)
| Ckill (pid : Z) | Cexec (path : list Z) (argv : list (list Z)) | Copen (path : list Z) (mode : Z)
| Cmknod (path : list Z) (major minor : Z) | Cunlink (path : list Z) | Cfstat (fd : Z)
| Clink (old new : list Z) | Cmkdir (path : list Z) | Cchdir (path : list Z) | Cdup (fd : Z)
| Csleep (n : Z) | Cwaitx | Cgetreadcount.

(** The answer: the return value and what the kernel stored through the pointers of the call:
    the bytes read, the two ends of a pipe, the status of a child, the fields of a stat. *)
Record uret := mk_uret { rv : Z; rdata : list Z }.

Inductive U (A : Type) :=
| Uret (a : A)
| Uexit (status : Z)
| Usys (c : ucall) (k : uret → U A)
| Ustuck.
Arguments Uret {A} a.
Arguments Uexit {A} status.
Arguments Usys {A} c k.
Arguments Ustuck {A}.

#[export] Instance U_ret : MRet U := @Uret.
#[export] Instance U_bind : MBind U := λ A B f,
  fix bind (p : U A) : U B :=
    match p with
    | Uret a => f a
    | Uexit st => Uexit st
    | Usys c k => Usys c (λ r, bind (k r))
    | Ustuck => Ustuck
    end.

(** The calls by their C names; a call whose data nobody uses returns its value. *)
Definition syscall_ret (c : ucall) : U uret := Usys c Uret.
Definition syscall_rv (c : ucall) : U Z := Usys c (λ r, Uret (rv r)).

Definition uread (fd n : Z) : U uret := syscall_ret (Cread fd n).
Definition uwrite (fd : Z) (bytes : list Z) : U Z := syscall_rv (Cwrite fd bytes).
Definition uopen (path : list Z) (mode : Z) : U Z := syscall_rv (Copen path mode).
Definition uclose (fd : Z) : U Z := syscall_rv (Cclose fd).
Definition uexit {A} (status : Z) : U A := Uexit status.

(** A string literal. *)
Fixpoint chars (s : string) : list Z :=
  match s with
  | EmptyString => []
  | String c s' => Z.of_nat (nat_of_ascii c) :: chars s'
  end.

(** ** printf.c *)

Definition udigits : list Z := chars "0123456789ABCDEF".
Definition udigit (i : Z) : Z := default 0 (udigits !! Z.to_nat i).

Fixpoint uprintint_buf (fuel : nat) (x base : Z) : list Z :=
  match fuel with
  | O => []
  | S f => udigit (x mod base) :: (if x / base =? 0 then [] else uprintint_buf f (x / base) base)
  end.

(** [printint]: the characters it prints, the last of [buf] first. *)
Definition uprintint (xx base : Z) (sgn : bool) : list Z :=
  let neg := (sgn && (xx <? 0))%bool in
  let x := if neg then u32 (- xx) else u32 xx in
  rev (uprintint_buf 32 x base ++ (if neg then [45] else [])).

Definition uprintptr (x : Z) : list Z :=
  48 :: 120 :: map (λ i, udigit (Z.shiftr (u64 (Z.shiftl x (4 * i))) 60)) (seqZ 0 16).

(** A variadic argument. *)
Inductive uarg := UA_int (x : Z) | UA_str (s : option (list Z)).

(** The loop of [vprintf]: [percent] says that the last character was "%".  [None]: an
    argument is missing or of the wrong kind. *)
Fixpoint vprintf_loop (fmt : list Z) (percent : bool) (ap : list uarg) : option (list Z) :=
  match fmt with
  | [] => Some []
  | c :: fmt' =>
      if negb percent then
        if c =? 37 then vprintf_loop fmt' true ap
        else cs ← vprintf_loop fmt' false ap; Some (c :: cs)
      else if c =? 100 then
        match ap with
        | UA_int x :: ap' => cs ← vprintf_loop fmt' false ap'; Some (uprintint (s32 x) 10 true ++ cs)
        | _ => None
        end
      else if c =? 108 then
        match ap with
        | UA_int x :: ap' => cs ← vprintf_loop fmt' false ap'; Some (uprintint (s32 x) 10 false ++ cs)
        | _ => None
        end
      else if c =? 120 then
        match ap with
        | UA_int x :: ap' => cs ← vprintf_loop fmt' false ap'; Some (uprintint (s32 x) 16 false ++ cs)
        | _ => None
        end
      else if c =? 112 then
        match ap with
        | UA_int x :: ap' => cs ← vprintf_loop fmt' false ap'; Some (uprintptr (u64 x) ++ cs)
        | _ => None
        end
      else if c =? 115 then
        match ap with
        | UA_str s :: ap' => cs ← vprintf_loop fmt' false ap'; Some (default (chars "(null)") s ++ cs)
        | _ => None
        end
      else if c =? 99 then
        match ap with
        | UA_int x :: ap' => cs ← vprintf_loop fmt' false ap'; Some (u8 x :: cs)
        | _ => None
        end
      else if c =? 37 then cs ← vprintf_loop fmt' false ap; Some (c :: cs)
      else cs ← vprintf_loop fmt' false ap; Some (37 :: c :: cs)
  end.

(** [putc] on every character: one [write] each. *)
Fixpoint uputs (fd : Z) (cs : list Z) : U unit :=
  match cs with
  | [] => mret ()
  | c :: cs' => uwrite fd [c] ;; uputs fd cs'
  end.

Definition ufprintf (fd : Z) (fmt : list Z) (ap : list uarg) : U unit :=
  match vprintf_loop fmt false ap with
  | Some cs => uputs fd cs
  | None => Ustuck
  end.

Definition uprintf (fmt : list Z) (ap : list uarg) : U unit := ufprintf 1 fmt ap.

(** A line of a program's output: [fmt] and a newline. *)
Definition line (fmt : string) : list Z := chars fmt ++ [10].

(** ** ulib.c *)

(** [_main], where a program starts: a [main] that returns is followed by [exit(0)]. *)
Definition ulib_main (main : U unit) : U unit := main ;; uexit 0.

(** The loop of [gets]; [acc] is what is in [buf]. *)
Fixpoint gets_loop (fuel : nat) (max : Z) (acc : list Z) : U (list Z) :=
  match fuel with
  | O => Ustuck
  | S f =>
      if Z.of_nat (length acc) + 1 <? max then
        r ← uread 0 1;
        if rv r <? 1 then mret acc
        else
          let c := hd 0 (rdata r) in
          if ((c =? 10) || (c =? 13))%bool then mret (acc ++ [c]) else gets_loop f max (acc ++ [c])
      else mret acc
  end.

(** [gets]: the characters before the NUL it stores. *)
Definition gets (max : Z) : U (list Z) := gets_loop (S (Z.to_nat max)) max [].

(** [stat]: the result and the fields of the stat structure. *)
Definition ustat (path : list Z) : U (Z * list Z) :=
  fd ← uopen path O_RDONLY;
  if fd <? 0 then mret (-1, [])
  else
    r ← syscall_ret (Cfstat fd);
    uclose fd ;;
    mret (rv r, rdata r).

(** ** Running a program *)

Inductive uout (A : Type) := Returned (a : A) | Exited (status : Z) | Lost.
Arguments Returned {A} a.
Arguments Exited {A} status.
Arguments Lost {A}.

(** A handler answers a call and changes the system's state. *)
Fixpoint urun {S A} (h : ucall → S → uret * S) (p : U A) (s : S) : uout A * S :=
  match p with
  | Uret a => (Returned a, s)
  | Uexit st => (Exited st, s)
  | Usys c k => let '(r, s) := h c s in urun h (k r) s
  | Ustuck => (Lost, s)
  end.

Lemma urun_bind {S A B} h (p : U A) (f : A → U B) (s : S) :
  urun h (p ≫= f) s =
  match urun h p s with
  | (Returned a, s) => urun h (f a) s
  | (Exited st, s) => (Exited st, s)
  | (Lost, s) => (Lost, s)
  end.
Proof. revert s. induction p as [a|st|c k IH|]; intros s; simpl; [done|done| |done]. destruct (h c s) as [r s']. apply IH. Qed.

(** A system with read-only files: the paths that exist, what is left to read from each open
    descriptor, the sizes of the chunks that the next reads find ready, and what has been
    written to each descriptor. *)
Record uos := mk_uos {
  os_files : list (list Z * list Z);
  os_fds : gmap Z (list Z);
  os_ready : nat → nat;
  os_out : gmap Z (list Z);
}.

Fixpoint lookup_file (fs : list (list Z * list Z)) (path : list Z) : option (list Z) :=
  match fs with
  | [] => None
  | (p, c) :: fs' => if bool_decide (p = path) then Some c else lookup_file fs' path
  end.

Definition out_of (s : uos) (fd : Z) : list Z := default [] (os_out s !! fd).

(** The lowest free descriptor of sixteen. *)
Definition free_fd (s : uos) : option Z := list_find (λ fd, os_fds s !! fd = None) (seqZ 0 16) ≫= λ x, Some x.2.

Definition uos_call (c : ucall) (s : uos) : uret * uos :=
  match c with
  | Cread fd n =>
      match os_fds s !! fd with
      | None => (mk_uret (-1) [], s)
      | Some rest =>
          let m := Nat.min (Nat.max 1 (os_ready s 0)) (Nat.min (Z.to_nat n) (length rest)) in
          (mk_uret (Z.of_nat m) (take m rest),
           mk_uos (os_files s) (<[fd := drop m rest]> (os_fds s)) (λ i, os_ready s (S i)) (os_out s))
      end
  | Cwrite fd bs =>
      (mk_uret (Z.of_nat (length bs)) [],
       mk_uos (os_files s) (os_fds s) (os_ready s) (<[fd := out_of s fd ++ bs]> (os_out s)))
  | Copen path _ =>
      match lookup_file (os_files s) path, free_fd s with
      | Some c, Some fd => (mk_uret fd [], mk_uos (os_files s) (<[fd := c]> (os_fds s)) (os_ready s) (os_out s))
      | _, _ => (mk_uret (-1) [], s)
      end
  | Cclose fd =>
      match os_fds s !! fd with
      | Some _ => (mk_uret 0 [], mk_uos (os_files s) (delete fd (os_fds s)) (os_ready s) (os_out s))
      | None => (mk_uret (-1) [], s)
      end
  | _ => (mk_uret (-1) [], s)
  end.

Abbreviation run := (urun uos_call).

(** [s'] is [s] with [bs] written to [fd]. *)
Definition wrote (s s' : uos) (fd : Z) (bs : list Z) : Prop :=
  os_files s' = os_files s ∧ os_fds s' = os_fds s ∧ (∀ i, os_ready s' i = os_ready s i) ∧
  out_of s' fd = out_of s fd ++ bs ∧ ∀ fd', fd' ≠ fd → out_of s' fd' = out_of s fd'.

Lemma out_of_insert f d r o fd fd' x :
  out_of (mk_uos f d r (<[fd := x]> o)) fd' = if decide (fd' = fd) then x else default [] (o !! fd').
Proof.
  unfold out_of. simpl. destruct (decide (fd' = fd)) as [->|]; [by rewrite lookup_insert_eq|by rewrite lookup_insert_ne].
Qed.

Lemma uwrite_run fd bs s : ∃ s', run (uwrite fd bs) s = (Returned (Z.of_nat (length bs)), s') ∧ wrote s s' fd bs.
Proof.
  eexists. split; [reflexivity|]. split_and!; try done.
  - rewrite out_of_insert, decide_True by done. done.
  - intros fd' H. by rewrite out_of_insert, decide_False by done.
Qed.

Lemma wrote_nil s fd : wrote s s fd [].
Proof. split_and!; try done. by rewrite app_nil_r. Qed.

Lemma wrote_trans s s1 s2 fd bs bs' : wrote s s1 fd bs → wrote s1 s2 fd bs' → wrote s s2 fd (bs ++ bs').
Proof.
  intros (H1 & H2 & H3 & H4 & H5) (G1 & G2 & G3 & G4 & G5). split_and!.
  - by rewrite G1.
  - by rewrite G2.
  - intros i. by rewrite G3.
  - by rewrite G4, H4, app_assoc.
  - intros fd' Hne. by rewrite G5, H5.
Qed.

Lemma uputs_run fd cs s : ∃ s', run (uputs fd cs) s = (Returned (), s') ∧ wrote s s' fd cs.
Proof.
  revert s. induction cs as [|c cs IH]; intros s; cbn [uputs]; [exists s; split; [done|apply wrote_nil]|].
  destruct (uwrite_run fd [c] s) as (s1 & Hr & H1). rewrite urun_bind, Hr. destruct (IH s1) as (s2 & Hr2 & H2).
  exists s2. split; [exact Hr2|]. by apply (wrote_trans s s1 s2 fd [c] cs).
Qed.

(** What a read of an open descriptor does. *)
Lemma uread_run fd n rest s :
  0 < n → os_fds s !! fd = Some rest →
  ∃ m s', run (uread fd n) s = (Returned (mk_uret (Z.of_nat m) (take m rest)), s') ∧
    (m ≤ length rest)%nat ∧ (m ≤ Z.to_nat n)%nat ∧ (rest ≠ [] → 0 < m)%nat ∧
    os_fds s' = <[fd := drop m rest]> (os_fds s) ∧ os_files s' = os_files s ∧ os_out s' = os_out s.
Proof.
  intros Hn Hfd. unfold uread, syscall_ret. simpl. rewrite Hfd.
  set (m := Nat.min _ _). exists m. eexists. split; [reflexivity|]. split_and!; try done; [lia|lia|].
  intros Hne. destruct rest as [|x rest]; [done|]. simpl in m. lia.
Qed.

(** ** The numbers of printf and atoi *)

Definition dec_fold (n : Z) (ds : list Z) : Z := foldl (λ n d, s32 (n * 10 + d - 48)) n ds.

Lemma atoi_loop_digits fuel l i ds n :
  drop i l = ds ++ [0] → Forall (λ d, 48 ≤ d ≤ 57) ds → (length ds < fuel)%nat →
  atoi_loop fuel (buf_mem l) (Z.of_nat i) n = Some (dec_fold n ds).
Proof.
  revert i ds n. induction fuel as [|f IH]; intros i ds n Hd Hds Hf; [lia|]. cbn [atoi_loop].
  assert (buf_mem l (Z.of_nat i) = hd 0 (ds ++ [0])) as ->.
  { unfold buf_mem. rewrite Nat2Z.id. rewrite <- Hd. pose proof (lookup_drop l i 0) as Hl. rewrite Nat.add_0_r in Hl.
    rewrite <- Hl. by destruct (drop i l). }
  destruct ds as [|d ds]; [done|]. simpl. apply Forall_cons in Hds as [Hd0 Hds].
  assert ((48 <=? d) && (d <=? 57) = true)%bool as -> by (apply andb_true_iff; lia).
  replace (Z.of_nat i + 1) with (Z.of_nat (S i)) by lia. rewrite (IH _ ds); [done| |done|simpl in Hf; lia].
  replace (S i) with (i + 1)%nat by lia. by rewrite <- drop_drop, Hd.
Qed.

Lemma udigit_dec d : 0 ≤ d < 10 → udigit d = 48 + d.
Proof. intros H. assert (d = 0 ∨ d = 1 ∨ d = 2 ∨ d = 3 ∨ d = 4 ∨ d = 5 ∨ d = 6 ∨ d = 7 ∨ d = 8 ∨ d = 9) as Hd by lia. naive_solver. Qed.

Lemma uprintint_buf_dec fuel x :
  0 ≤ x < 10 ^ Z.of_nat fuel → 0 ≤ x < 2147483648 → (0 < fuel)%nat →
  Forall (λ d, 48 ≤ d ≤ 57) (uprintint_buf fuel x 10) ∧ dec_fold 0 (rev (uprintint_buf fuel x 10)) = x ∧
  (length (uprintint_buf fuel x 10) ≤ fuel)%nat.
Proof.
  revert x. induction fuel as [|f IH]; intros x Hx Hx2 Hf; [lia|]. cbn [uprintint_buf].
  rewrite udigit_dec by (apply Z.mod_pos_bound; lia). pose proof (Z.mod_pos_bound x 10 ltac:(lia)).
  pose proof (Z.div_mod x 10 ltac:(lia)) as Hdm.
  destruct (Z.eqb_spec (x / 10) 0) as [E|E].
  - split_and!; [repeat constructor; lia| |simpl; lia]. simpl. rewrite s32_small by lia. lia.
  - assert (0 ≤ x / 10 < 10 ^ Z.of_nat f) as Hq.
    { rewrite Nat2Z.inj_succ, Z.pow_succ_r in Hx by lia. split; [apply Z.div_pos; lia|apply Z.div_lt_upper_bound; lia]. }
    destruct f as [|f]; [simpl in Hq; lia|]. destruct (IH (x / 10) Hq) as (H1 & H2 & H3); [zarith|lia|].
    split_and!; [by constructor; [lia|]| |simpl in *; lia].
    cbn [rev]. unfold dec_fold in *. rewrite foldl_app, H2. simpl. rewrite s32_small by lia. lia.
Qed.

(** [atoi] reads back what [printf] prints for "%d": every non-negative [int] survives
    the round trip through its decimal characters. *)
Theorem atoi_printint x :
  0 ≤ x < 2147483648 → atoi 33 (buf_mem (uprintint x 10 true ++ [0])) 0 = Some x.
Proof.
  intros Hx. unfold atoi, uprintint. assert (x <? 0 = false) as -> by lia. cbn [andb]. rewrite u32_small, app_nil_r by lia.
  destruct (uprintint_buf_dec 32 x) as (H1 & H2 & H3); [split; [lia|]; apply (Z.lt_trans _ 2147483648); [lia|done]|lia|lia|].
  pose proof (atoi_loop_digits 33 (rev (uprintint_buf 32 x 10) ++ [0]) 0 (rev (uprintint_buf 32 x 10)) 0) as Ha.
  rewrite H2 in Ha. apply Ha; [done| |rewrite length_rev; lia].
  apply Forall_rev. exact H1.
Qed.

Lemma atoi_printint_witness :
  uprintint 2147483647 10 true = [50; 49; 52; 55; 52; 56; 51; 54; 52; 55] ∧
  atoi 33 (buf_mem (uprintint 2147483647 10 true ++ [0])) 0 = Some 2147483647.
Proof. split; [vm_compute; reflexivity|apply atoi_printint; lia]. Defined.
