(* ===== verification/ShRun.v ===== *)
(** * Running commands

    The rest of [user/sh.c]: [runcmd], [fork1], [getcmd] and [main], as trees of system
    calls.

    [launch] runs a tree as the kernel would, as far as descriptors go: [fork] continues in
    the child and in the parent with copies of the table, [open], [dup] and [pipe] take the
    lowest free descriptors, and [exec] starts a program, whose path, arguments and
    descriptors are recorded.  [open] succeeds where the parameter [open_ok] says so.  What
    the shell is to do with a command tree is stated directly, by the three standard streams
    each of its programs gets ([plumb]); [shell_correct] joins the parser and [runcmd]. *)

From Stdlib Require Import ZArith Lia.
From S2P Require Import Prelude Machine User Sh.

(** ** The code *)

Section runcmd.

(** The buffer the command points into. *)
Context (b : list Z).

(** A pointer of the command, as a string. *)
Definition str_at (a : nat * nat) : list Z := c_string (drop a.1 b).

Definition sh_panic {A} (s : string) : U A := ufprintf 2 (chars "%s" ++ [10]) [UA_str (Some (chars s))] ;; uexit 1.

Definition fork1 : U Z :=
  pid ← syscall_rv Cfork;
  if pid =? -1 then sh_panic "fork" else mret pid.

(** The end of a child in [runcmd] of a pipe: [std] is the stream it replaces with the end
    [use] of the pipe. *)
Definition plug (std use : Z) (p0 p1 : Z) : U unit :=
  uclose std ;;
  syscall_rv (Cdup use) ;;
  uclose p0 ;;
  uclose p1 ;;
  mret ().

Fixpoint runcmd (c : cmd) : U unit :=
  match c with
  | EXEC argv =>
      match argv with
      | [] => uexit 1
      | a :: _ =>
          syscall_rv (Cexec (str_at a) (map str_at argv)) ;;
          ufprintf 2 (chars "exec %s failed" ++ [10]) [UA_str (Some (str_at a))] ;;
          uexit 0
      end
  | REDIR c q e mode fd =>
      uclose fd ;;
      r ← uopen (str_at (q, e)) mode;
      if r <? 0 then
        ufprintf 2 (chars "open %s failed" ++ [10]) [UA_str (Some (str_at (q, e)))] ;;
        uexit 1
      else
        runcmd c ;;
        uexit 0
  | LIST l r =>
      pid ← fork1;
      (if pid =? 0 then runcmd l else mret ()) ;;
      syscall_rv Cwait ;;
      runcmd r ;;
      uexit 0
  | PIPE l r =>
      p ← syscall_ret Cpipe;
      if rv p <? 0 then sh_panic "pipe"
      else
        let p0 := nth 0 (rdata p) 0 in
        let p1 := nth 1 (rdata p) 0 in
        pid ← fork1;
        (if pid =? 0 then plug 1 p1 p0 p1 ;; runcmd l else mret ()) ;;
        pid ← fork1;
        (if pid =? 0 then plug 0 p0 p0 p1 ;; runcmd r else mret ()) ;;
        uclose p0 ;;
        uclose p1 ;;
        syscall_rv Cwait ;;
        syscall_rv Cwait ;;
        uexit 0
  | BACK c =>
      pid ← fork1;
      (if pid =? 0 then runcmd c else mret ()) ;;
      uexit 0
  end.

End runcmd.

(** [runcmd(parsecmd(buf))], with the panics of the parser. *)
Definition run_line (buf : list Z) : U unit :=
  match parsecmd buf with
  | Done (c, b) => runcmd b c
  | Panicked Syntax => sh_panic "syntax"
  | Panicked MissingFile => sh_panic "missing file for redirection"
  | Panicked Parseblock => sh_panic "parseblock"
  | Panicked MissingParen => sh_panic "syntax - missing )"
  | Panicked TooManyArgs => sh_panic "too many args"
  | NoFuel => Ustuck
  end.

(** [getcmd]: the line, or [None] at the end of the input. *)
Definition getcmd (nbuf : Z) : U (option (list Z)) :=
  uwrite 2 (chars "$ ") ;;
  l ← gets nbuf;
  let buf := c_string l in
  mret (if bool_decide (buf = []) then None else Some buf).

(** The loop of [main] that makes sure three descriptors are open. *)
Fixpoint open_console (fuel : nat) : U unit :=
  match fuel with
  | O => Ustuck
  | S f =>
      fd ← uopen (chars "console") O_RDWR;
      if fd <? 0 then mret ()
      else if 3 <=? fd then uclose fd ;; mret ()
      else open_console f
  end.

(** The loop of [main] over the lines. *)
Fixpoint sh_loop (fuel : nat) : U unit :=
  match fuel with
  | O => Ustuck
  | S f =>
      l ← getcmd 100;
      match l with
      | None => uexit 0
      | Some buf =>
          if bool_decide (take 3 buf = chars "cd ") then
            let dir := drop 3 (take (length buf - 1) buf) in
            r ← syscall_rv (Cchdir dir);
            (if r <? 0 then ufprintf 2 (chars "cannot cd %s" ++ [10]) [UA_str (Some dir)] else mret ()) ;;
            sh_loop f
          else
            pid ← fork1;
            (if pid =? 0 then run_line buf else mret ()) ;;
            syscall_rv Cwait ;;
            sh_loop f
      end
  end.

Definition sh_main (fuel : nat) : U unit := open_console 17 ;; sh_loop fuel.

(** ** Descriptors *)

(** What a descriptor refers to: a file by the name and mode it was opened with, or an end of
    a pipe. *)
Inductive fobj := F_file (path : list Z) (mode : Z) | F_pipe_r (id : nat) | F_pipe_w (id : nat).

(** A program that has been started. *)
Record prog := mk_prog { pr_path : list Z; pr_argv : list (list Z); pr_fds : gmap Z fobj }.

Definition NOFILE_ : Z := 16.

Definition lowest_fd (fds : gmap Z fobj) : option Z :=
  fst <$> (head (filter (λ x : Z * bool, x.2 = true) (map (λ fd, (fd, bool_decide (fds !! fd = None))) (seqZ 0 NOFILE_)))).

Definition alloc_fd (fds : gmap Z fobj) (o : fobj) : option (Z * gmap Z fobj) :=
  fd ← lowest_fd fds; Some (fd, <[fd := o]> fds).

Section launch.

Context (open_ok : list Z → Z → bool).

(** The programs a tree starts, and the number of pipes it has made. *)
Fixpoint launch {A} (p : U A) (fds : gmap Z fobj) (np : nat) : list prog * nat :=
  match p with
  | Uret _ | Uexit _ | Ustuck => ([], np)
  | Usys c k =>
      match c with
      | Cfork =>
          let '(l1, np) := launch (k (mk_uret 0 [])) fds np in
          let '(l2, np) := launch (k (mk_uret 1 [])) fds np in
          (l1 ++ l2, np)
      | Cexec path argv => ([mk_prog path argv fds], np)
      | Cpipe =>
          match alloc_fd fds (F_pipe_r np) with
          | Some (r, fds1) =>
              match alloc_fd fds1 (F_pipe_w np) with
              | Some (w, fds2) => launch (k (mk_uret 0 [r; w])) fds2 (S np)
              | None => launch (k (mk_uret (-1) [])) fds np
              end
          | None => launch (k (mk_uret (-1) [])) fds np
          end
      | Copen path mode =>
          match (if open_ok path mode then alloc_fd fds (F_file path mode) else None) with
          | Some (fd, fds') => launch (k (mk_uret fd [])) fds' np
          | None => launch (k (mk_uret (-1) [])) fds np
          end
      | Cdup fd =>
          match fds !! fd ≫= alloc_fd fds with
          | Some (fd', fds') => launch (k (mk_uret fd' [])) fds' np
          | None => launch (k (mk_uret (-1) [])) fds np
          end
      | Cclose fd =>
          match fds !! fd with
          | Some _ => launch (k (mk_uret 0 [])) (delete fd fds) np
          | None => launch (k (mk_uret (-1) [])) fds np
          end
      | Cwrite fd bs => launch (k (mk_uret (if bool_decide (is_Some (fds !! fd)) then Z.of_nat (length bs) else -1) [])) fds np
      | Cread _ _ | Cunlink _ | Cfstat _ | Clink _ _ | Cmkdir _ | Cchdir _ | Cmknod _ _ _ | Ckill _ =>
          launch (k (mk_uret (-1) [])) fds np
      | Cwait | Csleep _ | Cwaitx | Cgetreadcount => launch (k (mk_uret 0 [])) fds np
      end
  end.

(** The three standard streams and nothing else. *)
Definition std (i o e : fobj) : gmap Z fobj := <[0 := i]> (<[1 := o]> (<[2 := e]> ∅)).

(** What a command tree is to start, given its standard streams. *)
Fixpoint plumb (a : ast) (i o e : fobj) (np : nat) : list prog * nat :=
  match a with
  | AExec [] => ([], np)
  | AExec (w :: ws) => ([mk_prog w (w :: ws) (std i o e)], np)
  | ARedir a RIn file =>
      if open_ok file (rmode RIn) then plumb a (F_file file (rmode RIn)) o e np else ([], np)
  | ARedir a k file =>
      if open_ok file (rmode k) then plumb a i (F_file file (rmode k)) e np else ([], np)
  | APipe a b =>
      let '(l1, np1) := plumb a i (F_pipe_w np) e (S np) in
      let '(l2, np2) := plumb b (F_pipe_r np) o e np1 in
      (l1 ++ l2, np2)
  | AList a b =>
      let '(l1, np1) := plumb a i o e np in
      let '(l2, np2) := plumb b i o e np1 in
      (l1 ++ l2, np2)
  | ABack a => plumb a i o e np
  end.

(** ** The proof *)

(** A tree that always exits or fails: what follows it does not matter. *)
Fixpoint no_return {A} (p : U A) : Prop :=
  match p with
  | Uret _ => False
  | Uexit _ | Ustuck => True
  | Usys _ k => ∀ r, no_return (k r)
  end.

Lemma no_return_bind {A B} (p : U A) (f : A → U B) : (∀ a, no_return (f a)) → no_return (p ≫= f).
Proof. intros Hf. induction p as [a|st|c k IH|]; simpl; auto. Qed.

Lemma no_return_bind_l {A B} (p : U A) (f : A → U B) : no_return p → no_return (p ≫= f).
Proof. induction p as [a|st|c k IH|]; simpl; by auto. Qed.

Lemma launch_no_return {A B} (p : U A) (f : A → U B) fds np : no_return p → launch (p ≫= f) fds np = launch p fds np.
Proof.
  revert fds np. induction p as [a|st|c k IH|]; intros fds np Hp; [done|done| |done]. simpl in Hp.
  pose proof (λ r fds np, IH r fds np (Hp r)) as E. change (Usys c k ≫= f) with (Usys c (λ r, k r ≫= f)).
  destruct c; cbn [launch]; rewrite ?E; try done;
    repeat match goal with
    | |- context [match ?x with _ => _ end] => lazymatch x with launch _ _ _ => fail | _ => destruct x end
    end; rewrite ?E; try done.
  destruct (launch (k _) fds np). by rewrite E.
Qed.

Lemma runcmd_no_return b c : no_return (runcmd b c).
Proof.
  induction c as [[|a argv]|c IH q e m f|l IHl r IHr|l IHl r IHr|c IH]; cbn [runcmd].
  - done.
  - apply no_return_bind. intros _. apply no_return_bind. done.
  - apply no_return_bind. intros _. apply no_return_bind. intros x. destruct (x <? 0); by apply no_return_bind.
  - apply no_return_bind. intros p. destruct (rv p <? 0); [by apply no_return_bind|].
    do 8 (apply no_return_bind; intros ?). done.
  - do 4 (apply no_return_bind; intros ?). done.
  - do 2 (apply no_return_bind; intros ?). done.
Qed.

(** The calls of [runcmd] on the standard table. *)
Lemma launch_fork1 {A} (f : Z → U A) fds np :
  launch (fork1 ≫= f) fds np =
  let '(l1, np1) := launch (f 0) fds np in
  let '(l2, np2) := launch (f 1) fds np1 in
  (l1 ++ l2, np2).
Proof. reflexivity. Qed.

Lemma launch_child c b {A} (f : unit → U A) pid fds np :
  launch ((if pid =? 0 then runcmd b c else mret ()) ≫= f) fds np =
  if pid =? 0 then launch (runcmd b c) fds np else launch (f ()) fds np.
Proof. destruct (pid =? 0); [apply launch_no_return, runcmd_no_return|done]. Qed.

Lemma launch_close {A} fd o fds (f : Z → U A) np :
  fds !! fd = Some o → launch (uclose fd ≫= f) fds np = launch (f 0) (delete fd fds) np.
Proof. intros H. unfold uclose, syscall_rv. simpl. by rewrite H. Qed.

Lemma std_pipe i o e np :
  alloc_fd (std i o e) (F_pipe_r np) = Some (3, <[3 := F_pipe_r np]> (std i o e)) ∧
  alloc_fd (<[3 := F_pipe_r np]> (std i o e)) (F_pipe_w np) =
    Some (4, <[4 := F_pipe_w np]> (<[3 := F_pipe_r np]> (std i o e))).
Proof. split; vm_compute; reflexivity. Qed.

Definition piped (i o e : fobj) (np : nat) : gmap Z fobj := <[4 := F_pipe_w np]> (<[3 := F_pipe_r np]> (std i o e)).

Lemma launch_pipe {A} (f : uret → U A) i o e np :
  launch (syscall_ret Cpipe ≫= f) (std i o e) np = launch (f (mk_uret 0 [3; 4])) (piped i o e np) (S np).
Proof.
  destruct (std_pipe i o e np) as [H1 H2]. unfold syscall_ret. simpl. rewrite H1, H2. done.
Qed.

Lemma launch_plug_write {A} (f : unit → U A) i o e n np :
  launch (plug 1 4 3 4 ≫= f) (piped i o e n) np = launch (f ()) (std i (F_pipe_w n) e) np.
Proof. reflexivity. Qed.

Lemma launch_plug_read {A} (f : unit → U A) i o e n np :
  launch (plug 0 3 3 4 ≫= f) (piped i o e n) np = launch (f ()) (std (F_pipe_r n) o e) np.
Proof. reflexivity. Qed.

(** A redirection: the descriptor is closed and the file takes its place. *)
Definition redirected (fd : Z) (f i o e : fobj) : gmap Z fobj := if fd =? 0 then std f o e else std i f e.

Lemma launch_redir {A} (f : Z → U A) fd path mode i o e np :
  fd = 0 ∨ fd = 1 →
  launch (uclose fd ≫= λ _, uopen path mode ≫= f) (std i o e) np =
  if open_ok path mode then launch (f fd) (redirected fd (F_file path mode) i o e) np
  else launch (f (-1)) (delete fd (std i o e)) np.
Proof. intros [->| ->]; cbn; destruct (open_ok path mode); reflexivity. Qed.

(** A message ends in [exit] and starts nothing. *)
Lemma launch_puts {A} fd cs (f : unit → U A) fds np : (∀ np, launch (f ()) fds np = ([], np)) → launch (uputs fd cs ≫= f) fds np = ([], np).
Proof. intros Hf. induction cs as [|c cs IH]; [apply Hf|exact IH]. Qed.

Lemma launch_ret {A B} (x : A) (f : A → U B) fds np : launch (mret x ≫= f) fds np = launch (f x) fds np.
Proof. done. Qed.

(** A child of a pipe. *)
Lemma launch_plugged c b {A} (f : unit → U A) std_ use pid fds np :
  launch ((if pid =? 0 then plug std_ use 3 4 ;; runcmd b c else mret ()) ≫= f) fds np =
  if pid =? 0 then launch (plug std_ use 3 4 ;; runcmd b c) fds np else launch (f ()) fds np.
Proof. destruct (pid =? 0); [apply launch_no_return, no_return_bind; intros; apply runcmd_no_return|done]. Qed.

Lemma runcmd_launch b c a i o e np :
  denotes (str_at b) c a → launch (runcmd b c) (std i o e) np = plumb a i o e np.
Proof.
  revert a i o e np. induction c as [argv|c IH q en m fd|l IHl r IHr|l IHl r IHr|c IH]; intros [ws|a k w|a1 a2|a1 a2|a] i o e np Hd;
    cbn [denotes] in Hd; try done; cbn [runcmd].
  - destruct argv as [|x argv]; simpl in Hd; subst ws; reflexivity.
  - destruct Hd as (Hd & Hw & -> & ->). rewrite launch_redir by (destruct k; auto). unfold str_at at 1 3. simpl fst.
    replace (c_string (drop q b)) with w by (by rewrite <- Hw).
    assert (rfd k <? 0 = false) as -> by (by destruct k). rewrite launch_no_return by apply runcmd_no_return.
    destruct k; cbn [plumb]; destruct (open_ok w _); try (rewrite <- (IH a) by done; reflexivity);
      cbn [Z.ltb Z.compare]; unfold ufprintf; destruct (vprintf_loop _ _ _); try done; by apply launch_puts.
  - destruct Hd as [Hl Hr]. rewrite launch_pipe. cbn [rv Z.ltb Z.compare rdata nth]. rewrite launch_fork1, !launch_plugged. cbn [Z.eqb plumb].
    rewrite launch_plug_write, (IHl a1) by done. destruct (plumb a1 _ _ _ _) as [l1 np1].
    rewrite launch_ret, launch_fork1, !launch_plugged. cbn [Z.eqb]. rewrite launch_plug_read, (IHr a2) by done.
    destruct (plumb a2 _ _ _ _) as [l2 np2]. rewrite launch_ret, !(launch_close 3 (F_pipe_r np)) by done.
    rewrite (launch_close 4 (F_pipe_w np)) by done. cbn. by rewrite app_nil_r.
  - destruct Hd as [Hl Hr]. rewrite launch_fork1, !launch_child. cbn [Z.eqb]. cbn [plumb]. rewrite (IHl a1) by done.
    destruct (plumb a1 i o e np) as [l1 np1]. unfold syscall_rv. simpl. rewrite launch_no_return by apply runcmd_no_return.
    rewrite (IHr a2) by done. done.
  - rewrite launch_fork1, !launch_child. cbn [Z.eqb plumb]. rewrite (IH a) by done. destruct (plumb a i o e np) as [l1 np1].
    simpl. by rewrite app_nil_r.
Qed.

End launch.

(** C28: The shell on a command line.  For every command tree, every layout of its text and
    any three standard streams, the child that runs the line starts exactly the programs of
    the tree, in order, each with its own arguments and with no descriptors but its three
    streams: the ends of a pipe go to the two sides of "|" and nowhere else, a redirection
    replaces standard input or output, the innermost one prevails, and a file that cannot be
    opened suppresses the command. *)
Theorem shell_correct open_ok a str i o e np :
  few_args a → layout (print 0 a) str →
  launch open_ok (run_line str) (std i o e) np = plumb open_ok a i o e np.
Proof.
  intros Hfew Hl. destruct (parser_inverts_line a str Hfew Hl) as (c & b & Hp & Hd). unfold run_line. rewrite Hp.
  by apply runcmd_launch.
Qed.

(** The demonstration line on the console, every file openable: a writes to pipe 0, which b
    reads; b and c write to f; nobody else has the pipe. *)
Lemma shell_correct_witness :
  let con := F_file (chars "console") O_RDWR in
  let f := F_file [102] (rmode ROut) in
  launch (λ _ _, true) (run_line demo_line) (std con con con) 0 =
    ([mk_prog [97] [[97]] (std con (F_pipe_w 0) con);
      mk_prog [98] [[98]] (std (F_pipe_r 0) f con);
      mk_prog [99] [[99]] (std con f con)], 1%nat).
Proof.
  intros con f. rewrite (shell_correct (λ _ _, true) demo_tree demo_line con con con 0).
  - reflexivity.
  - simpl. unfold MAXARGS. lia.
  - exact demo_layout.
Defined.
