(* ===== verification/UserProgs.v ===== *)
(** * User programs

    The small programs of [user/] as trees of system calls: [cat], [wc], [echo], [ls], [rm],
    [ln], [mkdir], [kill], [init], [zombie], [forktest], [stressfs], [getreadcount],
    [readtest1], [readtest2] and [schedulertest].  [argv] includes the program's name; a loop
    that reads until the end of a file has fuel.

    Proved: [cat] copies and [wc] counts whatever chunks [read] returns; [echo]; [init] starts
    the shell with the console as its three streams. *)

From Stdlib Require Import ZArith Lia.
From S2P Require Import Prelude Machine CString User Sh ShRun.

(** ** cat.c *)

Fixpoint cat (fuel : nat) (fd : Z) : U unit :=
  match fuel with
  | O => Ustuck
  | S f =>
      r ← uread fd 512;
      if 0 <? rv r then
        n ← uwrite 1 (rdata r);
        if negb (n =? rv r) then ufprintf 2 (line "cat: write error") [] ;; uexit 1
        else cat f fd
      else if rv r <? 0 then ufprintf 2 (line "cat: read error") [] ;; uexit 1
      else mret ()
  end.

Fixpoint cat_files (fuel : nat) (args : list (list Z)) : U unit :=
  match args with
  | [] => uexit 0
  | a :: args' =>
      fd ← uopen a 0;
      if fd <? 0 then ufprintf 2 (line "cat: cannot open %s") [UA_str (Some a)] ;; uexit 1
      else
        cat fuel fd ;;
        uclose fd ;;
        cat_files fuel args'
  end.

Definition cat_main (fuel : nat) (argv : list (list Z)) : U unit :=
  match argv with
  | [] | [_] => cat fuel 0 ;; uexit 0
  | _ :: args => cat_files fuel args
  end.

(** ** wc.c *)

Definition wc_space (c : Z) : bool := ((c =? 32) || (c =? 13) || (c =? 9) || (c =? 10) || (c =? 11))%bool.

Record counts := mk_counts { wc_l : Z; wc_w : Z; wc_c : Z; wc_inword : bool }.

(** The body of the loop over a buffer. *)
Definition wc_step (k : counts) (c : Z) : counts :=
  let chars_ := s32 (wc_c k + 1) in
  let lines := if c =? 10 then s32 (wc_l k + 1) else wc_l k in
  if wc_space c then mk_counts lines (wc_w k) chars_ false
  else if negb (wc_inword k) then mk_counts lines (s32 (wc_w k + 1)) chars_ true
  else mk_counts lines (wc_w k) chars_ (wc_inword k).

Fixpoint wc_loop (fuel : nat) (fd : Z) (k : counts) : U counts :=
  match fuel with
  | O => Ustuck
  | S f =>
      r ← uread fd 512;
      if 0 <? rv r then wc_loop f fd (foldl wc_step k (rdata r))
      else if rv r <? 0 then uprintf (line "wc: read error") [] ;; uexit 1
      else mret k
  end.

Definition wc (fuel : nat) (fd : Z) (name : list Z) : U unit :=
  k ← wc_loop fuel fd (mk_counts 0 0 0 false);
  uprintf (line "%d %d %d %s") [UA_int (wc_l k); UA_int (wc_w k); UA_int (wc_c k); UA_str (Some name)].

Fixpoint wc_files (fuel : nat) (args : list (list Z)) : U unit :=
  match args with
  | [] => uexit 0
  | a :: args' =>
      fd ← uopen a 0;
      if fd <? 0 then uprintf (line "wc: cannot open %s") [UA_str (Some a)] ;; uexit 1
      else
        wc fuel fd a ;;
        uclose fd ;;
        wc_files fuel args'
  end.

Definition wc_main (fuel : nat) (argv : list (list Z)) : U unit :=
  match argv with
  | [] | [_] => wc fuel 0 [] ;; uexit 0
  | _ :: args => wc_files fuel args
  end.

(** ** echo.c *)

Fixpoint echo_args (args : list (list Z)) : U unit :=
  match args with
  | [] => uexit 0
  | a :: args' =>
      uwrite 1 a ;;
      uwrite 1 (if bool_decide (args' = []) then [10] else [32]) ;;
      echo_args args'
  end.

Definition echo_main (argv : list (list Z)) : U unit := echo_args (tail argv).

(** ** rm.c, mkdir.c, ln.c, kill.c *)

Fixpoint rm_args (args : list (list Z)) : U unit :=
  match args with
  | [] => mret ()
  | a :: args' =>
      r ← syscall_rv (Cunlink a);
      if r <? 0 then ufprintf 2 (line "rm: %s failed to delete") [UA_str (Some a)]
      else rm_args args'
  end.

Definition rm_main (argv : list (list Z)) : U unit :=
  if (length argv <? 2)%nat then ufprintf 2 (line "Usage: rm files...") [] ;; uexit 1
  else rm_args (tail argv) ;; uexit 0.

Fixpoint mkdir_args (args : list (list Z)) : U unit :=
  match args with
  | [] => mret ()
  | a :: args' =>
      r ← syscall_rv (Cmkdir a);
      if r <? 0 then ufprintf 2 (line "mkdir: %s failed to create") [UA_str (Some a)]
      else mkdir_args args'
  end.

Definition mkdir_main (argv : list (list Z)) : U unit :=
  if (length argv <? 2)%nat then ufprintf 2 (line "Usage: mkdir files...") [] ;; uexit 1
  else mkdir_args (tail argv) ;; uexit 0.

Definition ln_main (argv : list (list Z)) : U unit :=
  match argv with
  | [_; old; new] =>
      r ← syscall_rv (Clink old new);
      (if r <? 0 then ufprintf 2 (line "link %s %s: failed") [UA_str (Some old); UA_str (Some new)] else mret ()) ;;
      uexit 0
  | _ => ufprintf 2 (line "Usage: ln old new") [] ;; uexit 1
  end.

Definition atoi_str (a : list Z) : Z := default 0 (atoi (S (length a)) (buf_mem (a ++ [0])) 0).

Fixpoint kill_args (args : list (list Z)) : U unit :=
  match args with
  | [] => uexit 0
  | a :: args' => syscall_rv (Ckill (atoi_str a)) ;; kill_args args'
  end.

Definition kill_main (argv : list (list Z)) : U unit :=
  if (length argv <? 2)%nat then ufprintf 2 (line "usage: kill pid...") [] ;; uexit 1
  else kill_args (tail argv).

(** ** ls.c *)

(** What follows the last slash. *)
Fixpoint after_slash (path : list Z) : list Z :=
  match path with
  | [] => []
  | c :: path' => if existsb (Z.eqb 47) path then after_slash path' else path
  end.

Definition fmtname (path : list Z) : list Z :=
  let p := after_slash path in
  if DIRSIZ <=? Z.of_nat (length p) then p
  else p ++ replicate (Z.to_nat DIRSIZ - length p) 32.

(** The fields of [struct stat] in [rdata]: type, ino, nlink, size. *)
Definition ls_line (fmt : string) (path st : list Z) : U unit :=
  uprintf (line fmt) [UA_str (Some (fmtname path)); UA_int (nth 0 st 0); UA_int (nth 1 st 0); UA_int (nth 3 st 0)].

(** The loop over the entries of a directory. *)
Fixpoint ls_entries (fuel : nat) (fd : Z) (path : list Z) : U unit :=
  match fuel with
  | O => Ustuck
  | S f =>
      r ← uread fd 16;
      if negb (rv r =? 16) then mret ()
      else if le_val (take 2 (rdata r)) =? 0 then ls_entries f fd path
      else
        let buf := path ++ 47 :: c_string (drop 2 (rdata r)) in
        st ← ustat buf;
        (if st.1 <? 0 then uprintf (line "ls: cannot stat %s") [UA_str (Some buf)]
         else ls_line "%s %d %d %d" buf st.2) ;;
        ls_entries f fd path
  end.

Definition ls (fuel : nat) (path : list Z) : U unit :=
  fd ← uopen path 0;
  if fd <? 0 then ufprintf 2 (line "ls: cannot open %s") [UA_str (Some path)]
  else
    r ← syscall_ret (Cfstat fd);
    if rv r <? 0 then
      ufprintf 2 (line "ls: cannot stat %s") [UA_str (Some path)] ;;
      uclose fd ;;
      mret ()
    else
      let type := nth 0 (rdata r) 0 in
      (if ((type =? T_DEVICE) || (type =? T_FILE))%bool then ls_line "%s %d %d %l" path (rdata r)
       else if type =? T_DIR then
         if 512 <? Z.of_nat (length path) + 1 + DIRSIZ + 1 then uprintf (line "ls: path too long") []
         else ls_entries fuel fd path
       else mret ()) ;;
      uclose fd ;;
      mret ().

Fixpoint ls_args (fuel : nat) (args : list (list Z)) : U unit :=
  match args with
  | [] => uexit 0
  | a :: args' => ls fuel a ;; ls_args fuel args'
  end.

Definition ls_main (fuel : nat) (argv : list (list Z)) : U unit :=
  if (length argv <? 2)%nat then ls fuel (chars ".") ;; uexit 0 else ls_args fuel (tail argv).

(** ** init.c *)

(** Waiting for the shell; processes without a parent are reaped on the way. *)
Fixpoint init_wait (fuel : nat) (pid : Z) : U unit :=
  match fuel with
  | O => Ustuck
  | S f =>
      wpid ← syscall_rv Cwait;
      if wpid =? pid then mret ()
      else if wpid <? 0 then uprintf (line "init: wait returned an error") [] ;; uexit 1
      else init_wait f pid
  end.

Fixpoint init_loop (fuel : nat) : U unit :=
  match fuel with
  | O => Ustuck
  | S f =>
      uprintf (line "init: starting sh") [] ;;
      pid ← syscall_rv Cfork;
      if pid <? 0 then uprintf (line "init: fork failed") [] ;; uexit 1
      else if pid =? 0 then
        syscall_rv (Cexec (chars "sh") [chars "sh"]) ;;
        uprintf (line "init: exec sh failed") [] ;;
        uexit 1
      else
        init_wait f pid ;;
        init_loop f
  end.

Definition CONSOLE_ : Z := 1.

Definition init_main (fuel : nat) : U unit :=
  r ← uopen (chars "console") O_RDWR;
  (if r <? 0 then
     syscall_rv (Cmknod (chars "console") CONSOLE_ 0) ;;
     uopen (chars "console") O_RDWR ;;
     mret ()
   else mret ()) ;;
  syscall_rv (Cdup 0) ;;
  syscall_rv (Cdup 0) ;;
  init_loop fuel.

(** ** zombie.c, forktest.c, stressfs.c *)

Definition zombie_main : U unit :=
  pid ← syscall_rv Cfork;
  (if 0 <? pid then syscall_rv (Csleep 5) ;; mret () else mret ()) ;;
  uexit 0.

Definition print_ (s : list Z) : U unit := uwrite 1 s ;; mret ().

Definition FORKTEST_N : Z := 1000.

(** The loop that forks: [n] at its end; [k] is the number of forks still to try. *)
Fixpoint forktest_fork (k : nat) (n : Z) : U Z :=
  match k with
  | O => mret n
  | S k' =>
      pid ← syscall_rv Cfork;
      if pid <? 0 then mret n
      else if pid =? 0 then uexit 0
      else forktest_fork k' (n + 1)
  end.

Fixpoint forktest_wait (n : nat) : U unit :=
  match n with
  | O => mret ()
  | S n' =>
      r ← syscall_rv Cwait;
      if r <? 0 then print_ (line "wait stopped early") ;; uexit 1 else forktest_wait n'
  end.

Definition forktest : U unit :=
  print_ (line "fork test") ;;
  n ← forktest_fork (Z.to_nat FORKTEST_N) 0;
  if n =? FORKTEST_N then print_ (line "fork claimed to work N times!") ;; uexit 1
  else
    forktest_wait (Z.to_nat n) ;;
    r ← syscall_rv Cwait;
    if negb (r =? -1) then print_ (line "wait got too many") ;; uexit 1
    else print_ (line "fork test OK").

Definition forktest_main : U unit := forktest ;; uexit 0.

(** [i] when the loop over [fork] ends: the parent breaks at its first fork. *)
Fixpoint stressfs_fork (k : nat) (i : Z) : U Z :=
  match k with
  | O => mret i
  | S k' =>
      pid ← syscall_rv Cfork;
      if 0 <? pid then mret i else stressfs_fork k' (i + 1)
  end.

Fixpoint repeat_call (n : nat) (p : U Z) : U unit :=
  match n with
  | O => mret ()
  | S n' => p ;; repeat_call n' p
  end.

Definition stressfs_main : U unit :=
  uprintf (line "stressfs starting") [] ;;
  i ← stressfs_fork 4 0;
  uprintf (line "write %d") [UA_int i] ;;
  let path := chars "stressfs" ++ [u8 (48 + i)] in
  fd ← uopen path (Z.lor O_CREATE O_RDWR);
  repeat_call 20 (uwrite fd (replicate 512 97)) ;;
  uclose fd ;;
  uprintf (line "read") [] ;;
  fd ← uopen path O_RDONLY;
  repeat_call 20 (syscall_rv (Cread fd 512)) ;;
  uclose fd ;;
  syscall_rv Cwait ;;
  uexit 0.

(** ** The tests of the added system calls *)

Definition getreadcount_main : U unit :=
  n ← syscall_rv Cgetreadcount;
  uprintf (line "%d") [UA_int n] ;;
  uexit 0.

Definition readtest1_main : U unit :=
  x1 ← syscall_rv Cgetreadcount;
  x2 ← syscall_rv Cgetreadcount;
  syscall_rv (Cread 4 1) ;;
  x3 ← syscall_rv Cgetreadcount;
  repeat_call (Z.to_nat 1000) (syscall_rv (Cread 4 1)) ;;
  x4 ← syscall_rv Cgetreadcount;
  uprintf (line "XV6_TEST_OUTPUT %d %d %d") [UA_int (s32 (x2 - x1)); UA_int (s32 (x3 - x2)); UA_int (s32 (x4 - x3))] ;;
  uexit 0.

Definition readtest2_main : U unit :=
  x1 ← syscall_rv Cgetreadcount;
  rc ← syscall_rv Cfork;
  repeat_call (Z.to_nat 100000) (syscall_rv (Cread 4 1)) ;;
  (if 0 <? rc then
     syscall_rv Cwait ;;
     x2 ← syscall_rv Cgetreadcount;
     uprintf (line "XV6_TEST_OUTPUT %d") [UA_int (s32 (x2 - x1))]
   else mret ()) ;;
  uexit 0.

(** The children of [schedulertest]; the busy loop of the second five has no effect. *)
Fixpoint schedulertest_fork (k : nat) (n : Z) : U Z :=
  match k with
  | O => mret n
  | S k' =>
      pid ← syscall_rv Cfork;
      if pid <? 0 then mret n
      else if pid =? 0 then
        (if n <? 5 then syscall_rv (Csleep 200) ;; mret () else mret ()) ;;
        uprintf (line "Process %d finished") [UA_int n] ;;
        uexit 0
      else schedulertest_fork k' (n + 1)
  end.

(** The sums of the waiting and running times of [n] children. *)
Fixpoint schedulertest_wait (n : nat) (twtime trtime : Z) : U (Z * Z) :=
  match n with
  | O => mret (twtime, trtime)
  | S n' =>
      r ← syscall_ret Cwaitx;
      if 0 <=? rv r then
        schedulertest_wait n' (s32 (twtime + nth 0 (rdata r) 0)) (s32 (trtime + nth 1 (rdata r) 0))
      else schedulertest_wait n' twtime trtime
  end.

Definition schedulertest_main : U unit :=
  n ← schedulertest_fork 10 0;
  t ← schedulertest_wait (Z.to_nat n) 0 0;
  uprintf (line "Average rtime %d,  wtime %d") [UA_int (Z.quot t.2 10); UA_int (Z.quot t.1 10)] ;;
  uexit 0.

(** ** cat and wc *)

(** [s'] is [s] after [bs] has been written to standard output; [fds] are its
    descriptors. *)
Definition printed (s s' : uos) (bs : list Z) (fds : gmap Z (list Z)) : Prop :=
  os_files s' = os_files s ∧ os_fds s' = fds ∧ out_of s' 1 = out_of s 1 ++ bs ∧ ∀ fd, fd ≠ 1 → out_of s' fd = out_of s fd.

Lemma wrote_printed s s' bs : wrote s s' 1 bs → printed s s' bs (os_fds s).
Proof. intros (H1 & H2 & _ & H4 & H5). by split_and!. Qed.

Lemma printed_trans s s1 s2 bs1 bs2 fds1 fds2 :
  printed s s1 bs1 fds1 → printed s1 s2 bs2 fds2 → printed s s2 (bs1 ++ bs2) fds2.
Proof.
  intros (H1 & H2 & H3 & H4) (G1 & G2 & G3 & G4). split_and!; [by rewrite G1|done|by rewrite G3, H3, app_assoc|].
  intros fd Hfd. by rewrite G4, H4.
Qed.

Lemma out_of_same s s' fd : os_out s' = os_out s → out_of s' fd = out_of s fd.
Proof. intros H. unfold out_of. by rewrite H. Qed.

(** The loops that read a file to its end: one round, by cases on what is left. *)
Lemma read_round A fd rest s :
  os_fds s !! fd = Some rest →
  ∃ m s1, (∀ f : uret → U A, run (uread fd 512 ≫= f) s = run (f (mk_uret (Z.of_nat m) (take m rest))) s1) ∧
    (m ≤ length rest)%nat ∧ (rest ≠ [] → 0 < m)%nat ∧ printed s s1 [] (<[fd := drop m rest]> (os_fds s)).
Proof.
  intros Hfd. destruct (uread_run fd 512 rest s ltac:(lia) Hfd) as (m & s1 & Hr & Hm & _ & Hpos & Hfds & Hfiles & Hout).
  exists m, s1. split; [intros f; by rewrite urun_bind, Hr|]. split_and!; try done. split_and!; try done.
  - rewrite app_nil_r. by apply out_of_same.
  - intros fd' _. by apply out_of_same.
Qed.

Lemma cat_run fuel fd rest s :
  os_fds s !! fd = Some rest → (length rest < fuel)%nat →
  ∃ s', run (cat fuel fd) s = (Returned (), s') ∧ printed s s' rest (<[fd := []]> (os_fds s)).
Proof.
  revert rest s. induction fuel as [|f IH]; intros rest s Hfd Hf; [lia|]. cbn [cat].
  destruct (read_round () fd rest s Hfd) as (m & s1 & Hrun & Hm & Hpos & Hp1). rewrite Hrun. cbn [rv rdata].
  destruct (Z.ltb_spec 0 (Z.of_nat m)) as [Hlt|Hge].
  - destruct (uwrite_run 1 (take m rest) s1) as (s2 & Hw & Hp2). rewrite urun_bind, Hw.
    rewrite length_take_le by lia. rewrite Z.eqb_refl. cbn [negb].
    apply wrote_printed in Hp2. pose proof (printed_trans _ _ _ _ _ _ _ Hp1 Hp2) as Hp. destruct Hp1 as (_ & Hfds1 & _).
    rewrite Hfds1 in Hp. destruct Hp2 as (_ & Hfds2 & _). rewrite Hfds1 in Hfds2.
    destruct (IH (drop m rest) s2) as (s' & Hr & Hp').
    { rewrite Hfds2. apply lookup_insert_eq. }
    { rewrite length_drop. lia. }
    exists s'. split; [done|]. pose proof (printed_trans _ _ _ _ _ _ _ Hp Hp') as Hfin.
    rewrite Hfds2, insert_insert_eq in Hfin. cbn [app] in Hfin. by rewrite take_drop in Hfin.
  - assert (m = 0%nat) as -> by lia. assert (rest = []) as -> by (destruct rest; [done|exfalso; by apply (Nat.lt_irrefl 0), Hpos]).
    exists s1. split; [done|done].
Qed.

Lemma free_fd_spec s fd : free_fd s = Some fd → os_fds s !! fd = None.
Proof.
  unfold free_fd. intros H. destruct (list_find _ _) as [[i x]|] eqn:E; [|done]. simpl in H. simplify_eq.
  by apply list_find_Some in E as (_ & ? & _).
Qed.

(** A file is opened, read by [p], and closed. *)
Lemma open_use_close {A} (p : Z → U ()) (k : U A) path c bs fd0 s :
  lookup_file (os_files s) path = Some c → free_fd s = Some fd0 →
  (∀ s1, os_fds s1 !! fd0 = Some c → ∃ s2 left, run (p fd0) s1 = (Returned (), s2) ∧ printed s1 s2 bs (<[fd0 := left]> (os_fds s1))) →
  ∃ s', printed s s' bs (os_fds s) ∧ 0 ≤ fd0 ∧
    ∀ err : U A, run (fd ← uopen path 0; if fd <? 0 then err else p fd ;; uclose fd ;; k) s = run k s'.
Proof.
  intros Hl Hfree Hp. pose proof (free_fd_spec s fd0 Hfree) as Hnone.
  assert (0 ≤ fd0) as Hpos.
  { unfold free_fd in Hfree. destruct (list_find _ _) as [[i x]|] eqn:E; [|done]. simpl in Hfree. simplify_eq.
    apply list_find_Some in E as (E & _). apply lookup_seqZ in E. lia. }
  set (s1 := mk_uos (os_files s) (<[fd0 := c]> (os_fds s)) (os_ready s) (os_out s)).
  destruct (Hp s1) as (s2 & left & Hr & H1 & H2 & H3 & H4); [apply lookup_insert_eq|].
  set (s3 := mk_uos (os_files s2) (delete fd0 (os_fds s2)) (os_ready s2) (os_out s2)).
  exists s3. split_and!; [split_and!; [done| |exact H3|exact H4]|done|].
  - subst s3. simpl. rewrite H2. subst s1. simpl. rewrite !delete_insert_eq. by apply delete_id.
  - intros err. unfold uopen, syscall_rv. simpl. rewrite Hl, Hfree. cbn [rv]. assert (fd0 <? 0 = false) as -> by lia.
    change (run (p fd0 ≫= λ _, uclose fd0 ≫= λ _, k) s1 = run k s3). rewrite urun_bind, Hr.
    unfold uclose, syscall_rv. simpl.
    assert (os_fds s2 !! fd0 = Some left) as -> by (rewrite H2; apply lookup_insert_eq). done.
Qed.

Lemma free_fd_ext s s' : os_fds s' = os_fds s → free_fd s' = free_fd s.
Proof. intros H. unfold free_fd. by rewrite H. Qed.

(** A program that treats its files one after the other. *)
Lemma files_run (p : Z → list Z → U ()) (body : list (list Z) → U ()) (report : list Z → list Z → list Z) (P : list Z → Prop)
    (err : list Z → U ()) args cs fd0 s :
  body [] = uexit 0 →
  (∀ a args', body (a :: args') = (fd ← uopen a 0; if fd <? 0 then err a else p fd a ;; uclose fd ;; body args')) →
  (∀ fd a c s1, P c → os_fds s1 !! fd = Some c →
     ∃ s2 left, run (p fd a) s1 = (Returned (), s2) ∧ printed s1 s2 (report a c) (<[fd := left]> (os_fds s1))) →
  Forall2 (λ a c, lookup_file (os_files s) a = Some c) args cs → Forall P cs → free_fd s = Some fd0 →
  ∃ s', run (body args) s = (Exited 0, s') ∧ printed s s' (concat (zip_with report args cs)) (os_fds s).
Proof.
  intros Hnil Hcons Hp Hfiles HP Hfree. revert s Hfiles Hfree. induction HP as [|c cs Hc HP IH] in args |- *; intros s Hfiles Hfree.
  - apply Forall2_nil_inv_r in Hfiles as ->. rewrite Hnil. exists s. split; [done|]. split_and!; try done. simpl. by rewrite app_nil_r.
  - apply Forall2_cons_inv_r in Hfiles as (a & args' & Ha & Hfiles & ->). rewrite Hcons.
    destruct (open_use_close (λ fd, p fd a) (body args') a c (report a c) fd0 s Ha Hfree) as (s1 & H1 & _ & Hrun).
    { intros s1 Hs1. by apply Hp. }
    rewrite Hrun. pose proof H1 as (Hf & Hfds & _).
    destruct (IH args' s1) as (s2 & Hr2 & H2).
    { rewrite Hf. done. }
    { by rewrite (free_fd_ext s). }
    exists s2. split; [done|]. rewrite Hfds in H2. simpl. by apply (printed_trans s s1 s2 _ _ _ _ H1 H2).
Qed.

(** [cat] of files that exist exits with status 0 and has written their contents to
    standard output, in order and whole, and nothing anywhere else, for every way [read] can
    cut them into chunks. *)
Theorem cat_correct fuel name args cs fd0 s :
  args ≠ [] → Forall2 (λ a c, lookup_file (os_files s) a = Some c) args cs → Forall (λ c, length c < fuel)%nat cs →
  free_fd s = Some fd0 →
  ∃ s', run (cat_main fuel (name :: args)) s = (Exited 0, s') ∧ printed s s' (concat cs) (os_fds s).
Proof.
  intros Hne Hfiles Hlen Hfree.
  destruct (files_run (λ fd _, cat fuel fd) (cat_files fuel) (λ _ c, c) (λ c, length c < fuel)%nat
    (λ a, ufprintf 2 (line "cat: cannot open %s") [UA_str (Some a)] ;; uexit 1) args cs fd0 s) as (s' & Hr & Hp); try done.
  { intros fd a c s1 Hc Hs1. destruct (cat_run fuel fd c s1 Hs1 Hc) as (s2 & ? & ?). by exists s2, []. }
  exists s'. replace (concat cs) with (concat (zip_with (λ _ c, c) args cs)).
  - split; [|done]. destruct args as [|a [|a2 args]]; done.
  - f_equal. apply Forall2_length in Hfiles. clear -Hfiles. revert args Hfiles. induction cs as [|c cs IH]; intros [|a args] H; simpl in *; try done.
    f_equal. apply IH. lia.
Qed.

(** The words of a text: its maximal runs of characters that are not white space. *)
Fixpoint split_words (cur s : list Z) : list (list Z) :=
  match s with
  | [] => if bool_decide (cur = []) then [] else [cur]
  | c :: s' =>
      if wc_space c then (if bool_decide (cur = []) then [] else [cur]) ++ split_words [] s'
      else split_words (cur ++ [c]) s'
  end.

Definition newlines (s : list Z) : list Z := filter (λ c, c = 10) s.

Lemma wc_step_small k c :
  0 ≤ wc_l k < 2147483647 → 0 ≤ wc_w k < 2147483647 → 0 ≤ wc_c k < 2147483647 →
  wc_step k c =
  mk_counts (wc_l k + b2z (c =? 10)) (if wc_space c then wc_w k else wc_w k + b2z (negb (wc_inword k)))
    (wc_c k + 1) (negb (wc_space c)).
Proof.
  intros Hl Hw Hc. unfold wc_step. rewrite !s32_small by lia.
  destruct (c =? 10), (wc_space c), (wc_inword k); simpl; by rewrite ?Z.add_0_r.
Qed.

Lemma wc_fold cur s k :
  wc_inword k = negb (bool_decide (cur = [])) → 0 ≤ wc_l k ≤ wc_c k → 0 ≤ wc_w k ≤ wc_c k →
  wc_c k + Z.of_nat (length s) < 2147483648 →
  wc_l (foldl wc_step k s) = wc_l k + Z.of_nat (length (newlines s)) ∧
  wc_w (foldl wc_step k s) = wc_w k - b2z (wc_inword k) + Z.of_nat (length (split_words cur s)) ∧
  wc_c (foldl wc_step k s) = wc_c k + Z.of_nat (length s).
Proof.
  revert cur k. induction s as [|c s IH]; intros cur k Hin Hl Hw Hc.
  - simpl. rewrite Hin. case_bool_decide; simpl; lia.
  - cbn [foldl split_words]. simpl length in Hc. rewrite wc_step_small by lia.
    assert (Z.of_nat (length (newlines (c :: s))) = b2z (c =? 10) + Z.of_nat (length (newlines s))) as ->.
    { unfold newlines. rewrite filter_cons. destruct (Z.eqb_spec c 10); [rewrite decide_True by done|rewrite decide_False by done]; simpl; lia. }
    assert (0 ≤ b2z (c =? 10) ≤ 1) by (destruct (c =? 10); simpl; lia).
    assert (b2z (negb (wc_inword k)) = 1 - b2z (wc_inword k)) as Hb by (destruct (wc_inword k); simpl; lia).
    assert (0 ≤ b2z (wc_inword k) ≤ 1) by (destruct (wc_inword k); simpl; lia).
    destruct (wc_space c); cbn [negb].
    + destruct (IH [] (mk_counts (wc_l k + b2z (c =? 10)) (wc_w k) (wc_c k + 1) false)) as (H1 & H2 & H3);
        cbn [wc_l wc_w wc_c wc_inword]; try done; try lia.
      rewrite H1, H2, H3. cbn [wc_l wc_w wc_c wc_inword]. rewrite length_app, Hin. case_bool_decide; simpl; lia.
    + destruct (IH (cur ++ [c]) (mk_counts (wc_l k + b2z (c =? 10)) (wc_w k + b2z (negb (wc_inword k))) (wc_c k + 1) true)) as (H1 & H2 & H3);
        cbn [wc_l wc_w wc_c wc_inword]; try lia.
      { rewrite bool_decide_eq_false_2; [done|]. by destruct cur. }
      rewrite H1, H2, H3. cbn [wc_l wc_w wc_c wc_inword]. simpl. lia.
Qed.

Lemma wc_loop_run fuel fd rest k s :
  os_fds s !! fd = Some rest → (length rest < fuel)%nat →
  ∃ s', run (wc_loop fuel fd k) s = (Returned (foldl wc_step k rest), s') ∧ printed s s' [] (<[fd := []]> (os_fds s)).
Proof.
  revert rest k s. induction fuel as [|f IH]; intros rest k s Hfd Hf; [lia|]. cbn [wc_loop].
  destruct (read_round counts fd rest s Hfd) as (m & s1 & Hrun & Hm & Hpos & Hp1). rewrite Hrun. cbn [rv rdata].
  destruct (Z.ltb_spec 0 (Z.of_nat m)) as [Hlt|Hge].
  - pose proof Hp1 as (_ & Hfds1 & _). destruct (IH (drop m rest) (foldl wc_step k (take m rest)) s1) as (s' & Hr & Hp').
    { rewrite Hfds1. apply lookup_insert_eq. }
    { rewrite length_drop. lia. }
    exists s'. rewrite Hr, <- foldl_app, take_drop. split; [done|]. rewrite Hfds1, insert_insert_eq in Hp'.
    by apply (printed_trans s s1 s' [] [] _ _ Hp1 Hp').
  - assert (m = 0%nat) as -> by lia. assert (rest = []) as -> by (destruct rest; [done|exfalso; by apply (Nat.lt_irrefl 0), Hpos]).
    exists s1. split; [done|done].
Qed.

(** The line [wc] is to print about a file. *)
Definition wc_report (name text : list Z) : list Z :=
  uprintint (Z.of_nat (length (newlines text))) 10 true ++ [32] ++
  uprintint (Z.of_nat (length (split_words [] text))) 10 true ++ [32] ++
  uprintint (Z.of_nat (length text)) 10 true ++ [32] ++ name ++ [10].

Lemma length_filter_le (s : list Z) : (length (newlines s) ≤ length s)%nat.
Proof. unfold newlines. induction s as [|c s IH]; simpl; [done|]. rewrite filter_cons. destruct (decide _); simpl; lia. Qed.

Lemma length_split_words cur s :
  (length (split_words cur s) ≤ length s + if bool_decide (cur = []) then 0 else 1)%nat.
Proof.
  revert cur. induction s as [|c s IH]; intros cur; simpl; [case_bool_decide; simpl; lia|].
  destruct (wc_space c).
  - rewrite length_app. specialize (IH []). simpl in IH. case_bool_decide; simpl; lia.
  - specialize (IH (cur ++ [c])). rewrite (bool_decide_eq_false_2 (cur ++ [c] = [])) in IH by (by destruct cur).
    case_bool_decide; lia.
Qed.

(** The steps of [vprintf] on the directives of the report. *)
Lemma vprintf_char c fmt ap : c ≠ 37 → vprintf_loop (c :: fmt) false ap = (c ::.) <$> vprintf_loop fmt false ap.
Proof. intros H. cbn [vprintf_loop negb]. rewrite (proj2 (Z.eqb_neq c 37)) by done. by destruct (vprintf_loop fmt false ap). Qed.
Lemma vprintf_d fmt x ap :
  vprintf_loop (37 :: 100 :: fmt) false (UA_int x :: ap) = (uprintint (s32 x) 10 true ++.) <$> vprintf_loop fmt false ap.
Proof. cbn [vprintf_loop negb Z.eqb Pos.eqb]. by destruct (vprintf_loop fmt false ap). Qed.
Lemma vprintf_s fmt x ap :
  vprintf_loop (37 :: 115 :: fmt) false (UA_str (Some x) :: ap) = (x ++.) <$> vprintf_loop fmt false ap.
Proof. cbn [vprintf_loop negb Z.eqb Pos.eqb]. by destruct (vprintf_loop fmt false ap). Qed.

Lemma wc_format a b c n :
  vprintf_loop (line "%d %d %d %s") false [UA_int a; UA_int b; UA_int c; UA_str (Some n)] =
  Some (uprintint (s32 a) 10 true ++ [32] ++ uprintint (s32 b) 10 true ++ [32] ++ uprintint (s32 c) 10 true ++ [32] ++ n ++ [10]).
Proof.
  assert (line "%d %d %d %s" = [37; 100; 32; 37; 100; 32; 37; 100; 32; 37; 115; 10]) as -> by (vm_compute; reflexivity).
  rewrite vprintf_d, vprintf_char, vprintf_d, vprintf_char, vprintf_d, vprintf_char, vprintf_s, vprintf_char by done.
  done.
Qed.

Lemma wc_run fuel fd name text s :
  os_fds s !! fd = Some text → (length text < fuel)%nat → Z.of_nat (length text) < 2147483648 →
  ∃ s', run (wc fuel fd name) s = (Returned (), s') ∧ printed s s' (wc_report name text) (<[fd := []]> (os_fds s)).
Proof.
  intros Hfd Hf Hlen. unfold wc. destruct (wc_loop_run fuel fd text (mk_counts 0 0 0 false) s Hfd Hf) as (s1 & Hr & Hp1).
  rewrite urun_bind, Hr. destruct (wc_fold [] text (mk_counts 0 0 0 false)) as (H1 & H2 & H3); simpl; try done; try lia.
  simpl in H1, H2, H3. rewrite H1, H2, H3.
  pose proof (length_filter_le text). pose proof (length_split_words [] text) as Hs. simpl in Hs.
  unfold uprintf, ufprintf. rewrite wc_format, ?Z.sub_0_r, ?Z.add_0_l, !s32_small by lia. fold (wc_report name text).
  destruct (uputs_run 1 (wc_report name text) s1) as (s2 & Hw & Hp2). exists s2. split; [done|].
  apply wrote_printed in Hp2. pose proof (printed_trans _ _ _ _ _ _ _ Hp1 Hp2) as Hp. destruct Hp1 as (_ & Hfds1 & _).
  by rewrite Hfds1 in Hp.
Qed.

(** [wc] of files that exist prints for each the number of its newlines, of its words
    (maximal runs without white space, also those that two chunks of [read] share) and of its
    characters. *)
Theorem wc_correct fuel name args cs fd0 s :
  args ≠ [] → Forall2 (λ a c, lookup_file (os_files s) a = Some c) args cs →
  Forall (λ c, (length c < fuel)%nat ∧ Z.of_nat (length c) < 2147483648) cs → free_fd s = Some fd0 →
  ∃ s', run (wc_main fuel (name :: args)) s = (Exited 0, s') ∧ printed s s' (concat (zip_with wc_report args cs)) (os_fds s).
Proof.
  intros Hne Hfiles Hlen Hfree.
  destruct (files_run (λ fd a, wc fuel fd a) (wc_files fuel) wc_report
    (λ c, (length c < fuel)%nat ∧ Z.of_nat (length c) < 2147483648)
    (λ a, uprintf (line "wc: cannot open %s") [UA_str (Some a)] ;; uexit 1) args cs fd0 s) as (s' & Hr & Hp); try done.
  { intros fd a c s1 [Hc Hc2] Hs1. destruct (wc_run fuel fd a c s1 Hs1 Hc Hc2) as (s2 & ? & ?). by exists s2, []. }
  exists s'. split; [|done]. by destruct args as [|a [|a2 args]].
Qed.

(** ** init *)

Lemma launch_init_wait ok f {A} (k : unit → U A) fds np : launch ok (init_wait f 1 ≫= k) fds np = ([], np).
Proof. revert fds np. induction f as [|f IH]; intros fds np; [done|]. cbn [init_wait]. exact (IH fds np). Qed.

Definition con : fobj := F_file (chars "console") O_RDWR.

(** [init], started without descriptors, starts exactly one program until that program
    exits, the shell, with the console as its three standard streams; and the shell leaves
    them as they are: the console that it opens to make sure of them becomes descriptor 3 and
    is closed again. *)
Theorem init_starts_shell fuel {A} (k : unit → U A) np :
  launch (λ _ _, true) (init_main (S fuel)) ∅ 0 =
    ([mk_prog (chars "sh") [chars "sh"] (std con con con)], 0%nat) ∧
  launch (λ _ _, true) (open_console 17 ≫= k) (std con con con) np =
    launch (λ _ _, true) (k ()) (std con con con) np.
Proof.
  split; [|reflexivity]. unfold init_main.
  change (launch (λ _ _, true) (init_loop (S fuel)) (std con con con) 0 =
    ([mk_prog (chars "sh") [chars "sh"] (std con con con)], 0%nat)).
  cbn [init_loop]. unfold uprintf, ufprintf.
  assert (vprintf_loop (line "init: starting sh") false [] = Some (line "init: starting sh")) as -> by (vm_compute; reflexivity).
  generalize (line "init: starting sh") as cs. intros cs. induction cs as [|c cs IH]; [|exact IH].
  change (launch (λ _ _, true) (uputs 1 [] ≫= ?f)) with (launch (λ _ _, true) (f ())).
  unfold syscall_rv. simpl. rewrite launch_init_wait. done.
Qed.

(** ** Witnesses *)

(** Two files, 97 98 32 10 99 and 100, read three characters at a time. *)
Definition demo_os : uos :=
  mk_uos [([120], [97; 98; 32; 10; 99]); ([121], [100])] (<[0 := []]> (<[1 := []]> (<[2 := []]> ∅))) (λ _, 3%nat) ∅.

Lemma cat_correct_witness :
  ∃ s', run (cat_main 6 [chars "cat"; [120]; [121]]) demo_os = (Exited 0, s') ∧
    printed demo_os s' [97; 98; 32; 10; 99; 100] (os_fds demo_os).
Proof.
  apply (cat_correct 6 (chars "cat") [[120]; [121]] [[97; 98; 32; 10; 99]; [100]] 3 demo_os).
  - discriminate.
  - repeat constructor.
  - repeat constructor; simpl; lia.
  - vm_compute. reflexivity.
Defined.

(** 1 2 5 x  and  0 1 1 y *)
Lemma wc_correct_witness :
  ∃ s', run (wc_main 6 [chars "wc"; [120]; [121]]) demo_os = (Exited 0, s') ∧
    printed demo_os s' [49; 32; 50; 32; 53; 32; 120; 10; 48; 32; 49; 32; 49; 32; 121; 10] (os_fds demo_os).
Proof.
  apply (wc_correct 6 (chars "wc") [[120]; [121]] [[97; 98; 32; 10; 99]; [100]] 3 demo_os).
  - discriminate.
  - repeat constructor.
  - repeat constructor; simpl; lia.
  - vm_compute. reflexivity.
Defined.
