(* ===== verification/GrepProg.v ===== *)
(** * The program grep

    [grep.c] as a tree of system calls over the matcher of [Grep]: the loop that reads and
    writes, and [main]. *)

From Stdlib Require Import ZArith Lia.
From S2P Require Import Prelude Machine CString User Grep Sh ShRun UserProgs.

(** The inner loop: one [write] per matching line; what is left in the buffer. *)
Fixpoint ugrep_lines (fuel : nat) (pattern p : list Z) : U (list Z) :=
  match fuel with
  | O => mret p
  | S f =>
      match split_nl p with
      | None => mret p
      | Some (l, rest) =>
          (if grep_match pattern l then uwrite 1 (l ++ [10]) ;; mret () else mret ()) ;;
          ugrep_lines f pattern rest
      end
  end.

(** [grep]; [buf] are the [m] bytes in the buffer. *)
Fixpoint ugrep (fuel : nat) (pattern buf : list Z) (fd : Z) : U unit :=
  match fuel with
  | O => Ustuck
  | S f =>
      r ← uread fd (1024 - Z.of_nat (length buf) - 1);
      if 0 <? rv r then
        let buf := buf ++ rdata r in
        rest ← ugrep_lines (S (length buf)) pattern buf;
        ugrep f pattern rest fd
      else mret ()
  end.

Fixpoint grep_files (fuel : nat) (pattern : list Z) (args : list (list Z)) : U unit :=
  match args with
  | [] => uexit 0
  | a :: args' =>
      fd ← uopen a 0;
      if fd <? 0 then uprintf (line "grep: cannot open %s") [UA_str (Some a)] ;; uexit 1
      else
        ugrep fuel pattern [] fd ;;
        uclose fd ;;
        grep_files fuel pattern args'
  end.

Definition grep_main (fuel : nat) (argv : list (list Z)) : U unit :=
  match argv with
  | [] | [_] => ufprintf 2 (line "usage: grep pattern [file ...]") [] ;; uexit 1
  | [_; pattern] => ugrep fuel pattern [] 0 ;; uexit 0
  | _ :: pattern :: args => grep_files fuel pattern args
  end.

(** ** What it prints *)

(** The writes of the inner loop are the output of [grep_lines]. *)
Lemma ugrep_lines_run fuel pattern p out s :
  ∃ bs s', grep_lines fuel pattern p out = (out ++ bs, (grep_lines fuel pattern p out).2) ∧
    run (ugrep_lines fuel pattern p) s = (Returned (grep_lines fuel pattern p out).2, s') ∧ printed s s' bs (os_fds s).
Proof.
  revert p out s. induction fuel as [|f IH]; intros p out s; cbn [grep_lines ugrep_lines].
  - exists [], s. rewrite app_nil_r. split_and!; try done. apply wrote_printed, wrote_nil.
  - destruct (split_nl p) as [[l rest]|].
    + destruct (grep_match pattern l).
      * destruct (uwrite_run 1 (l ++ [10]) s) as (s1 & Hw & H1). apply wrote_printed in H1.
        destruct (IH rest (out ++ l ++ [10]) s1) as (bs & s2 & Hg & Hr & H2).
        exists ((l ++ [10]) ++ bs), s2. split; [rewrite Hg at 1; f_equal; by rewrite !app_assoc|]. split.
        -- rewrite !urun_bind, Hw. exact Hr.
        -- pose proof H1 as (_ & Hfds & _). rewrite Hfds in H2. by apply (printed_trans s s1 s2 _ _ (os_fds s)).
      * destruct (IH rest out s) as (bs & s2 & Hg & Hr & H2). by exists bs, s2.
    + exists [], s. rewrite app_nil_r. split_and!; try done. apply wrote_printed, wrote_nil.
Qed.

Lemma ugrep_run fuel pattern buf fd rest s :
  os_fds s !! fd = Some rest → (length rest < fuel)%nat → 0 ∉ buf ++ rest → 10 ∉ buf → (length buf ≤ 1023)%nat →
  (∀ l, l ∈ complete_lines [] (buf ++ rest) → (length l < 1023)%nat) →
  ∃ s' left, run (ugrep fuel pattern buf fd) s = (Returned (), s') ∧
    printed s s' (matching pattern (complete_lines [] (buf ++ rest))) (<[fd := left]> (os_fds s)).
Proof.
  revert buf rest s. induction fuel as [|f IH]; intros buf rest s Hfd Hf H0 H10 Hb Hl; [lia|]. cbn [ugrep].
  destruct (decide (length buf = 1023%nat ∨ rest = [])) as [Hend|Hgo].
  - assert (complete_lines [] (buf ++ rest) = []) as ->.
    { destruct Hend as [Hroom| ->]; [|rewrite app_nil_r; by apply complete_lines_nil].
      destruct (complete_lines [] (buf ++ rest)) as [|l ls] eqn:El; [done|exfalso].
      apply (complete_lines_long (buf ++ rest) [] l); [|by rewrite El|rewrite El; set_solver].
      exists buf, rest. split_and!; [done|done|lia]. }
    eexists _, _. split; [|apply printed_trans with (s1 := s) (bs1 := []) (fds1 := os_fds s)].
    + unfold uread, syscall_ret. simpl. rewrite Hfd.
      assert (Init.Nat.min (Init.Nat.max 1 (os_ready s 0)) (Init.Nat.min (Z.to_nat (1024 - Z.of_nat (length buf) - 1)) (length rest)) = 0%nat) as ->.
      { destruct Hend as [-> | ->]; simpl; lia. }
      simpl. done.
    + apply wrote_printed, wrote_nil.
    + split_and!; try done. by rewrite app_nil_r.
  - destruct (uread_run fd (1024 - Z.of_nat (length buf) - 1) rest s ltac:(lia) Hfd) as (m & s1 & Hr & Hm & Hroom & Hpos & Hfds1 & Hfiles & Hout).
    rewrite urun_bind, Hr. cbn [rv rdata]. assert (0 < m)%nat by (apply Hpos; naive_solver).
    assert (0 <? Z.of_nat m = true) as -> by lia.
    set (b := buf ++ take m rest). destruct (ugrep_lines_run (S (length b)) pattern b [] s1) as (bs & s2 & Hg & Hrun & H2).
    rewrite urun_bind, Hrun.
    assert (0 ∉ b) as H0b.
    { intros H'. apply H0. rewrite <- (take_drop m rest), app_assoc. apply elem_of_app. by left. }
    destruct (grep_lines_spec (S (length b)) pattern b [] H0b ltac:(lia)) as (ls & r & Hg' & Hr' & Hsuf & Hq).
    rewrite Hg' in Hg |- *. cbn [snd app] in Hg |- *. injection Hg as <-.
    specialize (Hq (drop m rest)). unfold b in Hq. rewrite <- app_assoc, take_drop in Hq. rewrite Hq in Hl |- *.
    pose proof H2 as (_ & Hfds2 & _).
    destruct (IH r (drop m rest) s2) as (s3 & lf & Hr3 & H3).
    + rewrite Hfds2, Hfds1. apply lookup_insert_eq.
    + rewrite length_drop. lia.
    + intros H'. apply H0. rewrite <- (take_drop m rest), app_assoc. fold b. destruct Hsuf as [k ->].
      apply elem_of_app in H' as [H'|H']; apply elem_of_app; [left; apply elem_of_app; by right|by right].
    + done.
    + destruct Hsuf as [k Hk]. assert (length b ≤ 1023)%nat by (unfold b; rewrite length_app, length_take; lia).
      rewrite Hk, length_app in *. lia.
    + intros l Hin. apply Hl, elem_of_app. by right.
    + exists s3, lf. split; [exact Hr3|]. rewrite matching_app. rewrite Hfds2, Hfds1, insert_insert_eq in H3.
      eapply printed_trans; [|exact H3]. destruct H2 as (E1 & E2 & E3 & E4). split_and!.
      * by rewrite E1.
      * exact E2.
      * rewrite E3. f_equal. by apply out_of_same.
      * intros fd' Hne. rewrite E4 by done. by apply out_of_same.
Qed.

Lemma zip_with_map_r {A B C} (f : B → C) (l : list A) (k : list B) : length l = length k → zip_with (λ _ b, f b) l k = map f k.
Proof. revert l. induction k as [|b k IH]; intros [|a l] H; simpl in *; try done. f_equal. apply IH. lia. Qed.

(** C34: [grep pattern] on files that exist, without NUL characters and with lines of fewer
    than 1023 characters: it exits with status 0 and has written to standard output exactly
    the newline-terminated lines of the files that match, in order and whole, and nothing
    anywhere else, for every way [read] can cut the files into chunks. *)
Theorem grep_main_correct fuel name pattern args cs fd0 s :
  args ≠ [] → Forall2 (λ a c, lookup_file (os_files s) a = Some c) args cs →
  Forall (λ c, (length c < fuel)%nat ∧ 0 ∉ c ∧ ∀ l, l ∈ complete_lines [] c → (length l < 1023)%nat) cs →
  free_fd s = Some fd0 →
  ∃ s', run (grep_main fuel (name :: pattern :: args)) s = (Exited 0, s') ∧
    printed s s' (concat (map (λ c, matching pattern (complete_lines [] c)) cs)) (os_fds s).
Proof.
  intros Hne Hfiles Hcs Hfree.
  destruct (files_run (λ fd _, ugrep fuel pattern [] fd) (grep_files fuel pattern) (λ _ c, matching pattern (complete_lines [] c))
    (λ c, (length c < fuel)%nat ∧ 0 ∉ c ∧ ∀ l, l ∈ complete_lines [] c → (length l < 1023)%nat)
    (λ a, uprintf (line "grep: cannot open %s") [UA_str (Some a)] ;; uexit 1) args cs fd0 s) as (s' & Hr & Hp); try done.
  { intros fd a c s1 (Hf & H0 & Hl) Hs1. apply (ugrep_run fuel pattern [] fd c s1); try done; [set_solver|simpl; lia]. }
  exists s'. split; [by destruct args|]. rewrite zip_with_map_r in Hp by (by eapply Forall2_length). exact Hp.
Qed.

(** The pattern ^a.*c$ on two files, bytes in chunks of the system's choice. *)
Lemma grep_main_correct_witness :
  ∃ s', run (grep_main 20 [chars "grep"; [94; 97; 46; 42; 99; 36]; [120]; [121]])
      (mk_uos [([120], [97; 98; 99; 10; 120; 97; 98; 99; 10]); ([121], [97; 99; 10; 97; 98])] {[ 0 := [] ]} (λ i, i) ∅) = (Exited 0, s') ∧
    out_of s' 1 = [97; 98; 99; 10; 97; 99; 10].
Proof.
  destruct (grep_main_correct 20 (chars "grep") [94; 97; 46; 42; 99; 36] [[120]; [121]]
    [[97; 98; 99; 10; 120; 97; 98; 99; 10]; [97; 99; 10; 97; 98]] 1
    (mk_uos [([120], [97; 98; 99; 10; 120; 97; 98; 99; 10]); ([121], [97; 99; 10; 97; 98])] {[ 0 := [] ]} (λ i, i) ∅))
    as (s' & Hr & _ & _ & Ho & _).
  - discriminate.
  - repeat constructor.
  - apply Forall_cons; split; [|apply Forall_cons; split; [|apply Forall_nil; exact I]];
      (split; [simpl; lia|split; [apply (bool_decide_unpack _); vm_compute; exact I|]]);
      intros l Hl; vm_compute in Hl; repeat (apply elem_of_cons in Hl as [-> |Hl]; [simpl; lia|]); by apply elem_of_nil in Hl.
  - vm_compute. reflexivity.
  - exists s'. split; [exact Hr|]. rewrite Ho. vm_compute. reflexivity.
Defined.
